(* ===== verification/_CoqProject ===== *)
-Q . S2P
Prelude.v
GoStr.v
GoUtf8.v
Policy.v
GoNet.v
GoUrl.v
GoUrlFacts.v
GoHttp.v
GoQuery.v
NetState.v
Kernel.v
Monitor.v
Runtime.v
RuntimeSeq.v
RuntimeConc.v
Registry.v
Schema.v
Singbox.v
WireGuard.v
Link.v
GoPath.v
GoJson.v
GoJsonData.v
Vless.v
Links.v
GoBase64.v
Shadowsocks.v
Vmess.v
Shipped.v
Xhttp.v
XhttpProps.v
XhttpConn.v
XhttpOpen.v
Sub.v
SubProps.v
Watchdog.v
Proclist.v
Executor.v
ExecutorInv.v
ExecutorProps.v
Store.v
AppStore.v
Netext.v
Procproxy.v
Apps.v
Console.v
ClashApi.v
LogSink.v
Owners.v
Settings.v
Control.v
SysConfig.v
SysPac.v
SysManager.v
SysDarwin.v
SysApi.v
GoFlag.v
Options.v
Feature.v
Commands.v
Remote.v
Startup.v
Lifetime.v
