(* ===== verification/Prelude.v ===== *)
(** * singctl: a verification library

    singctl runs sing-box as a local proxy or as a VPN on a Mac that a
    corporate Cisco client may claim at any time.  A monitor observes the
    network, a policy decides what has to stop or start, an executor carries
    the decision out and serves the user's requests, a runtime manager owns
    the engine cores, and the configuration generators turn the keys a
    registry of protocol modules has parsed into what the cores run.  Around
    them are the subscriptions the keys come from, the files they are stored
    in, the macOS system proxy, the routing of single processes and whole
    applications, the engine's statistics, and the control socket over which
    other invocations and the desktop application drive a running process.
    This library models those parts as executable definitions and proves what
    they are there for: the VPN goes down when Cisco appears, no core is
    leaked, no accepted key is downgraded or left without a node, what is
    stored is what is loaded, a client's request is the daemon's own call, and
    what fails leaves a state it can be tried again from.

    ** The files and what they model

    Shared and of the Go library:

    - [Prelude]: results of fallible functions ([result], [let?]), the tactics
      [split_match], [propify], lemmas on lists and [dedup_from], the Go idiom
      of filtering a list through a [seen] map.
    - [GoStr] ([strings], [strconv], line scanners), [GoUtf8], [GoNet] ([net]),
      [GoUrl], [GoUrlFacts], [GoQuery] ([net/url], parsed and printed),
      [GoHttp] (requests), [GoPath] (paths and the interface [FS] to the file
      system), [GoJson], [GoJsonData] (documents, and values to text and back),
      [GoBase64], [GoFlag] (the command line): what the source uses of each.
      Case tables outside ASCII are the class [GoUnicode].

    Observation and control of the cores:

    - [Policy] ([internal/policy/policy.go]): [Decide], the whole table.
    - [NetState] ([internal/netstate]): the parsers of [ifconfig], [route] and
      [netstat] output, the classification of tunnels, and the verdicts of the
      command-backed detector ([Detector_Observe]) and of the kernel-backed
      one ([snapshot]).  [Kernel]: how the kernel-backed one reads the interface
      and route tables, and the routing socket that wakes the monitor.
    - [Monitor] ([internal/monitor]): the debouncer ([Observe]), one poll
      ([poll]) and the loop with its timers ([run_step]), time in nanoseconds.
    - [Runtime] ([internal/runtime/manager.go]): each method of the manager is
      a program of critical sections ([Lock]) and calls into the injected
      factories.  [RuntimeSeq] runs one method at a time against any
      environment; [RuntimeConc] interleaves any number of them, with the
      time-outs of [transition].
    - [Executor], [ExecutorInv], [ExecutorProps] ([internal/app/executor.go],
      [subscriptions.go], [internal/sub/record.go]): keys, subscriptions,
      rules, modes and the monitor's events, in a state monad over the manager
      of [Runtime]; its invariant; and the end-to-end properties with
      [Monitor].
    - [Watchdog] ([internal/app/watchdog.go]): the pressure window and the
      loop that ends a leaking process.

    Keys and configurations:

    - [Registry] ([internal/protocol]): registration, dispatch by scheme and
      by sniffer, splitting and parsing of batches of keys.
    - [WireGuard], [Link], [Vless], [Links] (trojan, anytls, hysteria,
      hysteria2, tuic), [Shadowsocks], [Vmess] ([internal/protocol/*]): the
      nine modules; [Link] is what those whose links are URLs share.
      [Shipped]: the registry with all nine ([internal/protocol/all]) and the
      conformance harness.
    - [Schema], [Singbox] ([internal/singbox], [internal/firewall]): the
      configuration as data and the three generators, against
      [RendererLaws], what a module promises of its outbounds.
    - [Xhttp], [XhttpProps], [XhttpConn], [XhttpOpen] ([internal/xhttp],
      [internal/singboxext]): the settings, padding and requests of the XHTTP
      transport; its streams, with the uplink buffer as a step relation; the
      outbound and whom it dials; and the opening of a stream, in which a
      goroutine and its caller interleave.
    - [Sub], [SubProps] ([internal/sub]): what a panel answers, in every format
      read, as links the registry accepts.

    What is stored, captured, routed and shown:

    - [Store] ([internal/profile]), [AppStore] ([internal/app/appstore.go]):
      the files, over any file system that keeps [FSLaws].
    - [Proclist] ([internal/proclist]): processes grouped into applications.
      [Procproxy] ([internal/procproxy]): the routers of processes.  [Netext]
      ([internal/netext]): the captured applications, the file the extension
      reads, the probe of its availability.  [Apps]: the part of the executor
      that joins these.
    - [Console] (the ring and its follower), [ClashApi], [Owners]
      ([internal/clashapi], [internal/clashui]): what the engine and the
      launched applications report.
    - [Settings] ([internal/app/executor.go]): the tunables and what changing
      them does to the running cores; Module [Selection] chooses a server.
    - [SysConfig], [SysPac], [SysManager], [SysApi] ([internal/sysproxy] and
      its commands): the configuration of the system proxy and its INI format;
      the auto-configuration script as statements, as text and as what it does
      in a browser; the manager that applies a configuration with its
      rollback, over the interface [NetworkSetup] which the darwin adapter
      discharges; and what is persisted and sent.  [SysDarwin]: what that
      adapter makes of the texts of [networksetup] and [launchctl].
    - [LogSink] (the log of [internal/app/executor.go]): the buffered file of
      connection lines.

    The process:

    - [Control] ([internal/control]): both ends of a request, the questions a
      starting daemon asks of the socket's pathname.
    - [Options] ([cmd/singctl/options.go], [internal/daemon]): the command
      line, the environment, and the arguments of the background process.
    - [Commands] ([registerControl] of [cmd/singctl/main.go]): the state of a
      daemon as the composition of the parts above, and its forty-three
      handlers.
    - [Remote] ([internal/remote/backend.go]): the client's side of them.
    - [Feature] ([internal/feature] and the descriptors of its modules): the
      texts of the help and of the manual page.
    - [Startup] ([cmd/singctl/main.go]): what a process restores and starts,
      interleaved with the clients it already serves.  A command line and a
      start event are one step each here, where the code serves connections
      side by side; where that matters the component has the interleaving
      itself ([RuntimeConc], [AppStore], [Netext], [XhttpOpen]) or a lemma that
      shows what overlapping calls do ([overlapping_starts_leak_a_core],
      [save_race_loses_an_app]).
    - [Lifetime] ([internal/control/lock_unix.go], [internal/daemon],
      [cmd/singctl/main.go]): any number of processes on one configuration
      directory, with the lock, its handing on, and crashes at every step.

    State is a record per component and an operation a function on it; an
    error is a value ([result], or an [option] with [None] for [nil]); code
    not in the repository (the engine, the network, the file system,
    [networksetup], the browser's functions, the YAML decoder) is an argument
    or a class whose laws are its documentation.

    ** What the theorems show

    - The whole process: there is never more than one instance, and what it
      publishes stays its own ([one_instance]); no crash keeps the next one
      from starting ([a_crash_never_blocks]); a restart takes up what was
      stored, when the keys entered by hand are plain links
      ([restart_restores]); a background process runs as the command line
      asked ([background_process_runs_as_asked]); the calls of an attached
      client, one after the other, are the executor's
      ([attached_client_is_the_executor]).  [process_stays_sound] carries the
      invariants of all parts through a start and the lines served meanwhile,
      as long as these do not overlap.
    - Failing closed: a poll that commits Cisco as active while the VPN runs
      ends with no forwarder, whatever came before
      ([fail_closed_end_to_end], over [monitor_fails_closed] and
      [stand_down]); the verdict the polls go by ([kernel_verdict]); which
      messages of the kernel may be slept through
      ([dropped_events_are_invisible]); a leak that lasts ends the process
      ([watchdog_exits], [window_reports_leaks_exactly]).
    - The manager, one call at a time, leaks no core ([manager_no_leaks]); it
      stays down after a shutdown, whatever overlaps it ([shutdown_is_final]).
    - Keys: what the registry accepts is rendered with nothing missing
      ([accepted_keys_render]), as the link says ([vless_is_not_downgraded]),
      and can be renamed ([renamed_links_reload]); which of the links a panel
      sends are accepted ([built_links_parse], [clash_subscription_loads]).
    - Configurations: every tag is declared once and every tag mentioned is
      declared ([proxy_config_closed]); the tunnel configuration is the proxy
      one with a tunnel ([tunnel_is_unbound_proxy]).
    - XHTTP: what is uploaded arrives once and in order
      ([uploads_arrive_in_order], [close_sends_what_was_written]) and each
      packet at its session, wherever the session and number are placed
      ([packets_reach_their_session]); a failed opening leaves nothing behind
      ([failed_opens_leave_nothing]); no document makes a draw panic
      ([draws_stay_in_range]); which links can be dialed
      ([accepted_xhttp_link_dials]).
    - Stores refine independent values ([store_refines], [survives_restart]);
      the log keeps every line ([log_keeps_every_line]).
    - Applications: the extension captures what is enabled or routed
      ([extension_follows_the_applications], [router_books_balance],
      [available_keeps_its_promise]); a connection is named after its owner
      or left alone ([connections_are_named_by_their_owner]); processes are
      partitioned ([groupApps_partitions], [appRoot_terminates]).
    - The system proxy: an accepted configuration is in force
      ([apply_commits]); one that fails is rolled back to the old listener,
      script and service, without the manual settings and bypass list of a
      service that was off ([apply_rolls_back]); the script
      and its Go mirror agree ([pac_agrees_with_matcher]); its texts are read
      back, when they are clean ([ini_roundtrip],
      [saved_proxy_survives_restart]), and its requests ([request_decodes_onto_live]).
    - Clients: settings take effect ([settings_take_effect]); a follower with a
      channel that has room misses no line ([follower_sees_every_line]); a
      selection is a member of the configuration once the engine has measured
      it ([selection_follows_the_configuration]); what answers on a socket's
      pathname stays ([live_sockets_survive]).
    - What the code gets wrong, as lemmas on concrete runs in the file of
      their component: the races of overlapping transitions in [RuntimeConc],
      the keys that come back glued or manual, the applications that stay
      captured, the flags a background process drops, and others.

    ** Bounds and fuel

    Recursion on text is fuelled by the length of the text, which every step
    shortens ([trim_with], [fields_from], [chunks], [write_loop]); an IPv6
    address has at most eight groups, the fuel of [parse_groups].  The walk up
    the parent chain of processes is fuelled by the number of rows and two
    more, and [appRoot_terminates] shows that it never runs out.  JSON is read
    by two structural passes, so it needs none.  Programs of [Runtime] are
    trees with no loop, so running one terminates by structure.  Machine integers
    are kept where they wrap or bound: the manager's generation counter is
    taken modulo 2^64, durations are counted in nanoseconds, and the draws of
    [Xhttp] are in the range of [int32].

    ** What is not modelled

    The engine and its transports, what happens on the wire and the kernel are
    outside: they are arguments and classes, the constructors of the engine
    ([Engine]) among them; what [Lifetime] needs of file locks, descriptors and
    socket pathnames is defined there.  Of the program itself the texts of
    prompts and errors, the messages pushed to a screen, and what is printed
    on a terminal are left out, as are the adapters that only run a command
    and hand on its output, the lock and the detached process of Windows, and
    the Swift and Kotlin user interfaces (the part of the extension that reads
    the file of targets is in [Netext]). *)

From Stdlib Require Export ZArith Lia Ascii String.
From stdpp Require Export base decidable option list gmap sets strings relations.

#[export] Set Warnings "-clear-no-such-hyp".

(** ** Results of fallible Go functions

    A Go function that returns [(T, error)] becomes a function into
    [result E T]; a function that returns only [error] becomes a function
    into [option E], with [None] for [nil]. *)

Inductive result (E A : Type) : Type :=
  | Ok (a : A)
  | Err (e : E).
Arguments Ok {E A} a.
Arguments Err {E A} e.

Definition rbind {E A B} (r : result E A) (k : A → result E B) : result E B :=
  match r with
  | Ok a => k a
  | Err e => Err e
  end.

Definition is_ok {E A} (r : result E A) : bool :=
  match r with Ok _ => true | Err _ => false end.

Declare Scope go_scope.
Delimit Scope go_scope with go.
Notation "'let?' x ':=' r 'in' k" := (rbind r (fun x => k))
  (at level 10, x pattern, r at level 100, k at level 200) : go_scope.
Open Scope go_scope.

#[export] Instance result_eq_dec {E A} `{EqDecision E} `{EqDecision A} : EqDecision (result E A).
Proof. solve_decision. Defined.

Lemma rbind_Ok_inv {E A B} (r : result E A) (k : A → result E B) b :
  rbind r k = Ok b → ∃ a, r = Ok a ∧ k a = Ok b.
Proof. destruct r; simpl; naive_solver. Qed.

Lemma rbind_Err_inv {E A B} (r : result E A) (k : A → result E B) e :
  rbind r k = Err e → r = Err e ∨ ∃ a, r = Ok a ∧ k a = Err e.
Proof. destruct r; simpl; naive_solver. Qed.

(** ** Automation *)

Create HintDb go.

(** Case analysis on the scrutinee of a [match] or an [if] of the goal or of a
    hypothesis, remembering the equation. *)
Ltac split_match :=
  match goal with
  | |- context [match ?x with _ => _ end] =>
      lazymatch x with context [match _ with _ => _ end] => fail | _ => destruct x eqn:? end
  | H : context [match ?x with _ => _ end] |- _ =>
      lazymatch x with context [match _ with _ => _ end] => fail | _ => destruct x eqn:? end
  end.

Ltac split_matches := repeat (split_match; simplify_eq/=).

(** Turn the boolean tests of the context into propositions. *)
Ltac propify :=
  repeat match goal with
  | H : (_ && _)%bool = true |- _ => apply andb_true_iff in H as [? ?]
  | H : (_ || _)%bool = false |- _ => apply orb_false_iff in H as [? ?]
  | H : negb _ = true |- _ => apply negb_true_iff in H
  | H : negb _ = false |- _ => apply negb_false_iff in H
  | H : bool_decide _ = true |- _ => apply bool_decide_eq_true in H
  | H : bool_decide _ = false |- _ => apply bool_decide_eq_false in H
  | H : (_ =? _)%Z = true |- _ => apply Z.eqb_eq in H
  | H : (_ =? _)%Z = false |- _ => apply Z.eqb_neq in H
  | H : (_ <=? _)%Z = true |- _ => apply Z.leb_le in H
  | H : (_ <=? _)%Z = false |- _ => apply Z.leb_gt in H
  | H : (_ <? _)%Z = true |- _ => apply Z.ltb_lt in H
  | H : (_ <? _)%Z = false |- _ => apply Z.ltb_ge in H
  end.

(** ** Generic lemmas *)

Lemma existsb_false_Forall {A} (f : A → bool) (l : list A) :
  existsb f l = false ↔ Forall (λ x, f x = false) l.
Proof.
  induction l as [|x l IH]; simpl; [by split|].
  rewrite orb_false_iff, IH, Forall_cons. done.
Qed.

Lemma existsb_true_Exists {A} (f : A → bool) (l : list A) :
  existsb f l = true ↔ Exists (λ x, f x = true) l.
Proof.
  induction l as [|x l IH]; simpl; [by split; [|inversion 1]|].
  rewrite orb_true_iff, IH, Exists_cons. done.
Qed.

Lemma existsb_app_or {A} (f : A → bool) (l k : list A) :
  existsb f (l ++ k) = existsb f l || existsb f k.
Proof. induction l as [|x l IH]; simpl; [done|]. by rewrite IH, orb_assoc. Qed.

(** An invariant of a step relation holds in every reachable state. *)
Lemma rtc_invariant {A} (R : relation A) (P : A → Prop) x y :
  (∀ a b, P a → R a b → P b) → P x → rtc R x y → P y.
Proof. intros HR Hx Hxy. induction Hxy; eauto. Qed.

(** [dedup_keep eqb l] keeps the first occurrence of every element, the way
    Go code filters a list through a [seen] map. *)
Section dedup.
Context {A : Type} `{EqDecision A}.

Fixpoint dedup_from (seen : list A) (l : list A) : list A :=
  match l with
  | [] => []
  | x :: l' =>
      if bool_decide (x ∈ seen) then dedup_from seen l'
      else x :: dedup_from (x :: seen) l'
  end.

Lemma elem_of_dedup_from seen l x :
  x ∈ dedup_from seen l ↔ x ∈ l ∧ x ∉ seen.
Proof.
  revert seen. induction l as [|y l IH]; intros seen; simpl; [set_solver|].
  case_bool_decide as Hy; [rewrite IH; set_solver|].
  rewrite elem_of_cons, IH. destruct (decide (x = y)); set_solver.
Qed.

Lemma NoDup_dedup_from seen l : NoDup (dedup_from seen l).
Proof.
  revert seen. induction l as [|y l IH]; intros seen; simpl; [constructor|].
  case_bool_decide; [apply IH|]. constructor; [|apply IH].
  rewrite elem_of_dedup_from. set_solver.
Qed.

Lemma dedup_from_sublist seen l : sublist (dedup_from seen l) l.
Proof.
  revert seen. induction l as [|y l IH]; intros seen; simpl; [constructor|].
  case_bool_decide; by constructor.
Qed.

Lemma dedup_from_id seen l :
  NoDup l → (∀ x, x ∈ l → x ∉ seen) → dedup_from seen l = l.
Proof.
  revert seen. induction l as [|y l IH]; intros seen Hnd Hs; simpl; [done|].
  apply NoDup_cons in Hnd as [Hy Hnd].
  rewrite bool_decide_eq_false_2 by (apply Hs; set_solver). f_equal.
  apply IH; [done|]. intros x Hx. rewrite not_elem_of_cons. split; [by intros ->|].
  apply Hs; set_solver.
Qed.
Lemma dedup_from_app (seen l k : list A) :
  ∃ k', dedup_from seen (l ++ k) = dedup_from seen l ++ k'.
Proof.
  revert seen. induction l as [|a l IH]; intros seen; simpl; [by eexists|].
  case_bool_decide; [apply IH|]. destruct (IH (a :: seen)) as [k' ->]. by exists k'.
Qed.
Lemma dedup_from_snoc (seen l : list A) (x : A) :
  dedup_from seen (l ++ [x]) = dedup_from seen l ++ (if bool_decide (x ∈ l ∨ x ∈ seen) then [] else [x]).
Proof.
  revert seen. induction l as [|y l IH]; intros seen; simpl.
  - rewrite (bool_decide_ext (x ∈ [] ∨ x ∈ seen) (x ∈ seen)); [done|]. set_solver.
  - case_bool_decide as Hy; rewrite IH.
    + rewrite (bool_decide_ext (x ∈ y :: l ∨ x ∈ seen) (x ∈ l ∨ x ∈ seen)); [done|]. set_solver.
    + rewrite (bool_decide_ext (x ∈ y :: l ∨ x ∈ seen) (x ∈ l ∨ x ∈ y :: seen)); [done|]. set_solver.
Qed.
End dedup.

(** Rows put into buckets the way Go code does it with a map of indices: a row
    goes into the bucket of its key, which is appended where there is none. *)
Section group.
Context {K A B : Type} `{EqDecision K} (key : A → K) (name : B → K) (new : A → B) (upd : A → B → B).

Fixpoint group_add (bs : list B) (a : A) : list B :=
  match bs with
  | [] => [new a]
  | b :: bs => if bool_decide (name b = key a) then upd a b :: bs else b :: group_add bs a
  end.

(** What a bucket should be: made of the rows with its key, in order. *)
Definition bucket (l : list A) (k : K) : option B :=
  match filter (λ a, key a = k) l with [] => None | a :: l => Some (foldl (λ b a, upd a b) (new a) l) end.

Hypothesis name_new : ∀ a, name (new a) = key a.
Hypothesis name_upd : ∀ a b, name (upd a b) = name b.

Lemma group_add_names bs a :
  name <$> group_add bs a = (name <$> bs) ++ (if bool_decide (key a ∈ name <$> bs) then [] else [key a]).
Proof.
  induction bs as [|b bs IH]; [simpl; by rewrite name_new|]. cbn [group_add].
  destruct (bool_decide_reflect (name b = key a)) as [Hb|Hb]; rewrite !fmap_cons, ?name_upd.
  - rewrite bool_decide_eq_true_2 by (rewrite Hb; by left). by rewrite app_nil_r.
  - rewrite IH, (bool_decide_ext (key a ∈ name b :: (name <$> bs)) (key a ∈ name <$> bs)); [done|].
    rewrite elem_of_cons. naive_solver.
Qed.

Lemma bucket_snoc l a k : bucket (l ++ [a]) k =
  if bool_decide (key a = k) then Some (match bucket l k with Some b => upd a b | None => new a end) else bucket l k.
Proof.
  unfold bucket. rewrite filter_app, filter_cons, filter_nil. case_decide as Hk.
  - rewrite bool_decide_eq_true_2 by done. destruct (filter _ l) as [|a0 r]; simpl; [done|]. by rewrite foldl_app.
  - by rewrite bool_decide_eq_false_2, app_nil_r by done.
Qed.

Lemma group_add_buckets l a bs : NoDup (name <$> bs) → Forall (λ b, bucket l (name b) = Some b) bs →
  (key a ∈ name <$> bs ∨ bucket l (key a) = None) →
  Forall (λ b, bucket (l ++ [a]) (name b) = Some b) (group_add bs a).
Proof.
  induction bs as [|b bs IH]; cbn [group_add]; rewrite ?fmap_cons; intros Hnd Hbs Hnew.
  - constructor; [|constructor]. rewrite bucket_snoc, name_new, bool_decide_eq_true_2 by done.
    destruct Hnew as [?%not_elem_of_nil| ->]; done.
  - apply NoDup_cons in Hnd as [Hb Hnd]. apply Forall_cons in Hbs as [Hbb Hbs].
    destruct (bool_decide_reflect (name b = key a)) as [Hk|Hk]; constructor.
    + by rewrite name_upd, bucket_snoc, bool_decide_eq_true_2, Hbb by done.
    + rewrite Forall_forall in Hbs |- *. intros b' Hin. rewrite bucket_snoc, bool_decide_eq_false_2; [by apply Hbs|].
      intros He. apply Hb. rewrite Hk, He. by apply list_elem_of_fmap_2.
    + by rewrite bucket_snoc, bool_decide_eq_false_2 by done.
    + apply IH; [done|done|]. destruct Hnew as [Hin|?]; [|by right]. left. apply elem_of_cons in Hin as [?|?]; [by destruct Hk|done].
Qed.

(** Grouping: every key once, in the order of its first row, with its bucket. *)
Lemma group_spec l : let bs := foldl group_add [] l in
  name <$> bs = dedup_from [] (key <$> l) ∧ Forall (λ b, bucket l (name b) = Some b) bs.
Proof.
  induction l as [|a l IH] using rev_ind; [by split; [|constructor]|]. destruct IH as [Hn Hb].
  cbv zeta. rewrite foldl_app. simpl. split.
  - rewrite group_add_names, Hn, fmap_app. simpl. rewrite dedup_from_snoc.
    f_equal. rewrite (bool_decide_ext (key a ∈ dedup_from [] (key <$> l)) (key a ∈ key <$> l ∨ key a ∈ [])); [done|].
    rewrite elem_of_dedup_from. set_solver.
  - apply group_add_buckets; [rewrite Hn; apply NoDup_dedup_from|done|]. rewrite Hn, elem_of_dedup_from.
    destruct (decide (key a ∈ key <$> l)) as [Hin|Hin]; [left; split; [done|apply not_elem_of_nil]|right].
    unfold bucket. destruct (filter _ l) as [|x r] eqn:E; [done|]. exfalso. apply Hin.
    assert (x ∈ filter (λ b, key b = key a) l) as [<- Hx]%list_elem_of_filter by (rewrite E; by left).
    by apply list_elem_of_fmap_2.
Qed.
End group.

#[export] Hint Resolve NoDup_dedup_from : go.
