(* ===== verification/GoStr.v ===== *)
(** * GoStr: the Go string functions the program calls

    A Go string is a sequence of bytes, here a [String.string] whose [ascii]
    characters are those bytes; text outside ASCII is its UTF-8 encoding, as
    in Go.  Every function follows the documented behaviour of package
    [strings], [strconv] or [bufio] of the Go standard library:

    - [TrimSpace], [Fields]: white space is the Unicode White_Space property,
      recognised on its UTF-8 encodings (1, 2 or 3 bytes);
    - [ToLower]: Go maps ASCII text byte by byte and hands other text to the
      Unicode tables, which are the parameter [lower_unicode];
    - [scan_lines]: a [bufio.Scanner] with the [ScanLines] split function and
      its limit on the length of a token;
    - [Atoi], [Itoa], [ParseBool]: 64-bit decimal integers and booleans. *)

From S2P Require Export Prelude.
From stdpp Require Export sorting.
From Stdlib Require Import DecimalString DecimalN DecimalZ.

Local Open Scope string_scope.
Local Open Scope list_scope.

(** ** Characters *)

Definition byte_val (c : ascii) : N := N_of_ascii c.
Definition is_ascii_byte (c : ascii) : bool := (byte_val c <? 128)%N.
Definition in_range (lo hi : N) (c : ascii) : bool := ((lo <=? byte_val c) && (byte_val c <=? hi))%N.
Definition is_digit (c : ascii) : bool := in_range 48 57 c.
Definition lower_byte (c : ascii) : ascii :=
  if in_range 65 90 c then ascii_of_N (byte_val c + 32) else c.
(** A [\w] of a Go regular expression. *)
Definition is_word_byte (c : ascii) : bool :=
  in_range 48 57 c || in_range 65 90 c || in_range 97 122 c || (byte_val c =? 95)%N.

Definition LF : ascii := "010".
Definition CR : ascii := "013".
Definition TAB : ascii := "009".
Definition nl : string := String LF "".

(** ** Strings as lists of bytes *)

Fixpoint str_map (f : ascii → ascii) (s : string) : string :=
  match s with "" => "" | String c s' => String (f c) (str_map f s') end.

Fixpoint str_forallb (f : ascii → bool) (s : string) : bool :=
  match s with "" => true | String c s' => f c && str_forallb f s' end.

Definition str_has (c : ascii) (s : string) : bool :=
  negb (str_forallb (λ d, negb (Ascii.eqb c d)) s).

Fixpoint str_filter (f : ascii → bool) (s : string) : string :=
  match s with
  | "" => ""
  | String c s' => if f c then String c (str_filter f s') else str_filter f s'
  end.

Fixpoint rev_onto (s acc : string) : string :=
  match s with "" => acc | String c s' => rev_onto s' (String c acc) end.
Definition srev (s : string) : string := rev_onto s "".

(** [len(s)] *)
Definition slen (s : string) : Z := Z.of_nat (String.length s).

(** ** Prefixes, suffixes, substrings *)

(** [strings.CutPrefix] *)
Fixpoint CutPrefix (p s : string) : option string :=
  match p, s with
  | "", _ => Some s
  | String a p', String b s' => if Ascii.eqb a b then CutPrefix p' s' else None
  | String _ _, "" => None
  end.

Definition HasPrefix (s p : string) : bool :=
  match CutPrefix p s with Some _ => true | None => false end.
Definition HasSuffix (s p : string) : bool := HasPrefix (srev s) (srev p).
Definition TrimPrefix (s p : string) : string :=
  match CutPrefix p s with Some r => r | None => s end.
Definition TrimSuffix (s suf : string) : string := srev (TrimPrefix (srev s) (srev suf)).

(** [strings.Cut]: around the first occurrence of [sep]. *)
Fixpoint Cut (s sep : string) : option (string * string) :=
  match CutPrefix sep s with
  | Some r => Some ("", r)
  | None =>
      match s with
      | "" => None
      | String c s' =>
          match Cut s' sep with
          | Some (a, b) => Some (String c a, b)
          | None => None
          end
      end
  end.

(** [strings.Contains] *)
Definition Contains (s sub : string) : bool :=
  match Cut s sub with Some _ => true | None => false end.

(** [strings.Split(s, sep)] for a one-byte separator. *)
Fixpoint split_byte (c : ascii) (s : string) : list string :=
  match s with
  | "" => [""]
  | String d s' =>
      if Ascii.eqb c d then "" :: split_byte c s'
      else match split_byte c s' with
           | [] => [String d ""]
           | x :: l => String d x :: l
           end
  end.

(** The part of [s] before the first byte that satisfies [f]
    ([s[:strings.IndexAny(s, ...)]], the whole of [s] if there is none). *)
Fixpoint before_byte (f : ascii → bool) (s : string) : string :=
  match s with
  | "" => ""
  | String c s' => if f c then "" else String c (before_byte f s')
  end.

(** [strings.Join] *)
Fixpoint Join (sep : string) (l : list string) : string :=
  match l with
  | [] => ""
  | [x] => x
  | x :: l' => x +:+ sep +:+ Join sep l'
  end.

(** ** White space *)

Definition ascii_space (c : ascii) : bool :=
  in_range 9 13 c || (byte_val c =? 32)%N.
(** U+0085, U+00A0 *)
Definition space2 (a b : ascii) : bool :=
  ((byte_val a =? 194) && ((byte_val b =? 133) || (byte_val b =? 160)))%N.
(** U+1680, U+2000..U+200A, U+2028, U+2029, U+202F, U+205F, U+3000 *)
Definition space3 (a b c : ascii) : bool :=
  let a := byte_val a in let b := byte_val b in let c := byte_val c in
  (((a =? 225) && (b =? 154) && (c =? 128))
   || ((a =? 226) && (b =? 128) &&
       (((128 <=? c) && (c <=? 138)) || (c =? 168) || (c =? 169) || (c =? 175)))
   || ((a =? 226) && (b =? 129) && (c =? 159))
   || ((a =? 227) && (b =? 128) && (c =? 128)))%N.

(** Drop one leading white-space character, if there is one. *)
Definition cut_space (s : string) : option string :=
  match s with
  | "" => None
  | String a s1 =>
      if ascii_space a then Some s1 else
      match s1 with
      | "" => None
      | String b s2 =>
          if space2 a b then Some s2 else
          match s2 with
          | "" => None
          | String c s3 => if space3 a b c then Some s3 else None
          end
      end
  end.

(** The same on a reversed string: one trailing white-space character. *)
Definition cut_space_rev (s : string) : option string :=
  match s with
  | "" => None
  | String a s1 =>
      if ascii_space a then Some s1 else
      match s1 with
      | "" => None
      | String b s2 =>
          if space2 b a then Some s2 else
          match s2 with
          | "" => None
          | String c s3 => if space3 c b a then Some s3 else None
          end
      end
  end.

Fixpoint trim_with (cut : string → option string) (fuel : nat) (s : string) : string :=
  match fuel with
  | O => s
  | S n => match cut s with Some r => trim_with cut n r | None => s end
  end.

Definition TrimLeftSpace (s : string) : string := trim_with cut_space (String.length s) s.
Definition TrimRightSpace (s : string) : string :=
  srev (trim_with cut_space_rev (String.length s) (srev s)).
(** [strings.TrimSpace] *)
Definition TrimSpace (s : string) : string := TrimRightSpace (TrimLeftSpace s).

(** [strings.TrimRight(s, cutset)] for an ASCII cutset. *)
Fixpoint drop_while (f : ascii → bool) (s : string) : string :=
  match s with
  | "" => ""
  | String c s' => if f c then drop_while f s' else s
  end.
Definition TrimRightBytes (f : ascii → bool) (s : string) : string :=
  srev (drop_while f (srev s)).

(** [strings.Fields]: [cur] is the field being read, reversed. *)
Fixpoint fields_from (fuel : nat) (cur s : string) : list string :=
  let flush := if String.eqb cur "" then [] else [srev cur] in
  match fuel with
  | O => flush
  | S n =>
      match cut_space s with
      | Some r => flush ++ fields_from n "" r
      | None => match s with
                | "" => flush
                | String c s' => fields_from n (String c cur) s'
                end
      end
  end.
Definition Fields (s : string) : list string := fields_from (S (String.length s)) "" s.

(** ** Case *)

(** The Unicode case tables, which only text outside ASCII reaches. *)
Class GoUnicode := { lower_unicode : string → string }.

(** [strings.ToLower] *)
Definition ToLower `{GoUnicode} (s : string) : string :=
  if str_forallb is_ascii_byte s then str_map lower_byte s else lower_unicode s.

(** A lower-casing that leaves text outside ASCII alone, for concrete runs. *)
Definition ascii_only : GoUnicode := {| lower_unicode := λ s, s |}.

(** Simple case folding, which only text outside ASCII reaches. *)
Class GoFold := { fold_unicode : string → string → bool }.

(** [strings.EqualFold] *)
Definition EqualFold `{GoFold} (s t : string) : bool :=
  if str_forallb is_ascii_byte s && str_forallb is_ascii_byte t then String.eqb (str_map lower_byte s) (str_map lower_byte t)
  else fold_unicode s t.

(** ** Lines *)

Fixpoint split_lines (s : string) : list string :=
  match s with
  | "" => []
  | String c s' =>
      if Ascii.eqb c LF then "" :: split_lines s'
      else match split_lines s' with
           | [] => [String c ""]
           | x :: l => String c x :: l
           end
  end.

Fixpoint drop_cr (s : string) : string :=
  match s with
  | "" => ""
  | String c s' => if Ascii.eqb c CR && String.eqb s' "" then "" else String c (drop_cr s')
  end.

(** The tokens a scanner with buffer size [max] returns, and whether it stopped
    on a line that does not fit ([bufio.ErrTooLong]). *)
Fixpoint scan_tokens (max : Z) (ls : list string) : list string * bool :=
  match ls with
  | [] => ([], false)
  | l :: ls' =>
      if (slen l <? max)%Z then
        let '(toks, e) := scan_tokens max ls' in (drop_cr l :: toks, e)
      else ([], true)
  end.
Definition scan_lines (max : Z) (s : string) : list string * bool :=
  scan_tokens max (split_lines s).

Definition MaxScanTokenSize : Z := 65536.

(** ** Numbers and booleans *)

Definition int64_min : Z := -9223372036854775808.
Definition int64_max : Z := 9223372036854775807.

Definition parse_digits (s : string) : option N :=
  match s with
  | "" => None
  | _ => N.of_uint <$> NilEmpty.uint_of_string s
  end.

Definition in_int64 (z : Z) : option Z :=
  if ((int64_min <=? z) && (z <=? int64_max))%Z then Some z else None.

(** [strconv.Atoi] on a 64-bit platform; [None] is an error. *)
Definition Atoi (s : string) : option Z :=
  match s with
  | String c s' =>
      if Ascii.eqb c "-" then n ← parse_digits s'; in_int64 (- Z.of_N n)
      else if Ascii.eqb c "+" then n ← parse_digits s'; in_int64 (Z.of_N n)
      else n ← parse_digits s; in_int64 (Z.of_N n)
  | "" => None
  end.

Definition utoa (n : N) : string := NilEmpty.string_of_uint (N.to_uint n).
(** [fmt.Sprintf("%d", z)] *)
Definition Itoa (z : Z) : string :=
  if (z <? 0)%Z then String "-" (utoa (Z.to_N (- z))) else utoa (Z.to_N z).

(** [strconv.ParseBool] *)
Definition ParseBool (s : string) : option bool :=
  if bool_decide (s ∈ ["1"; "t"; "T"; "TRUE"; "true"; "True"]) then Some true
  else if bool_decide (s ∈ ["0"; "f"; "F"; "FALSE"; "false"; "False"]) then Some false
  else None.

(** [fmt.Sprintf("%t", b)] *)
Definition Btoa (b : bool) : string := if b then "true" else "false".

(** ** Quoting *)

Definition DQ : ascii := ascii_of_N 34.
Definition hex_char (n : N) : ascii := ascii_of_N (if (n <? 10)%N then 48 + n else 87 + n).

Definition quote_byte (c : ascii) : string :=
  let n := byte_val c in
  match n with
  | 34%N => "\" +:+ String c ""
  | 92%N => "\\"
  | 7%N => "\a" | 8%N => "\b" | 9%N => "\t" | 10%N => "\n" | 11%N => "\v" | 12%N => "\f" | 13%N => "\r"
  | _ => if ((n <? 32) || (n =? 127))%N
         then "\x" +:+ String (hex_char (n / 16)) (String (hex_char (n mod 16)) "")
         else String c ""
  end.

(** [fmt.Sprintf("%q", s)]; text outside ASCII is quoted by the Unicode tables. *)
Class GoQuote := { quote_unicode : string → string }.

Definition Quote `{GoQuote} (s : string) : string :=
  if str_forallb is_ascii_byte s
  then String DQ ((fix go s := match s with "" => "" | String c s' => quote_byte c +:+ go s' end) s
                  +:+ String DQ "")
  else quote_unicode s.

(** For concrete runs. *)
Definition quote_as_is : GoQuote := {| quote_unicode := λ s, s |}.

(** ** Sorting *)

(** [sort.Strings]: Go compares strings bytewise. *)
Definition sort_strings (l : list string) : list string := merge_sort String.le l.

Lemma sort_strings_perm l : sort_strings l ≡ₚ l.
Proof. apply merge_sort_Permutation. Qed.

Lemma sort_strings_sorted l : StronglySorted String.le (sort_strings l).
Proof. apply (StronglySorted_merge_sort _). Qed.

Lemma sort_strings_unique l k : l ≡ₚ k → sort_strings l = sort_strings k.
Proof.
  intros Hp. apply (StronglySorted_unique String.le); try apply sort_strings_sorted.
  by rewrite !sort_strings_perm.
Qed.

Lemma elem_of_sort_strings l x : x ∈ sort_strings l ↔ x ∈ l.
Proof. by rewrite sort_strings_perm. Qed.

Lemma sort_strings_head l x k :
  sort_strings l = x :: k → x ∈ l ∧ ∀ y, y ∈ l → String.le x y.
Proof.
  intros Hs. pose proof (sort_strings_sorted l) as Hsort. rewrite Hs in Hsort.
  apply StronglySorted_inv in Hsort as [_ Hall]. rewrite Forall_forall in Hall.
  setoid_rewrite <- (elem_of_sort_strings l). rewrite Hs. split; [left|].
  intros y [->|Hy]%elem_of_cons; [done|]. by apply Hall.
Qed.

Lemma sort_strings_nil l : sort_strings l = [] ↔ l = [].
Proof.
  split; intros H; [|by rewrite H].
  apply Permutation_nil. by rewrite <- H, sort_strings_perm.
Qed.

(** ** Lemmas on strings *)

#[local] Arguments String.append !_ _ / : simpl nomatch.

Lemma app_nil_str (s : string) : s +:+ "" = s.
Proof. induction s as [|c s IH]; [done|]. simpl. by rewrite IH. Qed.

Lemma app_assoc_str (a b c : string) : (a +:+ b) +:+ c = a +:+ (b +:+ c).
Proof. induction a as [|x a IH]; simpl; [done|]. by rewrite IH. Qed.

Lemma length_app_str (a b : string) :
  String.length (a +:+ b) = (String.length a + String.length b)%nat.
Proof. induction a as [|x a IH]; simpl; [done|]. by rewrite IH. Qed.

Lemma rev_onto_app (a acc : string) : rev_onto a acc = srev a +:+ acc.
Proof.
  unfold srev. revert acc. induction a as [|x a IH]; intros acc; simpl; [done|].
  rewrite IH, (IH (String x "")), app_assoc_str. done.
Qed.

Lemma srev_cons c (s : string) : srev (String c s) = srev s +:+ String c "".
Proof. unfold srev at 1. simpl. apply rev_onto_app. Qed.

Lemma srev_app (a b : string) : srev (a +:+ b) = srev b +:+ srev a.
Proof.
  induction a as [|x a IH]; simpl; [by rewrite app_nil_str|].
  by rewrite !srev_cons, IH, app_assoc_str.
Qed.

Lemma srev_srev (s : string) : srev (srev s) = s.
Proof. induction s as [|c s IH]; [done|]. rewrite srev_cons, srev_app, IH. done. Qed.

Lemma length_srev (s : string) : String.length (srev s) = String.length s.
Proof. induction s as [|c s IH]; [done|]. rewrite srev_cons, length_app_str, IH. simpl. lia. Qed.

Lemma str_forallb_app f (a b : string) :
  str_forallb f (a +:+ b) = str_forallb f a && str_forallb f b.
Proof. induction a as [|x a IH]; simpl; [done|]. by rewrite IH, andb_assoc. Qed.

Lemma str_forallb_impl (f g : ascii → bool) (s : string) :
  (∀ c, f c = true → g c = true) → str_forallb f s = true → str_forallb g s = true.
Proof.
  intros Hfg. induction s as [|c s IH]; simpl; [done|].
  intros [Hc Hs]%andb_true_iff. by rewrite (Hfg _ Hc), IH.
Qed.

Lemma substring_whole (s : string) : String.substring 0 (String.length s) s = s.
Proof. induction s as [|c s IH]; simpl; [done|]. by rewrite IH. Qed.

Lemma substring_prefix (a b : string) : String.substring 0 (String.length a) (a +:+ b) = a.
Proof. induction a as [|c a IH]; simpl; [by destruct b|]. by rewrite IH. Qed.

Lemma substring_skip (a b : string) n : String.substring (String.length a) n (a +:+ b) = String.substring 0 n b.
Proof. induction a as [|c a IH]; simpl; done. Qed.

Lemma CutPrefix_Some p s r : CutPrefix p s = Some r ↔ s = p +:+ r.
Proof.
  revert s. induction p as [|c p IH]; intros [|d s]; simpl; try by split; intros; simplify_eq.
  destruct (Ascii.eqb c d) eqn:Hc; [apply Ascii.eqb_eq in Hc as ->|apply Ascii.eqb_neq in Hc].
  - rewrite IH. split; intros; by simplify_eq.
  - split; intros; by simplify_eq.
Qed.

Lemma CutPrefix_app p s t r : CutPrefix p s = Some r → CutPrefix p (s +:+ t) = Some (r +:+ t).
Proof. rewrite !CutPrefix_Some. intros ->. by rewrite app_assoc_str. Qed.

(** A prefix without line feeds does not reach past one. *)
Lemma CutPrefix_LF p s t r :
  str_has LF p = false → CutPrefix p (s +:+ String LF t) = Some r →
  ∃ r', CutPrefix p s = Some r' ∧ r = r' +:+ String LF t.
Proof.
  revert s. induction p as [|c p IH]; intros s; [naive_solver|].
  unfold str_has. cbn [str_forallb]. rewrite negb_false_iff, andb_true_iff.
  intros [Hc%negb_true_iff Hp]. destruct s as [|d s].
  - change ("" +:+ String LF t) with (String LF t). cbn [CutPrefix].
    destruct (Ascii.eqb_spec c LF) as [->|_]; [by rewrite Ascii.eqb_refl in Hc|done].
  - change (String d s +:+ String LF t) with (String d (s +:+ String LF t)). cbn [CutPrefix].
    destruct (Ascii.eqb c d); [|done]. apply IH. unfold str_has. by rewrite Hp.
Qed.

Lemma HasPrefix_true s p : HasPrefix s p = true ↔ ∃ r, s = p +:+ r.
Proof.
  unfold HasPrefix. destruct (CutPrefix p s) eqn:Hc.
  - apply CutPrefix_Some in Hc. split; eauto.
  - split; [done|]. intros [r Hr%CutPrefix_Some]. congruence.
Qed.

Lemma Cut_Some s sep a b : Cut s sep = Some (a, b) → s = a +:+ sep +:+ b.
Proof.
  revert a b. induction s as [|c s IH]; intros a b; simpl;
    destruct (CutPrefix sep _) as [r|] eqn:Hp; intros Hc; simplify_eq;
    try (apply CutPrefix_Some in Hp; simpl; congruence).
  destruct (Cut s sep) as [[a' b']|]; simplify_eq. simpl. f_equal. by apply IH.
Qed.

(** *** Trimming *)

Definition shrinking (cut : string → option string) : Prop :=
  ∀ s r, cut s = Some r → (String.length r < String.length s)%nat.

Lemma cut_space_shrinking : shrinking cut_space.
Proof. intros s r. unfold cut_space. intros. repeat case_match; simplify_eq/=; lia. Qed.
Lemma cut_space_rev_shrinking : shrinking cut_space_rev.
Proof. intros s r. unfold cut_space_rev. intros. repeat case_match; simplify_eq/=; lia. Qed.

Section trim.
Context (cut : string → option string) (Hcut : shrinking cut).

Lemma trim_with_length n s : (String.length (trim_with cut n s) <= String.length s)%nat.
Proof using Hcut.
  revert s. induction n as [|n IH]; intros s; simpl; [done|].
  destruct (cut s) as [r|] eqn:Hr; [|done]. apply Hcut in Hr. specialize (IH r). lia.
Qed.

Lemma trim_with_stop n s : cut s = None → trim_with cut n s = s.
Proof. intros Hs. destruct n; simpl; [done|]. by rewrite Hs. Qed.

Lemma trim_with_fixed s : trim_with cut (String.length s) s = s → s ≠ "" → cut s = None.
Proof using Hcut.
  destruct s as [|c s]; [done|]. intros Ht _. simpl String.length in Ht. simpl trim_with in Ht.
  destruct (cut (String c s)) as [r|] eqn:Hr; [|done].
  apply Hcut in Hr. pose proof (trim_with_length (String.length s) r) as Hl.
  rewrite Ht in Hl. lia.
Qed.

Lemma trim_with_step n s r : cut s = Some r → trim_with cut (S n) s = trim_with cut n r.
Proof. intros Hs. simpl. by rewrite Hs. Qed.

(** Enough fuel stops at a string that cannot be cut. *)
Lemma trim_with_done n s :
  (String.length s <= n)%nat → trim_with cut n s = "" ∨ cut (trim_with cut n s) = None.
Proof using Hcut.
  revert s. induction n as [|n IH]; intros s Hn; simpl.
  - destruct s; [by left|simpl in Hn; lia].
  - destruct (cut s) as [r|] eqn:Hr; [|by right]. apply IH. apply Hcut in Hr. lia.
Qed.

Lemma trim_with_fuel n m s :
  (String.length s <= n)%nat → (String.length s <= m)%nat → trim_with cut n s = trim_with cut m s.
Proof using Hcut.
  revert m s. induction n as [|n IH]; intros m s Hn Hm.
  - destruct s; [|simpl in Hn; lia]. destruct m; simpl; [done|].
    destruct (cut "") eqn:Hr; [apply Hcut in Hr; simpl in Hr; lia|done].
  - destruct m as [|m]; simpl.
    + destruct s; [|simpl in Hm; lia].
      destruct (cut "") eqn:Hr; [apply Hcut in Hr; simpl in Hr; lia|done].
    + destruct (cut s) as [r|] eqn:Hr; [|done]. apply Hcut in Hr. apply IH; lia.
Qed.
End trim.

Lemma cut_space_None_left s : cut_space s = None → TrimLeftSpace s = s.
Proof. apply trim_with_stop. Qed.

Lemma TrimRightSpace_stop s : cut_space_rev (srev s) = None → TrimRightSpace s = s.
Proof. intros Hs. unfold TrimRightSpace. by rewrite trim_with_stop, srev_srev. Qed.

Lemma TrimRightSpace_fixed s : TrimRightSpace s = s → s ≠ "" → cut_space_rev (srev s) = None.
Proof.
  intros Ht Hs. apply trim_with_fixed; [apply cut_space_rev_shrinking| |].
  - rewrite length_srev. unfold TrimRightSpace in Ht. rewrite <- Ht at 3. by rewrite srev_srev.
  - intros Hn. apply Hs. by rewrite <- (srev_srev s), Hn.
Qed.

Lemma TrimRightSpace_snoc c s : ascii_space c = true → TrimRightSpace (s +:+ String c "") = TrimRightSpace s.
Proof.
  intros Hc. unfold TrimRightSpace. rewrite srev_app, length_app_str.
  change (srev (String c "") +:+ srev s) with (String c (srev s)).
  replace (String.length s + String.length (String c ""))%nat with (S (String.length s)) by (simpl; lia).
  rewrite (trim_with_step _ _ _ (srev s)); [done|]. unfold cut_space_rev. by rewrite Hc.
Qed.

(** The last three bytes decide what is trimmed on the right. *)
Lemma cut_space_rev_app s t :
  (3 <= String.length s)%nat → cut_space_rev s = None → cut_space_rev (s +:+ t) = None.
Proof.
  destruct s as [|a [|b [|c s]]]; simpl; try lia. intros _.
  repeat case_match; done.
Qed.

Lemma TrimRightSpace_app s t :
  (3 <= String.length t)%nat → TrimRightSpace t = t → TrimRightSpace (s +:+ t) = s +:+ t.
Proof.
  intros Hl Ht. apply TrimRightSpace_stop. rewrite srev_app. apply cut_space_rev_app.
  - by rewrite length_srev.
  - apply TrimRightSpace_fixed; [done|]. destruct t; [simpl in Hl; lia|done].
Qed.

Lemma length_TrimSpace s : (String.length (TrimSpace s) <= String.length s)%nat.
Proof.
  unfold TrimSpace, TrimRightSpace, TrimLeftSpace. set (t := trim_with cut_space _ s).
  pose proof (trim_with_length cut_space cut_space_shrinking (String.length s) s) as H1. fold t in H1.
  pose proof (trim_with_length cut_space_rev cut_space_rev_shrinking (String.length t) (srev t)) as H2.
  rewrite length_srev in H2 |- *. lia.
Qed.

(** *** Trimming twice *)

Lemma cut_space_rev_suffix s r : cut_space_rev s = Some r → ∃ w, s = w +:+ r.
Proof.
  unfold cut_space_rev. intros H. repeat case_match; simplify_eq/=.
  - by exists (String a "").
  - by exists (String a (String a0 "")).
  - by exists (String a (String a0 (String a1 ""))).
Qed.

Lemma trim_rev_suffix n s : ∃ w, s = w +:+ trim_with cut_space_rev n s.
Proof.
  revert s. induction n as [|n IH]; intros s; simpl; [by exists ""|].
  destruct (cut_space_rev s) as [r|] eqn:Hr; [|by exists ""].
  apply cut_space_rev_suffix in Hr as [w ->]. destruct (IH r) as [w' Hw]. exists (w +:+ w').
  rewrite app_assoc_str. by rewrite <- Hw.
Qed.

Lemma TrimRightSpace_prefix s : ∃ w, s = TrimRightSpace s +:+ w.
Proof.
  destruct (trim_rev_suffix (String.length s) (srev s)) as [w Hw]. exists (srev w).
  unfold TrimRightSpace. by rewrite <- srev_app, <- Hw, srev_srev.
Qed.

Lemma cut_space_prefix s w : cut_space (s +:+ w) = None → cut_space s = None.
Proof.
  destruct s as [|a s]; [done|]. change (String a s +:+ w) with (String a (s +:+ w)). unfold cut_space.
  destruct (ascii_space a); [done|]. destruct s as [|b s]; [done|].
  change (String b s +:+ w) with (String b (s +:+ w)). cbn iota beta. destruct (space2 a b); [done|].
  destruct s as [|c s]; [done|]. change (String c s +:+ w) with (String c (s +:+ w)). cbn iota beta. by destruct (space3 a b c).
Qed.

Lemma TrimRightSpace_done s : TrimRightSpace s = "" ∨ cut_space_rev (srev (TrimRightSpace s)) = None.
Proof.
  unfold TrimRightSpace. rewrite srev_srev.
  destruct (trim_with_done cut_space_rev cut_space_rev_shrinking (String.length s) (srev s)) as [->|H];
    [by rewrite length_srev|by left|by right].
Qed.

Lemma TrimSpace_idemp s : TrimSpace (TrimSpace s) = TrimSpace s.
Proof.
  unfold TrimSpace at 2 3. set (t := TrimLeftSpace s).
  assert (cut_space t = None) as Ht.
  { destruct (trim_with_done cut_space cut_space_shrinking (String.length s) s) as [E|E]; [done| |done].
    unfold t, TrimLeftSpace. by rewrite E. }
  unfold TrimSpace. rewrite (cut_space_None_left (TrimRightSpace t)).
  - destruct (TrimRightSpace_done t) as [->|H]; [done|]. by apply TrimRightSpace_stop.
  - destruct (TrimRightSpace_prefix t) as [w Hw]. apply (cut_space_prefix _ w). by rewrite <- Hw.
Qed.

Lemma TrimSpace_fixed s : TrimSpace s = s → TrimLeftSpace s = s ∧ TrimRightSpace s = s.
Proof.
  intros Hs. assert (TrimLeftSpace s = s) as Hl; [|by unfold TrimSpace in Hs; rewrite Hl in Hs].
  assert (String.length (TrimRightSpace (TrimLeftSpace s)) <= String.length (TrimLeftSpace s))%nat as Hle.
  { unfold TrimRightSpace. rewrite length_srev.
    pose proof (trim_with_length _ cut_space_rev_shrinking (String.length (TrimLeftSpace s))
      (srev (TrimLeftSpace s))) as Hn. by rewrite length_srev in Hn. }
  unfold TrimSpace in Hs. rewrite Hs in Hle. unfold TrimLeftSpace in *.
  destruct s as [|c s]; [done|]. cbn [trim_with String.length] in *.
  destruct (cut_space (String c s)) as [r|] eqn:Hr; [|done]. apply cut_space_shrinking in Hr.
  pose proof (trim_with_length _ cut_space_shrinking (String.length s) r). simpl in Hr. lia.
Qed.

(** A word byte is no white space, so trimming stops before it. *)
Lemma TrimLeftSpace_word c s : is_word_byte c = true → TrimLeftSpace (String c s) = String c s.
Proof.
  intros Hc. apply cut_space_None_left.
  assert (byte_val c < 128 ∧ ascii_space c = false)%N as [Hlt Hsp].
  { unfold is_word_byte, ascii_space, in_range in *.
    repeat match goal with H : _ || _ = true |- _ => apply orb_true_iff in H as [H|H] end;
      try (apply andb_true_iff in Hc as [Ha%N.leb_le Hb%N.leb_le]); try (apply N.eqb_eq in Hc);
      (split; [lia|]); apply orb_false_iff;
      (split; [apply andb_false_iff; rewrite !N.leb_gt; lia|apply N.eqb_neq; lia]). }
  unfold cut_space. rewrite Hsp. destruct s as [|b s]; [done|].
  assert (space2 c b = false) as ->.
  { unfold space2. apply andb_false_iff. left. apply N.eqb_neq. lia. }
  destruct s as [|d s]; [done|].
  assert (space3 c b d = false) as ->; [|done].
  unfold space3. repeat (apply orb_false_iff; split); repeat (apply andb_false_iff; left);
    apply N.eqb_neq; lia.
Qed.

Lemma TrimRightBytes_stop f s c : f c = false → TrimRightBytes f (s +:+ String c "") = s +:+ String c "".
Proof.
  intros Hc. unfold TrimRightBytes. rewrite srev_app. simpl. rewrite Hc.
  change (String c (srev s)) with (srev (String c "") +:+ srev s). by rewrite <- srev_app, srev_srev.
Qed.

(** ** Numbers *)

Lemma string_of_uint_digits d : str_forallb is_digit (NilEmpty.string_of_uint d) = true.
Proof. induction d; simpl; auto. Qed.

Lemma utoa_digits n : str_forallb is_digit (utoa n) = true.
Proof. apply string_of_uint_digits. Qed.

Lemma utoa_nonempty n : utoa n ≠ "".
Proof.
  unfold utoa. intros Hu. assert (N.to_uint n = Decimal.Nil) as Hn by (by destruct (N.to_uint n)).
  pose proof (DecimalN.Unsigned.of_to n) as Hz. rewrite Hn in Hz. simpl in Hz. subst n. done.
Qed.

Lemma parse_digits_utoa n : parse_digits (utoa n) = Some n.
Proof.
  unfold parse_digits. destruct (utoa n) eqn:Hu; [by apply utoa_nonempty in Hu|]. rewrite <- Hu.
  unfold utoa. rewrite NilEmpty.usu. simpl. by rewrite DecimalN.Unsigned.of_to.
Qed.

(** A 64-bit number is read back from its decimal form. *)
Lemma Atoi_Itoa z : is_Some (in_int64 z) → Atoi (Itoa z) = Some z.
Proof.
  intros Hz. assert (in_int64 z = Some z) as Hz' by (unfold in_int64 in *; case_match; [done|by destruct Hz]).
  unfold Itoa. destruct (z <? 0)%Z eqn:Hneg.
  - apply Z.ltb_lt in Hneg. cbn [Atoi]. rewrite Ascii.eqb_refl, parse_digits_utoa. simpl.
    by replace (- Z.of_N (Z.to_N (- z)))%Z with z by lia.
  - apply Z.ltb_ge in Hneg. pose proof (utoa_digits (Z.to_N z)) as Hd.
    pose proof (parse_digits_utoa (Z.to_N z)) as Hp.
    destruct (utoa (Z.to_N z)) as [|c s] eqn:Hu; [by apply utoa_nonempty in Hu|].
    cbn [str_forallb] in Hd. apply andb_true_iff in Hd as [Hc _].
    unfold Atoi. destruct (Ascii.eqb_spec c "-") as [->|_]; [done|].
    destruct (Ascii.eqb_spec c "+") as [->|_]; [done|].
    rewrite Hp. simpl. by replace (Z.of_N (Z.to_N z)) with z by lia.
Qed.

Lemma Itoa_nat_inj (i j : nat) : Itoa (Z.of_nat i) = Itoa (Z.of_nat j) → i = j.
Proof.
  unfold Itoa. rewrite !(proj2 (Z.ltb_ge _ 0)) by lia. intros E.
  assert (Some (Z.to_N (Z.of_nat i)) = Some (Z.to_N (Z.of_nat j))) as [= Hn] by (by rewrite <- !parse_digits_utoa, E). lia.
Qed.

Lemma byte_val_lt c : (byte_val c < 256)%N.
Proof. apply N_ascii_bounded. Qed.

Lemma str_filter_all f s : str_forallb f s = true → str_filter f s = s.
Proof. induction s as [|c s IH]; [done|]. cbn. intros [-> Hs]%andb_true_iff. by rewrite IH. Qed.

(** Text without any white space or non-ASCII byte is not trimmed. *)
Definition solid_byte (c : ascii) : bool := is_ascii_byte c && negb (ascii_space c).

Lemma cut_space_solid s : str_forallb solid_byte s = true → cut_space s = None ∧ cut_space_rev s = None.
Proof.
  destruct s as [|a s]; [done|]. cbn [str_forallb]. rewrite andb_true_iff. unfold solid_byte at 1.
  rewrite andb_true_iff, negb_true_iff. intros [[Ha%N.ltb_lt Hs] Hr].
  unfold cut_space, cut_space_rev. rewrite Hs.
  destruct s as [|b s]; [done|]. cbn [str_forallb] in Hr. unfold solid_byte at 1 in Hr.
  rewrite !andb_true_iff in Hr. destruct Hr as [[Hb%N.ltb_lt _] _].
  assert (∀ x y, (byte_val x < 128)%N → space2 x y = false) as H2.
  { intros x y Hx. unfold space2. apply andb_false_iff. left. apply N.eqb_neq. lia. }
  rewrite !H2 by done. destruct s as [|c s]; [done|].
  assert (∀ x y z, (byte_val y < 128)%N → space3 x y z = false) as H3.
  { intros x y z Hy. unfold space3. cbv zeta.
    assert (∀ n, (128 <= n)%N → (byte_val y =? n)%N = false) as Hn by (intros; apply N.eqb_neq; lia).
    rewrite !Hn by lia. by rewrite !andb_false_r. }
  by rewrite !H3.
Qed.

Lemma str_forallb_srev f s : str_forallb f (srev s) = str_forallb f s.
Proof.
  induction s as [|c s IH]; [done|]. rewrite srev_cons, str_forallb_app, IH. cbn [str_forallb].
  by rewrite andb_true_r, andb_comm.
Qed.

(** A solid end is not trimmed either. *)
Lemma TrimRightSpace_solid s t : t ≠ "" → str_forallb solid_byte t = true → TrimRightSpace (s +:+ t) = s +:+ t.
Proof.
  intros Hne Ht. apply TrimRightSpace_stop. rewrite srev_app.
  rewrite <- str_forallb_srev in Ht. destruct (srev t) as [|z r] eqn:E.
  { by rewrite <- (srev_srev t), E in Hne. }
  change (String z r +:+ srev s) with (String z (r +:+ srev s)). cbn [str_forallb] in Ht.
  apply andb_true_iff in Ht as [[Hz%N.ltb_lt Hs%negb_true_iff]%andb_true_iff _].
  unfold cut_space_rev. rewrite Hs. destruct (r +:+ srev s) as [|y w]; [done|].
  assert (∀ n, (128 <= n)%N → (byte_val z =? n)%N = false) as Hn by (intros; apply N.eqb_neq; lia).
  assert (space2 y z = false) as ->.
  { unfold space2. rewrite !Hn by lia. by rewrite andb_false_r. }
  destruct w as [|x w]; [done|].
  assert (space3 x y z = false) as ->; [|done].
  unfold space3, in_range. cbv zeta. rewrite !Hn by lia.
  assert (∀ n, (128 <= n)%N → (n <=? byte_val z)%N = false) as Hle by (intros; apply N.leb_gt; lia).
  rewrite ?Hle by lia. by rewrite ?andb_false_r, ?andb_false_l.
Qed.

Lemma TrimSpace_solid s : str_forallb solid_byte s = true → TrimSpace s = s.
Proof.
  intros Hs. unfold TrimSpace. destruct (cut_space_solid s Hs) as [Hl _].
  rewrite cut_space_None_left by done. apply TrimRightSpace_stop.
  apply cut_space_solid. by rewrite str_forallb_srev.
Qed.

Lemma TrimLeftSpace_front s t : s ≠ "" → str_forallb solid_byte s = true → TrimLeftSpace (s +:+ t) = s +:+ t.
Proof.
  destruct s as [|a s]; [done|]. intros _. cbn [str_forallb]. unfold solid_byte at 1. rewrite !andb_true_iff, negb_true_iff.
  intros [[Ha%N.ltb_lt Hs] _]. apply cut_space_None_left. change (String a s +:+ t) with (String a (s +:+ t)).
  unfold cut_space. rewrite Hs. destruct (s +:+ t) as [|b r]; [done|].
  assert (∀ n, (128 <= n)%N → (byte_val a =? n)%N = false) as Hn by (intros; apply N.eqb_neq; lia).
  unfold space2, space3, in_range. cbv zeta. rewrite !Hn by lia. by destruct r.
Qed.

Lemma Itoa_nonempty z : Itoa z ≠ "".
Proof. unfold Itoa. case_match; [done|apply utoa_nonempty]. Qed.

Lemma Itoa_bytes (f : ascii → bool) z :
  (∀ c, is_digit c = true → f c = true) → f "-"%char = true → str_forallb f (Itoa z) = true.
Proof.
  intros Hd Hm. unfold Itoa. case_match; cbn [str_forallb]; rewrite ?Hm; simpl;
    (eapply str_forallb_impl; [exact Hd|apply utoa_digits]).
Qed.
