(* ===== verification/GoUtf8.v ===== *)
(** * GoUtf8: UTF-8 as Go's unicode/utf8 and encoding/json see it

    [rune_size s] is the size of the well-formed sequence at the start of [s],
    or zero where [utf8.DecodeRune] reports an error; [EncodeRune] the bytes
    of a code point; [to_valid] the text with each ill-formed byte replaced by
    U+FFFD, as encoding/json coerces it. *)

From S2P Require Import Prelude GoStr.

Local Open Scope string_scope.

Module Utf8.

Definition cont (c : ascii) : bool := in_range 128 191 c.

(** The range of the second byte after the first, and how many follow. *)
Definition lead (c : ascii) : option (N * N * nat) :=
  if in_range 194 223 c then Some (128%N, 191%N, 1%nat)
  else if (byte_val c =? 224)%N then Some (160%N, 191%N, 2%nat)
  else if (byte_val c =? 237)%N then Some (128%N, 159%N, 2%nat)
  else if in_range 225 239 c then Some (128%N, 191%N, 2%nat)
  else if (byte_val c =? 240)%N then Some (144%N, 191%N, 3%nat)
  else if in_range 241 243 c then Some (128%N, 191%N, 3%nat)
  else if (byte_val c =? 244)%N then Some (128%N, 143%N, 3%nat)
  else None.

Definition rune_size (s : string) : nat :=
  match s with
  | "" => 0
  | String a s =>
      if is_ascii_byte a then 1 else
      match lead a, s with
      | Some (lo, hi, k), String b s =>
          if negb (in_range lo hi b) then 0 else
          match k, s with
          | 1, _ => 2
          | 2, String c _ => if cont c then 3 else 0
          | 3, String c (String d _) => if cont c && cont d then 4 else 0
          | _, _ => 0
          end
      | _, _ => 0
      end
  end%nat.

Definition chr (n : N) : ascii := ascii_of_N n.
Definition RuneError : N := 65533.

Definition is_surrogate (r : N) : bool := ((55296 <=? r) && (r <? 57344))%N.

(** [utf8.EncodeRune]; what is no code point is encoded as U+FFFD. *)
Definition EncodeRune (r : N) : string :=
  let r := if is_surrogate r || (1114111 <? r)%N then RuneError else r in
  if (r <? 128)%N then String (chr r) ""
  else if (r <? 2048)%N then String (chr (192 + r / 64)) (String (chr (128 + r mod 64)) "")
  else if (r <? 65536)%N then
    String (chr (224 + r / 4096)) (String (chr (128 + (r / 64) mod 64)) (String (chr (128 + r mod 64)) ""))
  else
    String (chr (240 + r / 262144)) (String (chr (128 + (r / 4096) mod 64))
      (String (chr (128 + (r / 64) mod 64)) (String (chr (128 + r mod 64)) ""))).

(** What the character at the start of a text becomes, and its size. *)
Definition coerce_step (s : string) : string * nat :=
  match rune_size s with
  | O => (EncodeRune RuneError, 1%nat)
  | n => (String.substring 0 n s, n)
  end.

(** A text rewritten one character at a time: [step] gives what is written for
    the bytes at the start and how many it read; [skip] counts down the bytes
    already read. *)
Fixpoint rewrite_from (step : string → string * nat) (skip : nat) (s : string) : string :=
  match s with
  | "" => ""
  | String _ s' =>
      match skip with
      | S k => rewrite_from step k s'
      | O => let '(out, n) := step s in out +:+ rewrite_from step (Nat.pred n) s'
      end
  end.

Definition rewrite_with (step : string → string * nat) (s : string) : string := rewrite_from step 0 s.

Definition to_valid : string → string := rewrite_with coerce_step.

Definition valid (s : string) : bool := String.eqb (to_valid s) s.

Example valid_ex : valid <$> ["caf" +:+ EncodeRune 233; EncodeRune 8364 +:+ EncodeRune 128512;
    String "233" ""; EncodeRune 55296; String "237" (String "160" (String "128" ""))] =
  [true; true; false; true; false].
Proof. vm_compute. reflexivity. Qed.
Example to_valid_ex : to_valid (String "233" "a") = EncodeRune RuneError +:+ "a".
Proof. vm_compute. reflexivity. Qed.

End Utf8.
