(* ===== verification/Policy.v ===== *)
(** * Policy: the decision engine ([internal/policy/policy.go])

    [Decide] maps the mode, the debounced Cisco transition and the user's
    intent to the actions the executor performs and the next mode.  The
    theorems state rule (a) (a VPN never starts under Cisco), rule (b) (fail
    closed, in that order, when Cisco appears under our VPN) and that a
    decision is stable: observed again without a change it asks for nothing. *)

From S2P Require Import Prelude.

Module Policy.

(** ** Data *)

Inductive Mode := ModeProxy | ModeVPN | ModeSwitching.
Inductive CiscoState := CiscoUnknown | CiscoInactive | CiscoActive.
Inductive UserIntent := IntentNone | IntentEnableVPN | IntentDisableVPN.
Inductive Action :=
  | ActNone | ActStartForwarder | ActStopForwarder | ActShowWarning
  | ActRefreshProxy | ActFailClosed | ActNotify | ActBindPhysical | ActUnbindProxy.

#[export] Instance Mode_eq_dec : EqDecision Mode.
Proof. solve_decision. Defined.
#[export] Instance CiscoState_eq_dec : EqDecision CiscoState.
Proof. solve_decision. Defined.
#[export] Instance UserIntent_eq_dec : EqDecision UserIntent.
Proof. solve_decision. Defined.
#[export] Instance Action_eq_dec : EqDecision Action.
Proof. solve_decision. Defined.

Record DecideInput := {
  inMode : Mode;
  PrevCisco : CiscoState;
  NewCisco : CiscoState;
  Intent : UserIntent;
  PhysIfaceChanged : bool;
  ProxyBoundPhys : bool;
  CiscoOwnsDefault : bool
}.

Record DecisionResult := { Actions : list Action; NextMode : Mode }.

(** ** The decision *)

Definition only (mode : Mode) (acts : list Action) : DecisionResult :=
  {| Actions := match acts with [] => [ActNone] | _ => acts end; NextMode := mode |}.

Definition ciscoChanged (i : DecideInput) : bool :=
  (bool_decide (PrevCisco i = CiscoInactive) && bool_decide (NewCisco i = CiscoActive)) ||
  (bool_decide (PrevCisco i = CiscoActive) && bool_decide (NewCisco i = CiscoInactive)).

Definition Decide (i : DecideInput) : DecisionResult :=
  match Intent i with
  | IntentEnableVPN =>
      if bool_decide (NewCisco i = CiscoActive) then only (inMode i) [ActShowWarning]
      else if bool_decide (inMode i = ModeVPN) then only ModeVPN [ActNone]
      else only ModeVPN [ActStartForwarder]
  | IntentDisableVPN =>
      if bool_decide (inMode i = ModeVPN) then only ModeProxy [ActStopForwarder]
      else only (inMode i) [ActNone]
  | IntentNone =>
      if bool_decide (inMode i = ModeSwitching) then only ModeSwitching [ActNone]
      else if bool_decide (NewCisco i = CiscoActive) && bool_decide (inMode i = ModeVPN)
           then only ModeProxy [ActFailClosed; ActStopForwarder; ActNotify]
      else if bool_decide (inMode i = ModeProxy) && ProxyBoundPhys i
           then only ModeProxy [ActUnbindProxy]
      else if bool_decide (inMode i = ModeProxy) && ciscoChanged i
           then only ModeProxy [ActRefreshProxy]
      else if PhysIfaceChanged i && bool_decide (inMode i = ModeVPN)
           then only ModeVPN [ActRefreshProxy]
      else only (inMode i) [ActNone]
  end.

(** An event is worth emitting ([actionable] of [internal/monitor]). *)
Definition actionable (r : DecisionResult) : bool :=
  existsb (λ a, negb (bool_decide (a = ActNone))) (Actions r).

(** ** Facts *)

(** The input of the next observation when nothing changed: the new mode is in
    force, the previous Cisco state is the one just seen, and the actions left
    no physical bind in proxy-only mode. *)
Definition settle (i : DecideInput) : DecideInput := {|
  inMode := NextMode (Decide i);
  PrevCisco := NewCisco i;
  NewCisco := NewCisco i;
  Intent := IntentNone;
  PhysIfaceChanged := false;
  ProxyBoundPhys := false;
  CiscoOwnsDefault := CiscoOwnsDefault i
|}.

Ltac decide_cases i :=
  destruct i as [m pc nc it pch bnd own]; unfold Decide, ciscoChanged, settle, only in *; simpl in *;
  destruct m, pc, nc, it, pch, bnd; simpl in *.

(** Rule (a), exactly: the forwarder is started only on the user's explicit
    request, outside VPN mode and with Cisco not active; and then always. *)
Theorem Decide_starts_forwarder_iff (i : DecideInput) :
  ActStartForwarder ∈ Actions (Decide i) ↔
  Intent i = IntentEnableVPN ∧ NewCisco i ≠ CiscoActive ∧ inMode i ≠ ModeVPN.
Proof.
  rewrite list_elem_of_In. decide_cases i; intuition congruence.
Qed.

(** Rule (b) and stability: without a user intent, a decision never leaves the
    VPN mode in force under an active Cisco; if it had to drop the VPN it
    fails closed before it stops the forwarder; and taken again on the
    settled input it asks for nothing more and keeps the mode. *)
Theorem Decide_fails_closed_and_settles (i : DecideInput) :
  Intent i = IntentNone →
  (NewCisco i = CiscoActive → NextMode (Decide i) ≠ ModeVPN) ∧
  (NewCisco i = CiscoActive → inMode i = ModeVPN →
     Decide i = {| Actions := [ActFailClosed; ActStopForwarder; ActNotify]; NextMode := ModeProxy |}) ∧
  Decide (settle i) = only (NextMode (Decide i)) [] ∧
  actionable (Decide (settle i)) = false.
Proof. intros Hi. decide_cases i; done. Qed.

Lemma Decide_fails_closed_and_settles_witness :
  let i := {| inMode := ModeVPN; PrevCisco := CiscoInactive; NewCisco := CiscoActive;
              Intent := IntentNone; PhysIfaceChanged := true; ProxyBoundPhys := true;
              CiscoOwnsDefault := true |} in
  NextMode (Decide i) ≠ ModeVPN ∧ actionable (Decide (settle i)) = false.
Proof.
  simpl. destruct (Decide_fails_closed_and_settles
    {| inMode := ModeVPN; PrevCisco := CiscoInactive; NewCisco := CiscoActive;
       Intent := IntentNone; PhysIfaceChanged := true; ProxyBoundPhys := true;
       CiscoOwnsDefault := true |} eq_refl) as (H1 & _ & _ & H2).
  split; [apply H1; reflexivity | exact H2].
Defined.

(** Automatic decisions never bind the proxy to the physical interface, and an
    unbind, when one is asked for, is the whole answer. *)
Lemma Decide_never_binds (i : DecideInput) :
  ActBindPhysical ∉ Actions (Decide i) ∧
  (ActUnbindProxy ∈ Actions (Decide i) → Decide i = only ModeProxy [ActUnbindProxy]).
Proof. rewrite !list_elem_of_In. decide_cases i; intuition congruence. Qed.

Lemma actionable_only_none m : actionable (only m []) = false.
Proof. done. Qed.

Lemma Decide_switching_inert (i : DecideInput) :
  Intent i = IntentNone → inMode i = ModeSwitching → Decide i = only ModeSwitching [].
Proof. intros ??. decide_cases i; done. Qed.

End Policy.
