(* ===== verification/GoNet.v ===== *)
(** * GoNet: IP addresses and networks of the Go standard library

    [net.ParseIP], [net.ParseCIDR], [IP.To4], [IP.Mask], [IPNet.Contains] and
    [IP.String] for IPv4, on addresses as lists of byte values (4 or 16 of
    them), as package [net] and [net/netip] document them. *)

From S2P Require Export GoStr.

Local Open Scope string_scope.
Local Open Scope list_scope.
Local Open Scope Z_scope.

(** A [net.IP]: 4 or 16 bytes. *)
Abbreviation IP := (list Z).

Definition v4InV6Prefix : IP := [0; 0; 0; 0; 0; 0; 0; 0; 0; 0; 255; 255].

(** ** Parsing *)

Definition digit_val (c : ascii) : Z := Z.of_N (byte_val c) - 48.

(** One decimal field of a dotted quad: 1 to 3 digits, no leading zero, at most
    255. *)
Definition parse_octet (s : string) : option Z :=
  match s with
  | "" => None
  | String c rest =>
      if str_forallb is_digit s && negb (Ascii.eqb c "0" && negb (String.eqb rest "")) then
        n ← parse_digits s;
        if (Z.of_N n <=? 255) then Some (Z.of_N n) else None
      else None
  end.

Definition parseIPv4 (s : string) : option IP :=
  match split_byte "." s with
  | [a; b; c; d] =>
      a' ← parse_octet a; b' ← parse_octet b; c' ← parse_octet c; d' ← parse_octet d;
      Some [a'; b'; c'; d']
  | _ => None
  end.

Definition hex_val (c : ascii) : option Z :=
  if is_digit c then Some (digit_val c)
  else if in_range 97 102 c then Some (Z.of_N (byte_val c) - 87)
  else if in_range 65 70 c then Some (Z.of_N (byte_val c) - 55)
  else None.

(** The leading hexadecimal digits: how many, their value, the rest. *)
Fixpoint hex_run (s : string) (off acc : Z) : Z * Z * string :=
  match s with
  | String c s' =>
      match hex_val c with
      | Some d => hex_run s' (off + 1) (acc * 16 + d)
      | None => (off, acc, s)
      end
  | "" => (off, acc, "")
  end.

(** The groups of an IPv6 address after an optional leading [::]; [ip] are the
    bytes read so far and [ell] the position of the ellipsis. *)
Fixpoint parse_groups (fuel : nat) (s : string) (ip : IP) (ell : option nat)
    : option (IP * option nat) :=
  match fuel with
  | O => if String.eqb s "" then Some (ip, ell) else None
  | S n =>
      let '(off, acc, rest) := hex_run s 0 0 in
      if (off =? 0) || (4 <? off) then None else
      match rest with
      | String "." _ =>
          if (match ell with None => negb (length ip =? 12)%nat | Some _ => false end)
             || (12 <? length ip)%nat then None
          else q ← parseIPv4 s; Some (ip ++ q, ell)
      | "" => Some (ip ++ [acc / 256; acc mod 256], ell)
      | String ":" rest' =>
          let ip' := ip ++ [acc / 256; acc mod 256] in
          match rest' with
          | "" => None
          | String ":" rest'' =>
              match ell with
              | Some _ => None
              | None =>
                  if String.eqb rest'' "" then Some (ip', Some (length ip'))
                  else parse_groups n rest'' ip' (Some (length ip'))
              end
          | _ => parse_groups n rest' ip' ell
          end
      | _ => None
      end
  end.

Definition expand (r : IP * option nat) : option IP :=
  let '(ip, ell) := r in
  if (length ip <? 16)%nat then
    e ← ell; Some (take e ip ++ replicate (16 - length ip) 0 ++ drop e ip)
  else match ell with Some _ => None | None => Some ip end.

Definition parseIPv6 (s : string) : option IP :=
  match CutPrefix "::" s with
  | Some "" => Some (replicate 16 0)
  | Some r => parse_groups 8 r [] (Some 0%nat) ≫= expand
  | None => parse_groups 8 s [] None ≫= expand
  end.

(** [net.ParseIP]: the 16-byte form of an address without a zone. *)
Definition ParseIP (s : string) : option IP :=
  if str_has "%" s then None
  else if str_has ":" (before_byte (Ascii.eqb ".") s) then parseIPv6 s
  else if str_has "." s then (λ q, v4InV6Prefix ++ q) <$> parseIPv4 s
  else None.

Definition To4 (ip : IP) : option IP :=
  if (length ip =? 4)%nat then Some ip
  else if (length ip =? 16)%nat && bool_decide (take 12 ip = v4InV6Prefix) then Some (drop 12 ip)
  else None.

(** ** Networks *)

Record IPNet := { net_ip : IP; net_mask : IP }.

(** [net.CIDRMask(ones, 8 * len)] *)
Definition CIDRMask (ones : Z) (len : nat) : IP :=
  (λ i, 256 - 2 ^ (8 - Z.max 0 (Z.min 8 (ones - 8 * Z.of_nat i)))) <$> seq 0 len.

Definition mask_bytes (ip mask : IP) : IP := zip_with Z.land ip mask.

(** [net.ParseCIDR] (the network; [None] is an error). *)
Definition ParseCIDR (s : string) : option IPNet :=
  '(addr, bits) ← Cut s "/";
  ip ← ParseIP addr;
  n ← (if str_forallb is_digit bits then Z.of_N <$> parse_digits bits else None);
  let v4 := negb (str_has ":" addr) in
  if n <=? (if v4 then 32 else 128) then
    let ip' := if v4 then drop 12 ip else ip in
    let m := CIDRMask n (length ip') in
    Some {| net_ip := mask_bytes ip' m; net_mask := m |}
  else None.

(** [IPNet.Contains] *)
Definition net_contains (n : IPNet) (ip : IP) : bool :=
  let nn := default (net_ip n) (To4 (net_ip n)) in
  let m := if (length (net_mask n) =? 16)%nat && (length nn =? 4)%nat
           then drop 12 (net_mask n) else net_mask n in
  let ip := default ip (To4 ip) in
  (length ip =? length nn)%nat && bool_decide (mask_bytes nn m = mask_bytes ip m).

(** [IP.String] of a 4-byte address. *)
Definition ip4_string (ip : IP) : string := Join "." (Itoa <$> ip).

(** ** Facts *)

Example parse_v4 : ParseIP "198.18.0.1" = Some (v4InV6Prefix ++ [198; 18; 0; 1]).
Proof. vm_compute. reflexivity. Qed.
Example parse_v4_bad : (ParseIP "010.0.0.1", ParseIP "1.2.3", ParseIP "1.2.3.256", ParseIP "link#14")
  = (None, None, None, None).
Proof. vm_compute. reflexivity. Qed.
Example parse_v6 : ParseIP "fdfe:dcba:9876::1"
  = Some [253; 254; 220; 186; 152; 118; 0; 0; 0; 0; 0; 0; 0; 0; 0; 1].
Proof. vm_compute. reflexivity. Qed.
Example parse_v6_mapped : ParseIP "::ffff:10.0.0.1" ≫= To4 = Some [10; 0; 0; 1].
Proof. vm_compute. reflexivity. Qed.
Example parse_cidr : ParseCIDR "100.64.1.7/10" =
  Some {| net_ip := [100; 64; 0; 0]; net_mask := [255; 192; 0; 0] |}.
Proof. vm_compute. reflexivity. Qed.
Example contains_cgnat :
  (λ n, (net_contains n (v4InV6Prefix ++ [100; 100; 0; 1]), net_contains n [100; 128; 0; 1]))
    <$> ParseCIDR "100.64.0.0/10" = Some (true, false).
Proof. vm_compute. reflexivity. Qed.

(** ** Dotted quads *)

Definition byte_range (z : Z) : Prop := 0 <= z <= 255.

Lemma split_byte_app c a b :
  str_forallb (λ d, negb (Ascii.eqb c d)) a = true → split_byte c (a +:+ String c b) = a :: split_byte c b.
Proof.
  induction a as [|d a IH]; intros Ha.
  - change ("" +:+ String c b)%string with (String c b). cbn [split_byte]. by rewrite Ascii.eqb_refl.
  - cbn [str_forallb] in Ha. apply andb_true_iff in Ha as [Hd%negb_true_iff Ha].
    change (String d a +:+ String c b)%string with (String d (a +:+ String c b)). cbn [split_byte].
    by rewrite Hd, IH.
Qed.

Lemma split_byte_none c a : str_forallb (λ d, negb (Ascii.eqb c d)) a = true → split_byte c a = [a].
Proof.
  induction a as [|d a IH]; [done|]. cbn [str_forallb split_byte].
  intros [Hd%negb_true_iff Ha]%andb_true_iff. by rewrite Hd, IH.
Qed.

Lemma no_dot_Itoa z : str_forallb (λ d, negb (Ascii.eqb "." d)) (Itoa z) = true.
Proof.
  apply Itoa_bytes; [|done]. intros c Hc. apply negb_true_iff, Ascii.eqb_neq. by intros <-.
Qed.

Lemma parse_octet_Itoa z : byte_range z → parse_octet (Itoa z) = Some z.
Proof.
  intros Hz. assert (forallb (λ n, bool_decide (parse_octet (Itoa (Z.of_nat n)) = Some (Z.of_nat n))) (seq 0 256) = true)
    as Hall by (vm_compute; reflexivity).
  rewrite forallb_forall in Hall. specialize (Hall (Z.to_nat z)). rewrite in_seq in Hall.
  unfold byte_range in Hz. rewrite Z2Nat.id in Hall by lia.
  apply bool_decide_eq_true in Hall; [done|lia].
Qed.

Lemma parse_ip4_string l :
  length l = 4%nat → Forall byte_range l → parseIPv4 (ip4_string l) = Some l.
Proof.
  intros Hl Hb. destruct l as [|a [|b [|c [|d [|]]]]]; try done.
  apply Forall_cons in Hb as [Ha Hb]. apply Forall_cons in Hb as [Hb Hc].
  apply Forall_cons in Hc as [Hc Hd]. apply Forall_cons in Hd as [Hd _].
  unfold parseIPv4, ip4_string. cbn [fmap list_fmap].
  change (split_byte "." (Join "." [Itoa a; Itoa b; Itoa c; Itoa d]))
    with (split_byte "." (Itoa a +:+ String "." (Itoa b +:+ String "." (Itoa c +:+ String "." (Itoa d))))).
  do 3 (rewrite split_byte_app by apply no_dot_Itoa). rewrite split_byte_none by apply no_dot_Itoa.
  by rewrite !parse_octet_Itoa.
Qed.

Lemma parse_octet_range s z : parse_octet s = Some z → byte_range z.
Proof.
  unfold parse_octet, byte_range. destruct s as [|c r]; [done|]. case_match; [|done].
  destruct (parse_digits _) as [n|]; simpl; [|done]. case_match; [|done]. intros [= <-]. propify. lia.
Qed.

Lemma parseIPv4_range s l : parseIPv4 s = Some l → length l = 4%nat ∧ Forall byte_range l.
Proof.
  unfold parseIPv4. destruct (split_byte _ _) as [|a [|b [|c [|d [|]]]]]; try done.
  destruct (parse_octet a) eqn:Ha, (parse_octet b) eqn:Hb, (parse_octet c) eqn:Hc, (parse_octet d) eqn:Hd;
    simpl; try done. intros [= <-]. split; [done|]. repeat constructor; by eapply parse_octet_range.
Qed.

Lemma land_range a m : byte_range a → 0 <= m → byte_range (Z.land a m).
Proof.
  unfold byte_range. intros Ha Hm.
  assert (Z.land a m = Z.land a m `mod` 2 ^ 8) as ->; [|pose proof (Z.mod_pos_bound (Z.land a m) (2 ^ 8)); lia].
  rewrite <- Z.land_ones, <- Z.land_assoc, (Z.land_comm m), Z.land_assoc, Z.land_ones by lia.
  by rewrite (Z.mod_small a) by lia.
Qed.

Lemma CIDRMask_length n k : length (CIDRMask n k) = k.
Proof. unfold CIDRMask. by rewrite length_fmap, length_seq. Qed.

Lemma CIDRMask_range n k : Forall byte_range (CIDRMask n k).
Proof.
  unfold CIDRMask. apply Forall_fmap, Forall_forall. intros i _. unfold compose, byte_range.
  set (e := 8 - _). assert (0 <= e <= 8) by lia.
  pose proof (Z.pow_le_mono_r 2 e 8) as Hle. pose proof (Z.pow_pos_nonneg 2 e). lia.
Qed.

Lemma mask_bytes_range ip m :
  Forall byte_range ip → Forall byte_range m → Forall byte_range (mask_bytes ip m).
Proof.
  intros Hip. revert m. induction Hip as [|a ip Ha _ IH]; intros m Hm; [constructor|].
  destruct Hm as [|b m Hb Hm]; [constructor|]. constructor; [apply land_range; [done|unfold byte_range in Hb; lia]|by apply IH].
Qed.

Lemma mask_bytes_idemp ip m : mask_bytes (mask_bytes ip m) m = mask_bytes ip m.
Proof.
  revert m. induction ip as [|a ip IH]; intros [|b m]; [done..|]. unfold mask_bytes in *. cbn [zip_with].
  by rewrite IH, <- Z.land_assoc, Z.land_diag.
Qed.

(** A text without a colon parses to the 16-byte form of a dotted quad. *)
Lemma ParseIP_no_colon s :
  str_has ":" s = false → str_has "%" s = false →
  ParseIP s = (λ q, v4InV6Prefix ++ q) <$> parseIPv4 s.
Proof.
  intros Hc Hp. unfold ParseIP. rewrite Hp.
  assert (str_has ":" (before_byte (Ascii.eqb ".") s) = false) as ->.
  { clear Hp. induction s as [|d s IH]; [done|]. unfold str_has in *. cbn [str_forallb before_byte] in *.
    rewrite negb_false_iff, andb_true_iff in Hc. destruct Hc as [Hd Hc].
    destruct (Ascii.eqb "." d); [done|]. cbn [str_forallb]. rewrite Hd. apply IH. by rewrite negb_false_iff. }
  destruct (str_has "." s) eqn:Hd; [done|].
  unfold parseIPv4. rewrite split_byte_none; [done|].
  clear -Hd. unfold str_has in Hd. rewrite negb_false_iff in Hd. exact Hd.
Qed.
