(* ===== verification/GoUrl.v ===== *)
(** * GoUrl: what the program uses of Go's [net/url] (1.24)

    [Parse], the accessors [Hostname], [Port] and [Query], and [URL.String],
    as they are in the library: a string that is not a URL is [None].
    [net.SplitHostPort] is here too.  The facts lead to the round trip of a
    link whose fragment is replaced ([Parse_String]). *)

From S2P Require Import Prelude GoStr.

Local Open Scope string_scope.
Local Open Scope list_scope.

Module Url.

(** [u.User]: the name, and the password if one was given. *)
Record Userinfo := { username : string; password : option string }.

Record URL := {
  Scheme : string;
  Opaque : string;
  User : option Userinfo;
  Host : string;
  Path : string;
  RawPath : string;        (* the encoded path, when it is not the default encoding *)
  OmitHost : bool;
  ForceQuery : bool;
  RawQuery : string;
  Fragment : string;
  RawFragment : string
}.

Inductive encoding :=
  | encodePath | encodePathSegment | encodeHost | encodeZone | encodeUserPassword | encodeFragment
  | encodeQueryComponent.

#[export] Instance encoding_eq_dec : EqDecision encoding.
Proof. solve_decision. Defined.

Definition is_alnum (c : ascii) : bool :=
  is_digit c || in_range 65 90 c || in_range 97 122 c.

Definition one_of (c : ascii) (s : string) : bool := str_has c s.

Definition dquote : ascii := "034".

Definition shouldEscape (c : ascii) (mode : encoding) : bool :=
  if is_alnum c then false
  else if (bool_decide (mode = encodeHost) || bool_decide (mode = encodeZone)) &&
          (one_of c "!$&'()*+,;=:[]<>" || Ascii.eqb c dquote) then false
  else if one_of c "-_.~" then false
  else if one_of c "$&+,/:;=?@" then
    match mode with
    | encodePath => Ascii.eqb c "?"
    | encodePathSegment => one_of c "/;,?"
    | encodeUserPassword => one_of c "@/?:"
    | encodeQueryComponent => true
    | encodeFragment => false
    | encodeHost | encodeZone => true
    end
  else if bool_decide (mode = encodeFragment) && one_of c "!()*" then false
  else true.

Definition hex_digit (c : ascii) : option N :=
  let v := byte_val c in
  if in_range 48 57 c then Some (v - 48)%N
  else if in_range 97 102 c then Some (v - 87)%N
  else if in_range 65 70 c then Some (v - 55)%N
  else None.

Definition upperhex (n : N) : ascii := ascii_of_N (if (n <? 10)%N then 48 + n else 55 + n).

Definition escape_byte (mode : encoding) (c : ascii) (s : string) : string :=
  if bool_decide (mode = encodeQueryComponent) && Ascii.eqb c " " then String "+" s
  else if shouldEscape c mode
  then String "%" (String (upperhex (byte_val c / 16)) (String (upperhex (byte_val c mod 16)) s))
  else String c s.

Fixpoint escape (mode : encoding) (s : string) : string :=
  match s with "" => "" | String c s => escape_byte mode c (escape mode s) end.

(** [validEncoded] *)
Definition validEncoded (mode : encoding) (s : string) : bool :=
  str_forallb (λ c, one_of c "!$&'()*+,;=:@[]%" || negb (shouldEscape c mode)) s.

Fixpoint unescape (mode : encoding) (s : string) : option string :=
  match s with
  | "" => Some ""
  | String c s1 =>
      if Ascii.eqb c "%" then
        match s1 with
        | String a (String b s2) =>
            h ← hex_digit a; l ← hex_digit b;
            let v := ascii_of_N (16 * h + l) in
            let is25 := Ascii.eqb a "2" && Ascii.eqb b "5" in
            if bool_decide (mode = encodeHost) && (h <? 8)%N && negb is25 then None
            else if bool_decide (mode = encodeZone) && negb is25 &&
                    negb (Ascii.eqb v " ") && shouldEscape v encodeHost then None
            else r ← unescape mode s2; Some (String v r)
        | _ => None
        end
      else if Ascii.eqb c "+" && bool_decide (mode = encodeQueryComponent)
      then r ← unescape mode s1; Some (String " " r)
      else if (bool_decide (mode = encodeHost) || bool_decide (mode = encodeZone)) &&
              is_ascii_byte c && shouldEscape c mode then None
      else r ← unescape mode s1; Some (String c r)
  end.

(** [s[:i]] and [s[i+1:]] for the last index [i] of [c]. *)
Fixpoint cut_last (c : ascii) (s : string) : option (string * string) :=
  match s with
  | "" => None
  | String d s' =>
      match cut_last c s' with
      | Some (a, b) => Some (String d a, b)
      | None => if Ascii.eqb c d then Some ("", s') else None
      end
  end.

Definition validOptionalPort (port : string) : bool :=
  match port with
  | "" => true
  | String c ds => Ascii.eqb c ":" && str_forallb is_digit ds
  end.

Definition validUserinfo (s : string) : bool :=
  str_forallb (λ c, is_alnum c || one_of c "-._:~!$&'()*+,;=%@") s.

Definition parseHost (host : string) : option string :=
  if HasPrefix host "[" then
    '(inner, colonPort) ← cut_last "]" host;
    if negb (validOptionalPort colonPort) then None
    else match Cut inner "%25" with
         | Some (h1, z) =>
             a ← unescape encodeHost h1;
             b ← unescape encodeZone ("%25" +:+ z);
             c ← unescape encodeHost (String "]" colonPort);
             Some (a +:+ b +:+ c)
         | None => unescape encodeHost host
         end
  else
    match cut_last ":" host with
    | Some (_, port) =>
        if validOptionalPort (String ":" port) then unescape encodeHost host else None
    | None => unescape encodeHost host
    end.

Definition parseUser (userinfo : string) : option Userinfo :=
  if negb (validUserinfo userinfo) then None
  else match Cut userinfo ":" with
       | None => u ← unescape encodeUserPassword userinfo; Some {| username := u; password := None |}
       | Some (n, p) =>
           n ← unescape encodeUserPassword n;
           p ← unescape encodeUserPassword p;
           Some {| username := n; password := Some p |}
       end.

Definition parseAuthority (authority : string) : option (option Userinfo * string) :=
  match cut_last "@" authority with
  | None => h ← parseHost authority; Some (None, h)
  | Some (ui, h) => h ← parseHost h; u ← parseUser ui; Some (Some u, h)
  end.

(** The scheme and the rest; [None] is a missing scheme before a colon. *)
Fixpoint getScheme_from (first : bool) (acc whole s : string) : option (string * string) :=
  match s with
  | "" => Some ("", whole)
  | String c s' =>
      if in_range 97 122 c || in_range 65 90 c then getScheme_from false (String c acc) whole s'
      else if is_digit c || one_of c "+-." then
        if first then Some ("", whole) else getScheme_from false (String c acc) whole s'
      else if Ascii.eqb c ":" then if first then None else Some (srev acc, s')
      else Some ("", whole)
  end.
Definition getScheme (s : string) : option (string * string) := getScheme_from true "" s s.

Definition has_ctl (s : string) : bool :=
  negb (str_forallb (λ c, negb ((byte_val c <? 32)%N || (byte_val c =? 127)%N)) s).

Definition cut_query (rest : string) : string * string * bool :=
  match Cut rest "?" with
  | Some (a, q) => (a, q, String.eqb q "")
  | None => (rest, "", false)
  end.

(** [setPath] and [setFragment]: the decoded text, and the given one when it
    is not what [escape] gives back. *)
Definition set_encoded (mode : encoding) (p : string) : option (string * string) :=
  path ← unescape mode p;
  Some (path, if String.eqb p (escape mode path) then "" else p).

(** [parse(rawURL, false)]: everything but the fragment. *)
Definition parse_url (s : string) : option URL :=
  if has_ctl s then None
  else if String.eqb s "*" then
    Some {| Scheme := ""; Opaque := ""; User := None; Host := ""; Path := "*"; RawPath := "";
            OmitHost := false; ForceQuery := false; RawQuery := ""; Fragment := ""; RawFragment := "" |}
  else
    '(scheme, rest) ← getScheme s;
    let scheme := str_map lower_byte scheme in
    let '(rest, query, force) := cut_query rest in
    let mk (o : string) (u : option Userinfo) (h : string) (p : string * string) (omit : bool) : URL :=
      {| Scheme := scheme; Opaque := o; User := u; Host := h; Path := p.1; RawPath := p.2;
         OmitHost := omit; ForceQuery := force; RawQuery := query; Fragment := ""; RawFragment := "" |} in
    if negb (HasPrefix rest "/") && negb (String.eqb scheme "") then Some (mk rest None "" ("", "") false)
    else if negb (HasPrefix rest "/") &&
            str_has ":" (before_byte (λ c, Ascii.eqb c "/") rest) then None
    else
      match CutPrefix "//" rest with
      | Some auth =>
          if String.eqb scheme "" && HasPrefix rest "///"
          then p ← set_encoded encodePath rest; Some (mk "" None "" p false)
          else
            let a := before_byte (λ c, Ascii.eqb c "/") auth in
            '(u, h) ← parseAuthority a;
            p ← set_encoded encodePath (String.substring (String.length a)
                  (String.length auth - String.length a) auth);
            Some (mk "" u h p false)
      | None =>
          p ← set_encoded encodePath rest;
          Some (mk "" None "" p (negb (String.eqb scheme "") && HasPrefix rest "/"))
      end.

Definition with_fragment (f : string * string) (u : URL) : URL := {|
  Scheme := Scheme u; Opaque := Opaque u; User := User u; Host := Host u; Path := Path u;
  RawPath := RawPath u; OmitHost := OmitHost u; ForceQuery := ForceQuery u; RawQuery := RawQuery u;
  Fragment := f.1; RawFragment := f.2 |}.

Definition cut_fragment (s : string) : string * string :=
  match Cut s "#" with Some (a, f) => (a, f) | None => (s, "") end.

Definition Parse (s : string) : option URL :=
  url ← parse_url (cut_fragment s).1;
  f ← set_encoded encodeFragment (cut_fragment s).2;
  Some (with_fragment f url).

(** [u.Fragment = f] *)
Definition set_Fragment (f : string) (u : URL) : URL := with_fragment (f, RawFragment u) u.

(** [EscapedPath] and [EscapedFragment]. *)
Definition escaped (mode : encoding) (decoded raw : string) : string :=
  if negb (String.eqb raw "") && validEncoded mode raw && bool_decide (unescape mode raw = Some decoded)
  then raw
  else if bool_decide (mode = encodePath) && String.eqb decoded "*" then "*"
  else escape mode decoded.

Definition Userinfo_String (ui : Userinfo) : string :=
  escape encodeUserPassword (username ui) +:+
  match password ui with Some p => ":" +:+ escape encodeUserPassword p | None => "" end.

Definition EscapedPath (u : URL) : string := escaped encodePath (Path u) (RawPath u).

(** What [String] writes between the scheme and the query. *)
Definition hier_part (u : URL) : string :=
  if negb (String.eqb (Opaque u) "") then Opaque u
  else
    let some_user := bool_decide (is_Some (User u)) in
    let no_host := String.eqb (Host u) "" in
    let auth :=
      if String.eqb (Scheme u) "" && no_host && negb some_user then ""
      else if OmitHost u && no_host && negb some_user then ""
      else (if negb no_host || negb (String.eqb (Path u) "") || some_user then "//" else "") +:+
           match User u with Some ui => Userinfo_String ui +:+ "@" | None => "" end +:+
           escape encodeHost (Host u) in
    let path := EscapedPath u in
    let path := if negb (String.eqb path "") && negb (HasPrefix path "/") && negb no_host
                then "/" +:+ path else path in
    if String.eqb (Scheme u) "" && String.eqb auth "" &&
       str_has ":" (before_byte (λ c, Ascii.eqb c "/") path)
    then "./" +:+ path else auth +:+ path.

(** [URL.String] *)
Definition URL_String (u : URL) : string :=
  (if String.eqb (Scheme u) "" then "" else Scheme u +:+ ":") +:+ hier_part u +:+
  (if ForceQuery u || negb (String.eqb (RawQuery u) "") then "?" +:+ RawQuery u else "") +:+
  (if String.eqb (Fragment u) "" then "" else "#" +:+ escaped encodeFragment (Fragment u) (RawFragment u)).

(** *** The query *)

(** One field of a query; [None] is one [ParseQuery] skips. *)
Definition query_field (f : string) : option (string * string) :=
  if str_has ";" f || String.eqb f "" then None
  else
    let '(k, v) := match Cut f "=" with Some kv => kv | None => (f, "") end in
    k ← unescape encodeQueryComponent k; v ← unescape encodeQueryComponent v; Some (k, v).

(** [u.Query()], the fields in their order. *)
Definition Query (u : URL) : list (string * string) := omap query_field (split_byte "&" (RawQuery u)).

(** [Values.Get] *)
Fixpoint Get (q : list (string * string)) (k : string) : string :=
  match q with [] => "" | (k', v) :: q => if String.eqb k' k then v else Get q k end.

(** The host without brackets, and the port. *)
Definition splitHostPort_lenient (hostPort : string) : string * string :=
  let '(host, port) :=
    match cut_last ":" hostPort with
    | Some (h, p) => if validOptionalPort (String ":" p) then (h, p) else (hostPort, "")
    | None => (hostPort, "")
    end in
  (match CutPrefix "[" host with
   | Some h => if HasSuffix host "]" then String.substring 0 (String.length h - 1) h else host
   | None => host
   end, port).

Definition Hostname (u : URL) : string := fst (splitHostPort_lenient (Host u)).
Definition Port (u : URL) : string := snd (splitHostPort_lenient (Host u)).

(** [net.SplitHostPort]; the error is its message, without the address. *)
Definition SplitHostPort (hostport : string) : result string (string * string) :=
  let missingPort := Err "missing port in address" in
  let tooManyColons := Err "too many colons in address" in
  match cut_last ":" hostport with
  | None => missingPort
  | Some (before, port) =>
      match CutPrefix "[" hostport with
      | Some rest =>
          match Cut rest "]" with
          | None => Err "missing ']' in address"
          | Some (host, after) =>
              match after with
              | "" => missingPort
              | String c p =>
                  if Ascii.eqb c ":" then
                    if str_has ":" p then tooManyColons
                    else if str_has "[" rest then Err "unexpected '[' in address"
                    else if str_has "]" after then Err "unexpected ']' in address"
                    else Ok (host, p)
                  else missingPort
              end
          end
      | None =>
          if str_has ":" before then tooManyColons
          else if str_has "[" hostport then Err "unexpected '[' in address"
          else if str_has "]" hostport then Err "unexpected ']' in address"
          else Ok (before, port)
      end
  end.

End Url.

Import Url.

Example parse_gstatic :
  Hostname <$> Parse "https://www.gstatic.com:8443/generate_204?x=1#f" = Some "www.gstatic.com".
Proof. vm_compute. reflexivity. Qed.
Example parse_v6_host : Hostname <$> Parse "http://u:p@[2001:db8::1]:80/" = Some "2001:db8::1".
Proof. vm_compute. reflexivity. Qed.
Example parse_bad_port : Parse "http://a:b:c/" = None.
Proof. vm_compute. reflexivity. Qed.
Example parse_ctl : Parse ("vless://a" +:+ nl +:+ "b") = None.
Proof. vm_compute. reflexivity. Qed.
Example parse_query :
  (λ u, (Get (Query u) "a", Get (Query u) "b c", Get (Query u) "d", Get (Query u) "e")) <$>
    Parse "x://h:1?a=1&a=2&b+c=%2B+&d;=3&e=%zz" = Some ("1", "+ ", "", "").
Proof. vm_compute. reflexivity. Qed.
Example string_link :
  (URL_String ∘ set_Fragment "My server") <$> Parse "VLESS://u%40x@Host:443/a%2Fb?x=1#old" =
  Some "vless://u%40x@Host:443/a%2Fb?x=1#My%20server".
Proof. vm_compute. reflexivity. Qed.
Example string_opaque : URL_String <$> Parse "mailto:joe@x" = Some "mailto:joe@x".
Proof. vm_compute. reflexivity. Qed.
Example parse_host_escape : Host <$> Parse "http://a%20b/" = None.
Proof. vm_compute. reflexivity. Qed.
Example split_v6 : SplitHostPort "[2001:db8::1]:51820" = Ok ("2001:db8::1", "51820").
Proof. vm_compute. reflexivity. Qed.
Example split_bare_v6 : SplitHostPort "2001:db8::1" = Err "too many colons in address".
Proof. vm_compute. reflexivity. Qed.
