(* ===== verification/GoUrlFacts.v ===== *)
(** * GoUrlFacts: printing a URL and parsing it again

    A link is renamed by parsing it, replacing the fragment and printing it.
    [Parse_String] says that the printed link parses to the same scheme, user,
    host and query with the new fragment, whatever the link; the facts before
    it are about one part of the text each. *)

From S2P Require Import Prelude GoStr GoUrl.
Import Url.

Local Open Scope string_scope.
Local Open Scope list_scope.

(** ** Escaping *)

Lemma unescape_escape_byte mode c s :
  mode ≠ encodeHost → mode ≠ encodeZone →
  unescape mode (escape_byte mode c s) = r ← unescape mode s; Some (String c r).
Proof.
  intros Hh Hz.
  destruct mode; try done; destruct c as [[] [] [] [] [] [] [] []]; reflexivity.
Qed.

Lemma unescape_escape mode s :
  mode ≠ encodeHost → mode ≠ encodeZone → unescape mode (escape mode s) = Some s.
Proof.
  intros Hh Hz. induction s as [|c s IH]; [done|]. cbn [escape].
  by rewrite unescape_escape_byte, IH.
Qed.

(** A test on every byte of an escaped text comes down to one on bytes. *)
Definition escapes_to (f : ascii → bool) (mode : encoding) : Prop :=
  ∀ c s, str_forallb f s = true → str_forallb f (escape_byte mode c s) = true.

Lemma escape_forallb f mode s : escapes_to f mode → str_forallb f (escape mode s) = true.
Proof. intros Hf. induction s as [|c s IH]; [done|]. by apply Hf. Qed.

Lemma hex_ok (f : ascii → bool) n :
  (∀ c, is_alnum c = true → f c = true) → (n < 16)%N → f (upperhex n) = true.
Proof.
  intros Hf Hn. apply Hf. assert (Hall : forallb (λ k, is_alnum (upperhex (N.of_nat k))) (seq 0 16) = true) by reflexivity.
  rewrite forallb_forall in Hall. specialize (Hall (N.to_nat n)). rewrite N2Nat.id in Hall.
  apply Hall, in_seq. lia.
Qed.

(** It is enough that the bytes left alone pass, and the percent sign and the
    letters and digits of an escape. *)
Lemma escapes_to_intro f mode :
  mode ≠ encodeQueryComponent →
  (∀ c, shouldEscape c mode = false → f c = true) → f "%"%char = true →
  (∀ c, is_alnum c = true → f c = true) → escapes_to f mode.
Proof.
  intros Hq Hkeep Hp Han c s Hs. unfold escape_byte. rewrite (bool_decide_eq_false_2 (mode = _)) by done.
  cbn [andb]. destruct (shouldEscape c mode) eqn:Hc; cbn [str_forallb].
  - rewrite Hp, Hs. cbn. rewrite !hex_ok; [done|done|apply N.mod_lt; lia|done|].
    apply N.Div0.div_lt_upper_bound. pose proof (byte_val_lt c). lia.
  - by rewrite (Hkeep c Hc), Hs.
Qed.

(** ** The host *)

(** Induction along [unescape]. *)
Lemma unescape_ind (P : string → Prop) :
  P "" → (∀ c s, c ≠ "%"%char → P s → P (String c s)) →
  (∀ a b s, P s → P (String "%" (String a (String b s)))) →
  P "%" → (∀ a, P (String "%" (String a ""))) → ∀ s, P s.
Proof.
  intros H0 H1 H2 H3 H4.
  refine (fix go s := match s with
    | "" => H0
    | String c s1 => match ascii_dec c "%" with
        | right n => H1 c s1 n (go s1)
        | left e => eq_ind_r (λ c, P (String c s1)) (match s1 with
            | "" => H3
            | String a "" => H4 a
            | String a (String b s2) => H2 a b s2 (go s2)
            end) e
        end
    end).
Qed.

Lemma str_has_cons c d s : str_has c (String d s) = Ascii.eqb c d || str_has c s.
Proof. unfold str_has. cbn [str_forallb]. by destruct (Ascii.eqb c d). Qed.

Lemma hex_digit_bound a n : hex_digit a = Some n → (n < 16)%N.
Proof.
  unfold hex_digit, in_range. intros H.
  repeat match type of H with context [if ?b then _ else _] => destruct b eqn:? end; simplify_eq/=;
    rewrite ?andb_true_iff, ?N.leb_le in *; lia.
Qed.

(** One byte of a host that does not start an escape. *)
Lemma unescape_host_byte c h s :
  c ≠ "%"%char → unescape encodeHost (String c h) = Some s →
  (is_ascii_byte c && shouldEscape c encodeHost) = false ∧
  ∃ s', s = String c s' ∧ unescape encodeHost h = Some s'.
Proof.
  intros Hc. cbn [unescape]. rewrite (proj2 (Ascii.eqb_neq c "%") Hc). cbn [bool_decide decide andb orb].
  rewrite (bool_decide_eq_false_2 (encodeHost = encodeQueryComponent)), andb_false_r by done.
  rewrite (bool_decide_eq_true_2 (encodeHost = encodeHost)) by done. cbn [orb andb].
  destruct (is_ascii_byte c && shouldEscape c encodeHost); [done|].
  destruct (unescape encodeHost h) as [r|]; cbn; [|done]. intros [= <-]. split; [done|]. by eexists.
Qed.

(** An escape of a host without a percent sign stands for a byte outside ASCII. *)
Lemma unescape_host_escape a b h s :
  unescape encodeHost (String "%" (String a (String b h))) = Some s → str_has "%" s = false →
  (is_Some (hex_digit a) ∧ is_Some (hex_digit b)) ∧ (Ascii.eqb a "2" = false) ∧
  ∃ c s', s = String c s' ∧ is_ascii_byte c = false ∧ unescape encodeHost h = Some s'.
Proof.
  cbn [unescape]. rewrite Ascii.eqb_refl.
  destruct (hex_digit a) as [x|] eqn:Ha; [|done]. destruct (hex_digit b) as [y|] eqn:Hb; [|done].
  cbn [mbind option_bind]. rewrite (bool_decide_eq_true_2 (encodeHost = encodeHost)) by done.
  rewrite (bool_decide_eq_false_2 (encodeHost = encodeZone)) by done. cbn [andb].
  pose proof (hex_digit_bound _ _ Ha) as Hxb. pose proof (hex_digit_bound _ _ Hb) as Hyb.
  destruct (x <? 8)%N eqn:Hx; cbn [andb].
  - destruct (Ascii.eqb a "2" && Ascii.eqb b "5") eqn:H25; cbn [negb]; [|done].
    apply andb_true_iff in H25 as [->%Ascii.eqb_eq ->%Ascii.eqb_eq].
    injection Ha as <-. injection Hb as <-. destruct (unescape encodeHost h) as [r|]; cbn; [|done].
    intros [= <-]. by rewrite str_has_cons.
  - destruct (unescape encodeHost h) as [r|]; cbn [mbind option_bind]; [|done].
    intros [= <-] _. apply N.ltb_ge in Hx. split; [by split; eexists|]. split.
    + destruct (Ascii.eqb_spec a "2") as [->|]; [|done]. injection Ha as <-. lia.
    + eexists _, _. split; [done|]. split; [|done]. unfold is_ascii_byte, byte_val.
      rewrite N_ascii_embedding by lia. apply N.ltb_ge. lia.
Qed.

Lemma not_hex_eqb c a : hex_digit c = None → is_Some (hex_digit a) → Ascii.eqb c a = false.
Proof. intros Hc [x Ha]. apply Ascii.eqb_neq. intros ->. congruence. Qed.

(** Cutting at an ASCII byte that is no hexadecimal digit commutes with decoding. *)
Lemma unescape_host_cut c h : is_ascii_byte c = true → hex_digit c = None → c ≠ "%"%char →
  ∀ s, unescape encodeHost h = Some s → str_has "%" s = false →
  match cut_last c h with
  | Some (_, y) => ∃ x' y', cut_last c s = Some (x', y') ∧ unescape encodeHost y = Some y' ∧ str_has "%" y' = false
  | None => cut_last c s = None
  end.
Proof.
  intros Hasc Hhex Hpct. induction h as [|d h Hd IH|a b h IH| |a] using unescape_ind; intros s Hs Hno.
  - by injection Hs as <-.
  - apply unescape_host_byte in Hs as [_ (s' & -> & Hs')]; [|done]. rewrite str_has_cons in Hno.
    apply orb_false_iff in Hno as [_ Hno]. specialize (IH _ Hs' Hno). cbn [cut_last].
    destruct (cut_last c h) as [[x y]|].
    + destruct IH as (x' & y' & -> & Hy). by eexists _, _.
    + rewrite IH. destruct (Ascii.eqb c d); [|done]. by eexists _, _.
  - apply unescape_host_escape in Hs as ([Ha Hb] & _ & e & s' & -> & He & Hs'); [|done].
    rewrite str_has_cons in Hno. apply orb_false_iff in Hno as [_ Hno]. specialize (IH _ Hs' Hno).
    assert (Ascii.eqb c e = false) as Hce by (apply Ascii.eqb_neq; intros ->; congruence).
    cbn [cut_last]. rewrite (not_hex_eqb c a), (not_hex_eqb c b), (proj2 (Ascii.eqb_neq c "%")), Hce by done.
    destruct (cut_last c h) as [[x y]|]; [|by rewrite IH].
    destruct IH as (x' & y' & -> & Hy). by eexists _, _.
  - done.
  - done.
Qed.

Lemma unescape_host_digits y : ∀ y', unescape encodeHost y = Some y' → str_has "%" y' = false →
  str_forallb is_digit y = str_forallb is_digit y'.
Proof.
  induction y as [|d h Hd IH|a b h IH| |a] using unescape_ind; intros s Hs Hno; try done.
  - by injection Hs as <-.
  - apply unescape_host_byte in Hs as [_ (s' & -> & Hs')]; [|done]. rewrite str_has_cons in Hno.
    apply orb_false_iff in Hno as [_ Hno]. cbn [str_forallb]. by rewrite (IH _ Hs').
  - apply unescape_host_escape in Hs as (_ & _ & e & s' & -> & He & Hs'); [|done]. cbn [str_forallb].
    change (is_digit "%") with false. cbn [andb]. unfold is_ascii_byte in He. unfold is_digit, in_range.
    apply N.ltb_ge in He. assert ((byte_val e <=? 57)%N = false) as -> by (apply N.leb_gt; lia).
    by rewrite andb_false_r.
Qed.

Lemma unescape_host_port y y' : unescape encodeHost y = Some y' → str_has "%" y' = false →
  validOptionalPort y = validOptionalPort y'.
Proof.
  intros Hy Hno. destruct y as [|c ds]; [by injection Hy as <-|].
  destruct (Ascii.eqb_spec c "%") as [->|Hc].
  - destruct ds as [|a [|b h]]; [done|done|].
    apply unescape_host_escape in Hy as (_ & _ & e & s' & -> & He & _); [|done]. cbn.
    destruct (Ascii.eqb_spec e ":") as [->|]; [done|done].
  - apply unescape_host_byte in Hy as [_ (s' & -> & Hs')]; [|done]. rewrite str_has_cons in Hno.
    apply orb_false_iff in Hno as [_ Hno]. cbn [validOptionalPort]. by rewrite (unescape_host_digits _ _ Hs').
Qed.

(** What [parseHost] asks of a host without a zone. *)
Definition host_shape (h : string) : bool :=
  if HasPrefix h "[" then
    match cut_last "]" h with Some (_, p) => validOptionalPort p | None => false end
  else
    match cut_last ":" h with Some (_, p) => validOptionalPort (String ":" p) | None => true end.

Lemma unescape_host_bracket h s : unescape encodeHost h = Some s → str_has "%" s = false →
  HasPrefix h "[" = HasPrefix s "[".
Proof.
  intros Hs Hno. destruct h as [|c h]; [by injection Hs as <-|].
  destruct (Ascii.eqb_spec c "%") as [->|Hc].
  - destruct h as [|a [|b h]]; [done|done|].
    apply unescape_host_escape in Hs as (_ & _ & e & s' & -> & He & _); [|done]. unfold HasPrefix. cbn [CutPrefix].
    destruct (Ascii.eqb_spec "[" e) as [<-|]; done.
  - apply unescape_host_byte in Hs as [_ (s' & -> & Hs')]; [|done]. unfold HasPrefix. cbn [CutPrefix].
    by destruct (Ascii.eqb "[" c), h, s'.
Qed.

Lemma host_shape_unescape h s : unescape encodeHost h = Some s → str_has "%" s = false →
  host_shape h = host_shape s.
Proof.
  intros Hs Hno. unfold host_shape. rewrite (unescape_host_bracket h s) by done.
  pose proof (unescape_host_cut "]" h eq_refl eq_refl ltac:(done) s Hs Hno) as Hb.
  pose proof (unescape_host_cut ":" h eq_refl eq_refl ltac:(done) s Hs Hno) as Hc.
  destruct (HasPrefix s "[").
  - destruct (cut_last "]" h) as [[x y]|]; [|by rewrite Hb].
    destruct Hb as (x' & y' & -> & Hy & Hn). by apply unescape_host_port.
  - destruct (cut_last ":" h) as [[x y]|]; [|by rewrite Hc].
    destruct Hc as (x' & y' & -> & Hy & Hn). cbn. by apply unescape_host_digits.
Qed.

Lemma str_has_app c a b : str_has c (a +:+ b) = str_has c a || str_has c b.
Proof. unfold str_has. rewrite str_forallb_app. by destruct (str_forallb _ a). Qed.

Lemma cut_space_suffix s r : cut_space s = Some r → ∃ w, s = w +:+ r.
Proof.
  unfold cut_space. intros Hc. repeat case_match; simplify_eq/=.
  - by exists (String a "").
  - by exists (String a (String a0 "")).
  - by exists (String a (String a0 (String a1 ""))).
Qed.

Lemma TrimLeftSpace_suffix s : ∃ w, s = w +:+ TrimLeftSpace s.
Proof.
  unfold TrimLeftSpace. generalize (String.length s) as n. intros n. revert s.
  induction n as [|n IH]; intros s; simpl; [by exists ""|].
  destruct (cut_space s) as [r|] eqn:Hr; [|by exists ""].
  apply cut_space_suffix in Hr as [w ->]. destruct (IH r) as [w' Hw]. exists (w +:+ w').
  rewrite app_assoc_str. by rewrite <- Hw.
Qed.

(** Trimming leaves a part of the text. *)
Lemma TrimSpace_part s : ∃ a b, s = a +:+ TrimSpace s +:+ b.
Proof.
  destruct (TrimLeftSpace_suffix s) as [w Hw]. destruct (TrimRightSpace_prefix (TrimLeftSpace s)) as [v Hv].
  exists w, v. unfold TrimSpace. by rewrite <- Hv.
Qed.

Lemma TrimSpace_has c s : str_has c s = false → str_has c (TrimSpace s) = false.
Proof.
  destruct (TrimSpace_part s) as (a & b & E). rewrite E at 1. rewrite !str_has_app, !orb_false_iff. tauto.
Qed.

Lemma unescape_zone_pct z b : unescape encodeZone ("%25" +:+ z) = Some b → str_has "%" b = true.
Proof.
  change ("%25" +:+ z) with (String "%" (String "2" (String "5" z))). cbn.
  destruct (unescape encodeZone z) as [r|]; cbn; [|done]. intros [= <-]. by rewrite str_has_cons.
Qed.

Lemma unescape_host_pct25 x y : ∀ s, unescape encodeHost (x +:+ "%25" +:+ y) = Some s → str_has "%" s = true.
Proof.
  induction x as [|d h Hd IH|a b h IH| |a] using unescape_ind; intros s Hs.
  - destruct (str_has "%" s) eqn:Hno; [done|].
    change ("" +:+ "%25" +:+ y) with (String "%" (String "2" (String "5" y))) in Hs.
    apply unescape_host_escape in Hs as (_ & H2 & _); done.
  - change (String d h +:+ "%25" +:+ y) with (String d (h +:+ "%25" +:+ y)) in Hs.
    apply unescape_host_byte in Hs as [_ (s' & -> & Hs')]; [|done]. rewrite str_has_cons, (IH _ Hs'). apply orb_true_r.
  - destruct (str_has "%" s) eqn:Hno; [done|].
    change (String "%" (String a (String b h)) +:+ "%25" +:+ y) with (String "%" (String a (String b (h +:+ "%25" +:+ y)))) in Hs.
    apply unescape_host_escape in Hs as (_ & _ & e & s' & -> & _ & Hs'); [|done].
    by rewrite str_has_cons, (IH _ Hs'), orb_true_r in Hno.
  - done.
  - change (String "%" (String a "") +:+ "%25" +:+ y) with (String "%" (String a (String "%" ("25" +:+ y)))) in Hs.
    cbn [unescape] in Hs. rewrite Ascii.eqb_refl in Hs. by destruct (hex_digit a).
Qed.

Lemma parseHost_shape h s : parseHost h = Some s → str_has "%" s = false →
  unescape encodeHost h = Some s ∧ host_shape h = true.
Proof.
  unfold parseHost, host_shape. intros Hh Hno. destruct (HasPrefix h "[").
  - destruct (cut_last "]" h) as [[inner p]|]; cbn [mbind option_bind] in Hh; [|done].
    destruct (validOptionalPort p); cbn [negb] in Hh; [|done].
    destruct (Cut inner "%25") as [[h1 z]|]; [|done]. exfalso.
    destruct (unescape encodeHost h1) as [a|]; cbn [mbind option_bind] in Hh; [|done].
    destruct (unescape encodeZone ("%25" +:+ z)) as [b|] eqn:Hb; cbn [mbind option_bind] in Hh; [|done].
    destruct (unescape encodeHost (String "]" p)) as [c|]; cbn [mbind option_bind] in Hh; [|done].
    injection Hh as <-. apply unescape_zone_pct in Hb. rewrite !str_has_app, Hb in Hno.
    by rewrite orb_true_r in Hno.
  - destruct (cut_last ":" h) as [[x p]|]; [|done]. by destruct (validOptionalPort _).
Qed.

Lemma shape_parseHost h s : unescape encodeHost h = Some s → str_has "%" s = false →
  host_shape h = true → parseHost h = Some s.
Proof.
  unfold parseHost, host_shape. intros Hh Hno. destruct (HasPrefix h "[").
  - destruct (cut_last "]" h) as [[inner p]|] eqn:Hcut; cbn [mbind option_bind]; [|done]. intros ->. cbn [negb].
    destruct (Cut inner "%25") as [[h1 z]|] eqn:Hz; [|done]. exfalso.
    assert (h = inner +:+ String "]" p) as ->.
    { clear -Hcut. revert inner p Hcut. induction h as [|d h IH]; intros inner p; cbn [cut_last]; [done|].
      destruct (cut_last "]" h) as [[a b]|]; [intros [= <- <-]; by rewrite (IH _ _ eq_refl)|].
      destruct (Ascii.eqb_spec "]" d) as [<-|]; [by intros [= <- <-]|done]. }
    apply Cut_Some in Hz as ->. rewrite !app_assoc_str in Hh. apply unescape_host_pct25 in Hh. congruence.
  - destruct (cut_last ":" h) as [[x p]|]; [|done]. by intros ->.
Qed.

(** A host that was parsed is printed and parsed back. *)
Definition host_byte (c : ascii) : bool := negb (is_ascii_byte c && shouldEscape c encodeHost).

Lemma unescape_host_bytes h : ∀ s, unescape encodeHost h = Some s → str_has "%" s = false →
  str_forallb host_byte s = true.
Proof.
  induction h as [|d h Hd IH|a b h IH| |a] using unescape_ind; intros s Hs Hno; try done.
  - by injection Hs as <-.
  - apply unescape_host_byte in Hs as [Hb (s' & -> & Hs')]; [|done]. rewrite str_has_cons in Hno.
    apply orb_false_iff in Hno as [_ Hno]. cbn [str_forallb]. unfold host_byte at 1. by rewrite Hb, (IH _ Hs').
  - apply unescape_host_escape in Hs as (_ & _ & e & s' & -> & He & Hs'); [|done]. rewrite str_has_cons in Hno.
    apply orb_false_iff in Hno as [_ Hno]. cbn [str_forallb]. unfold host_byte at 1. by rewrite He, (IH _ Hs').
Qed.

Lemma unescape_escape_host s : str_forallb host_byte s = true → unescape encodeHost (escape encodeHost s) = Some s.
Proof.
  induction s as [|c s IH]; [done|]. cbn [str_forallb escape]. intros [Hc Hs%IH]%andb_true_iff.
  assert (unescape encodeHost (escape_byte encodeHost c (escape encodeHost s)) =
    r ← unescape encodeHost (escape encodeHost s); Some (String c r)) as ->; [|by rewrite Hs].
  revert Hc. generalize (escape encodeHost s). intros t.
  destruct c as [[] [] [] [] [] [] [] []]; first [discriminate|reflexivity].
Qed.

Lemma parseHost_escape h s : parseHost h = Some s → str_has "%" s = false →
  parseHost (escape encodeHost s) = Some s.
Proof.
  intros Hh Hno. destruct (parseHost_shape _ _ Hh Hno) as [Hu Hsh].
  pose proof (unescape_escape_host s (unescape_host_bytes _ _ Hu Hno)) as He.
  apply shape_parseHost; [done|done|].
  by rewrite (host_shape_unescape _ _ He Hno), <- (host_shape_unescape _ _ Hu Hno).
Qed.

(** ** Cutting *)

Lemma Cut_byte_app c a b : str_has c a = false → Cut (a +:+ String c b) (String c "") = Some (a, b).
Proof.
  induction a as [|d a IH]; intros Ha.
  - change ("" +:+ String c b) with (String c b). cbn [Cut CutPrefix]. by rewrite Ascii.eqb_refl.
  - rewrite str_has_cons in Ha. apply orb_false_iff in Ha as [Hd Ha].
    change (String d a +:+ String c b) with (String d (a +:+ String c b)). cbn [Cut CutPrefix]. rewrite Hd.
    by rewrite IH.
Qed.

Lemma Cut_byte_None c a : Cut a (String c "") = None ↔ str_has c a = false.
Proof.
  induction a as [|d a IH]; [done|]. rewrite str_has_cons. cbn [Cut CutPrefix].
  destruct (Ascii.eqb c d); [done|]. cbn [orb]. rewrite <- IH. by destruct (Cut a _) as [[]|].
Qed.

Lemma Cut_byte_first c a x y : Cut a (String c "") = Some (x, y) → str_has c x = false.
Proof.
  revert x. induction a as [|d a IH]; intros x; cbn [Cut CutPrefix]; [done|].
  destruct (Ascii.eqb c d) eqn:Hd; [by intros [= <- _]|].
  destruct (Cut a _) as [[x' y']|]; [|done]. intros [= <- <-]. by rewrite str_has_cons, Hd, (IH x').
Qed.

Lemma cut_last_app c a b : str_has c b = false → cut_last c (a +:+ String c b) = Some (a, b).
Proof.
  intros Hb. assert (Hn : ∀ s, str_has c s = false → cut_last c s = None).
  { induction s as [|d s IH]; [done|]. rewrite str_has_cons. intros [Hd Hs%IH]%orb_false_iff. cbn [cut_last]. by rewrite Hs, Hd. }
  induction a as [|d a IH].
  - change ("" +:+ String c b) with (String c b). cbn [cut_last]. by rewrite Hn, Ascii.eqb_refl.
  - change (String d a +:+ String c b) with (String d (a +:+ String c b)). cbn [cut_last]. by rewrite IH.
Qed.

Lemma str_has_forallb c f s : f c = false → str_forallb f s = true → str_has c s = false.
Proof.
  intros Hc. unfold str_has. rewrite negb_false_iff. apply str_forallb_impl. intros d Hd.
  apply negb_true_iff, Ascii.eqb_neq. intros <-. congruence.
Qed.

(** ** The parts of a link *)

(** Bytes that neither end the authority nor start another part. *)
Definition is_ctl (c : ascii) : bool := ((byte_val c <? 32) || (byte_val c =? 127))%N.
Definition inner_byte (c : ascii) : bool := negb (one_of c "@/?#") && negb (is_ctl c).
Definition user_byte (c : ascii) : bool := inner_byte c && negb (Ascii.eqb c ":").
Definition url_byte (c : ascii) : bool := negb (Ascii.eqb c "#") && negb (is_ctl c).
Definition path_byte (c : ascii) : bool := url_byte c && negb (Ascii.eqb c "?").

Ltac by_bytes := intros [[] [] [] [] [] [] [] []]; first [discriminate | reflexivity].

Lemma user_escapes : escapes_to user_byte encodeUserPassword.
Proof. apply escapes_to_intro; [done|by_bytes|done|by_bytes]. Qed.
Lemma userinfo_escapes :
  escapes_to (λ c, is_alnum c || one_of c "-._:~!$&'()*+,;=%@") encodeUserPassword.
Proof. apply escapes_to_intro; [done|by_bytes|done|by_bytes]. Qed.
Lemma host_escapes : escapes_to inner_byte encodeHost.
Proof. apply escapes_to_intro; [done|by_bytes|done|by_bytes]. Qed.
Lemma path_escapes : escapes_to path_byte encodePath.
Proof. apply escapes_to_intro; [done|by_bytes|done|by_bytes]. Qed.
Lemma fragment_escapes : escapes_to solid_byte encodeFragment.
Proof. apply escapes_to_intro; [done|by_bytes|done|by_bytes]. Qed.

Lemma parseUser_String ui : parseUser (Userinfo_String ui) = Some ui.
Proof.
  destruct ui as [n p]. unfold parseUser, Userinfo_String. cbn [username password].
  assert (Hn : str_has ":" (escape encodeUserPassword n) = false).
  { apply (str_has_forallb _ user_byte); [done|]. apply escape_forallb, user_escapes. }
  assert (Hv : ∀ s, validUserinfo (escape encodeUserPassword s) = true).
  { intros s. apply escape_forallb, userinfo_escapes. }
  destruct p as [p|].
  - change (":" +:+ ?x) with (String ":" x). unfold validUserinfo in *. rewrite str_forallb_app, Hv. cbn [str_forallb].
    rewrite Hv. cbn [andb negb orb]. rewrite Cut_byte_app by done.
    rewrite !unescape_escape by done. done.
  - rewrite app_nil_str, Hv. cbn [negb]. rewrite (proj2 (Cut_byte_None ":" _) Hn), unescape_escape by done. done.
Qed.

(** The text of an authority. *)
Definition authority (u : option Userinfo) (h : string) : string :=
  match u with Some ui => Userinfo_String ui +:+ "@" | None => "" end +:+ escape encodeHost h.

Lemma Userinfo_bytes f ui :
  escapes_to f encodeUserPassword → f ":"%char = true → str_forallb f (Userinfo_String ui) = true.
Proof.
  intros Hf Hc. destruct ui as [n [p|]]; unfold Userinfo_String; cbn [username password];
    rewrite str_forallb_app, escape_forallb by done; [|done].
  change (":" +:+ ?x) with (String ":" x). cbn [str_forallb]. by rewrite Hc, escape_forallb.
Qed.

Lemma inner_user_escapes : escapes_to inner_byte encodeUserPassword.
Proof. apply escapes_to_intro; [done|by_bytes|done|by_bytes]. Qed.

Lemma parseAuthority_String a u h :
  parseAuthority a = Some (u, h) → str_has "%" h = false → parseAuthority (authority u h) = Some (u, h).
Proof.
  intros Ha Hno. assert (∃ h0, parseHost h0 = Some h) as [h0 Hh0].
  { unfold parseAuthority in Ha. destruct (cut_last "@" a) as [[ui x]|].
    - destruct (parseHost x) eqn:E; cbn in Ha; [|done]. destruct (parseUser ui); cbn in Ha; [|done].
      injection Ha as <- <-. by eexists.
    - destruct (parseHost a) eqn:E; cbn in Ha; [|done]. injection Ha as <- <-. by eexists. }
  assert (Hat : str_has "@" (escape encodeHost h) = false).
  { apply (str_has_forallb _ inner_byte); [done|]. apply escape_forallb, host_escapes. }
  unfold parseAuthority, authority. destruct u as [ui|].
  - rewrite app_assoc_str. change ("@" +:+ ?x) with (String "@" x).
    rewrite cut_last_app by done. by rewrite (parseHost_escape h0), parseUser_String.
  - change ("" +:+ escape encodeHost h) with (escape encodeHost h).
    assert (cut_last "@" (escape encodeHost h) = None) as ->.
    { revert Hat. generalize (escape encodeHost h). induction s as [|d s IH]; [done|].
      rewrite str_has_cons. intros [Hd Hs%IH]%orb_false_iff. cbn [cut_last]. by rewrite Hs, Hd. }
    by rewrite (parseHost_escape h0).
Qed.

(** *** The path and the fragment *)

(** What is printed decodes to what is kept, whatever the raw text. *)
Lemma unescape_escaped mode d r :
  mode = encodePath ∨ mode = encodeFragment → unescape mode (escaped mode d r) = Some d.
Proof.
  intros Hm. unfold escaped. destruct (negb _ && _ && _) eqn:Hc.
  - apply andb_true_iff in Hc as [_ Hb%bool_decide_eq_true]. done.
  - clear Hc. destruct (_ && _) eqn:Hs.
    + apply andb_true_iff in Hs as [_ ->%String.eqb_eq]. by destruct Hm as [->| ->].
    + apply unescape_escape; by destruct Hm as [->| ->].
Qed.

Lemma escaped_bytes f mode d r :
  escapes_to f mode → f "*"%char = true → (str_forallb f r = true ∨ ∀ c, one_of c "!$&'()*+,;=:@[]%" || negb (shouldEscape c mode) = true → f c = true) →
  str_forallb f (escaped mode d r) = true.
Proof.
  intros Hf Hstar Hr. unfold escaped. destruct (negb _ && _ && _) eqn:Hc.
  - rewrite !andb_true_iff in Hc. destruct Hc as [[_ Hv] _]. destruct Hr as [Hr|Hr]; [done|].
    eapply str_forallb_impl; [exact Hr|done].
  - clear Hc. destruct (_ && _); [by cbn; rewrite Hstar|by apply escape_forallb].
Qed.

Lemma escaped_fragment_solid d r : str_forallb solid_byte (escaped encodeFragment d r) = true.
Proof. apply escaped_bytes; [apply fragment_escapes|done|right; by_bytes]. Qed.

(** A path that is empty or starts with a slash stays so. *)
Definition rooted (p : string) : bool := String.eqb p "" || HasPrefix p "/".

Lemma rooted_cons c p : rooted (String c p) = Ascii.eqb "/" c.
Proof. unfold rooted, HasPrefix. cbn [String.eqb orb CutPrefix]. by destruct (Ascii.eqb "/" c), p. Qed.

Lemma escaped_rooted p d r : rooted p = true → set_encoded encodePath p = Some (d, r) →
  rooted (escaped encodePath d r) = true ∧ rooted d = true.
Proof.
  unfold set_encoded. intros Hp. destruct (unescape encodePath p) as [d'|] eqn:Hd; cbn [mbind option_bind]; [|done].
  intros [= <- Hr]. assert (Hroot : rooted d' = true).
  { destruct p as [|c p]; [by injection Hd as <-|]. rewrite rooted_cons in Hp. apply Ascii.eqb_eq in Hp as <-.
    cbn in Hd. destruct (unescape encodePath p); cbn in Hd; [|done]. injection Hd as <-. by rewrite rooted_cons. }
  split; [|done]. unfold escaped. destruct (negb (String.eqb r "") && validEncoded encodePath r && _) eqn:Hc.
  - rewrite !andb_true_iff, negb_true_iff in Hc. destruct Hc as [[Hne _] _].
    destruct (String.eqb p _) in Hr; by subst r.
  - destruct d' as [|c d']; [done|]. rewrite rooted_cons in Hroot. apply Ascii.eqb_eq in Hroot as <-.
    exact (rooted_cons "/" (escape encodePath d')).
Qed.

(** *** The scheme *)

Definition is_alpha (c : ascii) : bool := in_range 97 122 c || in_range 65 90 c.
Definition scheme_byte (c : ascii) : bool := is_alpha c || is_digit c || one_of c "+-.".
Definition scheme_ok (s : string) : bool :=
  match s with "" => false | String c s => is_alpha c && str_forallb scheme_byte s end.

Lemma getScheme_from_rest acc whole t r :
  str_forallb scheme_byte t = true →
  getScheme_from false acc whole (t +:+ String ":" r) = Some (srev acc +:+ t, r).
Proof.
  revert acc. induction t as [|c t IH]; intros acc Ht.
  - change ("" +:+ String ":" r) with (String ":" r). cbn. by rewrite app_nil_str.
  - cbn [str_forallb] in Ht. apply andb_true_iff in Ht as [Hc Ht].
    change (String c t +:+ String ":" r) with (String c (t +:+ String ":" r)). cbn [getScheme_from].
    unfold scheme_byte, is_alpha in Hc. destruct (in_range 97 122 c || in_range 65 90 c); cbn [orb] in Hc;
      [|rewrite Hc]; rewrite IH, srev_cons, app_assoc_str by done; done.
Qed.

Lemma getScheme_app s r : scheme_ok s = true → getScheme (s +:+ String ":" r) = Some (s, r).
Proof.
  destruct s as [|c s]; [done|]. cbn [scheme_ok]. intros [Hc Hs]%andb_true_iff. unfold getScheme.
  change (String c s +:+ String ":" r) with (String c (s +:+ String ":" r)). cbn [getScheme_from].
  unfold is_alpha in Hc. rewrite Hc, getScheme_from_rest by done. done.
Qed.

Lemma getScheme_from_ok acc whole s x r : x ≠ "" →
  (acc ≠ "" → scheme_ok (srev acc) = true) →
  getScheme_from (String.eqb acc "") acc whole s = Some (x, r) →
  scheme_ok x = true ∧ ∃ t, x = srev acc +:+ t ∧ s = t +:+ String ":" r.
Proof.
  intros Hx. revert acc. induction s as [|c s IH]; intros acc Hacc; cbn [getScheme_from]; [by intros [= <- <-]|].
  assert (Hstep : ∀ c', scheme_byte c' = true → (acc = "" → is_alpha c' = true) →
    (String c' acc ≠ "" → scheme_ok (srev (String c' acc)) = true)).
  { intros c' Hc' Hfirst _. rewrite srev_cons. destruct acc as [|d acc].
    - change (is_alpha c' && true = true). by rewrite (Hfirst eq_refl).
    - specialize (Hacc ltac:(done)). destruct (srev (String d acc)) as [|e t]; [done|].
      change (String e t +:+ ?z) with (String e (t +:+ z)). cbn [scheme_ok] in *.
      rewrite str_forallb_app. apply andb_true_iff in Hacc as [-> ->]. cbn. by rewrite Hc'. }
  assert (Hnext : ∀ c', scheme_byte c' = true → (acc = "" → is_alpha c' = true) → c' = c →
    getScheme_from false (String c' acc) whole s = Some (x, r) →
    scheme_ok x = true ∧ ∃ t, x = srev acc +:+ t ∧ String c s = t +:+ String ":" r).
  { intros c' H1 H2 -> E. destruct (IH (String c acc) (Hstep c H1 H2) E) as (? & t & -> & ->). split; [done|].
    exists (String c t). by rewrite srev_cons, app_assoc_str. }
  destruct (in_range 97 122 c || in_range 65 90 c) eqn:Ha.
  { apply Hnext; [unfold scheme_byte, is_alpha; by rewrite Ha|done|done]. }
  destruct (is_digit c || one_of c "+-.") eqn:Hd.
  - destruct acc as [|d acc]; cbn [String.eqb]; [by intros [= <- <-]|].
    apply Hnext; [unfold scheme_byte; rewrite <- orb_assoc, Hd; apply orb_true_r|done|done].
  - destruct (Ascii.eqb c ":") eqn:Hc; [|by intros [= <- <-]]. apply Ascii.eqb_eq in Hc as ->.
    destruct acc as [|d acc]; cbn [String.eqb]; [done|]. intros [= <- <-]. split; [by apply Hacc|].
    exists "". by rewrite app_nil_str.
Qed.

Lemma getScheme_ok s x r : x ≠ "" → getScheme s = Some (x, r) → scheme_ok x = true ∧ s = x +:+ String ":" r.
Proof.
  intros Hx E. destruct (getScheme_from_ok "" s s x r Hx) as (Hok & t & -> & ->); [done|exact E|].
  split; [done|]. done.
Qed.

Lemma lower_scheme s : scheme_ok s = true → scheme_ok (str_map lower_byte s) = true ∧
  str_map lower_byte (str_map lower_byte s) = str_map lower_byte s.
Proof.
  assert (Hb : ∀ c, is_alpha c = true → is_alpha (lower_byte c) = true) by by_bytes.
  assert (Hs : ∀ c, scheme_byte c = true → scheme_byte (lower_byte c) = true) by by_bytes.
  assert (Hi : ∀ c, lower_byte (lower_byte c) = lower_byte c) by by_bytes.
  destruct s as [|c s]; [done|]. cbn [scheme_ok str_map]. intros [Hc Hss]%andb_true_iff. split.
  - rewrite (Hb c Hc). clear -Hs Hss. induction s as [|d s IH]; [done|]. cbn [str_forallb str_map] in *.
    apply andb_true_iff in Hss as [Hd Hss]. by rewrite Hs, IH.
  - f_equal; [apply Hi|]. clear -Hi. induction s as [|d s IH]; [done|]. cbn [str_map]. by rewrite Hi, IH.
Qed.

(** ** A link, printed and parsed again *)

Lemma before_byte_split f s : ∃ b, s = before_byte f s +:+ b ∧ (b = "" ∨ ∃ c b', b = String c b' ∧ f c = true).
Proof.
  induction s as [|c s (b & Hs & Hb)]; [by exists ""; split; [|left]|]. cbn [before_byte].
  destruct (f c) eqn:Hc; [by exists (String c s); split; [|right; eexists _, _]|].
  exists b. split; [|done]. change (String c (before_byte f s) +:+ b) with (String c (before_byte f s +:+ b)). by f_equal.
Qed.

Lemma before_byte_stop f a b : str_forallb (λ c, negb (f c)) a = true →
  (b = "" ∨ ∃ c b', b = String c b' ∧ f c = true) → before_byte f (a +:+ b) = a.
Proof.
  intros Ha Hb. induction a as [|c a IH].
  - change ("" +:+ b) with b. destruct Hb as [->|(c & b' & -> & Hc)]; [done|]. cbn. by rewrite Hc.
  - cbn [str_forallb] in Ha. apply andb_true_iff in Ha as [Hc%negb_true_iff Ha].
    change (String c a +:+ b) with (String c (a +:+ b)). cbn [before_byte]. by rewrite Hc, IH.
Qed.

(** What is known of a link with a scheme and a host. *)
Record link_parts (u : URL) : Prop := {
  lp_scheme : scheme_ok (Scheme u) = true ∧ str_map lower_byte (Scheme u) = Scheme u;
  lp_opaque : Opaque u = "";
  lp_authority : ∃ a, parseAuthority a = Some (User u, Host u);
  lp_path : ∃ p, rooted p = true ∧ str_forallb path_byte p = true ∧
            set_encoded encodePath p = Some (Path u, RawPath u);
  lp_query : str_forallb url_byte (RawQuery u) = true ∧ (ForceQuery u = true → RawQuery u = "")
}.

Lemma url_bytes_of s : has_ctl s = false → str_has "#" s = false → str_forallb url_byte s = true.
Proof.
  unfold has_ctl, str_has, url_byte, is_ctl. rewrite !negb_false_iff. induction s as [|c s IH]; [done|].
  cbn [str_forallb]. intros [Hc Hs]%andb_true_iff [Hd Hs']%andb_true_iff. rewrite Hc, IH by done.
  rewrite negb_true_iff, Ascii.eqb_sym in Hd. by rewrite Hd.
Qed.

Lemma cut_query_parts rest0 rest q force :
  cut_query rest0 = (rest, q, force) → str_forallb url_byte rest0 = true →
  str_forallb path_byte rest = true ∧ str_forallb url_byte q = true ∧ (force = true → q = "").
Proof.
  unfold cut_query. intros E Hu.
  assert (Hpath : ∀ s, str_forallb url_byte s = true → str_has "?" s = false → str_forallb path_byte s = true).
  { intros s. unfold str_has, path_byte. rewrite negb_false_iff. induction s as [|c s IH]; [done|].
    cbn [str_forallb]. intros [Hc Hs]%andb_true_iff [Hd Hs']%andb_true_iff. rewrite IH, Hc by done.
    rewrite negb_true_iff, Ascii.eqb_sym in Hd. by rewrite Hd. }
  destruct (Cut rest0 "?") as [[a b]|] eqn:Hc; injection E as <- <- <-.
  - pose proof (Cut_byte_first _ _ _ _ Hc) as Hf. apply Cut_Some in Hc as ->.
    change ("?" +:+ b) with (String "?" b) in Hu. rewrite str_forallb_app in Hu.
    apply andb_true_iff in Hu as [Ha Hb]. cbn [str_forallb] in Hb. apply andb_true_iff in Hb as [_ Hb].
    split_and!; [by apply Hpath|done|by intros ->%String.eqb_eq].
  - apply (Cut_byte_None "?") in Hc. split_and!; [by apply Hpath|done|done].
Qed.

Lemma parse_url_parts s u :
  str_has "#" s = false → parse_url s = Some u → Scheme u ≠ "" → Host u ≠ "" → link_parts u.
Proof.
  intros Hhash. unfold parse_url. destruct (has_ctl s) eqn:Hctl; [done|].
  destruct (String.eqb s "*"); [by intros [= <-]|].
  destruct (getScheme s) as [[sch rest0]|] eqn:Hsch; cbn [mbind option_bind]; [|done].
  destruct (cut_query rest0) as [[rest q] force] eqn:Hq. intros E Hs Hh.
  destruct (String.eqb_spec sch "") as [->|Hne].
  { exfalso. revert E. cbn [str_map]. repeat case_match; intros; simplify_eq/=; try done;
      try (destruct (set_encoded _ _); cbn in *; simplify_eq/=; done);
      try (destruct (parseAuthority _) as [[? ?]|]; cbn in *; [|done]; destruct (set_encoded _ _); cbn in *; simplify_eq/=; done). }
  destruct (getScheme_ok _ _ _ Hne Hsch) as [Hok ->].
  pose proof (url_bytes_of _ Hctl Hhash) as Hu. rewrite str_forallb_app in Hu. apply andb_true_iff in Hu as [_ Hu].
  cbn [str_forallb] in Hu. apply andb_true_iff in Hu as [_ Hu].
  destruct (cut_query_parts _ _ _ _ Hq Hu) as (Hp & Hqb & Hforce).
  assert (Hlow : String.eqb (str_map lower_byte sch) "" = false) by (by destruct sch).
  rewrite Hlow in E. cbn [negb andb] in E. rewrite andb_true_r in E.
  destruct (HasPrefix rest "/"); cbn [negb andb] in E; [|injection E as <-; by destruct Hh].
  destruct (CutPrefix "//" rest) as [auth|] eqn:Hcp.
  2: { destruct (set_encoded _ _); cbn in E; [|done]. injection E as <-. by destruct Hh. }
  apply CutPrefix_Some in Hcp as ->. rewrite str_forallb_app in Hp. apply andb_true_iff in Hp as [_ Hp].
  destruct (parseAuthority _) as [[us h]|] eqn:Ha; cbn [mbind option_bind] in E; [|done].
  destruct (before_byte_split (λ c, Ascii.eqb c "/") auth) as (b & Hsplit & Hb).
  set (a := before_byte _ auth) in *.
  assert (Hsub : String.substring (String.length a) (String.length auth - String.length a) auth = b).
  { rewrite Hsplit, length_app_str, substring_skip. replace (_ + _ - _)%nat with (String.length b) by lia. apply substring_whole. }
  rewrite Hsub in E. destruct (set_encoded encodePath b) as [[d r]|] eqn:Hset; cbn in E; [|done].
  injection E as <-. cbn in Hs, Hh.
  rewrite Hsplit, str_forallb_app in Hp. apply andb_true_iff in Hp as [_ Hp].
  split; cbn.
  - by apply lower_scheme.
  - done.
  - by exists a.
  - exists b. split_and!; [|done|done]. destruct Hb as [->|(c & b' & -> & ->%Ascii.eqb_eq)]; [done|by rewrite rooted_cons].
  - done.
Qed.

Lemma Parse_parts s u : Parse s = Some u → Scheme u ≠ "" → Host u ≠ "" → link_parts u.
Proof.
  unfold Parse. destruct (parse_url (cut_fragment s).1) as [u0|] eqn:Hu; cbn [mbind option_bind]; [|done].
  destruct (set_encoded encodeFragment _); cbn [mbind option_bind]; [|done]. intros [= <-] Hs Hh. cbn in Hs, Hh.
  assert (str_has "#" (cut_fragment s).1 = false) as Hhash.
  { unfold cut_fragment. destruct (Cut s "#") as [[a f]|] eqn:Hc; cbn; [by eapply Cut_byte_first|by apply Cut_byte_None]. }
  destruct (parse_url_parts _ _ Hhash Hu Hs Hh). by split.
Qed.

(** ** The scheme of a link *)

Lemma cut_query_prefix rest0 rest q force : cut_query rest0 = (rest, q, force) → ∃ w, rest0 = rest +:+ w.
Proof.
  unfold cut_query. destruct (Cut rest0 "?") as [[a b]|] eqn:Hc; intros [= <- <- <-].
  - apply Cut_Some in Hc as ->. by eexists.
  - exists "". by rewrite app_nil_str.
Qed.

Lemma parse_url_prefix s u : parse_url s = Some u → Scheme u ≠ "" → Host u ≠ "" →
  ∃ sch rest, s = sch +:+ "://" +:+ rest ∧ scheme_ok sch = true ∧ str_map lower_byte sch = Scheme u.
Proof.
  unfold parse_url. destruct (has_ctl s); [done|]. destruct (String.eqb s "*"); [by intros [= <-]|].
  destruct (getScheme s) as [[sch rest0]|] eqn:Hsch; cbn [mbind option_bind]; [|done].
  destruct (cut_query rest0) as [[rest q] force] eqn:Hq. intros E Hs Hh.
  assert (Scheme u = str_map lower_byte sch ∧ ∃ auth, CutPrefix "//" rest = Some auth) as [Hu [auth Hcp]].
  { revert E. repeat case_match; intros; simplify_eq/=; try done;
      try (destruct (set_encoded _ _); cbn in *; simplify_eq/=; done);
      try (destruct (parseAuthority _) as [[? ?]|]; cbn in *; [|done]; destruct (set_encoded _ _); cbn in *; simplify_eq/=; eauto). }
  assert (sch ≠ "") as Hne by (intros ->; by rewrite Hu in Hs).
  destruct (getScheme_ok _ _ _ Hne Hsch) as [Hok ->].
  apply CutPrefix_Some in Hcp as ->. apply cut_query_prefix in Hq as [w ->].
  exists sch, (auth +:+ w). by rewrite !app_assoc_str.
Qed.

Lemma Cut_scheme sch rest : scheme_ok sch = true → Cut (sch +:+ "://" +:+ rest) "://" = Some (sch, rest).
Proof.
  intros Hok. assert (str_forallb scheme_byte sch = true) as Hb.
  { destruct sch as [|c sch]; [done|]. cbn [scheme_ok] in Hok. apply andb_true_iff in Hok as [Hc Hs]. cbn.
    unfold scheme_byte at 1. by rewrite Hc, Hs. }
  clear Hok. induction sch as [|c sch IH]; [done|]. cbn [str_forallb] in Hb. apply andb_true_iff in Hb as [Hc Hs].
  change (String c sch +:+ ?x) with (String c (sch +:+ x)). cbn [Cut]. rewrite (IH Hs).
  assert (CutPrefix "://" (String c (sch +:+ "://" +:+ rest)) = None) as ->; [|done].
  cbn [CutPrefix]. destruct (Ascii.eqb_spec ":" c) as [<-|]; [by vm_compute in Hc|done].
Qed.

(** A link with a host is cut at its scheme, in whatever case it is written. *)
Lemma Parse_scheme s u : Parse s = Some u → Scheme u ≠ "" → Host u ≠ "" →
  ∃ sch rest, Cut s "://" = Some (sch, rest) ∧ str_map lower_byte sch = Scheme u ∧ str_forallb is_ascii_byte sch = true.
Proof.
  unfold Parse. destruct (parse_url (cut_fragment s).1) as [u0|] eqn:Hu; cbn [mbind option_bind]; [|done].
  destruct (set_encoded encodeFragment _); cbn [mbind option_bind]; [|done]. intros [= <-] Hs Hh. cbn in Hs, Hh.
  destruct (parse_url_prefix _ _ Hu Hs Hh) as (sch & rest & Hpre & Hok & Hl).
  assert (∃ w, s = sch +:+ "://" +:+ w) as [w ->].
  { revert Hpre. unfold cut_fragment. destruct (Cut s "#") as [[a f]|] eqn:Hc; cbn; [|by intros ->; eexists].
    intros ->. apply Cut_Some in Hc as ->. exists (rest +:+ "#" +:+ f). by rewrite !app_assoc_str. }
  exists sch, w. split_and!; [by apply Cut_scheme|done|].
  assert (∀ c, scheme_byte c = true → is_ascii_byte c = true) as Hb by by_bytes.
  assert (∀ c, is_alpha c = true → is_ascii_byte c = true) as Ha by by_bytes.
  destruct sch as [|c sch]; [done|]. cbn [scheme_ok str_forallb] in *. apply andb_true_iff in Hok as [Hc Hss].
  by rewrite (Ha c Hc), (str_forallb_impl scheme_byte is_ascii_byte sch Hb Hss).
Qed.

(** The text before the fragment: scheme, authority, path and query. *)
Definition link_text (u : URL) : string :=
  Scheme u +:+ ":" +:+ "//" +:+ authority (User u) (Host u) +:+ EscapedPath u +:+
  (if ForceQuery u || negb (String.eqb (RawQuery u) "") then "?" +:+ RawQuery u else "").

Lemma EscapedPath_facts u : link_parts u →
  rooted (EscapedPath u) = true ∧ str_forallb path_byte (EscapedPath u) = true ∧
  unescape encodePath (EscapedPath u) = Some (Path u).
Proof.
  intros [_ _ _ (p & Hr & Hb & Hset) _]. unfold EscapedPath. split_and!.
  - by apply (escaped_rooted p _ _ Hr Hset).
  - apply escaped_bytes; [apply path_escapes|done|left]. unfold set_encoded in Hset.
    destruct (unescape encodePath p); cbn in Hset; [|done]. injection Hset as _ <-. by destruct (String.eqb p _).
  - apply unescape_escaped. by left.
Qed.

Lemma URL_String_link u : link_parts u → Host u ≠ "" →
  URL_String u = link_text u +:+
    (if String.eqb (Fragment u) "" then "" else "#" +:+ escaped encodeFragment (Fragment u) (RawFragment u)).
Proof.
  intros Hp Hh. pose proof (EscapedPath_facts u Hp) as (Hroot & _ & _).
  destruct Hp as [[Hok _] Ho _ _ _]. unfold URL_String, link_text, hier_part, authority. rewrite Ho.
  assert (String.eqb (Scheme u) "" = false) as -> by (by destruct (Scheme u)).
  rewrite (proj2 (String.eqb_neq (Host u) "") Hh). cbn [String.eqb negb andb orb]. rewrite andb_false_r. cbn [andb].
  assert ((if negb (String.eqb (EscapedPath u) "") && negb (HasPrefix (EscapedPath u) "/") && true
           then "/" +:+ EscapedPath u else EscapedPath u) = EscapedPath u) as ->.
  { unfold rooted in Hroot. by destruct (String.eqb (EscapedPath u) ""), (HasPrefix (EscapedPath u) "/"). }
  by rewrite !app_assoc_str.
Qed.

Lemma has_ctl_bytes s : str_forallb (λ c, negb (is_ctl c)) s = true → has_ctl s = false.
Proof. unfold has_ctl, is_ctl. by intros ->. Qed.

(** The bytes of an authority: none ends it. *)
Definition authority_byte (c : ascii) : bool := negb (one_of c "/?#") && negb (is_ctl c).

Lemma authority_bytes u h : str_forallb authority_byte (authority u h) = true.
Proof.
  assert (Hi : ∀ c, inner_byte c = true → authority_byte c = true) by by_bytes.
  assert (Hh : str_forallb authority_byte (escape encodeHost h) = true).
  { eapply str_forallb_impl; [exact Hi|]. apply escape_forallb, host_escapes. }
  unfold authority. destruct u as [ui|]; [|done]. rewrite !str_forallb_app, Hh.
  rewrite (str_forallb_impl inner_byte) by (done || by apply Userinfo_bytes, eq_refl; apply inner_user_escapes). done.
Qed.

Lemma link_text_bytes u : link_parts u → str_forallb url_byte (link_text u) = true.
Proof.
  intros Hp. pose proof (EscapedPath_facts u Hp) as (_ & Hpath & _). destruct Hp as [[Hok _] _ _ _ [Hq _]].
  assert (Ha : ∀ c, authority_byte c = true → url_byte c = true) by by_bytes.
  assert (Hpb : ∀ c, path_byte c = true → url_byte c = true) by by_bytes.
  assert (Hsb : ∀ c, scheme_byte c = true → url_byte c = true) by by_bytes.
  assert (Hal : ∀ c, is_alpha c = true → url_byte c = true) by by_bytes.
  unfold link_text. rewrite !str_forallb_app.
  rewrite (str_forallb_impl authority_byte url_byte (authority _ _)) by (done || apply authority_bytes).
  rewrite (str_forallb_impl path_byte url_byte (EscapedPath u)) by done.
  assert (str_forallb url_byte (Scheme u) = true) as ->.
  { destruct (Scheme u) as [|c s]; [done|]. cbn [scheme_ok str_forallb] in *. apply andb_true_iff in Hok as [Hc Hs].
    rewrite Hal by done. by apply (str_forallb_impl scheme_byte). }
  destruct (_ || _); [|done]. rewrite str_forallb_app, Hq. done.
Qed.

Lemma cut_query_text a q (force : bool) : str_forallb path_byte a = true → (force = true → q = "") →
  cut_query (a +:+ (if force || negb (String.eqb q "") then "?" +:+ q else "")) = (a, q, force).
Proof.
  intros Ha Hf. assert (Hno : str_has "?" a = false) by (by apply (str_has_forallb _ path_byte)).
  unfold cut_query. destruct (String.eqb_spec q "") as [->|Hq].
  - destruct force; cbn [orb negb].
    + change ("?" +:+ "") with (String "?" ""). by rewrite Cut_byte_app.
    + rewrite app_nil_str. by rewrite (proj2 (Cut_byte_None "?" a) Hno).
  - destruct force; [by destruct Hq; apply Hf|]. cbn [orb negb]. change ("?" +:+ q) with (String "?" q).
    rewrite Cut_byte_app by done. by rewrite (proj2 (String.eqb_neq q "") Hq).
Qed.

Lemma parse_link_text u : link_parts u → str_has "%" (Host u) = false →
  ∃ p, set_encoded encodePath (EscapedPath u) = Some p ∧ p.1 = Path u ∧
    parse_url (link_text u) = Some {|
      Scheme := Scheme u; Opaque := ""; User := User u; Host := Host u; Path := p.1; RawPath := p.2;
      OmitHost := false; ForceQuery := ForceQuery u; RawQuery := RawQuery u; Fragment := ""; RawFragment := "" |}.
Proof.
  intros Hp Hno. pose proof (EscapedPath_facts u Hp) as (Hroot & Hpath & Hdec).
  pose proof (link_text_bytes u Hp) as Hbytes. destruct Hp as [[Hok Hlow] _ [a Ha] _ [_ Hforce]].
  set (auth := authority (User u) (Host u)) in *.
  assert (Hctl : has_ctl (link_text u) = false).
  { apply has_ctl_bytes. eapply str_forallb_impl; [|exact Hbytes]. unfold url_byte.
    by intros c [_ ?]%andb_true_iff. }
  unfold parse_url. rewrite Hctl.
  set (rest := "//" +:+ auth +:+ EscapedPath u).
  assert (link_text u = Scheme u +:+ String ":" (rest +:+
    (if ForceQuery u || negb (String.eqb (RawQuery u) "") then "?" +:+ RawQuery u else ""))) as ->.
  { unfold link_text, rest. by rewrite !app_assoc_str. }
  assert (∀ z, String.eqb (Scheme u +:+ String ":" z) "*" = false) as ->.
  { intros z. destruct (Scheme u) as [|c [|d s]] eqn:E; [done| |].
    - change (String c "" +:+ String ":" z) with (String c (String ":" z)). cbn. by destruct (Ascii.eqb c "*").
    - change (String c (String d s) +:+ String ":" z) with (String c (String d (s +:+ String ":" z))). cbn. by destruct (Ascii.eqb c "*"). }
  rewrite getScheme_app by done. cbn [mbind option_bind].
  assert (Hrest : str_forallb path_byte rest = true).
  { unfold rest. rewrite !str_forallb_app, Hpath.
    rewrite (str_forallb_impl authority_byte path_byte auth) by (by_bytes || apply authority_bytes). done. }
  rewrite cut_query_text by done. rewrite Hlow.
  assert (String.eqb (Scheme u) "" = false) as -> by (by destruct (Scheme u)).
  assert (HasPrefix rest "/" = true) as -> by (apply HasPrefix_true; by eexists).
  assert (CutPrefix "//" rest = Some (auth +:+ EscapedPath u)) as -> by (by apply CutPrefix_Some).
  cbn [negb andb].
  assert (before_byte (λ c, Ascii.eqb c "/") (auth +:+ EscapedPath u) = auth) as ->.
  { apply before_byte_stop.
    - eapply str_forallb_impl; [|apply authority_bytes]. by_bytes.
    - destruct (EscapedPath u) as [|c p]; [by left|right]. rewrite rooted_cons in Hroot.
      apply Ascii.eqb_eq in Hroot as <-. by eexists _, _. }
  assert (parseAuthority auth = Some (User u, Host u)) as -> by (by apply (parseAuthority_String a)).
  cbn [mbind option_bind].
  rewrite length_app_str, substring_skip.
  replace (_ + _ - _)%nat with (String.length (EscapedPath u)) by lia. rewrite substring_whole.
  unfold set_encoded. rewrite Hdec. cbn. by eexists.
Qed.

(** A link whose fragment is replaced, printed and parsed again, keeps its
    other parts.  The one thing excluded is a percent sign in the host, which
    only the zone of an IPv6 address has. *)
Lemma Parse_String s u label :
  Parse s = Some u → Scheme u ≠ "" → Host u ≠ "" → str_has "%" (Host u) = false →
  ∃ u', Parse (URL_String (set_Fragment label u)) = Some u' ∧ Fragment u' = label ∧
    Scheme u' = Scheme u ∧ User u' = User u ∧ Host u' = Host u ∧ RawQuery u' = RawQuery u.
Proof.
  intros HP Hs Hh Hno. pose proof (Parse_parts _ _ HP Hs Hh) as Hp.
  set (v := set_Fragment label u). assert (Hv : link_parts v) by (by destruct Hp; split).
  rewrite URL_String_link by done.
  destruct (parse_link_text v Hv Hno) as (q & _ & _ & Hu').
  assert (Hhash : str_has "#" (link_text v) = false).
  { apply (str_has_forallb _ url_byte); [done|]. by apply link_text_bytes. }
  assert (Hcut : cut_fragment (link_text v +:+ (if String.eqb (Fragment v) "" then ""
      else "#" +:+ escaped encodeFragment (Fragment v) (RawFragment v))) =
    (link_text v, if String.eqb label "" then "" else escaped encodeFragment label (RawFragment u))).
  { unfold cut_fragment. change (Fragment v) with label. change (RawFragment v) with (RawFragment u).
    destruct (String.eqb label ""); [by rewrite app_nil_str, (proj2 (Cut_byte_None "#" _) Hhash)|].
    change ("#" +:+ ?x) with (String "#" x). by rewrite Cut_byte_app. }
  unfold Parse. rewrite Hcut. cbn [fst snd]. rewrite Hu'. cbn [mbind option_bind].
  assert (∃ r, set_encoded encodeFragment (if String.eqb label "" then "" else escaped encodeFragment label (RawFragment u)) = Some (label, r)) as [r ->].
  { unfold set_encoded. destruct (String.eqb_spec label "") as [->|]; [by eexists|].
    rewrite unescape_escaped by (by right). by eexists. }
  cbn [mbind option_bind]. eexists. split; [done|]. by cbn.
Qed.

(** ** A URL that was built, not parsed *)

(** A rooted path without its own encoding, and the parts of a base URL. *)
Definition base_url (scheme host path query : string) : URL := {|
  Scheme := scheme; Opaque := ""; User := None; Host := host; Path := path; RawPath := ""; OmitHost := false;
  ForceQuery := false; RawQuery := query; Fragment := ""; RawFragment := "" |}.

Lemma rooted_not_star p : rooted p = true → String.eqb p "*" = false.
Proof. destruct p as [|c p]; [done|]. rewrite rooted_cons. intros <-%Ascii.eqb_eq. done. Qed.

Lemma EscapedPath_base scheme host path query : rooted path = true →
  EscapedPath (base_url scheme host path query) = escape encodePath path.
Proof.
  intros Hr. unfold EscapedPath, escaped, base_url. cbn [Path RawPath String.eqb negb andb].
  rewrite (rooted_not_star _ Hr). by rewrite andb_false_r.
Qed.

Lemma base_url_parts scheme host path query :
  scheme_ok scheme = true → str_map lower_byte scheme = scheme → parseHost host = Some host →
  str_has "%" host = false → rooted path = true → str_forallb url_byte query = true →
  link_parts (base_url scheme host path query).
Proof.
  intros Hs Hl Hh Hno Hr Hq. split; cbn.
  - done.
  - done.
  - exists (authority None host). pose proof (parseHost_escape _ _ Hh Hno) as He.
    unfold parseAuthority, authority. change ("" +:+ ?x) with x.
    destruct (cut_last "@" (escape encodeHost host)) as [[a b]|] eqn:Hc; [|by rewrite He].
    exfalso. assert (Hat : str_has "@" (escape encodeHost host) = false).
    { apply (str_has_forallb _ inner_byte); [done|]. apply escape_forallb, host_escapes. }
    revert a b Hc Hat. generalize (escape encodeHost host). induction s as [|d s IH]; intros a b; [done|].
    rewrite str_has_cons. cbn [cut_last]. intros Hc [Hd Hs']%orb_false_iff.
    destruct (cut_last "@" s) as [[x y]|]; [by eapply IH|]. by rewrite Hd in Hc.
  - exists (escape encodePath path). split_and!.
    + destruct path as [|c path]; [done|]. rewrite rooted_cons in Hr. apply Ascii.eqb_eq in Hr as <-.
      exact (rooted_cons "/" (escape encodePath path)).
    + apply escape_forallb, path_escapes.
    + unfold set_encoded. rewrite unescape_escape by done. cbn. by rewrite String.eqb_refl.
  - done.
Qed.

Lemma Parse_base_url scheme host path query :
  link_parts (base_url scheme host path query) → host ≠ "" → str_has "%" host = false → rooted path = true →
  Parse (URL_String (base_url scheme host path query)) = Some (base_url scheme host path query).
Proof.
  intros Hp Hh Hno Hr. rewrite URL_String_link by done. cbn [Fragment base_url String.eqb].
  destruct (parse_link_text _ Hp Hno) as (p & Hset & Hp1 & Hu).
  rewrite app_nil_str. unfold Parse, cut_fragment.
  rewrite (proj2 (Cut_byte_None "#" _)) by (apply (str_has_forallb _ url_byte); [done|by apply link_text_bytes]).
  cbn [fst snd]. rewrite Hu. cbn [mbind option_bind].
  rewrite EscapedPath_base in Hset by done. unfold set_encoded in Hset. rewrite unescape_escape in Hset by done.
  cbn in Hset. rewrite String.eqb_refl in Hset. by injection Hset as <-.
Qed.
