(* ===== verification/GoHttp.v ===== *)
(** * GoHttp: what the program uses of Go's net/http

    A request before it is sent: its headers under their canonical names, its
    cookies, its URL's query.  Sending it is not modelled here. *)

From S2P Require Import Prelude GoStr GoUrl.

Local Open Scope string_scope.
Local Open Scope list_scope.

Module Http.

(** ** Header names *)

(** [isTokenTable] *)
Definition token_byte (c : ascii) : bool := Url.is_alnum c || Url.one_of c "!#$%&'*+-.^_`|~".

Definition upper_byte (c : ascii) : ascii :=
  if in_range 97 122 c then ascii_of_N (byte_val c - 32) else c.

(** [upper] is set at the start and after a hyphen. *)
Fixpoint canonical_from (upper : bool) (s : string) : string :=
  match s with
  | "" => ""
  | String c s =>
      let c := if upper then upper_byte c else lower_byte c in
      String c (canonical_from (Ascii.eqb c "-") s)
  end.

(** [CanonicalMIMEHeaderKey]: a name with a byte that is no token byte stays. *)
Definition CanonicalHeaderKey (s : string) : string :=
  if str_forallb token_byte s then canonical_from true s else s.

(** Every header here is written with [Set], so each has one value. *)
Notation Header := (gmap string string).
Definition Header_Set (h : Header) (k v : string) : Header := <[CanonicalHeaderKey k := v]> h.
Definition Header_Get (h : Header) (k : string) : string := default "" (h !! CanonicalHeaderKey k).

(** ** Cookies *)

Definition cookie_name (s : string) : string :=
  str_map (λ c, if Ascii.eqb c LF || Ascii.eqb c CR then "-"%char else c) s.

Definition cookie_value_byte (c : ascii) : bool :=
  in_range 32 126 c && negb (Ascii.eqb c DQ || Ascii.eqb c ";" || Ascii.eqb c "\").

Definition cookie_value (s : string) : string :=
  let v := str_filter cookie_value_byte s in
  if str_has " " v || str_has "," v then String DQ (v +:+ String DQ "") else v.

Definition cookie_pair (name value : string) : string := cookie_name name +:+ "=" +:+ cookie_value value.

Definition AddCookie (h : Header) (name value : string) : Header :=
  let c := Header_Get h "Cookie" in
  let s := cookie_pair name value in
  Header_Set h "Cookie" (if String.eqb c "" then s else c +:+ "; " +:+ s).

(** ** The query *)

(** [Values.Set]: one value in the place of the others. *)
Definition Values_Set (q : list (string * string)) (k v : string) : list (string * string) :=
  filter (λ kv, kv.1 ≠ k) q ++ [(k, v)].

Definition encode_field (kv : string * string) : string :=
  Url.escape Url.encodeQueryComponent kv.1 +:+ "=" +:+ Url.escape Url.encodeQueryComponent kv.2.

(** [Values.Encode]: sorted by key, the values of a key in their order. *)
Definition Encode (q : list (string * string)) : string :=
  Join "&" (k ← sort_strings (remove_dups (fst <$> q)); encode_field <$> filter (λ kv, kv.1 = k) q).

(** ** Requests *)

Inductive Body := NoBody | Streaming | Bytes (payload : string).

Record Request := {
  Method : string;
  rHost : string;
  rURL : Url.URL;
  rHeader : Header;
  rBody : Body
}.

Definition with_url (f : Url.URL → Url.URL) (r : Request) : Request := {|
  Method := Method r; rHost := rHost r; rURL := f (rURL r); rHeader := rHeader r; rBody := rBody r |}.
Definition with_header (f : Header → Header) (r : Request) : Request := {|
  Method := Method r; rHost := rHost r; rURL := rURL r; rHeader := f (rHeader r); rBody := rBody r |}.
Definition with_body (b : Body) (r : Request) : Request := {|
  Method := Method r; rHost := rHost r; rURL := rURL r; rHeader := rHeader r; rBody := b |}.

Definition set_path (p : string) (u : Url.URL) : Url.URL := {|
  Url.Scheme := Url.Scheme u; Url.Opaque := Url.Opaque u; Url.User := Url.User u; Url.Host := Url.Host u;
  Url.Path := p; Url.RawPath := Url.RawPath u; Url.OmitHost := Url.OmitHost u; Url.ForceQuery := Url.ForceQuery u;
  Url.RawQuery := Url.RawQuery u; Url.Fragment := Url.Fragment u; Url.RawFragment := Url.RawFragment u |}.
Definition set_query (q : string) (u : Url.URL) : Url.URL := {|
  Url.Scheme := Url.Scheme u; Url.Opaque := Url.Opaque u; Url.User := Url.User u; Url.Host := Url.Host u;
  Url.Path := Url.Path u; Url.RawPath := Url.RawPath u; Url.OmitHost := Url.OmitHost u; Url.ForceQuery := Url.ForceQuery u;
  Url.RawQuery := q; Url.Fragment := Url.Fragment u; Url.RawFragment := Url.RawFragment u |}.
Definition set_host (h : string) (u : Url.URL) : Url.URL := {|
  Url.Scheme := Url.Scheme u; Url.Opaque := Url.Opaque u; Url.User := Url.User u; Url.Host := h;
  Url.Path := Url.Path u; Url.RawPath := Url.RawPath u; Url.OmitHost := Url.OmitHost u; Url.ForceQuery := Url.ForceQuery u;
  Url.RawQuery := Url.RawQuery u; Url.Fragment := Url.Fragment u; Url.RawFragment := Url.RawFragment u |}.

(** [removeEmptyPort] *)
Definition removeEmptyPort (host : string) : string :=
  match CutPrefix ":" (srev host) with Some r => srev r | None => host end.

(** [http.NewRequest] *)
Definition NewRequest (method url : string) (body : Body) : option Request :=
  let method := if String.eqb method "" then "GET" else method in
  if negb (str_forallb token_byte method) then None
  else
    u ← Url.Parse url;
    Some {| Method := method; rHost := removeEmptyPort (Url.Host u);
            rURL := set_host (removeEmptyPort (Url.Host u)) u; rHeader := ∅; rBody := body |}.

Example canonical_ex :
  (CanonicalHeaderKey <$> ["x-padding"; "X-DATA-12"; "user agent"; ""]) = ["X-Padding"; "X-Data-12"; "user agent"; ""].
Proof. vm_compute. reflexivity. Qed.
Example encode_ex :
  Encode (Values_Set [("b", "2"); ("a", "x y"); ("b", "3"); ("a", "&")] "c" "/") = "a=x+y&a=%26&b=2&b=3&c=%2F".
Proof. vm_compute. reflexivity. Qed.
Example cookies_ex :
  Header_Get (AddCookie (AddCookie ∅ "a" "1 2") (String LF "b") "x;y") "cookie" =
  "a=" +:+ String DQ "1 2" +:+ String DQ "; -b=xy".
Proof. vm_compute. reflexivity. Qed.

(** ** Facts *)

Lemma Header_Get_Set h k v : Header_Get (Header_Set h k v) k = v.
Proof. unfold Header_Get, Header_Set. by rewrite lookup_insert_eq. Qed.

Lemma Header_Get_Set_ne h k v k' : CanonicalHeaderKey k ≠ CanonicalHeaderKey k' →
  Header_Get (Header_Set h k v) k' = Header_Get h k'.
Proof. intros Hne. unfold Header_Get, Header_Set. by rewrite lookup_insert_ne. Qed.

(** Digits after a hyphen keep apart what they kept apart. *)
Lemma canonical_digits b k d : str_forallb is_digit d = true →
  ∃ k', canonical_from b (k +:+ "-" +:+ d) = k' +:+ "-" +:+ d ∧ String.length k' = String.length k.
Proof.
  assert (Hd : ∀ u s, str_forallb is_digit s = true → canonical_from u s = s).
  { intros u s. revert u. induction s as [|c s IH]; intros u; [done|]. cbn [str_forallb canonical_from].
    intros [Hc Hs]%andb_true_iff. rewrite IH by done. f_equal. revert Hc. clear. destruct u; revert c;
      intros [[] [] [] [] [] [] [] []]; first [discriminate|reflexivity]. }
  intros Hs. revert b. induction k as [|c k IH]; intros b.
  - exists "". split; [|done]. change ("" +:+ ?x) with x. change ("-" +:+ d) with (String "-" d).
    cbn [canonical_from]. rewrite Hd by done. by destruct b.
  - change (String c k +:+ ?x) with (String c (k +:+ x)). cbn [canonical_from].
    destruct (IH (Ascii.eqb (if b then upper_byte c else lower_byte c) "-")) as (k' & E & Hl).
    exists (String (if b then upper_byte c else lower_byte c) k'). rewrite E. split; [done|]. cbn. by rewrite Hl.
Qed.

Lemma canonical_suffix_inj k d d' : str_forallb is_digit d = true → str_forallb is_digit d' = true →
  CanonicalHeaderKey (k +:+ "-" +:+ d) = CanonicalHeaderKey (k +:+ "-" +:+ d') → d = d'.
Proof.
  intros Hd Hd'. assert (Ht : ∀ s, str_forallb is_digit s = true → str_forallb token_byte s = true).
  { intros s. apply str_forallb_impl. intros [[] [] [] [] [] [] [] []]; first [discriminate|reflexivity]. }
  assert (Happ : ∀ a b x y : string, String.length a = String.length b → a +:+ x = b +:+ y → x = y).
  { clear. intros a. induction a as [|c a IH]; intros [|e b] x y; cbn [String.length]; try done.
    intros [= Hl]. change (String c a +:+ x) with (String c (a +:+ x)). change (String e b +:+ y) with (String e (b +:+ y)).
    intros [= _ E]. by eapply IH. }
  unfold CanonicalHeaderKey. rewrite !str_forallb_app, (Ht d), (Ht d') by done.
  destruct (str_forallb token_byte k); cbn [andb].
  - change (str_forallb token_byte "-" && true) with true. cbn iota.
    destruct (canonical_digits true k d Hd) as (k1 & -> & H1). destruct (canonical_digits true k d' Hd') as (k2 & -> & H2).
    intros E. apply Happ in E; [|congruence]. by injection E.
  - intros E. apply Happ in E; [|done]. by injection E.
Qed.

(** A value without bytes to drop or to quote is printed as it is. *)
Lemma cookie_value_plain s : str_forallb (λ c, cookie_value_byte c && negb (Ascii.eqb c " " || Ascii.eqb c ",")) s = true →
  cookie_value s = s.
Proof.
  intros Hs. assert (Hv : str_forallb cookie_value_byte s = true).
  { eapply str_forallb_impl; [|exact Hs]. by intros c [? _]%andb_true_iff. }
  unfold cookie_value. rewrite str_filter_all by done.
  assert (∀ x, x = " "%char ∨ x = ","%char → str_has x s = false) as H.
  { intros x Hx. unfold str_has. rewrite negb_false_iff. eapply str_forallb_impl; [|exact Hs]. cbn.
    intros c [_ Hc]%andb_true_iff. rewrite negb_true_iff in *. destruct (Ascii.eqb_spec c " "), (Ascii.eqb_spec c ","); try done.
    apply Ascii.eqb_neq. by destruct Hx as [->| ->]. }
  by rewrite !H by auto.
Qed.

End Http.
