(* ===== verification/GoQuery.v ===== *)
(** * GoQuery: URLs that are built, not parsed

    [Values.Encode] and [u.Query] are inverse for the program's purposes: the
    first value of every key is read back ([Get_Encode]).  A link built from a
    scheme, a user, a host, a port, a query and a fragment parses back into
    them ([Parse_built]). *)

From S2P Require Import Prelude GoStr GoNet GoUrl GoUrlFacts GoHttp.
Import Url Http.

Local Open Scope string_scope.
Local Open Scope list_scope.

(** ** The query *)

Lemma query_escapes (f : ascii → bool) :
  (∀ c, shouldEscape c encodeQueryComponent = false → f c = true) → f "%"%char = true → f "+"%char = true →
  (∀ c, is_alnum c = true → f c = true) → escapes_to f encodeQueryComponent.
Proof.
  intros Hkeep Hp Hplus Han c s Hs. unfold escape_byte. rewrite bool_decide_eq_true_2 by done. cbn [andb].
  destruct (Ascii.eqb c " "); [by cbn; rewrite Hplus, Hs|].
  destruct (shouldEscape c encodeQueryComponent) eqn:Hc; cbn [str_forallb].
  - rewrite Hp, Hs. cbn. rewrite !hex_ok; [done|done|apply N.mod_lt; lia|done|].
    apply N.Div0.div_lt_upper_bound. pose proof (byte_val_lt c). lia.
  - by rewrite (Hkeep c Hc), Hs.
Qed.

(** The bytes of an encoded query, and of a key or a value in it. *)
Definition query_byte (c : ascii) : bool := is_alnum c || one_of c "-_.~%+".
Definition encoded_byte (c : ascii) : bool := query_byte c || one_of c "&=".

Lemma escape_query_bytes s : str_forallb query_byte (escape encodeQueryComponent s) = true.
Proof. apply escape_forallb, query_escapes; [by_bytes|done|done|by_bytes]. Qed.

Lemma escape_query_has c s : query_byte c = false → str_has c (escape encodeQueryComponent s) = false.
Proof. intros Hc. apply (str_has_forallb _ query_byte); [done|apply escape_query_bytes]. Qed.

Lemma query_field_encode kv : query_field (encode_field kv) = Some kv.
Proof.
  destruct kv as [k v]. unfold query_field, encode_field. cbn [fst snd]. change ("=" +:+ ?x) with (String "=" x).
  assert (str_has ";" (escape encodeQueryComponent k +:+ String "=" (escape encodeQueryComponent v)) = false) as ->.
  { by rewrite str_has_app, str_has_cons, !escape_query_has. }
  assert (∀ a b, String.eqb (a +:+ String "=" b) "" = false) as -> by (by intros [|? ?] ?).
  cbn [orb]. rewrite Cut_byte_app by (by apply escape_query_has). by rewrite !unescape_escape.
Qed.

Lemma encode_field_bytes kv : str_forallb (λ c, query_byte c || Ascii.eqb c "=") (encode_field kv) = true.
Proof.
  assert (H : ∀ s, str_forallb (λ c, query_byte c || Ascii.eqb c "=") (escape encodeQueryComponent s) = true).
  { intros s. eapply str_forallb_impl; [|apply escape_query_bytes]. by intros c ->. }
  unfold encode_field. rewrite !str_forallb_app, !H. done.
Qed.

Lemma split_byte_Join c l : Forall (λ s, str_forallb (λ d, negb (Ascii.eqb c d)) s = true) l → l ≠ [] →
  split_byte c (Join (String c "") l) = l.
Proof.
  intros Hl. induction Hl as [|x l Hx Hl IH]; intros Hne; [done|]. destruct l as [|y l]; [by apply split_byte_none|].
  change (Join (String c "") (x :: y :: l)) with (x +:+ String c "" +:+ Join (String c "") (y :: l)).
  change (String c "" +:+ ?z) with (String c z). rewrite split_byte_app by done. by rewrite IH.
Qed.

Lemma Get_app a b k : Get (a ++ b) k = if existsb (λ kv, String.eqb (fst kv) k) a then Get a k else Get b k.
Proof. induction a as [|[k' v] a IH]; [done|]. cbn. by destruct (String.eqb k' k). Qed.

Lemma Get_filter_eq q k : Get (filter (λ kv, kv.1 = k) q) k = Get q k.
Proof.
  induction q as [|[k' v] q IH]; [done|]. rewrite filter_cons. cbn. case_decide; subst; cbn.
  - by rewrite String.eqb_refl.
  - by rewrite IH, (proj2 (String.eqb_neq k' k)).
Qed.

Lemma Get_filter_ne q k k' : Get (filter (λ kv, kv.1 ≠ k') q) k = if String.eqb k' k then "" else Get q k.
Proof.
  induction q as [|[x v] q IH]; [by destruct (String.eqb k' k)|]. rewrite filter_cons. cbn. destruct (decide (x ≠ k')) as [Hx|Hx%dec_stable]; cbn.
  - rewrite IH. destruct (String.eqb_spec x k) as [->|]; [|done]. by rewrite (proj2 (String.eqb_neq k' k)).
  - subst x. rewrite IH. by destruct (String.eqb k' k).
Qed.

Lemma Get_notin q k : k ∉ (fst <$> q) → Get q k = "".
Proof.
  induction q as [|[x v] q IH]; [done|]. cbn. rewrite not_elem_of_cons. intros [Hx Hq].
  by rewrite (proj2 (String.eqb_neq x k)), IH.
Qed.

Lemma Get_Values_Set q k v k' : Get (Values_Set q k v) k' = if String.eqb k k' then v else Get q k'.
Proof.
  unfold Values_Set. rewrite Get_app, Get_filter_ne. cbn. destruct (String.eqb_spec k k') as [->|Hne].
  - replace (existsb _ _) with false; [done|]. symmetry. apply not_true_is_false. intros H.
    apply existsb_exists in H as ([x y] & Hin & E). apply list_elem_of_In, list_elem_of_filter in Hin as [Hne _].
    by apply String.eqb_eq in E.
  - destruct (existsb _ _) eqn:E; [done|]. symmetry. apply Get_notin. intros ([x y] & -> & Hin)%list_elem_of_fmap.
    apply not_true_iff_false in E. apply E. apply existsb_exists. exists (x, y). cbn in *. rewrite String.eqb_refl.
    split; [|done]. apply list_elem_of_In, list_elem_of_filter. split; [|done]. cbn. congruence.
Qed.

Lemma Get_blocks ks q k :
  Get (x ← ks; filter (λ kv, kv.1 = x) q) k = if bool_decide (k ∈ ks) then Get q k else "".
Proof.
  induction ks as [|x ks IH]; [done|]. cbn [mbind list_bind].
  change (list_bind _ _ (λ x, filter (λ kv, kv.1 = x) q) ks) with (ks ≫= λ x, filter (λ kv, kv.1 = x) q).
  rewrite Get_app, IH. destruct (decide (k = x)) as [->|Hx].
  - rewrite (bool_decide_eq_true_2 (x ∈ x :: ks)) by (by left). rewrite Get_filter_eq. destruct (existsb _ _) eqn:E; [done|].
    assert (Get q x = "") as ->; [|by case_bool_decide]. rewrite <- Get_filter_eq. revert E.
    induction (filter _ q) as [|[a b] l IHl]; [done|]. cbn. destruct (String.eqb a x); [done|]. exact IHl.
  - replace (existsb _ _) with false.
    + rewrite !(bool_decide_ext (k ∈ x :: ks) (k ∈ ks)) by (rewrite elem_of_cons; naive_solver). done.
    + symmetry. apply not_true_is_false. intros H. apply existsb_exists in H as ([a b] & Hin & E).
      apply list_elem_of_In, list_elem_of_filter in Hin as [E0 _]. apply String.eqb_eq in E. cbn in *. congruence.
Qed.

(** The query that is read is the one that was encoded. *)
Definition query_of (raw : string) : list (string * string) := omap query_field (split_byte "&" raw).

Lemma Get_Encode q k : Get (query_of (Encode q)) k = Get q k.
Proof.
  unfold query_of, Encode. set (ks := sort_strings (remove_dups (fst <$> q))).
  assert (Hk : ks ≫= (λ k, encode_field <$> filter (λ kv, kv.1 = k) q) =
    encode_field <$> (ks ≫= λ k, filter (λ kv, kv.1 = k) q)).
  { clearbody ks. induction ks as [|x ks IH]; [done|]. cbn. rewrite fmap_app. f_equal. exact IH. }
  rewrite Hk. assert (Hg : Get (ks ≫= λ k, filter (λ kv, kv.1 = k) q) k = Get q k).
  { rewrite Get_blocks. case_bool_decide as Hin; [done|]. symmetry. apply Get_notin. intros Hq. apply Hin.
    unfold ks. rewrite elem_of_sort_strings, elem_of_remove_dups. done. }
  rewrite <- Hg. generalize (ks ≫= λ k, filter (λ kv, kv.1 = k) q). intros l.
  destruct l as [|kv l]; [done|]. rewrite split_byte_Join; [|apply Forall_fmap, Forall_true|done].
  - f_equal. induction (kv :: l) as [|x m IH]; [done|]. cbn. rewrite query_field_encode. by f_equal.
  - intros x. cbn. eapply str_forallb_impl; [|apply encode_field_bytes]. by_bytes.
Qed.

Lemma Encode_bytes q : str_forallb encoded_byte (Encode q) = true.
Proof.
  unfold Encode. match goal with |- context [Join _ ?l] => assert (Hl : Forall (λ s, str_forallb encoded_byte s = true) l) end.
  { apply Forall_forall. intros s (k & Hs & _)%list_elem_of_bind. apply list_elem_of_fmap in Hs as (kv & -> & _).
    eapply str_forallb_impl; [|apply encode_field_bytes]. by_bytes. }
  induction Hl as [|x l Hx Hl IH]; [done|]. destruct l as [|y l]; [done|].
  change (Join "&" (x :: y :: l)) with (x +:+ "&" +:+ Join "&" (y :: l)). by rewrite !str_forallb_app, Hx, IH.
Qed.

(** ** Links *)

Definition built_link (scheme : string) (user : Userinfo) (hostport : string) (q : list (string * string))
    (name : string) : URL := {|
  Scheme := scheme; Opaque := ""; User := Some user; Host := hostport; Path := ""; RawPath := ""; OmitHost := false;
  ForceQuery := false; RawQuery := Encode q; Fragment := name; RawFragment := "" |}.

(** A host that needs no escape: a name, an IPv4 address or an IPv6 one. *)
Definition plain_host_byte (c : ascii) : bool := is_alnum c || one_of c "-._~:".
Definition plain_host (h : string) : bool := negb (String.eqb h "") && str_forallb plain_host_byte h.

(** [net.JoinHostPort] *)
Definition join_host_port (host port : string) : string :=
  if str_has ":" host then "[" +:+ host +:+ "]:" +:+ port else host +:+ ":" +:+ port.

Section built.
Context (scheme : string) (user : Userinfo) (host port : string) (q : list (string * string)) (name : string).
Context (Hscheme : scheme_ok scheme = true) (Hlower : str_map lower_byte scheme = scheme).
Context (Hhost : plain_host host = true) (Hport : str_forallb is_digit port = true).

Let u := built_link scheme user (join_host_port host port) q name.

Lemma plain_host_bytes : host ≠ "" ∧ str_forallb plain_host_byte host = true.
Proof. unfold plain_host in Hhost. apply andb_true_iff in Hhost as [?%negb_true_iff%String.eqb_neq ?]. done. Qed.

Lemma port_bytes : str_forallb plain_host_byte port = true.
Proof. eapply str_forallb_impl; [|exact Hport]. by_bytes. Qed.

Lemma join_bytes (f : ascii → bool) : (∀ c, plain_host_byte c = true → f c = true) → f "["%char = true → f "]"%char = true →
  str_forallb f (join_host_port host port) = true.
Proof.
  intros Hf H1 H2. destruct plain_host_bytes as [_ Hb]. unfold join_host_port.
  assert (f ":"%char = true) as H3 by (by apply Hf).
  destruct (str_has ":" host); rewrite !str_forallb_app, (str_forallb_impl plain_host_byte f host),
    (str_forallb_impl plain_host_byte f port) by (done || apply port_bytes); cbn; by rewrite ?H1, ?H2, ?H3.
Qed.

Lemma port_no_colon : str_has ":" port = false.
Proof. by apply (str_has_forallb _ is_digit). Qed.

Lemma join_parses : parseHost (join_host_port host port) = Some (join_host_port host port).
Proof.
  assert (Hu : unescape encodeHost (join_host_port host port) = Some (join_host_port host port)).
  { assert (Hb : str_forallb (λ c, plain_host_byte c || one_of c "[]") (join_host_port host port) = true).
    { apply join_bytes; [by intros ? ->|done|done]. }
    assert (He : ∀ s, str_forallb (λ c, plain_host_byte c || one_of c "[]") s = true → escape encodeHost s = s).
    { induction s as [|c s IH]; [done|]. cbn [str_forallb]. intros [Hc Hs]%andb_true_iff.
      cbn [escape]. rewrite IH by done. revert c Hc. clear. by_bytes. }
    rewrite <- (He _ Hb) at 1. apply unescape_escape_host. apply join_bytes; [by_bytes|done|done]. }
  unfold parseHost. destruct plain_host_bytes as [Hne Hb].
  destruct (HasPrefix (join_host_port host port) "[") eqn:Hpre.
  - revert Hu Hpre. unfold join_host_port. destruct (str_has ":" host) eqn:Hc; intros Hu Hpre.
    + assert (E : "[" +:+ host +:+ "]:" +:+ port = ("[" +:+ host) +:+ String "]" (":" +:+ port)).
      { by rewrite app_assoc_str. }
      rewrite E in Hu |- *. rewrite cut_last_app; [|rewrite str_has_app; cbn [str_has]; apply orb_false_iff; split; [done|]; by apply (str_has_forallb _ is_digit)].
      cbn [mbind option_bind]. change (":" +:+ port) with (String ":" port). cbn [validOptionalPort].
      rewrite Hport. cbn [negb andb Ascii.eqb].
      assert (Cut ("[" +:+ host) "%25" = None) as ->; [|done].
      destruct (Cut ("[" +:+ host) "%25") as [[a b]|] eqn:E2; [|done]. exfalso. apply Cut_Some in E2.
      assert (str_has "%" ("[" +:+ host) = false) as Hno.
      { rewrite str_has_app. cbn. by apply (str_has_forallb _ plain_host_byte). }
      rewrite E2 in Hno. rewrite str_has_app in Hno. change ("%25" +:+ b) with (String "%" ("25" +:+ b)) in Hno.
      rewrite str_has_cons in Hno. cbn in Hno. by rewrite orb_true_r in Hno.
    + exfalso. destruct host as [|c h]; [done|]. cbn in Hb. apply andb_true_iff in Hb as [Hcb _].
      unfold HasPrefix in Hpre. change (String c h +:+ ?x) with (String c (h +:+ x)) in Hpre. cbn in Hpre.
      clear -Hcb Hpre. revert Hcb Hpre. by destruct c as [[] [] [] [] [] [] [] []].
  - revert Hu Hpre. unfold join_host_port. destruct (str_has ":" host) eqn:Hc; intros Hu Hpre.
    + exfalso. apply not_true_iff_false in Hpre. apply Hpre. apply HasPrefix_true. by eexists.
    + change (":" +:+ port) with (String ":" port) in Hu |- *. rewrite cut_last_app by apply port_no_colon.
      cbn [validOptionalPort]. rewrite Hport. done.
Qed.
Lemma join_nonempty : join_host_port host port ≠ "".
Proof. destruct plain_host_bytes as [Hne _]. unfold join_host_port. destruct (str_has ":" host); [done|]. by destruct host. Qed.

Lemma join_no_pct : str_has "%" (join_host_port host port) = false.
Proof.
  apply (str_has_forallb _ (λ c, plain_host_byte c || one_of c "[]")); [done|].
  apply join_bytes; [by intros ? ->|done|done].
Qed.

Lemma join_split : splitHostPort_lenient (join_host_port host port) = (host, port).
Proof.
  destruct plain_host_bytes as [Hne Hb]. unfold splitHostPort_lenient, join_host_port.
  destruct (str_has ":" host) eqn:Hc.
  - assert ("[" +:+ host +:+ "]:" +:+ port = ("[" +:+ host +:+ "]") +:+ String ":" port) as ->.
    { rewrite !app_assoc_str. done. }
    rewrite cut_last_app by apply port_no_colon. assert (validOptionalPort (String ":" port) = true) as -> by done. cbn iota zeta.
    assert (CutPrefix "[" ("[" +:+ host +:+ "]") = Some (host +:+ "]")) as -> by (by apply CutPrefix_Some).
    assert (HasSuffix ("[" +:+ host +:+ "]") "]" = true) as ->.
    { unfold HasSuffix. rewrite !srev_app. apply HasPrefix_true. by eexists. }
    rewrite length_app_str. change (String.length "]") with 1%nat. rewrite Nat.add_sub. by rewrite substring_prefix.
  - change (":" +:+ port) with (String ":" port). rewrite cut_last_app by apply port_no_colon.
    assert (validOptionalPort (String ":" port) = true) as -> by done. cbn iota zeta.
    assert (CutPrefix "[" host = None) as ->; [|done].
    destruct host as [|c h]; [done|]. cbn in Hb. apply andb_true_iff in Hb as [Hcb _]. cbn [CutPrefix].
    destruct (Ascii.eqb_spec "[" c) as [<-|]; [by vm_compute in Hcb|done].
Qed.

Lemma built_parts : link_parts u.
Proof.
  split; cbn [u built_link Scheme Opaque User Host Path RawPath RawQuery ForceQuery].
  - done.
  - done.
  - exists (authority (Some user) (join_host_port host port)). unfold parseAuthority, authority.
    rewrite app_assoc_str. change ("@" +:+ ?x) with (String "@" x). rewrite cut_last_app.
    + rewrite (parseHost_escape _ _ join_parses join_no_pct). cbn. by rewrite parseUser_String.
    + apply (str_has_forallb _ inner_byte); [done|]. apply escape_forallb, host_escapes.
  - by exists "".
  - split; [|done]. eapply str_forallb_impl; [|apply Encode_bytes]. by_bytes.
Qed.

Lemma Parse_built : ∃ v, Parse (URL_String u) = Some v ∧ Scheme v = scheme ∧ User v = Some user ∧
  Hostname v = host ∧ Port v = port ∧ Fragment v = name ∧ (∀ k, Get (Query v) k = Get q k).
Proof.
  pose proof built_parts as Hp. rewrite URL_String_link by (done || apply join_nonempty).
  destruct (parse_link_text u Hp join_no_pct) as (p & _ & _ & Hv).
  assert (Hhash : str_has "#" (link_text u) = false).
  { apply (str_has_forallb _ url_byte); [done|]. by apply link_text_bytes. }
  assert (Hcut : cut_fragment (link_text u +:+ (if String.eqb (Fragment u) "" then ""
      else "#" +:+ escaped encodeFragment (Fragment u) (RawFragment u))) =
    (link_text u, if String.eqb name "" then "" else escaped encodeFragment name "")).
  { unfold cut_fragment. change (Fragment u) with name. change (RawFragment u) with "".
    destruct (String.eqb name ""); [by rewrite app_nil_str, (proj2 (Cut_byte_None "#" _) Hhash)|].
    change ("#" +:+ ?x) with (String "#" x). by rewrite Cut_byte_app. }
  unfold Parse. rewrite Hcut. cbn [fst snd]. rewrite Hv. cbn [mbind option_bind].
  assert (∃ r, set_encoded encodeFragment (if String.eqb name "" then "" else escaped encodeFragment name "") = Some (name, r)) as [r ->].
  { unfold set_encoded. destruct (String.eqb_spec name "") as [->|]; [by eexists|].
    rewrite unescape_escaped by (by right). by eexists. }
  cbn [mbind option_bind]. eexists. split; [done|]. unfold Hostname, Port.
  cbn [Scheme User Host Fragment RawQuery with_fragment u built_link fst snd].
  rewrite join_split. split_and!; try done. intros k. unfold Query. cbn [RawQuery]. apply Get_Encode.
Qed.

(** A built link has neither white space nor bytes outside ASCII. *)
Lemma built_solid : str_forallb solid_byte (URL_String u) = true.
Proof.
  pose proof built_parts as Hp. rewrite URL_String_link by (done || apply join_nonempty).
  rewrite str_forallb_app. apply andb_true_iff. split.
  - unfold link_text, authority. cbn [u built_link Scheme User Host RawQuery ForceQuery].
    assert (EscapedPath u = "") as -> by done. rewrite !str_forallb_app.
    assert (str_forallb solid_byte scheme = true) as ->.
    { clear -Hscheme. destruct scheme as [|c s]; [done|]. cbn in *. apply andb_true_iff in Hscheme as [Hc Hs].
      rewrite (str_forallb_impl scheme_byte solid_byte s) by (done || by_bytes). rewrite andb_true_r.
      revert c Hc. by_bytes. }
    rewrite (Userinfo_bytes solid_byte), (escape_forallb solid_byte encodeHost);
      [|apply escapes_to_intro; [done|by_bytes|done|by_bytes]|apply escapes_to_intro; [done|by_bytes|done|by_bytes]|done].
    cbn [orb]. destruct (String.eqb _ ""); cbn [negb]; [done|]. rewrite str_forallb_app.
    by rewrite (str_forallb_impl encoded_byte solid_byte _ ltac:(by_bytes) (Encode_bytes q)).
  - destruct (String.eqb _ ""); [done|]. rewrite str_forallb_app. by rewrite escaped_fragment_solid.
Qed.

(** It is cut at its scheme, and has its user before any fragment. *)
Lemma built_cut : ∃ a b, Cut (URL_String u) "://" = Some (scheme, a +:+ b) ∧ str_has "#" a = false ∧
  str_has "@" a = true ∧ (b = "" ∨ ∃ f, b = String "#" f).
Proof.
  pose proof built_parts as Hp. pose proof (link_text_bytes u Hp) as Hb.
  rewrite URL_String_link by (done || apply join_nonempty).
  set (b := if String.eqb (Fragment u) "" then "" else _).
  set (a := authority (User u) (Host u) +:+ EscapedPath u +:+
    (if ForceQuery u || negb (String.eqb (RawQuery u) "") then "?" +:+ RawQuery u else "")).
  assert (El : link_text u = scheme +:+ "://" +:+ a) by done. exists a, b. split_and!.
  - rewrite El, !app_assoc_str. by apply Cut_scheme.
  - rewrite El, !str_forallb_app in Hb. apply andb_true_iff in Hb as [_ [_ Hb]%andb_true_iff].
    by apply (str_has_forallb _ url_byte).
  - unfold a, authority. cbn [u built_link User Host]. rewrite !str_has_app.
    change (str_has "@" "@") with true. by rewrite !orb_true_r.
  - unfold b. destruct (String.eqb (Fragment u) ""); [by left|right]. by eexists.
Qed.

(** With a name without slashes and separators it has no other slash than its
    scheme's, and no separator at its end. *)
Definition quiet_byte (c : ascii) : bool := negb (one_of c "/,;") && solid_byte c.

Lemma built_once : str_forallb (λ c, negb (one_of c "/,;")) name = true →
  ∃ x t, URL_String u = scheme +:+ "://" +:+ x +:+ t ∧ str_has "/" (x +:+ t) = false ∧ t ≠ "" ∧
    str_forallb quiet_byte t = true.
Proof.
  intros Hname. rewrite URL_String_link by (apply built_parts || apply join_nonempty).
  set (b := if String.eqb (Fragment u) "" then "" else _).
  exists (Userinfo_String user +:+ "@"), (escape encodeHost (join_host_port host port) +:+
    (if negb (String.eqb (Encode q) "") then "?" +:+ Encode q else "") +:+ b).
  assert (Hb : str_forallb quiet_byte b = true).
  { unfold b. destruct (String.eqb (Fragment u) ""); [done|]. rewrite str_forallb_app. apply andb_true_iff. split; [done|].
    cbn [u built_link Fragment RawFragment]. unfold escaped. cbn [String.eqb negb andb].
    rewrite (bool_decide_eq_false_2 (encodeFragment = encodePath)) by done. cbn [andb].
    clear -Hname. induction name as [|c s IH]; [done|]. cbn [str_forallb escape] in *. apply andb_true_iff in Hname as [Hc Hs].
    unfold escape_byte. rewrite (bool_decide_eq_false_2 (encodeFragment = encodeQueryComponent)) by done. cbn [andb].
    destruct (shouldEscape c encodeFragment) eqn:E; cbn [str_forallb]; rewrite IH by done.
    - rewrite !hex_ok; [done|by_bytes|apply N.mod_lt; lia|by_bytes|].
      apply N.Div0.div_lt_upper_bound. pose proof (byte_val_lt c). lia.
    - rewrite andb_true_r. revert c Hc E. by_bytes. }
  assert (Ht : str_forallb quiet_byte (escape encodeHost (join_host_port host port) +:+
    (if negb (String.eqb (Encode q) "") then "?" +:+ Encode q else "") +:+ b) = true).
  { rewrite !str_forallb_app, Hb, andb_true_r. apply andb_true_iff. split.
    - assert (He : str_forallb (λ c, plain_host_byte c || one_of c "[]") (join_host_port host port) = true).
      { apply join_bytes; [by intros ? ->|done|done]. }
      clear -He. induction (join_host_port host port) as [|c s IH]; [done|]. cbn [str_forallb escape] in *.
      apply andb_true_iff in He as [Hc Hs%IH]. clear IH. revert Hs. generalize (escape encodeHost s). intros t Ht.
      assert (escape_byte encodeHost c t = String c t) as ->.
      { clear Ht. revert c Hc. by_bytes. }
      cbn [str_forallb]. rewrite Ht, andb_true_r. clear Ht. revert c Hc. by_bytes.
    - destruct (String.eqb (Encode q) ""); [done|]. cbn [negb]. rewrite str_forallb_app. apply andb_true_iff. split; [done|].
      eapply str_forallb_impl; [|apply Encode_bytes]. by_bytes. }
  split_and!.
  - unfold link_text, authority. cbn [u built_link Scheme User Host RawQuery ForceQuery orb].
    assert (EscapedPath u = "") as -> by done. by rewrite !app_assoc_str.
  - rewrite !str_has_app. assert (str_has "/" (Userinfo_String user) = false) as ->.
    { apply (str_has_forallb _ inner_byte); [done|]. apply Userinfo_bytes; [apply inner_user_escapes|done]. }
    cbn [orb]. rewrite <- !str_has_app. by apply (str_has_forallb _ quiet_byte).
  - pose proof join_nonempty as Hne. destruct (join_host_port host port) as [|c h]; [done|]. cbn [escape]. unfold escape_byte.
    destruct (_ && _); [done|]. by destruct (shouldEscape _ _).
  - done.
Qed.
End built.
