(* ===== verification/NetState.v ===== *)
(** * NetState: passive observation of the host's network
    ([internal/types/types.go], [internal/netstate/*.go])

    Parsers of the [ifconfig], [route] and [netstat] output, the classification
    of tunnels, the choice of the physical interface, and the two detectors
    (command-backed and kernel-backed) that decide whether Cisco is connected.
    The theorems give the exact meaning of that verdict, that our own tunnel
    can never cause it, and that the two detectors agree. *)

From S2P Require Import GoNet.

Local Open Scope string_scope.
Local Open Scope list_scope.

Module NetState.

(** ** Data *)

Record TunnelIface := {
  tunName : string;
  HasIPv4 : bool;
  NoARP : bool;
  IsOurs : bool;
  OwnsDefault : bool
}.

Record NetState := {
  DefaultRouteIface : string;
  PhysicalIface : string;
  Tunnels : list TunnelIface;
  CiscoActive : bool;
  CiscoOwnsDefault : bool
}.

Record IfaceInfo := {
  ifName : string;
  ifUp : bool;
  ifPointToPoint : bool;
  ifNoARP : bool;
  ifIPv4 : list string
}.

Record RouteRow := { Gateway : string; rowIface : string; IsIPGateway : bool }.

Definition OurTunAddrPrefix : string := "198.18.0.".

(** ** Parsing [ifconfig] *)

(** The longest prefix of bytes that satisfy [f], and the rest. *)
Fixpoint span (f : ascii → bool) (s : string) : string * string :=
  match s with
  | "" => ("", "")
  | String c s' => if f c then let '(a, b) := span f s' in (String c a, b) else ("", s)
  end.

(** [^(\w+): flags=\w+<([^>]* )>]: the name and the comma-separated flags. *)
Definition ifaceHeaderRe (line : string) : option (string * string) :=
  let '(name, r1) := span is_word_byte line in
  if String.eqb name "" then None else
  r2 ← CutPrefix ": flags=" r1;
  let '(hex, r3) := span is_word_byte r2 in
  if String.eqb hex "" then None else
  r4 ← CutPrefix "<" r3;
  let '(flags, r5) := span (λ c, negb (Ascii.eqb c ">")) r4 in
  match r5 with "" => None | _ => Some (name, flags) end.

(** The white space a [\s] of a Go regular expression matches. *)
Definition re_space (c : ascii) : bool :=
  bool_decide (byte_val c ∈ [9; 10; 12; 13; 32]%N).

(** One to three digits at the head of [s], greedily, as long as [k] accepts
    what follows: the backtracking of [\d{1,3}]. *)
Definition digits_1_3 (s : string) (k : string → option string) : option string :=
  match s with
  | String a s1 =>
      if negb (is_digit a) then None else
      let one := String a <$> k s1 in
      match s1 with
      | String b s2 =>
          if negb (is_digit b) then one else
          let two := (λ r, String a (String b r)) <$> k s2 in
          match s2 with
          | String c s3 =>
              if is_digit c then
                match (λ r, String a (String b (String c r))) <$> k s3 with
                | Some r => Some r
                | None => match two with Some r => Some r | None => one end
                end
              else match two with Some r => Some r | None => one end
          | "" => match two with Some r => Some r | None => one end
          end
      | "" => one
      end
  | "" => None
  end.

(** [\b] after a digit: the next byte is not a word byte. *)
Definition word_boundary (s : string) : option string :=
  match s with
  | String c _ => if is_word_byte c then None else Some ""
  | "" => Some ""
  end.

Definition dot_then (k : string → option string) (s : string) : option string :=
  match s with String "." s' => String "." <$> k s' | _ => None end.

(** [\d{1,3}(?:\.\d{1,3}){3}\b]: the matched address. *)
Definition dotted_quad (s : string) : option string :=
  digits_1_3 s (dot_then (λ s, digits_1_3 s (dot_then (λ s, digits_1_3 s (dot_then
    (λ s, digits_1_3 s word_boundary)))))).

(** [^\s+inet (...)]: the address. *)
Definition inetRe (line : string) : option string :=
  let '(sp, rest) := span re_space line in
  if String.eqb sp "" then None else
  r ← CutPrefix "inet " rest; dotted_quad r.

Definition contains (ss : list string) (want : string) : bool := bool_decide (want ∈ ss).

(** One line of [ifconfig]: [ifaces] are the finished records, [cur] the
    current one. *)
Definition ifconfig_line (st : list IfaceInfo * option IfaceInfo) (line : string)
    : list IfaceInfo * option IfaceInfo :=
  let '(ifaces, cur) := st in
  match ifaceHeaderRe line with
  | Some (name, fl) =>
      let flags := split_byte "," fl in
      (ifaces ++ option_list cur,
       Some {| ifName := name; ifUp := contains flags "UP";
               ifPointToPoint := contains flags "POINTOPOINT";
               ifNoARP := contains flags "NOARP"; ifIPv4 := [] |})
  | None =>
      match cur, inetRe line with
      | Some c, Some ip =>
          (ifaces, Some {| ifName := ifName c; ifUp := ifUp c;
                           ifPointToPoint := ifPointToPoint c; ifNoARP := ifNoARP c;
                           ifIPv4 := ifIPv4 c ++ [ip] |})
      | _, _ => (ifaces, cur)
      end
  end.

Definition ParseIfconfig (out : string) : list IfaceInfo :=
  let '(lines, _) := scan_lines 1048576 out in
  let '(ifaces, cur) := foldl ifconfig_line ([], None) lines in
  ifaces ++ option_list cur.

(** ** Parsing the routing table *)

Fixpoint route_get_default (lines : list string) : string :=
  match lines with
  | [] => ""
  | l :: ls =>
      match CutPrefix "interface:" (TrimSpace l) with
      | Some rest => TrimSpace rest
      | None => route_get_default ls
      end
  end.

Definition ParseRouteGetDefault (out : string) : string :=
  route_get_default (fst (scan_lines MaxScanTokenSize out)).

Definition ParseNetstatDefaults (out : string) : list RouteRow :=
  omap (λ line,
    match Fields line with
    | f0 :: gw :: _ :: ifc :: _ =>
        if String.eqb f0 "default" then
          Some {| Gateway := gw; rowIface := ifc; IsIPGateway := bool_decide (is_Some (ParseIP gw)) |}
        else None
    | _ => None
    end) (fst (scan_lines MaxScanTokenSize out)).

(** The /1 halves seen per interface: bit 1 for 0/1, bit 2 for 128/1. *)
Abbreviation halves_map := (gmap string N).

Definition add_half (h : halves_map) (name : string) (bit : N) : halves_map :=
  <[name := N.lor (default 0%N (h !! name)) bit]> h.

(** The names of the interfaces with both halves, sorted; the first of them, or
    the fallback. *)
Definition splitDefaultInterface (halves : halves_map) (fallback : string) : string :=
  match sort_strings ((map_to_list (filter (λ kv, kv.2 = 3%N) halves)).*1) with
  | name :: _ => name
  | [] => fallback
  end.

(** The interface and the half an unscoped [netstat] row that is up stands for. *)
Definition line_half (line : string) : option (string * N) :=
  match Fields line with
  | f0 :: _ :: f2 :: f3 :: _ =>
      if Contains f2 "I" || negb (Contains f2 "U") then None
      else if bool_decide (f0 ∈ ["0/1"; "0.0.0.0/1"]) then Some (f3, 1%N)
      else if bool_decide (f0 ∈ ["128.0/1"; "128.0.0.0/1"]) then Some (f3, 2%N)
      else None
  | _ => None
  end.

Definition half_line (h : halves_map) (line : string) : halves_map :=
  match line_half line with Some (name, bit) => add_half h name bit | None => h end.

Definition netstatEffectiveDefault (out fallback : string) : string :=
  splitDefaultInterface (foldl half_line ∅ (fst (scan_lines MaxScanTokenSize out))) fallback.

(** ** Classification *)

Definition isTunnelName (name : string) : bool :=
  existsb (HasPrefix name) ["utun"; "ppp"; "ipsec"; "tun"].

Definition is_ours (ourAddrPrefix : string) (i : IfaceInfo) : bool :=
  existsb (λ ip, negb (String.eqb ourAddrPrefix "") && HasPrefix ip ourAddrPrefix) (ifIPv4 i).

Definition classify (defaultIface ourAddrPrefix : string) (i : IfaceInfo) : TunnelIface := {|
  tunName := ifName i;
  HasIPv4 := bool_decide (0 < length (ifIPv4 i));
  NoARP := ifNoARP i;
  IsOurs := is_ours ourAddrPrefix i;
  OwnsDefault := String.eqb (ifName i) defaultIface
|}.

Definition classifyTunnels (ifaces : list IfaceInfo) (defaultIface ourAddrPrefix : string)
    : list TunnelIface :=
  classify defaultIface ourAddrPrefix <$> filter (λ i, isTunnelName (ifName i) = true) ifaces.

Definition pickPhysical (rows : list RouteRow) : string :=
  match List.find (λ r, IsIPGateway r && negb (isTunnelName (rowIface r))) rows with
  | Some r => rowIface r
  | None => match List.find IsIPGateway rows with Some r => rowIface r | None => "" end
  end.

(** The loop over the tunnels of both detectors: (ciscoActive, ciscoOwnsDefault). *)
Definition verdict_step (v : bool * bool) (t : TunnelIface) : bool * bool :=
  if IsOurs t then v
  else (v.1 || (HasIPv4 t && (NoARP t || OwnsDefault t)), v.2 || OwnsDefault t).

Definition cisco_verdict (tunnels : list TunnelIface) : bool * bool :=
  foldl verdict_step (false, false) tunnels.

(** ** The command-backed detector *)

(** [Run] of a [CommandRunner]: the output of a read-only command and whether
    it failed.  The route command's failure is tolerated. *)
Record CommandRunner := {
  run_ifconfig : result string string;
  run_netstat : result string string;
  run_route : string (* what it printed, failed or not *)
}.

Definition Detector_Observe (run : CommandRunner) (ourAddrPrefix : string)
    : result string NetState :=
  let? ifOut := run_ifconfig run in
  let? nsOut := run_netstat run in
  let ifaces := ParseIfconfig ifOut in
  let defIface := netstatEffectiveDefault nsOut (ParseRouteGetDefault (run_route run)) in
  let defaults := ParseNetstatDefaults nsOut in
  let tunnels := classifyTunnels ifaces defIface ourAddrPrefix in
  let '(active, owns) := cisco_verdict tunnels in
  Ok {| DefaultRouteIface := defIface; PhysicalIface := pickPhysical defaults;
        Tunnels := tunnels; CiscoActive := active; CiscoOwnsDefault := owns |}.

(** ** The kernel-backed detector *)

Record kernelRoute := {
  kr_iface : string;
  defaultRoute : bool;
  gatewayIP : bool;
  scoped : bool;
  defaultHalf : N
}.

(** The loop over the routes: default interface, default rows, halves. *)
Definition kernel_route_step (st : string * list RouteRow * halves_map) (r : kernelRoute)
    : string * list RouteRow * halves_map :=
  let '(defIface, defaults, halves) := st in
  let halves := if scoped r then halves else add_half halves (kr_iface r) (defaultHalf r) in
  let defIface :=
    if defaultRoute r && negb (scoped r) && String.eqb defIface "" then kr_iface r else defIface in
  let defaults :=
    if defaultRoute r
    then defaults ++ [{| Gateway := ""; rowIface := kr_iface r; IsIPGateway := gatewayIP r |}]
    else defaults in
  (defIface, defaults, halves).

(** The interfaces of a map in the order of their sorted names. *)
Definition sorted_ifaces (ifaces : gmap string IfaceInfo) : list IfaceInfo :=
  omap (λ name, ifaces !! name) (sort_strings ((map_to_list ifaces).*1)).

Definition snapshot (ourAddrPrefix : string) (ifaces : gmap string IfaceInfo)
    (routes : list kernelRoute) : NetState :=
  let '(def0, defaults, halves) := foldl kernel_route_step ("", [], ∅) routes in
  let defIface := splitDefaultInterface halves def0 in
  let tunnels := classifyTunnels (sorted_ifaces ifaces) defIface ourAddrPrefix in
  let '(active, owns) := cisco_verdict tunnels in
  {| DefaultRouteIface := defIface; PhysicalIface := pickPhysical defaults;
     Tunnels := tunnels; CiscoActive := active; CiscoOwnsDefault := owns |}.

(** ** Facts about the verdict *)

Definition cisco_tunnel (t : TunnelIface) : bool :=
  negb (IsOurs t) && (HasIPv4 t && (NoARP t || OwnsDefault t)).
Definition foreign_default (t : TunnelIface) : bool := negb (IsOurs t) && OwnsDefault t.

Lemma cisco_verdict_existsb tunnels :
  cisco_verdict tunnels = (existsb cisco_tunnel tunnels, existsb foreign_default tunnels).
Proof.
  unfold cisco_verdict.
  assert (∀ v, foldl verdict_step v tunnels
    = (v.1 || existsb cisco_tunnel tunnels, v.2 || existsb foreign_default tunnels)) as H.
  { induction tunnels as [|t ts IH]; intros v; simpl; [by destruct v; rewrite !orb_false_r|].
    rewrite IH. unfold verdict_step, cisco_tunnel, foreign_default.
    destruct (IsOurs t); simpl; [done|]. by rewrite !orb_assoc. }
  by rewrite H.
Qed.

(** What makes an interface Cisco's, and what makes it own the default route. *)
Definition is_cisco (prefix def : string) (i : IfaceInfo) : Prop :=
  isTunnelName (ifName i) = true ∧ is_ours prefix i = false ∧
  ifIPv4 i ≠ [] ∧ (ifNoARP i = true ∨ ifName i = def).
Definition owns_default (prefix def : string) (i : IfaceInfo) : Prop :=
  isTunnelName (ifName i) = true ∧ is_ours prefix i = false ∧ ifName i = def.

Lemma existsb_classify (f : TunnelIface → bool) (P : IfaceInfo → Prop) ifaces def prefix :
  (∀ i, isTunnelName (ifName i) = true ∧ f (classify def prefix i) = true ↔ P i) →
  existsb f (classifyTunnels ifaces def prefix) = true ↔ ∃ i, i ∈ ifaces ∧ P i.
Proof.
  intros HP. unfold classifyTunnels. rewrite existsb_exists. split.
  - intros (t & Ht%list_elem_of_In & Hf). apply list_elem_of_fmap in Ht as (i & -> & Hi).
    apply list_elem_of_filter in Hi as [Hn Hi]. exists i. split; [done|]. by apply HP.
  - intros (i & Hi & [Hn Hf]%HP). exists (classify def prefix i).
    split; [|done]. apply list_elem_of_In, list_elem_of_fmap_2, list_elem_of_filter. done.
Qed.

Lemma cisco_tunnel_classify def prefix i :
  isTunnelName (ifName i) = true ∧ cisco_tunnel (classify def prefix i) = true ↔
  is_cisco prefix def i.
Proof.
  unfold is_cisco, cisco_tunnel; simpl.
  rewrite !andb_true_iff, negb_true_iff, orb_true_iff, bool_decide_eq_true, String.eqb_eq.
  destruct (ifIPv4 i); simpl; naive_solver lia.
Qed.

Lemma foreign_default_classify def prefix i :
  isTunnelName (ifName i) = true ∧ foreign_default (classify def prefix i) = true ↔
  owns_default prefix def i.
Proof.
  unfold owns_default, foreign_default; simpl.
  rewrite !andb_true_iff, negb_true_iff, String.eqb_eq. done.
Qed.

Lemma verdict_spec ifaces def prefix active owns :
  cisco_verdict (classifyTunnels ifaces def prefix) = (active, owns) →
  (active = true ↔ ∃ i, i ∈ ifaces ∧ is_cisco prefix def i) ∧
  (owns = true ↔ ∃ i, i ∈ ifaces ∧ owns_default prefix def i).
Proof.
  rewrite cisco_verdict_existsb. intros [= <- <-]. split;
    apply existsb_classify; intros i; [apply cisco_tunnel_classify | apply foreign_default_classify].
Qed.

(** The verdict of the command-backed detector: it fails exactly when
    [ifconfig] or [netstat] fails, and otherwise reports Cisco active exactly
    when some parsed tunnel that does not carry our address prefix has an IPv4
    address and either the NOARP flag or the effective default route, and a
    full tunnel exactly when such a foreign tunnel owns that route. *)
Theorem Detector_Observe_verdict run prefix :
  (is_ok (Detector_Observe run prefix) = is_ok (run_ifconfig run) && is_ok (run_netstat run)) ∧
  ∀ ns ifOut, run_ifconfig run = Ok ifOut → Detector_Observe run prefix = Ok ns →
    (CiscoActive ns = true ↔
       ∃ i, i ∈ ParseIfconfig ifOut ∧ is_cisco prefix (DefaultRouteIface ns) i) ∧
    (CiscoOwnsDefault ns = true ↔
       ∃ i, i ∈ ParseIfconfig ifOut ∧ owns_default prefix (DefaultRouteIface ns) i).
Proof.
  unfold Detector_Observe. destruct (run_ifconfig run) as [ifo|], (run_netstat run) as [nso|];
    simpl; (split; [by repeat case_match|]); try done.
  intros ns ifOut [= ->]. case_match eqn:Hv. intros [= <-]. simpl.
  by apply verdict_spec.
Qed.

Definition nw_ifconfig : string :=
  "utun4: flags=80d1<UP,POINTOPOINT,RUNNING,NOARP,MULTICAST> mtu 1390" +:+ nl +:+
  String TAB "inet 172.18.1.2 --> 172.18.1.2" +:+ nl.
Definition nw_runner : CommandRunner := {|
  run_ifconfig := Ok nw_ifconfig;
  run_netstat := Ok ("default 192.168.1.1 UGScg en0" +:+ nl);
  run_route := "interface: en0" |}.

Lemma Detector_Observe_verdict_witness :
  ∃ i, i ∈ ParseIfconfig nw_ifconfig ∧ is_cisco OurTunAddrPrefix "en0" i.
Proof.
  destruct (Detector_Observe_verdict nw_runner OurTunAddrPrefix) as [_ H].
  eapply (H _ nw_ifconfig eq_refl eq_refl). vm_compute. reflexivity.
Defined.

(** A machine on which every tunnel is ours is never taken for Cisco. *)
Lemma own_tunnels_never_cisco ifaces def prefix :
  (∀ i, i ∈ ifaces → isTunnelName (ifName i) = true → is_ours prefix i = true) →
  cisco_verdict (classifyTunnels ifaces def prefix) = (false, false).
Proof.
  intros Hours. destruct (cisco_verdict _) as [active owns] eqn:Hv.
  apply verdict_spec in Hv as [Ha Ho].
  f_equal; apply not_true_iff_false; [rewrite Ha|rewrite Ho];
    intros (i & Hi & Hn & Hf & _); specialize (Hours i Hi Hn); congruence.
Qed.

(** The verdict depends on the set of interfaces only. *)
Lemma verdict_permutation ifaces1 ifaces2 def prefix :
  (∀ i, i ∈ ifaces1 ↔ i ∈ ifaces2) →
  cisco_verdict (classifyTunnels ifaces1 def prefix) =
  cisco_verdict (classifyTunnels ifaces2 def prefix).
Proof.
  intros Heq.
  destruct (cisco_verdict (classifyTunnels ifaces1 _ _)) as [a1 o1] eqn:H1.
  destruct (cisco_verdict (classifyTunnels ifaces2 _ _)) as [a2 o2] eqn:H2.
  apply verdict_spec in H1 as [Ha1 Ho1], H2 as [Ha2 Ho2].
  f_equal; apply eq_true_iff_eq; [rewrite Ha1, Ha2|rewrite Ho1, Ho2];
    by setoid_rewrite Heq.
Qed.

(** ** Facts about the effective default route *)

(** The rows of a [netstat] output that stand for the half [bit] of [name]. *)
Definition half_row (out : string) (name : string) (bit : N) : Prop :=
  ∃ line, line ∈ fst (scan_lines MaxScanTokenSize out) ∧ line_half line = Some (name, bit).

Lemma line_half_bit line name bit : line_half line = Some (name, bit) → bit = 1%N ∨ bit = 2%N.
Proof.
  unfold line_half. intros H.
  repeat case_match; simplify_eq; auto.
Qed.

(** Only the two bits ever get into the map, each by its own rows. *)
Lemma foldl_half_lookup lines h name bit :
  (bit = 0 ∨ bit = 1)%N →
  N.testbit (default 0%N (foldl half_line h lines !! name)) bit = true ↔
  N.testbit (default 0%N (h !! name)) bit = true ∨
  ∃ line, line ∈ lines ∧ line_half line = Some (name, N.shiftl 1 bit).
Proof.
  intros Hbit. revert h. induction lines as [|l ls IH]; intros h; simpl.
  { split; [by left|]. by intros [?|(? & ?%elem_of_nil & _)]. }
  rewrite IH. unfold half_line. destruct (line_half l) as [[n b]|] eqn:Hl.
  2: { split; intros [H|(l' & Hin & H)]; [auto| right; exists l'; set_solver | auto |].
       apply elem_of_cons in Hin as [->|?]; [congruence|eauto]. }
  assert (N.testbit (default 0%N (add_half h n b !! name)) bit = true ↔
    N.testbit (default 0%N (h !! name)) bit = true ∨ (n = name ∧ b = N.shiftl 1 bit)) as ->.
  { unfold add_half. destruct (decide (n = name)) as [->|Hne].
    - rewrite lookup_insert_eq. simpl. rewrite N.lor_spec, orb_true_iff.
      destruct (line_half_bit _ _ _ Hl) as [-> | ->], Hbit as [-> | ->]; simpl; naive_solver.
    - rewrite lookup_insert_ne by done. naive_solver. }
  split.
  - intros [[H|[-> ->]]|(l' & Hin & H)]; [auto|right; exists l; set_solver|right; exists l'; set_solver].
  - intros [H|(l' & [->|Hin]%elem_of_cons & H)]; [auto|left; right; naive_solver|eauto].
Qed.

Lemma foldl_half_small lines h name :
  (default 0 (h !! name) < 4)%N → (default 0 (foldl half_line h lines !! name) < 4)%N.
Proof.
  revert h. induction lines as [|l ls IH]; intros h Hh; simpl; [done|].
  apply IH. unfold half_line. destruct (line_half l) as [[n b]|] eqn:Hl; [|done].
  unfold add_half. destruct (decide (n = name)) as [->|Hne].
  - rewrite lookup_insert_eq. simpl.
    assert (default 0 (h !! name) = 0 ∨ default 0 (h !! name) = 1 ∨
            default 0 (h !! name) = 2 ∨ default 0 (h !! name) = 3)%N as Hc by lia.
    destruct (line_half_bit _ _ _ Hl) as [-> | ->], Hc as [->|[->|[->| ->]]]; done.
  - by rewrite lookup_insert_ne.
Qed.

Lemma small_bits n :
  (n < 4)%N → n = 3%N ↔ N.testbit n 0 = true ∧ N.testbit n 1 = true.
Proof.
  intros Hn. assert (n = 0 ∨ n = 1 ∨ n = 2 ∨ n = 3)%N as [->|[->|[->| ->]]] by lia;
    vm_compute; naive_solver.
Qed.

Lemma foldl_half_both lines name :
  foldl half_line ∅ lines !! name = Some 3%N ↔
  (∃ l, l ∈ lines ∧ line_half l = Some (name, 1%N)) ∧
  (∃ l, l ∈ lines ∧ line_half l = Some (name, 2%N)).
Proof.
  assert (foldl half_line ∅ lines !! name = Some 3%N ↔
    default 0%N (foldl half_line ∅ lines !! name) = 3%N) as ->.
  { destruct (foldl half_line ∅ lines !! name); simpl; [split; congruence|done]. }
  rewrite small_bits by (apply foldl_half_small; rewrite lookup_empty; simpl; lia).
  rewrite !foldl_half_lookup, lookup_empty by auto. simpl.
  split; intros [H1 H2]; split; naive_solver.
Qed.

(** The effective default route: an interface replaces the fallback only if both
    unscoped halves, 0/1 and 128/1, are up on it, and among such interfaces
    the first in string order is taken; so the order of the rows, and that in
    which the map is ranged over, are irrelevant. *)
Theorem netstatEffectiveDefault_spec out fallback :
  let both name := half_row out name 1 ∧ half_row out name 2 in
  (both (netstatEffectiveDefault out fallback) ∧
   ∀ name, both name → String.le (netstatEffectiveDefault out fallback) name) ∨
  ((∀ name, ¬ both name) ∧ netstatEffectiveDefault out fallback = fallback).
Proof.
  intros both. unfold netstatEffectiveDefault, splitDefaultInterface.
  set (lines := fst (scan_lines MaxScanTokenSize out)).
  set (names := (map_to_list (filter (λ kv : string * N, kv.2 = 3%N) (foldl half_line ∅ lines))).*1).
  assert (∀ name, name ∈ names ↔ both name) as Hn.
  { intros name. unfold names, both, half_row. fold lines. rewrite <- (foldl_half_both lines name).
    rewrite list_elem_of_fmap. split.
    - intros ([k v] & -> & Hin). apply elem_of_map_to_list, map_lookup_filter_Some in Hin.
      simpl in *. naive_solver.
    - intros H. exists (name, 3%N). split; [done|].
      by apply elem_of_map_to_list, map_lookup_filter_Some. }
  destruct (sort_strings names) as [|x k] eqn:Hs.
  - right. rewrite sort_strings_nil in Hs. split; [|done].
    intros name. rewrite <- Hn, Hs. apply not_elem_of_nil.
  - left. apply sort_strings_head in Hs as [Hx Hle].
    split; [by apply Hn|]. intros name. rewrite <- Hn. apply Hle.
Qed.

(** ** Facts about the physical interface *)

Lemma find_Some_elem {A} (f : A → bool) (l : list A) x :
  List.find f l = Some x → x ∈ l ∧ f x = true.
Proof. intros [H1 H2]%find_some. by rewrite list_elem_of_In. Qed.

Lemma find_None_elem {A} (f : A → bool) (l : list A) :
  List.find f l = None → ∀ x, x ∈ l → f x = false.
Proof. intros H x Hx. by apply (find_none _ _ H), list_elem_of_In. Qed.

(** A physical interface is the interface of a default row with an IP gateway;
    it is a tunnel only when every such row goes through a tunnel. *)
Lemma pickPhysical_spec rows :
  (∃ r, r ∈ rows ∧ IsIPGateway r = true ∧ pickPhysical rows = rowIface r ∧
     (isTunnelName (rowIface r) = true →
      ∀ r', r' ∈ rows → IsIPGateway r' = true → isTunnelName (rowIface r') = true)) ∨
  ((∀ r, r ∈ rows → IsIPGateway r = false) ∧ pickPhysical rows = "").
Proof.
  unfold pickPhysical.
  destruct (List.find (λ r, IsIPGateway r && negb (isTunnelName (rowIface r))) rows) as [r|] eqn:H1.
  - apply find_Some_elem in H1 as [Hin Hf]. propify. left. exists r. repeat split; congruence.
  - pose proof (find_None_elem _ _ H1) as Hno. destruct (List.find IsIPGateway rows) as [r|] eqn:H2.
    + apply find_Some_elem in H2 as [Hin Hf]. left. exists r. repeat split; try done.
      intros _ r' Hin' Hgw. specialize (Hno r' Hin'). simpl in Hno.
      rewrite Hgw in Hno. by apply negb_false_iff in Hno.
    + right. split; [by apply find_None_elem|done].
Qed.

(** The interface reported as physical may be a tunnel: with a single default
    row, through a tunnel that has an IP gateway, the fallback of
    [pickPhysical] returns that tunnel. *)
Theorem pickPhysical_can_be_a_tunnel :
  ∃ out, let rows := ParseNetstatDefaults out in
  isTunnelName (pickPhysical rows) = true ∧ pickPhysical rows ≠ "".
Proof. exists ("default 10.8.0.1 UGScg utun4" +:+ nl). vm_compute. split; [reflexivity|discriminate]. Qed.

(** ** Agreement of the detectors *)

Lemma elem_of_sorted_ifaces (m : gmap string IfaceInfo) i :
  i ∈ sorted_ifaces m ↔ ∃ name, m !! name = Some i.
Proof.
  unfold sorted_ifaces. rewrite list_elem_of_omap. split.
  - intros (name & _ & H). eauto.
  - intros (name & H). exists name. split; [|done].
    apply elem_of_sort_strings, list_elem_of_fmap. exists (name, i).
    split; [done|]. by apply elem_of_map_to_list.
Qed.

(** The two detectors agree: if the kernel reports the interfaces that
    [ifconfig] prints and both find the same default route, then the
    kernel-backed snapshot and the command-backed observation give the same
    verdict on Cisco and on a full tunnel. *)
Theorem detectors_agree run prefix ifaces routes ns ifOut :
  run_ifconfig run = Ok ifOut →
  Detector_Observe run prefix = Ok ns →
  (∀ i, i ∈ ParseIfconfig ifOut ↔ ∃ name, ifaces !! name = Some i) →
  DefaultRouteIface (snapshot prefix ifaces routes) = DefaultRouteIface ns →
  CiscoActive (snapshot prefix ifaces routes) = CiscoActive ns ∧
  CiscoOwnsDefault (snapshot prefix ifaces routes) = CiscoOwnsDefault ns.
Proof.
  unfold Detector_Observe, snapshot. intros -> Hobs Hifs Hdef. simpl in Hobs.
  destruct (run_netstat run) as [nso|]; simpl in Hobs; [|done].
  destruct (foldl kernel_route_step _ routes) as [[d0 ds] hs].
  destruct (cisco_verdict (classifyTunnels (ParseIfconfig ifOut) _ _)) as [a1 o1] eqn:H1.
  destruct (cisco_verdict (classifyTunnels (sorted_ifaces ifaces) _ _)) as [a2 o2] eqn:H2.
  simplify_eq/=. rewrite Hdef in H2.
  rewrite (verdict_permutation _ (ParseIfconfig ifOut)) in H2; [rewrite H1 in H2; by simplify_eq|].
  intros i. rewrite elem_of_sorted_ifaces. by rewrite Hifs.
Qed.

Definition nw_iface : IfaceInfo := {|
  ifName := "utun4"; ifUp := true; ifPointToPoint := true; ifNoARP := true;
  ifIPv4 := ["172.18.1.2"] |}.
Definition nw_routes : list kernelRoute := [
  {| kr_iface := "en0"; defaultRoute := true; gatewayIP := true; scoped := false; defaultHalf := 0 |}].

Lemma detectors_agree_witness :
  CiscoActive (snapshot OurTunAddrPrefix {["utun4" := nw_iface]} nw_routes) = true.
Proof.
  destruct (Detector_Observe nw_runner OurTunAddrPrefix) as [ns|e] eqn:Hns; [|by vm_compute in Hns].
  assert (CiscoActive ns = true ∧ DefaultRouteIface ns = "en0") as [Ha Hd]
    by (vm_compute in Hns; by simplify_eq).
  transitivity (CiscoActive ns); [|exact Ha].
  apply (detectors_agree nw_runner OurTunAddrPrefix {["utun4" := nw_iface]} nw_routes ns nw_ifconfig
    eq_refl Hns).
  - assert (ParseIfconfig nw_ifconfig = [nw_iface]) as -> by (vm_compute; reflexivity).
    intros i. rewrite list_elem_of_singleton. setoid_rewrite lookup_singleton_Some. naive_solver.
  - rewrite Hd. vm_compute. reflexivity.
Defined.
End NetState.
