(* ===== verification/Kernel.v ===== *)
(** * Kernel: the tables of the Darwin kernel and the watcher of their changes
    ([internal/netstate/detector_kernel_darwin.go], [events_darwin.go])

    The production detector reads the interfaces and the routes from the
    kernel; beside it a routing socket tells the monitor when it is worth
    looking.  The socket's messages are filtered, and the filter must not drop
    what the detector would have seen ([dropped_events_are_invisible]).  The
    decoder of the kernel's messages, [route.ParseRIB], is third-party: what it
    gives is an argument.  The loop of the watcher is a step function on what
    the system answers. *)

From S2P Require Import Prelude GoNet NetState.
Import NetState.

Local Open Scope string_scope.
Local Open Scope list_scope.
Local Open Scope Z_scope.

Module Kernel.

(** ** The kernel's messages, as golang.org/x/net/route decodes them *)

Inductive Addr :=
  | Inet4Addr (ip : list Z)
  | LinkAddr (index : Z) (name : string)
  | OtherAddr.

(** A missing address is [None] in the list. *)
Record RouteMessage := {
  rmType : Z;
  rmFlags : Z;
  rmIndex : Z;
  rmErr : option Z;
  rmAddrs : list (option Addr)
}.
Record InterfaceMessage := { imFlags : Z; imIndex : Z; imName : string }.

Inductive Message :=
  | MRoute (m : RouteMessage)
  | MInterface (m : InterfaceMessage)
  | MMulticastAddr
  | MOther.

(** Constants of the package [syscall] on Darwin. *)
Definition RTM_ADD : Z := 1.
Definition RTM_DELETE : Z := 2.
Definition RTM_CHANGE : Z := 3.
Definition RTM_NEWADDR : Z := 12.
Definition RTM_DELADDR : Z := 13.
Definition RTM_IFINFO : Z := 14.
Definition RTM_IFINFO2 : Z := 18.
(** GET, LOSING, REDIRECT, MISS, RESOLVE, NEWMADDR, DELMADDR, NEWMADDR2, GET2 *)
Definition RTM_quiet : list Z := [4; 5; 6; 7; 11; 15; 16; 19; 20].
Definition RTF_UP : Z := 1.
Definition RTF_HOST : Z := 4.
Definition RTF_IFSCOPE : Z := 16777216.
Definition IFF_NOARP : Z := 128.

Definition has_flag (flags bit : Z) : bool := negb (Z.land flags bit =? 0).

(** ** The routes *)

(** [rm.Addrs\[i\]], [None] when it is missing or the list is too short. *)
Definition addr_at (i : nat) (m : RouteMessage) : option Addr := mjoin (rmAddrs m !! i).

Definition zero4 : list Z := [0; 0; 0; 0].
Definition half4 : list Z := [128; 0; 0; 0].

(** The netmask; [None] when it is there and no IPv4 address. *)
Definition mask_of (m : RouteMessage) : option (list Z) :=
  match addr_at 2 m with
  | None => Some zero4
  | Some (Inet4Addr ip) => Some ip
  | Some _ => None
  end.

Definition half_of (dst mask : list Z) : N :=
  if bool_decide (mask = half4)
  then if bool_decide (dst = zero4) then 1%N else if bool_decide (dst = half4) then 2%N else 0%N
  else 0%N.

(** The interface of a route: the link's own name, its index, the message's. *)
Definition route_name (names : gmap Z string) (m : RouteMessage) : string :=
  let name :=
    match addr_at 4 m with
    | Some (LinkAddr index name) =>
        if String.eqb name "" && negb (index =? 0) then default "" (names !! index) else name
    | _ => ""
    end in
  if String.eqb name "" then default "" (names !! rmIndex m) else name.

Definition parse_route (names : gmap Z string) (m : RouteMessage) : option kernelRoute :=
  if bool_decide (is_Some (rmErr m)) || has_flag (rmFlags m) RTF_HOST || negb (has_flag (rmFlags m) RTF_UP) then None else
  match addr_at 0 m with
  | Some (Inet4Addr dst) =>
      mask ← mask_of m;
      let isDefault := bool_decide (dst = zero4) && bool_decide (mask = zero4) in
      let half := half_of dst mask in
      if negb isDefault && (half =? 0)%N then None else
      let name := route_name names m in
      if String.eqb name "" then None else
      Some {| kr_iface := name; defaultRoute := isDefault;
              gatewayIP := (match addr_at 1 m with Some (Inet4Addr _) => true | _ => false end);
              scoped := has_flag (rmFlags m) RTF_IFSCOPE; defaultHalf := half |}
  | _ => None
  end.

Definition parseKernelRoutes (names : gmap Z string) (msgs : list Message) : list kernelRoute :=
  omap (λ msg, match msg with MRoute m => parse_route names m | _ => None end) msgs.

(** ** The interfaces *)

(** A [net.Interface] and what its [Addrs] answers. *)
Record Interface := {
  inIndex : Z;
  inName : string;
  inUp : bool;
  inPointToPoint : bool;
  inAddrs : result string (list string)
}.

Inductive KErr :=
  | Cancelled
  | ListInterfaces (e : string)
  | InterfaceAddresses (name e : string)
  | FetchInterfaceRIB (e : string)
  | AbsentFromRIB
  | FetchRouteRIB (e : string)
  | RouteNames (e : string).

(** The IPv4 address of a text in CIDR notation. *)
Definition cidr_ip4 (s : string) : option string :=
  _ ← ParseCIDR s; '(addr, _) ← Cut s "/"; ip ← ParseIP addr; ip4 ← To4 ip; Some (ip4_string ip4).

Definition iface_info (i : Interface) (addrs : list string) : IfaceInfo := {|
  ifName := inName i; ifUp := inUp i; ifPointToPoint := inPointToPoint i; ifNoARP := false;
  ifIPv4 := omap cidr_ip4 addrs |}.

Fixpoint list_interfaces (out : gmap string IfaceInfo) (ins : list Interface) : result KErr (gmap string IfaceInfo) :=
  match ins with
  | [] => Ok out
  | i :: ins =>
      match inAddrs i with
      | Err e => Err (InterfaceAddresses (inName i) e)
      | Ok addrs => list_interfaces (<[inName i := iface_info i addrs]> out) ins
      end
  end.

Definition index_names (ins : list Interface) : gmap Z string :=
  foldl (λ names i, <[inIndex i := inName i]> names) ∅ ins.

Definition set_NoARP (b : bool) (i : IfaceInfo) : IfaceInfo := {|
  ifName := ifName i; ifUp := ifUp i; ifPointToPoint := ifPointToPoint i; ifNoARP := b; ifIPv4 := ifIPv4 i |}.

(** One message of the interface table: the flags of an interface that is
    known, which is then seen. *)
Definition flags_step (names : gmap Z string) (st : gmap string IfaceInfo * gset string) (msg : Message)
    : gmap string IfaceInfo * gset string :=
  match msg with
  | MInterface m =>
      let name := if String.eqb (imName m) "" then default "" (names !! imIndex m) else imName m in
      match st.1 !! name with
      | Some info => (<[name := set_NoARP (has_flag (imFlags m) IFF_NOARP) info]> st.1, {[name]} ∪ st.2)
      | None => st
      end
  | _ => st
  end.

(** What the system answers: the context, [net.Interfaces] (asked twice), and
    the decoded tables. *)
Record Kernel := {
  k_cancelled : bool;
  k_interfaces : result string (list Interface);
  k_iface_rib : result string (list Message);
  k_route_rib : result string (list Message);
  k_interfaces2 : result string (list Interface)
}.

Definition wrap {A} (f : string → KErr) (r : result string A) : result KErr A :=
  match r with Ok a => Ok a | Err e => Err (f e) end.

Definition kernelInterfaces (k : Kernel) : result KErr (gmap string IfaceInfo) :=
  let? ins := wrap ListInterfaces (k_interfaces k) in
  let? out := list_interfaces ∅ ins in
  let? msgs := wrap FetchInterfaceRIB (k_iface_rib k) in
  let '(out, seen) := foldl (flags_step (index_names ins)) (out, ∅) msgs in
  if existsb (λ kv, isTunnelName kv.1 && negb (bool_decide (kv.1 ∈ seen))) (map_to_list out)
  then Err AbsentFromRIB else Ok out.

Definition kernelRoutes (k : Kernel) : result KErr (list kernelRoute) :=
  let? msgs := wrap FetchRouteRIB (k_route_rib k) in
  let? ins := wrap RouteNames (k_interfaces2 k) in
  Ok (parseKernelRoutes (index_names ins) msgs).

Definition Observe (ourAddrPrefix : string) (k : Kernel) : result KErr NetState :=
  if k_cancelled k then Err Cancelled else
  let? ifaces := kernelInterfaces k in
  let? routes := kernelRoutes k in
  Ok (snapshot ourAddrPrefix ifaces routes).

(** ** The filter of the watcher *)

Definition network_change (t : Z) : bool := existsb (Z.eqb t) [RTM_ADD; RTM_DELETE; RTM_CHANGE].
Definition interface_change (t : Z) : bool := existsb (Z.eqb t) [RTM_IFINFO; RTM_IFINFO2; RTM_NEWADDR; RTM_DELADDR].

Definition message_relevant (msg : Message) : bool :=
  match msg with
  | MRoute m =>
      if bool_decide (is_Some (rmErr m)) then false
      else if network_change (rmType m) then negb (has_flag (rmFlags m) RTF_HOST)
      else interface_change (rmType m)
  | MMulticastAddr => false
  | _ => true
  end.
Definition routeMessagesRelevant (msgs : list Message) : bool := existsb message_relevant msgs.

Definition byte_at (i : nat) (s : string) : Z :=
  match String.get i s with Some c => Z.of_N (byte_val c) | None => 0 end.

Definition known_type (t : Z) : bool := network_change t || interface_change t || existsb (Z.eqb t) RTM_quiet.

(** The walk over the frames; [false] when one is cut or of an unknown type.
    Sizes are little-endian, as on every Mac; a frame has four bytes at least,
    so the length of the text is enough fuel. *)
Fixpoint frames_known (fuel : nat) (rest : string) : bool :=
  match rest with
  | "" => true
  | _ =>
      if (String.length rest <? 4)%nat then false else
      let size := Z.to_nat (byte_at 0 rest + 256 * byte_at 1 rest) in
      if (size <? 4)%nat || (String.length rest <? size)%nat then false else
      if known_type (byte_at 3 rest)
      then match fuel with O => false | S fuel => frames_known fuel (String.substring size (String.length rest - size) rest) end
      else false
  end.

Section filter.
Context (ParseRIB : string → option (list Message)).

Definition routeEventRelevant (data : string) : bool :=
  if (String.length data <? 4)%nat then true
  else if negb (frames_known (String.length data) data) then true
  else match ParseRIB data with None => true | Some msgs => routeMessagesRelevant msgs end.

(** ** The watcher's loop *)

Inductive Errno := EINTR | EAGAIN | EOTHER.

(** What one turn of the loop meets: the context at the top and after the wait,
    and the outcome of waiting and reading; or the timer of the backoff and
    what [open] answers, with the context after it; or the monitor taking the
    signal from the channel. *)
Inductive Happening :=
  | Turn (cancelled woken_cancelled : bool) (got : result Errno string)
  | Timer (opened : option Z) (cancelled : bool)
  | CancelledAsleep
  | Taken.

Inductive phase := Reading (fd : Z) | Asleep | Returned.
#[export] Instance phase_eq_dec : EqDecision phase.
Proof. solve_decision. Defined.

Record Watch := {
  ph : phase;
  backoff : Z;                (* nanoseconds *)
  signal : bool;              (* the channel of capacity one is full *)
  wOpened : list Z;           (* every descriptor there was, in order *)
  wClosed : list Z            (* every close, in order *)
}.

Definition backoff_min : Z := 10 * 10 ^ 6.
Definition backoff_max : Z := 10 ^ 9.

Definition start (fd : Z) : Watch := {|
  ph := Reading fd; backoff := backoff_min; signal := false; wOpened := [fd]; wClosed := [] |}.

Definition close_and (p : phase) (fd : Z) (w : Watch) : Watch := {|
  ph := p; backoff := backoff w; signal := signal w; wOpened := wOpened w; wClosed := wClosed w ++ [fd] |}.
Definition set_signal (b : bool) (w : Watch) : Watch := {|
  ph := ph w; backoff := backoff w; signal := b; wOpened := wOpened w; wClosed := wClosed w |}.

Definition read_turn (fd : Z) (got : result Errno string) (w : Watch) : Watch :=
  match got with
  | Err EINTR | Err EAGAIN => w
  | Ok data =>
      if String.eqb data "" then close_and Asleep fd w
      else if routeEventRelevant data then set_signal true w else w
  | Err EOTHER => close_and Asleep fd w
  end.

Definition reopened (fd : Z) (cancelled : bool) (w : Watch) : Watch :=
  let w' := {| ph := Reading fd; backoff := backoff w; signal := signal w;
               wOpened := wOpened w ++ [fd]; wClosed := wClosed w |} in
  if cancelled then close_and Returned fd w'
  else {| ph := ph w'; backoff := backoff_min; signal := signal w'; wOpened := wOpened w'; wClosed := wClosed w' |}.

Definition slower (w : Watch) : Watch := {|
  ph := ph w; backoff := Z.min backoff_max (2 * backoff w); signal := signal w;
  wOpened := wOpened w; wClosed := wClosed w |}.

Definition watchRouteLoop (w : Watch) (h : Happening) : Watch :=
  match ph w, h with
  | _, Taken => set_signal false w
  | Reading fd, Turn cancelled woken got =>
      if cancelled || woken then close_and Returned fd w else read_turn fd got w
  | Asleep, Timer (Some fd) cancelled => reopened fd cancelled w
  | Asleep, Timer None _ => slower w
  | Asleep, CancelledAsleep => {| ph := Returned; backoff := backoff w; signal := signal w;
                                  wOpened := wOpened w; wClosed := wClosed w |}
  | _, _ => w
  end.
End filter.

(** ** Opening the socket and starting the watcher *)

(** [openRouteSocket]: the descriptor of [socket], and whether the two settings
    fail; the descriptors closed on the way. *)
Definition openRouteSocket (socket : option Z) (nonblock_fails buffer_fails : bool) : option Z * list Z :=
  match socket with
  | None => (None, [])
  | Some fd => if nonblock_fails || buffer_fails then (None, [fd]) else (Some fd, [])
  end.

(** [WatchRouteChanges]: the route socket, the two ends of the pipe, the queue. *)
Definition WatchRouteChanges (sock : option Z) (pipe : option (Z * Z)) (queue : option Z) : option (Z * Z * Z * Z) * list Z :=
  match sock with
  | None => (None, [])
  | Some fd =>
      match pipe with
      | None => (None, [fd])
      | Some (wake, cancelWake) =>
          match queue with
          | None => (None, [fd; wake; cancelWake])
          | Some q => (Some (fd, wake, cancelWake, q), [])
          end
      end
  end.

(** ** The kernel, its socket and the monitor

    What route(4) says of the messages: a route that is added, removed or
    changed is announced by a message of that type with the route's flags and
    no error; a change of an interface or of its addresses by an interface or
    address message; and there are messages that come with no change of the
    tables (questions, misses, failed attempts, multicast groups). *)
Section world.
Context (ParseRIB : string → option (list Message)).

Definition with_routes (rows : list Message) (k : Kernel) : Kernel := {|
  k_cancelled := k_cancelled k; k_interfaces := k_interfaces k; k_iface_rib := k_iface_rib k;
  k_route_rib := Ok rows; k_interfaces2 := k_interfaces2 k |}.

(** [m] announces [row] under type [t]. *)
Definition about_route (t : Z) (row m : RouteMessage) : Prop := rmType m = t ∧ rmFlags m = rmFlags row ∧ rmErr m = None.

Inductive change : Kernel → Kernel → Message → Prop :=
  | Added k pre post row m : k_route_rib k = Ok (pre ++ post) → about_route RTM_ADD row m →
      change k (with_routes (pre ++ MRoute row :: post) k) (MRoute m)
  | Removed k pre post row m : k_route_rib k = Ok (pre ++ MRoute row :: post) → about_route RTM_DELETE row m →
      change k (with_routes (pre ++ post) k) (MRoute m)
  | Changed k pre post row row' m : k_route_rib k = Ok (pre ++ MRoute row :: post) →
      has_flag (rmFlags row) RTF_HOST = has_flag (rmFlags row') RTF_HOST → about_route RTM_CHANGE row' m →
      change k (with_routes (pre ++ MRoute row' :: post) k) (MRoute m)
  | Interfaces k k' msg : k_cancelled k' = k_cancelled k → k_route_rib k' = k_route_rib k →
      ((∃ m, msg = MInterface m) ∨ msg = MOther ∨
       ∃ m, msg = MRoute m ∧ rmType m ∈ [RTM_IFINFO; RTM_IFINFO2; RTM_NEWADDR; RTM_DELADDR] ∧ rmErr m = None) → change k k' msg
  | Nothing k msg : change k k msg.

Inductive trace : Kernel → list Message → Kernel → Prop :=
  | trace_nil k : trace k [] k
  | trace_cons k k1 k2 msg msgs : change k k1 msg → trace k1 msgs k2 → trace k (msg :: msgs) k2.

(** The tables; the messages that wait in the socket's buffer; whether one was
    lost since the monitor's last look; the watcher; whether the monitor has
    taken a signal and not looked yet; what it looked at last. *)
Record World := { tables : Kernel; buffer : list Message; lost : bool; watch : Watch; owed : bool; seen : Kernel }.

(** A frame with types the decoder knows decodes, if it does, to the messages
    it is made of. *)
Definition describes (data : string) (msgs : list Message) : Prop :=
  frames_known (String.length data) data = true → ∀ ms, ParseRIB data = Some ms → ms = msgs.

(** The read of a turn brings messages. *)
Definition brings (h : Happening) : option string :=
  match h with Turn false false (Ok data) => if String.eqb data "" then None else Some data | _ => None end.

Definition reading (w : Watch) : bool := match ph w with Reading _ => true | _ => false end.

(** A change is announced to a socket that is read, unless its buffer is full;
    a read takes messages from its front; a turn that closes the socket throws
    away what waits in it; the monitor takes the signal; it looks, because of
    a signal or because its interval is over. *)
Inductive world_step : World → World → Prop :=
  | KernelChanges s k' msg (heard : bool) : change (tables s) k' msg → (heard = true → reading (watch s) = true) →
      world_step s {| tables := k'; buffer := if heard then buffer s ++ [msg] else buffer s; lost := lost s || negb heard;
                      watch := watch s; owed := owed s; seen := seen s |}
  | SocketRead s n h data : reading (watch s) = true → brings h = Some data → describes data (take n (buffer s)) →
      world_step s {| tables := tables s; buffer := drop n (buffer s); lost := lost s;
                      watch := watchRouteLoop ParseRIB (watch s) h; owed := owed s; seen := seen s |}
  | LoopTurns s h : brings h = None → h ≠ Taken →
      let w' := watchRouteLoop ParseRIB (watch s) h in
      let kept := bool_decide (ph w' = ph (watch s)) in
      world_step s {| tables := tables s; buffer := if kept then buffer s else [];
                      lost := lost s || negb (kept || bool_decide (buffer s = []));
                      watch := w'; owed := owed s; seen := seen s |}
  | MonitorTakes s : signal (watch s) = true →
      world_step s {| tables := tables s; buffer := buffer s; lost := lost s;
                      watch := watchRouteLoop ParseRIB (watch s) Taken; owed := true; seen := seen s |}
  | MonitorLooks s :
      world_step s {| tables := tables s; buffer := buffer s; lost := false; watch := watch s; owed := false; seen := tables s |}.

(** [WatchRouteChanges] over a socket that was opened, before a first look. *)
Definition watching (fd : Z) (k : Kernel) : World := {|
  tables := k; buffer := []; lost := false; watch := start fd; owed := false; seen := k |}.

Definition network_row (msg : Message) : bool :=
  match msg with MRoute m => negb (has_flag (rmFlags m) RTF_HOST) | _ => false end.
Definition networks (k : Kernel) : result string (list Message) :=
  match k_route_rib k with Ok msgs => Ok (List.filter network_row msgs) | Err e => Err e end.
Definition interfaces (k : Kernel) :=
  (k_cancelled k, k_interfaces k, k_iface_rib k, k_interfaces2 k).

Lemma parse_route_network names msgs :
  parseKernelRoutes names msgs = parseKernelRoutes names (List.filter network_row msgs).
Proof.
  induction msgs as [|msg msgs IH]; [done|]. unfold parseKernelRoutes in *. cbn [omap list_omap List.filter].
  destruct msg as [m| | |]; cbn [network_row]; try done.
  destruct (has_flag (rmFlags m) RTF_HOST) eqn:Hh; cbn [negb omap list_omap].
  - unfold parse_route at 1. by rewrite Hh, orb_true_r.
  - by rewrite IH.
Qed.

Lemma Observe_tables prefix k k' : networks k' = networks k → interfaces k' = interfaces k → Observe prefix k' = Observe prefix k.
Proof.
  unfold networks, interfaces. intros Hn [= Hc Hi Hr Hj].
  unfold Observe, kernelInterfaces, kernelRoutes. rewrite Hc, Hi, Hr, Hj.
  destruct (k_route_rib k'), (k_route_rib k); simplify_eq/=; [|done].
  destruct (k_interfaces2 k); cbn [wrap rbind]; [|done].
  by rewrite (parse_route_network _ a), (parse_route_network _ a0), Hn.
Qed.

(** A change the filter would not pass on leaves what the detector sees. *)
Lemma change_invisible prefix k k' msg : change k k' msg → message_relevant msg = false → Observe prefix k' = Observe prefix k.
Proof.
  intros Hc Hr. inversion Hc as [? pre post row m Hk (Ht & Hf & He)|? pre post row m Hk (Ht & Hf & He)|? pre post row row' m Hk Hh (Ht & Hf & He)
    |? ? ? _ _ Hm|]; subst; [..|done].
  4: { destruct Hm as [[m ->]|[->|(m & -> & Ht & He)]]; [discriminate Hr..|]. cbn in Hr. rewrite He in Hr. cbn in Hr.
       rewrite !elem_of_cons in Ht. destruct Ht as [Ht|[Ht|[Ht|[Ht|[]%not_elem_of_nil]]]]; rewrite Ht in Hr; discriminate Hr. }
  all: cbn in Hr; rewrite Ht, He, Hf in Hr; cbn in Hr; apply negb_false_iff in Hr; apply Observe_tables; [|done];
    unfold networks; cbn [with_routes k_route_rib]; rewrite Hk; f_equal; rewrite !List.filter_app; cbn [List.filter network_row];
    rewrite ?Hh, Hr; done.
Qed.

Lemma trace_snoc k msgs k1 k2 msg : trace k msgs k1 → change k1 k2 msg → trace k (msgs ++ [msg]) k2.
Proof. induction 1 as [|k k1 k2' msg' msgs Hc _ IH]; intros Hm; cbn; econstructor; eauto using trace_nil. Qed.

Lemma trace_app k a b k2 : trace k (a ++ b) k2 → ∃ k1, trace k a k1 ∧ trace k1 b k2.
Proof.
  revert k. induction a as [|msg a IH]; intros k Ht; [exists k; split; [constructor|done]|]. inversion Ht as [|? k1 ? ? ? Hc Ht']; subst.
  destruct (IH _ Ht') as (k' & Ha & Hb). exists k'. split; [by econstructor|done].
Qed.

Lemma trace_invisible prefix k msgs k' : trace k msgs k' → routeMessagesRelevant msgs = false → Observe prefix k' = Observe prefix k.
Proof.
  induction 1 as [|k k1 k2 msg msgs Hc _ IH]; [done|]. unfold routeMessagesRelevant. cbn [existsb].
  intros [Hm Hms]%orb_false_iff. rewrite (IH Hms). by eapply change_invisible.
Qed.

(** The filter fails open. *)
Lemma routeEventRelevant_false data : routeEventRelevant ParseRIB data = false ↔
  (4 <= String.length data)%nat ∧ frames_known (String.length data) data = true ∧
  ∃ msgs, ParseRIB data = Some msgs ∧ routeMessagesRelevant msgs = false.
Proof.
  unfold routeEventRelevant. destruct (Nat.ltb_spec (String.length data) 4); [split; [done|lia]|].
  destruct (frames_known _ data); cbn [negb]; [|naive_solver].
  destruct (ParseRIB data) as [msgs|]; [|naive_solver]. split; [intros Hm; eauto|naive_solver].
Qed.

Abbreviation step := (watchRouteLoop ParseRIB).

Lemma signal_stays h w : h ≠ Taken → signal w = true → signal (step w h) = true.
Proof. intros Hh Hs. unfold watchRouteLoop, read_turn, reopened, slower. repeat case_match; simplify_eq/=; done. Qed.
Lemma signal_stays_all hs w : Taken ∉ hs → signal w = true → signal (foldl step w hs) = true.
Proof.
  revert w. induction hs as [|h hs IH]; intros w Ht Hs; [done|]. apply not_elem_of_cons in Ht as [Hh Ht].
  apply IH; [done|]. by apply signal_stays.
Qed.

(** Only a read that is relevant sets the signal. *)
Lemma quiet_turn h w : brings h = None → h ≠ Taken → signal (step w h) = signal w.
Proof.
  intros Hb Ht. unfold watchRouteLoop, read_turn, reopened, slower. destruct (ph w) as [fd| |], h as [[] [] [[|c data]|[]]|[] []| |]; done.
Qed.

Lemma read_turn_signal h data w : reading w = true → brings h = Some data →
  signal (step w h) = signal w || routeEventRelevant ParseRIB data.
Proof.
  unfold reading. destruct h as [[] [] [d|[]]| | |]; try done. cbn. destruct (String.eqb d "") eqn:Hd; [done|]. intros Hr [= <-].
  unfold watchRouteLoop, read_turn. destruct (ph w); [|done..]. cbn [orb]. rewrite Hd.
  destruct (routeEventRelevant ParseRIB d); cbn; by rewrite ?orb_true_r, ?orb_false_r.
Qed.

(** What waits are messages from before the last look, then those of the
    changes since from a state that looks the same. *)
Definition accounted (prefix : string) (s : World) : Prop :=
  signal (watch s) = false → owed s = false → lost s = false →
  ∃ old new k0, buffer s = old ++ new ∧ Observe prefix k0 = Observe prefix (seen s) ∧ trace k0 new (tables s).

Lemma read_accounted prefix s n h data : reading (watch s) = true → brings h = Some data → describes data (take n (buffer s)) →
  accounted prefix s →
  accounted prefix {| tables := tables s; buffer := drop n (buffer s); lost := lost s; watch := step (watch s) h; owed := owed s; seen := seen s |}.
Proof.
  intros Hr Hb Hd Hi Hs Ho Hl. cbn [tables buffer lost watch owed seen] in *. rewrite (read_turn_signal _ _ _ Hr Hb) in Hs.
  apply orb_false_iff in Hs as [Hs (_ & Hk & msgs & Hp & Hm)%routeEventRelevant_false]. rewrite (Hd Hk _ Hp) in Hm.
  destruct (Hi Hs Ho Hl) as (old & new & k0 & Hbuf & Hk0 & Ht). rewrite Hbuf in *.
  destruct (decide (n <= length old)%nat) as [Hn|Hn].
  - exists (drop n old), new, k0. by rewrite drop_app_le.
  - rewrite <- (take_drop (n - length old) new) in Ht. apply trace_app in Ht as (k1 & Ha & Hb1).
    exists [], (drop (n - length old) new), k1. rewrite drop_app_ge by lia. split; [done|]. split; [|done].
    rewrite <- Hk0. eapply trace_invisible; [exact Ha|]. unfold routeMessagesRelevant in *.
    rewrite take_app_ge in Hm by lia. rewrite existsb_app in Hm. by apply orb_false_iff in Hm as [_ Hm].
Qed.

Lemma step_accounted prefix s s' : world_step s s' → accounted prefix s → accounted prefix s'.
Proof.
  intros Hst Hi. destruct Hst as [s k' msg heard Hc _|s n h data Hr Hb Hd|s h Hb Ht w' kept|s Hsig|s].
  - intros Hs Ho Hl. cbn in *. apply orb_false_iff in Hl as [Hl Hh%negb_false_iff]. rewrite Hh.
    destruct (Hi Hs Ho Hl) as (old & new & k0 & Hbuf & Hk0 & Htr). exists old, (new ++ [msg]), k0.
    rewrite Hbuf, app_assoc. split; [done|]. split; [done|]. by eapply trace_snoc.
  - by eapply read_accounted.
  - intros Hs Ho Hl. cbn [tables buffer lost watch owed seen] in *. unfold w' in Hs. rewrite quiet_turn in Hs by done.
    apply orb_false_iff in Hl as [Hl Hk%negb_false_iff]. destruct (Hi Hs Ho Hl) as (old & new & k0 & Hbuf & Hk0 & Htr).
    clearbody kept. destruct kept; [by exists old, new, k0|]. cbn [orb] in Hk. apply bool_decide_eq_true in Hk. rewrite Hk in Hbuf.
    symmetry in Hbuf. apply app_eq_nil in Hbuf as [_ ->]. by exists [], [], k0.
  - intros _ Ho. done.
  - intros _ _ _. exists (buffer s), [], (tables s). rewrite app_nil_r. split; [done|]. split; [done|]. constructor.
Qed.

(** C31: A change the watcher dropped is one the detector does not see.  For every
    interleaving of changes of the kernel's tables with their messages, reads,
    errors, closes and reopens of the routing socket, signals taken and looks
    of the monitor: whenever the socket's messages are read, none was lost
    since the monitor's last look (to a full buffer, a closed socket or a
    close), no signal waits and none was taken without a look, the detector
    would observe exactly what it would have observed at that look.  A change
    while the socket is closed is lost and brings no signal when it is opened
    again ([reopening_is_silent]); the monitor's interval covers it. *)
Theorem dropped_events_are_invisible prefix fd k s :
  rtc world_step (watching fd k) s →
  buffer s = [] → lost s = false → signal (watch s) = false → owed s = false →
  Observe prefix (tables s) = Observe prefix (seen s).
Proof.
  intros Hrun Hb Hl Hs Ho. assert (accounted prefix (watching fd k)) as H0.
  { intros _ _ _. exists [], [], k. split; [done|]. split; [done|]. constructor. }
  assert (accounted prefix s) as Hi by (clear -Hrun H0; induction Hrun; eauto using step_accounted).
  destruct (Hi Hs Ho Hl) as (old & new & k0 & Hbuf & Hk0 & Ht). rewrite Hb in Hbuf. symmetry in Hbuf. apply app_eq_nil in Hbuf as [_ ->].
  inversion Ht; subst. done.
Qed.

(** A watcher that opens its socket again leaves the signal as it was, whatever
    changed in between. *)
Lemma reopening_is_silent w fd : ph w = Asleep → signal (step w (Timer (Some fd) false)) = signal w.
Proof. unfold watchRouteLoop. by intros ->. Qed.

(** ** The loop keeps its descriptors *)

Definition current (w : Watch) : list Z := match ph w with Reading fd => [fd] | _ => [] end.
Definition books (w : Watch) : Prop :=
  wOpened w = wClosed w ++ current w ∧ backoff_min <= backoff w <= backoff_max.

Lemma step_books h w : books w → books (step w h).
Proof.
  intros [Ho Hb]. unfold books, current in *. unfold watchRouteLoop, read_turn, reopened, slower, backoff_min, backoff_max in *.
  destruct w as [p b s o c]. cbn [ph backoff wOpened wClosed] in *.
  destruct p as [fd| |], h as [ca wo [data|[]]|[fd'|] ca| |]; try destruct ca; try destruct wo; cbn [orb];
    repeat case_match; simplify_eq; unfold close_and, set_signal in *; cbn [ph backoff wOpened wClosed] in *;
    simplify_eq; rewrite ?app_nil_r, ?app_assoc; split; try done; lia.
Qed.

Lemma returned_stays hs v (opened : list Z) : ph v = Returned → wOpened v = opened → wClosed v = opened →
  ph (foldl step v hs) = Returned ∧ wOpened (foldl step v hs) = opened ∧ wClosed (foldl step v hs) = opened.
Proof.
  revert v. induction hs as [|h hs IH]; intros v Hv Ho Hc; [done|].
  apply IH; unfold watchRouteLoop; rewrite Hv; by destruct h.
Qed.

(** The watcher keeps its books.  After any happenings, in any order, the
    descriptors it has opened are those it has closed, each once and in that
    order, and the one it reads; the backoff is between ten milliseconds and a
    second; a relevant read leaves a signal until the monitor takes it; and a
    cancelled watcher holds no descriptor and opens none again. *)
Theorem watcher_keeps_its_books fd hs :
  let w := foldl step (start fd) hs in
  wOpened w = wClosed w ++ current w ∧ (10 * 10 ^ 6 <= backoff w <= 10 ^ 9) ∧
  (∀ fd' data hs', ph w = Reading fd' → data ≠ "" → routeEventRelevant ParseRIB data = true → Taken ∉ hs' →
     signal (foldl step (step w (Turn false false (Ok data))) hs') = true) ∧
  (∀ woken got hs', ph w ≠ Asleep →
     let w' := foldl step (step w (Turn true woken got)) hs' in ph w' = Returned ∧ wOpened w' = wOpened w ∧ wClosed w' = wOpened w).
Proof.
  intros w. assert (books w) as [Ho Hb].
  { unfold w. assert (books (start fd)) as H0 by (split; [done|by vm_compute]).
    revert H0. generalize (start fd) as w0. clear w. induction hs as [|h hs IH]; intros w0 H0; [done|].
    apply IH. by apply step_books. }
  split; [done|]. split; [done|]. split.
  - intros fd' data hs' Hp Hd Hr Ht. apply signal_stays_all; [done|].
    rewrite (read_turn_signal _ data); [by rewrite Hr, orb_true_r|by unfold reading; rewrite Hp|].
    cbn. by rewrite (proj2 (String.eqb_neq data "")).
  - intros woken got hs' Hp w'.
    unfold current in Ho. apply returned_stays; unfold watchRouteLoop; destruct (ph w) as [fd'| |] eqn:Hw; try done; cbn; rewrite Ho, ?app_nil_r; by rewrite ?Hw.
Qed.

(** Without a signal that is taken the loop slows down to once a second. *)
Lemma backoff_doubles w n : ph w = Asleep → backoff w = backoff_min →
  backoff (foldl step w (replicate n (Timer None false))) = Z.min backoff_max (backoff_min * 2 ^ Z.of_nat n).
Proof.
  intros Hp Hb. assert (∀ m v, ph v = Asleep → backoff v = Z.min backoff_max (backoff_min * 2 ^ Z.of_nat m) →
    backoff (foldl step v (replicate n (Timer None false))) = Z.min backoff_max (backoff_min * 2 ^ Z.of_nat (m + n))) as H.
  { clear. induction n as [|n IH]; intros m v Hp Hb; [by rewrite Nat.add_0_r|]. cbn [replicate foldl].
    rewrite <- Nat.add_succ_comm. apply IH; unfold watchRouteLoop; rewrite Hp; [done|].
    unfold slower. cbn [backoff]. rewrite Hb, Nat2Z.inj_succ, Z.pow_succ_r by lia. unfold backoff_max, backoff_min. lia. }
  rewrite (H 0%nat w Hp); [done|]. by rewrite Hb.
Qed.
End world.

(** What fails on the way to the watcher is closed again. *)
Lemma openRouteSocket_keeps socket a b : match openRouteSocket socket a b with
  | (Some fd, cl) => socket = Some fd ∧ cl = []
  | (None, cl) => cl = option_list socket
  end.
Proof. unfold openRouteSocket. by destruct socket, a, b. Qed.
Lemma WatchRouteChanges_keeps sock pipe queue : match WatchRouteChanges sock pipe queue with
  | (Some _, cl) => cl = []
  | (None, cl) => cl = match sock with None => [] | Some fd => fd :: match pipe with None => [] | Some (a, b) => [a; b] end end
  end.
Proof. unfold WatchRouteChanges. by destruct sock, pipe as [[]|], queue. Qed.

(** ** The verdict of the production detector *)

(** The flags the interface table reports last for a name. *)
Definition flags_of (names : gmap Z string) (name : string) (msg : Message) : option Z :=
  match msg with
  | MInterface m =>
      if String.eqb (if String.eqb (imName m) "" then default "" (names !! imIndex m) else imName m) name
      then Some (imFlags m) else None
  | _ => None
  end.
Definition rib_flags (names : gmap Z string) (name : string) (msgs : list Message) : option Z := last (omap (flags_of names name) msgs).

Lemma set_NoARP_twice a b i : set_NoARP a (set_NoARP b i) = set_NoARP a i.
Proof. done. Qed.

Lemma flags_step_lookup names st msg name :
  (flags_step names st msg).1 !! name =
    match flags_of names name msg with
    | Some f => set_NoARP (has_flag f IFF_NOARP) <$> st.1 !! name
    | None => st.1 !! name
    end ∧
  (name ∈ (flags_step names st msg).2 ↔ name ∈ st.2 ∨ is_Some (flags_of names name msg) ∧ is_Some (st.1 !! name)).
Proof.
  destruct st as [out seen], msg as [|m| |]; cbn [flags_step flags_of fst snd]; try (split; [done|naive_solver]).
  set (n := if String.eqb (imName m) "" then _ else _). destruct (String.eqb_spec n name) as [->|Hne].
  - destruct (out !! name) as [i|] eqn:Hl; cbn [fst snd].
    + rewrite lookup_insert_eq. split; [done|]. set_solver.
    + rewrite Hl. split; [done|]. naive_solver.
  - destruct (out !! n) as [i|]; cbn [fst snd]; rewrite ?lookup_insert_ne by done; (split; [done|]); set_solver.
Qed.

Lemma flags_foldl names msgs st name :
  (foldl (flags_step names) st msgs).1 !! name =
    match rib_flags names name msgs with
    | Some f => set_NoARP (has_flag f IFF_NOARP) <$> st.1 !! name
    | None => st.1 !! name
    end ∧
  (name ∈ (foldl (flags_step names) st msgs).2 ↔ name ∈ st.2 ∨ is_Some (rib_flags names name msgs) ∧ is_Some (st.1 !! name)).
Proof.
  unfold rib_flags. revert st. induction msgs as [|msg msgs IH] using rev_ind; intros st; [cbn; naive_solver|].
  rewrite foldl_snoc, omap_app. cbn [omap list_omap].
  destruct (flags_step_lookup names (foldl (flags_step names) st msgs) msg name) as [-> ->].
  destruct (IH st) as [-> ->]. destruct (flags_of names name msg) as [f|].
  - rewrite last_snoc. destruct (last (omap (flags_of names name) msgs)), (st.1 !! name); cbn; naive_solver.
  - rewrite app_nil_r. split; [done|]. naive_solver.
Qed.

(** The interface that is listed last under a name. *)
Lemma list_interfaces_named ins out m : list_interfaces out ins = Ok m →
  (∀ name i, out !! name = Some i → ifName i = name) → ∀ name i, m !! name = Some i → ifName i = name.
Proof.
  revert out. induction ins as [|i ins IH]; intros out; cbn; [by intros [= ->]|].
  destruct (inAddrs i) as [addrs|]; [|done]. intros Hl Ho. apply (IH _ Hl). intros name j.
  rewrite lookup_insert_Some. intros [[<- <-]|[_ Hj]]; [done|auto].
Qed.

Lemma kernelInterfaces_spec k m : kernelInterfaces k = Ok m →
  ∃ ins out msgs, k_interfaces k = Ok ins ∧ list_interfaces ∅ ins = Ok out ∧ k_iface_rib k = Ok msgs ∧
  ∀ name, m !! name = match rib_flags (index_names ins) name msgs with
                      | Some f => set_NoARP (has_flag f IFF_NOARP) <$> out !! name
                      | None => out !! name end ∧
          (isTunnelName name = true → is_Some (m !! name) → is_Some (rib_flags (index_names ins) name msgs)).
Proof.
  unfold kernelInterfaces. destruct (k_interfaces k) as [ins|]; cbn; [|done].
  destruct (list_interfaces ∅ ins) as [out|] eqn:Ho; cbn; [|done].
  destruct (k_iface_rib k) as [msgs|]; cbn; [|done].
  destruct (foldl _ (out, ∅) msgs) as [out' seen] eqn:Hf. destruct (existsb _ _) eqn:He; [done|]. intros [= ->].
  exists ins, out, msgs. split_and!; try done. intros name.
  destruct (flags_foldl (index_names ins) msgs (out, ∅) name) as [Hm Hs]. rewrite Hf in Hm, Hs. cbn in Hm, Hs.
  split; [done|]. intros Ht [i Hi].
  rewrite existsb_false_Forall, Forall_forall in He. specialize (He (name, i)). cbn in He.
  rewrite Ht in He. cbn in He. rewrite negb_false_iff, bool_decide_eq_true in He.
  destruct Hs as [Hs _]. destruct Hs as [Hs|[Hs _]]; [|set_solver|done]. apply He. by apply elem_of_map_to_list.
Qed.


(** ** A concrete Mac *)
Module Mac.

Definition cisco : Interface := {| inIndex := 9; inName := "utun4"; inUp := true; inPointToPoint := true; inAddrs := Ok ["10.1.1.1/32"; "fe80::1/64"] |}.
Definition ethernet : Interface := {| inIndex := 4; inName := "en0"; inUp := true; inPointToPoint := false; inAddrs := Ok ["192.168.1.7/24"] |}.
Definition default_route : Message := MRoute {|
  rmType := 20; rmFlags := 2051; rmIndex := 4; rmErr := None; rmAddrs := [Some (Inet4Addr zero4); Some (Inet4Addr [192; 168; 1; 1])] |}.
Definition host_route : RouteMessage := {|
  rmType := RTM_ADD; rmFlags := 5; rmIndex := 4; rmErr := None; rmAddrs := [Some (Inet4Addr [192; 168; 1; 9])] |}.

Definition before : Kernel := {|
  k_cancelled := false; k_interfaces := Ok [ethernet; cisco]; k_interfaces2 := Ok [ethernet; cisco];
  k_iface_rib := Ok [MInterface {| imFlags := 34915; imIndex := 4; imName := "en0" |}; MInterface {| imFlags := 32977; imIndex := 9; imName := "" |}];
  k_route_rib := Ok [default_route] |}.
(** A neighbour has become known. *)
Definition after_ : Kernel := {|
  k_cancelled := false; k_interfaces := k_interfaces before; k_interfaces2 := k_interfaces2 before;
  k_iface_rib := k_iface_rib before; k_route_rib := Ok [MRoute host_route; default_route] |}.

Definition frame (type : nat) : string :=
  String (ascii_of_nat 4) (String (ascii_of_nat 0) (String (ascii_of_nat 5) (String (ascii_of_nat type) ""))).
Definition decode (data : string) : option (list Message) :=
  if String.eqb data (frame 1) then Some [MRoute host_route] else None.

Example host_routes_are_dropped : routeEventRelevant decode (frame 1) = false.
Proof. reflexivity. Qed.
Example unknown_types_wake : routeEventRelevant decode (frame 99) = true.
Proof. reflexivity. Qed.
Example cut_frames_wake : routeEventRelevant decode (frame 1 +:+ "x") = true.
Proof. reflexivity. Qed.

Definition quiet_read : Happening := Turn false false (Ok (frame 1)).

Lemma dropped_events_are_invisible_witness :
  let s := {| tables := after_; buffer := []; lost := false; watch := watchRouteLoop decode (start 3) quiet_read; owed := false; seen := before |} in
  rtc (world_step decode) (watching 3 before) s ∧ Observe OurTunAddrPrefix after_ = Observe OurTunAddrPrefix before.
Proof.
  intros s. assert (rtc (world_step decode) (watching 3 before) s) as Hrun.
  { eapply rtc_l; [|apply rtc_once].
    - apply (KernelChanges decode (watching 3 before) after_ (MRoute host_route) true); [|done].
      apply (Added before [] [default_route] host_route host_route); [reflexivity|by split].
    - apply (SocketRead decode {| tables := after_; buffer := [MRoute host_route]; lost := false; watch := start 3; owed := false; seen := before |}
        1 quiet_read (frame 1)); [reflexivity|reflexivity|]. intros _ ms. vm_compute. by intros [= <-]. }
  split; [exact Hrun|]. by apply (dropped_events_are_invisible decode OurTunAddrPrefix 3 before s Hrun).
Defined.

Definition owner (r : result KErr NetState) : option string := match r with Ok ns => Some (DefaultRouteIface ns) | Err _ => None end.
Definition listed (r : result KErr (gmap string IfaceInfo)) (name : string) : option IfaceInfo := match r with Ok m => m !! name | Err _ => None end.


End Mac.

End Kernel.
