(* ===== verification/Monitor.v ===== *)
(** * Monitor: debouncing and the observation loop ([internal/monitor])

    [Debouncer]: a flip of the Cisco state is committed only after [threshold]
    identical observations.  [poll]: one observation through the debouncer and
    the policy.  [Run]: the loop, a step relation over time in nanoseconds,
    whose steps are a tick, an event of the source, the confirmation timer and
    the closing of either channel. *)

From S2P Require Import Prelude Policy NetState.
Import Policy.

Local Open Scope Z_scope.

(** ** The debouncer ([debounce.go]) *)

Module Debounce.

Record Debouncer := {
  threshold : Z;
  committed : CiscoState;
  pending : CiscoState;
  count : Z
}.

Definition NewDebouncer (threshold : Z) : Debouncer := {|
  threshold := if threshold <? 1 then 1 else threshold;
  committed := CiscoUnknown; pending := CiscoUnknown; count := 0 |}.

(** The debouncer after one raw observation, and whether the committed state
    just changed. *)
Definition Observe (d : Debouncer) (raw : CiscoState) : Debouncer * bool :=
  if bool_decide (committed d = CiscoUnknown) then
    ({| threshold := threshold d; committed := raw; pending := raw; count := 0 |}, false)
  else if bool_decide (raw = committed d) then
    ({| threshold := threshold d; committed := committed d; pending := raw; count := 0 |}, false)
  else
    let d1 := if bool_decide (raw = pending d)
      then {| threshold := threshold d; committed := committed d; pending := pending d;
              count := count d + 1 |}
      else {| threshold := threshold d; committed := committed d; pending := raw; count := 1 |} in
    if threshold d1 <=? count d1
    then ({| threshold := threshold d1; committed := raw; pending := pending d1; count := 0 |}, true)
    else (d1, false).

Definition Pending (d : Debouncer) : bool :=
  negb (bool_decide (committed d = CiscoUnknown)) &&
  negb (bool_decide (pending d = committed d)).

Definition observe_all (d : Debouncer) (obs : list CiscoState) : Debouncer :=
  foldl (λ d raw, fst (Observe d raw)) d obs.

(** The last [n] elements of [obs] are all [s]. *)
Definition ends_with (n : nat) (s : CiscoState) (obs : list CiscoState) : Prop :=
  ∃ before, obs = before ++ replicate n s.

(** The invariant: once a state is committed, the pending observations are the
    last [count] ones, all different from it and fewer than the threshold. *)
Definition inv (obs : list CiscoState) (d : Debouncer) : Prop :=
  1 <= threshold d ∧ 0 <= count d ∧
  (committed d ≠ CiscoUnknown →
     (pending d = committed d → count d = 0) ∧
     (pending d ≠ committed d → 0 < count d < threshold d ∧
        ends_with (Z.to_nat (count d)) (pending d) obs)).

Lemma ends_with_snoc n s obs : ends_with n s obs → ends_with (S n) s (obs ++ [s]).
Proof.
  intros [b ->]. exists b. rewrite <- app_assoc. f_equal.
  by rewrite <- replicate_cons_app.
Qed.

Lemma ends_with_one s obs : ends_with 1 s (obs ++ [s]).
Proof. by exists obs. Qed.

Lemma inv_init t : inv [] (NewDebouncer t).
Proof.
  unfold inv, NewDebouncer; simpl. repeat split; try done.
  destruct (t <? 1) eqn:?; propify; lia.
Qed.

Lemma Observe_inv obs d raw : inv obs d → inv (obs ++ [raw]) (fst (Observe d raw)).
Proof.
  intros (Ht & Hc & Hk). unfold Observe.
  case_bool_decide as Hun; simpl.
  { unfold inv; simpl. by repeat split. }
  destruct (Hk Hun) as [Hp0 Hp1].
  case_bool_decide as Heq; simpl.
  { unfold inv; simpl. repeat split; try done; try lia; intros; exfalso; congruence. }
  case_bool_decide as Hpe; simpl; (case_match eqn:Hth; propify; simpl; unfold inv; simpl).
  - repeat split; try lia; intros; congruence.
  - assert (pending d ≠ committed d) as Hne by congruence.
    destruct (Hp1 Hne) as [Hb He].
    split; [done|]. split; [lia|]. intros _. split; [done|].
    intros _. split; [lia|]. rewrite Z2Nat.inj_add, Nat.add_comm by lia.
    subst raw. by apply ends_with_snoc.
  - repeat split; try lia; intros; congruence.
  - split; [done|]. split; [lia|]. intros _. split; [congruence|].
    intros _. split; [lia|]. by apply ends_with_one.
Qed.

Lemma observe_all_inv obs d obs0 : inv obs0 d → inv (obs0 ++ obs) (observe_all d obs).
Proof.
  revert d obs0. induction obs as [|raw obs IH]; intros d obs0 Hinv; simpl.
  { by rewrite app_nil_r. }
  rewrite (cons_middle raw obs0 obs), app_assoc. apply IH. by apply Observe_inv.
Qed.

Lemma observe_threshold d obs : threshold (observe_all d obs) = threshold d.
Proof.
  revert d. induction obs as [|raw obs IH]; intros d; simpl; [done|].
  rewrite IH. unfold Observe. repeat case_match; done.
Qed.

(** What one observation of a state [s] does to a debouncer in use. *)
Lemma Observe_step d s :
  1 <= threshold d → s ≠ CiscoUnknown → committed d ≠ CiscoUnknown →
  let d' := fst (Observe d s) in
  committed d' = s ∨
  (committed d' = committed d ∧ committed d ≠ s ∧ pending d' = s ∧ count d' < threshold d ∧
   count d' = if bool_decide (s = pending d) then count d + 1 else 1).
Proof.
  intros Ht Hs Hk. unfold Observe. rewrite bool_decide_eq_false_2 by done.
  case_bool_decide as H1; simpl; [by left|].
  case_bool_decide as H2; simpl; case_match eqn:H3; propify; simpl; auto 10.
Qed.

(** [n] observations of [s] in a row either commit [s] or are all counted. *)
Lemma observe_run d s n :
  1 <= threshold d → 0 <= count d → s ≠ CiscoUnknown → committed d ≠ CiscoUnknown →
  (0 < n)%nat →
  let d' := observe_all d (replicate n s) in
  committed d' = s ∨
  (committed d' ≠ CiscoUnknown ∧ pending d' = s ∧ Z.of_nat n <= count d' < threshold d).
Proof.
  intros Ht Hc Hs Hk Hn. simpl. induction n as [|n IH]; [lia|].
  rewrite replicate_S_end. unfold observe_all. rewrite foldl_app.
  change (foldl _ d (replicate n s)) with (observe_all d (replicate n s)). simpl.
  pose proof (observe_threshold d (replicate n s)) as Hth.
  assert (committed (observe_all d (replicate n s)) ≠ CiscoUnknown) as Hk'.
  { destruct n as [|n]; [done|]. destruct IH as [IH|(IH & _)]; [lia|congruence|done]. }
  destruct (Observe_step (observe_all d (replicate n s)) s) as [H|(H1 & H2 & H3 & H4 & H5)];
    [by rewrite Hth|done..|by left|right].
  rewrite Hth in H4. rewrite H1. repeat split; try done. rewrite H5.
  destruct n as [|n]; [case_bool_decide; simpl in *; lia|].
  destruct IH as [IH|(IH1 & IH2 & IH3)]; [lia|done|].
  rewrite bool_decide_eq_true_2 by done. lia.
Qed.

Lemma ends_with_le n m s obs : (n ≤ m)%nat → ends_with m s obs → ends_with n s obs.
Proof.
  intros Hle [b ->]. exists (b ++ replicate (m - n) s).
  rewrite <- app_assoc, <- replicate_add. by replace (m - n + n)%nat with m by lia.
Qed.

Lemma Observe_changed obs d raw d' :
  inv obs d → Observe d raw = (d', true) →
  committed d' = raw ∧ committed d ≠ CiscoUnknown ∧ committed d ≠ raw ∧
  ends_with (Z.to_nat (threshold d)) raw (obs ++ [raw]).
Proof.
  intros (Ht & Hc & Hk). unfold Observe.
  case_bool_decide as H1; [done|]. destruct (Hk H1) as [_ Hp].
  case_bool_decide as H2; [done|].
  case_bool_decide as H3; simpl; case_match eqn:H4; intros [= <-]; propify; simpl;
    repeat split; try done; auto.
  - destruct Hp as [Hb He]; [congruence|]. subst raw.
    eapply ends_with_le, ends_with_snoc, He. lia.
  - eapply ends_with_le, ends_with_one. lia.
Qed.

Lemma observe_all_known d obs :
  Forall (.≠ CiscoUnknown) obs → (obs ≠ [] ∨ committed d ≠ CiscoUnknown) →
  committed (observe_all d obs) ≠ CiscoUnknown.
Proof.
  revert d. induction obs as [|raw obs IH]; intros d Hall Hne; simpl; [naive_solver|].
  apply Forall_cons in Hall as [Hr Hall]. apply IH; [done|]. right.
  unfold Observe. repeat case_match; simpl; propify; congruence.
Qed.

(** Debouncing, in both directions, for observations that are never Unknown: a
    change is reported only when the observations so far end with [threshold]
    identical ones of a state other than the committed one, which it commits,
    and never on the first observation; and [threshold] observations of a
    state in a row, after at least one observation, always leave it
    committed. *)
Theorem debounce_exact (t : Z) (obs : list CiscoState) (s : CiscoState) :
  Forall (.≠ CiscoUnknown) obs → s ≠ CiscoUnknown →
  let thr := Z.max 1 t in
  (∀ d', Observe (observe_all (NewDebouncer t) obs) s = (d', true) →
     obs ≠ [] ∧ committed d' = s ∧ committed (observe_all (NewDebouncer t) obs) ≠ s ∧
     ends_with (Z.to_nat thr) s (obs ++ [s])) ∧
  (obs ≠ [] →
     committed (observe_all (NewDebouncer t) (obs ++ replicate (Z.to_nat thr) s)) = s).
Proof.
  intros Hall Hs thr.
  assert (threshold (observe_all (NewDebouncer t) obs) = thr) as Hthr.
  { rewrite observe_threshold. unfold thr; simpl. destruct (t <? 1) eqn:?; propify; lia. }
  pose proof (observe_all_inv obs _ _ (inv_init t)) as Hinv. simpl in Hinv. split.
  - intros d' Hd'. destruct (Observe_changed _ _ _ _ Hinv Hd') as (H1 & H2 & H3 & H4).
    rewrite Hthr in H4. repeat split; try done. by intros ->.
  - intros Hne. destruct Hinv as (Hi1 & Hi2 & _).
    unfold observe_all. rewrite foldl_app.
    change (foldl _ (NewDebouncer t) obs) with (observe_all (NewDebouncer t) obs).
    destruct (observe_run (observe_all (NewDebouncer t) obs) s (Z.to_nat thr))
      as [H|(_ & _ & H)]; try done.
    + apply observe_all_known; auto.
    + lia.
    + lia.
Qed.

Lemma debounce_exact_witness :
  committed (observe_all (NewDebouncer 2)
    ([CiscoInactive; CiscoActive; CiscoInactive] ++ replicate 2 CiscoActive)) = CiscoActive.
Proof.
  apply (debounce_exact 2 [CiscoInactive; CiscoActive; CiscoInactive] CiscoActive);
    [by repeat constructor|done|done].
Defined.

End Debounce.

(** ** The monitor ([monitor.go]) *)

Module Monitor.
Import Debounce.

(** What the policy is asked to act on. *)
Record Event := { evNetState : NetState.NetState; evDecision : DecisionResult }.

(** The state the monitor keeps; the detector, [modeFn], [boundFn], [onPoll] and
    the channel are its environment. *)
Record Monitor := {
  observationFailed : bool;
  deb : Debouncer;
  prevCisco : CiscoState;
  prevPhys : string;
  havePhys : bool
}.

Definition New (threshold : Z) : Monitor := {|
  observationFailed := false; deb := NewDebouncer threshold;
  prevCisco := CiscoUnknown; prevPhys := ""; havePhys := false |}.

(** What one poll does besides changing the state: the call of [onPoll], the
    event offered to the channel, and the value it returns. *)
Record PollOut := {
  polled : option NetState.NetState;
  emitted : option Event;
  again : bool
}.

(** [poll]: [obs] is the answer of the detector ([None] for an error), [mode]
    that of [modeFn], [bound] that of [boundFn] ([false] when it is nil). *)
Definition poll (m : Monitor) (obs : option NetState.NetState) (mode : Mode) (bound : bool)
    : Monitor * PollOut :=
  match obs with
  | None =>
      ({| observationFailed := true; deb := deb m; prevCisco := prevCisco m;
          prevPhys := prevPhys m; havePhys := havePhys m |},
       {| polled := None; emitted := None; again := false |})
  | Some ns =>
      let raw := if NetState.CiscoActive ns then CiscoActive else CiscoInactive in
      let deb' := fst (Observe (deb m) raw) in
      let hasPhys := negb (bool_decide (NetState.PhysicalIface ns = ""%string)) in
      let physChanged := hasPhys && havePhys m &&
        negb (bool_decide (NetState.PhysicalIface ns = prevPhys m)) in
      let res := Decide {|
        inMode := mode; PrevCisco := prevCisco m; NewCisco := committed deb';
        Intent := IntentNone; PhysIfaceChanged := physChanged;
        ProxyBoundPhys := bound; CiscoOwnsDefault := NetState.CiscoOwnsDefault ns |} in
      ({| observationFailed := observationFailed m; deb := deb';
          prevCisco := committed deb';
          prevPhys := if hasPhys then NetState.PhysicalIface ns else prevPhys m;
          havePhys := hasPhys || havePhys m |},
       {| polled := Some ns;
          emitted := if actionable res then Some {| evNetState := ns; evDecision := res |} else None;
          again := Pending deb' |})
  end.

(** Successive polls in a constant mode. *)
Definition poll_all (mode : Mode) (bound : bool) (m : Monitor)
    (obs : list (option NetState.NetState)) : Monitor :=
  foldl (λ m o, fst (poll m o mode bound)) m obs.

Definition raw_of (ns : NetState.NetState) : CiscoState :=
  if NetState.CiscoActive ns then CiscoActive else CiscoInactive.

(** A failed observation leaves the debouncer alone, a successful one feeds it. *)
Lemma poll_deb m o mode bound :
  deb (fst (poll m o mode bound)) =
  match o with None => deb m | Some ns => fst (Observe (deb m) (raw_of ns)) end.
Proof. by destruct o. Qed.

Lemma poll_all_deb mode bound m obs :
  deb (poll_all mode bound m obs) = observe_all (deb m) (raw_of <$> omap id obs).
Proof.
  revert m. induction obs as [|o obs IH]; intros m; simpl; [done|].
  rewrite IH, poll_deb. by destruct o.
Qed.

(** In VPN mode a successful poll fails closed exactly when Cisco is committed. *)
Lemma poll_vpn_fail_closed m ns bound :
  committed (deb (fst (poll m (Some ns) ModeVPN bound))) = CiscoActive →
  emitted (snd (poll m (Some ns) ModeVPN bound)) = Some {|
    evNetState := ns;
    evDecision := {| Actions := [ActFailClosed; ActStopForwarder; ActNotify];
                     NextMode := ModeProxy |} |}.
Proof. simpl. intros ->. done. Qed.

Lemma raw_known ns : raw_of ns ≠ CiscoUnknown.
Proof. unfold raw_of. by destruct (NetState.CiscoActive ns). Qed.

Lemma all_active_replicate (seen : list NetState.NetState) :
  Forall (λ ns, NetState.CiscoActive ns = true) seen →
  raw_of <$> seen = replicate (length seen) CiscoActive.
Proof.
  induction 1 as [|ns seen Hns _ IH]; [done|].
  rewrite fmap_cons, IH. simpl. unfold raw_of. by rewrite Hns.
Qed.

(** C34: The monitor fails closed in time: in VPN mode, whatever was observed before
    and however many observations fail in between, the poll at which
    [threshold] observations in a row have reported Cisco offers the executor
    the event that fails closed, stops the forwarder and notifies, and puts
    the mode back to proxy. *)
Theorem monitor_fails_closed (t : Z) (bound : bool)
    (before run : list (option NetState.NetState)) (ns : NetState.NetState) :
  let m := poll_all ModeVPN bound (New t) (before ++ run) in
  Forall (λ s, NetState.CiscoActive s = true) (omap id run) →
  NetState.CiscoActive ns = true →
  Z.max 1 t <= Z.of_nat (length (omap id run)) + 1 →
  emitted (snd (poll m (Some ns) ModeVPN bound)) = Some {|
    evNetState := ns;
    evDecision := {| Actions := [ActFailClosed; ActStopForwarder; ActNotify];
                     NextMode := ModeProxy |} |}.
Proof.
  intros m Hrun Hns Hlen. apply poll_vpn_fail_closed.
  rewrite poll_deb. unfold m. rewrite poll_all_deb.
  assert (raw_of ns = CiscoActive) as -> by (unfold raw_of; by rewrite Hns).
  rewrite omap_app, fmap_app, (all_active_replicate _ Hrun).
  set (obs0 := raw_of <$> omap id before). set (n := length (omap id run)) in *.
  unfold observe_all. rewrite foldl_app.
  change (foldl _ (deb (New t)) obs0) with (observe_all (NewDebouncer t) obs0).
  change (foldl _ ?d (replicate n CiscoActive)) with (observe_all d (replicate n CiscoActive)).
  set (d0 := observe_all (NewDebouncer t) obs0).
  replace (fst (Observe (observe_all d0 (replicate n CiscoActive)) CiscoActive))
    with (observe_all d0 (replicate (S n) CiscoActive))
    by (rewrite replicate_S_end; unfold observe_all; by rewrite foldl_app).
  assert (threshold d0 = Z.max 1 t) as Hthr.
  { unfold d0. rewrite observe_threshold. simpl. destruct (t <? 1) eqn:?; propify; lia. }
  pose proof (observe_all_inv obs0 _ _ (inv_init t)) as (Hi1 & Hi2 & _).
  fold d0 in Hi1, Hi2.
  destruct (decide (committed d0 = CiscoUnknown)) as [Hu|Hk].
  - (* the very first observation commits at once *)
    simpl. unfold Observe. rewrite bool_decide_eq_true_2 by done. simpl. clear.
    generalize dependent d0. intros d0. set (d1 := {| threshold := _ |}).
    assert (committed d1 = CiscoActive) as H1 by done. revert H1. generalize d1. clear.
    induction n as [|n IH]; intros d Hd; simpl; [done|]. apply IH. unfold Observe.
    rewrite bool_decide_eq_false_2, bool_decide_eq_true_2 by congruence. done.
  - destruct (observe_run d0 CiscoActive (S n)) as [H|(_ & _ & H)]; try done; lia.
Qed.

Definition mw_ns (active : bool) : NetState.NetState := {|
  NetState.DefaultRouteIface := "en0"; NetState.PhysicalIface := "en0";
  NetState.Tunnels := []; NetState.CiscoActive := active; NetState.CiscoOwnsDefault := false |}.

Lemma monitor_fails_closed_witness :
  emitted (snd (poll (poll_all ModeVPN true (New 2)
    ([Some (mw_ns false)] ++ [Some (mw_ns true); None])) (Some (mw_ns true)) ModeVPN true)) ≠ None.
Proof.
  rewrite (monitor_fails_closed 2 true [Some (mw_ns false)] [Some (mw_ns true); None] (mw_ns true));
    [discriminate|by repeat constructor|reflexivity|simpl; lia].
Defined.

(** ** The loop of [Run], in nanoseconds *)

Definition minPollInterval : Z := 50000000.
Definition maxRetryInterval : Z := 2000000000.

Record RunState := {
  mon : Monitor;
  lastPoll : option Z;      (* None: the zero time *)
  retryInterval : Z;
  confirm : option Z;       (* the deadline of the armed timer; None: confirmC is nil *)
  tickOpen : bool;          (* tick is not nil *)
  eventsOpen : bool;        (* events is not nil *)
  clock : Z                 (* no code: the time reached so far *)
}.

Definition run_start (m : Monitor) (now : Z) (tick events : bool) : RunState := {|
  mon := m; lastPoll := None; retryInterval := minPollInterval; confirm := None;
  tickOpen := tick; eventsOpen := events; clock := now |}.

(** The closure [poll] of [Run] once it has waited: [t1] is the time it takes
    for [lastPoll], [t2] the time at which it arms the timer. *)
Definition run_poll (s : RunState) (t1 t2 : Z) (obs : option NetState.NetState)
    (mode : Mode) (bound : bool) : RunState * PollOut :=
  let m0 := {| observationFailed := false; deb := deb (mon s); prevCisco := prevCisco (mon s);
               prevPhys := prevPhys (mon s); havePhys := havePhys (mon s) |} in
  let '(m1, out) := poll m0 obs mode bound in
  let retry :=
    if observationFailed m1
    then (if maxRetryInterval <? retryInterval s * 2 then maxRetryInterval else retryInterval s * 2)
    else minPollInterval in
  ({| mon := m1; lastPoll := Some t1; retryInterval := retry;
      confirm := if again out || Pending (deb m1) then Some (t2 + retry) else confirm s;
      tickOpen := tickOpen s; eventsOpen := eventsOpen s; clock := t2 |}, out).

(** [time.Until(lastPoll.Add(minPollInterval)) <= 0] at [t1]. *)
Definition may_poll (s : RunState) (t1 : Z) : Prop :=
  match lastPoll s with Some l => l + minPollInterval <= t1 | None => True end.

Definition disarm (s : RunState) : RunState := {|
  mon := mon s; lastPoll := lastPoll s; retryInterval := retryInterval s; confirm := None;
  tickOpen := tickOpen s; eventsOpen := eventsOpen s; clock := clock s |}.

(** One round of the [select] that does not end the loop. *)
Inductive run_step (s : RunState) : RunState → Prop :=
  | step_tick t1 t2 obs mode bound :
      tickOpen s = true → clock s <= t1 → may_poll s t1 → t1 <= t2 →
      run_step s (fst (run_poll s t1 t2 obs mode bound))
  | step_event t1 t2 obs mode bound :
      eventsOpen s = true → clock s <= t1 → may_poll s t1 → t1 <= t2 →
      run_step s (fst (run_poll s t1 t2 obs mode bound))
  | step_confirm dl t1 t2 obs mode bound :
      confirm s = Some dl → dl <= t1 → clock s <= t1 → may_poll s t1 → t1 <= t2 →
      run_step s (fst (run_poll (disarm s) t1 t2 obs mode bound))
  | step_tick_closed :
      tickOpen s = true →
      run_step s {| mon := mon s; lastPoll := lastPoll s; retryInterval := retryInterval s;
        confirm := confirm s; tickOpen := false; eventsOpen := eventsOpen s; clock := clock s |}
  | step_events_closed :
      eventsOpen s = true →
      run_step s {| mon := mon s; lastPoll := lastPoll s; retryInterval := retryInterval s;
        confirm := confirm s; tickOpen := tickOpen s; eventsOpen := false; clock := clock s |}.

(** The states of the loop: after the first, immediate poll, any rounds. *)
Definition run_reaches (m : Monitor) (s : RunState) : Prop :=
  ∃ now tick events t1 t2 obs mode bound,
    now <= t1 ∧ t1 <= t2 ∧
    rtc run_step (fst (run_poll (run_start m now tick events) t1 t2 obs mode bound)) s.

Definition run_inv (s : RunState) : Prop :=
  minPollInterval <= retryInterval s <= maxRetryInterval ∧
  (Pending (deb (mon s)) = true →
     ∃ dl, confirm s = Some dl ∧ dl <= clock s + retryInterval s).

Lemma run_poll_inv s t1 t2 obs mode bound :
  minPollInterval <= retryInterval s <= maxRetryInterval →
  run_inv (fst (run_poll s t1 t2 obs mode bound)).
Proof.
  intros Hr. unfold run_poll.
  destruct (poll _ obs mode bound) as [m1 out]; simpl.
  unfold run_inv; simpl. split.
  - repeat case_match; propify; unfold minPollInterval, maxRetryInterval in *; lia.
  - intros ->. rewrite orb_true_r. eexists; split; [done|lia].
Qed.

Lemma run_step_inv s s' : run_inv s → run_step s s' → run_inv s'.
Proof.
  intros Hinv [| | | |]; first [by apply run_poll_inv, Hinv | done].
Qed.

(** The observation loop, in every state it reaches: the retry interval stays
    between 50 ms and 2 s; while a flip awaits confirmation the timer is
    armed, at most one retry interval ahead, so the flip is confirmed or
    dropped without any tick or event; and two polls are never less than
    50 ms apart. *)
Theorem run_loop_invariant (t : Z) (s s' : RunState) :
  run_reaches (New t) s → run_step s s' →
  minPollInterval <= retryInterval s <= maxRetryInterval ∧
  (Pending (deb (mon s)) = true →
     ∃ dl, confirm s = Some dl ∧ dl <= clock s + maxRetryInterval) ∧
  (∀ l, lastPoll s = Some l →
     lastPoll s' = Some l ∨ ∃ l', lastPoll s' = Some l' ∧ l + minPollInterval <= l').
Proof.
  intros (now & tick & events & t1 & t2 & obs & mode & bound & _ & _ & Hrtc) Hstep.
  assert (run_inv s) as [Hr Hp].
  { eapply rtc_invariant; [apply run_step_inv| |exact Hrtc].
    apply run_poll_inv. simpl. unfold minPollInterval, maxRetryInterval; lia. }
  split; [done|]. split.
  { intros (dl & Hdl & Hle)%Hp. exists dl. split; [done|lia]. }
  intros l Hl. destruct Hstep; simpl; auto; right;
    (unfold run_poll; case_match; simpl; eexists; split; [done|]);
    match goal with H : may_poll _ _ |- _ => unfold may_poll in H; by rewrite Hl in H end.
Qed.

Definition rw_s : RunState :=
  fst (run_poll (run_start (New 2) 0 true true) 0 1 (Some (mw_ns false)) ModeProxy false).

Lemma run_loop_invariant_witness :
  ∃ s, run_step rw_s s ∧ Pending (deb (mon s)) = true ∧
    minPollInterval <= retryInterval rw_s <= maxRetryInterval.
Proof.
  assert (run_step rw_s (fst (run_poll rw_s minPollInterval minPollInterval
    (Some (mw_ns true)) ModeProxy false))) as Hs
    by (apply step_tick; [reflexivity|vm_compute; discriminate..]).
  eexists. split; [exact Hs|]. split; [reflexivity|].
  refine (proj1 (run_loop_invariant 2 rw_s _ _ Hs)).
  exists 0, true, true, 0, 1, (Some (mw_ns false)), ModeProxy, false.
  split; [lia|]. split; [lia|]. apply rtc_refl.
Defined.

(** Successive failures double the interval up to the cap; a success resets it. *)
Lemma retry_backoff s t1 t2 obs mode bound :
  retryInterval (fst (run_poll s t1 t2 obs mode bound)) =
  match obs with
  | None => Z.min maxRetryInterval (retryInterval s * 2)
  | Some _ => minPollInterval
  end.
Proof.
  unfold run_poll. destruct obs as [ns|]; simpl; [done|].
  destruct (_ <? _) eqn:?; propify; lia.
Qed.

End Monitor.
