(* ===== verification/Runtime.v ===== *)
(** * Runtime: the lifecycle manager ([internal/runtime/manager.go])

    The [Manager] coordinates two sing-box cores, the persistent proxy and the
    on-demand forwarder.  A method is a program [prog]: its critical sections
    (everything between [m.mu.Lock()] and [m.mu.Unlock()]) are atomic state
    transformers [Lock], and every call into the injected interfaces
    ([core.Factory], [Core.Start], [Core.Close], [ConfigBuilder],
    [InterfaceProber], [RouteController]) is a node whose answer the
    environment chooses.  The same programs are run in two ways: alone,
    against an oracle ([run], this file and RuntimeSeq), and interleaved by a
    scheduler ([sys_step], RuntimeConc). *)

From S2P Require Import Prelude.

Local Open Scope string_scope.
Local Open Scope list_scope.

Module Runtime.

(** ** State *)

Inductive State := StateStopped | StateProxyOnly | StateVPN | StateSuspended.

#[export] Instance State_eq_dec : EqDecision State.
Proof. solve_decision. Defined.

Definition State_String (s : State) : string :=
  match s with
  | StateProxyOnly => "proxy-only"
  | StateVPN => "vpn"
  | StateSuspended => "suspended"
  | StateStopped => "stopped"
  end.

(** A [core.Core]: the identity of one sing-box instance. *)
Abbreviation core := nat.

(** The fields that [mu] guards. *)
Record Manager := {
  state : State;
  proxy : option core;
  fwd : option core;
  bound : string;
  gen : N
}.

Definition NewManager : Manager :=
  {| state := StateStopped; proxy := None; fwd := None; bound := ""; gen := 0 |}.

Definition set_state (s : State) (m : Manager) : Manager :=
  {| state := s; proxy := proxy m; fwd := fwd m; bound := bound m; gen := gen m |}.
Definition set_proxy (p : option core) (m : Manager) : Manager :=
  {| state := state m; proxy := p; fwd := fwd m; bound := bound m; gen := gen m |}.
Definition set_fwd (f : option core) (m : Manager) : Manager :=
  {| state := state m; proxy := proxy m; fwd := f; bound := bound m; gen := gen m |}.
Definition set_bound (b : string) (m : Manager) : Manager :=
  {| state := state m; proxy := proxy m; fwd := fwd m; bound := b; gen := gen m |}.

(** [if m.gen == gen { m.state = s }] *)
Definition set_state_if (g : N) (s : State) (m : Manager) : Manager :=
  if (gen m =? g)%N then set_state s m else m.

(** The errors of the methods, one constructor per message; [string] is what
    the environment answered. *)
Inductive error :=
  | ErrExt (e : string)                    (* an error of a core, as it is *)
  | ErrCleanup (e : string)                (* cleanup orphan routes *)
  | ErrBuildProxy (e : string)             (* build proxy config *)
  | ErrCreateProxy (e : string)            (* create proxy core *)
  | ErrStartProxy (e : string)             (* start proxy core *)
  | ErrProxySuperseded                     (* start proxy: superseded *)
  | ErrRecreate (e restore : error)        (* recreate proxy: ... (restore failed: ...) *)
  | ErrFwdNotRunning                       (* start forwarder: proxy not running *)
  | ErrDetect (e : string)                 (* detect physical interface *)
  | ErrNoPhysical                          (* start forwarder: no physical interface detected *)
  | ErrRebindVPN (e : error)               (* rebind proxy for VPN *)
  | ErrBuildForwarder (e : string)         (* build forwarder config *)
  | ErrCreateForwarder (e : string)        (* create forwarder core *)
  | ErrStartForwarder (e : string)         (* start forwarder core *)
  | ErrFwdSuperseded                       (* start forwarder: superseded *)
  | ErrRebindAfterStop (e : error)         (* rebind proxy after VPN stop *)
  | ErrBindNoPhysical                      (* bind proxy for cisco: no physical interface *)
  | ErrBind (iface : string) (e : error)   (* bind proxy to iface *)
  | ErrUnbind (e : error)                  (* unbind proxy *)
  | ErrRefreshNotRunning                   (* refresh: proxy not running *)
  | ErrTimedOut (label : string).          (* label: timed out after ... *)

(** ** Programs *)

Inductive prog (A : Type) : Type :=
  | Ret (a : A)
  | Lock {B : Type} (f : Manager → Manager * B) (k : B → prog A)
  | CleanupOrphans (k : option string → prog A)
  | ProxyConfig (physIface : string) (k : result string string → prog A)
  | ForwarderConfig (k : result string string → prog A)
  | PhysicalDefault (k : result string string → prog A)
  | Factory (label cfg : string) (k : result string core → prog A)
  | Start (c : core) (k : option string → prog A)
  | Close (c : core) (k : option string → prog A).
Arguments Ret {A} a.
Arguments Lock {A B} f k.
Arguments CleanupOrphans {A} k.
Arguments ProxyConfig {A} physIface k.
Arguments ForwarderConfig {A} k.
Arguments PhysicalDefault {A} k.
Arguments Factory {A} label cfg k.
Arguments Start {A} c k.
Arguments Close {A} c k.

Fixpoint bind {A B} (p : prog A) (h : A → prog B) : prog B :=
  match p with
  | Ret a => h a
  | Lock f k => Lock f (λ b, bind (k b) h)
  | CleanupOrphans k => CleanupOrphans (λ r, bind (k r) h)
  | ProxyConfig i k => ProxyConfig i (λ r, bind (k r) h)
  | ForwarderConfig k => ForwarderConfig (λ r, bind (k r) h)
  | PhysicalDefault k => PhysicalDefault (λ r, bind (k r) h)
  | Factory l c k => Factory l c (λ r, bind (k r) h)
  | Start c k => Start c (λ r, bind (k r) h)
  | Close c k => Close c (λ r, bind (k r) h)
  end.

Notation "'let*' x ':=' p 'in' k" := (bind p (fun x => k))
  (at level 10, x pattern, p at level 100, k at level 200) : go_scope.

(** A critical section that only writes. *)
Definition lock_set (f : Manager → Manager) : prog unit := Lock (λ m, (f m, tt)) Ret.
(** A critical section that only reads. *)
Definition lock_get {B} (f : Manager → B) : prog B := Lock (λ m, (m, f m)) Ret.
(** [if c != nil { _ = c.Close() }] *)
Definition close_opt (c : option core) : prog unit :=
  match c with Some c => Close c (λ _, Ret tt) | None => Ret tt end.

(** ** Helpers *)

Definition committed (g : N) : prog bool := lock_get (λ m, (gen m =? g)%N).

Definition dialProxy (physIface : string) (g : N) : prog (option error) :=
  ProxyConfig physIface (λ cfg,
  match cfg with
  | Err e => Ret (Some (ErrBuildProxy e))
  | Ok cfg =>
      Factory "proxy" cfg (λ c,
      match c with
      | Err e => Ret (Some (ErrCreateProxy e))
      | Ok c =>
          Start c (λ r,
          match r with
          | Some e => Close c (λ _, Ret (Some (ErrStartProxy e)))
          | None =>
              let* ok := committed g in
              if negb ok then Close c (λ _, Ret (Some ErrProxySuperseded))
              else
                let* _ := lock_set (λ m, set_bound physIface (set_proxy (Some c) m)) in
                Ret None
          end)
      end)
  end).

Definition recreateProxy (physIface : string) (g : N) : prog (option error) :=
  let* old := Lock (λ m, (set_proxy None m, proxy m)) Ret in
  let* _ := close_opt old in
  let* r := dialProxy physIface g in
  match r with
  | None => Ret None
  | Some err =>
      let* r2 := dialProxy physIface g in
      match r2 with
      | Some restoreErr => Ret (Some (ErrRecreate err restoreErr))
      | None => Ret (Some err)
      end
  end.

Definition rollbackProxy (prevBound : string) (g : N) : prog unit :=
  let* r := recreateProxy prevBound g in
  match r with
  | Some _ => lock_set (set_state_if g StateStopped)
  | None => lock_set (set_state_if g StateProxyOnly)
  end.

Definition teardownForwarder (g : N) : prog (option error) :=
  let* f := Lock (λ m, (set_fwd None m, fwd m)) Ret in
  let* _ := close_opt f in
  CleanupOrphans (λ _,
  let* r := recreateProxy "" g in
  match r with
  | Some e =>
      let* _ := lock_set (set_state_if g StateStopped) in
      Ret (Some (ErrRebindAfterStop e))
  | None =>
      let* _ := lock_set (set_state_if g StateProxyOnly) in
      Ret None
  end).

(** ** The work of the transitions

    Each is what the method hands to [transition], given the generation it
    was stamped with. *)

Definition StartProxy (g : N) : prog (option error) :=
  let* already := lock_get (λ m, bool_decide (is_Some (proxy m))) in
  if already then Ret None else
  CleanupOrphans (λ r,
  match r with
  | Some e => Ret (Some (ErrCleanup e))
  | None =>
      let* r := dialProxy "" g in
      match r with
      | Some e => Ret (Some e)
      | None => let* _ := lock_set (set_state_if g StateProxyOnly) in Ret None
      end
  end).

(** The first critical section of [StartForwarder]: return early, or go on with
    the previous binding. *)
Definition sf_check (m : Manager) : result (option error) string :=
  if bool_decide (state m = StateVPN) then Err None
  else match proxy m with
       | None => Err (Some ErrFwdNotRunning)
       | Some _ => Ok (bound m)
       end.

(** The last section of [StartForwarder]. *)
Definition sf_publish (f : core) (m : Manager) : Manager := set_state StateVPN (set_fwd (Some f) m).

(** [StartForwarder] once the proxy is bound to the physical interface. *)
Definition startForwarderCore (prevBound : string) (g : N) : prog (option error) :=
  ForwarderConfig (λ cfg,
  match cfg with
  | Err e => let* _ := rollbackProxy prevBound g in Ret (Some (ErrBuildForwarder e))
  | Ok cfg =>
      Factory "forwarder" cfg (λ f,
      match f with
      | Err e => let* _ := rollbackProxy prevBound g in Ret (Some (ErrCreateForwarder e))
      | Ok f =>
          Start f (λ r,
          match r with
          | Some e =>
              Close f (λ _,
              let* _ := rollbackProxy prevBound g in Ret (Some (ErrStartForwarder e)))
          | None =>
              let* ok := committed g in
              if negb ok then Close f (λ _, Ret (Some ErrFwdSuperseded))
              else let* _ := lock_set (sf_publish f) in Ret None
          end)
      end)
  end).

Definition StartForwarder (g : N) : prog (option error) :=
  let* chk := lock_get sf_check in
  match chk with
  | Err r => Ret r
  | Ok prevBound =>
      PhysicalDefault (λ r,
      match r with
      | Err e => Ret (Some (ErrDetect e))
      | Ok physIface =>
          if String.eqb physIface "" then Ret (Some ErrNoPhysical) else
          let* r := recreateProxy physIface g in
          match r with
          | Some e => let* _ := rollbackProxy prevBound g in Ret (Some (ErrRebindVPN e))
          | None => startForwarderCore prevBound g
          end
      end)
  end.

Definition StopForwarder (g : N) : prog (option error) :=
  let* inVPN := lock_get (λ m, bool_decide (state m = StateVPN)) in
  if negb inVPN then Ret None else teardownForwarder g.

Definition NotifyForwarderExited (g : N) : prog (option error) :=
  let* inVPN := lock_get (λ m, bool_decide (state m = StateVPN)) in
  if negb inVPN then Ret None else teardownForwarder g.

Definition SuspendForCisco (g : N) : prog (option error) :=
  let* fp := Lock (λ m, (set_bound "" (set_proxy None (set_fwd None m)), (fwd m, proxy m))) Ret in
  let* _ := close_opt (fst fp) in
  let* _ := close_opt (snd fp) in
  CleanupOrphans (λ _,
  let* _ := lock_set (set_state_if g StateSuspended) in
  Ret None).

Definition ResumeProxy (g : N) : prog (option error) :=
  let* ok := lock_get (λ m, bool_decide (state m = StateSuspended) && bool_decide (proxy m = None)) in
  if negb ok then Ret None else
  let* r := dialProxy "" g in
  match r with
  | Some e => Ret (Some e)
  | None => let* _ := lock_set (set_state_if g StateProxyOnly) in Ret None
  end.

(** The first critical section of [BindProxyToPhysical]. *)
Definition bind_check (physIface : string) (m : Manager) : result (option error) string :=
  if negb (bool_decide (state m = StateProxyOnly)) || bool_decide (proxy m = None) then Err None
  else if String.eqb physIface "" then Err (Some ErrBindNoPhysical)
  else if String.eqb (bound m) physIface then Err None
  else Ok (bound m).

Definition BindProxyToPhysical (physIface : string) (g : N) : prog (option error) :=
  let* chk := lock_get (bind_check physIface) in
  match chk with
  | Err r => Ret r
  | Ok prevBound =>
      let* r := recreateProxy physIface g in
      match r with
      | Some e => let* _ := rollbackProxy prevBound g in Ret (Some (ErrBind physIface e))
      | None => Ret None
      end
  end.

Definition UnbindProxy (g : N) : prog (option error) :=
  let* inProxy := lock_get (λ m, bool_decide (state m = StateProxyOnly)) in
  if negb inProxy then Ret None else
  let* r := recreateProxy "" g in
  match r with
  | Some e =>
      let* _ := lock_set (set_state_if g StateStopped) in
      Ret (Some (ErrUnbind e))
  | None => Ret None
  end.

(** The section of [RefreshProxy] after a failed recreation: the forwarder it
    takes over to close, if any. *)
Definition refresh_failed (g : N) (m : Manager) : Manager * option core :=
  if (gen m =? g)%N && bool_decide (proxy m = None)
  then (set_bound "" (set_state StateStopped (set_fwd None m)), fwd m)
  else (m, None).

Definition RefreshProxy (g : N) : prog (option error) :=
  let* chk := lock_get (λ m, (bool_decide (proxy m = None), bound m)) in
  if fst chk then Ret (Some ErrRefreshNotRunning) else
  let* r := recreateProxy (snd chk) g in
  match r with
  | None => Ret None
  | Some e =>
      let* f := Lock (refresh_failed g) Ret in
      let* _ := close_opt f in
      Ret (Some e)
  end.

(** [Shutdown] is not a transition: it takes no stamp and bumps the generation. *)
Definition Shutdown : prog (option error) :=
  let* fp := Lock (λ m,
    ({| state := StateStopped; proxy := None; fwd := None; bound := bound m;
        gen := (gen m + 1) mod 2 ^ 64 |}, (fwd m, proxy m))) Ret in
  let* e1 := match fst fp with
    | Some f => Close f (λ r, Ret (ErrExt <$> r)) | None => Ret None end in
  let* e2 := match snd fp with
    | Some p => Close p (λ r, Ret (ErrExt <$> r)) | None => Ret None end in
  Ret (match e1 with Some e => Some e | None => e2 end).

(** The methods a caller can invoke. *)
Inductive op :=
  | OpStartProxy | OpStartForwarder | OpStopForwarder | OpNotifyForwarderExited
  | OpSuspendForCisco | OpResumeProxy | OpBindProxyToPhysical (physIface : string)
  | OpUnbindProxy | OpRefreshProxy | OpShutdown.

#[export] Instance op_eq_dec : EqDecision op.
Proof. solve_decision. Defined.

Definition op_work (o : op) (g : N) : prog (option error) :=
  match o with
  | OpStartProxy => StartProxy g
  | OpStartForwarder => StartForwarder g
  | OpStopForwarder => StopForwarder g
  | OpNotifyForwarderExited => NotifyForwarderExited g
  | OpSuspendForCisco => SuspendForCisco g
  | OpResumeProxy => ResumeProxy g
  | OpBindProxyToPhysical i => BindProxyToPhysical i g
  | OpUnbindProxy => UnbindProxy g
  | OpRefreshProxy => RefreshProxy g
  | OpShutdown => Shutdown
  end.

(** [transition] for a caller that is not timed out: stamp, then work. *)
Definition transition (work : N → prog (option error)) : prog (option error) :=
  let* g := lock_get gen in work g.

Definition call (o : op) : prog (option error) :=
  match o with OpShutdown => Shutdown | _ => transition (op_work o) end.

(** ** The world and the oracle *)

(** The manager, the cores that hold resources (started and not yet closed),
    the next identity the factory gives out, and how many calls the
    environment has answered. *)
Record World := { mgr : Manager; live : gset core; next : core; calls : nat }.

Definition init_world : World :=
  {| mgr := NewManager; live := ∅; next := 0; calls := 0 |}.

Definition upd_mgr (m : Manager) (w : World) : World :=
  {| mgr := m; live := live w; next := next w; calls := calls w |}.
Definition tick (w : World) : World :=
  {| mgr := mgr w; live := live w; next := next w; calls := S (calls w) |}.
(** The factory returns a new core, or fails. *)
Definition new_core (w : World) : World :=
  {| mgr := mgr w; live := live w; next := S (next w); calls := calls w |}.
(** A core that was told to start may hold resources, even if it reported an
    error, until it is closed. *)
Definition start_core (c : core) (w : World) : World :=
  {| mgr := mgr w; live := {[c]} ∪ live w; next := next w; calls := calls w |}.
Definition close_core (c : core) (w : World) : World :=
  {| mgr := mgr w; live := live w ∖ {[c]}; next := next w; calls := calls w |}.

(** An environment: its answer to the n-th call. *)
Record Env := {
  env_cleanup : nat → option string;
  env_proxyConfig : nat → string → result string string;
  env_forwarderConfig : nat → result string string;
  env_physicalDefault : nat → result string string;
  env_factory : nat → string → string → option string;
  env_start : nat → core → option string;
  env_close : nat → core → option string
}.

Fixpoint run {A} (e : Env) (p : prog A) (w : World) : A * World :=
  match p with
  | Ret a => (a, w)
  | Lock f k => let '(m, b) := f (mgr w) in run e (k b) (upd_mgr m w)
  | CleanupOrphans k => run e (k (env_cleanup e (calls w))) (tick w)
  | ProxyConfig i k => run e (k (env_proxyConfig e (calls w) i)) (tick w)
  | ForwarderConfig k => run e (k (env_forwarderConfig e (calls w))) (tick w)
  | PhysicalDefault k => run e (k (env_physicalDefault e (calls w))) (tick w)
  | Factory l c k =>
      match env_factory e (calls w) l c with
      | Some err => run e (k (Err err)) (tick w)
      | None => run e (k (Ok (next w))) (tick (new_core w))
      end
  | Start c k => run e (k (env_start e (calls w) c)) (tick (start_core c w))
  | Close c k => run e (k (env_close e (calls w) c)) (tick (close_core c w))
  end.

(** An environment in which every call succeeds. *)
Definition good_env (phys : string) : Env := {|
  env_cleanup := λ _, None;
  env_proxyConfig := λ _ i, Ok i;
  env_forwarderConfig := λ _, Ok "forwarder";
  env_physicalDefault := λ _, Ok phys;
  env_factory := λ _ _ _, None;
  env_start := λ _ _, None;
  env_close := λ _ _, None
|}.

(** A sequence of calls, one after the other. *)
Fixpoint run_calls (e : Env) (ops : list op) (w : World) : list (option error) * World :=
  match ops with
  | [] => ([], w)
  | o :: ops =>
      let '(r, w1) := run e (call o) w in
      let '(rs, w2) := run_calls e ops w1 in
      (r :: rs, w2)
  end.

Lemma run_bind {A B} (e : Env) (p : prog A) (h : A → prog B) (w : World) :
  run e (bind p h) w = let '(a, w') := run e p w in run e (h a) w'.
Proof.
  revert w. induction p; intros w; simpl; auto.
  - destruct (f (mgr w)) as [m b]. auto.
  - destruct (env_factory e (calls w) label cfg); auto.
Qed.

End Runtime.
