(* ===== verification/RuntimeSeq.v ===== *)
(** * RuntimeSeq: the manager's methods one at a time

    The methods of the lifecycle manager run without interference against an
    arbitrary environment: whatever fails, no core is leaked or left dangling
    and the state describes the cores ([wf], preserved by every method); the
    outcome of each transition; and the one way the state and the cores part,
    a transient failure while leaving VPN mode. *)

From S2P Require Import Prelude Runtime.
Import Runtime.

Local Open Scope string_scope.
Local Open Scope list_scope.

Definition opt_set (o : option core) : gset core :=
  match o with Some c => {[c]} | None => ∅ end.

(** Every live core is older than the next one. *)
Definition fresh (w : World) : Prop := ∀ c, c ∈ live w → c < next w.

(** What the manager's state says about its cores.  A stopped manager has no
    forwarder; that it has no proxy is not part of it, since a teardown whose
    proxy came back only at the second try records StateStopped over a proxy
    that runs ([stop_forwarder_transient_failure]). *)
Definition state_ok (m : Manager) : Prop :=
  match state m with
  | StateStopped => fwd m = None
  | StateProxyOnly => is_Some (proxy m) ∧ fwd m = None
  | StateVPN => is_Some (proxy m) ∧ is_Some (fwd m) ∧ bound m ≠ ""
  | StateSuspended => proxy m = None ∧ fwd m = None
  end.

(** The live cores are exactly the published ones. *)
Definition owned (w : World) : Prop :=
  live w = opt_set (proxy (mgr w)) ∪ opt_set (fwd (mgr w)) ∧
  (∀ p f, proxy (mgr w) = Some p → fwd (mgr w) = Some f → p ≠ f) ∧
  fresh w.

Definition wf (w : World) : Prop := owned w ∧ state_ok (mgr w).

Lemma init_wf : wf init_world.
Proof. by repeat split. Qed.

(** Execute the critical sections at the head of a running program. *)
Ltac exec_in H := cbn [run bind lock_get lock_set committed fst snd negb] in H.

(** ** Dialing and recreating the proxy *)

(** Close a goal on the worlds of a finished run. *)
Ltac world_eq := simplify_eq/=; repeat split; first [lia | done | set_solver].

(** The outcome of a dial with the current generation. *)
Definition dialed (i : string) (w w' : World) : Prop :=
  ∃ c, next w <= c < next w' ∧
    mgr w' = set_bound i (set_proxy (Some c) (mgr w)) ∧ live w' = {[c]} ∪ live w.

Definition untouched (w w' : World) : Prop :=
  mgr w' = mgr w ∧ live w' = live w ∧ next w <= next w'.

Lemma dialProxy_spec e i g w r w' :
  run e (dialProxy i g) w = (r, w') → fresh w → gen (mgr w) = g →
  match r with None => dialed i w w' | Some _ => untouched w w' end.
Proof.
  intros Hrun Hf Hg.
  assert (next w ∉ live w) as Hnew by (intros Hc%Hf; lia).
  unfold dialProxy in Hrun. simpl in Hrun.
  destruct (env_proxyConfig e (calls w) i); [|unfold untouched; world_eq].
  simpl in Hrun. destruct (env_factory _ _ _ _); [unfold untouched; world_eq|].
  simpl in Hrun. destruct (env_start _ _ _).
  { unfold untouched; world_eq. }
  simpl in Hrun. rewrite Hg, N.eqb_refl in Hrun. simpl in Hrun. simplify_eq/=.
  exists (next w). split; [simpl; lia|done].
Qed.

(** A dial with a stale generation publishes nothing and leaves nothing live. *)
Lemma dialProxy_stale e i g w r w' :
  run e (dialProxy i g) w = (r, w') → fresh w → gen (mgr w) ≠ g →
  is_Some r ∧ untouched w w'.
Proof.
  intros Hrun Hf Hg. unfold untouched.
  assert (next w ∉ live w) as Hnew by (intros Hc%Hf; lia).
  unfold dialProxy in Hrun. simpl in Hrun.
  destruct (env_proxyConfig e (calls w) i); [|unfold untouched; world_eq].
  simpl in Hrun. destruct (env_factory _ _ _ _); [unfold untouched; world_eq|].
  simpl in Hrun. destruct (env_start _ _ _).
  { unfold untouched; world_eq. }
  simpl in Hrun. apply N.eqb_neq in Hg. rewrite Hg in Hrun. simpl in Hrun.
  unfold untouched; world_eq.
Qed.

(** The world without its proxy. *)
Definition no_proxy (w : World) : World := {|
  mgr := set_proxy None (mgr w); live := live w ∖ opt_set (proxy (mgr w));
  next := next w; calls := calls w |}.

Lemma no_proxy_fresh w : fresh w → fresh (no_proxy w).
Proof. intros Hf c Hc. apply Hf. unfold no_proxy in Hc; simpl in Hc. set_solver. Qed.

(** Recreating the proxy either publishes a new one bound to [i] (perhaps on the
    second attempt, and then it still reports the first error), or fails twice
    and leaves no proxy. *)
Lemma recreateProxy_spec e i g w r w' :
  run e (recreateProxy i g) w = (r, w') → fresh w → gen (mgr w) = g →
  next w <= next w' ∧
  (dialed i (no_proxy w) w' ∨ is_Some r ∧ untouched (no_proxy w) w').
Proof.
  intros Hrun Hf Hg. unfold recreateProxy in Hrun.
  exec_in Hrun. rewrite run_bind in Hrun.
  destruct (run e (close_opt (proxy (mgr w))) _) as [[] w1] eqn:H1.
  assert (mgr w1 = set_proxy None (mgr w) ∧ live w1 = live w ∖ opt_set (proxy (mgr w)) ∧
          next w1 = next w) as (Hm1 & Hl1 & Hn1).
  { destruct (proxy (mgr w)); simpl in H1; simplify_eq/=; repeat split; set_solver. }
  assert (fresh w1) as Hf1 by (intros c; rewrite Hl1, Hn1; intros; apply Hf; set_solver).
  assert (∀ w2, dialed i w1 w2 → dialed i (no_proxy w) w2) as Hd1.
  { intros w2 (c & ? & ? & ?). exists c. rewrite Hn1, Hm1, Hl1 in *. done. }
  rewrite run_bind in Hrun. destruct (run e (dialProxy i g) w1) as [r2 w2] eqn:H2.
  apply dialProxy_spec in H2; [|done|by rewrite Hm1].
  destruct r2 as [err|].
  2: { simpl in Hrun; simplify_eq. split; [destruct H2 as (? & ? & _); lia|by left; apply Hd1]. }
  destruct H2 as (Hm2 & Hl2 & Hn2).
  rewrite run_bind in Hrun. destruct (run e (dialProxy i g) w2) as [r3 w3] eqn:H3.
  apply dialProxy_spec in H3; [|by intros c; rewrite Hl2; intros ?%Hf1; lia|by rewrite Hm2, Hm1].
  destruct r3 as [err'|]; simpl in Hrun; simplify_eq.
  - destruct H3 as (Hm3 & Hl3 & Hn3). split; [lia|]. right. split; [by eexists|].
    unfold untouched, no_proxy; simpl. rewrite Hm3, Hm2, Hm1, Hl3, Hl2, Hl1.
    repeat split; lia.
  - destruct H3 as (c & Hc & Hm3 & Hl3). split; [lia|]. left. exists c. simpl.
    rewrite Hm3, Hm2, Hm1, Hl3, Hl2, Hl1. split; [lia|done].
Qed.

(** ** The helpers on well-owned worlds *)

(** The manager after its proxy was replaced by one bound to [i], or lost. *)
Definition rebound (i : string) (m m' : Manager) : Prop :=
  ∃ c, m' = set_bound i (set_proxy (Some c) m).

Lemma owned_upd m w :
  owned w → proxy m = proxy (mgr w) → fwd m = fwd (mgr w) → owned (upd_mgr m w).
Proof. intros (H1 & H2 & H3) Hp Hf. unfold owned; simpl. rewrite Hp, Hf. done. Qed.

Lemma owned_fresh w : owned w → fresh w.
Proof. by intros (_ & _ & ?). Qed.

Lemma dialed_owned i w w' :
  owned w → proxy (mgr w) = None → dialed i w w' → owned w' ∧ rebound i (mgr w) (mgr w').
Proof.
  intros (Hl & _ & Hf) Hp (c & Hc & Hm & Hl'). rewrite Hp in Hl; simpl in Hl.
  split; [|by exists c]. unfold owned. rewrite Hm, Hl', Hl. simpl. repeat split.
  - set_solver.
  - intros p f [= ->] Hfw. assert (f ∈ live w) as ?%Hf by (rewrite Hl, Hfw; set_solver). lia.
  - intros d. rewrite Hl', elem_of_union, elem_of_singleton. intros [->|?%Hf]; lia.
Qed.

Lemma untouched_owned w w' : owned w → untouched w w' → owned w' ∧ mgr w' = mgr w.
Proof.
  intros (Hl & Hd & Hf) (Hm & Hl' & Hn). split; [|done].
  unfold owned. rewrite Hm, Hl'. repeat split; try done.
  intros c. rewrite Hl'. intros ?%Hf. lia.
Qed.

Lemma no_proxy_owned w : owned w → owned (no_proxy w).
Proof.
  intros (Hl & Hd & Hf). unfold owned, no_proxy; simpl. repeat split; try done.
  - rewrite Hl. destruct (proxy (mgr w)) as [p|] eqn:Hp, (fwd (mgr w)) as [f|] eqn:Hfw; simpl;
      set_solver.
  - apply no_proxy_fresh, Hf.
Qed.

Lemma recreate_owned e i g w r w' :
  run e (recreateProxy i g) w = (r, w') → owned w → gen (mgr w) = g →
  owned w' ∧ (rebound i (mgr w) (mgr w') ∨ is_Some r ∧ mgr w' = set_proxy None (mgr w)).
Proof.
  intros Hrun Ho Hg.
  destruct (recreateProxy_spec _ _ _ _ _ _ Hrun (owned_fresh _ Ho) Hg) as (_ & [H|[Hr H]]).
  - apply dialed_owned in H as [? [c Hc]]; [|by apply no_proxy_owned|done].
    split; [done|]. left. by exists c.
  - apply untouched_owned in H as [? Hm]; [|by apply no_proxy_owned]. auto.
Qed.

(** The manager after a rollback: in proxy-only mode with its proxy back, or
    stopped, with or without one. *)
Definition rolled_back (i : string) (m m' : Manager) : Prop :=
  (∃ c, m' = set_state StateProxyOnly (set_bound i (set_proxy (Some c) m))) ∨
  (∃ c, m' = set_state StateStopped (set_bound i (set_proxy (Some c) m))) ∨
  m' = set_state StateStopped (set_proxy None m).

Lemma set_state_if_current g s m : gen m = g → set_state_if g s m = set_state s m.
Proof. intros <-. unfold set_state_if. by rewrite N.eqb_refl. Qed.

Lemma rollback_owned e i g w w' :
  run e (rollbackProxy i g) w = (tt, w') → owned w → gen (mgr w) = g →
  owned w' ∧ rolled_back i (mgr w) (mgr w').
Proof.
  intros Hrun Ho Hg. unfold rollbackProxy in Hrun. rewrite run_bind in Hrun.
  destruct (run e (recreateProxy i g) w) as [r w1] eqn:H1.
  destruct (recreate_owned _ _ _ _ _ _ H1 Ho Hg) as [Ho1 Hm1].
  assert (gen (mgr w1) = g) as Hg1 by (destruct Hm1 as [[c ->]|[_ ->]]; done).
  destruct r as [err|]; exec_in Hrun; simplify_eq; rewrite !set_state_if_current by done;
    (split; [by apply owned_upd|]); simpl; unfold rolled_back.
  - destruct Hm1 as [[c ->]|[_ ->]]; eauto.
  - destruct Hm1 as [[c ->]|[[? ?] _]]; [eauto|done].
Qed.

Lemma close_opt_run e c w w' :
  run e (close_opt c) w = (tt, w') →
  mgr w' = mgr w ∧ live w' = live w ∖ opt_set c ∧ next w' = next w.
Proof. destruct c; simpl; intros; simplify_eq/=; repeat split; set_solver. Qed.

Lemma teardown_owned e g w r w' :
  run e (teardownForwarder g) w = (r, w') → owned w → gen (mgr w) = g →
  owned w' ∧ rolled_back "" (set_fwd None (mgr w)) (mgr w') ∧
  (r = None ↔ state (mgr w') = StateProxyOnly).
Proof.
  intros Hrun Ho Hg. unfold teardownForwarder in Hrun. exec_in Hrun. rewrite run_bind in Hrun.
  destruct (run e (close_opt _) _) as [[] w1] eqn:H1.
  apply close_opt_run in H1 as (Hm1 & Hl1 & Hn1). simpl in Hm1, Hl1, Hn1.
  cbn [run] in Hrun. rewrite run_bind in Hrun.
  destruct (run e (recreateProxy "" g) _) as [r2 w2] eqn:H2.
  assert (owned (tick w1)) as Ho1.
  { destruct Ho as (Hl & Hd & Hf). unfold owned, tick; simpl. rewrite Hm1, Hl1, Hl. simpl.
    repeat split; try done.
    - destruct (proxy (mgr w)) as [p|] eqn:Hp, (fwd (mgr w)) as [f|] eqn:Hfw; simpl; set_solver.
    - intros c. simpl. rewrite Hn1. intros Hc. apply Hf. rewrite Hl. set_solver. }
  apply recreate_owned in H2 as [Ho2 Hm2]; [|done|simpl; by rewrite Hm1].
  simpl in Hm2. rewrite Hm1 in Hm2.
  assert (gen (mgr w2) = g) as Hg2 by (destruct Hm2 as [[c ->]|[_ ->]]; done).
  destruct r2 as [err|]; exec_in Hrun; simplify_eq; simpl; rewrite !set_state_if_current by done;
    (split; [by apply owned_upd|]); (split; [unfold rolled_back|by split]).
  - destruct Hm2 as [[c ->]|[_ ->]]; eauto.
  - destruct Hm2 as [[c ->]|[[? ?] _]]; [eauto|done].
Qed.

(** ** The methods *)

Lemma wf_owned w : wf w → owned w.
Proof. by intros [? _]. Qed.
Lemma wf_state_ok w : wf w → state_ok (mgr w).
Proof. by intros [_ ?]. Qed.
#[local] Hint Resolve wf_owned wf_state_ok owned_fresh : go.

Lemma owned_tick w : owned w → owned (tick w).
Proof. done. Qed.
#[local] Hint Resolve owned_tick : go.

Lemma rebound_state i m m' : rebound i m m' → state m' = state m ∧ fwd m' = fwd m ∧
  gen m' = gen m ∧ bound m' = i ∧ is_Some (proxy m').
Proof. intros [c ->]. simpl. eauto 10. Qed.

Lemma rolled_back_state_ok i m m' :
  rolled_back i m m' → fwd m = None → state_ok m' ∧ fwd m' = None ∧ gen m' = gen m ∧
  (state m' = StateProxyOnly ∧ is_Some (proxy m') ∧ bound m' = i ∨ state m' = StateStopped).
Proof. intros [[c ->]|[[c ->]| ->]]; simpl; unfold state_ok; simpl; intros ->; eauto 10. Qed.

Lemma StartProxy_spec e g w r w' :
  run e (StartProxy g) w = (r, w') → wf w → gen (mgr w) = g →
  wf w' ∧ gen (mgr w') = g ∧
  match r with
  | None => is_Some (proxy (mgr w)) ∧ w' = w ∨
            proxy (mgr w) = None ∧ state (mgr w') = StateProxyOnly ∧ bound (mgr w') = ""
  | Some _ => mgr w' = mgr w ∧ live w' = live w
  end.
Proof.
  intros Hrun Hwf Hg. unfold StartProxy in Hrun. exec_in Hrun.
  replace (upd_mgr (mgr w) w) with w in Hrun by (by destruct w).
  case_bool_decide as Hp; [simpl in Hrun; simplify_eq; eauto|].
  apply eq_None_not_Some in Hp. exec_in Hrun.
  destruct (env_cleanup e (calls w)); [simpl in Hrun; simplify_eq/=; done|].
  rewrite run_bind in Hrun. destruct (run e (dialProxy "" g) (tick w)) as [r1 w1] eqn:H1.
  apply dialProxy_spec in H1; [|by eauto with go|done].
  destruct r1 as [err|]; exec_in Hrun; simplify_eq.
  - destruct H1 as (Hm & Hl & Hn). split; [|by rewrite Hm].
    destruct (untouched_owned (tick w) w') as [? Hm']; [by eauto with go|done|].
    split; [done|]. rewrite Hm. by apply wf_state_ok.
  - apply dialed_owned in H1 as [Ho Hm]; [|by eauto with go|done].
    apply rebound_state in Hm as (Hs & Hf & Hg & Hb & Hsome). simpl in *.
    rewrite set_state_if_current by done.
    assert (fwd (mgr w) = None) as Hfw.
    { apply wf_state_ok in Hwf. unfold state_ok in Hwf. rewrite Hp in Hwf.
      destruct (state (mgr w)); [tauto..| |tauto]. by destruct Hwf as [[? ?] _]. }
    split; [|by split; [|right]]. split; [by apply owned_upd|].
    unfold state_ok; simpl. split; [done|congruence].
Qed.

Lemma startForwarderCore_spec e i g w r w' :
  run e (startForwarderCore i g) w = (r, w') → owned w → gen (mgr w) = g →
  is_Some (proxy (mgr w)) → fwd (mgr w) = None → bound (mgr w) ≠ "" →
  wf w' ∧ gen (mgr w') = g ∧
  match r with
  | None => state (mgr w') = StateVPN ∧ bound (mgr w') = bound (mgr w)
  | Some _ => state (mgr w') ≠ StateVPN
  end.
Proof.
  intros Hrun Ho Hg Hp Hf Hb. unfold startForwarderCore in Hrun.
  assert (∀ err w1, run e (let* _ := rollbackProxy i g in Ret (Some err)) w1 = (r, w') →
    owned w1 → mgr w1 = mgr w → wf w' ∧ gen (mgr w') = g ∧ is_Some r ∧ state (mgr w') ≠ StateVPN)
    as Hroll.
  { intros err w1 H1 Ho1 Hm1. rewrite run_bind in H1.
    destruct (run e (rollbackProxy i g) w1) as [[] w2] eqn:H2. simpl in H1. simplify_eq.
    apply rollback_owned in H2 as [Ho2 Hr2]; [|done|by rewrite Hm1].
    rewrite Hm1 in Hr2. apply rolled_back_state_ok in Hr2 as (Hs & ? & ? & Hst); [|done].
    split_and!; try done. destruct Hst as [[-> _]| ->]; done. }
  exec_in Hrun. destruct (env_forwarderConfig e (calls w)) as [cfg|err].
  2: { apply Hroll in Hrun as (? & ? & [? ->] & ?); by eauto with go. }
  cbn [run] in Hrun. destruct (env_factory _ _ _ _) as [err|].
  { apply Hroll in Hrun as (? & ? & [? ->] & ?); by eauto with go. }
  cbn [run] in Hrun.
  assert (next w ∉ live w) as Hnew by (intros Hc%(owned_fresh _ Ho); lia).
  destruct (env_start _ _ _) as [err|].
  { cbn [run] in Hrun. apply Hroll in Hrun as (? & ? & [? ->] & ?); [done| |done].
    destruct Ho as (Hl & Hd & Hfr). unfold owned; simpl. split; [rewrite Hl in *; set_solver|].
    split; [done|]. intros c; simpl. intros Hc.
    assert (c ∈ live w) as ?%Hfr by set_solver. lia. }
  exec_in Hrun. simpl in Hrun. rewrite Hg, N.eqb_refl in Hrun. simpl in Hrun. simplify_eq/=.
  split; [|by split_and!]. split; [|unfold state_ok; simpl; split_and!; [done|by eexists|done]].
  unfold owned; simpl. split_and!.
  - destruct Ho as (-> & _). rewrite Hf. simpl. set_solver.
  - intros p f Hpe [= <-] Heq. apply Hnew. rewrite <- Heq. destruct Ho as (-> & _). rewrite Hpe. set_solver.
  - intros c; simpl. rewrite elem_of_union, elem_of_singleton.
    intros [->|Hc%(owned_fresh _ Ho)]; lia.
Qed.

Lemma sf_check_ok m b : sf_check m = Ok b → state m ≠ StateVPN ∧ is_Some (proxy m) ∧ bound m = b.
Proof. unfold sf_check. intros. repeat case_match; propify; simplify_eq; eauto. Qed.

Lemma state_ok_no_fwd m : state_ok m → state m ≠ StateVPN → fwd m = None.
Proof. unfold state_ok. destruct (state m); naive_solver. Qed.

Lemma StartForwarder_spec e g w r w' :
  run e (StartForwarder g) w = (r, w') → wf w → gen (mgr w) = g →
  wf w' ∧ gen (mgr w') = g ∧
  match r with
  | None => state (mgr w') = StateVPN
  | Some _ => state (mgr w') ≠ StateVPN
  end.
Proof.
  intros Hrun Hwf Hg. unfold StartForwarder in Hrun. exec_in Hrun.
  replace (upd_mgr (mgr w) w) with w in Hrun by (by destruct w).
  destruct (sf_check (mgr w)) as [b|r0] eqn:Hchk.
  2: { simpl in Hrun. simplify_eq. split_and!; try done.
       unfold sf_check in Hchk. repeat case_match; propify; simplify_eq; done. }
  apply sf_check_ok in Hchk as (Hst & Hp & Hb).
  pose proof (state_ok_no_fwd _ (wf_state_ok _ Hwf) Hst) as Hf.
  exec_in Hrun. destruct (env_physicalDefault e (calls w)) as [phys|err].
  2: { simpl in Hrun. by simplify_eq/=. }
  destruct (String.eqb phys "") eqn:Hphys; [simpl in Hrun; by simplify_eq/=|].
  apply String.eqb_neq in Hphys.
  rewrite run_bind in Hrun. destruct (run e (recreateProxy phys g) (tick w)) as [r1 w1] eqn:H1.
  apply recreate_owned in H1 as [Ho1 Hm1]; [|by eauto with go|done]. simpl in Hm1.
  assert (gen (mgr w1) = g ∧ fwd (mgr w1) = None) as [Hg1 Hf1]
    by (destruct Hm1 as [[c ->]|[_ ->]]; done).
  destruct r1 as [err|].
  - rewrite run_bind in Hrun. destruct (run e (rollbackProxy b g) w1) as [[] w2] eqn:H2.
    apply rollback_owned in H2 as [Ho2 Hr2]; [|done|done].
    apply rolled_back_state_ok in Hr2 as (? & ? & ? & Hs2); [|done].
    simpl in Hrun. simplify_eq. split_and!; try done; [congruence|].
    destruct Hs2 as [[-> _]| ->]; done.
  - destruct Hm1 as [Hm1|[[? ?] _]]; [|done]. apply rebound_state in Hm1 as (? & ? & ? & Hb1 & ?).
    apply startForwarderCore_spec in Hrun as (? & ? & Hr); try done; [|by rewrite Hb1].
    split_and!; try done. by destruct r; [|destruct Hr].
Qed.

Lemma teardown_spec e g w r w' :
  run e (teardownForwarder g) w = (r, w') → wf w → gen (mgr w) = g →
  wf w' ∧ gen (mgr w') = g ∧ fwd (mgr w') = None ∧
  (r = None ↔ state (mgr w') = StateProxyOnly) ∧
  (state (mgr w') = StateProxyOnly ∧ bound (mgr w') = "" ∨ state (mgr w') = StateStopped).
Proof.
  intros Hrun Hwf Hg.
  apply teardown_owned in Hrun as (Ho & Hr & Hiff); [|by eauto with go|done].
  apply rolled_back_state_ok in Hr as (? & ? & ? & Hs); [|done].
  simpl in *. split_and!; [done|congruence|done|done|].
  destruct Hs as [(? & ? & ?)|?]; auto.
Qed.

Lemma stop_like_spec e g w r w' :
  run e (let* inVPN := lock_get (λ m, bool_decide (state m = StateVPN)) in
         if negb inVPN then Ret None else teardownForwarder g) w = (r, w') →
  wf w → gen (mgr w) = g →
  wf w' ∧ gen (mgr w') = g ∧ fwd (mgr w') = None ∧
  (state (mgr w) ≠ StateVPN → r = None ∧ w' = w) ∧
  (state (mgr w) = StateVPN → r = None ↔ state (mgr w') = StateProxyOnly).
Proof.
  intros Hrun Hwf Hg. exec_in Hrun.
  replace (upd_mgr (mgr w) w) with w in Hrun by (by destruct w).
  case_bool_decide as Hv; simpl in Hrun.
  - apply teardown_spec in Hrun as (? & ? & ? & ? & _); [|done..]. by split_and!.
  - simplify_eq. split_and!; try done. by apply state_ok_no_fwd; [apply Hwf|].
Qed.

Lemma SuspendForCisco_spec e g w r w' :
  run e (SuspendForCisco g) w = (r, w') → wf w → gen (mgr w) = g →
  wf w' ∧ gen (mgr w') = g ∧ r = None ∧ state (mgr w') = StateSuspended ∧
  live w' = ∅ ∧ bound (mgr w') = "".
Proof.
  intros Hrun Hwf Hg. unfold SuspendForCisco in Hrun. exec_in Hrun. rewrite run_bind in Hrun.
  destruct (run e (close_opt (fwd (mgr w))) _) as [[] w1] eqn:H1. rewrite run_bind in Hrun.
  destruct (run e (close_opt (proxy (mgr w))) w1) as [[] w2] eqn:H2.
  apply close_opt_run in H1 as (Hm1 & Hl1 & Hn1), H2 as (Hm2 & Hl2 & Hn2). simpl in *.
  exec_in Hrun. simplify_eq.
  assert (mgr w2 = set_bound "" (set_proxy None (set_fwd None (mgr w)))) as Hm by congruence.
  assert (live w2 = ∅) as Hl.
  { rewrite Hl2, Hl1. destruct (wf_owned _ Hwf) as (-> & _). set_solver. }
  unfold wf, owned, state_ok, fresh; simpl. rewrite Hm, Hl.
  rewrite set_state_if_current by done. simpl. by split_and!.
Qed.

Lemma ResumeProxy_spec e g w r w' :
  run e (ResumeProxy g) w = (r, w') → wf w → gen (mgr w) = g →
  wf w' ∧ gen (mgr w') = g ∧
  (state (mgr w) ≠ StateSuspended → r = None ∧ w' = w) ∧
  (state (mgr w) = StateSuspended →
     match r with
     | None => state (mgr w') = StateProxyOnly ∧ bound (mgr w') = ""
     | Some _ => mgr w' = mgr w ∧ live w' = live w
     end).
Proof.
  intros Hrun Hwf Hg. unfold ResumeProxy in Hrun. exec_in Hrun.
  replace (upd_mgr (mgr w) w) with w in Hrun by (by destruct w).
  case_bool_decide as Hs; [|simpl in Hrun; by simplify_eq].
  pose proof (wf_state_ok _ Hwf) as Hok. unfold state_ok in Hok. rewrite Hs in Hok.
  pose proof Hok as [Hp Hf]. rewrite bool_decide_eq_true_2 in Hrun by done. cbn [andb negb] in Hrun.
  rewrite run_bind in Hrun. destruct (run e (dialProxy "" g) w) as [r1 w1] eqn:H1.
  apply dialProxy_spec in H1; [|by eauto with go|done].
  destruct r1 as [err|]; exec_in Hrun; simplify_eq.
  - destruct (untouched_owned w w') as [? Hm]; [by eauto with go|exact H1|].
    destruct H1 as (_ & ? & _). rewrite Hm. split_and!; try done.
    split; [done|]. rewrite Hm. by apply wf_state_ok.
  - apply dialed_owned in H1 as [Ho Hm]; [|by eauto with go|done].
    apply rebound_state in Hm as (? & Hf1 & ? & ? & ?).
    rewrite set_state_if_current by done. simpl. split_and!; try done.
    split; [by apply owned_upd|]. unfold state_ok; simpl. split; [done|congruence].
Qed.

Lemma bind_check_ok i m b :
  bind_check i m = Ok b → state m = StateProxyOnly ∧ is_Some (proxy m) ∧ i ≠ "" ∧ bound m = b.
Proof.
  unfold bind_check. intros H. repeat case_match; propify; simplify_eq.
  rewrite <- not_eq_None_Some. repeat split; try done. by apply String.eqb_neq.
Qed.

Lemma bind_check_err i m r :
  bind_check i m = Err r →
  r = None ∧ (state m ≠ StateProxyOnly ∨ proxy m = None ∨ bound m = i) ∨
  r = Some ErrBindNoPhysical ∧ i = "".
Proof.
  unfold bind_check. intros H.
  destruct (negb _ || _) eqn:H1; simplify_eq.
  { left. split; [done|]. apply orb_true_iff in H1 as [?|?]; propify; auto. }
  destruct (String.eqb i "") eqn:H2; simplify_eq; [right; split; [done|by apply String.eqb_eq]|].
  destruct (String.eqb (bound m) i) eqn:H3; simplify_eq.
  left. split; [done|]. right; right. by apply String.eqb_eq.
Qed.

Lemma BindProxyToPhysical_spec e i g w r w' :
  run e (BindProxyToPhysical i g) w = (r, w') → wf w → gen (mgr w) = g →
  wf w' ∧ gen (mgr w') = g ∧
  (r = None → state (mgr w) = StateProxyOnly → state (mgr w') = StateProxyOnly ∧ bound (mgr w') = i) ∧
  (is_Some r → i ≠ "" → state (mgr w') = StateProxyOnly ∧ bound (mgr w') = bound (mgr w)
     ∨ state (mgr w') = StateStopped).
Proof.
  intros Hrun Hwf Hg. unfold BindProxyToPhysical in Hrun. exec_in Hrun.
  replace (upd_mgr (mgr w) w) with w in Hrun by (by destruct w).
  pose proof (wf_state_ok _ Hwf) as Hok.
  destruct (bind_check i (mgr w)) as [b|r0] eqn:Hchk.
  2: { simpl in Hrun. simplify_eq. apply bind_check_err in Hchk. split_and!; try done.
       - intros -> Hs. unfold state_ok in Hok. rewrite Hs in Hok. destruct Hok as [[c Hc] _].
         destruct Hchk as [(_ & [?|[?|?]])|[? _]]; [done|congruence|done|done].
       - intros Hr Hi. destruct Hchk as [[-> _]|[_ ->]]; [by destruct Hr|done]. }
  apply bind_check_ok in Hchk as (Hs & Hp & Hi & Hb).
  unfold state_ok in Hok. rewrite Hs in Hok. destruct Hok as [_ Hf].
  rewrite run_bind in Hrun. destruct (run e (recreateProxy i g) w) as [r1 w1] eqn:H1.
  apply recreate_owned in H1 as [Ho1 Hm1]; [|by eauto with go|done].
  destruct r1 as [err|].
  - assert (gen (mgr w1) = g ∧ fwd (mgr w1) = None) as [Hg1 Hf1]
      by (destruct Hm1 as [[c ->]|[_ ->]]; done).
    rewrite run_bind in Hrun. destruct (run e (rollbackProxy b g) w1) as [[] w2] eqn:H2.
    apply rollback_owned in H2 as [Ho2 Hr2]; [|done|done].
    apply rolled_back_state_ok in Hr2 as (? & ? & ? & Hst); [|done].
    simpl in Hrun. simplify_eq. split_and!; try done; [congruence|].
    intros _ _. destruct Hst as [(? & _ & ?)|?]; auto.
  - simpl in Hrun. simplify_eq. destruct Hm1 as [Hm1|[[? ?] _]]; [|done].
    apply rebound_state in Hm1 as (Hs1 & Hf1 & ? & ? & ?).
    split_and!; try done; [|by intros; split; congruence].
    split; [done|]. unfold state_ok. rewrite Hs1, Hs. split; congruence.
Qed.

Lemma UnbindProxy_spec e g w r w' :
  run e (UnbindProxy g) w = (r, w') → wf w → gen (mgr w) = g →
  wf w' ∧ gen (mgr w') = g ∧
  (state (mgr w) ≠ StateProxyOnly → r = None ∧ w' = w) ∧
  (state (mgr w) = StateProxyOnly →
     match r with
     | None => state (mgr w') = StateProxyOnly ∧ bound (mgr w') = ""
     | Some _ => state (mgr w') = StateStopped
     end).
Proof.
  intros Hrun Hwf Hg. unfold UnbindProxy in Hrun. exec_in Hrun.
  replace (upd_mgr (mgr w) w) with w in Hrun by (by destruct w).
  case_bool_decide as Hs; cbn [negb] in Hrun; [|simpl in Hrun; by simplify_eq].
  pose proof (wf_state_ok _ Hwf) as Hok. unfold state_ok in Hok. rewrite Hs in Hok.
  destruct Hok as [Hp Hf].
  rewrite run_bind in Hrun. destruct (run e (recreateProxy "" g) w) as [r1 w1] eqn:H1.
  apply recreate_owned in H1 as [Ho1 Hm1]; [|by eauto with go|done].
  assert (gen (mgr w1) = g ∧ fwd (mgr w1) = None) as [Hg1 Hf1]
    by (destruct Hm1 as [[c ->]|[_ ->]]; done).
  destruct r1 as [err|]; exec_in Hrun; simplify_eq.
  - rewrite set_state_if_current by done. split_and!; try done.
  - destruct Hm1 as [Hm1|[[? ?] _]]; [|done].
    apply rebound_state in Hm1 as (Hs1 & ? & ? & ? & ?).
    split_and!; try done; [|by intros; split; congruence].
    split; [done|]. unfold state_ok. rewrite Hs1, Hs. split; congruence.
Qed.

Lemma RefreshProxy_spec e g w r w' :
  run e (RefreshProxy g) w = (r, w') → wf w → gen (mgr w) = g →
  wf w' ∧ gen (mgr w') = g ∧
  (proxy (mgr w) = None → r = Some ErrRefreshNotRunning ∧ w' = w) ∧
  (is_Some (proxy (mgr w)) →
     (is_Some (proxy (mgr w')) ∧ state (mgr w') = state (mgr w) ∧ bound (mgr w') = bound (mgr w)) ∨
     (is_Some r ∧ state (mgr w') = StateStopped ∧ live w' = ∅ ∧ bound (mgr w') = "")).
Proof.
  intros Hrun Hwf Hg. unfold RefreshProxy in Hrun. exec_in Hrun.
  replace (upd_mgr (mgr w) w) with w in Hrun by (by destruct w).
  case_bool_decide as Hp; [simpl in Hrun; simplify_eq; split_and!; try done; intros [? ?]; congruence|].
  rewrite run_bind in Hrun.
  destruct (run e (recreateProxy (bound (mgr w)) g) w) as [r1 w1] eqn:H1.
  pose proof (wf_state_ok _ Hwf) as Hok.
  apply recreate_owned in H1 as [Ho1 Hm1]; [|by eauto with go|done].
  assert (gen (mgr w1) = g) as Hg1 by (destruct Hm1 as [[c ->]|[_ ->]]; done).
  destruct Hm1 as [Hm1|[Hr1 Hm1]].
  - (* a new proxy, on the first attempt or on the second *)
    assert (mgr w' = mgr w1 ∧ owned w') as [Hm' Ho'].
    { destruct r1 as [err|]; [|simpl in Hrun; by simplify_eq].
      exec_in Hrun. assert (refresh_failed g (mgr w1) = (mgr w1, None)) as Href.
      { unfold refresh_failed. destruct Hm1 as [c ->]. simpl. by rewrite andb_false_r. }
      rewrite Href in Hrun. simpl in Hrun. simplify_eq. split; [done|by apply owned_upd]. }
    apply rebound_state in Hm1 as (Hs1 & Hf1 & ? & Hb1 & ?). rewrite Hm'.
    split_and!; [|done|by intros|by intros; left].
    split; [done|]. rewrite Hm'. revert Hok. unfold state_ok. rewrite Hs1, Hf1, Hb1.
    destruct (state (mgr w)); naive_solver.
  - (* no proxy: the forwarder is closed too *)
    destruct Hr1 as [err ->]. exec_in Hrun.
    assert (refresh_failed g (mgr w1) =
      (set_bound "" (set_state StateStopped (set_fwd None (mgr w1))), fwd (mgr w1))) as Href.
    { unfold refresh_failed. rewrite Hg1, N.eqb_refl, Hm1. done. }
    rewrite Href in Hrun. exec_in Hrun. rewrite run_bind in Hrun.
    destruct (run e (close_opt (fwd (mgr w1))) _) as [[] w2] eqn:H2.
    apply close_opt_run in H2 as (Hm2 & Hl2 & Hn2). simpl in *. simplify_eq.
    assert (live w' = ∅) as Hl.
    { rewrite Hl2. destruct Ho1 as (-> & _). rewrite Hm1. simpl. set_solver. }
    rewrite Hm2. simpl. split_and!; [|done|by intros|by right; eauto].
    unfold wf, owned, state_ok, fresh. rewrite Hl, Hm2. simpl. rewrite Hm1. simpl. by split_and!.
Qed.

Lemma Shutdown_spec e w r w' :
  run e Shutdown w = (r, w') → wf w →
  wf w' ∧ gen (mgr w') = ((gen (mgr w) + 1) mod 2 ^ 64)%N ∧ state (mgr w') = StateStopped ∧
  live w' = ∅ ∧ bound (mgr w') = bound (mgr w).
Proof.
  intros Hrun Hwf. destruct (wf_owned _ Hwf) as (Hl & _ & _).
  unfold Shutdown in Hrun. exec_in Hrun.
  assert (live w' = ∅ ∧ mgr w' = {| state := StateStopped; proxy := None; fwd := None;
    bound := bound (mgr w); gen := (gen (mgr w) + 1) mod 2 ^ 64 |}) as [Hl' Hm'].
  { destruct (fwd (mgr w)) as [f|], (proxy (mgr w)) as [p|]; simpl in Hrun; simplify_eq; simpl;
      (split; [rewrite Hl; set_solver|done]). }
  rewrite Hm'. split_and!; try done.
  unfold wf, owned, state_ok, fresh. rewrite Hl', Hm'. simpl. by split_and!.
Qed.

(** ** The manager as a whole *)

Lemma call_spec e o w r w' :
  run e (call o) w = (r, w') →
  o ≠ OpShutdown → run e (op_work o (gen (mgr w))) w = (r, w').
Proof.
  intros Hrun Ho. destruct o; try done; unfold call, transition in Hrun; exec_in Hrun;
    by replace (upd_mgr (mgr w) w) with w in Hrun by (by destruct w).
Qed.

Lemma call_wf e o w r w' : run e (call o) w = (r, w') → wf w → wf w'.
Proof.
  intros Hrun Hwf. destruct (decide (o = OpShutdown)) as [->|Ho].
  { by apply Shutdown_spec in Hrun as [? _]. }
  apply call_spec in Hrun; [|done]. destruct o; simpl in Hrun; try done.
  - by apply StartProxy_spec in Hrun as [? _].
  - by apply StartForwarder_spec in Hrun as [? _].
  - by apply stop_like_spec in Hrun as [? _].
  - by apply stop_like_spec in Hrun as [? _].
  - by apply SuspendForCisco_spec in Hrun as [? _].
  - by apply ResumeProxy_spec in Hrun as [? _].
  - by apply BindProxyToPhysical_spec in Hrun as [? _].
  - by apply UnbindProxy_spec in Hrun as [? _].
  - by apply RefreshProxy_spec in Hrun as [? _].
Qed.

Lemma run_calls_wf e ops w : wf w → wf (run_calls e ops w).2.
Proof.
  revert w. induction ops as [|o ops IH]; intros w Hwf; simpl; [done|].
  destruct (run e (call o) w) as [r w1] eqn:H1.
  destruct (run_calls e ops w1) as [rs w2] eqn:H2. simpl.
  specialize (IH w1 (call_wf _ _ _ _ _ H1 Hwf)). by rewrite H2 in IH.
Qed.

(** C35: No leak, no dangling core: whatever the environment answers, after any
    sequence of calls on a new manager, one at a time, the cores that hold
    resources are exactly the published proxy and forwarder, which differ;
    there is a forwarder exactly in VPN mode, where the proxy runs and is
    bound to an interface; proxy-only mode has a proxy, and a suspended
    manager has none.  Nothing is said of the proxy of a stopped manager, which
    can be there ([stop_forwarder_transient_failure]), but it is then published
    and the next stop closes it. *)
Theorem manager_no_leaks (e : Env) (ops : list op) :
  let w := (run_calls e ops init_world).2 in
  live w = opt_set (proxy (mgr w)) ∪ opt_set (fwd (mgr w)) ∧
  (is_Some (fwd (mgr w)) → proxy (mgr w) ≠ fwd (mgr w)) ∧
  (is_Some (fwd (mgr w)) ↔ state (mgr w) = StateVPN) ∧
  (state (mgr w) = StateVPN → is_Some (proxy (mgr w)) ∧ bound (mgr w) ≠ "") ∧
  (state (mgr w) = StateProxyOnly → is_Some (proxy (mgr w))) ∧
  (state (mgr w) = StateSuspended → proxy (mgr w) = None).
Proof.
  intros w. destruct (run_calls_wf e ops _ init_wf) as [(Hl & Hd & _) Hs]. fold w in Hl, Hd, Hs.
  unfold state_ok in Hs. split_and!; [done| | |by intros Hv; rewrite Hv in Hs; naive_solver
    |by intros Hv; rewrite Hv in Hs; naive_solver|by intros Hv; rewrite Hv in Hs; naive_solver].
  - intros [f Hf] Heq. apply (Hd f f); congruence.
  - destruct (state (mgr w)); split; try done; try naive_solver.
    + rewrite Hs. by intros [? ?].
    + destruct Hs as [_ ->]. by intros [? ?].
    + destruct Hs as [_ ->]. by intros [? ?].
Qed.

(** The transitions into and out of VPN mode, from any state the calls reach:
    [StartForwarder] reports success exactly when it leaves the manager in VPN
    mode, with both cores live; [StopForwarder] in VPN mode reports success
    exactly when it leaves it in proxy-only mode, and whether or not it
    succeeds no forwarder core stays live. *)
Theorem vpn_transitions (e0 e : Env) (ops : list op) :
  let w := (run_calls e0 ops init_world).2 in
  (let '(r, w1) := run e (call OpStartForwarder) w in
     (r = None ↔ state (mgr w1) = StateVPN) ∧
     (r = None → ∃ p f, p ≠ f ∧ proxy (mgr w1) = Some p ∧ fwd (mgr w1) = Some f ∧ live w1 = {[p; f]})) ∧
  (let '(r, w1) := run e (call OpStopForwarder) w in
     (state (mgr w) = StateVPN → r = None ↔ state (mgr w1) = StateProxyOnly) ∧
     fwd (mgr w1) = None ∧ live w1 = opt_set (proxy (mgr w1))).
Proof.
  intros w. assert (wf w) as Hwf by apply (run_calls_wf e0 ops _ init_wf). split.
  - destruct (run e (call OpStartForwarder) w) as [r w1] eqn:H1.
    apply call_spec in H1; [|done]. simpl in H1.
    apply StartForwarder_spec in H1 as (Hwf1 & _ & Hr); [|done|done].
    split; [destruct r; naive_solver|]. intros ->.
    destruct Hwf1 as [(Hl & Hd & _) Hs]. unfold state_ok in Hs. rewrite Hr in Hs.
    destruct Hs as ([p Hp] & [f Hf] & _). exists p, f. rewrite Hp, Hf in Hl.
    split_and!; [by apply Hd|done..].
  - destruct (run e (call OpStopForwarder) w) as [r w1] eqn:H1.
    apply call_spec in H1; [|done]. simpl in H1.
    apply stop_like_spec in H1 as (Hwf1 & _ & Hf & _ & Hr); [|done|done].
    split_and!; [done|done|]. destruct (wf_owned _ Hwf1) as (Hl & _).
    rewrite Hl, Hf. simpl. set_solver.
Qed.

(** Standing down is unconditional: from any state the calls reach and
    whatever fails, [SuspendForCisco] and [Shutdown] leave no core live; the
    first never reports an error and is suspended, and [ResumeProxy] brings it
    to proxy-only mode, unbound, or fails and changes nothing. *)
Theorem stand_down (e0 e : Env) (ops : list op) :
  let w := (run_calls e0 ops init_world).2 in
  (let '(r, w1) := run e (call OpSuspendForCisco) w in
     r = None ∧ state (mgr w1) = StateSuspended ∧ live w1 = ∅ ∧
     let '(r2, w2) := run e (call OpResumeProxy) w1 in
     (r2 = None → state (mgr w2) = StateProxyOnly ∧ bound (mgr w2) = "" ∧
        live w2 = opt_set (proxy (mgr w2))) ∧
     (r2 ≠ None → mgr w2 = mgr w1 ∧ live w2 = ∅)) ∧
  (let '(r, w1) := run e (call OpShutdown) w in
     state (mgr w1) = StateStopped ∧ live w1 = ∅).
Proof.
  intros w. assert (wf w) as Hwf by apply (run_calls_wf e0 ops _ init_wf). split.
  - destruct (run e (call OpSuspendForCisco) w) as [r w1] eqn:H1.
    apply call_spec in H1; [|done]. simpl in H1.
    apply SuspendForCisco_spec in H1 as (Hwf1 & _ & Hr & Hs & Hl & _); [|done|done].
    split_and!; [done..|].
    destruct (run e (call OpResumeProxy) w1) as [r2 w2] eqn:H2.
    apply call_spec in H2; [|done]. simpl in H2.
    apply ResumeProxy_spec in H2 as (Hwf2 & _ & _ & Hr2); [|done|done].
    specialize (Hr2 Hs). split.
    + intros ->. destruct Hr2 as [Hs2 Hb2]. split_and!; [done|done|].
      destruct Hwf2 as [(Hl2 & _) Hok]. unfold state_ok in Hok. rewrite Hs2 in Hok.
      destruct Hok as [_ Hf2]. rewrite Hl2, Hf2. simpl. set_solver.
    + destruct r2; [|done]. destruct Hr2 as [-> ->]. by rewrite Hl.
  - destruct (run e (call OpShutdown) w) as [r w1] eqn:H1.
    by apply Shutdown_spec in H1 as (_ & _ & ? & ? & _).
Qed.

(** An environment in which only the start of the core [c] fails. *)
Definition env_start_fails (c : core) : Env := {|
  env_cleanup := λ _, None;
  env_proxyConfig := λ _ i, Ok i;
  env_forwarderConfig := λ _, Ok "forwarder";
  env_physicalDefault := λ _, Ok "en0";
  env_factory := λ _ _ _, None;
  env_start := λ _ c', if bool_decide (c' = c) then Some "address already in use" else None;
  env_close := λ _ _, None
|}.

(** One transient start failure while leaving VPN mode parts the state from
    the cores: the retry inside [recreateProxy] brings the proxy up, but the
    first error is still reported, so [StopForwarder] fails and puts the
    manager in the stopped state with a live, published proxy; a later
    [StartProxy] reports success and does nothing, and the state stays
    stopped. *)
Theorem stop_forwarder_transient_failure :
  let '(rs, w) := run_calls (env_start_fails 3)
    [OpStartProxy; OpStartForwarder; OpStopForwarder; OpStartProxy] init_world in
  rs = [None; None;
        Some (ErrRebindAfterStop (ErrStartProxy "address already in use")); None] ∧
  state (mgr w) = StateStopped ∧ proxy (mgr w) = Some 4 ∧ live w = {[4]}.
Proof. vm_compute. split_and!; reflexivity. Qed.

(** [Shutdown] keeps the recorded binding: after it in VPN mode no proxy runs,
    yet [BoundInterface] still names the physical interface, and [UnbindProxy]
    does not clear it. *)
Theorem shutdown_keeps_binding :
  let '(rs, w) := run_calls (good_env "en0")
    [OpStartProxy; OpStartForwarder; OpShutdown; OpUnbindProxy] init_world in
  rs = [None; None; None; None] ∧ state (mgr w) = StateStopped ∧
  live w = opt_set (proxy (mgr w)) ∧ proxy (mgr w) = None ∧ bound (mgr w) = "en0".
Proof. vm_compute. split_and!; reflexivity. Qed.
