(* ===== verification/RuntimeConc.v ===== *)
(** * RuntimeConc: the manager's methods interleaved

    The manager runs every transition in a goroutine of its own, so that a
    caller that is timed out leaves the work running.  Here any number of
    calls are in flight, each a residual program of Runtime, and a schedule
    picks which one executes its next critical section or its next call into
    the environment.  [Shutdown] is final except against a transition caught
    between its [committed] check and the section that publishes its result,
    and the schedules at the end show what the exceptions do. *)

From S2P Require Import Prelude Runtime.
Import Runtime.

Local Open Scope string_scope.
Local Open Scope list_scope.

(** ** The system *)

(** One atomic step of a program: its next critical section, or its next call
    into the environment. *)
Definition step1 {A} (e : Env) (p : prog A) (w : World) : option (prog A * World) :=
  match p with
  | Ret _ => None
  | Lock f k => Some (k (snd (f (mgr w))), upd_mgr (fst (f (mgr w))) w)
  | CleanupOrphans k => Some (k (env_cleanup e (calls w)), tick w)
  | ProxyConfig i k => Some (k (env_proxyConfig e (calls w) i), tick w)
  | ForwarderConfig k => Some (k (env_forwarderConfig e (calls w)), tick w)
  | PhysicalDefault k => Some (k (env_physicalDefault e (calls w)), tick w)
  | Factory l c k =>
      match env_factory e (calls w) l c with
      | Some err => Some (k (Err err), tick w)
      | None => Some (k (Ok (next w)), tick (new_core w))
      end
  | Start c k => Some (k (env_start e (calls w) c), tick (start_core c w))
  | Close c k => Some (k (env_close e (calls w) c), tick (close_core c w))
  end.

(** A call in flight: the generation it was stamped with, what is left of its
    goroutine, and what its caller was told. *)
Record Thread := {
  th_op : op;
  th_stamp : N;
  th_prog : prog (option error);
  th_answer : option (option error)
}.

Record Sys := { world : World; threads : list Thread }.

Definition init_sys : Sys := {| world := init_world; threads := [] |}.

(** A scheduler's choices. *)
Inductive choice :=
  | Spawn (o : op)              (* a caller invokes a method; a transition is stamped *)
  | Run (i : nat)               (* the i-th call executes its next step *)
  | Return (i : nat)            (* its caller receives the result *)
  | Timeout (i : nat).          (* its caller gives up; the goroutine goes on *)

Definition upd_thread (i : nat) (th : Thread) (w : World) (s : Sys) : Sys :=
  {| world := w; threads := <[i := th]> (threads s) |}.

Definition answered (r : option error) (th : Thread) : Thread := {|
  th_op := th_op th; th_stamp := th_stamp th; th_prog := th_prog th; th_answer := Some r |}.
Definition advanced (p : prog (option error)) (th : Thread) : Thread := {|
  th_op := th_op th; th_stamp := th_stamp th; th_prog := p; th_answer := th_answer th |}.

Definition spawned (o : op) (m : Manager) : Thread := {|
  th_op := o; th_stamp := gen m; th_prog := op_work o (gen m); th_answer := None |}.

Definition op_label (o : op) : string :=
  match o with
  | OpStartProxy => "start proxy"
  | OpStartForwarder => "start forwarder"
  | OpStopForwarder => "stop forwarder"
  | OpNotifyForwarderExited => "forwarder exited"
  | OpSuspendForCisco => "suspend for cisco"
  | OpResumeProxy => "resume proxy"
  | OpBindProxyToPhysical _ => "bind proxy to physical"
  | OpUnbindProxy => "unbind proxy"
  | OpRefreshProxy => "refresh proxy"
  | OpShutdown => "shutdown"
  end.

(** [transition] with its [select]: stamp and go, then either the result or the
    timeout; [Shutdown] runs in its caller and cannot be timed out. *)
Definition sys_do (e : Env) (c : choice) (s : Sys) : option Sys :=
  match c with
  | Spawn o => Some {| world := world s; threads := threads s ++ [spawned o (mgr (world s))] |}
  | Run i =>
      th ← threads s !! i;
      '(p, w) ← step1 e (th_prog th) (world s);
      Some (upd_thread i (advanced p th) w s)
  | Return i =>
      th ← threads s !! i;
      match th_prog th, th_answer th with
      | Ret r, None => Some (upd_thread i (answered r th) (world s) s)
      | _, _ => None
      end
  | Timeout i =>
      th ← threads s !! i;
      match th_op th, th_answer th with
      | OpShutdown, _ => None
      | o, None => Some (upd_thread i (answered (Some (ErrTimedOut (op_label o))) th) (world s) s)
      | _, Some _ => None
      end
  end.

Definition exec (e : Env) (cs : list choice) (s : Sys) : option Sys :=
  foldl (λ o c, s ← o; sys_do e c s) (Some s) cs.

Lemma exec_app e cs cs' s : exec e (cs ++ cs') s = (s' ← exec e cs s; exec e cs' s').
Proof.
  unfold exec. rewrite foldl_app. destruct (foldl _ (Some s) cs) as [s'|]; simpl; [done|].
  induction cs'; done.
Qed.

Lemma exec_cons e c cs s : exec e (c :: cs) s = (s' ← sys_do e c s; exec e cs s').
Proof. apply (exec_app e [c] cs). Qed.

(** A single call run step by step ends where [run] says. *)
Lemma step1_run {A} e (p : prog A) w p' w' :
  step1 e p w = Some (p', w') → run e p w = run e p' w'.
Proof.
  destruct p; simpl; intros; simplify_eq/=; try done.
  - by destruct (f (mgr w)).
  - by destruct (env_factory _ _ _ _); simplify_eq.
Qed.

(** ** The generation discipline *)

(** A manager that is off: what [Shutdown] leaves. *)
Definition off (m : Manager) : Prop := state m = StateStopped ∧ proxy m = None ∧ fwd m = None.

(** The disciplined programs of a transition stamped [g]: no section changes
    the generation; a section that runs once the generation has moved on
    keeps an idle manager off and is followed by a disciplined program; and a
    section that runs before that may also open a window, a single section
    that publishes whatever the generation is by then. *)
Fixpoint disciplined {A} (g : N) (p : prog A) : Prop :=
  match p with
  | Ret _ => True
  | Lock f k =>
      (∀ m, gen (fst (f m)) = gen m) ∧
      (∀ m, gen m ≠ g → (off m → off (fst (f m))) ∧ disciplined g (k (snd (f m)))) ∧
      (∀ m, disciplined g (k (snd (f m))) ∨
            match k (snd (f m)) with
            | Lock f' k' => (∀ m, gen (fst (f' m)) = gen m) ∧ (∀ m, disciplined g (k' (snd (f' m))))
            | _ => False
            end)
  | CleanupOrphans k => ∀ r, disciplined g (k r)
  | ProxyConfig _ k => ∀ r, disciplined g (k r)
  | ForwarderConfig k => ∀ r, disciplined g (k r)
  | PhysicalDefault k => ∀ r, disciplined g (k r)
  | Factory _ _ k => ∀ r, disciplined g (k r)
  | Start _ k => ∀ r, disciplined g (k r)
  | Close _ k => ∀ r, disciplined g (k r)
  end.

(** A program about to publish its result: the section after [committed]. *)
Definition window {A} (g : N) (p : prog A) : Prop :=
  match p with
  | Lock f k => (∀ m, gen (fst (f m)) = gen m) ∧ (∀ m, disciplined g (k (snd (f m))))
  | _ => False
  end.

(** A call is publishing when its next section can turn an idle manager on
    although the generation has moved past its stamp. *)
Definition publishing (th : Thread) : Prop :=
  match th_prog th with
  | Lock f _ => ∃ m, gen m ≠ th_stamp th ∧ off m ∧ ¬ off (fst (f m))
  | _ => False
  end.

Lemma disciplined_bind {A B} g (p : prog A) (h : A → prog B) :
  (∀ a, disciplined g (h a)) →
  (disciplined g p → disciplined g (bind p h)) ∧ (window g p → window g (bind p h)).
Proof.
  intros Hh. induction p as [a|B' f k IH|k IH|i k IH|k IH|k IH|l c k IH|c k IH|c k IH]; simpl;
    try (split; [intros H r; by apply IH|done]).
  - split; [intros _; apply Hh|done].
  - split.
    + intros (Hg & Hs & Hw). split_and!; [done| |].
      * intros m Hm. destruct (Hs m Hm) as [Hoff Hd]. split; [done|by apply IH].
      * intros m. destruct (Hw m) as [Hd|Hd]; [left; by apply IH|right].
        apply (IH (snd (f m))). exact Hd.
    + intros [Hg Hd]. split; [done|]. intros m. apply IH, Hd.
Qed.

Lemma disciplined_seq {A B} g (p : prog A) (h : A → prog B) :
  disciplined g p → (∀ a, disciplined g (h a)) → disciplined g (bind p h).
Proof. intros Hp Hh. by apply disciplined_bind. Qed.

(** Sections without windows. *)
Lemma disciplined_lock {A B} g (f : Manager → Manager * B) (k : B → prog A) :
  (∀ m, gen (fst (f m)) = gen m) → (∀ m, gen m ≠ g → off m → off (fst (f m))) →
  (∀ b, disciplined g (k b)) → disciplined g (Lock f k).
Proof. intros Hg Ho Hk. simpl. split_and!; [done| |]; intros m; [by split; [apply Ho|]|by left]. Qed.

Lemma disciplined_get {A B} g (f : Manager → B) (k : B → prog A) :
  (∀ b, disciplined g (k b)) → disciplined g (bind (lock_get f) k).
Proof. intros Hk. by apply disciplined_lock. Qed.

Lemma disciplined_set_state {A} g s (k : unit → prog A) :
  (∀ b, disciplined g (k b)) → disciplined g (bind (lock_set (set_state_if g s)) k).
Proof.
  intros Hk. apply disciplined_lock; [| |done]; intros m; simpl; unfold set_state_if.
  - by case_match.
  - intros Hm%N.eqb_neq. by rewrite Hm.
Qed.

Lemma disciplined_close_opt {A} g c (k : unit → prog A) :
  (∀ b, disciplined g (k b)) → disciplined g (bind (close_opt c) k).
Proof. intros Hk. destruct c; simpl; auto. Qed.

(** The check followed by the publication. *)
Lemma disciplined_commit {A} g (f : Manager → Manager) (no : prog A) (k : unit → prog A) :
  (∀ m, gen (f m) = gen m) → disciplined g no → (∀ b, disciplined g (k b)) →
  disciplined g (let* ok := committed g in if negb ok then no else bind (lock_set f) k).
Proof.
  intros Hf Hno Hk. simpl. split_and!; [done| |].
  - intros m Hm%N.eqb_neq. rewrite Hm. done.
  - intros m. destruct (gen m =? g)%N; simpl; [right; by split|by left].
Qed.

Create HintDb disc.
#[local] Hint Resolve disciplined_get disciplined_set_state disciplined_close_opt : disc.

(** Walk through a program, one node after the other. *)
Ltac walk :=
  repeat match goal with
  | |- disciplined _ (Ret _) => exact I
  | |- disciplined _ (bind (lock_get _) _) => apply disciplined_get; intros
  | |- disciplined _ (bind (lock_set (set_state_if _ _)) _) => apply disciplined_set_state; intros
  | |- disciplined _ (bind (close_opt _) _) => apply disciplined_close_opt; intros
  | |- disciplined _ (bind (lock_set (set_state_if _ _)) _) => apply disciplined_set_state; intros
  | |- disciplined _ (CleanupOrphans _) => intros ?
  | |- disciplined _ (ProxyConfig _ _) => intros ?
  | |- disciplined _ (ForwarderConfig _) => intros ?
  | |- disciplined _ (PhysicalDefault _) => intros ?
  | |- disciplined _ (Factory _ _ _) => intros ?
  | |- disciplined _ (Start _ _) => intros ?
  | |- disciplined _ (Close _ _) => intros ?
  | |- disciplined _ (let* ok := committed _ in _) => apply disciplined_commit; [done|..]; intros
  | |- disciplined _ (bind (Lock _ Ret) _) => apply disciplined_lock; [done| |]; intros
  | |- disciplined _ (match ?x with _ => _ end) => destruct x
  | |- off _ => unfold off in *; simpl; naive_solver
  | _ => progress cbv beta
  end.

Lemma dialProxy_disciplined i g : disciplined g (dialProxy i g).
Proof. unfold dialProxy. walk. Qed.

Lemma recreateProxy_disciplined i g : disciplined g (recreateProxy i g).
Proof.
  unfold recreateProxy. walk.
  repeat (apply disciplined_seq; [apply dialProxy_disciplined|]; intros; walk).
Qed.

Lemma rollbackProxy_disciplined i g : disciplined g (rollbackProxy i g).
Proof.
  unfold rollbackProxy. apply disciplined_seq; [apply recreateProxy_disciplined|]. intros r.
  destruct r; simpl; split_and!; intros; unfold set_state_if; try (by case_match); simpl; auto;
    match goal with H : gen _ ≠ _ |- _ => apply N.eqb_neq in H; rewrite H; auto end.
Qed.

Lemma teardownForwarder_disciplined g : disciplined g (teardownForwarder g).
Proof.
  unfold teardownForwarder. walk.
  apply disciplined_seq; [apply recreateProxy_disciplined|]; intros; walk.
Qed.

(** Every transition is disciplined for its own stamp. *)
Lemma op_work_disciplined o g : o ≠ OpShutdown → disciplined g (op_work o g).
Proof.
  intros Ho. destruct o; try done; simpl op_work.
  - unfold StartProxy. walk. apply disciplined_seq; [apply dialProxy_disciplined|]; intros; walk.
  - unfold StartForwarder. walk.
    assert (∀ b (err : error), disciplined g (let* _ := rollbackProxy b g in Ret (Some err))) as Hroll
      by (intros; apply disciplined_seq; [apply rollbackProxy_disciplined|done]).
    apply disciplined_seq; [apply recreateProxy_disciplined|]. intros r.
    destruct r; [apply Hroll|]. unfold startForwarderCore. walk; apply Hroll.
  - unfold StopForwarder. walk. apply teardownForwarder_disciplined.
  - unfold NotifyForwarderExited. walk. apply teardownForwarder_disciplined.
  - unfold SuspendForCisco. walk.
  - unfold ResumeProxy. walk. apply disciplined_seq; [apply dialProxy_disciplined|]; intros; walk.
  - unfold BindProxyToPhysical. walk.
    apply disciplined_seq; [apply recreateProxy_disciplined|]; intros; walk.
    apply disciplined_seq; [apply rollbackProxy_disciplined|done].
  - unfold UnbindProxy. walk.
    apply disciplined_seq; [apply recreateProxy_disciplined|]; intros; walk.
  - unfold RefreshProxy. walk.
    apply disciplined_seq; [apply recreateProxy_disciplined|]; intros r; walk.
    apply disciplined_lock; [| |intros; walk].
    + intros m. unfold refresh_failed. by case_match.
    + intros m Hm%N.eqb_neq. unfold refresh_failed. by rewrite Hm.
Qed.

(** ** Steps of the calls in flight *)

Lemma step1_disciplined {A} e (p : prog A) w p' w' g :
  step1 e p w = Some (p', w') → disciplined g p →
  gen (mgr w') = gen (mgr w) ∧ (disciplined g p' ∨ window g p') ∧
  (gen (mgr w) ≠ g → (off (mgr w) → off (mgr w')) ∧ disciplined g p').
Proof.
  destruct p; simpl; intros Hs Hd; simplify_eq/=; try by eauto.
  - destruct Hd as (Hg & Hq & Hw). split_and!; [done|apply Hw|apply Hq].
  - destruct (env_factory _ _ _ _); simplify_eq/=; eauto.
Qed.

Lemma step1_window {A} e (p : prog A) w p' w' g :
  step1 e p w = Some (p', w') → window g p →
  gen (mgr w') = gen (mgr w) ∧ disciplined g p'.
Proof. destruct p; simpl; intros Hs Hw; simplify_eq/=; try done. by destruct Hw. Qed.

(** A program without critical sections. *)
Fixpoint lock_free {A} (p : prog A) : Prop :=
  match p with
  | Ret _ => True
  | Lock _ _ => False
  | CleanupOrphans k => ∀ r, lock_free (k r)
  | ProxyConfig _ k => ∀ r, lock_free (k r)
  | ForwarderConfig k => ∀ r, lock_free (k r)
  | PhysicalDefault k => ∀ r, lock_free (k r)
  | Factory _ _ k => ∀ r, lock_free (k r)
  | Start _ k => ∀ r, lock_free (k r)
  | Close _ k => ∀ r, lock_free (k r)
  end.

Lemma step1_lock_free {A} e (p : prog A) w p' w' :
  step1 e p w = Some (p', w') → lock_free p → mgr w' = mgr w ∧ lock_free p'.
Proof.
  destruct p; simpl; intros; simplify_eq/=; try done; auto.
  destruct (env_factory _ _ _ _); simplify_eq/=; auto.
Qed.

Lemma step1_Shutdown e w p' w' :
  step1 e Shutdown w = Some (p', w') →
  off (mgr w') ∧ gen (mgr w') = ((gen (mgr w) + 1) mod 2 ^ 64)%N ∧ lock_free p'.
Proof.
  unfold Shutdown. cbn [bind step1]. intros; simplify_eq/=. split_and!; [done..|].
  destruct (fwd (mgr w)), (proxy (mgr w)); simpl; intros; simpl; auto.
Qed.

(** What every call in flight satisfies when the generation is [g]. *)
Definition call_ok (g : N) (th : Thread) : Prop :=
  (th_stamp th <= g)%N ∧
  match th_op th with
  | OpShutdown => th_prog th = Shutdown ∨ lock_free (th_prog th)
  | _ => disciplined (th_stamp th) (th_prog th) ∨ window (th_stamp th) (th_prog th)
  end.

(** What it satisfies after a [Shutdown] that caught no publication. *)
Definition call_quiet (g : N) (th : Thread) : Prop :=
  match th_op th with
  | OpShutdown => th_prog th = Shutdown ∨ lock_free (th_prog th)
  | _ => (th_stamp th < g)%N ∧ disciplined (th_stamp th) (th_prog th)
  end.

Lemma call_ok_mono g g' th : (g <= g')%N → call_ok g th → call_ok g' th.
Proof. intros Hg [Hs Hc]. split; [lia|done]. Qed.
Lemma call_quiet_mono g g' th : (g <= g')%N → call_quiet g th → call_quiet g' th.
Proof. unfold call_quiet. intros Hg. destruct (th_op th); intuition lia. Qed.

Lemma spawned_ok o m : call_ok (gen m) (spawned o m).
Proof.
  split; [simpl; lia|]. destruct (decide (o = OpShutdown)) as [->|Ho]; [by left|].
  simpl. destruct o; try done; left; by apply (op_work_disciplined _ (gen m)).
Qed.

(** One step of a call: it stays well-behaved and the generation only grows. *)
Lemma call_step e th w p w' n :
  step1 e (th_prog th) w = Some (p, w') → call_ok (gen (mgr w)) th →
  (gen (mgr w) <= n)%N → (n + 1 < 2 ^ 64)%N →
  (gen (mgr w) <= gen (mgr w') <= n + 1)%N ∧ call_ok (gen (mgr w')) (advanced p th).
Proof.
  intros Hs [Hst Hc] Hn Hlt. unfold call_ok. destruct (decide (th_op th = OpShutdown)) as [Ho|Ho].
  - simpl. rewrite Ho in *. destruct Hc as [Hp|Hf].
    + rewrite Hp in Hs. apply step1_Shutdown in Hs as (_ & Hg & Hf).
      rewrite N.mod_small in Hg by lia. rewrite Hg. split_and!; try lia. by right.
    + apply step1_lock_free in Hs as [Hm Hf']; [|done]. rewrite Hm.
      split_and!; try lia. by right.
  - assert (disciplined (th_stamp th) (th_prog th) ∨ window (th_stamp th) (th_prog th)) as Hd
      by (destruct (th_op th); done).
    assert (gen (mgr w') = gen (mgr w) ∧ (disciplined (th_stamp th) p ∨ window (th_stamp th) p))
      as [Hg Hd'].
    { destruct Hd as [Hd|Hd].
      - by apply (step1_disciplined _ _ _ _ _ _ Hs) in Hd as (? & ? & _).
      - apply (step1_window _ _ _ _ _ _ Hs) in Hd as [? ?]. auto. }
    rewrite Hg. simpl. split_and!; try lia. destruct (th_op th); done.
Qed.

Lemma call_step_quiet e th w p w' n :
  step1 e (th_prog th) w = Some (p, w') → call_quiet (gen (mgr w)) th → off (mgr w) →
  (gen (mgr w) <= n)%N → (n + 1 < 2 ^ 64)%N →
  (gen (mgr w) <= gen (mgr w') <= n + 1)%N ∧ off (mgr w') ∧
  call_quiet (gen (mgr w')) (advanced p th).
Proof.
  intros Hs Hc Hoff Hn Hlt. unfold call_quiet in *.
  destruct (decide (th_op th = OpShutdown)) as [Ho|Ho].
  - simpl. rewrite Ho in *. destruct Hc as [Hp|Hf].
    + rewrite Hp in Hs. apply step1_Shutdown in Hs as (Hoff' & Hg & Hf).
      rewrite N.mod_small in Hg by lia. rewrite Hg. split_and!; try lia; [done|by right].
    + apply step1_lock_free in Hs as [Hm Hf']; [|done]. rewrite Hm.
      split_and!; try lia; [done|by right].
  - assert ((th_stamp th < gen (mgr w))%N ∧ disciplined (th_stamp th) (th_prog th)) as [Hst Hd]
      by (destruct (th_op th); done).
    apply (step1_disciplined _ _ _ _ _ _ Hs) in Hd as (Hg & _ & Hq).
    destruct Hq as [Hoff' Hd']; [lia|]. rewrite Hg. simpl.
    split_and!; try lia; [by apply Hoff'|]. destruct (th_op th); done.
Qed.

(** ** Runs of the system *)

(** A property of the calls that grows with the generation is kept by every
    choice when it is kept by the step of a call, by answers and by the calls
    spawned. *)
Section calls.
Context (e : Env) (P : N → Thread → Prop) (I : Manager → Prop) (allowed : op → Prop).
Context (P_mono : ∀ g g' th, (g <= g')%N → P g th → P g' th).
Context (P_answered : ∀ g th r, P g th → P g (answered r th)).
Context (P_spawned : ∀ m o, allowed o → P (gen m) (spawned o m)).
Context (P_step : ∀ th w p w' n, step1 e (th_prog th) w = Some (p, w') → P (gen (mgr w)) th →
  I (mgr w) → (gen (mgr w) <= n)%N → (n + 1 < 2 ^ 64)%N →
  (gen (mgr w) <= gen (mgr w') <= n + 1)%N ∧ I (mgr w') ∧ P (gen (mgr w')) (advanced p th)).

Definition sys_inv (n : N) (s : Sys) : Prop :=
  (gen (mgr (world s)) <= n)%N ∧ I (mgr (world s)) ∧
  Forall (P (gen (mgr (world s)))) (threads s).

Definition choice_allowed (c : choice) : Prop :=
  match c with Spawn o => allowed o | _ => True end.

Lemma sys_do_inv c s s' n :
  sys_do e c s = Some s' → sys_inv n s → choice_allowed c → (n + 1 < 2 ^ 64)%N →
  sys_inv (n + 1) s'.
Proof.
  intros Hdo (Hn & HI & Hth) Hc Hlt.
  destruct c as [o|i|i|i]; simpl in Hdo; simplify_option_eq.
  - split_and!; simpl; [lia|done|]. apply Forall_app. split; [done|].
    apply Forall_singleton. by apply P_spawned.
  - match goal with H : step1 _ _ _ = Some ?x |- _ => destruct x as [p w']; rename H into Hs end.
    match goal with H : threads s !! i = Some ?t |- _ => rename H into Hi; rename t into th end.
    simplify_eq/=. pose proof (Forall_lookup_1 _ _ _ _ Hth Hi) as Hp.
    destruct (P_step _ _ _ _ n Hs Hp HI Hn Hlt) as (Hg & HI' & Hp'). split_and!; simpl; [lia|done|].
    apply Forall_insert; [|done]. eapply Forall_impl; [exact Hth|]. intros t. apply P_mono. lia.
  - match goal with H : threads s !! i = Some ?t |- _ => rename H into Hi; rename t into th end.
    destruct (th_prog th), (th_answer th); simplify_eq. split_and!; simpl; [lia|done|].
    apply Forall_insert; [done|]. apply P_answered. exact (Forall_lookup_1 _ _ _ _ Hth Hi).
  - match goal with H : threads s !! i = Some ?t |- _ => rename H into Hi; rename t into th end.
    destruct (th_op th), (th_answer th); simplify_eq; (split_and!; simpl; [lia|done|]);
      (apply Forall_insert; [done|]; apply P_answered; exact (Forall_lookup_1 _ _ _ _ Hth Hi)).
Qed.

Lemma exec_inv cs s s' n :
  exec e cs s = Some s' → sys_inv n s → Forall choice_allowed cs →
  (n + N.of_nat (length cs) < 2 ^ 64)%N → sys_inv (n + N.of_nat (length cs)) s'.
Proof.
  revert s n. induction cs as [|c cs IH]; intros s n Hex Hinv Hall Hlt.
  - unfold exec in Hex; simpl in Hex. simplify_eq. simpl. by rewrite N.add_0_r.
  - apply Forall_cons in Hall as [Hc Hall]. rewrite exec_cons in Hex.
    destruct (sys_do e c s) as [s1|] eqn:Hdo; [|done]. simpl in Hex, Hlt |- *.
    apply sys_do_inv with (n := n) in Hdo; [|done..|lia].
    replace (n + N.of_nat (S (length cs)))%N
      with (n + 1 + N.of_nat (length cs))%N by lia.
    eapply IH; [done..|lia].
Qed.
End calls.

Lemma exec_calls_ok e cs s n s0 :
  exec e cs s0 = Some s → sys_inv call_ok (λ _, True) n s0 →
  (n + N.of_nat (length cs) < 2 ^ 64)%N →
  sys_inv call_ok (λ _, True) (n + N.of_nat (length cs)) s.
Proof.
  intros Hex Hinv Hlt. eapply (exec_inv e call_ok (λ _, True) (λ _, True)); try done.
  - apply call_ok_mono.
  - intros; apply spawned_ok.
  - intros th w p w' k Hs Hp _ Hk Hlt'. destruct (call_step _ _ _ _ _ _ Hs Hp Hk Hlt'). done.
  - apply Forall_forall. by intros [].
Qed.

Lemma exec_calls_quiet e cs s n s0 :
  exec e cs s0 = Some s → sys_inv call_quiet off n s0 →
  Forall (choice_allowed (λ o, o = OpShutdown)) cs → (n + N.of_nat (length cs) < 2 ^ 64)%N →
  sys_inv call_quiet off (n + N.of_nat (length cs)) s.
Proof.
  intros Hex Hinv Hall Hlt. eapply (exec_inv e call_quiet off); try done.
  - apply call_quiet_mono.
  - intros m o ->. by left.
  - intros. by eapply call_step_quiet.
Qed.

(** A call that was not publishing is quiet once the generation has moved on. *)
Lemma call_ok_quiet g g' th :
  call_ok g th → ¬ publishing th → (g < g')%N → call_quiet g' th.
Proof.
  intros [Hst Hc] Hp Hg. unfold call_quiet. destruct (decide (th_op th = OpShutdown)) as [Ho|Ho].
  { by rewrite Ho in *. }
  assert (disciplined (th_stamp th) (th_prog th) ∨ window (th_stamp th) (th_prog th)) as Hd
    by (destruct (th_op th); done).
  assert ((th_stamp th < g')%N ∧ disciplined (th_stamp th) (th_prog th)).
  { split; [lia|]. destruct Hd as [Hd|Hd]; [done|].
    unfold publishing in Hp. destruct (th_prog th) as [|B f k| | | | | | |]; try done.
    destruct Hd as [Hgen Hd]. split_and!; [done| |by left; apply Hd].
    intros m Hm. split; [|apply Hd]. intros Hoff.
    assert (Decision (off (fst (f m)))) as [?|?] by (unfold off; apply _); [done|].
    destruct Hp. by exists m. }
  destruct (th_op th); done.
Qed.

(** The first section of a new [Shutdown]. *)
Lemma exec_shutdown e s s1 n :
  exec e [Spawn OpShutdown; Run (length (threads s))] s = Some s1 →
  sys_inv call_ok (λ _, True) n s → (n + 1 < 2 ^ 64)%N →
  Forall (λ th, ¬ publishing th) (threads s) →
  sys_inv call_quiet off (n + 1) s1.
Proof.
  intros Hex (Hn & _ & Hth) Hlt Hp. unfold exec in Hex. simpl in Hex.
  rewrite lookup_app_r, Nat.sub_diag in Hex by lia. simpl in Hex. simplify_eq.
  unfold sys_inv; simpl. rewrite N.mod_small by lia. split_and!; [lia|done|].
  rewrite insert_app_r_alt, Nat.sub_diag by lia. simpl. apply Forall_app. split.
  - apply Forall_forall. intros th Hin. rewrite Forall_forall in Hth, Hp.
    eapply call_ok_quiet; [by apply Hth|by apply Hp|lia].
  - apply Forall_singleton. right. simpl.
    generalize (fwd (mgr (world s))), (proxy (mgr (world s))). intros [f|] [p|]; simpl; auto.
Qed.

(** C36: [Shutdown] is final.  Take any system the scheduler reaches, with any
    number of transitions in flight, timed out or not, and let [Shutdown] run
    its first critical section.  If no transition was caught between its
    [committed] check and the section that publishes its result, then
    whatever the transitions in flight do afterwards, in any interleaving and
    with any answers, the manager stays stopped with no proxy and no
    forwarder published until somebody starts a new transition. *)
Theorem shutdown_is_final (e : Env) (cs cs' : list choice) (s s1 s2 : Sys) :
  exec e cs init_sys = Some s →
  Forall (λ th, ¬ publishing th) (threads s) →
  exec e [Spawn OpShutdown; Run (length (threads s))] s = Some s1 →
  exec e cs' s1 = Some s2 →
  Forall (choice_allowed (λ o, o = OpShutdown)) cs' →
  (N.of_nat (length cs) + 1 + N.of_nat (length cs') < 2 ^ 64)%N →
  state (mgr (world s2)) = StateStopped ∧
  proxy (mgr (world s2)) = None ∧ fwd (mgr (world s2)) = None.
Proof.
  intros Hcs Hp Hsd Hcs' Hall Hlt.
  apply (exec_calls_ok _ _ _ 0) in Hcs; [|split_and!; [done|done|by constructor]|lia].
  pose proof (exec_shutdown _ _ _ _ Hsd Hcs ltac:(lia) Hp) as Hq.
  by destruct (exec_calls_quiet _ _ _ _ _ Hcs' Hq Hall ltac:(lia)) as (_ & Hoff & _).
Qed.

(** ** Schedules *)

(** Run the i-th call for [n] steps. *)
Definition steps (n i : nat) : list choice := replicate n (Run i).

(** What a run leaves: the manager's state and cores, the live cores, and what
    the callers were told. *)
Definition outcome (o : option Sys)
    : option (State * option core * option core * list core * list (option (option error))) :=
  s ← o;
  let m := mgr (world s) in
  Some (state m, proxy m, fwd m, elements (live (world s)), th_answer <$> threads s).

(** A proxy, and a forwarder that is about to check the generation. *)
Definition sched_fwd_started : list choice :=
  [Spawn OpStartProxy] ++ steps 8 0 ++ [Return 0; Spawn OpStartForwarder] ++ steps 12 1.

Definition sif_s : Sys :=
  default init_sys (exec (good_env "en0") (sched_fwd_started ++ [Timeout 1]) init_sys).
Definition sif_s1 : Sys :=
  default init_sys (exec (good_env "en0") [Spawn OpShutdown; Run (length (threads sif_s))] sif_s).
Definition sif_s2 : Sys :=
  default init_sys (exec (good_env "en0") (steps 1 2 ++ steps 2 1 ++ [Return 2]) sif_s1).

Lemma default_Some {A} (d : A) (o : option A) : bool_decide (is_Some o) = true → o = Some (default d o).
Proof. by destruct o. Qed.

Lemma shutdown_is_final_witness :
  state (mgr (world sif_s2)) = StateStopped ∧ proxy (mgr (world sif_s2)) = None ∧
  fwd (mgr (world sif_s2)) = None.
Proof.
  apply (shutdown_is_final (good_env "en0") (sched_fwd_started ++ [Timeout 1])
    (steps 1 2 ++ steps 2 1 ++ [Return 2]) sif_s sif_s1 sif_s2).
  - apply default_Some. vm_compute. reflexivity.
  - vm_compute. constructor; [intros H; exact H|]. constructor; [|constructor].
    intros (m & _ & Ho & Hn). exact (Hn Ho).
  - apply default_Some. vm_compute. reflexivity.
  - apply default_Some. vm_compute. reflexivity.
  - repeat constructor.
  - vm_compute. reflexivity.
Defined.

(** The window is real.  When [Shutdown] runs between the [committed] check of
    [StartForwarder] and the section that publishes its result, it returns
    success and the forwarder comes up after it: the manager ends in VPN mode
    with a live forwarder and without a proxy. *)
Theorem shutdown_publish_race :
  outcome (exec (good_env "en0")
    (sched_fwd_started ++ [Run 1; Spawn OpShutdown] ++ steps 2 2 ++ [Return 2; Run 1; Return 1])
    init_sys) =
  Some (StateVPN, None, Some 2, [2], [Some None; Some None; Some None]).
Proof. vm_compute. reflexivity. Qed.

(** A transition that outlived a [Shutdown] closes what later calls brought up:
    a [StartForwarder] stuck in the interface prober, its caller timed out,
    resumes after [Shutdown] and a new, successful [StartProxy]; it takes the
    new proxy, closes it and gives up as superseded, and the manager stays in
    proxy-only mode with no proxy at all. *)
Theorem stale_transition_closes_new_proxy :
  outcome (exec (good_env "en0")
    ([Spawn OpStartProxy] ++ steps 8 0 ++ [Return 0; Spawn OpStartForwarder; Run 1; Timeout 1] ++
     [Spawn OpShutdown] ++ steps 2 2 ++ [Return 2; Spawn OpStartProxy] ++ steps 8 3 ++ [Return 3] ++
     steps 25 1)
    init_sys) =
  Some (StateProxyOnly, None, None, [],
    [Some None; Some (Some (ErrTimedOut "start forwarder")); Some None; Some None]).
Proof. vm_compute. reflexivity. Qed.

(** Transitions are not serialised: two [StartProxy] calls, the first of them
    timed out while it cleans up routes, both see no proxy and both start one;
    the second to publish overwrites the first, which no later [Shutdown]
    closes, so a core stays live in a stopped manager. *)
Theorem overlapping_starts_leak_a_core :
  outcome (exec (good_env "en0")
    ([Spawn OpStartProxy; Run 0; Timeout 0; Spawn OpStartProxy] ++ steps 8 1 ++ [Return 1] ++
     steps 7 0 ++ [Spawn OpShutdown] ++ steps 2 2 ++ [Return 2])
    init_sys) =
  Some (StateStopped, None, None, [0],
    [Some (Some (ErrTimedOut "start proxy")); Some None; Some None]).
Proof. vm_compute. reflexivity. Qed.
