(* ===== verification/Registry.v ===== *)
(** * Registry: the protocol registry ([internal/protocol/protocol.go],
    [parseall.go])

    A protocol module is a record of the operations of its Go interfaces; the
    optional ones ([Relabeler], [Sniffer]) are options.  [Params], which only
    the module that made a profile looks at, is a type parameter.  Errors of
    the modules are strings.  The schemes of the shipped modules are ASCII,
    which the link matcher relies on. *)

From S2P Require Import Prelude GoStr.

Local Open Scope string_scope.
Local Open Scope list_scope.

Module Registry.

Inductive Kind := KindOutbound | KindEndpoint.
Inductive Input := InputLink | InputConfig.

#[export] Instance Kind_eq_dec : EqDecision Kind.
Proof. solve_decision. Defined.
#[export] Instance Input_eq_dec : EqDecision Input.
Proof. solve_decision. Defined.

Definition Kind_String (k : Kind) : string :=
  match k with KindEndpoint => "endpoint" | KindOutbound => "outbound" end.

Record Descriptor := {
  Name : string;
  Title : string;
  dKind : Kind;
  dInput : Input;
  Schemes : list string
}.

Record Profile (P : Type) := {
  Protocol : string;
  Label : string;
  Raw : string;
  Params : P
}.
Arguments Protocol {P} _.
Arguments Label {P} _.
Arguments Raw {P} _.
Arguments Params {P} _.

Inductive error :=
  | ErrUnsupported (got : string) (expected : list string)
  | ErrNoModules
  | ErrCannotRelabel (title : string)
  | ErrNoProfiles
  | ErrEmptyName
  | ErrDuplicateName (n : string)
  | ErrNoSchemes (n : string)
  | ErrDuplicateScheme (s prev n : string)
  | ErrNoSniffer (n : string)
  | ErrModule (e : string).

(** ** Finding where links start *)

(** One character of a case-insensitive literal, [c] in lower case: its upper
    and lower case, and the two letters outside ASCII that Unicode folds to
    ASCII ones, U+017F to s and U+212A to k. *)
Definition long_s : string := String "197" (String "191" "").
Definition kelvin : string := String "226" (String "132" (String "170" "")).

Definition fold_char (c : ascii) (s : string) : option string :=
  match s with
  | "" => None
  | String d s1 =>
      if Ascii.eqb (lower_byte d) c then Some s1
      else if Ascii.eqb c "s" then CutPrefix long_s s
      else if Ascii.eqb c "k" then CutPrefix kelvin s
      else None
  end.

(** The text after a match of the literal. *)
Fixpoint match_lit (p s : string) : option string :=
  match p with
  | "" => Some s
  | String c p' => r ← fold_char c s; match_lit p' r
  end.

Definition is_word_start (s : string) : bool :=
  match s with "" => false | String c _ => is_word_byte c end.

(** [(?i)\b(s1|s2|...)://] at the head of [s], [pw] telling whether the byte
    before it is a word byte. *)
Definition match_link (schemes : list string) (pw : bool) (s : string) : option string :=
  if Bool.eqb pw (is_word_start s) then None
  else head (omap (λ sch, match_lit (sch +:+ "://") s) schemes).

(** [linkRe.FindAllStringIndex]: where the successive matches start; [skip] bytes
    are still part of the current one. *)
Fixpoint find_all (schemes : list string) (skip : nat) (pw : bool) (pos : nat) (s : string)
    : list nat :=
  match s with
  | "" => []
  | String c s' =>
      match skip with
      | S n => find_all schemes n (is_word_byte c) (S pos) s'
      | O =>
          match match_link schemes pw s with
          | Some r =>
              pos :: find_all schemes (String.length s' - String.length r) (is_word_byte c) (S pos) s'
          | None => find_all schemes 0 (is_word_byte c) (S pos) s'
          end
      end
  end.

Definition longer_first (a b : string) : Prop :=
  (String.length b < String.length a)%nat ∨
  (String.length a = String.length b ∧ String.le a b).

#[export] Instance longer_first_dec : RelDecision longer_first.
Proof. intros a b. unfold longer_first. apply _. Defined.

(** The alternation of the matcher; [None] when there are no schemes. *)
Definition compileSchemeRe (schemes : list string) : option (list string) :=
  match schemes with [] => None | _ => Some (merge_sort longer_first schemes) end.

(** ** The registry *)

Section registry.
Context `{GoUnicode} {P : Type}.

Record Module_ := {
  descriptor : Descriptor;
  mParse : string → result string (Profile P);
  mSetLabel : option (string → string → result string string);
  mSniff : option (string → bool)
}.

Record Registry_ := {
  modules : list Module_;
  byName : gmap string Module_;
  byScheme : gmap string Module_;
  configs : list Module_;
  linkRe : option (list string)
}.

Definition empty_registry : Registry_ := {|
  modules := []; byName := ∅; byScheme := ∅; configs := []; linkRe := None |}.

(** The schemes of one link module. *)
Fixpoint add_schemes (m : Module_) (ss : list string) (bs : gmap string Module_)
    : result error (gmap string Module_) :=
  match ss with
  | [] => Ok bs
  | s :: ss =>
      let s := ToLower s in
      match bs !! s with
      | Some prev => Err (ErrDuplicateScheme s (Name (descriptor prev)) (Name (descriptor m)))
      | None => add_schemes m ss (<[s := m]> bs)
      end
  end.

Definition add_module (r : Registry_) (m : Module_) : result error Registry_ :=
  let d := descriptor m in
  if String.eqb (Name d) "" then Err ErrEmptyName
  else if bool_decide (is_Some (byName r !! Name d)) then Err (ErrDuplicateName (Name d))
  else
    let? (bs, cs) :=
      match dInput d with
      | InputLink =>
          if bool_decide (Schemes d = []) then Err (ErrNoSchemes (Name d))
          else let? bs := add_schemes m (Schemes d) (byScheme r) in Ok (bs, configs r)
      | InputConfig =>
          match mSniff m with
          | None => Err (ErrNoSniffer (Name d))
          | Some _ => Ok (byScheme r, configs r ++ [m])
          end
      end in
    Ok {| modules := modules r ++ [m]; byName := <[Name d := m]> (byName r);
          byScheme := bs; configs := cs; linkRe := linkRe r |}.

Fixpoint add_modules (r : Registry_) (ms : list Module_) : result error Registry_ :=
  match ms with
  | [] => Ok r
  | m :: ms => let? r := add_module r m in add_modules r ms
  end.

Definition Registry_Schemes (r : Registry_) : list string :=
  sort_strings (map_to_list (byScheme r)).*1.

Definition NewRegistry (ms : list Module_) : result error Registry_ :=
  match ms with
  | [] => Err ErrNoModules
  | _ =>
      let? r := add_modules empty_registry ms in
      Ok {| modules := modules r; byName := byName r; byScheme := byScheme r;
            configs := configs r; linkRe := compileSchemeRe (Registry_Schemes r) |}
  end.

Definition unsupported (r : Registry_) (got : string) : error :=
  ErrUnsupported got ((λ s, s +:+ "://") <$> Registry_Schemes r).

Definition sniffs (raw : string) (m : Module_) : bool :=
  match mSniff m with Some f => f raw | None => false end.

Definition module_parse (m : Module_) (raw : string) : result error (Profile P) :=
  match mParse m raw with Ok p => Ok p | Err e => Err (ErrModule e) end.

Definition Parse (r : Registry_) (raw : string) : result error (Profile P) :=
  let trimmed := TrimSpace raw in
  if String.eqb trimmed "" then Err (unsupported r "")
  else
    match Cut trimmed "://" with
    | Some (scheme, _) =>
        match byScheme r !! ToLower scheme with
        | Some m => module_parse m trimmed
        | None => Err (unsupported r scheme)
        end
    | None =>
        match List.find (sniffs trimmed) (configs r) with
        | Some m => module_parse m trimmed
        | None => Err (unsupported r "")
        end
    end.

Definition SetLabel (r : Registry_) (raw label : string) : result error string :=
  let? p := Parse r raw in
  match byName r !! Protocol p with
  | None => Err (unsupported r (Protocol p))
  | Some m =>
      match mSetLabel m with
      | None => Err (ErrCannotRelabel (Title (descriptor m)))
      | Some f =>
          match f (TrimSpace raw) (TrimSpace label) with
          | Ok s => Ok s
          | Err e => Err (ErrModule e)
          end
      end
  end.

Definition isWholeConfig (r : Registry_) (raw : string) : bool :=
  existsb (sniffs raw) (configs r).

(** The cutset [",;\r\n\t "]. *)
Definition link_separator (c : ascii) : bool :=
  bool_decide (c ∈ [","%char; ";"%char; CR; LF; TAB; " "%char]).

Definition clean_token (s : string) : string := TrimRightBytes link_separator (TrimSpace s).

(** [raw[loc[0]:end]] for every start. *)
Fixpoint slices (raw : string) (idx : list nat) : list string :=
  match idx with
  | [] => []
  | [i] => [String.substring i (String.length raw - i) raw]
  | i :: ((j :: _) as idx') => String.substring i (j - i) raw :: slices raw idx'
  end.

Definition splitLinks (r : Registry_) (raw : string) : list string :=
  match linkRe r with
  | None => [raw]
  | Some schemes =>
      match find_all schemes 0 false 0 raw with
      | [] => [raw]
      | idx => filter (λ tok, tok ≠ "") (clean_token <$> slices raw idx)
      end
  end.

Fixpoint parse_each (r : Registry_) (toks : list string) : result error (list (Profile P)) :=
  match toks with
  | [] => Ok []
  | tok :: toks =>
      let? p := Parse r tok in
      let? ps := parse_each r toks in
      Ok (p :: ps)
  end.

Fixpoint parse_raws (r : Registry_) (raws : list string) : result error (list (Profile P)) :=
  match raws with
  | [] => Ok []
  | raw :: raws =>
      let trimmed := TrimSpace raw in
      if String.eqb trimmed "" then parse_raws r raws
      else
        let? ps :=
          if isWholeConfig r trimmed then parse_each r [trimmed]
          else parse_each r (splitLinks r trimmed) in
        let? qs := parse_raws r raws in
        Ok (ps ++ qs)
  end.

Definition ParseAll (r : Registry_) (raws : list string) : result error (list (Profile P)) :=
  let? out := parse_raws r raws in
  match out with [] => Err ErrNoProfiles | _ => Ok out end.

End registry.

Arguments Module_ : clear implicits.
Arguments Registry_ : clear implicits.

(** ** Joining links and splitting them again *)

#[local] Arguments String.append !_ _ / : simpl nomatch.

(** A scheme as RFC 3986 has it, in lower case. *)
Definition scheme_byte (c : ascii) : bool :=
  in_range 97 122 c || is_digit c || bool_decide (c ∈ ["+"%char; "-"%char; "."%char]).
Definition good_scheme (s : string) : bool := str_forallb scheme_byte s.

Definition literal_byte (c : ascii) : bool :=
  scheme_byte c || bool_decide (c ∈ [":"%char; "/"%char]).

Lemma literal_not_LF c : literal_byte c = true → lower_byte LF ≠ c ∧ c ≠ LF.
Proof. intros Hc. split; [intros <-|intros ->]; discriminate. Qed.

Lemma fold_char_app c s t r : fold_char c s = Some r → fold_char c (s +:+ t) = Some (r +:+ t).
Proof.
  destruct s as [|d s]; [done|]. change (String d s +:+ t) with (String d (s +:+ t)). cbn [fold_char].
  destruct (Ascii.eqb (lower_byte d) c); [naive_solver|].
  change (String d (s +:+ t)) with (String d s +:+ t).
  destruct (Ascii.eqb c "s"); [apply CutPrefix_app|].
  destruct (Ascii.eqb c "k"); [apply CutPrefix_app|done].
Qed.

Lemma fold_char_length c s r : fold_char c s = Some r → (String.length r < String.length s)%nat.
Proof.
  destruct s as [|d s]; [done|]. cbn [fold_char].
  destruct (Ascii.eqb (lower_byte d) c); [intros; simplify_eq; simpl; lia|].
  destruct (Ascii.eqb c "s"); [|destruct (Ascii.eqb c "k"); [|done]];
    intros Hp%CutPrefix_Some; rewrite Hp, length_app_str; simpl; lia.
Qed.

(** A character of a literal never matches across a line feed. *)
Lemma fold_char_LF c s t r :
  literal_byte c = true → fold_char c (s +:+ String LF t) = Some r →
  ∃ r', fold_char c s = Some r' ∧ r = r' +:+ String LF t.
Proof.
  intros Hc. destruct s as [|d s].
  - change ("" +:+ String LF t) with (String LF t). cbn [fold_char].
    destruct (Ascii.eqb_spec (lower_byte LF) c) as [He|_].
    { by apply literal_not_LF in Hc as [? _]. }
    destruct (Ascii.eqb c "s"); [done|]. by destruct (Ascii.eqb c "k").
  - change (String d s +:+ String LF t) with (String d (s +:+ String LF t)). cbn [fold_char].
    destruct (Ascii.eqb _ c); [naive_solver|].
    change (String d (s +:+ String LF t)) with (String d s +:+ String LF t).
    destruct (Ascii.eqb c "s"); [by apply CutPrefix_LF|].
    destruct (Ascii.eqb c "k"); [by apply CutPrefix_LF|done].
Qed.

Lemma match_lit_app p s t r : match_lit p s = Some r → match_lit p (s +:+ t) = Some (r +:+ t).
Proof.
  revert s. induction p as [|c p IH]; intros s; simpl; [naive_solver|].
  destruct (fold_char c s) as [r1|] eqn:Hf; simpl; [|done].
  intros Hm. by rewrite (fold_char_app _ _ _ _ Hf); apply IH.
Qed.

Lemma match_lit_LF p s t r :
  str_forallb literal_byte p = true → match_lit p (s +:+ String LF t) = Some r →
  ∃ r', match_lit p s = Some r' ∧ r = r' +:+ String LF t.
Proof.
  revert s. induction p as [|c p IH]; intros s; simpl; [naive_solver|].
  intros [Hc Hp]%andb_true_iff.
  destruct (fold_char c (s +:+ String LF t)) as [r1|] eqn:Hf; simpl; [|done].
  apply fold_char_LF in Hf as (r2 & -> & ->); [|done]. simpl. by apply IH.
Qed.

Lemma match_lit_length p s r : match_lit p s = Some r → (String.length r <= String.length s)%nat.
Proof.
  revert s. induction p as [|c p IH]; intros s; simpl; [naive_solver|].
  destruct (fold_char c s) as [r1|] eqn:Hf; simpl; [|done].
  apply fold_char_length in Hf. intros ?%IH. lia.
Qed.

Lemma is_word_start_LF s t :
  is_word_start (s +:+ String LF t) = is_word_start s.
Proof. by destruct s. Qed.

Definition good_schemes (sch : list string) : Prop := Forall (λ s, good_scheme s = true) sch.

Lemma good_scheme_literal s : good_scheme s = true → str_forallb literal_byte (s +:+ "://") = true.
Proof.
  intros Hs. rewrite str_forallb_app. apply andb_true_iff. split; [|done].
  eapply str_forallb_impl; [|exact Hs]. unfold literal_byte. intros c ->. done.
Qed.

Lemma match_link_LF sch pw s t :
  good_schemes sch →
  match_link sch pw (s +:+ String LF t) = (λ r, r +:+ String LF t) <$> match_link sch pw s.
Proof.
  intros Hg. unfold match_link. rewrite is_word_start_LF.
  destruct (Bool.eqb pw (is_word_start s)); [done|].
  induction Hg as [|x sch Hx _ IH]; simpl; [done|].
  apply good_scheme_literal in Hx.
  destruct (match_lit (x +:+ "://") s) as [r|] eqn:Hm.
  - by rewrite (match_lit_app _ _ _ _ Hm).
  - destruct (match_lit (x +:+ "://") (s +:+ String LF t)) as [r|] eqn:Hm'; [|done].
    apply match_lit_LF in Hm' as (r' & ? & _); [congruence|done].
Qed.

Lemma match_link_length sch pw s r :
  match_link sch pw s = Some r → (String.length r <= String.length s)%nat.
Proof.
  unfold match_link. case_match; [done|].
  intros [x [_ Hx]]%head_Some_elem_of%list_elem_of_omap. by apply match_lit_length in Hx.
Qed.

(** The links of two lines are those of the first and those of the second. *)
Lemma find_all_LF sch skip pw pos s t :
  good_schemes sch → (skip <= String.length s)%nat →
  find_all sch skip pw pos (s +:+ String LF t) =
  find_all sch skip pw pos s ++ find_all sch 0 false (pos + String.length s + 1) t.
Proof.
  intros Hg. revert skip pw pos. induction s as [|c s IH]; intros skip pw pos Hskip.
  - simpl in Hskip. replace skip with 0%nat by lia.
    change ("" +:+ String LF t) with (String LF t). cbn [find_all String.length].
    pose proof (match_link_LF sch pw "" t Hg) as Hm. simpl in Hm. rewrite Hm.
    assert (match_link sch pw "" = None) as ->.
    { unfold match_link. case_match; [done|]. clear Hm. induction sch as [|x sch IHs]; [done|].
      apply Forall_cons in Hg as [_ Hg]. simpl.
      assert (match_lit (x +:+ "://") "" = None) as -> by (by destruct x). by apply IHs. }
    simpl. f_equal. lia.
  - change (String c s +:+ String LF t) with (String c (s +:+ String LF t)). cbn [find_all].
    destruct skip as [|skip].
    + change (String c (s +:+ String LF t)) with (String c s +:+ String LF t).
      rewrite match_link_LF by done.
      destruct (match_link sch pw (String c s)) as [r|] eqn:Hm; simpl fmap; cbn beta iota.
      * apply match_link_length in Hm. rewrite !length_app_str. simpl in Hm |- *.
        replace (String.length s + S (String.length t) - (String.length r + S (String.length t)))%nat
          with (String.length s - String.length r)%nat by lia.
        f_equal. rewrite IH by lia. do 2 f_equal. lia.
      * rewrite IH by lia. f_equal. f_equal. simpl. lia.
    + simpl in Hskip. rewrite IH by lia. f_equal. f_equal. simpl. lia.
Qed.

Lemma find_all_nil skip pw pos s : find_all [] skip pw pos s = [].
Proof.
  revert skip pw pos. induction s as [|c s IH]; intros skip pw pos; cbn [find_all]; [done|].
  assert (match_link [] pw (String c s) = None) as -> by (unfold match_link; by case_match).
  destruct skip; apply IH.
Qed.

Lemma find_all_shift sch skip pw pos s :
  find_all sch skip pw pos s = (λ i, pos + i)%nat <$> find_all sch skip pw 0 s.
Proof.
  revert skip pw pos. induction s as [|c s IH]; intros skip pw pos; [done|]. simpl.
  assert (∀ k pw, find_all sch k pw (S pos) s = (λ i, pos + i)%nat <$> find_all sch k pw 1 s) as Hs.
  { intros k pw'. rewrite (IH k pw' (S pos)), (IH k pw' 1%nat), <- list_fmap_compose.
    apply list_fmap_ext. intros; simpl; lia. }
  destruct skip; [|apply Hs]. destruct (match_link _ _ _); [|apply Hs].
  rewrite fmap_cons. f_equal; [lia|apply Hs].
Qed.

(** A clean link: one match, at its start, and nothing the splitter trims. *)
Definition clean_link (sch : list string) (l : string) : Prop :=
  find_all sch 0 false 0 l = [0%nat] ∧ TrimRightSpace l = l ∧ TrimRightBytes link_separator l = l ∧
  (3 <= String.length l)%nat.

Lemma clean_link_word sch l : clean_link sch l → ∃ c s, l = String c s ∧ is_word_byte c = true.
Proof.
  intros (Hf & _ & _ & Hl). destruct l as [|c s]; [simpl in Hl; lia|]. exists c, s. split; [done|].
  simpl in Hf. destruct (match_link sch false (String c s)) as [r|] eqn:Hm.
  - unfold match_link in Hm. simpl in Hm. destruct (is_word_byte c); done.
  - rewrite find_all_shift in Hf. by destruct (find_all sch 0 (is_word_byte c) 0 s).
Qed.

Lemma clean_token_LF sch l : clean_link sch l → clean_token (l +:+ nl) = l ∧ clean_token l = l ∧ l ≠ "".
Proof.
  intros Hc. destruct (clean_link_word _ _ Hc) as (c & s & -> & Hw).
  destruct Hc as (_ & Ht & Hb & _). unfold clean_token, TrimSpace. split_and!; [| |done].
  - change (String c s +:+ nl) with (String c (s +:+ nl)). rewrite TrimLeftSpace_word by done.
    change (String c (s +:+ nl)) with (String c s +:+ String LF "").
    by rewrite TrimRightSpace_snoc, Ht.
  - by rewrite TrimLeftSpace_word, Ht.
Qed.

(** Where the links of a newline-separated blob start. *)
Fixpoint link_starts (pos : nat) (ls : list string) : list nat :=
  match ls with
  | [] => []
  | l :: ls => pos :: link_starts (pos + String.length l + 1) ls
  end.

Lemma find_all_Join sch ls pos :
  good_schemes sch → Forall (clean_link sch) ls →
  find_all sch 0 false pos (Join nl ls) = link_starts pos ls.
Proof.
  intros Hg Hls. revert pos. induction Hls as [|l ls [Hl _] Hls IH]; intros pos; [done|].
  destruct ls as [|l' ls].
  - cbn [Join link_starts]. rewrite find_all_shift, Hl. simpl. f_equal. lia.
  - change (Join nl (l :: l' :: ls)) with (l +:+ String LF (Join nl (l' :: ls))).
    rewrite find_all_LF by (done || lia). rewrite IH.
    rewrite find_all_shift, Hl. simpl. f_equal. lia.
Qed.

Lemma slices_Join pre ls :
  slices (pre +:+ Join nl ls) (link_starts (String.length pre) ls) =
  match ls with
  | [] => []
  | _ => ((λ l, l +:+ nl) <$> removelast ls) ++ [List.last ls ""]
  end.
Proof.
  revert pre. induction ls as [|l ls IH]; intros pre; [done|]. destruct ls as [|l' ls].
  - cbn [link_starts slices Join removelast List.last fmap list_fmap app].
    rewrite length_app_str, substring_skip.
    replace (String.length pre + String.length l - String.length pre)%nat with (String.length l) by lia.
    by rewrite substring_whole.
  - change (Join nl (l :: l' :: ls)) with (l +:+ nl +:+ Join nl (l' :: ls)).
    change (removelast (l :: l' :: ls)) with (l :: removelast (l' :: ls)).
    change (List.last (l :: l' :: ls) "") with (List.last (l' :: ls) "").
    specialize (IH (pre +:+ (l +:+ nl))). rewrite !app_assoc_str in IH.
    rewrite !length_app_str in IH. change (String.length nl) with 1%nat in IH.
    rewrite Nat.add_assoc in IH.
    rewrite fmap_cons, <- app_comm_cons, <- IH. clear IH.
    cbn [link_starts slices]. f_equal.
    rewrite substring_skip.
    replace (String.length pre + String.length l + 1 - String.length pre)%nat
      with (String.length (l +:+ nl)) by (rewrite length_app_str; simpl; lia).
    rewrite <- app_assoc_str. apply substring_prefix.
Qed.

Section roundtrip.
Context `{GoUnicode} {P : Type} (r : Registry_ P) (sch : list string).
Context (Hsch : linkRe r = Some sch) (Hgood : good_schemes sch).

Lemma clean_slices ls :
  Forall (clean_link sch) ls → ls ≠ [] →
  filter (λ tok, tok ≠ "") (clean_token <$> (((λ l, l +:+ nl) <$> removelast ls) ++ [List.last ls ""])) = ls.
Proof.
  intros Hls. induction Hls as [|l ls Hl Hls IH]; [done|]. intros _.
  destruct (clean_token_LF _ _ Hl) as (Hnl & Hid & Hne). destruct ls as [|l' ls].
  - cbn [removelast List.last fmap list_fmap app]. by rewrite Hid, filter_cons_True.
  - change (removelast (l :: l' :: ls)) with (l :: removelast (l' :: ls)).
    change (List.last (l :: l' :: ls) "") with (List.last (l' :: ls) "").
    rewrite fmap_cons, <- app_comm_cons, fmap_cons, Hnl, filter_cons_True by done.
    f_equal. by apply IH.
Qed.

Lemma splitLinks_Join ls :
  Forall (clean_link sch) ls → ls ≠ [] → splitLinks r (Join nl ls) = ls.
Proof using Hsch Hgood.
  intros Hls Hne. unfold splitLinks. rewrite Hsch, find_all_Join by done.
  pose proof (slices_Join "" ls) as Hs. change ("" +:+ Join nl ls) with (Join nl ls) in Hs.
  change (String.length "") with 0%nat in Hs. destruct ls as [|l ls]; [done|].
  cbn [link_starts] in Hs |- *. cbn beta iota. rewrite Hs. by apply clean_slices.
Qed.

Lemma TrimSpace_Join ls : Forall (clean_link sch) ls → ls ≠ [] → TrimSpace (Join nl ls) = Join nl ls.
Proof.
  intros Hls Hne. unfold TrimSpace.
  assert (TrimLeftSpace (Join nl ls) = Join nl ls) as ->.
  { destruct Hls as [|l ls Hl _]; [done|]. destruct (clean_link_word _ _ Hl) as (c & s & -> & Hw).
    destruct ls; simpl; by apply TrimLeftSpace_word. }
  induction Hls as [|l ls Hl Hls IH]; [done|]. destruct ls as [|l' ls]; [apply Hl|].
  change (Join nl (l :: l' :: ls)) with (l +:+ nl +:+ Join nl (l' :: ls)).
  rewrite <- app_assoc_str. apply TrimRightSpace_app; [|by apply IH].
  apply Forall_cons in Hls as [(_ & _ & _ & Hl') _].
  destruct ls; simpl; [done|]. rewrite !length_app_str. lia.
Qed.

Lemma Join_nonempty ls : Forall (clean_link sch) ls → ls ≠ [] → Join nl ls ≠ "".
Proof.
  intros Hls Hne. destruct Hls as [|l ls Hl _]; [done|].
  destruct (clean_link_word _ _ Hl) as (c & s & -> & _). by destruct ls.
Qed.

Lemma parse_each_cons tok toks :
  parse_each r (tok :: toks) = (let? p := Parse r tok in let? ps := parse_each r toks in Ok (p :: ps)).
Proof. done. Qed.

Lemma TrimSpace_clean l : clean_link sch l → TrimSpace l = l.
Proof. intros Hl. apply (TrimSpace_Join [l]); [by apply Forall_singleton|done]. Qed.

Lemma parse_raws_clean ls :
  Forall (clean_link sch) ls → Forall (λ l, isWholeConfig r l = false) ls →
  parse_raws r ls = parse_each r ls.
Proof using Hsch Hgood.
  intros Hls Hc. induction Hls as [|l ls Hl Hls IH]; [done|].
  apply Forall_cons in Hc as [Hcl Hc]. cbn [parse_raws].
  rewrite TrimSpace_clean by done. destruct (clean_token_LF _ _ Hl) as (_ & _ & Hne).
  rewrite (proj2 (String.eqb_neq _ _) Hne), Hcl.
  assert (splitLinks r l = [l]) as ->
    by (apply (splitLinks_Join [l]); [by apply Forall_singleton|done]).
  rewrite IH by done. cbn [parse_each]. destruct (Parse r l); simpl; [|done].
  by destruct (parse_each r ls).
Qed.

End roundtrip.

(** ** What a registry holds *)

Section dispatch.
Context `{GoUnicode} {P : Type}.
Implicit Types (m : Module_ P) (r : Registry_ P).

(** The link module [m] claims the lower-case scheme [s]. *)
Definition claims m (s : string) : Prop :=
  dInput (descriptor m) = InputLink ∧ s ∈ ToLower <$> Schemes (descriptor m).

Lemma add_schemes_spec m ss bs bs' :
  add_schemes m ss bs = Ok bs' →
  (∀ s, s ∈ ToLower <$> ss → bs !! s = None) ∧
  (∀ s m', bs' !! s = Some m' ↔ bs !! s = Some m' ∨ m' = m ∧ s ∈ ToLower <$> ss).
Proof.
  revert bs. induction ss as [|s0 ss IH]; intros bs; cbn [add_schemes].
  - intros [= <-]. split; [intros s Hs; by apply elem_of_nil in Hs|].
    intros s m'. split; [by left|]. intros [?|[_ Hs]]; [done|by apply elem_of_nil in Hs].
  - destruct (bs !! ToLower s0) as [m0|] eqn:Hs0; [done|].
    intros [Hnone Hlk]%IH. rewrite fmap_cons. split.
    + intros s [->|Hs]%elem_of_cons; [done|].
      apply Hnone, lookup_insert_None in Hs. naive_solver.
    + intros s m'. rewrite Hlk, lookup_insert_Some, elem_of_cons.
      destruct (decide (s = ToLower s0)) as [->|Hne]; [|naive_solver].
      split; [naive_solver|]. intros [?|[-> _]]; [congruence|]. by left; left.
Qed.

(** The registry holds exactly the modules [ms], under their names and schemes. *)
Record holds (ms : list (Module_ P)) r : Prop := {
  holds_modules : modules r = ms;
  holds_names : NoDup ((λ m, Name (descriptor m)) <$> ms);
  holds_named : Forall (λ m, Name (descriptor m) ≠ "") ms;
  holds_byName : ∀ n m, byName r !! n = Some m ↔ m ∈ ms ∧ Name (descriptor m) = n;
  holds_byScheme : ∀ s m, byScheme r !! s = Some m ↔ m ∈ ms ∧ claims m s;
  holds_configs : configs r = filter (λ m, dInput (descriptor m) = InputConfig) ms;
  holds_sniffers : Forall (λ m, dInput (descriptor m) = InputConfig → is_Some (mSniff m)) ms
}.

Lemma holds_empty : holds [] empty_registry.
Proof.
  split; try done; [constructor|..]; intros ??; simpl; rewrite lookup_empty; set_solver.
Qed.

Lemma add_module_holds ms m r r' : add_module r m = Ok r' → holds ms r → holds (ms ++ [m]) r'.
Proof.
  unfold add_module. intros Hadd [Hm Hnd Hne Hn Hs Hc Hsn].
  destruct (String.eqb (Name (descriptor m)) "") eqn:Hname; [done|]. apply String.eqb_neq in Hname.
  case_bool_decide as Hdup; [done|]. apply eq_None_not_Some in Hdup.
  apply rbind_Ok_inv in Hadd as ([bs cs] & Hbc & [= <-]).
  assert ((∀ s m', bs !! s = Some m' ↔ m' ∈ ms ++ [m] ∧ claims m' s) ∧
    cs = filter (λ m, dInput (descriptor m) = InputConfig) (ms ++ [m]) ∧
    (dInput (descriptor m) = InputConfig → is_Some (mSniff m))) as (Hbs & Hcs & Hsniff).
  { rewrite filter_app, <- Hc. unfold claims. setoid_rewrite elem_of_app.
    setoid_rewrite list_elem_of_singleton.
    destruct (dInput (descriptor m)) eqn:Hin.
    - case_bool_decide; [done|]. apply rbind_Ok_inv in Hbc as (bs' & Hbs & [= -> ->]).
      apply add_schemes_spec in Hbs as [_ Hbs]. split_and!; [|by rewrite filter_cons_False, app_nil_r
        by (rewrite Hin; done)|done].
      intros s m'. rewrite Hbs, Hs. unfold claims. split.
      + intros [[? ?]|[-> ?]]; [by split; [left|]|by split; [right|]].
      + intros [[?| ->] [? ?]]; [by left|by right].
    - destruct (mSniff m); [|done]. simplify_eq. split_and!;
        [|by rewrite filter_cons_True|by eexists].
      intros s m'. rewrite Hs. unfold claims. split.
      + intros [? ?]. by split; [left|].
      + intros [[?| ->] [? ?]]; [done|congruence]. }
  assert (Name (descriptor m) ∉ ((λ m, Name (descriptor m)) <$> ms)) as Hnew.
  { rewrite list_elem_of_fmap. intros (m' & Heq & Hin).
    assert (byName r !! Name (descriptor m) = Some m') by (by apply Hn). congruence. }
  split; simpl; try done.
  - by rewrite Hm.
  - rewrite fmap_app. apply NoDup_app. split_and!; [done| |apply NoDup_singleton].
    intros n Hn' [= ->]%list_elem_of_singleton. done.
  - apply Forall_app. by repeat constructor.
  - intros n m'. rewrite lookup_insert_Some, Hn, elem_of_app, list_elem_of_singleton.
    split; [intros [[? ->]|[? [? ?]]]; auto|]. intros [[Hin| ->] Heq].
    + right. split; [|done]. intros Heq'. apply Hnew. rewrite Heq', <- Heq.
      apply list_elem_of_fmap. by eexists.
    + by left.
  - apply Forall_app. by repeat constructor.
Qed.

Lemma add_modules_holds ms ms' r r' :
  add_modules r ms' = Ok r' → holds ms r → holds (ms ++ ms') r'.
Proof.
  revert ms r. induction ms' as [|m ms' IH]; intros ms r; cbn [add_modules].
  - intros [= <-]. by rewrite app_nil_r.
  - intros (r1 & Hr1 & Hrest)%rbind_Ok_inv Hh.
    rewrite (cons_middle m ms ms'), app_assoc. eapply IH; [exact Hrest|].
    by eapply add_module_holds.
Qed.

Lemma NewRegistry_holds ms r :
  NewRegistry ms = Ok r → holds ms r ∧ linkRe r = compileSchemeRe (Registry_Schemes r).
Proof.
  unfold NewRegistry. intros Hnew.
  assert (ms ≠ [] ∧ (let? r := add_modules empty_registry ms in
    Ok {| modules := modules r; byName := byName r; byScheme := byScheme r;
          configs := configs r; linkRe := compileSchemeRe (Registry_Schemes r) |}) = Ok r)
    as [_ Hr] by (by destruct ms).
  apply rbind_Ok_inv in Hr as (r1 & Hr1 & [= <-]).
  apply (add_modules_holds []) in Hr1; [|apply holds_empty].
  destruct Hr1. split; [by split|done].
Qed.

(** Every profile is some module's. *)
Lemma Parse_module ms r raw p : holds ms r → Parse r raw = Ok p →
  TrimSpace raw ≠ "" ∧ ∃ m, m ∈ ms ∧ mParse m (TrimSpace raw) = Ok p.
Proof.
  intros Hh. unfold Parse. destruct (String.eqb_spec (TrimSpace raw) "") as [|Hne]; [done|]. split; [done|].
  assert (∀ m, module_parse m (TrimSpace raw) = Ok p → mParse m (TrimSpace raw) = Ok p) as Hmp.
  { intros m. unfold module_parse. destruct (mParse m _); [by intros [= ->]|done]. }
  destruct (Cut _ _) as [[sch rest]|].
  - destruct (byScheme r !! _) as [m|] eqn:Hm; [|done].
    apply (holds_byScheme _ _ Hh) in Hm as [Hin _]. exists m. split; [done|]. by apply Hmp.
  - destruct (List.find _ _) as [m|] eqn:Hm; [|done].
    apply find_some in Hm as [Hin _]. rewrite (holds_configs _ _ Hh) in Hin.
    apply list_elem_of_In, list_elem_of_filter in Hin as [_ Hin]. exists m. split; [done|]. by apply Hmp.
Qed.

Lemma parse_each_modules ms r toks ps : holds ms r → parse_each r toks = Ok ps →
  Forall (λ p, ∃ raw, Parse r raw = Ok p) ps.
Proof.
  intros _. revert ps. induction toks as [|t toks IH]; intros ps; cbn [parse_each]; [by intros [= <-]|].
  intros (p & Hp & (ps' & Hps & [= <-])%rbind_Ok_inv)%rbind_Ok_inv. constructor; [by exists t|by apply IH].
Qed.

Lemma ParseAll_modules ms r raws ps : holds ms r → ParseAll r raws = Ok ps →
  ps ≠ [] ∧ Forall (λ p, ∃ raw, Parse r raw = Ok p) ps.
Proof.
  intros Hh. unfold ParseAll. intros (out & Hout & Hne)%rbind_Ok_inv.
  assert (out = ps ∧ ps ≠ []) as [-> Hps] by (destruct out; [done|by injection Hne as <-]). split; [done|].
  clear Hne Hps. revert ps Hout. induction raws as [|raw raws IH]; intros ps; cbn [parse_raws]; [by intros [= <-]|].
  cbv zeta. destruct (String.eqb _ _); [by eauto|].
  intros (ps1 & H1 & (ps2 & H2 & [= <-])%rbind_Ok_inv)%rbind_Ok_inv. apply Forall_app_2; [|by apply IH].
  destruct (isWholeConfig _ _); by eapply parse_each_modules.
Qed.

Lemma compileSchemeRe_good ss sch :
  compileSchemeRe ss = Some sch → Forall (λ s, good_scheme s = true) ss → good_schemes sch.
Proof.
  unfold compileSchemeRe, good_schemes. destruct ss as [|s ss]; [done|].
  intros [= <-] Hg. by rewrite merge_sort_Permutation.
Qed.

End dispatch.

(** Dispatch: a registry that [NewRegistry] accepts has non-empty, distinct
    names and at most one module per scheme; a key with a scheme goes to the
    one link module that claims it, whatever the case of either, trimmed and
    with nobody else asked, and is refused, naming the scheme, when there is
    none. *)
Theorem registry_dispatch `{GoUnicode} {P : Type} (ms : list (Module_ P)) (r : Registry_ P)
    (raw scheme rest : string) :
  NewRegistry ms = Ok r → Cut (TrimSpace raw) "://" = Some (scheme, rest) →
  NoDup ((λ m, Name (descriptor m)) <$> ms) ∧
  (∀ m m', m ∈ ms → m' ∈ ms → claims m (ToLower scheme) → claims m' (ToLower scheme) → m = m') ∧
  (∀ m, m ∈ ms → claims m (ToLower scheme) → Parse r raw = module_parse m (TrimSpace raw)) ∧
  (Forall (λ m, ¬ claims m (ToLower scheme)) ms → Parse r raw = Err (unsupported r scheme)).
Proof.
  intros [Hh _]%NewRegistry_holds Hcut.
  assert (String.eqb (TrimSpace raw) "" = false) as Hne.
  { apply String.eqb_neq. intros Hn. by rewrite Hn in Hcut. }
  unfold Parse. rewrite Hne, Hcut. split_and!.
  - apply Hh.
  - intros m m' Hm Hm' Hc Hc'.
    assert (byScheme r !! ToLower scheme = Some m) by (by apply (holds_byScheme _ _ Hh)).
    assert (byScheme r !! ToLower scheme = Some m') by (by apply (holds_byScheme _ _ Hh)).
    congruence.
  - intros m Hm Hc.
    by rewrite (proj2 (holds_byScheme _ _ Hh (ToLower scheme) m) (conj Hm Hc)).
  - intros Hall. destruct (byScheme r !! ToLower scheme) as [m|] eqn:Hs; [|done].
    apply (holds_byScheme _ _ Hh) in Hs as [Hm Hc]. rewrite Forall_forall in Hall.
    by destruct (Hall m Hm).
Qed.

(** A registry with two modules, for the witnesses. *)
#[local] Existing Instance ascii_only.

Definition rw_module (n : string) (ss : list string) : Module_ string := {|
  descriptor := {| Name := n; Title := n; dKind := KindOutbound; dInput := InputLink; Schemes := ss |};
  mParse := λ raw, Ok {| Protocol := n; Label := n; Raw := raw; Params := "" |};
  mSetLabel := None; mSniff := None |}.

Definition rw_modules : list (Module_ string) :=
  [rw_module "hysteria" ["hysteria"]; rw_module "hysteria2" ["hysteria2"; "HY2"]].

Definition rw_registry : Registry_ string :=
  match NewRegistry rw_modules with Ok r => r | Err _ => empty_registry end.

Lemma rw_new : NewRegistry rw_modules = Ok rw_registry.
Proof. vm_compute. reflexivity. Qed.

Lemma registry_dispatch_witness :
  Parse rw_registry " Hy2://a#b " =
  Ok {| Protocol := "hysteria2"; Label := "hysteria2"; Raw := "Hy2://a#b"; Params := "" |}.
Proof.
  destruct (registry_dispatch rw_modules rw_registry " Hy2://a#b " "Hy2" "a#b"
    rw_new eq_refl) as (_ & _ & Hp & _).
  rewrite (Hp (rw_module "hysteria2" ["hysteria2"; "HY2"])); [reflexivity|right; left|].
  split; [reflexivity|]. right. left.
Defined.

(** The schemes the link matcher of a registry looks for. *)
Definition link_schemes {P} (r : Registry_ P) : list string := default [] (linkRe r).

(** Saved keys load back: the keys of a set, each a clean link (one that starts
    with a registered scheme, contains no further link and neither starts nor
    ends with what the splitter trims), joined by line feeds the way the
    profile store and the executor join them, are split into exactly these
    keys, in order, and parse to the same profiles or the same error,
    provided no config sniffer claims them. *)
Theorem saved_links_reload `{GoUnicode} {P : Type} (ms : list (Module_ P)) (r : Registry_ P)
    (ls : list string) :
  NewRegistry ms = Ok r → Forall (λ s, good_scheme s = true) (Registry_Schemes r) →
  Forall (clean_link (link_schemes r)) ls → ls ≠ [] →
  Forall (λ l, isWholeConfig r l = false) (Join nl ls :: ls) →
  splitLinks r (Join nl ls) = ls ∧ ParseAll r [Join nl ls] = ParseAll r ls.
Proof.
  intros [_ Hre]%NewRegistry_holds Hg Hls Hne [Hcj Hcl]%Forall_cons.
  unfold link_schemes in Hls. destruct (linkRe r) as [sch|] eqn:Hsch; simpl in Hls.
  2: { destruct Hls as [|l ls (Hf & _) _]; [done|]. by rewrite find_all_nil in Hf. }
  symmetry in Hre. pose proof (compileSchemeRe_good _ _ Hre Hg) as Hgood.
  assert (splitLinks r (Join nl ls) = ls) as Hsplit by (by eapply splitLinks_Join).
  split; [done|]. unfold ParseAll. rewrite (parse_raws_clean r sch Hsch Hgood ls) by done.
  cbn [parse_raws]. rewrite (TrimSpace_Join sch) by done.
  rewrite (proj2 (String.eqb_neq _ _) (Join_nonempty sch _ Hls Hne)), Hcj, Hsplit.
  destruct (parse_each r ls) as [ps|e]; simpl; [by rewrite app_nil_r|done].
Qed.

Lemma saved_links_reload_witness :
  splitLinks rw_registry (Join nl ["hy2://a#Auto best"; "hysteria2://b"; "hysteria://c"]) =
  ["hy2://a#Auto best"; "hysteria2://b"; "hysteria://c"].
Proof.
  apply (saved_links_reload rw_modules rw_registry
    ["hy2://a#Auto best"; "hysteria2://b"; "hysteria://c"]);
    [exact rw_new|vm_compute; repeat constructor| |discriminate|vm_compute; repeat constructor].
  repeat (constructor; [vm_compute; repeat split; lia|]). constructor.
Defined.

(** [ParseAll] is all or nothing: a result is never empty, and one key that no
    module accepts refuses the whole batch. *)
Theorem ParseAll_all_or_nothing `{GoUnicode} {P : Type} (r : Registry_ P) (raws : list string) :
  match ParseAll r raws with
  | Ok ps => ps ≠ [] ∧
      Forall (λ raw, TrimSpace raw = "" ∨
        ∀ tok, tok ∈ (if isWholeConfig r (TrimSpace raw) then [TrimSpace raw]
                      else splitLinks r (TrimSpace raw)) →
        ∃ p, Parse r tok = Ok p ∧ p ∈ ps) raws
  | Err e => e = ErrNoProfiles ∨ ∃ raw tok, raw ∈ raws ∧ Parse r tok = Err e
  end.
Proof.
  assert (∀ toks, match parse_each r toks with
    | Ok ps => ∀ tok, tok ∈ toks → ∃ p, Parse r tok = Ok p ∧ p ∈ ps
    | Err e => ∃ tok, tok ∈ toks ∧ Parse r tok = Err e end) as Heach.
  { induction toks as [|tok toks IH]; cbn [parse_each]; [intros tok Ht; by apply elem_of_nil in Ht|].
    destruct (Parse r tok) as [p|e] eqn:Hp; simpl; [|exists tok; split; [left|done]].
    destruct (parse_each r toks) as [ps|e]; simpl.
    - intros t [->|Ht]%elem_of_cons; [exists p; split; [done|left]|].
      destruct (IH t Ht) as (q & ? & ?). exists q. split; [done|by right].
    - destruct IH as (t & ? & ?). exists t. split; [by right|done]. }
  unfold ParseAll.
  assert (match parse_raws r raws with
    | Ok ps => Forall (λ raw, TrimSpace raw = "" ∨
        ∀ tok, tok ∈ (if isWholeConfig r (TrimSpace raw) then [TrimSpace raw]
                      else splitLinks r (TrimSpace raw)) → ∃ p, Parse r tok = Ok p ∧ p ∈ ps) raws
    | Err e => ∃ raw tok, raw ∈ raws ∧ Parse r tok = Err e end) as Hraws.
  2: { destruct (parse_raws r raws) as [ps|e]; simpl; [|by right]. destruct ps; simpl; [by left|done]. }
  induction raws as [|raw raws IH]; cbn [parse_raws]; [constructor|].
  destruct (String.eqb (TrimSpace raw) "") eqn:Hempty.
  { apply String.eqb_eq in Hempty. destruct (parse_raws r raws) as [ps|e]; [by constructor; [left|]|].
    destruct IH as (raw' & tok & ? & ?). exists raw', tok. split; [by right|done]. }
  set (toks := if isWholeConfig r (TrimSpace raw) then [TrimSpace raw] else splitLinks r (TrimSpace raw)).
  replace (if isWholeConfig r (TrimSpace raw) then parse_each r [TrimSpace raw]
           else parse_each r (splitLinks r (TrimSpace raw))) with (parse_each r toks)
    by (unfold toks; by destruct (isWholeConfig r (TrimSpace raw))).
  specialize (Heach toks). destruct (parse_each r toks) as [ps|e]; simpl.
  2: { destruct Heach as (tok & _ & ?). exists raw, tok. split; [left|done]. }
  destruct (parse_raws r raws) as [qs|e]; simpl.
  2: { destruct IH as (raw' & tok & ? & ?). exists raw', tok. split; [by right|done]. }
  constructor.
  - right. intros tok Ht. destruct (Heach tok Ht) as (p & ? & ?). exists p.
    split; [done|]. apply elem_of_app. by left.
  - eapply Forall_impl; [exact IH|]. intros raw' [?|Hr]; [by left|right].
    intros tok Ht. destruct (Hr tok Ht) as (p & ? & ?). exists p. split; [done|].
    apply elem_of_app. by right.
Qed.

End Registry.
