(* ===== verification/Schema.v ===== *)
(** * Schema: the sing-box configuration as data
    ([internal/singbox/schema.go], [schema_wireguard.go], [render.go])

    The structs of the generated configuration.  The [Type] field of an inbound
    or outbound is its constructor; an outbound's tag, server, timeout and
    bound interface, which every dialing outbound has, are a record of their
    own; fields that no code sets are left out.  The JSON encoding is the
    standard library's and is not modelled. *)

From S2P Require Import Prelude GoStr.

Local Open Scope string_scope.
Local Open Scope list_scope.

Module Schema.

(** ** Outbounds and endpoints *)

Record UTLS := { utlsEnabled : bool; Fingerprint : string }.
Record Reality := { realityEnabled : bool; realityPublicKey : string; ShortID : string;
                    ClientVersion : string }.
Record TLS := {
  tlsEnabled : bool;
  ServerName : string;
  Insecure : bool;
  ALPN : list string;
  tlsUTLS : option UTLS;
  tlsReality : option Reality
}.

Record Transport := {
  transportType : string;
  ServiceName : string;
  transportPath : string;
  transportHost : list string;
  Headers : gmap string string
}.

Record XHTTP := { xPath : string; xHost : string; xMode : string; xExtra : string }.
Record Hysteria2Obfs := { obfsType : string; obfsPassword : string }.

(** What every dialing outbound carries. *)
Record Dialer := {
  dTag : string;
  Server : string;
  ServerPort : Z;
  ConnectTimeout : string;
  BindInterface : string
}.

Record WireGuardPeer := {
  peerAddress : string;
  peerPort : Z;
  peerPublicKey : string;
  peerPreSharedKey : string;
  peerAllowedIPs : list string;
  PersistentKeepaliveInterval : Z
}.

Inductive Node :=
  | VLESSOutbound (d : Dialer) (UUID Flow : string) (tls : option TLS) (transport : option Transport)
  | VMessOutbound (d : Dialer) (UUID Security : string) (AlterID : Z) (Network : string)
      (tls : option TLS) (transport : option Transport) (PacketEncoding : string)
  | TrojanOutbound (d : Dialer) (Password Network : string) (tls : option TLS)
      (transport : option Transport)
  | ShadowsocksOutbound (d : Dialer) (Method Password Plugin PluginOpts Network : string)
  | HysteriaOutbound (d : Dialer) (UpMbps DownMbps : Z) (Obfs AuthStr Network : string)
      (tls : option TLS)
  | Hysteria2Outbound (d : Dialer) (UpMbps DownMbps : Z) (obfs : option Hysteria2Obfs)
      (Password Network : string) (tls : option TLS)
  | TUICOutbound (d : Dialer) (UUID Password CongestionControl UDPRelayMode : string)
      (ZeroRTTHandshake : bool) (Heartbeat Network : string) (tls : option TLS)
  | AnyTLSOutbound (d : Dialer) (Password : string) (tls : option TLS)
      (IdleSessionCheckInterval IdleSessionTimeout : string) (MinIdleSession : Z)
  | XHTTPOutbound (d : Dialer) (UUID : string) (tls : option TLS) (xhttp : XHTTP)
  | WireGuardEndpoint (Tag : string) (MTU : Z) (Address : list string) (PrivateKey : string)
      (ListenPort : Z) (Peers : list WireGuardPeer) (bind connect_timeout : string)
  | DirectOutbound (Tag : string) (bind : string)
  | BlockOutbound (Tag : string)
  | SocksOutbound (Tag : string) (server : string) (port : Z)
  | URLTestOutbound (Tag : string) (members : list string) (URL Interval : string) (Tolerance : Z)
  | SelectorOutbound (Tag : string) (members : list string) (default : string).

(** The [tag] of a node. *)
Definition node_tag (n : Node) : string :=
  match n with
  | VLESSOutbound d _ _ _ _ | VMessOutbound d _ _ _ _ _ _ _ | TrojanOutbound d _ _ _ _
  | ShadowsocksOutbound d _ _ _ _ _ | HysteriaOutbound d _ _ _ _ _ _
  | Hysteria2Outbound d _ _ _ _ _ _ | TUICOutbound d _ _ _ _ _ _ _ _
  | AnyTLSOutbound d _ _ _ _ _ | XHTTPOutbound d _ _ _ => dTag d
  | WireGuardEndpoint t _ _ _ _ _ _ _ | DirectOutbound t _ | BlockOutbound t
  | SocksOutbound t _ _ | URLTestOutbound t _ _ _ _ | SelectorOutbound t _ _ => t
  end.

(** Its [bind_interface]. *)
Definition node_bind (n : Node) : string :=
  match n with
  | VLESSOutbound d _ _ _ _ | VMessOutbound d _ _ _ _ _ _ _ | TrojanOutbound d _ _ _ _
  | ShadowsocksOutbound d _ _ _ _ _ | HysteriaOutbound d _ _ _ _ _ _
  | Hysteria2Outbound d _ _ _ _ _ _ | TUICOutbound d _ _ _ _ _ _ _ _
  | AnyTLSOutbound d _ _ _ _ _ | XHTTPOutbound d _ _ _ => BindInterface d
  | WireGuardEndpoint _ _ _ _ _ _ b _ | DirectOutbound _ b => b
  | _ => ""
  end.

Definition oneHost (h : string) : list string := if String.eqb h "" then [] else [h].

Definition wireGuardPeerHosts (peers : list WireGuardPeer) : list string :=
  filter (λ h, h ≠ "") (peerAddress <$> peers).

Definition nodeHosts (n : Node) : list string :=
  match n with
  | VLESSOutbound d _ _ _ _ | VMessOutbound d _ _ _ _ _ _ _ | TrojanOutbound d _ _ _ _
  | ShadowsocksOutbound d _ _ _ _ _ | HysteriaOutbound d _ _ _ _ _ _
  | Hysteria2Outbound d _ _ _ _ _ _ | TUICOutbound d _ _ _ _ _ _ _ _
  | AnyTLSOutbound d _ _ _ _ _ | XHTTPOutbound d _ _ _ => oneHost (Server d)
  | WireGuardEndpoint _ _ _ _ _ peers _ _ => wireGuardPeerHosts peers
  | _ => []
  end.

Record RenderOpts := {
  oTag : string;
  oBindInterface : string;
  oConnectTimeout : string
}.

(** ** Inbounds *)

Inductive Inbound :=
  | SocksInbound (Tag Listen : string) (ListenPort : Z)
  | HTTPInbound (Tag Listen : string) (ListenPort : Z)
  | TunInbound (Tag : string) (Address : list string) (AutoRoute StrictRoute : bool) (Stack : string).

Definition inbound_tag (i : Inbound) : string :=
  match i with SocksInbound t _ _ | HTTPInbound t _ _ | TunInbound t _ _ _ _ => t end.

Definition is_tun (i : Inbound) : bool :=
  match i with TunInbound _ _ _ _ _ => true | _ => false end.

(** ** Log, DNS, route *)

Record Log := { Level : string; Timestamp : bool; Output : string }.

Record DNSServer := { dnsType : string; dnsTag : string; dnsServer : string; Detour : string }.
Record DNSRule := { Domain : list string; ruleServer : string }.
Record DNS := { Servers : list DNSServer; dnsRules : list DNSRule; dnsFinal : string; Strategy : string }.

Record RouteRule := {
  rAction : string;
  Timeout : string;
  rInbound : list string;
  rProtocol : string;
  IPIsPrivate : bool;
  DomainRegex : list string;
  DomainSuffix : list string;
  IPCIDR : list string;
  ProcessName : list string;
  Outbound : string
}.

(** [RouteRule{}] *)
Definition no_rule : RouteRule := {|
  rAction := ""; Timeout := ""; rInbound := []; rProtocol := ""; IPIsPrivate := false;
  DomainRegex := []; DomainSuffix := []; IPCIDR := []; ProcessName := []; Outbound := "" |}.

Record Route := {
  AutoDetectInterface : bool;
  DefaultInterface : string;
  Rules : list RouteRule;
  Final : string;
  DefaultDomainResolver : string
}.

Record ClashAPI := { ExternalController : string; Secret : string }.
Record Experimental := { CacheFileEnabled : bool; cClashAPI : option ClashAPI }.

Record Config := {
  cLog : option Log;
  cDNS : DNS;
  Inbounds : list Inbound;
  Outbounds : list Node;
  Endpoints : list Node;
  cRoute : Route;
  cExperimental : option Experimental
}.

(** ** References between the parts *)

(** The tags a configuration declares, and the ones it mentions. *)
Definition declared (c : Config) : list string := node_tag <$> (Outbounds c ++ Endpoints c).

Definition node_refs (n : Node) : list string :=
  match n with
  | URLTestOutbound _ ms _ _ _ => ms
  | SelectorOutbound _ ms d => d :: ms
  | _ => []
  end.

Definition nonempty (l : list string) : list string := filter (λ s, s ≠ "") l.

Definition outbound_refs (c : Config) : list string :=
  mjoin (node_refs <$> (Outbounds c ++ Endpoints c)) ++
  nonempty (Outbound <$> Rules (cRoute c)) ++ [Final (cRoute c)] ++
  nonempty (Detour <$> Servers (cDNS c)).

Definition dns_refs (c : Config) : list string :=
  (ruleServer <$> dnsRules (cDNS c)) ++ [dnsFinal (cDNS c)] ++
  nonempty [DefaultDomainResolver (cRoute c)].

(** No tag is declared twice, and every mention of one is declared. *)
Record well_formed (c : Config) : Prop := {
  wf_tags : NoDup (declared c);
  wf_refs : Forall (λ t, t ∈ declared c) (outbound_refs c);
  wf_dns_tags : NoDup (dnsTag <$> Servers (cDNS c));
  wf_dns_refs : Forall (λ t, t ∈ dnsTag <$> Servers (cDNS c)) (dns_refs c);
  wf_inbound_tags : NoDup (inbound_tag <$> Inbounds c);
  wf_inbound_refs : Forall (λ t, t ∈ inbound_tag <$> Inbounds c)
    (mjoin (rInbound <$> Rules (cRoute c)))
}.

End Schema.
