(* ===== verification/Singbox.v ===== *)
(** * Singbox: generating the engine's configuration
    ([internal/singbox/generate.go], [generate_tunnel.go],
    [internal/firewall/rule.go])

    The three generators, over a registry whose modules may be renderers: the
    parameter [renderer] is the type assertion to [singbox.Renderer] and the
    interface a module has to satisfy is [RendererLaws].  Route evaluation
    itself is the engine's; the theorems are about the configuration. *)

From S2P Require Import Prelude GoStr GoNet GoUrl Registry Schema.
Import Registry Schema.

Local Open Scope string_scope.
Local Open Scope list_scope.

(** ** Firewall rules *)

Module Firewall.

Definition ActionBlock : string := "block".
Definition ActionAllow : string := "allow".

Record Rule := {
  ID : string;
  Action : string;
  Domain : string;
  CIDR : string;
  Process : string
}.

Inductive error :=
  | ErrUnknownAction (a : string)
  | ErrMatchCount (n : nat)
  | ErrInvalidCIDR (c : string).

Definition match_count (r : Rule) : nat :=
  length (filter (λ s, s ≠ "") [Domain r; CIDR r; Process r]).

Definition Validate (r : Rule) : option error :=
  if bool_decide (Action r ∉ [ActionBlock; ActionAllow]) then Some (ErrUnknownAction (Action r))
  else if negb (match_count r =? 1)%nat then Some (ErrMatchCount (match_count r))
  else if bool_decide (CIDR r ≠ "") && bool_decide (ParseCIDR (CIDR r) = None)
       then Some (ErrInvalidCIDR (CIDR r))
  else None.

Definition MatchDescription (r : Rule) : string :=
  if bool_decide (Domain r ≠ "") then Action r +:+ " domain " +:+ Domain r
  else if bool_decide (CIDR r ≠ "") then Action r +:+ " cidr " +:+ CIDR r
  else if bool_decide (Process r ≠ "") then Action r +:+ " process " +:+ Process r
  else Action r.

End Firewall.

(** ** The generators *)

Module Singbox.

Definition socksTag := "socks-in".
Definition httpTag := "http-in".
Definition tunTag := "tun-in".
Definition proxyTag := "proxy".
Definition autoTag := "auto".
Definition directTag := "direct".
Definition blockTag := "block".
Definition socksOutTag := "socks-out".
Definition proxyDNSTag := "proxy-dns".
Definition fwdDNSTag := "fwd-dns".
Definition bootDNSTag := "boot-dns".
Definition localDNSTag := "local".
Definition listenAddr := "127.0.0.1".
Definition socksPort : Z := 1080.
Definition httpPort : Z := 2080.
Definition connectTimout := "10s".

Definition ruDomainRegex : list string := [
  "^([\w\-\.]+\.)?ru$";
  "^([\w\-\.]+\.)?xn--p1ai$";
  "^([\w\-\.]+\.)?xn--p1acf$";
  "^([\w\-\.]+\.)?xn--80asehdb$";
  "^([\w\-\.]+\.)?xn--c1avg$";
  "^([\w\-\.]+\.)?xn--80aswg$";
  "^([\w\-\.]+\.)?xn--80adxhks$";
  "^([\w\-\.]+\.)?moscow$";
  "^([\w\-\.]+\.)?xn--d1acj3b$"].

Definition tunAddress : list string := ["198.18.0.1/30"; "fdfe:dcba:9876::1/126"].

Definition ptrLog : option Log := Some {| Level := "info"; Timestamp := true; Output := "" |}.

Definition defaultURLTestURL := "https://www.gstatic.com/generate_204".
Definition defaultURLTestInterval := "3m".
Definition defaultURLTestTolerance : Z := 50.

Record Ports := { Socks : Z; HTTP : Z }.

Definition DefaultPorts : Ports := {| Socks := socksPort; HTTP := httpPort |}.

Definition Ports_withDefaults (p : Ports) : Ports := {|
  Socks := if (Socks p =? 0)%Z then socksPort else Socks p;
  HTTP := if (HTTP p =? 0)%Z then httpPort else HTTP p |}.

Record URLTestParams := { utURL : string; utInterval : string; utTolerance : Z }.

Definition URLTest_withDefaults (u : URLTestParams) : URLTestParams := {|
  utURL := if String.eqb (utURL u) "" then defaultURLTestURL else utURL u;
  utInterval := if String.eqb (utInterval u) "" then defaultURLTestInterval else utInterval u;
  utTolerance := if (utTolerance u =? 0)%Z then defaultURLTestTolerance else utTolerance u |}.

Record ProxyOpts := {
  PhysIface : string;
  pPorts : Ports;
  pClashAPI : option ClashAPI;
  URLTest : URLTestParams;
  pFirewall : list Firewall.Rule
}.

Inductive error :=
  | ErrNoProfile
  | ErrNoModule (name : string)
  | ErrNotRenderer (name title : string)
  | ErrRender (e : string)
  | ErrXHTTPUnsupportedInTunnel (label : string).

(** One firewall rule as a route rule; [None] when it matches nothing. *)
Definition firewallRouteRule (r : Firewall.Rule) : option RouteRule :=
  let out := if String.eqb (Firewall.Action r) Firewall.ActionBlock then blockTag else directTag in
  let mk suf cidr proc : RouteRule := {|
    rAction := ""; Timeout := ""; rInbound := []; rProtocol := ""; IPIsPrivate := false;
    DomainRegex := []; DomainSuffix := suf; IPCIDR := cidr; ProcessName := proc; Outbound := out |} in
  if negb (String.eqb (Firewall.Domain r) "") then Some (mk [Firewall.Domain r] [] [])
  else if negb (String.eqb (Firewall.CIDR r) "") then Some (mk [] [Firewall.CIDR r] [])
  else if negb (String.eqb (Firewall.Process r) "") then Some (mk [] [] [Firewall.Process r])
  else None.

Definition firewallRouteRules (rules : list Firewall.Rule) : list Node * list RouteRule :=
  let extraRules := omap firewallRouteRule rules in
  (if existsb (λ r, String.eqb (Outbound r) blockTag) extraRules then [BlockOutbound blockTag] else [],
   extraRules).

Definition nonLiteralHosts (hosts : list string) : list string :=
  filter (λ h, h ≠ "" ∧ ParseIP h = None) hosts.

Definition proxyServerTag (i : nat) : string := proxyTag +:+ "-" +:+ Itoa (Z.of_nat i).

Definition probeHost (rawURL : string) : string :=
  match Url.Parse rawURL with
  | None => ""
  | Some u =>
      let host := Url.Hostname u in
      match ParseIP host with
      | Some _ => ""
      | None => host
      end
  end.

Definition dedupeHosts (hosts : list string) : list string :=
  dedup_from [] (filter (λ h, h ≠ "") hosts).

(** [ip_cidr] of the loop guard for one host, if it is a literal address. *)
Definition guard_cidr (h : string) : option string :=
  match ParseIP h with
  | None => None
  | Some ip => Some (match To4 ip with None => h +:+ "/128" | Some _ => h +:+ "/32" end)
  end.

Definition guard_rule (cidr : string) : RouteRule := {|
  rAction := ""; Timeout := ""; rInbound := []; rProtocol := ""; IPIsPrivate := false;
  DomainRegex := []; DomainSuffix := []; IPCIDR := [cidr]; ProcessName := [];
  Outbound := directTag |}.

Definition rule_sniff : RouteRule := {|
  rAction := "sniff"; Timeout := "3s"; rInbound := []; rProtocol := ""; IPIsPrivate := false;
  DomainRegex := []; DomainSuffix := []; IPCIDR := []; ProcessName := []; Outbound := "" |}.
Definition rule_hijack_dns : RouteRule := {|
  rAction := "hijack-dns"; Timeout := ""; rInbound := [tunTag]; rProtocol := "dns";
  IPIsPrivate := false; DomainRegex := []; DomainSuffix := []; IPCIDR := []; ProcessName := [];
  Outbound := "" |}.
Definition rule_private : RouteRule := {|
  rAction := ""; Timeout := ""; rInbound := []; rProtocol := ""; IPIsPrivate := true;
  DomainRegex := []; DomainSuffix := []; IPCIDR := []; ProcessName := []; Outbound := directTag |}.
Definition rule_ru : RouteRule := {|
  rAction := ""; Timeout := ""; rInbound := []; rProtocol := ""; IPIsPrivate := false;
  DomainRegex := ruDomainRegex; DomainSuffix := []; IPCIDR := []; ProcessName := [];
  Outbound := directTag |}.

Definition tun_inbound : Inbound := TunInbound tunTag tunAddress true true "system".

Section generate.
Context {P : Type} (renderer : Module_ P → option (Profile P → RenderOpts → result string Node)).
Context (reg : Registry_ P).

(** [renderNode]: the node and the kind its module declares. *)
Definition renderNode (p : Profile P) (tag physIface : string) : result error (Node * Kind) :=
  match byName reg !! Protocol p with
  | None => Err (ErrNoModule (Protocol p))
  | Some m =>
      match renderer m with
      | None => Err (ErrNotRenderer (Protocol p) (Title (descriptor m)))
      | Some render =>
          match render p {| oTag := tag; oBindInterface := physIface; oConnectTimeout := connectTimout |} with
          | Err e => Err (ErrRender e)
          | Ok node => Ok (node, dKind (descriptor m))
          end
      end
  end.

Definition profileHosts (p : Profile P) : result error (list string) :=
  let? (node, _) := renderNode p "probe" "" in Ok (nodeHosts node).

(** The nodes of the profiles in order, tagged from [i] on. *)
Fixpoint render_all (multi : bool) (physIface : string) (i : nat) (ps : list (Profile P))
    : result error (list (Node * Kind)) :=
  match ps with
  | [] => Ok []
  | p :: ps =>
      let? nk := renderNode p (if multi then proxyServerTag i else proxyTag) physIface in
      let? nks := render_all multi physIface (S i) ps in
      Ok (nk :: nks)
  end.

(** [placeNode] for all of them. *)
Definition placed_outbounds (nks : list (Node * Kind)) : list Node :=
  (filter (λ nk, nk.2 ≠ KindEndpoint) nks).*1.
Definition placed_endpoints (nks : list (Node * Kind)) : list Node :=
  (filter (λ nk, nk.2 = KindEndpoint) nks).*1.

Definition boot_hosts (nks : list (Node * Kind)) : list string :=
  mjoin ((λ nk, nonLiteralHosts (nodeHosts nk.1)) <$> nks).

(** The group outbounds of a set of several servers. *)
Definition group_outbounds (ut : URLTestParams) (tags : list string) : list Node := [
  URLTestOutbound autoTag tags (utURL ut) (utInterval ut) (utTolerance ut);
  SelectorOutbound proxyTag (autoTag :: tags) autoTag].

Definition server_tags (ps : list (Profile P)) : list string :=
  proxyServerTag <$> seq 0 (length ps).

(** The DNS section that both the proxy and the tunnel have. *)
Definition proxy_dns (bootHosts : list string) : DNS :=
  let hosts := dedupeHosts bootHosts in
  let boot := negb (bool_decide (hosts = [])) in {|
  Servers := [ {| dnsType := "https"; dnsTag := proxyDNSTag; dnsServer := "1.1.1.1"; Detour := proxyTag |};
               {| dnsType := "local"; dnsTag := localDNSTag; dnsServer := ""; Detour := "" |} ] ++
    (if boot then [ {| dnsType := "https"; dnsTag := bootDNSTag; dnsServer := "1.1.1.1"; Detour := "" |} ]
     else []);
  dnsRules := if boot then [ {| Schema.Domain := hosts; ruleServer := bootDNSTag |} ] else [];
  dnsFinal := proxyDNSTag;
  Strategy := "ipv4_only" |}.

Definition GenerateProxyConfigOpts (profiles : list (Profile P)) (opts : ProxyOpts)
    : result error Config :=
  match profiles with
  | [] => Err ErrNoProfile
  | _ =>
      let ports := Ports_withDefaults (pPorts opts) in
      let multi := (1 <? length profiles)%nat in
      let? nks := render_all multi (PhysIface opts) 0 profiles in
      let ut := URLTest_withDefaults (URLTest opts) in
      let groups := if multi then group_outbounds ut (server_tags profiles) else [] in
      let bootHosts := boot_hosts nks ++ (if multi then [probeHost (utURL ut)] else []) in
      let '(fwOutbounds, fwRules) := firewallRouteRules (pFirewall opts) in
      Ok {|
        cLog := ptrLog;
        cDNS := proxy_dns bootHosts;
        Inbounds := [SocksInbound socksTag listenAddr (Socks ports);
                     HTTPInbound httpTag listenAddr (HTTP ports)];
        Outbounds := placed_outbounds nks ++ groups ++ [DirectOutbound directTag (PhysIface opts)] ++
                     fwOutbounds;
        Endpoints := placed_endpoints nks;
        cRoute := {|
          AutoDetectInterface := false; DefaultInterface := PhysIface opts;
          Rules := rule_sniff :: fwRules ++ [rule_private; rule_ru];
          Final := proxyTag; DefaultDomainResolver := localDNSTag |};
        cExperimental := Some {| CacheFileEnabled := false; cClashAPI := pClashAPI opts |} |}
  end.

Fixpoint all_hosts (ps : list (Profile P)) : result error (list (list string)) :=
  match ps with
  | [] => Ok []
  | p :: ps => let? hs := profileHosts p in let? hss := all_hosts ps in Ok (hs :: hss)
  end.

Definition guard_rules (hss : list (list string)) : list RouteRule :=
  guard_rule <$> omap guard_cidr (mjoin hss).

Definition GenerateForwarderConfigSet (profiles : list (Profile P)) (ports : Ports)
    : result error Config :=
  match profiles with
  | [] => Err ErrNoProfile
  | _ =>
      let ports := Ports_withDefaults ports in
      let? hss := all_hosts profiles in
      Ok {|
        cLog := ptrLog;
        cDNS := {|
          Servers := [ {| dnsType := "https"; dnsTag := fwdDNSTag; dnsServer := "1.1.1.1";
                          Detour := socksOutTag |} ];
          dnsRules := []; dnsFinal := fwdDNSTag; Strategy := "ipv4_only" |};
        Inbounds := [tun_inbound];
        Outbounds := [SocksOutbound socksOutTag listenAddr (Socks ports); DirectOutbound directTag ""];
        Endpoints := [];
        cRoute := {|
          AutoDetectInterface := true; DefaultInterface := "";
          Rules := [rule_sniff; rule_hijack_dns; rule_private] ++ guard_rules hss;
          Final := socksOutTag; DefaultDomainResolver := "" |};
        cExperimental := None |}
  end.

(** The check of the tunnel generator: a node that is an XHTTP outbound is
    refused under the profile's label, or the key itself. *)
Definition tunnel_check (p : Profile P) (n : Node) : option error :=
  match n with
  | XHTTPOutbound _ _ _ _ =>
      Some (ErrXHTTPUnsupportedInTunnel (if String.eqb (Label p) "" then Raw p else Label p))
  | _ => None
  end.

Fixpoint render_tunnel (multi : bool) (i : nat) (ps : list (Profile P))
    : result error (list (Node * Kind)) :=
  match ps with
  | [] => Ok []
  | p :: ps =>
      let? nk := renderNode p (if multi then proxyServerTag i else proxyTag) "" in
      match tunnel_check p nk.1 with
      | Some e => Err e
      | None => let? nks := render_tunnel multi (S i) ps in Ok (nk :: nks)
      end
  end.

Definition GenerateTunnelConfigSet (profiles : list (Profile P)) (urltest : URLTestParams)
    : result error Config :=
  match profiles with
  | [] => Err ErrNoProfile
  | _ =>
      let ut := URLTest_withDefaults urltest in
      let multi := (1 <? length profiles)%nat in
      let? nks := render_tunnel multi 0 profiles in
      let groups := if multi then group_outbounds ut (server_tags profiles) else [] in
      let bootHosts := boot_hosts nks ++ (if multi then [probeHost (utURL ut)] else []) in
      Ok {|
        cLog := ptrLog;
        cDNS := proxy_dns bootHosts;
        Inbounds := [tun_inbound];
        Outbounds := placed_outbounds nks ++ groups ++ [DirectOutbound directTag ""];
        Endpoints := placed_endpoints nks;
        cRoute := {|
          AutoDetectInterface := true; DefaultInterface := "";
          Rules := [rule_sniff; rule_hijack_dns; rule_private] ++
                   guard_rules ((λ nk, nodeHosts nk.1) <$> nks);
          Final := proxyTag; DefaultDomainResolver := localDNSTag |};
        cExperimental := None |}
  end.

End generate.

(** [applyLog] of the config builders, and what they feed the generators. *)
Definition applyLog (logPath logLevel : string) (c : Config) : Config :=
  match cLog c with
  | None => c
  | Some l => {|
      cLog := Some {| Level := if String.eqb logLevel "" then "warn" else logLevel;
                      Timestamp := Timestamp l;
                      Output := if String.eqb logPath "" then Output l else logPath |};
      cDNS := cDNS c; Inbounds := Inbounds c; Outbounds := Outbounds c; Endpoints := Endpoints c;
      cRoute := cRoute c; cExperimental := cExperimental c |}
  end.

(** ** Tags *)

Lemma proxyServerTag_inj i j : proxyServerTag i = proxyServerTag j → i = j.
Proof.
  unfold proxyServerTag, proxyTag. cbv [String.append]. intros [= H]. by apply Itoa_nat_inj.
Qed.

(** The fixed tags a server tag must not clash with. *)
Lemma proxyServerTag_fresh i : proxyServerTag i ∉ [autoTag; proxyTag; directTag; blockTag].
Proof.
  unfold proxyServerTag, proxyTag, autoTag, directTag, blockTag. cbv [String.append].
  rewrite !not_elem_of_cons. split_and!; try discriminate. apply not_elem_of_nil.
Qed.

Lemma NoDup_server_tags n k : NoDup (proxyServerTag <$> seq n k).
Proof.
  apply NoDup_fmap_2_strong; [intros; by apply proxyServerTag_inj|]. apply NoDup_ListNoDup, seq_NoDup.
Qed.

Lemma firewall_outbounds rules :
  let '(nodes, rrs) := firewallRouteRules rules in
  (nodes = [] ∧ blockTag ∉ Outbound <$> rrs ∨ nodes = [BlockOutbound blockTag] ∧ blockTag ∈ Outbound <$> rrs) ∧
  Forall (λ r, Outbound r = blockTag ∨ Outbound r = directTag) rrs ∧
  Forall (λ r, rInbound r = []) rrs.
Proof.
  unfold firewallRouteRules. split_and!.
  - destruct (existsb _ _) eqn:He; [right|left]; (split; [done|]).
    + apply existsb_exists in He as (r & Hin & Heq%String.eqb_eq).
      apply list_elem_of_fmap. exists r. split; [done|]. by apply list_elem_of_In.
    + intros (r & Heq & Hin)%list_elem_of_fmap. apply existsb_false_Forall in He.
      rewrite Forall_forall in He. apply He in Hin. rewrite <- Heq in Hin. done.
  - apply Forall_forall. intros r (f & _ & Hf)%list_elem_of_omap.
    unfold firewallRouteRule in Hf. repeat case_match; simplify_eq/=; auto.
  - apply Forall_forall. intros r (f & _ & Hf)%list_elem_of_omap.
    unfold firewallRouteRule in Hf. repeat case_match; simplify_eq/=; auto.
Qed.

(** ** Rendered nodes *)

(** What a renderer promises the assembly: the node carries the tag and the
    interface it was given and refers to no other node. *)
Class RendererLaws {P : Type}
    (renderer : Module_ P → option (Profile P → RenderOpts → result string Node)) : Prop := {
  render_tag m f p o n : renderer m = Some f → f p o = Ok n → node_tag n = oTag o;
  render_bind m f p o n : renderer m = Some f → f p o = Ok n → node_bind n = oBindInterface o;
  render_refs m f p o n : renderer m = Some f → f p o = Ok n → node_refs n = []
}.

Section laws.
Context {P : Type} (renderer : Module_ P → option (Profile P → RenderOpts → result string Node)).
Context (reg : Registry_ P).

Lemma renderNode_Ok p tag phys n k :
  renderNode renderer reg p tag phys = Ok (n, k) →
  ∃ m f, renderer m = Some f ∧
    f p {| oTag := tag; oBindInterface := phys; oConnectTimeout := connectTimout |} = Ok n ∧
    byName reg !! Protocol p = Some m ∧ k = dKind (descriptor m).
Proof. unfold renderNode. intros. repeat case_match; simplify_eq. eauto 10. Qed.

Lemma placed_perm nks : placed_outbounds nks ++ placed_endpoints nks ≡ₚ nks.*1.
Proof.
  unfold placed_outbounds, placed_endpoints.
  induction nks as [|[n k] nks IH]; [done|].
  destruct (decide (k = KindEndpoint)) as [->|Hk].
  - rewrite filter_cons_False, filter_cons_True by (simpl; auto). simpl.
    by rewrite <- Permutation_middle, IH.
  - rewrite filter_cons_True, filter_cons_False by done. simpl. by rewrite IH.
Qed.

(** The tags of the servers, from [i] on. *)
Definition tags_from (multi : bool) (i n : nat) : list string :=
  (λ j, if multi then proxyServerTag j else proxyTag) <$> seq i n.

Lemma render_all_spec `{!RendererLaws renderer} multi phys i ps nks :
  render_all renderer reg multi phys i ps = Ok nks →
  node_tag <$> nks.*1 = tags_from multi i (length ps) ∧
  Forall (λ nk, node_bind nk.1 = phys ∧ node_refs nk.1 = []) nks.
Proof.
  revert i nks. induction ps as [|p ps IH]; intros i nks; cbn [render_all].
  - intros [= <-]. by split.
  - intros ([n k] & Hn & (nks' & Hnks & [= <-])%rbind_Ok_inv)%rbind_Ok_inv.
    apply IH in Hnks as [Ht Hf]. apply renderNode_Ok in Hn as (m & f & Hf1 & Hf2 & _ & _).
    split.
    + rewrite !fmap_cons, Ht. unfold tags_from. simpl. f_equal. by apply (render_tag m f) in Hf2.
    + constructor; [|done]. split; [by apply (render_bind m f) in Hf2|by apply (render_refs m f) in Hf2].
Qed.

Lemma render_tunnel_render_all multi i ps nks :
  render_tunnel renderer reg multi i ps = Ok nks →
  render_all renderer reg multi "" i ps = Ok nks ∧
  Forall (λ nk, ∀ d u t x, nk.1 ≠ XHTTPOutbound d u t x) nks.
Proof.
  revert i nks. induction ps as [|p ps IH]; intros i nks; cbn [render_tunnel render_all].
  - intros [= <-]. by split.
  - intros ([n k] & Hn & Hrest)%rbind_Ok_inv. rewrite Hn. cbn [rbind].
    destruct (tunnel_check p (n, k).1) eqn:Hc; [done|].
    apply rbind_Ok_inv in Hrest as (nks' & Hnks & [= <-]). apply IH in Hnks as [-> Hf].
    split; [done|]. constructor; [|done]. simpl in *. intros d u t x ->. done.
Qed.

(** The tags a set of servers declares: every server, and the groups. *)
Definition set_tags (multi : bool) (n : nat) : list string :=
  tags_from multi 0 n ++ (if multi then [autoTag; proxyTag] else []).

Lemma set_tags_NoDup n multi :
  (multi = false → n = 1%nat) → NoDup (set_tags multi n ++ [directTag; blockTag]).
Proof.
  intros Hn. unfold set_tags, tags_from. destruct multi.
  - rewrite <- app_assoc. apply NoDup_app. split_and!.
    + apply NoDup_server_tags.
    + intros x (j & -> & _)%list_elem_of_fmap. apply proxyServerTag_fresh.
    + by apply (bool_decide_unpack _).
  - rewrite (Hn eq_refl). by apply (bool_decide_unpack _).
Qed.

Lemma set_tags_proxy n multi : (multi = false → n = 1%nat) → proxyTag ∈ set_tags multi n.
Proof.
  intros Hn. unfold set_tags, tags_from. destruct multi; [|rewrite (Hn eq_refl); left].
  apply elem_of_app. right. right. left.
Qed.

Lemma groups_tags ut ps :
  node_tag <$> group_outbounds ut (server_tags (P:=P) ps) = [autoTag; proxyTag].
Proof. done. Qed.

Lemma proxy_dns_refs hosts :
  NoDup (dnsTag <$> Servers (proxy_dns hosts)) ∧
  Forall (λ t, t ∈ dnsTag <$> Servers (proxy_dns hosts))
    ((ruleServer <$> dnsRules (proxy_dns hosts)) ++ [dnsFinal (proxy_dns hosts)] ++ nonempty [localDNSTag]) ∧
  nonempty (Detour <$> Servers (proxy_dns hosts)) = [proxyTag].
Proof.
  unfold proxy_dns. simpl. destruct (negb _); simpl; split_and!;
    first [by apply (bool_decide_unpack _) | reflexivity].
Qed.

(** Both generators that carry servers assemble a configuration of this shape. *)
Lemma assembled_well_formed `{!RendererLaws renderer} phys ps nks ut fw bind hosts c :
  ps ≠ [] → let multi := (1 <? length ps)%nat in
  render_all renderer reg multi phys 0 ps = Ok nks →
  (fw = [] ∨ fw = [BlockOutbound blockTag]) →
  Outbounds c = placed_outbounds nks ++
    (if multi then group_outbounds ut (server_tags ps) else []) ++ [DirectOutbound directTag bind] ++ fw →
  Endpoints c = placed_endpoints nks → cDNS c = proxy_dns hosts →
  Final (cRoute c) = proxyTag → DefaultDomainResolver (cRoute c) = localDNSTag →
  Forall (λ t, t = directTag ∨ t = blockTag ∧ fw ≠ []) (nonempty (Outbound <$> Rules (cRoute c))) →
  NoDup (inbound_tag <$> Inbounds c) →
  Forall (λ t, t ∈ inbound_tag <$> Inbounds c) (mjoin (rInbound <$> Rules (cRoute c))) →
  well_formed c.
Proof.
  intros Hps multi Hr Hfw Hout Hend Hdns Hfin Hres Hrules Hin1 Hin2.
  apply render_all_spec in Hr as [Htags Hnodes].
  assert (multi = false → length ps = 1%nat) as Hone.
  { unfold multi. intros ?%Nat.ltb_ge. destruct ps as [|? [|]]; simpl in *; [done|done|lia]. }
  assert (declared c ≡ₚ set_tags multi (length ps) ++ [directTag] ++ (node_tag <$> fw)) as Hdecl.
  { unfold declared, set_tags. rewrite Hout, Hend, !fmap_app.
    transitivity ((node_tag <$> placed_outbounds nks ++ placed_endpoints nks) ++
      (node_tag <$> (if multi then group_outbounds ut (server_tags ps) else [])) ++ [directTag] ++
      (node_tag <$> fw)).
    - rewrite fmap_app. solve_Permutation.
    - rewrite (placed_perm nks), Htags. rewrite <- app_assoc. by destruct multi. }
  destruct (proxy_dns_refs hosts) as (Hd1 & Hd2 & Hd3).
  assert (proxyTag ∈ declared c) as Hproxy.
  { rewrite Hdecl. apply elem_of_app. left. by apply set_tags_proxy. }
  assert (∀ t, t ∈ set_tags multi (length ps) → t ∈ declared c) as Hset.
  { intros t Ht. rewrite Hdecl. apply elem_of_app. by left. }
  split; [| |by rewrite Hdns|by unfold dns_refs; rewrite Hdns, Hres|done|done].
  - rewrite Hdecl. pose proof (set_tags_NoDup (length ps) multi Hone) as Hnd.
    destruct Hfw as [->| ->]; [|done].
    change [directTag; blockTag] with ([directTag] ++ [blockTag]) in Hnd.
    rewrite app_assoc in Hnd. by apply NoDup_app in Hnd as [? _].
  - unfold outbound_refs. rewrite Hfin, Hdns, Hd3. repeat (apply Forall_app; split);
      [| |by repeat constructor|by repeat constructor].
    + apply Forall_forall. intros t (l & Ht & Hl)%list_elem_of_join.
      apply list_elem_of_fmap in Hl as (n & -> & Hn).
      assert (n ∈ nks.*1 ∨ n ∈ (if multi then group_outbounds ut (server_tags ps) else []) ∨
              n = DirectOutbound directTag bind ∨ n ∈ fw) as [Hn'|[Hn'|[->|Hn']]].
      { rewrite Hout, Hend in Hn. rewrite <- (placed_perm nks).
        rewrite ?elem_of_app. rewrite ?elem_of_app, ?elem_of_cons, ?elem_of_nil in Hn. tauto. }
      * apply list_elem_of_fmap in Hn' as (nk & -> & Hn').
        rewrite Forall_forall in Hnodes. destruct (Hnodes _ Hn') as [_ Hrefs]. rewrite Hrefs in Ht.
        by apply elem_of_nil in Ht.
      * apply Hset. unfold set_tags, tags_from. destruct multi; [|by apply elem_of_nil in Hn'].
        unfold group_outbounds in Hn'. rewrite !elem_of_cons, elem_of_nil in Hn'.
        destruct Hn' as [->|[->|[]]]; simpl in Ht; unfold server_tags in Ht;
          rewrite ?elem_of_cons in Ht; rewrite elem_of_app, !elem_of_cons; tauto.
      * by apply elem_of_nil in Ht.
      * destruct Hfw as [->| ->]; [by apply elem_of_nil in Hn'|].
        apply list_elem_of_singleton in Hn' as ->. by apply elem_of_nil in Ht.
    + eapply Forall_impl; [exact Hrules|]. intros t [->|[-> Hne]]; rewrite Hdecl, !elem_of_app.
      * right. left. left.
      * right. right. destruct Hfw as [->| ->]; [done|left].
Qed.

End laws.

Lemma nonempty_guards hss t : t ∈ nonempty (Outbound <$> guard_rules hss) → t = directTag.
Proof.
  unfold nonempty, guard_rules. intros [_ Ht]%list_elem_of_filter.
  rewrite <- list_fmap_compose in Ht. by apply list_elem_of_fmap in Ht as (c & -> & _).
Qed.

Lemma guards_no_inbound hss : mjoin (rInbound <$> guard_rules hss) = [].
Proof.
  unfold guard_rules. rewrite <- list_fmap_compose. induction (omap guard_cidr (mjoin hss)); done.
Qed.

(** Generating succeeds when every profile renders, and places every server. *)
Lemma render_all_total {P : Type} renderer (reg : Registry_ P) multi phys i ps :
  (∀ p tag, p ∈ ps → ∃ nk, renderNode renderer reg p tag phys = Ok nk) →
  ∃ nks, render_all renderer reg multi phys i ps = Ok nks ∧
    ∀ j p, ps !! j = Some p → ∃ nk, nk ∈ nks ∧
      renderNode renderer reg p (if multi then proxyServerTag (i + j) else proxyTag) phys = Ok nk.
Proof.
  revert i. induction ps as [|p ps IH]; intros i Hp; cbn [render_all]; [by exists []|].
  destruct (Hp p (if multi then proxyServerTag i else proxyTag)) as [nk Hnk]; [left|].
  destruct (IH (S i)) as (nks & Hnks & Hall); [intros; apply Hp; by right|].
  rewrite Hnk, Hnks. exists (nk :: nks). split; [done|]. intros [|j] q; cbn.
  - intros [= <-]. exists nk. rewrite Nat.add_0_r. by split; [left|].
  - intros Hq. destruct (Hall j q Hq) as (nk' & Hin & Hr). exists nk'. split; [by right|].
    by rewrite <- Nat.add_succ_comm.
Qed.

Lemma generate_total {P : Type} renderer (reg : Registry_ P) ps opts :
  ps ≠ [] → (∀ p tag, p ∈ ps → ∃ nk, renderNode renderer reg p tag (PhysIface opts) = Ok nk) →
  ∃ c, GenerateProxyConfigOpts renderer reg ps opts = Ok c ∧
    ∀ j p, ps !! j = Some p → ∃ nk,
      renderNode renderer reg p (if (1 <? length ps)%nat then proxyServerTag j else proxyTag) (PhysIface opts) = Ok nk ∧
      nk.1 ∈ Outbounds c ++ Endpoints c.
Proof.
  intros Hne Hp. unfold GenerateProxyConfigOpts. destruct ps as [|p0 ps0]; [done|]. set (ps := p0 :: ps0) in *.
  destruct (render_all_total renderer reg (1 <? length ps)%nat (PhysIface opts) 0 ps Hp) as (nks & -> & Hall).
  cbn [rbind]. destruct (firewallRouteRules (pFirewall opts)) as [fw rrs]. eexists. split; [done|].
  intros j p Hj. destruct (Hall j p Hj) as (nk & Hin & Hr). exists nk. split; [exact Hr|]. cbn [Outbounds Endpoints].
  assert (nk.1 ∈ placed_outbounds nks ++ placed_endpoints nks) as Hin'.
  { rewrite placed_perm. apply list_elem_of_fmap. by exists nk. }
  rewrite ?elem_of_app in *. tauto.
Qed.

(** The proxy configuration, whatever the profiles and the firewall rules. *)
Lemma proxy_config_wf {P : Type}
    (renderer : Module_ P → option (Profile P → RenderOpts → result string Node))
    (reg : Registry_ P) (ps : list (Profile P)) (opts : ProxyOpts) (c : Config) :
  RendererLaws renderer → GenerateProxyConfigOpts renderer reg ps opts = Ok c → well_formed c.
Proof.
  intros Hlaws Hgen. unfold GenerateProxyConfigOpts in Hgen. destruct ps as [|p0 ps0]; [done|].
  set (ps := p0 :: ps0) in *. apply rbind_Ok_inv in Hgen as (nks & Hr & Hc).
  destruct (firewallRouteRules (pFirewall opts)) as [fw rrs] eqn:Hfr.
  pose proof (firewall_outbounds (pFirewall opts)) as Hfo. rewrite Hfr in Hfo.
  destruct Hfo as (Hfw & Hrout & Hrin). simplify_eq.
  eapply (assembled_well_formed renderer reg (PhysIface opts) ps nks
    (URLTest_withDefaults (URLTest opts)) fw (PhysIface opts)); try exact Hr; try reflexivity.
  - done.
  - naive_solver.
  - cbn [Rules cRoute]. unfold nonempty.
    rewrite fmap_cons, fmap_app, filter_cons_False by (intros Hne; by apply Hne).
    rewrite filter_app. apply Forall_app. split; [|repeat constructor; by left].
    apply Forall_forall. intros t [_ Ht]%list_elem_of_filter.
    apply list_elem_of_fmap in Ht as (r & -> & Hr'). rewrite Forall_forall in Hrout.
    destruct (Hrout _ Hr') as [Hb| ->]; [right|by left]. split; [done|].
    destruct Hfw as [[-> Hno]|[-> _]]; [|done]. destruct Hno.
    apply list_elem_of_fmap. exists r. by rewrite Hb.
  - simpl. by apply (bool_decide_unpack _).
  - simpl. rewrite fmap_app, join_app. apply Forall_app. split; [|simpl; constructor].
    apply Forall_forall. intros t (l & Ht & Hl)%list_elem_of_join.
    apply list_elem_of_fmap in Hl as (r & -> & Hr'). rewrite Forall_forall in Hrin.
    rewrite (Hrin _ Hr') in Ht. by apply elem_of_nil in Ht.
Qed.

(** C37: The proxy configuration is closed: in whatever set of profiles, ports,
    interface and firewall rules, no outbound, endpoint, DNS server or inbound
    tag is declared twice, and every tag a group, a route rule, the final
    route, a DNS detour or a DNS rule mentions is declared; there is no tun
    inbound; every server and the direct outbound are bound to exactly the
    given interface; and the firewall rules come right after the sniffing
    rule, in order, before the default routing. *)
Theorem proxy_config_closed {P : Type}
    (renderer : Module_ P → option (Profile P → RenderOpts → result string Node))
    (reg : Registry_ P) (ps : list (Profile P)) (opts : ProxyOpts) (c : Config) :
  RendererLaws renderer → GenerateProxyConfigOpts renderer reg ps opts = Ok c →
  well_formed c ∧
  Forall (λ i, is_tun i = false) (Inbounds c) ∧
  Forall (λ n, node_bind n = PhysIface opts ∨ node_refs n ≠ [] ∨ n = BlockOutbound blockTag)
    (Outbounds c ++ Endpoints c) ∧
  DefaultInterface (cRoute c) = PhysIface opts ∧
  Rules (cRoute c) = rule_sniff :: omap firewallRouteRule (pFirewall opts) ++ [rule_private; rule_ru].
Proof.
  intros Hlaws Hgen. pose proof (proxy_config_wf renderer reg ps opts c Hlaws Hgen) as Hwf.
  unfold GenerateProxyConfigOpts in Hgen. destruct ps as [|p0 ps0]; [done|].
  set (ps := p0 :: ps0) in *. apply rbind_Ok_inv in Hgen as (nks & Hr & Hc).
  destruct (firewallRouteRules (pFirewall opts)) as [fw rrs] eqn:Hfr.
  pose proof (firewall_outbounds (pFirewall opts)) as Hfo. rewrite Hfr in Hfo.
  destruct Hfo as (Hfw & Hrout & Hrin). simplify_eq.
  assert (rrs = omap firewallRouteRule (pFirewall opts)) as ->
    by (unfold firewallRouteRules in Hfr; congruence).
  split_and!; [|by repeat constructor| |done|done].
  - done.
  - simpl. destruct (render_all_spec _ _ _ _ _ _ _ Hr) as [_ Hnodes].
    apply Forall_forall. intros n Hn.
    assert (n ∈ nks.*1 ∨ n ∈ (if (1 <? length ps)%nat then group_outbounds
      (URLTest_withDefaults (URLTest opts)) (server_tags ps) else []) ∨
      n = DirectOutbound directTag (PhysIface opts) ∨ n ∈ fw) as [Hn'|[Hn'|[->|Hn']]].
    { rewrite <- (placed_perm nks). rewrite ?elem_of_app. rewrite ?elem_of_app, ?elem_of_cons, ?elem_of_app in Hn. tauto. }
    + apply list_elem_of_fmap in Hn' as (nk & -> & Hn'). rewrite Forall_forall in Hnodes.
      left. by apply Hnodes.
    + right. left. destruct (1 <? length ps)%nat eqn:Hm; [|by apply elem_of_nil in Hn'].
      unfold group_outbounds in Hn'. rewrite !elem_of_cons, elem_of_nil in Hn'.
      by destruct Hn' as [->|[->|[]]].
    + by left.
    + right. right. destruct Hfw as [[-> _]|[-> _]]; [by apply elem_of_nil in Hn'|].
      by apply list_elem_of_singleton in Hn'.
Qed.

(** *** The witnesses' registry: one module whose parameter is the server *)

#[local] Existing Instance ascii_only.

Definition sw_module : Module_ string := {|
  descriptor := {| Name := "trojan"; Title := "Trojan"; dKind := KindOutbound; dInput := InputLink;
                   Registry.Schemes := ["trojan"] |};
  mParse := λ raw, Err raw; mSetLabel := None; mSniff := None |}.

Definition sw_renderer (m : Module_ string)
    : option (Profile string → RenderOpts → result string Node) :=
  Some (λ p o, Ok (TrojanOutbound {| dTag := oTag o; Server := Params p; ServerPort := 443;
    ConnectTimeout := oConnectTimeout o; BindInterface := oBindInterface o |} "secret" "" None None)).

#[local] Instance sw_laws : RendererLaws sw_renderer.
Proof. by split; intros m f p o n [= <-] [= <-]. Qed.

Definition sw_registry : Registry_ string :=
  match NewRegistry [sw_module] with Ok r => r | Err _ => empty_registry end.

Definition sw_profile (host : string) : Profile string :=
  {| Protocol := "trojan"; Label := ""; Raw := "trojan://x"; Params := host |}.

Definition sw_opts : ProxyOpts := {|
  PhysIface := "en0"; pPorts := {| Socks := 0; HTTP := 0 |}; pClashAPI := None;
  URLTest := {| utURL := ""; utInterval := ""; utTolerance := 0 |};
  pFirewall := [ {| Firewall.ID := "1"; Firewall.Action := "block"; Firewall.Domain := "ads.example";
                    Firewall.CIDR := ""; Firewall.Process := "" |} ] |}.

Definition sw_empty : Config := {|
  cLog := None; cDNS := {| Servers := []; dnsRules := []; dnsFinal := ""; Strategy := "" |};
  Inbounds := []; Outbounds := []; Endpoints := [];
  cRoute := {| AutoDetectInterface := false; DefaultInterface := ""; Rules := []; Final := "";
               DefaultDomainResolver := "" |};
  cExperimental := None |}.

Definition sw_get (r : result error Config) : Config := match r with Ok c => c | Err _ => sw_empty end.

Definition sw_proxy : Config :=
  sw_get (GenerateProxyConfigOpts sw_renderer sw_registry
    [sw_profile "vpn.example"; sw_profile "203.0.113.7"] sw_opts).

Lemma proxy_config_closed_witness :
  declared sw_proxy = ["proxy-0"; "proxy-1"; "auto"; "proxy"; "direct"; "block"] ∧ well_formed sw_proxy.
Proof.
  split; [vm_compute; reflexivity|].
  refine (proj1 (proxy_config_closed sw_renderer sw_registry
    [sw_profile "vpn.example"; sw_profile "203.0.113.7"] sw_opts sw_proxy sw_laws _)).
  vm_compute. reflexivity.
Defined.

(** ** Bootstrap DNS *)

Lemma elem_of_nonLiteralHosts h hosts : h ∈ nonLiteralHosts hosts ↔ h ∈ hosts ∧ h ≠ "" ∧ ParseIP h = None.
Proof. unfold nonLiteralHosts. rewrite list_elem_of_filter. tauto. Qed.

Lemma elem_of_dedupeHosts h hosts : h ∈ dedupeHosts hosts ↔ h ∈ hosts ∧ h ≠ "".
Proof.
  unfold dedupeHosts. rewrite elem_of_dedup_from, list_elem_of_filter.
  split; [tauto|]. intros [? ?]. split; [done|]. apply not_elem_of_nil.
Qed.

Lemma probeHost_literal url : probeHost url = "" ∨ ParseIP (probeHost url) = None.
Proof. unfold probeHost. repeat case_match; auto. Qed.

(** What the DNS section does with the hosts it is given. *)
Lemma proxy_dns_boot hosts h :
  (h ∈ hosts → h ≠ "" → ∃ r, r ∈ dnsRules (proxy_dns hosts) ∧ h ∈ Schema.Domain r) ∧
  (∀ r, r ∈ dnsRules (proxy_dns hosts) → ruleServer r = bootDNSTag ∧ NoDup (Schema.Domain r) ∧
     Forall (λ h, h ∈ hosts ∧ h ≠ "") (Schema.Domain r)) ∧
  (∀ sv, sv ∈ Servers (proxy_dns hosts) → dnsTag sv = bootDNSTag → Detour sv = "").
Proof.
  unfold proxy_dns. cbn [dnsRules Servers]. split_and!.
  - intros Hin Hne. assert (h ∈ dedupeHosts hosts) as Hd by (by apply elem_of_dedupeHosts).
    rewrite bool_decide_eq_false_2 by (intros Hn; rewrite Hn in Hd; by apply elem_of_nil in Hd).
    simpl. eexists. split; [left|done].
  - case_bool_decide; simpl; intros r Hr; [by apply elem_of_nil in Hr|].
    apply list_elem_of_singleton in Hr as ->. simpl. split_and!; [done|apply NoDup_dedup_from|].
    apply Forall_forall. intros x Hx. by apply elem_of_dedupeHosts in Hx.
  - case_bool_decide; simpl; intros sv Hsv; rewrite !elem_of_cons, elem_of_nil in Hsv;
      destruct_or!; subst; done.
Qed.

Lemma elem_of_boot_hosts nks nk h :
  nk ∈ nks → h ∈ nodeHosts nk.1 → h ≠ "" → ParseIP h = None → h ∈ boot_hosts nks.
Proof.
  intros Hnk Hh Hne Hip. unfold boot_hosts. apply list_elem_of_join.
  exists (nonLiteralHosts (nodeHosts nk.1)). rewrite elem_of_nonLiteralHosts.
  split; [done|]. apply list_elem_of_fmap. by exists nk.
Qed.

Lemma boot_hosts_literal nks h : h ∈ boot_hosts nks → ParseIP h = None.
Proof.
  unfold boot_hosts. intros (l & Hh & Hl)%list_elem_of_join.
  apply list_elem_of_fmap in Hl as (nk & -> & _). by apply elem_of_nonLiteralHosts in Hh as (_ & _ & ?).
Qed.

Lemma group_hosts ut tags n : n ∈ group_outbounds ut tags → nodeHosts n = [].
Proof.
  unfold group_outbounds. rewrite !elem_of_cons, elem_of_nil. by intros [->|[->|[]]].
Qed.

(** No bootstrap loop: in a proxy configuration every host a server dials is
    an address literal or listed in a DNS rule for the bootstrap server, and
    so is the probe host of a set of several servers; the rule lists each
    host once and no literals, and the bootstrap server has no detour, so it
    is never reached through the proxy. *)
Theorem proxy_config_bootstraps {P : Type}
    (renderer : Module_ P → option (Profile P → RenderOpts → result string Node))
    (reg : Registry_ P) (ps : list (Profile P)) (opts : ProxyOpts) (c : Config) :
  GenerateProxyConfigOpts renderer reg ps opts = Ok c →
  (∀ n h, n ∈ Outbounds c ++ Endpoints c → h ∈ nodeHosts n → h ≠ "" → ParseIP h = None →
     ∃ r, r ∈ dnsRules (cDNS c) ∧ h ∈ Schema.Domain r) ∧
  ((1 < length ps)%nat → let h := probeHost (utURL (URLTest_withDefaults (URLTest opts))) in
     h = "" ∨ ∃ r, r ∈ dnsRules (cDNS c) ∧ h ∈ Schema.Domain r) ∧
  (∀ r, r ∈ dnsRules (cDNS c) → ruleServer r = bootDNSTag ∧ NoDup (Schema.Domain r) ∧
     Forall (λ h, h ≠ "" ∧ ParseIP h = None) (Schema.Domain r)) ∧
  (∀ sv, sv ∈ Servers (cDNS c) → dnsTag sv = bootDNSTag → Detour sv = "").
Proof.
  unfold GenerateProxyConfigOpts. destruct ps as [|p0 ps0]; [done|]. set (ps := p0 :: ps0) in *.
  pose proof (proj2 (Nat.ltb_lt 1 (length ps))) as Hm. revert Hm.
  generalize (1 <? length ps)%nat. intros multi Hm. intros (nks & Hr & Hc)%rbind_Ok_inv.
  destruct (firewallRouteRules (pFirewall opts)) as [fw rrs] eqn:Hfr.
  pose proof (firewall_outbounds (pFirewall opts)) as Hfo. rewrite Hfr in Hfo.
  destruct Hfo as (Hfw & _). simplify_eq. cbn [Outbounds Endpoints cDNS].
  match goal with |- context [proxy_dns ?b] => set (hosts := b) end.
  set (ut := URLTest_withDefaults (URLTest opts)) in *.
  split_and!.
  - intros n h Hn Hh Hne Hip. apply (proxy_dns_boot hosts h); [|done].
    assert (∃ nk, nk ∈ nks ∧ n = nk.1) as (nk & Hnk & ->).
    { rewrite ?elem_of_app, ?elem_of_cons in Hn.
      destruct Hn as [[Hn|[Hn|[->|Hn]]]|Hn].
      - apply list_elem_of_fmap in Hn as (nk & -> & [_ Hnk]%list_elem_of_filter). by exists nk.
      - destruct multi; [|by apply elem_of_nil in Hn].
        rewrite (group_hosts _ _ _ Hn) in Hh. by apply elem_of_nil in Hh.
      - by apply elem_of_nil in Hh.
      - destruct Hfw as [[-> _]|[-> _]]; [by apply elem_of_nil in Hn|].
        apply list_elem_of_singleton in Hn as ->. by apply elem_of_nil in Hh.
      - apply list_elem_of_fmap in Hn as (nk & -> & [_ Hnk]%list_elem_of_filter). by exists nk. }
    apply elem_of_app. left. by eapply elem_of_boot_hosts.
  - intros Hlen. cbn zeta. destruct (decide (probeHost (utURL ut) = "")) as [|Hne]; [by left|right].
    apply (proxy_dns_boot hosts (probeHost (utURL ut))); [|done]. unfold hosts.
    rewrite (Hm Hlen).
    apply elem_of_app. right. left.
  - intros r Hr'. destruct (proxy_dns_boot hosts "") as (_ & Hrule & _).
    destruct (Hrule _ Hr') as (? & ? & Hall). split_and!; [done|done|].
    eapply Forall_impl; [exact Hall|]. intros h [Hh Hne]. split; [done|].
    apply elem_of_app in Hh as [Hh|Hh]; [by apply boot_hosts_literal in Hh|].
    destruct multi; [|by apply elem_of_nil in Hh].
    apply list_elem_of_singleton in Hh as ->. by destruct (probeHost_literal (utURL ut)).
  - apply (proxy_dns_boot hosts "").
Qed.

Lemma proxy_config_bootstraps_witness :
  ∃ r, r ∈ dnsRules (cDNS sw_proxy) ∧ "vpn.example" ∈ Schema.Domain r.
Proof.
  refine (proj1 (proxy_config_bootstraps sw_renderer sw_registry
    [sw_profile "vpn.example"; sw_profile "203.0.113.7"] sw_opts sw_proxy _)
    (TrojanOutbound {| dTag := "proxy-0"; Server := "vpn.example"; ServerPort := 443;
       ConnectTimeout := "10s"; BindInterface := "en0" |} "secret" "" None None) "vpn.example" _ _ _ _).
  - vm_compute. reflexivity.
  - vm_compute. left.
  - left.
  - discriminate.
  - vm_compute. reflexivity.
Defined.

(** ** The tunnel and the forwarder *)

(** The sandboxed tunnel is the proxy-only configuration behind a tun inbound:
    [GenerateTunnelConfigSet] succeeds exactly when the proxy generator does,
    without a physical interface, and renders no XHTTP node; the two then
    have the same outbounds, endpoints, DNS section and final route, and the
    tunnel has just the tun inbound, hijacks its DNS and binds nothing. *)
Theorem tunnel_is_unbound_proxy {P : Type}
    (renderer : Module_ P → option (Profile P → RenderOpts → result string Node))
    (reg : Registry_ P) (ps : list (Profile P)) (ut : URLTestParams) (ports : Ports) :
  let opts := {| PhysIface := ""; pPorts := ports; pClashAPI := None; URLTest := ut; pFirewall := [] |} in
  match GenerateTunnelConfigSet renderer reg ps ut, GenerateProxyConfigOpts renderer reg ps opts with
  | Ok t, Ok c =>
      Outbounds t = Outbounds c ∧ Endpoints t = Endpoints c ∧ cDNS t = cDNS c ∧
      Final (cRoute t) = Final (cRoute c) ∧
      DefaultDomainResolver (cRoute t) = DefaultDomainResolver (cRoute c) ∧
      Inbounds t = [tun_inbound] ∧ rule_hijack_dns ∈ Rules (cRoute t) ∧
      DefaultInterface (cRoute t) = "" ∧ cExperimental t = None
  | Err e, Ok c => ∃ l d u tl x, e = ErrXHTTPUnsupportedInTunnel l ∧
      XHTTPOutbound d u tl x ∈ Outbounds c ++ Endpoints c
  | Err _, Err _ => True
  | Ok _, Err _ => False
  end.
Proof.
  intros opts. unfold GenerateTunnelConfigSet, GenerateProxyConfigOpts.
  destruct ps as [|p0 ps0]; [done|]. set (ps := p0 :: ps0).
  set (multi := (1 <? length ps)%nat). cbn [PhysIface URLTest pFirewall opts].
  destruct (render_tunnel renderer reg multi 0 ps) as [nks|e] eqn:Ht.
  - apply render_tunnel_render_all in Ht as [-> _]. cbn [rbind].
    change (firewallRouteRules []) with ([] : list Node, [] : list RouteRule). cbn beta iota.
    cbn [Outbounds Endpoints cDNS cRoute Final DefaultDomainResolver Inbounds Rules DefaultInterface
         cExperimental]. split_and!; try done. right. left.
  - cbn [rbind]. destruct (render_all renderer reg multi "" 0 ps) as [nks|e'] eqn:Hr; cbn [rbind]; [|done].
    change (firewallRouteRules []) with ([] : list Node, [] : list RouteRule). cbn beta iota.
    assert (∃ l d u tl x, e = ErrXHTTPUnsupportedInTunnel l ∧ XHTTPOutbound d u tl x ∈ nks.*1)
      as (l & d & u & tl & x & -> & Hin).
    { clearbody ps multi. revert nks Hr Ht. generalize 0%nat.
      induction ps as [|p ps IH]; intros i nks; cbn [render_all render_tunnel]; [done|].
      intros ([n k] & Hn & (nks' & Hnks & [= <-])%rbind_Ok_inv)%rbind_Ok_inv.
      rewrite Hn. cbn [rbind]. destruct (tunnel_check p (n, k).1) as [e1|] eqn:Hc.
      - intros [= ->]. unfold tunnel_check in Hc. simpl in Hc. destruct n; simplify_eq.
        do 5 eexists. split; [done|]. left.
      - intros Hrest. destruct (render_tunnel renderer reg multi (S i) ps) as [nks2|e2] eqn:Hrt; [done|].
        simpl in Hrest. simplify_eq. destruct (IH _ _ Hnks Hrt) as (l & d & u & tl & x & -> & Hin).
        do 5 eexists. split; [done|]. by right. }
    exists l, d, u, tl, x. split; [done|]. cbn [Outbounds Endpoints].
    rewrite <- (placed_perm nks) in Hin. rewrite ?elem_of_app. rewrite ?elem_of_app in Hin. tauto.
Qed.

(** The loop guard of the forwarder and the tunnel misses a server given as an
    IPv4-mapped IPv6 address: the prefix length is chosen from the IPv4 form
    and put after the IPv6 text, so the rule sends all of ::/32 direct and
    does not cover the server. *)
Theorem loop_guard_misses_mapped_server :
  let cidr := guard_cidr "::ffff:203.0.113.7" in
  cidr = Some "::ffff:203.0.113.7/32" ∧
  (n ← (s ← cidr; ParseCIDR s); ip ← ParseIP "203.0.113.7"; Some (net_contains n ip)) = Some false ∧
  (n ← (s ← cidr; ParseCIDR s); ip ← ParseIP "0:0:dead:beef::1"; Some (net_contains n ip)) = Some true ∧
  (λ c, Rules (cRoute c)) <$> (match GenerateForwarderConfigSet sw_renderer sw_registry
     [sw_profile "::ffff:203.0.113.7"] DefaultPorts with Ok c => Some c | Err _ => None end) =
  Some [rule_sniff; rule_hijack_dns; rule_private; guard_rule "::ffff:203.0.113.7/32"].
Proof. vm_compute. split_and!; reflexivity. Qed.

End Singbox.
