(* ===== verification/WireGuard.v ===== *)
(** * WireGuard: the config-input protocol module
    ([internal/protocol/wireguard/wireguard.go])

    The INI parser, the sniffer, the renderer, and the module as the registry
    sees it; then what happens to its configurations on their way through the
    registry. *)

From S2P Require Import Prelude GoStr GoUrl Registry Schema Singbox.
Import Registry Schema Singbox.

Local Open Scope string_scope.
Local Open Scope list_scope.

Module WireGuard.

Definition name : string := "wireguard".

Record Peer := {
  PublicKey : string;
  PresharedKey : string;
  EndpointHost : string;
  EndpointPort : Z;
  AllowedIPs : list string;
  PersistentKeepalive : Z
}.

Record Params := {
  PrivateKey : string;
  Address : list string;
  MTU : Z;
  ListenPort : Z;
  DNS : list string;
  Peers : list Peer
}.

Inductive error :=
  | ErrTwoInterfaces
  | ErrNoInterface
  | ErrPrivateKey
  | ErrAddress
  | ErrNoPeer
  | ErrPublicKey (i : nat)
  | ErrMTU (v : string)
  | ErrListenPort (v : string)
  | ErrKeepalive (v : string)
  | ErrEndpoint (e : string)
  | ErrEndpointPort (v : string)
  | ErrTooLong.

#[export] Instance error_eq_dec : EqDecision error.
Proof. solve_decision. Defined.

Definition no_peer : Peer := {|
  PublicKey := ""; PresharedKey := ""; EndpointHost := ""; EndpointPort := 0; AllowedIPs := [];
  PersistentKeepalive := 0 |}.
Definition no_params : Params := {|
  PrivateKey := ""; Address := []; MTU := 0; ListenPort := 0; DNS := []; Peers := [] |}.

Definition splitCSV (v : string) : list string :=
  filter (λ s, s ≠ "") (TrimSpace <$> split_byte "," v).

Definition splitEndpoint (v : string) : result error (string * Z) :=
  match Url.SplitHostPort v with
  | Err e => Err (ErrEndpoint e)
  | Ok (host, port) =>
      match Atoi port with
      | None => Err (ErrEndpointPort port)
      | Some p => Ok (host, p)
      end
  end.

Definition setInterfaceField (p : Params) (key value : string) : result error Params :=
  if String.eqb key "privatekey" then
    Ok {| PrivateKey := value; Address := Address p; MTU := MTU p; ListenPort := ListenPort p;
          DNS := DNS p; Peers := Peers p |}
  else if String.eqb key "address" then
    Ok {| PrivateKey := PrivateKey p; Address := splitCSV value; MTU := MTU p;
          ListenPort := ListenPort p; DNS := DNS p; Peers := Peers p |}
  else if String.eqb key "mtu" then
    match Atoi value with
    | None => Err (ErrMTU value)
    | Some n =>
        Ok {| PrivateKey := PrivateKey p; Address := Address p; MTU := n;
              ListenPort := ListenPort p; DNS := DNS p; Peers := Peers p |}
    end
  else if String.eqb key "listenport" then
    match Atoi value with
    | None => Err (ErrListenPort value)
    | Some n =>
        Ok {| PrivateKey := PrivateKey p; Address := Address p; MTU := MTU p; ListenPort := n;
              DNS := DNS p; Peers := Peers p |}
    end
  else if String.eqb key "dns" then
    Ok {| PrivateKey := PrivateKey p; Address := Address p; MTU := MTU p;
          ListenPort := ListenPort p; DNS := splitCSV value; Peers := Peers p |}
  else Ok p.

Definition setPeerField (p : Peer) (key value : string) : result error Peer :=
  if String.eqb key "publickey" then
    Ok {| PublicKey := value; PresharedKey := PresharedKey p; EndpointHost := EndpointHost p;
          EndpointPort := EndpointPort p; AllowedIPs := AllowedIPs p;
          PersistentKeepalive := PersistentKeepalive p |}
  else if String.eqb key "presharedkey" then
    Ok {| PublicKey := PublicKey p; PresharedKey := value; EndpointHost := EndpointHost p;
          EndpointPort := EndpointPort p; AllowedIPs := AllowedIPs p;
          PersistentKeepalive := PersistentKeepalive p |}
  else if String.eqb key "endpoint" then
    let? (host, port) := splitEndpoint value in
    Ok {| PublicKey := PublicKey p; PresharedKey := PresharedKey p; EndpointHost := host;
          EndpointPort := port; AllowedIPs := AllowedIPs p;
          PersistentKeepalive := PersistentKeepalive p |}
  else if String.eqb key "allowedips" then
    Ok {| PublicKey := PublicKey p; PresharedKey := PresharedKey p; EndpointHost := EndpointHost p;
          EndpointPort := EndpointPort p; AllowedIPs := splitCSV value;
          PersistentKeepalive := PersistentKeepalive p |}
  else if String.eqb key "persistentkeepalive" then
    match Atoi value with
    | None => Err (ErrKeepalive value)
    | Some n =>
        Ok {| PublicKey := PublicKey p; PresharedKey := PresharedKey p;
              EndpointHost := EndpointHost p; EndpointPort := EndpointPort p;
              AllowedIPs := AllowedIPs p; PersistentKeepalive := n |}
    end
  else Ok p.

Inductive Section_ := SecNone | SecInterface | SecPeer.

(** The variables of [parseINI]; [cur] is the last peer of [params] while it is
    not nil, which in section "peer" it never is. *)
Record ParseState := { params : Params; haveInterface : bool; section : Section_ }.

Definition with_peers (p : Params) (ps : list Peer) : Params := {|
  PrivateKey := PrivateKey p; Address := Address p; MTU := MTU p; ListenPort := ListenPort p;
  DNS := DNS p; Peers := ps |}.

(** Update of the last peer. *)
Definition set_last_peer (p : Params) (key value : string) : result error Params :=
  match last (Peers p) with
  | None => Ok p
  | Some cur =>
      let? cur' := setPeerField cur key value in
      Ok (with_peers p (removelast (Peers p) ++ [cur']))
  end.

Section unicode.
Context `{GoUnicode}.

Definition parse_line (st : ParseState) (text : string) : result error ParseState :=
  let line := TrimSpace text in
  if String.eqb line "" || HasPrefix line "#" || HasPrefix line ";" then Ok st
  else if HasPrefix line "[" && HasSuffix line "]" then
    let sec := ToLower (TrimSpace (String.substring 1 (String.length line - 2) line)) in
    if String.eqb sec "interface" then
      if haveInterface st then Err ErrTwoInterfaces
      else Ok {| params := params st; haveInterface := true; section := SecInterface |}
    else if String.eqb sec "peer" then
      Ok {| params := with_peers (params st) (Peers (params st) ++ [no_peer]);
            haveInterface := haveInterface st; section := SecPeer |}
    else Ok {| params := params st; haveInterface := haveInterface st; section := SecNone |}
  else
    match Cut line "=" with
    | None => Ok st
    | Some (key, value) =>
        let key := ToLower (TrimSpace key) in
        let value := TrimSpace value in
        let? p :=
          match section st with
          | SecInterface => setInterfaceField (params st) key value
          | SecPeer => set_last_peer (params st) key value
          | SecNone => Ok (params st)
          end in
        Ok {| params := p; haveInterface := haveInterface st; section := section st |}
    end.

Fixpoint parse_lines (st : ParseState) (ls : list string) : result error ParseState :=
  match ls with
  | [] => Ok st
  | l :: ls => let? st := parse_line st l in parse_lines st ls
  end.

(** The first peer, counted from [i], without a public key. *)
Fixpoint missing_key (i : nat) (ps : list Peer) : option nat :=
  match ps with
  | [] => None
  | p :: ps => if String.eqb (PublicKey p) "" then Some i else missing_key (S i) ps
  end.

Definition parseINI (raw : string) : result error Params :=
  let '(ls, too_long) := scan_lines MaxScanTokenSize raw in
  let? st := parse_lines {| params := no_params; haveInterface := false; section := SecNone |} ls in
  let p := params st in
  if too_long then Err ErrTooLong
  else if negb (haveInterface st) then Err ErrNoInterface
  else if String.eqb (PrivateKey p) "" then Err ErrPrivateKey
  else if bool_decide (Address p = []) then Err ErrAddress
  else if bool_decide (Peers p = []) then Err ErrNoPeer
  else match missing_key 1 (Peers p) with
       | Some i => Err (ErrPublicKey i)
       | None => Ok p
       end.

Definition Sniff (raw : string) : bool :=
  existsb (λ l, String.eqb (ToLower (TrimSpace l)) "[interface]") (fst (scan_lines MaxScanTokenSize raw)).

Definition Parse (raw : string) : result error (Profile Params) :=
  let? p := parseINI raw in
  Ok {| Protocol := name;
        Label := match Peers p with [] => "" | q :: _ => EndpointHost q end;
        Raw := raw;
        Registry.Params := p |}.

End unicode.

Definition render_peer (p : Peer) : WireGuardPeer := {|
  peerAddress := EndpointHost p;
  peerPort := EndpointPort p;
  peerPublicKey := PublicKey p;
  peerPreSharedKey := PresharedKey p;
  peerAllowedIPs := match AllowedIPs p with [] => ["0.0.0.0/0"; "::/0"] | l => l end;
  PersistentKeepaliveInterval := PersistentKeepalive p |}.

Definition RenderNode (p : Profile Params) (o : RenderOpts) : result string Node :=
  let params := Registry.Params p in
  Ok (WireGuardEndpoint (oTag o) (MTU params) (Address params) (PrivateKey params)
        (ListenPort params) (render_peer <$> Peers params) (oBindInterface o) (oConnectTimeout o)).

(** ** Parsing *)

Lemma missing_key_None i ps : missing_key i ps = None ↔ Forall (λ p, PublicKey p ≠ "") ps.
Proof.
  revert i. induction ps as [|p ps IH]; intros i; simpl; [by split|].
  rewrite Forall_cons. destruct (String.eqb _ _) eqn:He.
  - apply String.eqb_eq in He. naive_solver.
  - apply String.eqb_neq in He. rewrite IH. naive_solver.
Qed.

(** What the checks of a configuration leave. *)
Lemma Parse_facts `{GoUnicode} (raw : string) (prof : Profile Params) : Parse raw = Ok prof →
  let p := Registry.Params prof in
  Protocol prof = name ∧ Raw prof = raw ∧
  PrivateKey p ≠ "" ∧ Address p ≠ [] ∧ Peers p ≠ [] ∧ Forall (λ q, PublicKey q ≠ "") (Peers p).
Proof.
  unfold Parse. intros (p & Hp & [= <-])%rbind_Ok_inv. simpl.
  unfold parseINI in Hp. destruct (scan_lines _ _) as [ls tl].
  apply rbind_Ok_inv in Hp as (st & _ & Hst).
  destruct tl; [done|]. destruct (negb _); [done|].
  destruct (String.eqb (PrivateKey (params st)) "") eqn:Hk; [done|]. apply String.eqb_neq in Hk.
  case_bool_decide as Ha; [done|]. case_bool_decide as Hpe; [done|].
  destruct (missing_key 1 _) eqn:Hm; [done|]. apply missing_key_None in Hm. by simplify_eq.
Qed.

Lemma render_peers_allowed ps : Forall (λ q, peerAllowedIPs q ≠ []) (render_peer <$> ps).
Proof. apply Forall_fmap, Forall_forall. intros q _. simpl. by destruct (AllowedIPs q). Qed.

(** A WireGuard configuration that parses has what the engine needs: a private
    key, an address, a peer, a public key for every peer; the endpoint
    rendered for it carries the tag and interface it is asked for, dials
    exactly the peers' endpoint hosts, and no peer is without allowed
    addresses. *)
Theorem parsed_config_renders `{GoUnicode} (raw : string) (prof : Profile Params) (o : RenderOpts) :
  Parse raw = Ok prof →
  let p := Registry.Params prof in
  Protocol prof = name ∧ Raw prof = raw ∧
  PrivateKey p ≠ "" ∧ Address p ≠ [] ∧ Peers p ≠ [] ∧ Forall (λ q, PublicKey q ≠ "") (Peers p) ∧
  ∃ n, RenderNode prof o = Ok n ∧ node_tag n = oTag o ∧ node_bind n = oBindInterface o ∧
    (∀ h, h ∈ nodeHosts n ↔ h ≠ "" ∧ ∃ q, q ∈ Peers p ∧ EndpointHost q = h) ∧
    match n with
    | WireGuardEndpoint _ _ _ _ _ peers _ _ =>
        length peers = length (Peers p) ∧ Forall (λ q, peerAllowedIPs q ≠ []) peers
    | _ => False
    end.
Proof.
  intros (Hn & Hr & Hk & Ha & Hpe & Hm)%Parse_facts. cbv zeta in *.
  split_and!; try done. eexists. split; [done|]. simpl. split_and!; try done.
  - intros h. unfold wireGuardPeerHosts. rewrite list_elem_of_filter, <- list_fmap_compose,
      list_elem_of_fmap. simpl. naive_solver.
  - apply length_fmap.
  - apply render_peers_allowed.
Qed.

Definition lines (ls : list string) : string := Join nl ls.

Definition ww_config : string := lines [
  "[Interface]"; "PrivateKey = aGVsbG8="; "Address = 10.0.0.2/32, fd00::2/128"; "";
  "[Peer]"; "PublicKey = d29ybGQ="; "Endpoint = wg.example:51820"].

#[local] Existing Instance ascii_only.

Definition ww_profile : Profile Params :=
  match Parse ww_config with
  | Ok p => p
  | Err _ => {| Protocol := ""; Label := ""; Raw := ""; Registry.Params := no_params |}
  end.

Lemma parsed_config_renders_witness :
  EndpointHost <$> Peers (Registry.Params ww_profile) = ["wg.example"] ∧
  PrivateKey (Registry.Params ww_profile) ≠ "".
Proof.
  split; [vm_compute; reflexivity|].
  destruct (parsed_config_renders ww_config ww_profile
    {| oTag := "proxy"; oBindInterface := ""; oConnectTimeout := "10s" |}) as (_ & _ & Hk & _).
  - vm_compute. reflexivity.
  - exact Hk.
Defined.

(** The INI file's keys may come in any case and spacing; comments and unknown
    sections are skipped; what the sections need is checked. *)
Example parse_variants :
  (λ p, (PrivateKey p, Address p, MTU p, length (Peers p))) <$>
    (match parseINI (lines ["# c"; "[ INTERFACE ]"; "privatekey=k"; " ADDRESS = a, ,b "; "mtu=1280";
        "[Other]"; "PrivateKey=x"; "[peer]"; "publickey=p"; "[Peer]"; "PublicKey = q"]) with
     | Ok p => Some p | Err _ => None end) = Some ("k", ["a"; "b"], 1280%Z, 2%nat).
Proof. vm_compute. reflexivity. Qed.
Example parse_errors :
  (parseINI "PrivateKey=k", parseINI (lines ["[Interface]"; "[Interface]"]),
   parseINI (lines ["[Interface]"; "MTU=x"]),
   parseINI (lines ["[Interface]"; "PrivateKey=k"; "Address=a"; "[Peer]"; "PublicKey=p"; "[Peer]"])) =
  (Err ErrNoInterface, Err ErrTwoInterfaces, Err (ErrMTU "x"), Err (ErrPublicKey 2)).
Proof. vm_compute. reflexivity. Qed.

(** ** Through the registry *)

(** The shipped link modules, with parsers that are parameters, and this one. *)
Section shipped.
Context {P : Type} (of_params : Params → P) (link_parse : string → string → result string (Profile P)).

Definition link_module (n title : string) (schemes : list string) : Module_ P := {|
  descriptor := {| Name := n; Title := title; dKind := KindOutbound; dInput := InputLink;
                   Registry.Schemes := schemes |};
  mParse := link_parse n; mSetLabel := None; mSniff := None |}.

Definition wireguard_module : Module_ P := {|
  descriptor := {| Name := name; Title := "WireGuard"; dKind := KindEndpoint; dInput := InputConfig;
                   Registry.Schemes := [] |};
  mParse := λ raw, match Parse raw with
    | Ok p => Ok {| Protocol := Protocol p; Label := Label p; Raw := Raw p;
                    Registry.Params := of_params (Registry.Params p) |}
    | Err _ => Err "wireguard"
    end;
  mSetLabel := None; mSniff := Some Sniff |}.

Definition shipped_modules : list (Module_ P) := [
  link_module "vless" "VLESS" ["vless"]; link_module "vmess" "VMess" ["vmess"];
  link_module "trojan" "Trojan" ["trojan"]; link_module "shadowsocks" "Shadowsocks" ["ss"];
  link_module "hysteria" "Hysteria" ["hysteria"; "hy"];
  link_module "hysteria2" "Hysteria2" ["hysteria2"; "hy2"]; link_module "tuic" "TUIC" ["tuic"];
  link_module "anytls" "AnyTLS" ["anytls"]; wireguard_module].

Definition shipped : Registry_ P :=
  match NewRegistry shipped_modules with Ok r => r | Err _ => empty_registry end.

End shipped.

(** A configuration with a URL in a comment is refused: the sniffer claims it
    and its parser accepts it, but the registry looks for a scheme first and
    reports the text before "://" as an unsupported one. *)
Theorem config_with_url_comment_refused :
  let cfg := lines ["# from https://vpn.example/me"; ww_config] in
  let r := shipped (λ p, p) (λ n _, Err n) in
  Sniff cfg = true ∧ is_ok (Parse cfg) = true ∧ isWholeConfig r cfg = true ∧
  ParseAll r [cfg] = Err (unsupported r "# from https") ∧
  is_ok (ParseAll r [ww_config]) = true.
Proof. vm_compute. split_and!; reflexivity. Qed.

(** A configuration cannot join other keys: the executor saves and reloads a key
    set as one newline-joined text, which the sniffer claims as a whole as
    soon as it has an interface section.  The whole text is then handed to
    the parser of the first link, as whose label the configuration is parsed
    if the link has one, or refused when the configuration comes first; two
    configurations are refused. *)
Theorem config_in_a_set_is_glued (link_parse : string → string → result string (Profile Params)) :
  let r := shipped (λ p, p) link_parse in
  let link := "vless://id@srv.example:443#Home" in
  let whole := lines [link; ww_config] in
  ParseAll r [whole] =
    (match link_parse "vless" whole with Ok p => Ok [p] | Err e => Err (ErrModule e) end) ∧
  Url.Fragment <$> Url.Parse whole = Some (lines ["Home"; ww_config]) ∧
  ParseAll r [lines [ww_config; link]] = Err (unsupported r (lines [ww_config; "vless"])) ∧
  ParseAll r [lines [ww_config; ww_config]] = Err (ErrModule "wireguard").
Proof.
  intros r link whole. split_and!; [|vm_compute; reflexivity..].
  vm_compute. by destruct (link_parse _ _).
Qed.

End WireGuard.
