(* ===== verification/Link.v ===== *)
(** * Link: what the share-link modules have in common
    ([internal/protocol/*])

    Every link module but vmess and shadowsocks parses its link the same way:
    trim, parse as a URL, check the scheme, then decode the user, host, port
    and query into its parameters.  [LinkModule] is that scheme: its [decode]
    sees only those parts.  The packages repeat the helpers below word for
    word; they are here once.  The facts hold for every such module: what
    parses has a host and a port, and renaming a link preserves what it
    parses to ([relabel_keeps]). *)

From S2P Require Import Prelude GoStr GoUrl GoUrlFacts Registry Schema.
Import Registry Schema.

Local Open Scope string_scope.
Local Open Scope list_scope.

Module Link.

(** ** Helpers *)

(** [strings.EqualFold(s, lit)] for a literal in lower-case ASCII. *)
Definition EqualFold (s lit : string) : bool := bool_decide (match_lit lit s = Some "").

Definition splitCSV (s : string) : list string :=
  if String.eqb (TrimSpace s) "" then []
  else filter (λ p, p ≠ "") (TrimSpace <$> split_byte "," s).

Fixpoint firstNonEmpty (vals : list string) : string :=
  match vals with
  | [] => ""
  | v :: vals => if negb (String.eqb v "") then v else firstNonEmpty vals
  end.

(** [s == "1" || strings.EqualFold(s, "true")] *)
Definition is_true (s : string) : bool := String.eqb s "1" || EqualFold s "true".

(** [strings.ToLower(strings.TrimSpace(s))], and the default for an empty value. *)
Definition lower_trimmed `{GoUnicode} (s : string) : string := ToLower (TrimSpace s).
Definition or_default (s d : string) : string := if String.eqb s "" then d else s.

(** [ParseError]: the field, the value and the text of the sentinel error. *)
Record ParseError := { Field : string; Value : string; Sentinel : string }.

Definition ParseError_Error `{GoQuote} (module : string) (e : ParseError) : string :=
  if negb (String.eqb (Value e) "")
  then module +:+ ": " +:+ Field e +:+ "=" +:+ Quote (Value e) +:+ ": " +:+ Sentinel e
  else module +:+ ": " +:+ Field e +:+ ": " +:+ Sentinel e.

Definition parseErr (field value sentinel : string) : ParseError :=
  {| Field := field; Value := value; Sentinel := sentinel |}.

Definition ErrMissingHost : string := "missing host".
Definition ErrMissingPort : string := "missing port".
Definition ErrInvalidPort : string := "invalid port".

(** [strconv.ParseUint(s, 10, 16)]; [None] is an error. *)
Definition ParseUint16 (s : string) : option Z :=
  if str_forallb is_digit s then
    n ← parse_digits s; if (Z.of_N n <=? 65535)%Z then Some (Z.of_N n) else None
  else None.

Definition need_host (host : string) : result ParseError string :=
  if String.eqb host "" then Err (parseErr "host" "" ErrMissingHost) else Ok host.

Definition need_port (portStr : string) : result ParseError Z :=
  if String.eqb portStr "" then Err (parseErr "port" "" ErrMissingPort)
  else match ParseUint16 portStr with
       | Some p => if (p =? 0)%Z then Err (parseErr "port" portStr ErrInvalidPort) else Ok p
       | None => Err (parseErr "port" portStr ErrInvalidPort)
       end.

(** [u.User == nil || u.User.Username() == ""], and the user name. *)
Definition need_user (field sentinel : string) (user : option Url.Userinfo) : result ParseError string :=
  match user with
  | Some ui => if String.eqb (Url.username ui) "" then Err (parseErr field "" sentinel) else Ok (Url.username ui)
  | None => Err (parseErr field "" sentinel)
  end.

Definition is_hex (c : ascii) : bool := in_range 48 57 c || in_range 97 102 c || in_range 65 70 c.
Definition hex_block (n : nat) (s : string) : bool := (String.length s =? n)%nat && str_forallb is_hex s.

(** [uuidRe] *)
Definition is_uuid (s : string) : bool :=
  match split_byte "-" s with
  | [a; b; c; d; e] => hex_block 8 a && hex_block 4 b && hex_block 4 c && hex_block 4 d && hex_block 12 e
  | _ => false
  end.

(** *** TLS and transport *)

Record TLSParams := { pServerName : string; pFingerprint : string; pALPN : list string; pInsecure : bool }.

(** An enabled TLS block, with REALITY if there is any. *)
Definition tls_block (t : TLSParams) (r : option Reality) : TLS := {|
  tlsEnabled := true; ServerName := pServerName t; Insecure := pInsecure t; ALPN := pALPN t;
  tlsUTLS := if String.eqb (pFingerprint t) "" then None
             else Some {| utlsEnabled := true; Fingerprint := pFingerprint t |};
  tlsReality := r |}.

Record TransportParams := {
  tType : string;
  tServiceName : string;
  tPath : string;
  tHost : list string;
  tHeaderType : string;
  tMode : string;
  tExtra : string
}.

Definition no_transport : Transport := {|
  transportType := ""; ServiceName := ""; transportPath := ""; transportHost := []; Headers := ∅ |}.

Definition buildTransport (t : TransportParams) : option Transport :=
  if String.eqb (tType t) "grpc" then
    Some {| transportType := "grpc"; ServiceName := tServiceName t; transportPath := "";
            transportHost := []; Headers := ∅ |}
  else if String.eqb (tType t) "ws" then
    Some {| transportType := "ws"; ServiceName := ""; transportPath := tPath t; transportHost := [];
            Headers := match tHost t with h :: _ => {["Host" := h]} | [] => ∅ end |}
  else if String.eqb (tType t) "http" then
    Some {| transportType := "http"; ServiceName := ""; transportPath := tPath t;
            transportHost := tHost t; Headers := ∅ |}
  else None.

(** What every dialing outbound takes from the options. *)
Definition dialer (o : RenderOpts) (host : string) (port : Z) : Dialer := {|
  dTag := oTag o; Server := host; ServerPort := port; ConnectTimeout := oConnectTimeout o;
  BindInterface := oBindInterface o |}.

(** What an outbound dials, if it dials a server, and with which TLS block. *)
Definition node_dialer (n : Node) : option Dialer :=
  match n with
  | VLESSOutbound d _ _ _ _ | VMessOutbound d _ _ _ _ _ _ _ | TrojanOutbound d _ _ _ _
  | ShadowsocksOutbound d _ _ _ _ _ | HysteriaOutbound d _ _ _ _ _ _
  | Hysteria2Outbound d _ _ _ _ _ _ | TUICOutbound d _ _ _ _ _ _ _ _
  | AnyTLSOutbound d _ _ _ _ _ | XHTTPOutbound d _ _ _ => Some d
  | _ => None
  end.

Definition node_tls (n : Node) : option TLS :=
  match n with
  | VLESSOutbound _ _ _ t _ | VMessOutbound _ _ _ _ _ t _ _ | TrojanOutbound _ _ _ t _
  | HysteriaOutbound _ _ _ _ _ _ t | Hysteria2Outbound _ _ _ _ _ _ t
  | TUICOutbound _ _ _ _ _ _ _ _ t | AnyTLSOutbound _ _ t _ _ _ | XHTTPOutbound _ _ t _ => t
  | _ => None
  end.

(** ** The scheme of a link module *)

Record LinkModule (P : Type) := {
  lName : string;
  lTitle : string;
  lSchemes : list string;                (* the ones [Parse] accepts *)
  lErrNot : string;
  decode : option Url.Userinfo → string → string → list (string * string) → result ParseError P
}.
Arguments lName {P} _.
Arguments lTitle {P} _.
Arguments lSchemes {P} _.
Arguments lErrNot {P} _.
Arguments decode {P} _ _ _ _ _.

Section module.
Context {P : Type} (m : LinkModule P).

Definition decode_url (u : Url.URL) : result ParseError P :=
  if negb (existsb (EqualFold (Url.Scheme u)) (lSchemes m))
  then Err (parseErr "scheme" (Url.Scheme u) (lErrNot m))
  else decode m (Url.User u) (Url.Hostname u) (Url.Port u) (Url.Query u).

(** [Module.Parse] *)
Definition Parse (raw : string) : result ParseError (Profile P) :=
  let raw := TrimSpace raw in
  match Url.Parse raw with
  | None => Err (parseErr "link" raw (lErrNot m))
  | Some u =>
      let? p := decode_url u in
      Ok {| Protocol := lName m; Label := Url.Fragment u; Raw := raw; Params := p |}
  end.

(** [Module.SetLabel] *)
Definition SetLabel (raw label : string) : result ParseError string :=
  let raw := TrimSpace raw in
  match Url.Parse raw with
  | None => Err (parseErr "link" raw (lErrNot m))
  | Some u => Ok (Url.URL_String (Url.set_Fragment (TrimSpace label) u))
  end.
End module.

(** ** Facts *)

Lemma need_port_range s p : need_port s = Ok p → (1 <= p <= 65535)%Z.
Proof.
  unfold need_port, ParseUint16. destruct (String.eqb s ""); [done|].
  destruct (str_forallb is_digit s); [|done]. destruct (parse_digits s) as [n|]; cbn; [|done].
  destruct (Z.of_N n <=? 65535)%Z eqn:Hn; cbn; [|done]. destruct (Z.of_N n =? 0)%Z eqn:H0; [done|].
  intros [= <-]. propify. lia.
Qed.

Lemma need_host_Ok h h' : need_host h = Ok h' → h' = h ∧ h ≠ "".
Proof. unfold need_host. destruct (String.eqb_spec h ""); [done|]. by intros [= <-]. Qed.

(** What a module promises: it refuses a link without a host. *)
Class NeedsHost {P} (m : LinkModule P) : Prop :=
  needs_host : ∀ user port q, is_ok (decode m user "" port q) = false.

Class PlainSchemes {P} (m : LinkModule P) : Prop :=
  plain_schemes : Forall (λ s, s ≠ "") (lSchemes m).

(** A label that is printed into the fragment is not trimmed off the link. *)
Lemma TrimSpace_relabelled u label :
  link_parts u → Url.Host u ≠ "" → label ≠ "" →
  TrimSpace (Url.URL_String (Url.set_Fragment label u)) = Url.URL_String (Url.set_Fragment label u).
Proof.
  intros Hp Hh Hl. assert (Hv : link_parts (Url.set_Fragment label u)) by (by destruct Hp; split).
  rewrite URL_String_link by done. cbn [Url.set_Fragment Url.with_fragment Url.Fragment fst].
  rewrite (proj2 (String.eqb_neq label "") Hl). unfold TrimSpace.
  destruct Hp as [[Hok _] _ _ _ _]. destruct (Url.Scheme u) as [|c sch] eqn:E; [done|].
  assert (is_word_byte c = true) as Hc.
  { cbn [scheme_ok] in Hok. apply andb_true_iff in Hok as [Hc _]. clear E. revert c Hc. clear. by_bytes. }
  unfold link_text. cbn [Url.set_Fragment Url.with_fragment Url.Scheme]. rewrite E.
  change (String c sch +:+ ?x) with (String c (sch +:+ x)). change (String c ?x +:+ ?y) with (String c (x +:+ y)).
  rewrite TrimLeftSpace_word by done.
  match goal with |- _ (String c (?x +:+ ?t)) = _ => change (String c (x +:+ t)) with (String c x +:+ t) end.
  apply TrimRightSpace_solid; [done|]. change ("#" +:+ ?x) with (String "#" x). cbn [str_forallb].
  by rewrite escaped_fragment_solid.
Qed.

Section relabel.
Context {P : Type} (m : LinkModule P) `{Hhost : !NeedsHost m} `{Hsch : !PlainSchemes m}.

Lemma Parse_inv raw p : Parse m raw = Ok p →
  ∃ u, Url.Parse (TrimSpace raw) = Some u ∧ decode_url m u = Ok (Params p) ∧
    Label p = Url.Fragment u ∧ Raw p = TrimSpace raw ∧ Protocol p = lName m.
Proof.
  unfold Parse. destruct (Url.Parse (TrimSpace raw)) as [u|]; [|done].
  intros (q & Hq & [= <-])%rbind_Ok_inv. by exists u.
Qed.

Lemma decode_url_host u p : decode_url m u = Ok p → Url.Scheme u ≠ "" ∧ Url.Hostname u ≠ "" ∧ Url.Host u ≠ "".
Proof.
  unfold decode_url. destruct (existsb _ _) eqn:Hs; cbn [negb]; [|done]. intros Hd.
  assert (Url.Hostname u ≠ "") as Hn.
  { intros Hh. specialize (Hhost (Url.User u) (Url.Port u) (Url.Query u)). rewrite <- Hh, Hd in Hhost. done. }
  split_and!; [|done|].
  - intros E. rewrite E in Hs. apply existsb_exists in Hs as (l & Hl & Hf).
    apply list_elem_of_In in Hl. unfold PlainSchemes in Hsch. rewrite Forall_forall in Hsch.
    specialize (Hsch l Hl). unfold EqualFold in Hf. apply bool_decide_eq_true in Hf.
    destruct l; [done|]. by cbn in Hf.
  - intros E. apply Hn. unfold Url.Hostname. by rewrite E.
Qed.

Lemma relabel_keeps raw p u label : Parse m raw = Ok p →
  Url.Parse (TrimSpace raw) = Some u → str_has "%" (Url.Host u) = false → TrimSpace label ≠ "" →
  ∃ raw', SetLabel m raw label = Ok raw' ∧
    Parse m raw' = Ok {| Protocol := Protocol p; Label := TrimSpace label; Raw := raw'; Params := Params p |} ∧
    TrimSpace raw' = raw' ∧
    ∃ u', Url.Parse raw' = Some u' ∧ Url.Scheme u' = Url.Scheme u ∧ Url.Host u' = Url.Host u.
Proof.
  intros (u0 & Hu0 & Hd & _ & _ & Hpr)%Parse_inv Hu Hno Hl. rewrite Hu in Hu0. injection Hu0 as <-.
  destruct (decode_url_host _ _ Hd) as (Hs & _ & Hh).
  destruct (Parse_String _ u (TrimSpace label) Hu Hs Hh Hno) as (u' & Hu' & Hf & E1 & E2 & E3 & E4).
  exists (Url.URL_String (Url.set_Fragment (TrimSpace label) u)).
  pose proof (TrimSpace_relabelled u (TrimSpace label) ltac:(by eapply Parse_parts) Hh Hl) as Htrim.
  unfold SetLabel. rewrite Hu. split; [done|]. unfold Parse. rewrite Htrim, Hu'.
  assert (decode_url m u' = decode_url m u) as ->.
  { unfold decode_url, Url.Hostname, Url.Port, Url.Query. by rewrite E1, E2, E3, E4. }
  rewrite Hd. cbn [rbind]. rewrite Hf, Hpr. split_and!; [done|done|by exists u'].
Qed.
End relabel.

(** The bound steps of a decoder that succeeded. *)
Ltac rbind_steps H :=
  repeat match type of H with
  | rbind _ _ = Ok _ => let E := fresh "Hstep" in apply rbind_Ok_inv in H as (? & E & H)
  end.

(** What a module's decoder and renderer promise: the decoder takes the host
    and the port of the link, or refuses it; the renderer's outbound dials
    them, under the tag and interface it is asked for. *)
Class Dials {P} (m : LinkModule P) (render : Profile P → RenderOpts → result string Node)
    (host : P → string) (port : P → Z) : Prop := {
  dials_decode : ∀ user h p q x, decode m user h p q = Ok x →
    h ≠ "" ∧ host x = h ∧ need_port p = Ok (port x);
  dials_node : ∀ prof o, ∃ n, render prof o = Ok n ∧
    node_dialer n = Some (dialer o (host (Params prof)) (port (Params prof)))
}.

#[global] Instance dials_needs_host {P} (m : LinkModule P) render host port :
  Dials m render host port → NeedsHost m.
Proof.
  intros Hd user p q. destruct (decode m user "" p q) as [x|] eqn:E; [|done].
  by apply dials_decode in E as [].
Qed.

Lemma node_dialer_facts n d : node_dialer n = Some d →
  node_tag n = dTag d ∧ node_bind n = BindInterface d ∧ nodeHosts n = oneHost (Server d).
Proof. by destruct n; cbn; intros [= ->]. Qed.

Lemma parsed_dials {P} (m : LinkModule P) render host port `{!Dials m render host port} raw p o :
  Parse m raw = Ok p →
  ∃ u n, Url.Parse (TrimSpace raw) = Some u ∧ render p o = Ok n ∧
    node_dialer n = Some (dialer o (Url.Hostname u) (port (Params p))) ∧
    Url.Hostname u ≠ "" ∧ (1 <= port (Params p) <= 65535)%Z.
Proof.
  intros (u & Hu & Hd & _)%Parse_inv. pose proof (dials_node p o) as (n & Hn & Hdial).
  unfold decode_url in Hd. destruct (negb _); [done|]. apply dials_decode in Hd as (Hne & Hh & Hp).
  exists u, n. rewrite <- Hh. split_and!; try done; first [by rewrite Hh | by apply need_port_range in Hp; lia].
Qed.

End Link.
