(* ===== verification/GoPath.v ===== *)
(** * GoPath: Unix paths and files as Go's path/filepath and os see them

    [Clean], [Join], [Dir] and [Base] on texts, and the interface to the file
    system the program's stores are given, with what it relies on of it. *)

From S2P Require Import Prelude GoStr GoNet.

Local Open Scope string_scope.
Local Open Scope list_scope.

Module Path.

Definition slash : ascii := "/".

(** ** Paths *)

(** One component of a path against those kept so far, in reverse. *)
Definition clean_step (rooted : bool) (st : list string) (c : string) : list string :=
  if String.eqb c "" || String.eqb c "." then st
  else if String.eqb c ".." then
    match st with
    | d :: st' => if String.eqb d ".." then c :: st else st'
    | [] => if rooted then [] else [c]
    end
  else c :: st.

Definition components (rooted : bool) (p : string) : list string :=
  rev (foldl (clean_step rooted) [] (split_byte slash p)).

Definition Clean (p : string) : string :=
  let rooted := HasPrefix p "/" in
  let body := Join "/" (components rooted p) in
  if rooted then "/" +:+ body else if String.eqb body "" then "." else body.

(** [filepath.Join] *)
Definition JoinPath (elems : list string) : string :=
  match filter (λ e, e ≠ "") elems with [] => "" | es => Clean (Join "/" es) end.

(** The text before and after the last slash. *)
Definition split_last (p : string) : string * string :=
  let r := srev p in
  let file := before_byte (Ascii.eqb slash) r in
  (srev (String.substring (String.length file) (String.length r - String.length file) r), srev file).

Definition Dir (p : string) : string := Clean (fst (split_last p)).

(** [filepath.Base] *)
Definition Base (p : string) : string :=
  if String.eqb p "" then "."
  else let p := TrimRightBytes (Ascii.eqb slash) p in
       if String.eqb p "" then "/" else snd (split_last p).

Example clean_ex :
  (Clean <$> [""; "/"; "a//b/./c/.."; "/../a"; "../../x"; "a/.."; "/a/b/"; "./"]) =
  ["."; "/"; "a/b"; "/a"; "../../x"; "."; "/a/b"; "."].
Proof. vm_compute. reflexivity. Qed.
Example join_path_ex :
  (JoinPath <$> [["/Users/m"; ".config"; "singctl"]; [""; "a"]; [""; ""]; ["/"; "x"]; ["a"; "../b"]]) =
  ["/Users/m/.config/singctl"; "a"; ""; "/x"; "b"].
Proof. vm_compute. reflexivity. Qed.
Example dir_ex : (Dir <$> ["/a/b/c"; "/a"; "a"; "a/b/"; ""; "/"]) = ["/a/b"; "/"; "."; "a/b"; "."; "/"].
Proof. vm_compute. reflexivity. Qed.
Example base_ex : (Base <$> ["/a/b.app"; "a/"; "/"; ""; "x"]) = ["b.app"; "a"; "/"; "."; "x"].
Proof. vm_compute. reflexivity. Qed.

(** ** A file in a directory *)

Lemma app_str_inv (a b c : string) : a +:+ b = a +:+ c → b = c.
Proof. induction a as [|x a IH]; [done|]. intros [= ?]. by apply IH. Qed.

(** A name that is one component. *)
Definition plain_name (n : string) : bool :=
  negb (String.eqb n "" || String.eqb n "." || String.eqb n "..") && negb (str_has slash n).

Lemma split_byte_some c a : split_byte c a ≠ [].
Proof. destruct a as [|d a]; [done|]. cbn [split_byte]. destruct (Ascii.eqb c d); [done|]. by destruct (split_byte c a). Qed.

Lemma split_byte_snoc c a n : str_has c n = false →
  split_byte c (a +:+ String c n) = split_byte c a ++ [n].
Proof.
  unfold str_has. rewrite negb_false_iff. intros Hn%split_byte_none. induction a as [|d a IH].
  - change (split_byte c (String c n) = [""] ++ [n]). cbn [split_byte]. by rewrite Ascii.eqb_refl, Hn.
  - change (split_byte c (String d (a +:+ String c n)) = split_byte c (String d a) ++ [n]). cbn [split_byte].
    rewrite IH. destruct (Ascii.eqb c d); [done|].
    pose proof (split_byte_some c a). by destruct (split_byte c a).
Qed.

Lemma HasPrefix_snoc d x n : d ≠ "" → HasPrefix (d +:+ String x n) "/" = HasPrefix d "/".
Proof.
  destruct d as [|c d]; [done|]. intros _. change (String c d +:+ ?y) with (String c (d +:+ y)).
  unfold HasPrefix. cbn [CutPrefix]. by destruct (Ascii.eqb "/" c).
Qed.

Lemma components_snoc r d n : plain_name n = true → components r (d +:+ String slash n) = components r d ++ [n].
Proof.
  unfold plain_name. intros [Hn Hs]%andb_true_iff. apply negb_true_iff in Hn, Hs.
  apply orb_false_iff in Hn as [[H1 H2]%orb_false_iff H3].
  unfold components. rewrite split_byte_snoc by done. rewrite foldl_app. cbn [foldl clean_step].
  unfold clean_step at 1. rewrite H1, H2, H3. cbn. done.
Qed.

Lemma JoinPath_file d n : d ≠ "" → plain_name n = true →
  JoinPath [d; n] = let r := HasPrefix d "/" in
    (if r then "/" else "") +:+ Join "/" (components r d ++ [n]).
Proof.
  intros Hd Hn. assert (n ≠ "") as Hne by by intros ->. unfold JoinPath.
  rewrite filter_cons_True by done. rewrite filter_cons_True by done. cbn [filter list_filter].
  change (Join "/" [d; n]) with (d +:+ String slash n). unfold Clean. rewrite HasPrefix_snoc by done.
  rewrite components_snoc by done. cbv zeta. destruct (HasPrefix d "/"); [done|].
  destruct (String.eqb_spec (Join "/" (components false d ++ [n])) "") as [He|_]; [|done].
  exfalso. revert He. destruct (components false d) as [|c l]; [exact Hne|]. cbn [app].
  intros He%(f_equal String.length). assert (∃ x y, l ++ [n] = x :: y) as (x & y & Hl) by (destruct l; by eauto).
  rewrite Hl in He. change (Join "/" (c :: x :: y)) with (c +:+ "/" +:+ Join "/" (x :: y)) in He.
  rewrite !length_app_str in He. cbn in He. lia.
Qed.

(** Two names in a directory are two files. *)
Lemma JoinPath_inj d a b : plain_name a = true → plain_name b = true → JoinPath [d; a] = JoinPath [d; b] → a = b.
Proof.
  intros Ha Hb. destruct (decide (d = "")) as [->|Hd].
  - assert (Hc : ∀ n, plain_name n = true → JoinPath [""; n] = n).
    { intros n Hn. assert (n ≠ "") as Hne by by intros ->. unfold JoinPath. rewrite filter_cons_False by (by intros []).
      rewrite filter_cons_True by done. cbn [filter list_filter Join]. unfold plain_name in Hn.
      apply andb_true_iff in Hn as [Hn Hs]. apply negb_true_iff in Hn, Hs.
      apply orb_false_iff in Hn as [[H1 H2]%orb_false_iff H3].
      assert (HasPrefix n "/" = false) as Hp.
      { destruct n as [|c n]; [done|]. unfold str_has in Hs. apply negb_false_iff in Hs. cbn [str_forallb] in Hs.
        apply andb_true_iff in Hs as [Hc%negb_true_iff _]. unfold slash in Hc. unfold HasPrefix. cbn [CutPrefix]. by rewrite Hc. }
      unfold Clean. rewrite Hp. unfold components. unfold str_has in Hs. apply negb_false_iff in Hs.
      rewrite split_byte_none by done. cbn [foldl]. unfold clean_step. rewrite H1, H2, H3. cbn. by rewrite H1. }
    by rewrite !Hc.
  - rewrite !JoinPath_file by done. cbv zeta. intros He%app_str_inv.
    revert He. induction (components (HasPrefix d "/") d) as [|c l IH]; [done|]. cbn [app].
    assert (Hj : ∀ n, Join "/" (c :: l ++ [n]) = c +:+ "/" +:+ Join "/" (l ++ [n])) by (intros n; by destruct l).
    rewrite !Hj. intros He%app_str_inv%(app_str_inv "/"). by apply IH.
Qed.

End Path.
