(* ===== verification/GoJson.v ===== *)
(** * GoJson: what the program uses of Go's encoding/json

    A document is read in two structurally recursive passes: [lex] turns the
    bytes into tokens, one byte at a time, and [parse_tokens] is a
    shift-reduce parser with an explicit stack, so neither needs fuel.  Go's
    scanner does both at once; two adjacent values, which only the second pass
    refuses here, are refused there at the byte where the second starts, so
    the accepted documents are the same.  Strings and numbers keep their
source text. *)

From S2P Require Import Prelude GoStr GoUtf8.

Local Open Scope string_scope.
Local Open Scope list_scope.

Module Json.

(** ** Documents *)

(** [JStr raw] and the keys of [JObj] hold the text between the quotes, its
    escapes unresolved; [JNum raw] the number's text. *)
Inductive json :=
  | JNull
  | JBool (b : bool)
  | JNum (raw : string)
  | JStr (raw : string)
  | JArr (vs : list json)
  | JObj (ms : list (string * json)).

Inductive token :=
  | TLBrace | TRBrace | TLBrack | TRBrack | TColon | TComma
  | TStr (raw : string) | TNum (raw : string) | TTrue | TFalse | TNull.

#[export] Instance token_eq_dec : EqDecision token.
Proof. solve_decision. Defined.

(** ** Lexing *)

(** The states of a number: after the sign, a leading zero, digits, the point,
    fraction digits, the exponent's letter, its sign, its digits. *)
Inductive num := NNeg | NZero | NInt | NDot | NFrac | NE | NESign | NExp.

Inductive mode :=
  | Ground
  | InStr | InEsc | InHex (k : nat)   (* [k] more hexadecimal digits *)
  | InNum (n : num)
  | InLit (rest : string) (t : token).

Definition num_done (n : num) : bool :=
  match n with NZero | NInt | NFrac | NExp => true | _ => false end.

Definition is_space (c : ascii) : bool :=
  Ascii.eqb c " " || Ascii.eqb c TAB || Ascii.eqb c CR || Ascii.eqb c LF.

Definition digit19 (c : ascii) : bool := in_range 49 57 c.
Definition is_exp (c : ascii) : bool := Ascii.eqb c "e" || Ascii.eqb c "E".
Definition is_sign (c : ascii) : bool := Ascii.eqb c "+" || Ascii.eqb c "-".
Definition hex (c : ascii) : bool := is_digit c || in_range 97 102 c || in_range 65 70 c.

Definition num_step (n : num) (c : ascii) : option num :=
  match n with
  | NNeg => if Ascii.eqb c "0" then Some NZero else if digit19 c then Some NInt else None
  | NZero => if Ascii.eqb c "." then Some NDot else if is_exp c then Some NE else None
  | NInt => if is_digit c then Some NInt else if Ascii.eqb c "." then Some NDot
            else if is_exp c then Some NE else None
  | NDot => if is_digit c then Some NFrac else None
  | NFrac => if is_digit c then Some NFrac else if is_exp c then Some NE else None
  | NE => if is_sign c then Some NESign else if is_digit c then Some NExp else None
  | NESign => if is_digit c then Some NExp else None
  | NExp => if is_digit c then Some NExp else None
  end.

(** What a byte between tokens starts: the tokens it completes, the state and
    the text gathered so far, reversed. *)
Definition begin (c : ascii) : option (list token * mode * string) :=
  if is_space c then Some ([], Ground, "")
  else if Ascii.eqb c "{" then Some ([TLBrace], Ground, "")
  else if Ascii.eqb c "}" then Some ([TRBrace], Ground, "")
  else if Ascii.eqb c "[" then Some ([TLBrack], Ground, "")
  else if Ascii.eqb c "]" then Some ([TRBrack], Ground, "")
  else if Ascii.eqb c ":" then Some ([TColon], Ground, "")
  else if Ascii.eqb c "," then Some ([TComma], Ground, "")
  else if Ascii.eqb c DQ then Some ([], InStr, "")
  else if Ascii.eqb c "-" then Some ([], InNum NNeg, String c "")
  else if Ascii.eqb c "0" then Some ([], InNum NZero, String c "")
  else if digit19 c then Some ([], InNum NInt, String c "")
  else if Ascii.eqb c "t" then Some ([], InLit "rue" TTrue, "")
  else if Ascii.eqb c "f" then Some ([], InLit "alse" TFalse, "")
  else if Ascii.eqb c "n" then Some ([], InLit "ull" TNull, "")
  else None.

Definition lex_step (m : mode) (acc : string) (c : ascii) : option (list token * mode * string) :=
  match m with
  | Ground => begin c
  | InStr =>
      if Ascii.eqb c DQ then Some ([TStr (srev acc)], Ground, "")
      else if Ascii.eqb c "\" then Some ([], InEsc, String c acc)
      else if (byte_val c <? 32)%N then None
      else Some ([], InStr, String c acc)
  | InEsc =>
      if Ascii.eqb c "u" then Some ([], InHex 4, String c acc)
      else if str_has c "bfnrt\/" || Ascii.eqb c DQ then Some ([], InStr, String c acc)
      else None
  | InHex k =>
      if hex c then Some ([], match k with 4 => InHex 3 | 3 => InHex 2 | 2 => InHex 1 | _ => InStr end,
                          String c acc)
      else None
  | InNum n =>
      match num_step n c with
      | Some n' => Some ([], InNum n', String c acc)
      | None =>
          if num_done n then
            '(toks, m', acc') ← begin c; Some (TNum (srev acc) :: toks, m', acc')
          else None
      end
  | InLit "" t => '(toks, m', acc') ← begin c; Some (t :: toks, m', acc')
  | InLit (String d rest) t => if Ascii.eqb c d then Some ([], InLit rest t, acc) else None
  end.

Definition lex_end (m : mode) (acc : string) : option (list token) :=
  match m with
  | Ground => Some []
  | InNum n => if num_done n then Some [TNum (srev acc)] else None
  | InLit "" t => Some [t]
  | _ => None
  end.

Fixpoint lex_from (m : mode) (acc s : string) : option (list token) :=
  match s with
  | "" => lex_end m acc
  | String c s =>
      '(toks, m', acc') ← lex_step m acc c;
      rest ← lex_from m' acc' s;
      Some (toks ++ rest)
  end.

Definition lex (s : string) : option (list token) := lex_from Ground "" s.

(** ** Parsing *)

(** An open array with its elements so far, an open object with its members so
    far and the key of the next; both in reverse. *)
Inductive frame :=
  | FArr (vs : list json)
  | FObj (ms : list (string * json)) (key : string).

Inductive want :=
  | WantValue            (* after a colon or a comma in an array, or at the start *)
  | WantValueOrEnd       (* after [ *)
  | WantKey (ms : list (string * json))      (* after a comma in an object *)
  | WantKeyOrEnd         (* after { *)
  | WantColon (ms : list (string * json)) (key : string)
  | WantMore (v : json). (* after a value *)

Definition maxNestingDepth : nat := Z.to_nat 10000.

Definition push (w : want) (st : list frame) (f : option frame) : option (want * list frame) :=
  if (length st <? maxNestingDepth)%nat
  then Some (w, match f with Some f => f :: st | None => st end) else None.

(** The value a token is or opens.  An object being opened has no frame until
    its first key is read; the [WantKey] states stand for it. *)
Definition open_value (t : token) (st : list frame) : option (want * list frame) :=
  match t with
  | TLBrack => push WantValueOrEnd st (Some (FArr []))
  | TLBrace => push WantKeyOrEnd st None
  | TStr s => Some (WantMore (JStr s), st)
  | TNum s => Some (WantMore (JNum s), st)
  | TTrue => Some (WantMore (JBool true), st)
  | TFalse => Some (WantMore (JBool false), st)
  | TNull => Some (WantMore JNull, st)
  | _ => None
  end.

Definition parse_step (w : want) (st : list frame) (t : token) : option (want * list frame) :=
  match w with
  | WantValue => open_value t st
  | WantValueOrEnd =>
      match t, st with
      | TRBrack, FArr vs :: st => Some (WantMore (JArr (rev vs)), st)
      | _, _ => open_value t st
      end
  | WantKeyOrEnd =>
      match t with
      | TRBrace => Some (WantMore (JObj []), st)
      | TStr k => Some (WantColon [] k, st)
      | _ => None
      end
  | WantKey ms => match t with TStr k => Some (WantColon ms k, st) | _ => None end
  | WantColon ms k => match t with TColon => Some (WantValue, FObj ms k :: st) | _ => None end
  | WantMore v =>
      match st, t with
      | FArr vs :: st, TComma => Some (WantValue, FArr (v :: vs) :: st)
      | FArr vs :: st, TRBrack => Some (WantMore (JArr (rev (v :: vs))), st)
      | FObj ms k :: st, TComma => Some (WantKey ((k, v) :: ms), st)
      | FObj ms k :: st, TRBrace => Some (WantMore (JObj (rev ((k, v) :: ms))), st)
      | _, _ => None
      end
  end.

Fixpoint parse_from (w : want) (st : list frame) (ts : list token) : option json :=
  match ts with
  | [] => match w, st with WantMore v, [] => Some v | _, _ => None end
  | t :: ts => '(w, st) ← parse_step w st t; parse_from w st ts
  end.

Definition parse_tokens (ts : list token) : option json := parse_from WantValue [] ts.

(** The document a text holds; [None] where the scanner reports an error. *)
Definition Decode (s : string) : option json := ts ← lex s; parse_tokens ts.

(** [json.Valid] *)
Definition Valid (s : string) : bool := bool_decide (is_Some (Decode s)).

(** [json.Compact]: the tokens' text, without the space between them. *)
Definition quoted (raw : string) : string := String DQ (raw +:+ String DQ "").

Definition token_text (t : token) : string :=
  match t with
  | TLBrace => "{" | TRBrace => "}" | TLBrack => "[" | TRBrack => "]" | TColon => ":" | TComma => ","
  | TStr raw => quoted raw | TNum raw => raw
  | TTrue => "true" | TFalse => "false" | TNull => "null"
  end.

Definition tokens_text (ts : list token) : string := foldr (λ t s, token_text t +:+ s) "" ts.

Definition Compact (s : string) : option string :=
  ts ← lex s; _ ← parse_tokens ts; Some (tokens_text ts).

Example decode_ex :
  Decode " { 'a' : [1, -2.5e+3, true], 'b':{} , 'c' : null } " = None.
Proof. vm_compute. reflexivity. Qed.
Definition dq (s : string) : string := str_map (λ c, if Ascii.eqb c "'" then DQ else c) s.
Example decode_object :
  Decode (dq " { 'a' : [1, -2.5e+3, true], 'b':{} , 'c' : null } ") =
  Some (JObj [("a", JArr [JNum "1"; JNum "-2.5e+3"; JBool true]); ("b", JObj []); ("c", JNull)]).
Proof. vm_compute. reflexivity. Qed.
Example decode_refuses :
  Valid <$> ["01"; "1 2"; "[1,]"; "{}{}"; "tru"; "-"; "1."; ""; dq "{'a'}"; dq "'\x'"; "truefalse"; "[}"; "]"] =
  replicate 13 false.
Proof. vm_compute. reflexivity. Qed.
Example decode_accepts :
  Valid <$> ["0"; " 1 "; "[]"; "[[],[]]"; dq "'\u00aF\n'"; "1e5"; "-0.0"; dq "{'a':{'b':[]}}"] = replicate 8 true.
Proof. vm_compute. reflexivity. Qed.
Example compact_ex : Compact (dq "{ 'a b' : [ 1 , 2 ] }") = Some (dq "{'a b':[1,2]}").
Proof. vm_compute. reflexivity. Qed.

(** ** Strings *)

Definition hex_val (c : ascii) : option N :=
  if is_digit c then Some (byte_val c - 48)%N
  else if in_range 97 102 c then Some (byte_val c - 87)%N
  else if in_range 65 70 c then Some (byte_val c - 55)%N
  else None.

(** [getu4]: the code unit of a \u escape at the start of a text. *)
Definition getu4 (s : string) : option N :=
  match s with
  | String x (String y (String a (String b (String c (String d _))))) =>
      if Ascii.eqb x "\" && Ascii.eqb y "u" then
        a ← hex_val a; b ← hex_val b; c ← hex_val c; d ← hex_val d;
        Some (((a * 16 + b) * 16 + c) * 16 + d)%N
      else None
  | _ => None
  end.

(** [utf16.DecodeRune] of a pair of surrogates. *)
Definition surrogate_pair (r1 r2 : N) : option N :=
  if ((55296 <=? r1) && (r1 <? 56320) && (56320 <=? r2) && (r2 <? 57344))%N
  then Some ((r1 - 55296) * 1024 + (r2 - 56320) + 65536)%N else None.

Definition unescape_char (c : ascii) : ascii :=
  if Ascii.eqb c "b" then "008" else if Ascii.eqb c "f" then "012" else if Ascii.eqb c "n" then LF
  else if Ascii.eqb c "r" then CR else if Ascii.eqb c "t" then TAB else c.

Definition unquote_step (s : string) : string * nat :=
  match s with
  | "" => ("", 1%nat)
  | String c r =>
      if Ascii.eqb c "\" then
        match getu4 s with
        | Some u =>
            if Utf8.is_surrogate u then
              match getu4 (String.substring 6 (String.length s - 6) s) with
              | Some u2 =>
                  match surrogate_pair u u2 with
                  | Some d => (Utf8.EncodeRune d, 12%nat)
                  | None => (Utf8.EncodeRune Utf8.RuneError, 6%nat)
                  end
              | None => (Utf8.EncodeRune Utf8.RuneError, 6%nat)
              end
            else (Utf8.EncodeRune u, 6%nat)
        | None => match r with String e _ => (String (unescape_char e) "", 2%nat) | "" => ("", 1%nat) end
        end
      else if is_ascii_byte c then (String c "", 1%nat)
      else Utf8.coerce_step s
  end.

(** [unquote], of the text between the quotes. *)
Definition unquote : string → string := Utf8.rewrite_with unquote_step.

(** ** Marshalling *)

Definition hex4 (n : N) : string :=
  "\u" +:+ String (hex_char ((n / 4096) mod 16)) (String (hex_char ((n / 256) mod 16))
    (String (hex_char ((n / 16) mod 16)) (String (hex_char (n mod 16)) ""))).

Definition html_unsafe (c : ascii) : bool := Ascii.eqb c "<" || Ascii.eqb c ">" || Ascii.eqb c "&".

(** U+2028 and U+2029 at the start of a text. *)
Definition line_separator (s : string) : option N :=
  match s with
  | String a (String b (String c _)) =>
      if ((byte_val a =? 226) && (byte_val b =? 128) && ((byte_val c =? 168) || (byte_val c =? 169)))%N
      then Some (8064 + byte_val c)%N else None
  | _ => None
  end.

(** [appendString], with HTML escaping. *)
Definition quote_step (s : string) : string * nat :=
  match s with
  | "" => ("", 1%nat)
  | String c _ =>
      if is_ascii_byte c then
        (if Ascii.eqb c DQ || Ascii.eqb c "\" then String "\" (String c "")
         else if html_unsafe c then hex4 (byte_val c)
         else if (32 <=? byte_val c)%N then String c ""
         else if Ascii.eqb c "008" then "\b" else if Ascii.eqb c "012" then "\f"
         else if Ascii.eqb c LF then "\n" else if Ascii.eqb c CR then "\r"
         else if Ascii.eqb c TAB then "\t" else hex4 (byte_val c), 1%nat)
      else
        match Utf8.rune_size s with
        | O => ("\ufffd", 1%nat)
        | n => match line_separator s with
               | Some u => (hex4 u, n)
               | None => (String.substring 0 n s, n)
               end
        end
  end.

Definition quote_body : string → string := Utf8.rewrite_with quote_step.

(** [appendCompact], with HTML escaping, on the text of a string. *)
Definition escape_step (s : string) : string * nat :=
  match s with
  | "" => ("", 1%nat)
  | String c _ =>
      if html_unsafe c then (hex4 (byte_val c), 1%nat)
      else match line_separator s with
           | Some u => (hex4 u, 3%nat)
           | None => (String c "", 1%nat)
           end
  end.

Definition escape_body : string → string := Utf8.rewrite_with escape_step.

(** A document with every string's text rewritten, and its text. *)
Fixpoint map_strings (f : string → string) (v : json) : json :=
  match v with
  | JStr raw => JStr (f raw)
  | JArr vs => JArr (map (map_strings f) vs)
  | JObj ms => JObj (map (λ m, (f (fst m), map_strings f (snd m))) ms)
  | v => v
  end.

Fixpoint json_text (v : json) : string :=
  match v with
  | JNull => "null"
  | JBool b => if b then "true" else "false"
  | JNum raw => raw
  | JStr raw => quoted raw
  | JArr vs => "[" +:+ Join "," (map json_text vs) +:+ "]"
  | JObj ms => "{" +:+ Join "," (map (λ m, quoted (fst m) +:+ ":" +:+ json_text (snd m)) ms) +:+ "}"
  end.

(** The text of a raw message as [json.Marshal] writes it. *)
Definition raw_text (v : json) : string := json_text (map_strings escape_body v).

Example unquote_ex :
  (unquote <$> ["a\u0041\n\/"; "\ud83d\ude00"; "\ud83dx"; String "233" "z"]) =
  ["aA" +:+ nl +:+ "/"; Utf8.EncodeRune 128512; Utf8.EncodeRune Utf8.RuneError +:+ "x";
   Utf8.EncodeRune Utf8.RuneError +:+ "z"].
Proof. vm_compute. reflexivity. Qed.
Example quote_ex :
  (quote_body <$> ["a<b" +:+ nl; Utf8.EncodeRune 8232; String "233" "z"; String DQ "\"; Utf8.EncodeRune 233]) =
  ["a\u003cb\n"; "\u2028"; "\ufffdz"; String "\" (String DQ "\\"); Utf8.EncodeRune 233].
Proof. vm_compute. reflexivity. Qed.

(** ** Compacting keeps the document *)

(** A token whose text lexes to it again, whatever follows; a number stops
    only where the next byte does not continue it. *)
Definition relexes (t : token) : Prop :=
  match t with
  | TStr raw => ∀ rest,
      lex_from InStr "" (raw +:+ String DQ rest) = cons (TStr raw) <$> lex_from Ground "" rest
  | TNum raw => ∃ n, num_done n = true ∧
      ∀ rest, lex_from Ground "" (raw +:+ rest) = lex_from (InNum n) (srev raw) rest
  | _ => True
  end.

Definition is_num (t : token) : bool := match t with TNum _ => true | _ => false end.
Definition starts_with_num (ts : list token) : bool := match ts with t :: _ => is_num t | [] => false end.

Fixpoint no_adjacent_nums (ts : list token) : Prop :=
  match ts with
  | [] => True
  | t :: ts => (is_num t = true → starts_with_num ts = false) ∧ no_adjacent_nums ts
  end.

(** The text gathered in a state leads to it from where the token started. *)
Definition gathered (m0 m : mode) (acc : string) : Prop :=
  ∀ rest, lex_from m0 "" (srev acc +:+ rest) = lex_from m acc rest.

Definition gathering (m : mode) (acc : string) : Prop :=
  match m with
  | Ground => True
  | InLit _ t => relexes t
  | InStr | InEsc | InHex _ => gathered InStr m acc
  | InNum _ => gathered Ground m acc
  end.

Lemma lex_from_quiet m acc c m' acc' s :
  lex_step m acc c = Some ([], m', acc') → lex_from m acc (String c s) = lex_from m' acc' s.
Proof. intros H. cbn [lex_from]. rewrite H. cbn. by destruct (lex_from m' acc' s). Qed.

Lemma gathered_step m0 m acc c m' :
  gathered m0 m acc → lex_step m acc c = Some ([], m', String c acc) → gathered m0 m' (String c acc).
Proof.
  intros Hg Hs rest. rewrite srev_cons, app_assoc_str. change (String c "" +:+ rest) with (String c rest).
  by rewrite Hg, (lex_from_quiet _ _ _ _ _ _ Hs).
Qed.

Definition begun (c : ascii) (toks : list token) (m : mode) (acc : string) : Prop :=
  match m with
  | InStr => acc = "" | InNum _ => toks = [] ∧ acc = String c ""
  | InEsc | InHex _ => False | InLit _ t => relexes t | Ground => True
  end.

Lemma begin_facts c toks m acc : begin c = Some (toks, m, acc) →
  Forall relexes toks ∧ (∀ t, t ∈ toks → is_num t = false) ∧ gathering m acc.
Proof.
  intros H. assert (Forall relexes toks ∧ Forall (λ t, is_num t = false) toks) as [Hr Hn].
  { revert H. unfold begin. repeat case_match; try discriminate; intros [= <- <- <-];
      (split; [first [apply Forall_nil_2 | repeat constructor]|first [apply Forall_nil_2 | repeat constructor]]). }
  split; [done|split; [by apply Forall_forall|]].
  assert (begun c toks m acc) as Hm.
  { revert H. unfold begin. repeat case_match; try discriminate; intros [= <- <- <-]; done. }
  destruct m; try done; [cbn in Hm; subst acc; by intros rest|]. destruct Hm as [-> ->]. intros rest.
  change (srev (String c "")) with (String c ""). change (String c "" +:+ rest) with (String c rest).
  by apply lex_from_quiet.
Qed.

Lemma lex_step_facts m acc c toks m' acc' :
  gathering m acc → lex_step m acc c = Some (toks, m', acc') →
  Forall relexes toks ∧ gathering m' acc'.
Proof.
  destruct m as [| | |k|n|rest t]; cbn [gathering]; intros Hg H.
  - by apply begin_facts in H as (? & _ & ?).
  - unfold lex_step in H. destruct (Ascii.eqb_spec c DQ) as [->|Hc].
    { injection H as <- <- <-. split; [|done]. constructor; [|done]. intros rest. rewrite Hg. cbn.
      by destruct (lex_from Ground "" rest). }
    destruct (Ascii.eqb c "\") eqn:E1; [|destruct (byte_val c <? 32)%N eqn:E2; [done|]];
      injection H as <- <- <-; (split; [done|]); apply (gathered_step _ _ _ _ _ Hg); unfold lex_step;
      by rewrite (proj2 (Ascii.eqb_neq c DQ) Hc), E1, ?E2.
  - pose proof H as H'. unfold lex_step in H. repeat case_match; simplify_eq/=; (split; [done|]); by eapply gathered_step.
  - pose proof H as H'. unfold lex_step in H. destruct (hex c); [|done]. injection H as <- <- <-. split; [done|].
    pose proof (gathered_step _ _ _ _ _ Hg H') as Hs. by repeat case_match.
  - pose proof H as H'. unfold lex_step in H. destruct (num_step n c) as [n'|] eqn:Hn.
    { injection H as <- <- <-. split; [done|]. by eapply gathered_step. }
    destruct (num_done n) eqn:Hd; [|done]. destruct (begin c) as [[[toks0 m0] acc0]|] eqn:Hb; cbn in H; [|done].
    injection H as <- <- <-. apply begin_facts in Hb as (? & _ & ?). split; [|done]. constructor; [|done].
    exists n. split; [done|]. intros rest. rewrite srev_srev. apply Hg.
  - unfold lex_step in H. destruct rest as [|d rest].
    + destruct (begin c) as [[[toks0 m0] acc0]|] eqn:Hb; cbn in H; [|done].
      injection H as <- <- <-. apply begin_facts in Hb as (? & _ & ?). split; [|done]. by constructor.
    + destruct (Ascii.eqb c d); [|done]. by injection H as <- <- <-.
Qed.

Lemma lex_from_relexes m acc s ts :
  gathering m acc → lex_from m acc s = Some ts → Forall relexes ts.
Proof.
  revert m acc ts. induction s as [|c s IH]; intros m acc ts Hg; cbn [lex_from].
  - destruct m as [| | |k|n|[|d rest] t]; cbn; try done.
    + by intros [= <-].
    + destruct (num_done n) eqn:Hd; [|done]. intros [= <-]. constructor; [|done]. exists n.
      split; [done|]. intros rest. rewrite srev_srev. apply Hg.
    + intros [= <-]. by constructor.
  - destruct (lex_step m acc c) as [[[toks m'] acc']|] eqn:Hs; cbn; [|done].
    destruct (lex_from m' acc' s) as [rest|] eqn:Hr; cbn; [|done]. intros [= <-].
    destruct (lex_step_facts _ _ _ _ _ _ Hg Hs) as [Ht Hg']. apply Forall_app_2; [done|by eapply IH].
Qed.

Lemma lex_num_stops n acc c s : num_done n = true → num_step n c = None →
  lex_from (InNum n) acc (String c s) = cons (TNum (srev acc)) <$> lex_from Ground "" (String c s).
Proof.
  intros Hd Hn. cbn [lex_from lex_step]. rewrite Hn, Hd. destruct (begin c) as [[[toks m] acc']|]; cbn; [|done].
  by destruct (lex_from m acc' s).
Qed.

Definition stops_num (s : string) : Prop :=
  match s with "" => True | String c _ => ∀ n, num_done n = true → num_step n c = None end.

Lemma tokens_text_stops ts : starts_with_num ts = false → stops_num (tokens_text ts).
Proof.
  destruct ts as [|t ts]; [done|]. destruct t; try done; intros _ [] Hd; try discriminate; reflexivity.
Qed.

Lemma lex_lit t lit s :
  lex_from (InLit lit t) "" (lit +:+ s) = lex_from (InLit "" t) "" s.
Proof.
  revert s. induction lit as [|d lit IH]; intros s; [done|]. change (String d lit +:+ s) with (String d (lit +:+ s)).
  rewrite (lex_from_quiet _ _ _ (InLit lit t) "" _); [apply IH|]. cbn. by rewrite Ascii.eqb_refl.
Qed.

Lemma lex_lit_end t s : lex_from (InLit "" t) "" s = cons t <$> lex_from Ground "" s.
Proof.
  destruct s as [|c s]; [done|]. cbn [lex_from lex_step].
  destruct (begin c) as [[[toks m] acc']|]; cbn; [|done]. by destruct (lex_from m acc' s).
Qed.

Lemma lex_punct c t s : begin c = Some ([t], Ground, "") →
  lex_from Ground "" (String c s) = cons t <$> lex_from Ground "" s.
Proof. intros Hc. cbn [lex_from lex_step]. rewrite Hc. cbn. by destruct (lex_from Ground "" s). Qed.

(** The tokens' text lexes to them. *)
Lemma lex_tokens_text ts : Forall relexes ts → no_adjacent_nums ts → lex (tokens_text ts) = Some ts.
Proof.
  unfold lex. induction 1 as [|t ts Ht _ IH]; [done|]. cbn [no_adjacent_nums]. intros [Hadj Hts].
  specialize (IH Hts). cbn [tokens_text foldr]. fold (tokens_text ts). destruct t; cbn [token_text].
  1-6: change (String ?c "" +:+ ?y) with (String c y); by erewrite lex_punct, IH by reflexivity.
  - unfold quoted. change (String DQ ?x +:+ ?y) with (String DQ (x +:+ y)).
    rewrite (lex_from_quiet _ _ _ InStr "" _) by done. rewrite app_assoc_str.
    change (String DQ "" +:+ ?y) with (String DQ y). by rewrite Ht, IH.
  - destruct Ht as (n & Hd & Hg). rewrite Hg. specialize (Hadj eq_refl). apply tokens_text_stops in Hadj.
    destruct (tokens_text ts) as [|c s].
    + cbn in IH. injection IH as <-. cbn. by rewrite Hd, srev_srev.
    + rewrite lex_num_stops by auto. by rewrite IH, srev_srev.
  - change ("true" +:+ ?y) with (String "t" ("rue" +:+ y)).
    rewrite (lex_from_quiet _ _ _ (InLit "rue" TTrue) "" _), lex_lit, lex_lit_end, IH by done. done.
  - change ("false" +:+ ?y) with (String "f" ("alse" +:+ y)).
    rewrite (lex_from_quiet _ _ _ (InLit "alse" TFalse) "" _), lex_lit, lex_lit_end, IH by done. done.
  - change ("null" +:+ ?y) with (String "n" ("ull" +:+ y)).
    rewrite (lex_from_quiet _ _ _ (InLit "ull" TNull) "" _), lex_lit, lex_lit_end, IH by done. done.
Qed.

(** Two numbers in a row are no document. *)
Definition after_value (w : want) : bool :=
  match w with WantMore _ | WantColon _ _ | WantKey _ | WantKeyOrEnd => true | _ => false end.

Lemma parse_from_nums ts w st v : parse_from w st ts = Some v →
  no_adjacent_nums ts ∧ (after_value w = true → starts_with_num ts = false).
Proof.
  revert w st. induction ts as [|t ts IH]; intros w st; [done|]. cbn [parse_from].
  destruct (parse_step w st t) as [[w' st']|] eqn:Hs; cbn; [|done]. intros H.
  apply IH in H as [Hn Ha]. split; [split; [|done]|].
  - intros Ht. apply Ha. destruct t; try done. destruct w; cbn in Hs; repeat case_match; by simplify_eq/=.
  - intros Hw. destruct t; try done. destruct w; try done; cbn in Hs; repeat case_match; by simplify_eq/=.
Qed.

(** Compacting a document keeps it. *)
Lemma Compact_Decode s c : Compact s = Some c → Decode c = Decode s ∧ Valid c = true.
Proof.
  unfold Compact, Valid, Decode. destruct (lex s) as [ts|] eqn:Hl; cbn; [|done].
  destruct (parse_tokens ts) as [v|] eqn:Hp; cbn; [|done]. intros [= <-].
  rewrite lex_tokens_text; cbn; [by rewrite Hp| |].
  - by eapply lex_from_relexes; [|exact Hl].
  - by apply parse_from_nums in Hp as [? _].
Qed.

Lemma Valid_Compact s : Valid s = true → ∃ c, Compact s = Some c.
Proof.
  unfold Valid, Compact, Decode. rewrite bool_decide_eq_true. destruct (lex s) as [ts|]; cbn; [|by intros []].
  destruct (parse_tokens ts); cbn; [by eexists|by intros []].
Qed.

End Json.
