(* ===== verification/GoJsonData.v ===== *)
(** * GoJsonData: Go values to JSON text and back

    What [json.Marshal], [json.MarshalIndent] and [json.Unmarshal] do with the
    values the program stores and exchanges: a document printed with any space
    between its tokens decodes to it ([Decode_print]), a text put between
    quotes is read back ([unquote_quote_body]), and the decoders of strings,
    numbers, flags, slices, maps and structs that follow encoding/json. *)

From Stdlib Require Import DecimalString DecimalN.
From S2P Require Import Prelude GoStr GoUtf8 GoJson GoUrl GoUrlFacts Registry Schema Link.

Local Open Scope string_scope.
Local Open Scope list_scope.

Module Data.
Import Json.

(** ** Printing *)

(** [sp d] is what is written between the values at depth [d], [co] between a
    key and its value. *)
Section print.
Context (sp : nat → string) (co : string).

Fixpoint print (d : nat) (v : json) : string :=
  match v with
  | JNull => "null"
  | JBool b => if b then "true" else "false"
  | JNum raw => raw
  | JStr raw => quoted raw
  | JArr [] => "[]"
  | JArr vs => "[" +:+ sp (S d) +:+ Join ("," +:+ sp (S d)) (map (print (S d)) vs) +:+ sp d +:+ "]"
  | JObj [] => "{}"
  | JObj ms =>
      "{" +:+ sp (S d) +:+
      Join ("," +:+ sp (S d)) (map (λ m, quoted (fst m) +:+ ":" +:+ co +:+ print (S d) (snd m)) ms) +:+
      sp d +:+ "}"
  end.
End print.

Fixpoint spaces (n : nat) : string := match n with O => "" | S n => String " " (spaces n) end.

(** The text [json.Marshal] and [json.MarshalIndent(v, "", "  ")] write. *)
Definition Marshal (v : json) : string := print (λ _, "") "" 0 v.
Definition MarshalIndent (v : json) : string := print (λ d, nl +:+ spaces (2 * d)) " " 0 v.

Example marshal_indent_ex :
  MarshalIndent (JArr [JObj [("a", JNum "1"); ("b", JArr [])]; JNull]) =
  dq ("[" +:+ nl +:+ "  {" +:+ nl +:+ "    'a': 1," +:+ nl +:+ "    'b': []" +:+ nl +:+ "  }," +:+ nl +:+
      "  null" +:+ nl +:+ "]").
Proof. vm_compute. reflexivity. Qed.

(** The tokens of a document. *)
Fixpoint commas (l : list (list token)) : list token :=
  match l with
  | [] => []
  | [t] => t
  | t :: l => t ++ TComma :: commas l
  end.

Fixpoint toks (v : json) : list token :=
  match v with
  | JNull => [TNull]
  | JBool b => [if b then TTrue else TFalse]
  | JNum raw => [TNum raw]
  | JStr raw => [TStr raw]
  | JArr vs => TLBrack :: commas (map toks vs) ++ [TRBrack]
  | JObj ms => TLBrace :: commas (map (λ m, TStr (fst m) :: TColon :: toks (snd m)) ms) ++ [TRBrace]
  end.

Fixpoint depth (v : json) : nat :=
  match v with
  | JArr vs => S (foldr (λ v n, Nat.max (depth v) n) 0 vs)
  | JObj ms => S (foldr (λ m n, Nat.max (depth (snd m)) n) 0 ms)
  | _ => 0
  end.

(** Every text in the document is one the scanner can read. *)
Fixpoint wf (v : json) : Prop :=
  match v with
  | JNum raw => relexes (TNum raw)
  | JStr raw => relexes (TStr raw)
  | JArr vs => foldr (λ v P, wf v ∧ P) True vs
  | JObj ms => foldr (λ m P, (relexes (TStr (fst m)) ∧ wf (snd m)) ∧ P) True ms
  | _ => True
  end.

Section json_ind.
Context (P : json → Prop) (Hnull : P JNull) (Hbool : ∀ b, P (JBool b)) (Hnum : ∀ r, P (JNum r)) (Hstr : ∀ r, P (JStr r)).
Context (Harr : ∀ vs, Forall P vs → P (JArr vs)) (Hobj : ∀ ms, Forall (λ m, P (snd m)) ms → P (JObj ms)).

Fixpoint json_nested_ind (v : json) : P v :=
  match v with
  | JNull => Hnull | JBool b => Hbool b | JNum r => Hnum r | JStr r => Hstr r
  | JArr vs => Harr vs ((fix go vs : Forall P vs :=
      match vs with [] => @Forall_nil_2 _ P | v :: vs => Forall_cons_2 _ _ _ (json_nested_ind v) (go vs) end) vs)
  | JObj ms => Hobj ms ((fix go ms : Forall (λ m, P (snd m)) ms :=
      match ms with [] => @Forall_nil_2 _ _ | m :: ms => Forall_cons_2 _ _ _ (json_nested_ind (snd m)) (go ms) end) ms)
  end.
End json_ind.

(** ** Scanning what was printed *)

Definition blank (s : string) : bool := str_forallb is_space s.

Lemma lex_blank s rest : blank s = true → lex_from Ground "" (s +:+ rest) = lex_from Ground "" rest.
Proof.
  unfold blank. induction s as [|c s IH]; [done|]. cbn [str_forallb]. intros [Hc Hs]%andb_true_iff.
  change (String c s +:+ rest) with (String c (s +:+ rest)). rewrite (lex_from_quiet _ _ _ Ground "" _); [by apply IH|].
  cbn. unfold begin. by rewrite Hc.
Qed.

Definition lexes (s : string) (ts : list token) : Prop :=
  ∀ rest, stops_num rest → lex_from Ground "" (s +:+ rest) = app ts <$> lex_from Ground "" rest.

Lemma fmap_app_app (ts us : list token) o : app ts <$> (app us <$> o) = app (ts ++ us) <$> (o : option (list token)).
Proof. destruct o; cbn; [by rewrite app_assoc|done]. Qed.

Lemma stops_punct c s : str_has c "[]{},:" = true → stops_num (String c s).
Proof.
  intros Hc n. rewrite !str_has_cons, !orb_true_iff, !Ascii.eqb_eq in Hc.
  decompose [or] Hc; try discriminate; subst; by destruct n.
Qed.

Lemma stops_blank s rest : blank s = true → s ≠ "" → stops_num (s +:+ rest).
Proof.
  destruct s as [|c s]; [done|]. unfold blank. cbn [str_forallb]. intros [Hc _]%andb_true_iff _.
  change (stops_num (String c (s +:+ rest))). intros n Hn. unfold is_space in Hc.
  rewrite ?orb_true_iff, ?Ascii.eqb_eq in Hc. destruct Hc as [[[-> | ->] | ->] | ->]; by destruct n.
Qed.

Lemma stops_blank_app s rest : blank s = true → stops_num rest → stops_num (s +:+ rest).
Proof. intros Hb Hr. destruct s as [|c s]; [done|]. by apply stops_blank. Qed.

Lemma lexes_app a b ts us : lexes b us → (∀ rest, stops_num rest → stops_num (b +:+ rest)) → lexes a ts →
  lexes (a +:+ b) (ts ++ us).
Proof. intros Hb Hs Ha rest Hr. rewrite app_assoc_str, Ha, Hb by auto. apply fmap_app_app. Qed.

Lemma lexes_punct c t : begin c = Some ([t], Ground, "") → lexes (String c "") [t].
Proof. intros Hc rest _. change (String c "" +:+ rest) with (String c rest). by rewrite (lex_punct _ _ _ Hc). Qed.

Lemma lexes_blank s : blank s = true → lexes s [].
Proof. intros Hs rest _. rewrite lex_blank by done. by destruct (lex_from Ground "" rest). Qed.

Lemma lexes_quoted raw : relexes (TStr raw) → lexes (quoted raw) [TStr raw].
Proof.
  intros Hr rest _. unfold quoted. change (String DQ ?x +:+ ?y) with (String DQ (x +:+ y)).
  rewrite (lex_from_quiet _ _ _ InStr "" _) by done. rewrite app_assoc_str.
  change (String DQ "" +:+ ?y) with (String DQ y). by rewrite Hr.
Qed.

Lemma lexes_num raw : relexes (TNum raw) → lexes raw [TNum raw].
Proof.
  intros (n & Hd & Hg) rest Hs. rewrite Hg. destruct rest as [|c s].
  - cbn. by rewrite Hd, srev_srev.
  - rewrite lex_num_stops by auto. by rewrite srev_srev.
Qed.

Lemma lexes_lit c lit t : begin c = Some ([], InLit lit t, "") → lexes (String c lit) [t].
Proof.
  intros Hc rest _. change (String c lit +:+ rest) with (String c (lit +:+ rest)).
  rewrite (lex_from_quiet _ _ _ (InLit lit t) "" _) by done. by rewrite lex_lit, lex_lit_end.
Qed.

Lemma stops_punct_app c s rest : str_has c "[]{},:" = true → stops_num (String c s +:+ rest).
Proof. intros Hc. change (stops_num (String c (s +:+ rest))). by apply stops_punct. Qed.

Lemma lexes_join gap ss tss : blank gap = true → Forall2 lexes ss tss →
  lexes (Join ("," +:+ gap) ss) (commas tss).
Proof.
  intros Hg. induction 1 as [|s ts ss tss Hs Hss IH]; [by apply lexes_blank|].
  destruct Hss as [|s' ts' ss tss Hs' Hss]; [done|].
  change (lexes (s +:+ ("," +:+ gap) +:+ Join ("," +:+ gap) (s' :: ss)) (ts ++ [TComma] ++ [] ++ commas (ts' :: tss))).
  rewrite app_assoc_str. apply lexes_app; [|intros r _; by refine (stops_punct "," _ _)|done].
  intros rest Hr. change (("," +:+ ?x) +:+ ?y) with (String "," (x +:+ y)).
  rewrite (lex_punct "," TComma) by done. rewrite app_assoc_str, lex_blank by done. rewrite IH by done.
  by destruct (lex_from Ground "" rest).
Qed.

Section lexing.
Context (sp : nat → string) (co : string) (Hsp : ∀ d, blank (sp d) = true) (Hco : blank co = true).

(** What stands between two brackets. *)
Lemma lexes_bracket o c t1 t2 a b s ts :
  begin o = Some ([t1], Ground, "") → begin c = Some ([t2], Ground, "") → str_has c "[]{},:" = true →
  blank a = true → blank b = true → lexes s ts →
  lexes (String o "" +:+ a +:+ s +:+ b +:+ String c "") (t1 :: ts ++ [t2]).
Proof.
  intros Ho Hc Hp Ha Hb Hs rest Hr. change (String o "" +:+ ?x) with (String o x).
  change (String o ?x +:+ ?y) with (String o (x +:+ y)). rewrite (lex_punct _ _ _ Ho).
  rewrite !app_assoc_str, lex_blank by done. rewrite Hs.
  - rewrite lex_blank by done. change (String c "" +:+ rest) with (String c rest). rewrite (lex_punct _ _ _ Hc).
    destruct (lex_from Ground "" rest); cbn; [|done]. by rewrite <- app_assoc.
  - apply stops_blank_app; [done|]. by apply stops_punct.
Qed.

Lemma lexes_member k s ts : relexes (TStr k) → lexes s ts →
  lexes (quoted k +:+ ":" +:+ co +:+ s) (TStr k :: TColon :: ts).
Proof.
  intros Hk Hs. change (TStr k :: TColon :: ts) with ([TStr k] ++ [TColon] ++ [] ++ ts).
  apply lexes_app; [|intros r _; by refine (stops_punct ":" _ _)|by apply lexes_quoted].
  intros rest Hr. change (":" +:+ ?x) with (String ":" x). change (String ":" ?x +:+ ?y) with (String ":" (x +:+ y)).
  rewrite (lex_punct _ TColon) by done. rewrite app_assoc_str, lex_blank by done. rewrite Hs by done.
  by destruct (lex_from Ground "" rest).
Qed.

Lemma lexes_print v : ∀ d, wf v → lexes (print sp co d v) (toks v).
Proof.
  induction v as [|b|r|r|vs IH|ms IH] using json_nested_ind; intros d Hv.
  - by apply lexes_lit.
  - destruct b; by apply lexes_lit.
  - by apply lexes_num.
  - by apply lexes_quoted.
  - assert (Forall2 lexes (map (print sp co (S d)) vs) (map toks vs)) as Hf.
    { cbn [wf] in Hv. clear -IH Hv. induction IH as [|v vs Hi _ IH]; constructor; destruct Hv; auto. }
    destruct vs as [|v vs]; [intros rest _|].
    + change (lex_from Ground "" (String "[" (String "]" rest)) = app [TLBrack; TRBrack] <$> lex_from Ground "" rest).
      rewrite (lex_punct "[" TLBrack), (lex_punct "]" TRBrack) by done. by destruct (lex_from Ground "" rest).
    + by apply lexes_bracket, lexes_join.
  - assert (Forall2 lexes (map (λ m, quoted (fst m) +:+ ":" +:+ co +:+ print sp co (S d) (snd m)) ms)
      (map (λ m, TStr (fst m) :: TColon :: toks (snd m)) ms)) as Hf.
    { cbn [wf] in Hv. clear -IH Hv Hco. induction IH as [|v vs Hi _ IH]; constructor; destruct Hv as [[??]?]; [|auto].
      apply lexes_member; auto. }
    destruct ms as [|m ms]; [intros rest _|].
    + change (lex_from Ground "" (String "{" (String "}" rest)) = app [TLBrace; TRBrace] <$> lex_from Ground "" rest).
      rewrite (lex_punct "{" TLBrace), (lex_punct "}" TRBrace) by done. by destruct (lex_from Ground "" rest).
    + by apply lexes_bracket, lexes_join.
Qed.
End lexing.

(** ** Parsing the tokens *)

Definition opens (w : want) : Prop := w = WantValue ∨ w = WantValueOrEnd.

(** A value's tokens, read where a value may start, are reduced to it. *)
Definition reduces (v : json) : Prop := ∀ w st ts,
  opens w → (length st + depth v <= maxNestingDepth)%nat →
  parse_from w st (toks v ++ ts) = parse_from (WantMore v) st ts.

Lemma open_step w st t : opens w → t ≠ TRBrack → parse_step w st t = open_value t st.
Proof. intros [-> | ->] Ht; [done|]. cbn. by destruct t. Qed.

Lemma reduces_elems vs : Forall reduces vs → ∀ done v st ts,
  reduces v → (length st + depth (JArr (v :: vs)) <= maxNestingDepth)%nat →
  ∀ w, opens w →
  parse_from w (FArr done :: st) (commas (map toks (v :: vs)) ++ TRBrack :: ts) =
  parse_from (WantMore (JArr (rev done ++ v :: vs))) st ts.
Proof.
  induction 1 as [|v' vs Hv' Hvs IH]; intros done v st ts Hv Hd w Hw; cbn [depth foldr length] in Hd.
  - cbn [map commas]. rewrite Hv by (done || (cbn [length]; lia)). cbn. done.
  - change (commas (map toks (v :: v' :: vs))) with (toks v ++ TComma :: commas (map toks (v' :: vs))).
    rewrite <- app_assoc, Hv by (done || (cbn [length]; lia)). cbn [app parse_from parse_step mbind option_bind].
    rewrite IH; [cbn; by rewrite <- app_assoc|done|cbn [depth foldr length]; lia|by left].
Qed.

Lemma reduces_members ms : Forall (λ m, reduces (snd m)) ms → ∀ done m st ts,
  reduces (snd m) → (length st + depth (JObj (m :: ms)) <= maxNestingDepth)%nat →
  ∀ w, w = WantKey done ∨ (w = WantKeyOrEnd ∧ done = []) →
  parse_from w st (commas (map (λ m, TStr (fst m) :: TColon :: toks (snd m)) (m :: ms)) ++ TRBrace :: ts) =
  parse_from (WantMore (JObj (rev done ++ m :: ms))) st ts.
Proof.
  induction 1 as [|m' ms Hm' Hms IH]; intros done [k v] st ts Hv Hd w Hw; cbn [depth foldr length fst snd] in *.
  - cbn [map commas fst snd app]. replace (parse_from w st _) with (parse_from WantValue (FObj done k :: st) (toks v ++ TRBrace :: ts)).
    + rewrite Hv by (cbn [length]; lia || by left). done.
    + by destruct Hw as [-> | [-> ->]].
  - change (commas (map ?f ((k, v) :: m' :: ms))) with (TStr k :: TColon :: toks v ++ TComma :: commas (map f (m' :: ms))).
    replace (parse_from w st _) with (parse_from WantValue (FObj done k :: st)
      (toks v ++ TComma :: commas (map (λ m, TStr (fst m) :: TColon :: toks (snd m)) (m' :: ms)) ++ TRBrace :: ts)).
    + rewrite Hv by (cbn [length]; lia || by left). cbn [app parse_from parse_step mbind option_bind].
      rewrite (IH ((k, v) :: done)); [cbn; by rewrite <- app_assoc|done|cbn [depth foldr length]; lia|by left].
    + destruct Hw as [-> | [-> ->]]; cbn [app]; by rewrite <- app_assoc.
Qed.

Lemma reduces_all v : reduces v.
Proof.
  induction v as [|b|r|r|vs IH|ms IH] using json_nested_ind; intros w st ts Hw Hd.
  - cbn [toks app parse_from]. by rewrite open_step.
  - cbn [toks app parse_from]. rewrite open_step by by destruct b. by destruct b.
  - cbn [toks app parse_from]. by rewrite open_step.
  - cbn [toks app parse_from]. by rewrite open_step.
  - cbn [toks app parse_from]. rewrite open_step by done. cbn [open_value]. unfold push.
    rewrite (proj2 (Nat.ltb_lt _ _)) by (cbn [depth] in Hd; lia). cbn [mbind option_bind].
    rewrite <- app_assoc. destruct IH as [|v vs Hv Hvs]; [done|]. cbn [app].
    by apply reduces_elems; [..|right].
  - cbn [toks app parse_from]. rewrite open_step by done. cbn [open_value]. unfold push.
    rewrite (proj2 (Nat.ltb_lt _ _)) by (cbn [depth] in Hd; lia). cbn [mbind option_bind].
    rewrite <- app_assoc. destruct IH as [|m ms Hm Hms]; [done|]. cbn [app].
    apply (reduces_members _ Hms []); auto.
Qed.

(** A document decodes from its text, whatever space is printed. *)
Lemma Decode_print sp co d v : (∀ d, blank (sp d) = true) → blank co = true →
  wf v → (depth v <= maxNestingDepth)%nat → Decode (print sp co d v) = Some v.
Proof.
  intros Hsp Hco Hv Hd. unfold Decode, lex. pose proof (lexes_print _ _ Hsp Hco v d Hv "" I) as Hl.
  rewrite app_nil_str in Hl. rewrite Hl. cbn [lex_from lex_end fmap option_fmap option_map mbind option_bind].
  unfold parse_tokens. rewrite reduces_all by (done || by left). done.
Qed.

Lemma blank_spaces n : blank (spaces n) = true.
Proof. induction n; [done|]. by cbn. Qed.

Lemma Decode_Marshal v : wf v → (depth v <= maxNestingDepth)%nat → Decode (Marshal v) = Some v.
Proof. by apply Decode_print. Qed.

Lemma Decode_MarshalIndent v : wf v → (depth v <= maxNestingDepth)%nat → Decode (MarshalIndent v) = Some v.
Proof.
  apply Decode_print; [|done]. intros d. unfold blank. rewrite str_forallb_app. apply andb_true_iff.
  split; [done|apply blank_spaces].
Qed.

(** ** Texts between quotes *)

(** A piece of a string the scanner passes over without leaving it. *)
Definition str_safe (raw : string) : Prop := ∀ acc rest, lex_from InStr acc (raw +:+ rest) = lex_from InStr (rev_onto raw acc) rest.

Lemma str_safe_app a b : str_safe a → str_safe b → str_safe (a +:+ b).
Proof.
  intros Ha Hb acc rest. rewrite app_assoc_str, Ha, Hb. f_equal.
  by rewrite (rev_onto_app a), (rev_onto_app b), (rev_onto_app (a +:+ b)), srev_app, app_assoc_str.
Qed.

Lemma str_safe_relexes raw : str_safe raw → relexes (TStr raw).
Proof.
  intros Hs rest. rewrite Hs, rev_onto_app, app_nil_str. cbn [lex_from lex_step]. rewrite Ascii.eqb_refl. cbn.
  rewrite srev_srev. by destruct (lex_from Ground "" rest).
Qed.

Lemma str_safe_byte c : Ascii.eqb c DQ = false → Ascii.eqb c "\" = false → (32 <=? byte_val c)%N = true → str_safe (String c "").
Proof.
  intros H1 H2 H3 acc rest. change (String c "" +:+ rest) with (String c rest). cbn [rev_onto].
  apply lex_from_quiet. cbn [lex_step]. rewrite H1, H2. by rewrite (proj2 (N.ltb_ge _ _)) by by apply N.leb_le.
Qed.

Lemma str_safe_bytes s : str_forallb (λ c, negb (is_ascii_byte c)) s = true → str_safe s.
Proof.
  induction s as [|c s IH]; [by intros _ acc rest|]. cbn [str_forallb]. intros [Hc Hs]%andb_true_iff.
  change (String c s) with (String c "" +:+ s). apply str_safe_app; [|by apply IH].
  unfold is_ascii_byte in Hc. apply negb_true_iff, N.ltb_ge in Hc.
  apply str_safe_byte; [by apply Ascii.eqb_neq; intros -> .. |apply N.leb_le; lia].
Qed.

(** Printable text without quotes and backslashes. *)
Definition plain_byte (c : ascii) : bool := (32 <=? byte_val c)%N && negb (Ascii.eqb c DQ || Ascii.eqb c "\").

Lemma str_safe_plain s : str_forallb plain_byte s = true → str_safe s.
Proof.
  induction s as [|c s IH]; [by intros _ acc rest|]. cbn [str_forallb]. intros [Hc Hs]%andb_true_iff.
  change (String c s) with (String c "" +:+ s). apply str_safe_app; [|by apply IH].
  apply andb_true_iff in Hc as [H1 [H2 H3]%negb_true_iff%orb_false_iff]. by apply str_safe_byte.
Qed.

Lemma str_safe_escape c : str_has c "bfnrt\/" || Ascii.eqb c DQ = true → str_safe (String "\" (String c "")).
Proof.
  intros Hc acc rest. change (String "\" (String c "") +:+ rest) with (String "\" (String c rest)). cbn [rev_onto].
  rewrite (lex_from_quiet _ _ _ InEsc (String "\" acc)) by done. apply lex_from_quiet. cbn [lex_step].
  destruct (Ascii.eqb_spec c "u") as [->|_]; [done|]. by rewrite Hc.
Qed.

Lemma hex_char_hex n : (n < 16)%N → hex (hex_char n) = true ∧ hex_val (hex_char n) = Some n.
Proof.
  intros Hn. assert (Hall : Forall (λ n, hex (hex_char n) = true ∧ hex_val (hex_char n) = Some n) (N.of_nat <$> seq 0 16)).
  { by repeat constructor. }
  rewrite Forall_forall in Hall. apply Hall, list_elem_of_fmap. exists (N.to_nat n). split; [by rewrite N2Nat.id|].
  apply elem_of_seq. lia.
Qed.

Lemma mod16 n : (n mod 16 < 16)%N.
Proof. apply N.mod_lt. lia. Qed.

Lemma str_safe_hex4 n : str_safe (hex4 n).
Proof.
  intros acc rest. unfold hex4. do 2 change ("\u" +:+ ?x) with (String "\" (String "u" x)).
  change (String ?a (String ?b (String ?c (String ?d (String ?e (String ?f ""))))) +:+ rest)
    with (String a (String b (String c (String d (String e (String f rest)))))). cbn [rev_onto].
  rewrite (lex_from_quiet InStr acc "\" InEsc (String "\" acc)) by done.
  rewrite (lex_from_quiet InEsc _ "u" (InHex 4) (String "u" (String "\" acc))) by done.
  do 4 (erewrite lex_from_quiet; [|cbn [lex_step]; rewrite (proj1 (hex_char_hex _ (mod16 _))); reflexivity]).
  done.
Qed.

(** *** Rewriting one character at a time *)

Fixpoint sdrop (n : nat) (s : string) : string :=
  match n with O => s | S n => match s with String _ s => sdrop n s | _ => s end end.
Definition stake (n : nat) (s : string) : string := String.substring 0 n s.

Lemma stake_sdrop n s : stake n s +:+ sdrop n s = s.
Proof.
  revert s. induction n as [|n IH]; intros [|c s]; try done. change (stake (S n) (String c s)) with (String c (stake n s)).
  change (String c (stake n s) +:+ sdrop n s = String c s). change (String c ?x +:+ ?y) with (String c (x +:+ y)). by rewrite IH.
Qed.

Lemma length_sdrop n s : String.length (sdrop n s) = (String.length s - n)%nat.
Proof. revert s. induction n as [|n IH]; intros [|c s]; cbn; auto. Qed.

Lemma rewrite_from_skip step k s : Utf8.rewrite_from step k s = Utf8.rewrite_with step (sdrop k s).
Proof. revert k. induction s as [|c s IH]; intros [|k]; try done. by apply IH. Qed.

Lemma rewrite_with_step step c s : snd (step (String c s)) ≠ 0%nat →
  Utf8.rewrite_with step (String c s) =
  fst (step (String c s)) +:+ Utf8.rewrite_with step (sdrop (snd (step (String c s))) (String c s)).
Proof.
  intros Hn. unfold Utf8.rewrite_with at 1. cbn [Utf8.rewrite_from]. destruct (step (String c s)) as [out n]. cbn [fst snd] in *.
  rewrite rewrite_from_skip. by destruct n.
Qed.

(** A text made of well-formed sequences. *)
Inductive runes : string → Prop :=
  | runes_nil : runes ""
  | runes_cons s : Utf8.rune_size s ≠ 0%nat → runes (sdrop (Utf8.rune_size s) s) → runes s.

Lemma app_str_cancel (a b c : string) : a +:+ b = a +:+ c → b = c.
Proof. induction a as [|x a IH]; [done|]. intros [= ?]. by apply IH. Qed.

Lemma rune_size_le s : (Utf8.rune_size s <= String.length s)%nat.
Proof.
  destruct s as [|a [|b [|c [|d s]]]]; cbn [Utf8.rune_size String.length]; [done|..];
    repeat case_match; simplify_eq; try lia.
Qed.

Lemma length_stake n s : (n <= String.length s)%nat → String.length (stake n s) = n.
Proof. unfold stake. revert s. induction n as [|n IH]; intros [|c s]; cbn; try done; try lia. intros H. f_equal. apply IH. lia. Qed.

Lemma coerce_length s : (String.length s <= String.length (Utf8.to_valid s))%nat ∧
  (Utf8.to_valid s = s → runes s).
Proof.
  remember (String.length s) as n eqn:Hn. revert s Hn. induction (lt_wf n) as [n _ IH]. intros [|c s] ->.
  { split; [done|constructor]. }
  assert (snd (Utf8.coerce_step (String c s)) ≠ 0%nat) as Hs by (unfold Utf8.coerce_step; by case_match).
  unfold Utf8.to_valid. rewrite rewrite_with_step by done. clear Hs.
  change (Utf8.coerce_step (String c s)) with (match Utf8.rune_size (String c s) with
    | O => (Utf8.EncodeRune Utf8.RuneError, 1%nat) | n => (stake n (String c s), n) end).
  pose proof (rune_size_le (String c s)) as Hle.
  destruct (Utf8.rune_size (String c s)) as [|k] eqn:Hk; cbn [fst snd] in *.
  - cbn [sdrop]. destruct (IH (String.length s) ltac:(cbn; lia) s eq_refl) as [Hl _]. unfold Utf8.to_valid in Hl.
    rewrite length_app_str. change (String.length (Utf8.EncodeRune Utf8.RuneError)) with 3%nat. split; [cbn [String.length]; lia|].
    intros Heq. apply (f_equal String.length) in Heq. rewrite length_app_str in Heq.
    change (String.length (Utf8.EncodeRune Utf8.RuneError)) with 3%nat in Heq. cbn [String.length] in Heq. lia.
  - destruct (IH (String.length (sdrop (S k) (String c s)))) with (s := sdrop (S k) (String c s)) as [Hl Hr]; [|done|].
    { rewrite length_sdrop. cbn. lia. }
    unfold Utf8.to_valid in *.
    rewrite length_app_str, length_stake by done. rewrite length_sdrop in Hl. split; [lia|].
    intros Heq. rewrite <- (stake_sdrop (S k) (String c s)) in Heq at 3. apply app_str_cancel in Heq.
    apply runes_cons; rewrite Hk; [done|]. by apply Hr.
Qed.

Lemma valid_runes s : Utf8.valid s = true → runes s.
Proof. intros Hv%String.eqb_eq. by apply coerce_length. Qed.

(** *** What is quoted is read back *)

Lemma unquote_piece a b t : unquote_step (a +:+ b) = (t, String.length a) → a ≠ "" →
  unquote (a +:+ b) = t +:+ unquote b.
Proof.
  intros Hs Ha. destruct a as [|c a]; [done|]. change (String c a +:+ b) with (String c (a +:+ b)) in *.
  unfold unquote. rewrite rewrite_with_step by by rewrite Hs. rewrite Hs. cbn [fst snd]. f_equal. f_equal.
  cbn [String.length sdrop]. clear. induction a as [|c a IH]; [done|]. exact IH.
Qed.

Lemma getu4_escape e rest : Ascii.eqb e "u" = false → getu4 (String "\" (String e rest)) = None.
Proof. intros He. destruct rest as [|a [|b [|c [|d rest]]]]; try done. cbn [getu4]. by rewrite He, andb_false_r. Qed.

Lemma unquote_escape e rest : Ascii.eqb e "u" = false →
  unquote (String "\" (String e "") +:+ rest) = String (unescape_char e) "" +:+ unquote rest.
Proof.
  intros He. apply unquote_piece; [|done]. change (String "\" (String e "") +:+ rest) with (String "\" (String e rest)).
  unfold unquote_step. by rewrite Ascii.eqb_refl, getu4_escape.
Qed.

Lemma getu4_hex4 n rest : (n < 65536)%N → getu4 (hex4 n +:+ rest) = Some n.
Proof.
  intros Hn. unfold hex4. do 2 change ("\u" +:+ ?x) with (String "\" (String "u" x)).
  change (String ?a (String ?b (String ?c (String ?d (String ?e (String ?f ""))))) +:+ rest)
    with (String a (String b (String c (String d (String e (String f rest)))))).
  cbn [getu4]. rewrite !Ascii.eqb_refl. cbn [andb].
  rewrite !(λ m, proj2 (hex_char_hex _ (mod16 m))). cbn [mbind option_bind]. f_equal.
  zify. Z.to_euclidean_division_equations. lia.
Qed.

Lemma unquote_hex4 n rest : (n < 65536)%N → Utf8.is_surrogate n = false →
  unquote (hex4 n +:+ rest) = Utf8.EncodeRune n +:+ unquote rest.
Proof.
  intros Hn Hs. apply unquote_piece; [|done]. pose proof (getu4_hex4 n rest Hn) as Hg.
  unfold hex4 in *. do 2 change ("\u" +:+ ?x) with (String "\" (String "u" x)) in *.
  change (String "\" ?a +:+ rest) with (String "\" (a +:+ rest)) in *. unfold unquote_step.
  by rewrite Ascii.eqb_refl, Hg, Hs.
Qed.

Lemma unquote_byte c rest : is_ascii_byte c = true → Ascii.eqb c "\" = false →
  unquote (String c "" +:+ rest) = String c "" +:+ unquote rest.
Proof.
  intros Ha Hc. apply unquote_piece; [|done]. change (String c "" +:+ rest) with (String c rest).
  unfold unquote_step. by rewrite Hc, Ha.
Qed.

Lemma encode_ascii c : is_ascii_byte c = true →
  Utf8.EncodeRune (byte_val c) = String c "" ∧ (byte_val c < 65536)%N ∧ Utf8.is_surrogate (byte_val c) = false.
Proof.
  unfold is_ascii_byte. intros Hc. pose proof (proj1 (N.ltb_lt _ _) Hc) as Hlt.
  assert (Utf8.is_surrogate (byte_val c) = false) as Hs.
  { unfold Utf8.is_surrogate. by rewrite (proj2 (N.leb_gt _ _)) by lia. }
  split_and!; [|lia|done]. unfold Utf8.EncodeRune. rewrite Hs, (proj2 (N.ltb_ge 1114111 (byte_val c))) by lia. cbn [orb].
  rewrite Hc. unfold Utf8.chr, byte_val. by rewrite ascii_N_embedding.
Qed.

(** The piece written for one well-formed character. *)
Definition good_piece (out t : string) : Prop :=
  str_safe out ∧ ∀ rest, unquote (out +:+ rest) = t +:+ unquote rest.

Lemma good_escape e : str_has e "bfnrt\/" || Ascii.eqb e DQ = true → Ascii.eqb e "u" = false →
  good_piece (String "\" (String e "")) (String (unescape_char e) "").
Proof. intros H1 H2. split; [by apply str_safe_escape|]. intros rest. by apply unquote_escape. Qed.

Lemma good_hex4 n : (n < 65536)%N → Utf8.is_surrogate n = false → good_piece (hex4 n) (Utf8.EncodeRune n).
Proof. intros H1 H2. split; [apply str_safe_hex4|]. intros rest. by apply unquote_hex4. Qed.

Lemma good_ascii c s : is_ascii_byte c = true → good_piece (fst (quote_step (String c s))) (String c "").
Proof.
  intros Hc. cbn [quote_step]. rewrite Hc. cbn [fst]. pose proof (encode_ascii c Hc) as (He & Hl & Hs).
  destruct (Ascii.eqb_spec c DQ) as [->|H1]; [by apply (good_escape DQ)|].
  destruct (Ascii.eqb_spec c "\") as [->|H2]; [by apply (good_escape "\")|]. cbn [orb].
  destruct (html_unsafe c); [rewrite <- He; by apply good_hex4|].
  destruct (32 <=? byte_val c)%N eqn:H32.
  { split; [apply str_safe_byte; [by apply Ascii.eqb_neq..|done]|]. intros rest. apply unquote_byte; [done|by apply Ascii.eqb_neq]. }
  destruct (Ascii.eqb_spec c "008") as [->|_]; [by apply (good_escape "b")|].
  destruct (Ascii.eqb_spec c "012") as [->|_]; [by apply (good_escape "f")|].
  destruct (Ascii.eqb_spec c LF) as [->|_]; [by apply (good_escape "n")|].
  destruct (Ascii.eqb_spec c CR) as [->|_]; [by apply (good_escape "r")|].
  destruct (Ascii.eqb_spec c TAB) as [->|_]; [by apply (good_escape "t")|].
  rewrite <- He. by apply good_hex4.
Qed.

Lemma stake_0 s : stake 0 s = "".
Proof. by destruct s. Qed.

Lemma rune_size_bytes a s n : Utf8.rune_size (String a s) = S n → is_ascii_byte a = false →
  str_forallb (λ c, negb (is_ascii_byte c)) (stake (S n) (String a s)) = true ∧
  String.length (stake (S n) (String a s)) = S n ∧
  ∀ rest, Utf8.rune_size (stake (S n) (String a s) +:+ rest) = S n.
Proof.
  assert (Hr : ∀ lo hi c, (128 <= lo)%N → in_range lo hi c = true → is_ascii_byte c = false).
  { unfold in_range, is_ascii_byte. intros lo hi c Hlo [H _]%andb_true_iff. apply N.leb_le in H. apply N.ltb_ge. lia. }
  assert (Hlead : ∀ c lo hi k, Utf8.lead c = Some (lo, hi, k) → (128 <= lo)%N).
  { unfold Utf8.lead. intros c lo hi k. repeat case_match; intros; simplify_eq; lia. }
  cbn [Utf8.rune_size]. intros Hs Ha. rewrite Ha in Hs. destruct (Utf8.lead a) as [[[lo hi] k]|] eqn:Hl; [|done]. specialize (Hlead _ _ _ _ Hl).
  destruct s as [|b s]; [done|]. destruct (in_range lo hi b) eqn:Hb; [|done]. cbn [negb] in Hs.
  pose proof (Hr _ _ _ Hlead Hb) as Hb'.
  assert (Hc : ∀ c, Utf8.cont c = true → is_ascii_byte c = false) by (intros c; by apply Hr).
  destruct k as [|[|[|[|k]]]]; [by destruct s| | | |by destruct s as [|? []]].
  - injection Hs as <-. change (stake 2 (String a (String b s))) with (String a (String b (stake 0 s))).
    rewrite stake_0. cbn [str_forallb String.length]. rewrite Ha, Hb'. split_and!; [done|done|]. intros rest.
    change (String a (String b "") +:+ rest) with (String a (String b rest)). cbn [Utf8.rune_size]. by rewrite Ha, Hl, Hb.
  - destruct s as [|c s]; [done|]. destruct (Utf8.cont c) eqn:E1; [|done]. injection Hs as <-.
    change (stake 3 (String a (String b (String c s)))) with (String a (String b (String c (stake 0 s)))).
    rewrite stake_0. cbn [str_forallb String.length]. rewrite Ha, Hb', (Hc c E1). split_and!; [done|done|]. intros rest.
    change (String a (String b (String c "")) +:+ rest) with (String a (String b (String c rest))). cbn [Utf8.rune_size].
    by rewrite Ha, Hl, Hb, E1.
  - destruct s as [|c [|d s]]; [done..|]. destruct (Utf8.cont c && Utf8.cont d) eqn:E; [|done]. injection Hs as <-.
    pose proof (proj1 (andb_true_iff _ _) E) as [E1 E2].
    change (stake 4 (String a (String b (String c (String d s))))) with (String a (String b (String c (String d (stake 0 s))))).
    rewrite stake_0. cbn [str_forallb String.length]. rewrite Ha, Hb', (Hc c E1), (Hc d E2). split_and!; [done|done|]. intros rest.
    change (String a (String b (String c (String d ""))) +:+ rest) with (String a (String b (String c (String d rest)))).
    cbn [Utf8.rune_size]. by rewrite Ha, Hl, Hb, E.
Qed.

Lemma line_separator_bytes s u : line_separator s = Some u →
  Utf8.rune_size s = 3%nat ∧ stake 3 s = Utf8.EncodeRune u ∧ (u < 65536)%N ∧ Utf8.is_surrogate u = false.
Proof.
  destruct s as [|a [|b [|c s]]]; try done. cbn [line_separator].
  destruct (byte_val a =? 226)%N eqn:Ea; [|done]. destruct (byte_val b =? 128)%N eqn:Eb; [|done].
  destruct ((byte_val c =? 168) || (byte_val c =? 169))%N eqn:Ec; [|done]. cbn. intros [= <-].
  assert (Hv : ∀ d n, (byte_val d =? n)%N = true → d = ascii_of_N n).
  { intros d n Hd%N.eqb_eq. rewrite <- Hd. unfold byte_val. by rewrite ascii_N_embedding. }
  apply Hv in Ea as ->. apply Hv in Eb as ->.
  apply orb_true_iff in Ec as [->%Hv | ->%Hv]; (split; [done|]; split; [|done]);
    unfold stake; cbn [String.substring]; by destruct s.
Qed.

Lemma good_chunk c s : Utf8.rune_size (String c s) ≠ 0%nat → snd (quote_step (String c s)) = Utf8.rune_size (String c s) ∧
  good_piece (fst (quote_step (String c s))) (stake (Utf8.rune_size (String c s)) (String c s)).
Proof.
  intros Hn. destruct (is_ascii_byte c) eqn:Ha.
  { assert (Utf8.rune_size (String c s) = 1%nat) as -> by (cbn [Utf8.rune_size]; by rewrite Ha).
    split; [cbn [quote_step]; by rewrite Ha|]. change (stake 1 (String c s)) with (String c (stake 0 s)).
    rewrite stake_0. by apply good_ascii. }
  cbn [quote_step]. rewrite Ha. destruct (Utf8.rune_size (String c s)) as [|n] eqn:Hs; [done|].
  destruct (line_separator (String c s)) as [u|] eqn:Hu; cbn [fst snd]; (split; [done|]).
  - apply line_separator_bytes in Hu as (H3 & Ht & Hl & Hsur). assert (n = 2%nat) as -> by congruence.
    rewrite Ht. by apply good_hex4.
  - destruct (rune_size_bytes _ _ _ Hs Ha) as (Hb & Hlen & Hrest). split; [by apply str_safe_bytes|]. intros rest.
    apply unquote_piece; [|by intros Ht%(f_equal String.length); unfold stake in Hlen; rewrite Hlen in Ht]. specialize (Hrest rest).
    change (String.substring 0 (S n) (String c s)) with (stake (S n) (String c s)).
    rewrite Hlen. revert Hrest. change (stake (S n) (String c s)) with (String c (stake n s)).
    change (String c (stake n s) +:+ rest) with (String c (stake n s +:+ rest)). intros Hrest.
    unfold unquote_step. destruct (Ascii.eqb_spec c "\") as [->|_]; [done|]. rewrite Ha. unfold Utf8.coerce_step.
    rewrite Hrest. f_equal. change (String.substring 0 (S n) ?x) with (stake (S n) x).
    change (String c (stake n s +:+ rest)) with (String c (stake n s) +:+ rest).
    rewrite <- Hlen at 1. change (stake (S n) (String c s)) with (String c (stake n s)). unfold stake at 1.
    by rewrite substring_prefix.
Qed.

(** A text in UTF-8 is unharmed by its quotes. *)
Lemma quoted_runes s : runes s → str_safe (quote_body s) ∧ unquote (quote_body s) = s.
Proof.
  induction 1 as [|s Hn Hs [IH1 IH2]]; [split; [by intros acc rest|done]|]. destruct s as [|c s]; [done|].
  destruct (good_chunk c s Hn) as (Hsn & Hg1 & Hg2). unfold quote_body. rewrite rewrite_with_step by by rewrite Hsn.
  rewrite Hsn. fold (quote_body (sdrop (Utf8.rune_size (String c s)) (String c s))).
  split; [by apply str_safe_app|]. rewrite Hg2, IH2. apply stake_sdrop.
Qed.

Lemma unquote_quote_body s : Utf8.valid s = true → unquote (quote_body s) = s.
Proof. intros Hv%valid_runes. by apply quoted_runes. Qed.

Lemma quote_body_relexes s : Utf8.valid s = true → relexes (TStr (quote_body s)).
Proof. intros Hv%valid_runes. by apply str_safe_relexes, quoted_runes. Qed.

(** ** Numbers *)

Lemma nzhead_no_zero d e : Decimal.nzhead d ≠ Decimal.D0 e.
Proof. by induction d. Qed.

Lemma utoa_shape n : utoa n = "0" ∨ ∃ c ds, utoa n = String c ds ∧ digit19 c = true ∧ str_forallb is_digit ds = true.
Proof.
  assert (N.to_uint n = Decimal.unorm (N.to_uint n)) as He.
  { rewrite <- DecimalN.Unsigned.to_of. by rewrite DecimalN.Unsigned.of_to. }
  unfold utoa. rewrite He. unfold Decimal.unorm. pose proof (nzhead_no_zero (N.to_uint n)) as Hz.
  destruct (Decimal.nzhead (N.to_uint n)) as [|d|d|d|d|d|d|d|d|d|d]; [by left|by destruct (Hz d)|..]; right;
    (eexists _, (NilEmpty.string_of_uint d); split_and!; [reflexivity|reflexivity|apply string_of_uint_digits]).
Qed.

(** [s], read from the state [n], is a number's text up to the state [m]. *)
Lemma lex_digits ds acc rest : str_forallb is_digit ds = true →
  lex_from (InNum NInt) acc (ds +:+ rest) = lex_from (InNum NInt) (rev_onto ds acc) rest.
Proof.
  revert acc. induction ds as [|c ds IH]; intros acc; [done|]. cbn [str_forallb]. intros [Hc Hds]%andb_true_iff.
  change (String c ds +:+ rest) with (String c (ds +:+ rest)). cbn [rev_onto]. rewrite <- IH by done.
  apply lex_from_quiet. cbn [lex_step num_step]. by rewrite Hc.
Qed.

Lemma begin_digit19 c : digit19 c = true → begin c = Some ([], InNum NInt, String c "").
Proof.
  intros Hc. unfold begin. rewrite Hc. unfold digit19, in_range in Hc. apply andb_true_iff in Hc as [H1 H2].
  apply N.leb_le in H1, H2. assert (Hne : ∀ d, (byte_val d < 49)%N ∨ (57 < byte_val d)%N → Ascii.eqb c d = false).
  { intros d Hd. apply Ascii.eqb_neq. intros ->. lia. }
  unfold is_space. by rewrite !Hne by (vm_compute; auto).
Qed.

Lemma lex_utoa n m0 acc : (m0 = Ground ∧ acc = "") ∨ m0 = InNum NNeg →
  ∃ k, num_done k = true ∧ ∀ rest, lex_from m0 acc (utoa n +:+ rest) = lex_from (InNum k) (rev_onto (utoa n) acc) rest.
Proof.
  intros Hm. destruct (utoa_shape n) as [-> | (c & ds & -> & Hc & Hds)].
  - exists NZero. split; [done|]. intros rest. change ("0" +:+ rest) with (String "0" rest). cbn [rev_onto].
    apply lex_from_quiet. by destruct Hm as [[-> ->] | ->].
  - exists NInt. split; [done|]. intros rest. change (String c ds +:+ rest) with (String c (ds +:+ rest)). cbn [rev_onto].
    rewrite <- lex_digits by done. apply lex_from_quiet. destruct Hm as [[-> ->] | ->]; cbn [lex_step num_step].
    + by apply begin_digit19.
    + destruct (Ascii.eqb_spec c "0") as [->|_]; [done|]. by rewrite Hc.
Qed.

Lemma Itoa_relexes z : relexes (TNum (Itoa z)).
Proof.
  unfold Itoa. destruct (z <? 0)%Z.
  - destruct (lex_utoa (Z.to_N (- z)) (InNum NNeg) "-") as (k & Hk & Hrest); [by right|]. exists k. split; [done|].
    intros rest. change (srev (String "-" (utoa (Z.to_N (- z))))) with (rev_onto (utoa (Z.to_N (- z))) "-").
    rewrite <- Hrest. by apply lex_from_quiet.
  - apply lex_utoa. by left.
Qed.

(** ** Decoding into Go values

    A decoder takes the value the destination has and the document; [None] is
    an error of [json.Unmarshal]. *)
Definition Dec (A : Type) : Type := A → json → option A.

Definition dec_string : Dec string := λ old v,
  match v with JStr raw => Some (unquote raw) | JNull => Some old | _ => None end.
Definition dec_int : Dec Z := λ old v, match v with JNum raw => Atoi raw | JNull => Some old | _ => None end.
Definition dec_bool : Dec bool := λ old v, match v with JBool b => Some b | JNull => Some old | _ => None end.

(** Into an empty slice; null makes it nil, which is [None] where the
    difference shows. *)
Definition dec_slice {A} (zero : A) (d : Dec A) : Dec (option (list A)) := λ _ v,
  match v with JArr vs => Some <$> mapM (d zero) vs | JNull => Some None | _ => None end.
Definition dec_list {A} (zero : A) (d : Dec A) : Dec (list A) := λ _ v,
  match v with JArr vs => mapM (d zero) vs | JNull => Some [] | _ => None end.

Fixpoint dec_entries {A} (zero : A) (d : Dec A) (m : gmap string A) (ms : list (string * json)) : option (gmap string A) :=
  match ms with
  | [] => Some m
  | (k, v) :: ms => a ← d zero v; dec_entries zero d (<[unquote k := a]> m) ms
  end.
Definition dec_map {A} (zero : A) (d : Dec A) : Dec (gmap string A) := λ old v,
  match v with JObj ms => dec_entries zero d old ms | JNull => Some ∅ | _ => None end.

(** A struct: the fields under their names in lower case, which a key matches
    whatever its case. *)
Definition Fields (A : Type) : Type := list (string * Dec A).

Definition field {A B} (name : string) (get : A → B) (set : B → A → A) (d : Dec B) : string * Dec A :=
  (name, λ a v, (λ b, set b a) <$> d (get a) v).

Fixpoint dec_members {A} (fs : Fields A) (a : A) (ms : list (string * json)) : option A :=
  match ms with
  | [] => Some a
  | (k, v) :: ms =>
      match list_find (λ f, Link.EqualFold (unquote k) (fst f) = true) fs with
      | Some (_, (_, d)) => a ← d a v; dec_members fs a ms
      | None => dec_members fs a ms
      end
  end.
Definition dec_struct {A} (fs : Fields A) : Dec A := λ old v,
  match v with JObj ms => dec_members fs old ms | JNull => Some old | _ => None end.

(** [json.Unmarshal] *)
Definition Unmarshal {A} (zero : A) (d : Dec A) (data : string) : option A := v ← Decode data; d zero v.

(** The first value of a text, which is what [Decoder.Decode] reads; what
    follows it is not looked at. *)
Fixpoint first_value (read rest : string) : option json :=
  match Decode (srev read) with
  | Some v => Some v
  | None => match rest with
            | "" => None
            | String c rest => first_value (String c read) rest
            end
  end.
Definition DecodeFirst {A} (zero : A) (d : Dec A) (data : string) : option A := v ← first_value "" data; d zero v.

(** ** Encoding *)

Definition enc_string (s : string) : json := JStr (quote_body s).
Definition enc_int (z : Z) : json := JNum (Itoa z).

Lemma dec_enc_string old s : Utf8.valid s = true → dec_string old (enc_string s) = Some s.
Proof. intros Hs. cbn. by rewrite unquote_quote_body. Qed.

Lemma dec_enc_int old z : is_Some (in_int64 z) → dec_int old (enc_int z) = Some z.
Proof. apply Atoi_Itoa. Qed.

Lemma wf_enc_string s : Utf8.valid s = true → wf (enc_string s).
Proof. apply quote_body_relexes. Qed.

Lemma wf_enc_int z : wf (enc_int z).
Proof. apply Itoa_relexes. Qed.

Definition wf_member (m : string * json) : Prop := relexes (TStr (fst m)) ∧ wf (snd m).

Lemma wf_obj ms : wf (JObj ms) ↔ Forall wf_member ms.
Proof. cbn [wf]. induction ms as [|m ms IH]; cbn; [by split|]. by rewrite IH, Forall_cons. Qed.

Lemma wf_arr vs : wf (JArr vs) ↔ Forall wf vs.
Proof. cbn [wf]. induction vs as [|v vs IH]; cbn; [by split|]. by rewrite IH, Forall_cons. Qed.

Lemma wf_plain_member k v : str_forallb plain_byte k = true → wf v → wf_member (k, v).
Proof. intros Hk Hv. split; [by apply str_safe_relexes, str_safe_plain|done]. Qed.

Lemma depth_arr n vs : Forall (λ v, (depth v <= n)%nat) vs → (depth (JArr vs) <= S n)%nat.
Proof. intros H. cbn [depth]. apply le_n_S. induction H; cbn; lia. Qed.

Lemma depth_obj n ms : Forall (λ m, (depth (snd m) <= n)%nat) ms → (depth (JObj ms) <= S n)%nat.
Proof. intros H. cbn [depth]. apply le_n_S. induction H; cbn; lia. Qed.

(** A member with a field of the struct. *)
Lemma dec_members_field {A} (fs : Fields A) i name (d : Dec A) a k v ms :
  list_find (λ f, Link.EqualFold (unquote k) (fst f) = true) fs = Some (i, (name, d)) →
  dec_members fs a ((k, v) :: ms) = (a' ← d a v; dec_members fs a' ms).
Proof. intros Hf. cbn [dec_members]. by rewrite Hf. Qed.

(** A member left out when its value is the zero one. *)
Definition omit_empty (name : string) (s : string) : list (string * json) :=
  if String.eqb s "" then [] else [(name, enc_string s)].
Definition omit_zero (name : string) (z : Z) : list (string * json) :=
  if (z =? 0)%Z then [] else [(name, enc_int z)].

Section members.
Context {A : Type} (fs : Fields A) (i : nat) (k name : string).

Lemma dec_members_string get set a s ms : Utf8.valid s = true →
  list_find (λ f, Link.EqualFold (unquote k) (fst f) = true) fs = Some (i, field name get set dec_string) →
  dec_members fs a ((k, enc_string s) :: ms) = dec_members fs (set s a) ms.
Proof. intros Hs Hf. rewrite (dec_members_field _ _ _ _ _ _ _ _ Hf). cbn [enc_string dec_string]. by rewrite unquote_quote_body. Qed.

Lemma dec_members_omit_empty get set a s ms : Utf8.valid s = true →
  list_find (λ f, Link.EqualFold (unquote k) (fst f) = true) fs = Some (i, field name get set dec_string) →
  set "" a = a → dec_members fs a (omit_empty k s ++ ms) = dec_members fs (set s a) ms.
Proof.
  intros Hs Hf Ha. unfold omit_empty. destruct (String.eqb_spec s "") as [->|_]; [by rewrite Ha|].
  by apply (dec_members_string get).
Qed.

Lemma dec_members_omit_zero get set a z ms : is_Some (in_int64 z) →
  list_find (λ f, Link.EqualFold (unquote k) (fst f) = true) fs = Some (i, field name get set dec_int) →
  set 0%Z a = a → dec_members fs a (omit_zero k z ++ ms) = dec_members fs (set z a) ms.
Proof.
  intros Hz Hf Ha. unfold omit_zero. destruct (Z.eqb_spec z 0) as [->|_]; [by rewrite Ha|]. cbn [app].
  rewrite (dec_members_field _ _ _ _ _ _ _ _ Hf). unfold enc_int. cbn [dec_int]. by rewrite Atoi_Itoa.
Qed.
End members.

Lemma wf_omit_empty k s : str_forallb plain_byte k = true → Utf8.valid s = true → Forall wf_member (omit_empty k s).
Proof.
  intros Hk Hs. unfold omit_empty. destruct (String.eqb s ""); [done|]. constructor; [|done].
  apply wf_plain_member; [done|]. by apply wf_enc_string.
Qed.

Lemma wf_omit_zero k z : str_forallb plain_byte k = true → Forall wf_member (omit_zero k z).
Proof.
  intros Hk. unfold omit_zero. destruct (z =? 0)%Z; [done|]. constructor; [|done].
  apply wf_plain_member; [done|]. apply wf_enc_int.
Qed.

(** The members of a struct's document, one by one. *)
Ltac wf_members :=
  repeat first [ apply Forall_nil_2 | apply Forall_app_2 | apply wf_omit_empty; [reflexivity|done]
               | apply wf_omit_zero; reflexivity | apply Forall_cons_2
               | apply wf_plain_member; [reflexivity|first [by apply wf_enc_string | apply wf_enc_int | done]] ].

Lemma depth_omit_empty k s : Forall (λ m, (depth (snd m) <= 0)%nat) (omit_empty k s).
Proof. unfold omit_empty. destruct (String.eqb s ""); by repeat constructor. Qed.

Lemma depth_omit_zero k z : Forall (λ m, (depth (snd m) <= 0)%nat) (omit_zero k z).
Proof. unfold omit_zero. destruct (z =? 0)%Z; by repeat constructor. Qed.

Lemma mapM_Some_map {A B} (f : A → option B) (g : B → A) (l : list B) :
  Forall (λ b, f (g b) = Some b) l → mapM f (map g l) = Some l.
Proof. induction 1 as [|b l Hb _ IH]; [done|]. cbn. by rewrite Hb, IH. Qed.

Lemma Unmarshal_MarshalIndent {A} (zero a : A) d v : wf v → (depth v <= maxNestingDepth)%nat →
  d zero v = Some a → Unmarshal zero d (MarshalIndent v) = Some a.
Proof. intros Hw Hd Ha. unfold Unmarshal. by rewrite Decode_MarshalIndent. Qed.

Lemma Unmarshal_Marshal {A} (zero a : A) d v : wf v → (depth v <= maxNestingDepth)%nat →
  d zero v = Some a → Unmarshal zero d (Marshal v) = Some a.
Proof. intros Hw Hd Ha. unfold Unmarshal. by rewrite Decode_Marshal. Qed.

(** ** One line

    [json.Marshal] escapes control bytes, so its text has no line break. *)

Definition printable (c : ascii) : bool := (32 <=? byte_val c)%N.
Definition printed (s : string) : bool := str_forallb printable s.

Lemma printed_app a b : printed (a +:+ b) = printed a && printed b.
Proof. apply str_forallb_app. Qed.

Lemma rewrite_from_printed step : (∀ s, printed (fst (step s)) = true) → ∀ s k, printed (Utf8.rewrite_from step k s) = true.
Proof.
  intros Hs. induction s as [|c s IH]; intros k; [done|]. cbn [Utf8.rewrite_from]. destruct k as [|k]; [|apply IH].
  specialize (Hs (String c s)). destruct (step (String c s)) as [out n]. cbn [fst] in Hs. by rewrite printed_app, Hs, IH.
Qed.

Lemma hex4_printed n : printed (hex4 n) = true.
Proof.
  assert (∀ k, (k < 16)%N → printable (hex_char k) = true) as Hk.
  { intros k Hk. destruct k as [|k]; [done|]. do 15 (destruct k as [k|k|]; try done; try lia). }
  unfold hex4. rewrite printed_app. unfold printed. cbn [str_forallb]. by rewrite !Hk by apply mod16.
Qed.

Lemma quote_step_printed s : printed (fst (quote_step s)) = true.
Proof.
  destruct s as [|c s]; [done|]. cbn [quote_step]. destruct (is_ascii_byte c) eqn:Ha.
  - cbn [fst]. destruct (_ || _) eqn:Hq; [apply orb_true_iff in Hq as [->%Ascii.eqb_eq| ->%Ascii.eqb_eq]; done|].
    repeat case_match; try done; try apply hex4_printed. unfold printed. cbn [str_forallb]. unfold printable. by rewrite andb_true_r.
  - destruct (Utf8.rune_size (String c s)) as [|n] eqn:Hn; [done|]. destruct (line_separator _); cbn [fst]; [apply hex4_printed|].
    destruct (rune_size_bytes _ _ _ Hn Ha) as (Hb & _). revert Hb. apply str_forallb_impl. intros d.
    unfold is_ascii_byte, printable. rewrite negb_true_iff, N.ltb_ge, N.leb_le. lia.
Qed.

Lemma quote_body_printed s : printed (quote_body s) = true.
Proof. apply rewrite_from_printed, quote_step_printed. Qed.

(** Every text in the document is printed. *)
Fixpoint one_line (v : json) : bool :=
  match v with
  | JNull | JBool _ => true
  | JNum raw | JStr raw => printed raw
  | JArr vs => forallb one_line vs
  | JObj ms => forallb (λ m, printed (fst m) && one_line (snd m)) ms
  end.

Lemma Join_printed sep ls : printed sep = true → Forall (λ l, printed l = true) ls → printed (Join sep ls) = true.
Proof.
  intros Hsep. induction 1 as [|l ls Hl Hls IH]; [done|]. destruct ls as [|k ls]; [exact Hl|].
  change (Join sep (l :: k :: ls)) with (l +:+ sep +:+ Join sep (k :: ls)). by rewrite !printed_app, Hl, Hsep, IH.
Qed.

Lemma quoted_printed r : printed (quoted r) = printed r.
Proof. unfold quoted, printed. cbn [str_forallb]. rewrite str_forallb_app. by rewrite andb_true_r. Qed.

Lemma print_printed v : ∀ d, one_line v = true → printed (print (λ _, "") "" d v) = true.
Proof.
  induction v as [|b|r|r|vs IH|ms IH] using json_nested_ind; intros d Hv.
  - done.
  - by destruct b.
  - exact Hv.
  - cbn [print]. by rewrite quoted_printed.
  - destruct vs as [|v vs]; [done|]. change (print _ _ _ _) with ("[" +:+ "" +:+ Join ("," +:+ "") (map (print (λ _, "") "" (S d)) (v :: vs)) +:+ "" +:+ "]").
    rewrite !printed_app, Join_printed; [done|done|]. apply Forall_map. cbn [one_line] in Hv. clear -IH Hv.
    induction IH as [|w ws Hw _ IH]; [done|]. cbn [forallb] in Hv. apply andb_true_iff in Hv as [H1 H2]. constructor; auto.
  - destruct ms as [|m ms]; [done|]. change (print _ _ _ _) with ("{" +:+ "" +:+ Join ("," +:+ "") (map (λ m, quoted (fst m) +:+ ":" +:+ "" +:+ print (λ _, "") "" (S d) (snd m)) (m :: ms)) +:+ "" +:+ "}").
    rewrite !printed_app, Join_printed; [done|done|]. apply Forall_map. cbn [one_line] in Hv. clear -IH Hv.
    induction IH as [|w ws Hw _ IH]; [done|]. cbn [forallb] in Hv. apply andb_true_iff in Hv as [[Hk H1]%andb_true_iff H2].
    constructor; [|auto]. by rewrite !printed_app, quoted_printed, Hk, Hw.
Qed.

Lemma Marshal_printed v : one_line v = true → printed (Marshal v) = true.
Proof. apply print_printed. Qed.

Lemma enc_string_one_line s : one_line (enc_string s) = true.
Proof. apply quote_body_printed. Qed.
Lemma enc_int_one_line z : one_line (enc_int z) = true.
Proof.
  apply Itoa_bytes; [|done]. intros c. unfold is_digit, in_range, printable. rewrite andb_true_iff, !N.leb_le. lia.
Qed.

End Data.
