(* ===== verification/Vless.v ===== *)
(** * Vless: the VLESS share-link module ([internal/protocol/vless])

    [vless] is the module as an instance of [Link.LinkModule]: its checks in
    the order of the code, its parameters, and [RenderNode], which makes a
    VLESS outbound or, for the xhttp transport, the program's own one.  What a
    link's query says reaches the outbound or the link is refused: nothing is
    downgraded in between. *)

From S2P Require Import Prelude GoStr GoUrl GoJson Registry Schema Link.
Import Registry Schema Link.

Local Open Scope string_scope.
Local Open Scope list_scope.

Module Vless.

Definition ErrNotVLESS : string := "not a vless:// link".
Definition ErrMissingUUID : string := "missing UUID".
Definition ErrInvalidUUID : string := "invalid UUID".
Definition ErrMissingRealityKey : string := "reality selected but public key (pbk) is missing".
Definition ErrUnsupportedTransport : string := "unsupported transport type".
Definition ErrUnsupportedSecurity : string := "unsupported security type".
Definition ErrUnsupportedEncryption : string := "unsupported encryption (only 'none' is supported)".
Definition ErrUnsupportedXHTTPMode : string := "unsupported xhttp mode".
Definition ErrInvalidXHTTPExtra : string := "invalid xhttp extra (must be valid JSON)".
Definition ErrInvalidRealityClientVersion : string := "invalid REALITY client version (want major.minor.patch)".
Definition ErrRealityClientVersionRequiresReality : string := "realityClientVersion requires security=reality".

Definition validRealityClientVersion (value : string) : bool :=
  let parts := split_byte "." value in
  (length parts =? 3)%nat &&
  forallb (λ part, match Atoi part with Some n => ((0 <=? n) && (n <=? 255))%Z | None => false end) parts.

Record RealityParams := { Enabled : bool; PublicKey : string; ShortID : string; ClientVersion : string }.

(** [RealityParams{}] *)
Definition no_reality : RealityParams := {| Enabled := false; PublicKey := ""; ShortID := ""; ClientVersion := "" |}.

Record Params := {
  UUID : string;
  Host : string;
  Port : Z;
  Flow : string;
  Security : string;
  TLS : TLSParams;
  Reality : RealityParams;
  Transport : TransportParams
}.

Section unicode.
Context `{GoUnicode}.

(** The checks of the query, in order; each is an early return of [Parse]. *)
Definition check_client_version (q : list (string * string)) : result ParseError string :=
  let v := TrimSpace (Url.Get q "realityClientVersion") in
  if negb (String.eqb v "") && negb (EqualFold (TrimSpace (Url.Get q "security")) "reality")
  then Err (parseErr "realityClientVersion" v ErrRealityClientVersionRequiresReality)
  else if negb (String.eqb v "") && negb (validRealityClientVersion v)
  then Err (parseErr "realityClientVersion" v ErrInvalidRealityClientVersion)
  else Ok v.

Definition securities : list string := ["none"; "tls"; "reality"].

Definition check_security (q : list (string * string)) : result ParseError string :=
  let security := or_default (lower_trimmed (Url.Get q "security")) "none" in
  if bool_decide (security ∈ securities) then Ok security
  else Err (parseErr "security" security ErrUnsupportedSecurity).

Definition transports : list string := ["tcp"; "grpc"; "ws"; "http"; "xhttp"].

Definition check_transport (q : list (string * string)) : result ParseError string :=
  let transport := or_default (lower_trimmed (Url.Get q "type")) "tcp" in
  let transport := if String.eqb transport "splithttp" then "xhttp" else transport in
  if bool_decide (transport ∈ transports) then Ok transport
  else Err (parseErr "type" transport ErrUnsupportedTransport).

Definition check_encryption (q : list (string * string)) : result ParseError unit :=
  let enc := lower_trimmed (Url.Get q "encryption") in
  if negb (String.eqb enc "") && negb (String.eqb enc "none")
  then Err (parseErr "encryption" enc ErrUnsupportedEncryption) else Ok ().

Definition reality_params (q : list (string * string)) (security version : string)
    : result ParseError RealityParams :=
  if String.eqb security "reality" then
    let pbk := Url.Get q "pbk" in
    if String.eqb pbk "" then Err (parseErr "pbk" "" ErrMissingRealityKey)
    else Ok {| Enabled := true; PublicKey := pbk; ShortID := Url.Get q "sid"; ClientVersion := version |}
  else Ok no_reality.

Definition xhttp_modes : list string := [""; "auto"; "packet-up"; "stream-up"; "stream-one"].

(** The mode and the extra document, which only an xhttp link has. *)
Definition xhttp_params (q : list (string * string)) (transport : string)
    : result ParseError (string * string) :=
  if String.eqb transport "xhttp" then
    let mode := lower_trimmed (Url.Get q "mode") in
    if bool_decide (mode ∈ xhttp_modes) then
      let extra := Url.Get q "extra" in
      if String.eqb extra "" then Ok (mode, "")
      else if negb (Json.Valid extra) then Err (parseErr "extra" extra ErrInvalidXHTTPExtra)
      else match Json.Compact extra with
           | Some c => Ok (mode, c)
           | None => Err (parseErr "extra" extra ErrInvalidXHTTPExtra)
           end
    else Err (parseErr "mode" mode ErrUnsupportedXHTTPMode)
  else Ok ("", "").

Definition decode_vless (user : option Url.Userinfo) (host port : string) (q : list (string * string))
    : result ParseError Params :=
  let? uuid := need_user "uuid" ErrMissingUUID user in
  if negb (is_uuid uuid) then Err (parseErr "uuid" uuid ErrInvalidUUID) else
  let? host := need_host host in
  let? port := need_port port in
  let? version := check_client_version q in
  let? security := check_security q in
  let? transport := check_transport q in
  let? _ := check_encryption q in
  let? reality := reality_params q security version in
  let? xhttp := xhttp_params q transport in
  Ok {| UUID := uuid; Host := host; Port := port;
        Flow := TrimSpace (Url.Get q "flow");
        Security := security;
        TLS := {| pServerName := Url.Get q "sni"; pFingerprint := Url.Get q "fp";
                  pALPN := splitCSV (Url.Get q "alpn"); pInsecure := is_true (Url.Get q "allowInsecure") |};
        Reality := reality;
        Transport := {| tType := transport;
                        tServiceName := firstNonEmpty [Url.Get q "serviceName"; Url.Get q "servicename"];
                        tPath := Url.Get q "path"; tHost := splitCSV (Url.Get q "host");
                        tHeaderType := Url.Get q "headerType";
                        tMode := fst xhttp; tExtra := snd xhttp |} |}.

Definition vless : LinkModule Params := {|
  lName := "vless"; lTitle := "VLESS"; lSchemes := ["vless"]; lErrNot := ErrNotVLESS;
  decode := decode_vless |}.

End unicode.

Definition tlsCfg (sec : string) (tp : TLSParams) (rp : RealityParams) : option Schema.TLS :=
  if negb (String.eqb sec "tls") && negb (String.eqb sec "reality") then None
  else Some (tls_block tp (if Enabled rp then
    Some {| realityEnabled := true; realityPublicKey := PublicKey rp; Schema.ShortID := ShortID rp;
            Schema.ClientVersion := ClientVersion rp |} else None)).

Definition xhttpOutbound (p : Params) (o : RenderOpts) : Node :=
  XHTTPOutbound (dialer o (Host p) (Port p)) (UUID p) (tlsCfg (Security p) (TLS p) (Reality p))
    {| xPath := tPath (Transport p); xHost := match tHost (Transport p) with h :: _ => h | [] => "" end;
       xMode := tMode (Transport p); xExtra := tExtra (Transport p) |}.

Definition RenderNode (p : Profile Params) (o : RenderOpts) : result string Node :=
  let params := Registry.Params p in
  if String.eqb (tType (Transport params)) "xhttp" then Ok (xhttpOutbound params o)
  else Ok (VLESSOutbound (dialer o (Host params) (Port params)) (UUID params) (Flow params)
             (tlsCfg (Security params) (TLS params) (Reality params)) (buildTransport (Transport params))).

(** ** The module keeps its promises *)

#[global] Instance vless_dials `{GoUnicode} : Dials vless RenderNode Host Port.
Proof.
  split.
  - intros user h p q x. cbn [decode vless]. unfold decode_vless. intros Hd.
    rbind_steps Hd. destruct (is_uuid _); cbn [negb] in Hd; [|done]. rbind_steps Hd. injection Hd as <-.
    match goal with Hh : need_host h = _ |- _ => apply need_host_Ok in Hh as [-> ?] end. done.
  - intros prof o. unfold RenderNode, xhttpOutbound. destruct (String.eqb _ _); by eexists.
Qed.

#[global] Instance vless_schemes `{GoUnicode} : PlainSchemes vless.
Proof. by repeat constructor. Qed.

(** What the steps of the decoder leave, in one place. *)
Lemma decode_vless_inv `{GoUnicode} user h p q x : decode_vless user h p q = Ok x →
  (∃ ui, user = Some ui ∧ UUID x = Url.username ui) ∧ is_uuid (UUID x) = true ∧ need_port p = Ok (Port x) ∧ Host x = h ∧
  Security x = or_default (lower_trimmed (Url.Get q "security")) "none" ∧
  check_security q = Ok (Security x) ∧ check_transport q = Ok (tType (Transport x)) ∧
  check_encryption q = Ok () ∧
  (check_client_version q = Ok (TrimSpace (Url.Get q "realityClientVersion")) ∧
   reality_params q (Security x) (TrimSpace (Url.Get q "realityClientVersion")) = Ok (Reality x)) ∧
  xhttp_params q (tType (Transport x)) = Ok (tMode (Transport x), tExtra (Transport x)) ∧
  Flow x = TrimSpace (Url.Get q "flow") ∧
  TLS x = {| pServerName := Url.Get q "sni"; pFingerprint := Url.Get q "fp"; pALPN := splitCSV (Url.Get q "alpn");
             pInsecure := is_true (Url.Get q "allowInsecure") |} ∧
  tServiceName (Transport x) = firstNonEmpty [Url.Get q "serviceName"; Url.Get q "servicename"] ∧
  tPath (Transport x) = Url.Get q "path" ∧ tHost (Transport x) = splitCSV (Url.Get q "host").
Proof.
  unfold decode_vless. intros Hd.
  apply rbind_Ok_inv in Hd as (uuid & Huu & Hd). destruct (is_uuid uuid) eqn:Hu; cbn [negb] in Hd; [|done].
  apply rbind_Ok_inv in Hd as (h' & Hh & Hd). apply rbind_Ok_inv in Hd as (p' & Hp & Hd).
  apply rbind_Ok_inv in Hd as (v & Hv & Hd). apply rbind_Ok_inv in Hd as (sec & Hs & Hd).
  apply rbind_Ok_inv in Hd as (t & Ht & Hd). apply rbind_Ok_inv in Hd as ([] & He & Hd).
  apply rbind_Ok_inv in Hd as (r & Hr & Hd). apply rbind_Ok_inv in Hd as ([mode extra] & Hx & Hd).
  assert (v = TrimSpace (Url.Get q "realityClientVersion")) as ->.
  { unfold check_client_version in Hv. destruct (_ && _); [done|]. destruct (_ && _); [done|]. by injection Hv. }
  apply need_host_Ok in Hh as [-> _]. injection Hd as <-. cbn [UUID Host Port Security TLS Reality Transport Flow tType tServiceName tPath tHost tMode tExtra fst snd].
  split_and!; try done.
  - unfold need_user in Huu. destruct user as [ui|]; [|done]. destruct (String.eqb _ _); [done|]. injection Huu as <-. by exists ui.
  - unfold check_security in Hs. case_bool_decide; [|done]. by injection Hs.
Qed.

Lemma check_security_Ok `{GoUnicode} q s : check_security q = Ok s → s ∈ securities.
Proof. unfold check_security. case_bool_decide; [|done]. by intros [= <-]. Qed.

Lemma check_transport_Ok `{GoUnicode} q t : check_transport q = Ok t → t ∈ transports.
Proof. unfold check_transport. case_bool_decide; [|done]. by intros [= <-]. Qed.

Lemma check_client_version_Ok `{GoUnicode} q v : check_client_version q = Ok v →
  v = "" ∨ validRealityClientVersion v = true.
Proof.
  unfold check_client_version. destruct (String.eqb_spec (TrimSpace (Url.Get q "realityClientVersion")) "") as [E|E];
    cbn [negb andb]; [intros [= <-]; by left|].
  destruct (negb (EqualFold _ _)); [done|]. destruct (validRealityClientVersion _) eqn:Hv; cbn [negb]; [|done].
  intros [= <-]. by right.
Qed.

Lemma tlsCfg_none sec tp rp : sec ∈ securities → tlsCfg sec tp rp = None ↔ sec = "none".
Proof.
  intros Hs. unfold tlsCfg, securities in *. rewrite !elem_of_cons, elem_of_nil in Hs.
  by destruct Hs as [->|[->|[->|[]]]].
Qed.

(** What is left of the xhttp parameters. *)
Lemma xhttp_params_Ok `{GoUnicode} q mode extra : xhttp_params q "xhttp" = Ok (mode, extra) →
  mode ∈ xhttp_modes ∧
  (if String.eqb (Url.Get q "extra") "" then extra = ""
   else Json.Valid extra = true ∧ Json.Decode extra = Json.Decode (Url.Get q "extra")).
Proof.
  unfold xhttp_params. cbn. case_bool_decide; [|done].
  destruct (String.eqb (Url.Get q "extra") ""); [by intros [= <- <-]|].
  destruct (Json.Valid _); [|done]. cbn. destruct (Json.Compact _) as [c|] eqn:Hc; [|done].
  intros [= <- <-]. split; [done|]. by apply Json.Compact_Decode in Hc as [-> ->].
Qed.

(** What a link says, read off its query: the TLS block, and the transport of
    one of the five types. *)
Definition asked_tls (get : string → string) (security version : string) : option Schema.TLS :=
  if String.eqb security "none" then None else Some {|
    tlsEnabled := true; ServerName := get "sni"; Schema.Insecure := is_true (get "allowInsecure"); ALPN := splitCSV (get "alpn");
    tlsUTLS := (if String.eqb (get "fp") "" then None else Some {| utlsEnabled := true; Fingerprint := get "fp" |});
    tlsReality := (if String.eqb security "reality"
                   then Some {| realityEnabled := true; realityPublicKey := get "pbk"; Schema.ShortID := get "sid";
                                Schema.ClientVersion := version |}
                   else None) |}.
Definition asked_transport (get : string → string) (type : string) : option Schema.Transport :=
  let hosts := splitCSV (get "host") in
  match type with
  | "grpc" => Some {| transportType := "grpc"; ServiceName := firstNonEmpty [get "serviceName"; get "servicename"];
                      transportPath := ""; transportHost := []; Headers := ∅ |}
  | "ws" => Some {| transportType := "ws"; ServiceName := ""; transportPath := get "path"; transportHost := [];
                    Headers := match hosts with h :: _ => {["Host" := h]} | [] => ∅ end |}
  | "http" => Some {| transportType := "http"; ServiceName := ""; transportPath := get "path"; transportHost := hosts; Headers := ∅ |}
  | _ => None
  end.

Lemma tlsCfg_asked `{GoUnicode} q sec rp version tp :
  sec ∈ securities → reality_params q sec version = Ok rp →
  tp = {| pServerName := Url.Get q "sni"; pFingerprint := Url.Get q "fp"; pALPN := splitCSV (Url.Get q "alpn");
          pInsecure := is_true (Url.Get q "allowInsecure") |} →
  tlsCfg sec tp rp = asked_tls (Url.Get q) sec version.
Proof.
  intros Hs Hr ->. unfold tlsCfg, asked_tls, securities, reality_params in *. rewrite !elem_of_cons, elem_of_nil in Hs.
  destruct Hs as [->|[->|[->|[]]]]; cbn in *; [done|by injection Hr as <-|].
  destruct (String.eqb (Url.Get q "pbk") ""); [done|]. by injection Hr as <-.
Qed.

Lemma buildTransport_asked q t : tType t ∈ transports → tType t ≠ "xhttp" →
  tServiceName t = firstNonEmpty [Url.Get q "serviceName"; Url.Get q "servicename"] → tPath t = Url.Get q "path" →
  tHost t = splitCSV (Url.Get q "host") → buildTransport t = asked_transport (Url.Get q) (tType t).
Proof.
  unfold transports. rewrite !elem_of_cons, elem_of_nil. unfold buildTransport, asked_transport. intros Ht Hx -> -> ->.
  by destruct Ht as [E|[E|[E|[E|[E|[]]]]]]; rewrite E in Hx |- *.
Qed.


(** ** On a link *)

#[local] Existing Instance ascii_only.

Definition vx_link : string :=
  "vless://b831381d-6324-4d53-ad4f-8cda48b30811@[2001:db8::1]:8443?security=reality&pbk=KEY&sid=6ba8&sni=www.example.org&fp=chrome&type=splithttp&path=%2Fx&mode=Stream-Up&extra=%7B%20%22a%22%20:%201%20%7D#My%20key".

Definition vx_opts : RenderOpts := {| oTag := "proxy"; oBindInterface := "en0"; oConnectTimeout := "10s" |}.

Definition vx_profile : Profile Params :=
  match Parse vless vx_link with
  | Ok p => p
  | Err _ => {| Protocol := ""; Label := ""; Raw := ""; Registry.Params :=
      {| UUID := ""; Host := ""; Port := 0; Flow := ""; Security := "";
         TLS := {| pServerName := ""; pFingerprint := ""; pALPN := []; pInsecure := false |};
         Reality := no_reality;
         Transport := {| tType := ""; tServiceName := ""; tPath := ""; tHost := []; tHeaderType := "";
                         tMode := ""; tExtra := "" |} |} |}
  end.

Example vx_rendered :
  (Label vx_profile, RenderNode vx_profile vx_opts) =
  ("My key", Ok (XHTTPOutbound
    {| dTag := "proxy"; Server := "2001:db8::1"; ServerPort := 8443; ConnectTimeout := "10s"; BindInterface := "en0" |}
    "b831381d-6324-4d53-ad4f-8cda48b30811"
    (Some {| tlsEnabled := true; ServerName := "www.example.org"; Schema.Insecure := false; ALPN := [];
             tlsUTLS := Some {| utlsEnabled := true; Fingerprint := "chrome" |};
             tlsReality := Some {| realityEnabled := true; realityPublicKey := "KEY"; Schema.ShortID := "6ba8";
                                   Schema.ClientVersion := "" |} |})
    {| xPath := "/x"; xHost := ""; xMode := "stream-up"; xExtra := Json.dq "{'a':1}" |})).
Proof. vm_compute. reflexivity. Qed.

Example vless_refuses :
  (λ l, match Parse vless ("vless://b831381d-6324-4d53-ad4f-8cda48b30811" +:+ l) with
        | Ok _ => "" | Err e => Field e end) <$>
    ["@h:443?security=reality"; "@h:443?encryption=mlkem"; "@h:443?type=kcp"; "@h:0"; "@:443"; "@h";
     "@h:443?type=xhttp&mode=x"; "@h:443?type=xhttp&extra=x"; "@h:443?realityClientVersion=1.2.3"; "@h:443?mode=x"] =
    ["pbk"; "encryption"; "type"; "port"; "host"; "port"; "mode"; "extra"; "realityClientVersion"; ""].
Proof. vm_compute. reflexivity. Qed.


End Vless.
