(* ===== verification/Links.v ===== *)
(** * Links: the other share-link modules whose links are URLs
    ([internal/protocol/{trojan,anytls,hysteria,hysteria2,tuic}])

    One Module per package: its checks in the order of the code as the decoder
    of a [Link.LinkModule], and its renderer.  All five protocols are TLS-only
    and what they render always has TLS on ([usable]). *)

From S2P Require Import Prelude GoStr GoUrl Registry Schema Link Vless.
Import Registry Schema Link.

Local Open Scope string_scope.
Local Open Scope list_scope.

Definition ErrMissingPassword : string := "missing password".
Definition ErrMissingUUID : string := "missing UUID".
Definition ErrInvalidUUID : string := "invalid UUID".

(** [TLS] of the packages without a fingerprint. *)
Record TLSNoFP := { nServerName : string; nALPN : list string; nInsecure : bool }.

Definition tls_no_fp (t : TLSNoFP) : TLS :=
  tls_block {| pServerName := nServerName t; pFingerprint := ""; pALPN := nALPN t; pInsecure := nInsecure t |} None.

(** [parseMbps]: the leading digits of a bandwidth, whatever follows. *)
Definition re_space (c : ascii) : bool := in_range 9 10 c || in_range 12 13 c || Ascii.eqb c " ".

Definition ErrSyntax : string := "invalid syntax".

Definition parseMbps (s : string) : result string Z :=
  let s := TrimSpace s in
  if String.eqb s "" then Ok 0%Z
  else
    let digits := before_byte (λ c, negb (is_digit c)) (drop_while re_space s) in
    if String.eqb digits "" then Err ErrSyntax
    else match Atoi digits with
         | Some n => Ok n
         | None => Err ("strconv.Atoi: parsing " +:+ String DQ (digits +:+ String DQ ": value out of range"))
         end.

Module Trojan.

Definition ErrNotTrojan : string := "not a trojan:// link".
Definition ErrMissingRealityKey : string := "reality selected but public key (pbk) is missing".
Definition ErrUnsupportedTransport : string := "unsupported transport type".
Definition ErrUnsupportedSecurity : string := "unsupported security type".
Definition ErrTrojanSecurityNone : string := "trojan is TLS-only: security=none is not a valid trojan link".

Record RealityParams := { Enabled : bool; PublicKey : string; ShortID : string }.

Record Params := {
  Password : string;
  Host : string;
  Port : Z;
  Security : string;
  TLS : TLSParams;
  Reality : RealityParams;
  Transport : TransportParams
}.

Section unicode.
Context `{GoUnicode}.

Definition check_security (q : list (string * string)) : result ParseError string :=
  let security := or_default (lower_trimmed (Url.Get q "security")) "tls" in
  if String.eqb security "none" then Err (parseErr "security" security ErrTrojanSecurityNone)
  else if String.eqb security "tls" || String.eqb security "reality" then Ok security
  else Err (parseErr "security" security ErrUnsupportedSecurity).

Definition transports : list string := ["tcp"; "grpc"; "ws"; "http"].

Definition check_transport (q : list (string * string)) : result ParseError string :=
  let transport := or_default (lower_trimmed (Url.Get q "type")) "tcp" in
  if bool_decide (transport ∈ transports) then Ok transport
  else Err (parseErr "type" transport ErrUnsupportedTransport).

Definition reality_params (q : list (string * string)) (security : string) : result ParseError RealityParams :=
  if String.eqb security "reality" then
    let pbk := Url.Get q "pbk" in
    if String.eqb pbk "" then Err (parseErr "pbk" "" ErrMissingRealityKey)
    else Ok {| Enabled := true; PublicKey := pbk; ShortID := Url.Get q "sid" |}
  else Ok {| Enabled := false; PublicKey := ""; ShortID := "" |}.

Definition decode_trojan (user : option Url.Userinfo) (host port : string) (q : list (string * string))
    : result ParseError Params :=
  let? password := need_user "password" ErrMissingPassword user in
  let? host := need_host host in
  let? port := need_port port in
  let? security := check_security q in
  let? transport := check_transport q in
  let? reality := reality_params q security in
  Ok {| Password := password; Host := host; Port := port; Security := security;
        TLS := {| pServerName := Url.Get q "sni"; pFingerprint := Url.Get q "fp";
                  pALPN := splitCSV (Url.Get q "alpn"); pInsecure := is_true (Url.Get q "allowInsecure") |};
        Reality := reality;
        Transport := {| tType := transport;
                        tServiceName := firstNonEmpty [Url.Get q "serviceName"; Url.Get q "servicename"];
                        tPath := Url.Get q "path"; tHost := splitCSV (Url.Get q "host");
                        tHeaderType := Url.Get q "headerType"; tMode := ""; tExtra := "" |} |}.

Definition trojan : LinkModule Params := {|
  lName := "trojan"; lTitle := "Trojan"; lSchemes := ["trojan"]; lErrNot := ErrNotTrojan;
  decode := decode_trojan |}.

End unicode.

Definition tlsCfg (sec : string) (tp : TLSParams) (rp : RealityParams) : option Schema.TLS :=
  if negb (String.eqb sec "tls") && negb (String.eqb sec "reality") then None
  else Some (tls_block tp (if Enabled rp then
    Some {| realityEnabled := true; realityPublicKey := PublicKey rp; Schema.ShortID := ShortID rp;
            Schema.ClientVersion := "" |} else None)).

Definition RenderNode (p : Profile Params) (o : RenderOpts) : result string Node :=
  let params := Registry.Params p in
  Ok (TrojanOutbound (dialer o (Host params) (Port params)) (Password params) ""
        (tlsCfg (Security params) (TLS params) (Reality params)) (buildTransport (Transport params))).

End Trojan.

Module AnyTLS.

Definition ErrNotAnyTLS : string := "not an anytls:// link".

Record Params := { Host : string; Port : Z; Password : string; TLS : TLSParams }.

Definition decode_anytls (user : option Url.Userinfo) (host port : string) (q : list (string * string))
    : result ParseError Params :=
  let? password := need_user "password" ErrMissingPassword user in
  let? host := need_host host in
  let? port := need_port port in
  Ok {| Host := host; Port := port; Password := password;
        TLS := {| pServerName := Url.Get q "sni"; pFingerprint := Url.Get q "fp";
                  pALPN := splitCSV (Url.Get q "alpn");
                  pInsecure := is_true (Url.Get q "insecure") || is_true (Url.Get q "allowInsecure") |} |}.

Definition anytls : LinkModule Params := {|
  lName := "anytls"; lTitle := "AnyTLS"; lSchemes := ["anytls"]; lErrNot := ErrNotAnyTLS;
  decode := decode_anytls |}.

Definition tlsCfg (t : TLSParams) : option Schema.TLS := Some (tls_block t None).

Definition RenderNode (p : Profile Params) (o : RenderOpts) : result string Node :=
  let params := Registry.Params p in
  Ok (AnyTLSOutbound (dialer o (Host params) (Port params)) (Password params) (tlsCfg (TLS params)) "" "" 0).

End AnyTLS.

Module Hysteria.

Definition ErrNotHysteria : string := "not a hysteria:// link".
Definition ErrMissingAuth : string := "missing auth".
Definition ErrMissingHysteriaMbps : string :=
  "hysteria v1 needs both upmbps and downmbps (its congestion control is rate-based, not loss-based)".

Record Params := {
  Host : string;
  Port : Z;
  TLS : TLSNoFP;
  UpMbps : Z;
  DownMbps : Z;
  Obfs : string;
  AuthStr : string
}.

(** A bandwidth under one of two names; an error reports the value under the
    first. *)
Definition bandwidth (q : list (string * string)) (key alias : string) : result ParseError Z :=
  match parseMbps (firstNonEmpty [Url.Get q key; Url.Get q alias]) with
  | Ok n => Ok n
  | Err e => Err (parseErr key (Url.Get q key) e)
  end.

Definition decode_hysteria (user : option Url.Userinfo) (host port : string) (q : list (string * string))
    : result ParseError Params :=
  let? host := need_host host in
  let? port := need_port port in
  let auth := Url.Get q "auth" in
  if String.eqb auth "" then Err (parseErr "auth" "" ErrMissingAuth) else
  let? up := bandwidth q "upmbps" "up" in
  let? down := bandwidth q "downmbps" "down" in
  if (up =? 0)%Z || (down =? 0)%Z then Err (parseErr "upmbps/downmbps" "" ErrMissingHysteriaMbps) else
  Ok {| Host := host; Port := port;
        TLS := {| nServerName := firstNonEmpty [Url.Get q "peer"; Url.Get q "sni"];
                  nALPN := splitCSV (Url.Get q "alpn"); nInsecure := is_true (Url.Get q "insecure") |};
        UpMbps := up; DownMbps := down; Obfs := Url.Get q "obfs"; AuthStr := auth |}.

Definition hysteria : LinkModule Params := {|
  lName := "hysteria"; lTitle := "Hysteria"; lSchemes := ["hysteria"; "hy"]; lErrNot := ErrNotHysteria;
  decode := decode_hysteria |}.

Definition tlsCfg (t : TLSNoFP) : option Schema.TLS := Some (tls_no_fp t).

Definition RenderNode (p : Profile Params) (o : RenderOpts) : result string Node :=
  let params := Registry.Params p in
  Ok (HysteriaOutbound (dialer o (Host params) (Port params)) (UpMbps params) (DownMbps params)
        (Obfs params) (AuthStr params) "" (tlsCfg (TLS params))).

End Hysteria.

Module Hysteria2.

Definition ErrNotHysteria2 : string := "not a hysteria2:// link".
Definition ErrUnsupportedObfs : string := "unsupported obfs type (only 'salamander' is supported)".

Record Params := {
  Host : string;
  Port : Z;
  Password : string;
  TLS : TLSNoFP;
  UpMbps : Z;
  DownMbps : Z;
  ObfsType : string;
  ObfsPassword : string
}.

(** The password is the whole user part, its colon included. *)
Definition need_password (user : option Url.Userinfo) : result ParseError string :=
  let? name := need_user "password" ErrMissingPassword user in
  Ok (match user with
      | Some {| Url.password := Some pass |} => name +:+ ":" +:+ pass
      | _ => name
      end).

Definition check_obfs `{GoUnicode} (q : list (string * string)) : result ParseError string :=
  let obfsType := lower_trimmed (Url.Get q "obfs") in
  if negb (String.eqb obfsType "") && negb (String.eqb obfsType "salamander")
  then Err (parseErr "obfs" obfsType ErrUnsupportedObfs) else Ok obfsType.

Definition decode_hysteria2 `{GoUnicode} (user : option Url.Userinfo) (host port : string)
    (q : list (string * string)) : result ParseError Params :=
  let? password := need_password user in
  let? host := need_host host in
  let? port := need_port port in
  let? obfsType := check_obfs q in
  let? up := Hysteria.bandwidth q "up" "upmbps" in
  let? down := Hysteria.bandwidth q "down" "downmbps" in
  Ok {| Host := host; Port := port; Password := password;
        TLS := {| nServerName := firstNonEmpty [Url.Get q "sni"; Url.Get q "peer"];
                  nALPN := splitCSV (Url.Get q "alpn");
                  nInsecure := is_true (Url.Get q "insecure") || is_true (Url.Get q "allowInsecure") |};
        UpMbps := up; DownMbps := down; ObfsType := obfsType; ObfsPassword := Url.Get q "obfs-password" |}.

Definition hysteria2 `{GoUnicode} : LinkModule Params := {|
  lName := "hysteria2"; lTitle := "Hysteria2"; lSchemes := ["hysteria2"; "hy2"]; lErrNot := ErrNotHysteria2;
  decode := decode_hysteria2 |}.

Definition tlsCfg (t : TLSNoFP) : option Schema.TLS := Some (tls_no_fp t).

Definition RenderNode (p : Profile Params) (o : RenderOpts) : result string Node :=
  let params := Registry.Params p in
  Ok (Hysteria2Outbound (dialer o (Host params) (Port params)) (UpMbps params) (DownMbps params)
        (if String.eqb (ObfsType params) "" then None
         else Some {| obfsType := ObfsType params; obfsPassword := ObfsPassword params |})
        (Password params) "" (tlsCfg (TLS params))).

End Hysteria2.

Module Tuic.

Definition ErrNotTUIC : string := "not a tuic:// link".
Definition ErrUnsupportedCongestionControl : string :=
  "unsupported congestion_control (valid: cubic, new_reno, bbr)".
Definition ErrUnsupportedUDPRelayMode : string := "unsupported udp_relay_mode (valid: native, quic)".

Record Params := {
  Host : string;
  Port : Z;
  UUID : string;
  Password : string;
  TLS : TLSNoFP;
  CongestionControl : string;
  UDPRelayMode : string;
  ZeroRTTHandshake : bool
}.

(** [password, ok := u.User.Password(); !ok || password == ""] *)
Definition need_password (user : option Url.Userinfo) : result ParseError string :=
  match user with
  | Some {| Url.password := Some pass |} =>
      if String.eqb pass "" then Err (parseErr "password" "" ErrMissingPassword) else Ok pass
  | _ => Err (parseErr "password" "" ErrMissingPassword)
  end.

Definition one_of (field sentinel : string) (allowed : list string) (v : string) : result ParseError string :=
  if bool_decide (v ∈ allowed) then Ok v else Err (parseErr field v sentinel).

Definition congestion_controls : list string := [""; "cubic"; "new_reno"; "bbr"].
Definition udp_relay_modes : list string := [""; "native"; "quic"].

Definition decode_tuic `{GoUnicode} (user : option Url.Userinfo) (host port : string)
    (q : list (string * string)) : result ParseError Params :=
  let? uuid := need_user "uuid" ErrMissingUUID user in
  if negb (is_uuid uuid) then Err (parseErr "uuid" uuid ErrInvalidUUID) else
  let? password := need_password user in
  let? host := need_host host in
  let? port := need_port port in
  let? congestion := one_of "congestion_control" ErrUnsupportedCongestionControl congestion_controls
    (lower_trimmed (firstNonEmpty [Url.Get q "congestion_control"; Url.Get q "congestion"])) in
  let? udpRelayMode := one_of "udp_relay_mode" ErrUnsupportedUDPRelayMode udp_relay_modes
    (lower_trimmed (Url.Get q "udp_relay_mode")) in
  let zeroRTT := firstNonEmpty [Url.Get q "zero_rtt_handshake"; Url.Get q "reduce_rtt"] in
  let insecure := firstNonEmpty [Url.Get q "allow_insecure"; Url.Get q "insecure"; Url.Get q "allowInsecure"] in
  Ok {| Host := host; Port := port; UUID := uuid; Password := password;
        TLS := {| nServerName := Url.Get q "sni"; nALPN := splitCSV (Url.Get q "alpn");
                  nInsecure := is_true insecure |};
        CongestionControl := congestion; UDPRelayMode := udpRelayMode;
        ZeroRTTHandshake := is_true zeroRTT |}.

Definition tuic `{GoUnicode} : LinkModule Params := {|
  lName := "tuic"; lTitle := "TUIC"; lSchemes := ["tuic"]; lErrNot := ErrNotTUIC; decode := decode_tuic |}.

Definition tlsCfg (t : TLSNoFP) : option Schema.TLS := Some (tls_no_fp t).

Definition RenderNode (p : Profile Params) (o : RenderOpts) : result string Node :=
  let params := Registry.Params p in
  Ok (TUICOutbound (dialer o (Host params) (Port params)) (UUID params) (Password params)
        (CongestionControl params) (UDPRelayMode params) (ZeroRTTHandshake params) "" "" (tlsCfg (TLS params))).

End Tuic.

(** ** The modules keep their promises *)

(** The decoder of a module whose host and port are the link's. *)
Ltac solve_dials :=
  split; [intros ????? Hd; cbn [decode] in Hd; rbind_steps Hd; repeat (case_match; try discriminate);
          rbind_steps Hd; repeat (case_match; try discriminate); simplify_eq/=;
          match goal with Hh : need_host _ = _ |- _ => apply need_host_Ok in Hh as [-> ?] end; done
         |intros ??; by eexists].

#[export] Instance trojan_dials `{GoUnicode} : Dials Trojan.trojan Trojan.RenderNode Trojan.Host Trojan.Port.
Proof. unfold Trojan.trojan, Trojan.decode_trojan. solve_dials. Qed.
#[export] Instance anytls_dials : Dials AnyTLS.anytls AnyTLS.RenderNode AnyTLS.Host AnyTLS.Port.
Proof. unfold AnyTLS.anytls, AnyTLS.decode_anytls. solve_dials. Qed.
#[export] Instance hysteria_dials : Dials Hysteria.hysteria Hysteria.RenderNode Hysteria.Host Hysteria.Port.
Proof. unfold Hysteria.hysteria, Hysteria.decode_hysteria. solve_dials. Qed.
#[export] Instance hysteria2_dials `{GoUnicode} :
  Dials Hysteria2.hysteria2 Hysteria2.RenderNode Hysteria2.Host Hysteria2.Port.
Proof. unfold Hysteria2.hysteria2, Hysteria2.decode_hysteria2. solve_dials. Qed.
#[export] Instance tuic_dials `{GoUnicode} : Dials Tuic.tuic Tuic.RenderNode Tuic.Host Tuic.Port.
Proof. unfold Tuic.tuic, Tuic.decode_tuic. solve_dials. Qed.

#[export] Instance trojan_schemes `{GoUnicode} : PlainSchemes Trojan.trojan.
Proof. by repeat constructor. Qed.
#[export] Instance anytls_schemes : PlainSchemes AnyTLS.anytls.
Proof. by repeat constructor. Qed.
#[export] Instance hysteria_schemes : PlainSchemes Hysteria.hysteria.
Proof. by repeat constructor. Qed.
#[export] Instance hysteria2_schemes `{GoUnicode} : PlainSchemes Hysteria2.hysteria2.
Proof. by repeat constructor. Qed.
#[export] Instance tuic_schemes `{GoUnicode} : PlainSchemes Tuic.tuic.
Proof. by repeat constructor. Qed.

(** ** What the engine needs of an outbound *)

(** TLS is on, and REALITY, if selected, has a key. *)
Definition tls_on (t : TLS) : Prop :=
  tlsEnabled t = true ∧ ∀ r, tlsReality t = Some r → realityEnabled r = true ∧ realityPublicKey r ≠ "".

(** Credentials are present and well-formed, options have one of their values,
    hysteria's rate-based congestion control has its rates, a TLS-only
    protocol has TLS on. *)
Definition usable (n : Node) : Prop :=
  match n with
  | VLESSOutbound _ uuid _ tls _ | XHTTPOutbound _ uuid tls _ =>
      is_uuid uuid = true ∧ ∀ t, tls = Some t → tls_on t
  | VMessOutbound _ uuid security _ _ tls _ _ =>
      is_uuid uuid = true ∧ security ≠ "" ∧ ∀ t, tls = Some t → tls_on t ∧ tlsReality t = None
  | TrojanOutbound _ pw _ (Some t) _ => pw ≠ "" ∧ tls_on t
  | ShadowsocksOutbound _ method pw _ _ _ => method ≠ "" ∧ pw ≠ ""
  | HysteriaOutbound _ up down _ auth _ (Some t) =>
      (0 < up)%Z ∧ (0 < down)%Z ∧ auth ≠ "" ∧ tls_on t
  | Hysteria2Outbound _ up down obfs pw _ (Some t) =>
      (0 <= up)%Z ∧ (0 <= down)%Z ∧ pw ≠ "" ∧ (∀ o, obfs = Some o → obfsType o = "salamander") ∧ tls_on t
  | TUICOutbound _ uuid pw cc mode _ _ _ (Some t) =>
      is_uuid uuid = true ∧ pw ≠ "" ∧ cc ∈ Tuic.congestion_controls ∧ mode ∈ Tuic.udp_relay_modes ∧ tls_on t
  | AnyTLSOutbound _ pw (Some t) _ _ _ => pw ≠ "" ∧ tls_on t
  | _ => False
  end.

(** The module's decoder leaves what its renderer makes usable. *)
Class Usable {P} (m : LinkModule P) (render : Profile P → RenderOpts → result string Node) : Prop :=
  decoded_usable : ∀ user h p q x prof o n,
    decode m user h p q = Ok x → Params prof = x → render prof o = Ok n → usable n.

Lemma tls_on_block t : tls_on (tls_block t None).
Proof. by split. Qed.
Lemma tls_on_no_fp t : tls_on (tls_no_fp t).
Proof. by split. Qed.
#[export] Hint Resolve tls_on_block tls_on_no_fp : go.

Lemma need_user_Ok f e user pw : need_user f e user = Ok pw → pw ≠ "".
Proof.
  unfold need_user. destruct user as [u|]; [|done].
  destruct (String.eqb_spec (Url.username u) ""); [done|]. by intros [= <-].
Qed.

Lemma Atoi_digits s n : str_forallb is_digit s = true → Atoi s = Some n → (0 <= n)%Z.
Proof.
  destruct s as [|c s]; [done|]. intros Hd. unfold Atoi.
  assert (is_digit c = true) as Hc by (cbn [str_forallb] in Hd; by apply andb_true_iff in Hd as [? _]).
  assert (Ascii.eqb c "-" = false ∧ Ascii.eqb c "+" = false) as [-> ->].
  { split; apply Ascii.eqb_neq; by intros ->. }
  destruct (parse_digits (String c s)) as [k|]; [|done]. cbn [mbind option_bind]. unfold in_int64.
  case_match; [|done]. intros [= <-]. lia.
Qed.

Lemma before_byte_forall f s : str_forallb (λ c, negb (f c)) (before_byte f s) = true.
Proof. induction s as [|c s IH]; [done|]. cbn. destruct (f c) eqn:E; [done|]. cbn. by rewrite E. Qed.

Lemma parseMbps_nonneg s n : parseMbps s = Ok n → (0 <= n)%Z.
Proof.
  unfold parseMbps. destruct (String.eqb _ _); [by intros [= <-]|]. cbv zeta.
  destruct (String.eqb _ _); [done|]. destruct (Atoi _) as [k|] eqn:Ha; [|done]. intros [= <-].
  eapply Atoi_digits; [|exact Ha]. eapply str_forallb_impl; [|apply before_byte_forall].
  intros c. cbn. by rewrite negb_involutive.
Qed.

#[export] Instance trojan_usable `{GoUnicode} : Usable Trojan.trojan Trojan.RenderNode.
Proof.
  intros user h p q x prof o n Hd Hx Hr. unfold Trojan.RenderNode in Hr. rewrite Hx in Hr. injection Hr as <-.
  cbn [decode Trojan.trojan] in Hd. unfold Trojan.decode_trojan in Hd.
  apply rbind_Ok_inv in Hd as (pw & Hpw%need_user_Ok & Hd). rbind_steps Hd. injection Hd as <-.
  match goal with H : Trojan.check_security q = Ok ?s |- _ => rename H into Hs; rename s into sec end.
  match goal with H : Trojan.reality_params q sec = Ok ?r |- _ => rename H into Hr; rename r into rp end.
  cbn. unfold Trojan.tlsCfg.
  assert (negb (String.eqb sec "tls") && negb (String.eqb sec "reality") = false) as ->.
  { revert Hs. unfold Trojan.check_security. destruct (String.eqb _ "none"); [done|].
    destruct (_ || _) eqn:E; [|done]. intros [= <-]. by rewrite <- negb_orb, E. }
  split; [done|]. split; [done|]. intros r. cbn. unfold Trojan.reality_params in Hr.
  destruct (String.eqb sec "reality"); [|by injection Hr as <-].
  destruct (String.eqb_spec (Url.Get q "pbk") ""); [done|]. injection Hr as <-. cbn. by intros [= <-].
Qed.

#[export] Instance anytls_usable : Usable AnyTLS.anytls AnyTLS.RenderNode.
Proof.
  intros user h p q x prof o n Hd Hx Hr. unfold AnyTLS.RenderNode in Hr. rewrite Hx in Hr. injection Hr as <-.
  cbn [decode AnyTLS.anytls] in Hd. unfold AnyTLS.decode_anytls in Hd.
  apply rbind_Ok_inv in Hd as (pw & Hpw%need_user_Ok & Hd). rbind_steps Hd. injection Hd as <-. cbn. auto with go.
Qed.

Lemma bandwidth_nonneg q k a n : Hysteria.bandwidth q k a = Ok n → (0 <= n)%Z.
Proof.
  unfold Hysteria.bandwidth. destruct (parseMbps _) as [m|] eqn:E; [|done]. intros [= <-].
  by eapply parseMbps_nonneg.
Qed.

#[export] Instance hysteria_usable : Usable Hysteria.hysteria Hysteria.RenderNode.
Proof.
  intros user h p q x prof o n Hd Hx Hr. unfold Hysteria.RenderNode in Hr. rewrite Hx in Hr. injection Hr as <-.
  cbn [decode Hysteria.hysteria] in Hd. unfold Hysteria.decode_hysteria in Hd. rbind_steps Hd. cbv zeta in Hd.
  destruct (String.eqb_spec (Url.Get q "auth") "") as [|Ha]; [done|].
  apply rbind_Ok_inv in Hd as (up & Hup%bandwidth_nonneg & Hd).
  apply rbind_Ok_inv in Hd as (down & Hdown%bandwidth_nonneg & Hd).
  destruct (_ || _) eqn:E; [done|]. injection Hd as <-. cbn. apply orb_false_iff in E as [?%Z.eqb_neq ?%Z.eqb_neq].
  split_and!; try done; lia.
Qed.

#[export] Instance hysteria2_usable `{GoUnicode} : Usable Hysteria2.hysteria2 Hysteria2.RenderNode.
Proof.
  intros user h p q x prof o n Hd Hx Hr. unfold Hysteria2.RenderNode in Hr. rewrite Hx in Hr. injection Hr as <-.
  cbn [decode Hysteria2.hysteria2] in Hd. unfold Hysteria2.decode_hysteria2 in Hd.
  apply rbind_Ok_inv in Hd as (pw & Hpw & Hd). apply rbind_Ok_inv in Hd as (h' & _ & Hd).
  apply rbind_Ok_inv in Hd as (p' & _ & Hd). apply rbind_Ok_inv in Hd as (obfs & Ho & Hd).
  apply rbind_Ok_inv in Hd as (up & Hup%bandwidth_nonneg & Hd).
  apply rbind_Ok_inv in Hd as (down & Hdown%bandwidth_nonneg & Hd). injection Hd as <-. cbn.
  split_and!; try done.
  - unfold Hysteria2.need_password in Hpw. apply rbind_Ok_inv in Hpw as (name & Hname%need_user_Ok & Hpw).
    injection Hpw as <-. destruct name as [|c name]; [done|]. by repeat case_match.
  - intros ob. destruct (String.eqb_spec obfs ""); [done|]. intros [= <-]. cbn.
    revert Ho. unfold Hysteria2.check_obfs. cbv zeta. destruct (negb _ && negb _) eqn:E; [done|]. intros [= <-].
    apply andb_false_iff in E as [E|E]; apply negb_false_iff, String.eqb_eq in E; [by rewrite E in *|done].
Qed.

Lemma one_of_Ok f e l v w : Tuic.one_of f e l v = Ok w → w ∈ l.
Proof. unfold Tuic.one_of. case_bool_decide; [|done]. by intros [= <-]. Qed.

#[export] Instance tuic_usable `{GoUnicode} : Usable Tuic.tuic Tuic.RenderNode.
Proof.
  intros user h p q x prof o n Hd Hx Hr. unfold Tuic.RenderNode in Hr. rewrite Hx in Hr. injection Hr as <-.
  cbn [decode Tuic.tuic] in Hd. unfold Tuic.decode_tuic in Hd.
  apply rbind_Ok_inv in Hd as (uuid & _ & Hd). destruct (is_uuid uuid) eqn:Hu; cbn [negb] in Hd; [|done].
  apply rbind_Ok_inv in Hd as (pw & Hpw & Hd). apply rbind_Ok_inv in Hd as (h' & _ & Hd).
  apply rbind_Ok_inv in Hd as (p' & _ & Hd). apply rbind_Ok_inv in Hd as (cc & Hcc%one_of_Ok & Hd).
  apply rbind_Ok_inv in Hd as (mode & Hm%one_of_Ok & Hd). injection Hd as <-. cbn.
  split_and!; try done. revert Hpw. unfold Tuic.need_password. destruct user as [[? [pass|]]|]; try done.
  destruct (String.eqb_spec pass ""); [done|]. by intros [= <-].
Qed.

#[export] Instance vless_usable `{GoUnicode} : Usable Vless.vless Vless.RenderNode.
Proof.
  intros user h p q x prof o n Hd Hx Hn. cbn [decode Vless.vless] in Hd.
  apply Vless.decode_vless_inv in Hd as (_ & Hu & _ & _ & _ & Hs%Vless.check_security_Ok & _ & _ & (_ & Hr) & _).
  assert (∀ t, Vless.tlsCfg (Vless.Security x) (Vless.TLS x) (Vless.Reality x) = Some t → tls_on t) as Ht.
  { intros t. unfold Vless.tlsCfg. destruct (_ && _); [done|]. intros [= <-]. split; [done|]. intros r. cbn.
    unfold Vless.reality_params in Hr. destruct (String.eqb _ _); [|by injection Hr as <-].
    destruct (String.eqb_spec (Url.Get q "pbk") ""); [done|]. injection Hr as <-. cbn. by intros [= <-]. }
  revert Hn. unfold Vless.RenderNode, Vless.xhttpOutbound. rewrite Hx. destruct (String.eqb _ _); by intros [= <-].
Qed.
