(* ===== verification/GoBase64.v ===== *)
(** * GoBase64: Go's encoding/base64

    The four predefined encodings.  [DecodeString] skips carriage returns and
    line feeds wherever they are, and ignores the trailing bits of the last
    sextet, as the non-strict encodings do; an error is [None]. *)

From S2P Require Import Prelude GoStr.

Local Open Scope string_scope.

Module Base64.

Record Encoding := { url_alphabet : bool; padded : bool }.

Definition StdEncoding : Encoding := {| url_alphabet := false; padded := true |}.
Definition RawStdEncoding : Encoding := {| url_alphabet := false; padded := false |}.
Definition URLEncoding : Encoding := {| url_alphabet := true; padded := true |}.
Definition RawURLEncoding : Encoding := {| url_alphabet := true; padded := false |}.

Definition char62 (e : Encoding) : ascii := if url_alphabet e then "-" else "+".
Definition char63 (e : Encoding) : ascii := if url_alphabet e then "_" else "/".

Definition digit_char (e : Encoding) (n : N) : ascii :=
  if (n <? 26)%N then ascii_of_N (65 + n)
  else if (n <? 52)%N then ascii_of_N (71 + n)
  else if (n <? 62)%N then ascii_of_N (n - 4)
  else if (n =? 62)%N then char62 e else char63 e.

Definition sextet (e : Encoding) (c : ascii) : option N :=
  if in_range 65 90 c then Some (byte_val c - 65)%N
  else if in_range 97 122 c then Some (byte_val c - 71)%N
  else if in_range 48 57 c then Some (byte_val c + 4)%N
  else if Ascii.eqb c (char62 e) then Some 62%N
  else if Ascii.eqb c (char63 e) then Some 63%N
  else None.

Definition pad : ascii := "=".
Definition is_pad (e : Encoding) (c : ascii) : bool := padded e && Ascii.eqb c pad.

(** The bytes of one to three full octets of a quantum. *)
Definition byte1 (a b : N) : ascii := ascii_of_N (a * 4 + b / 16).
Definition byte2 (b c : N) : ascii := ascii_of_N ((b mod 16) * 16 + c / 4).
Definition byte3 (c d : N) : ascii := ascii_of_N ((c mod 4) * 64 + d).

Fixpoint decode_quanta (e : Encoding) (s : string) : option string :=
  match s with
  | "" => Some ""
  | String a (String b s) =>
      va ← sextet e a; vb ← sextet e b;
      match s with
      | "" => if padded e then None else Some (String (byte1 va vb) "")
      | String c s =>
          if is_pad e c then
            match s with
            | String d "" => if is_pad e d then Some (String (byte1 va vb) "") else None
            | _ => None
            end
          else
            vc ← sextet e c;
            match s with
            | "" => if padded e then None else Some (String (byte1 va vb) (String (byte2 vb vc) ""))
            | String d s =>
                if is_pad e d then
                  match s with
                  | "" => Some (String (byte1 va vb) (String (byte2 vb vc) ""))
                  | _ => None
                  end
                else
                  vd ← sextet e d; r ← decode_quanta e s;
                  Some (String (byte1 va vb) (String (byte2 vb vc) (String (byte3 vc vd) r)))
            end
      end
  | String _ "" => None
  end.

Definition newline (c : ascii) : bool := Ascii.eqb c LF || Ascii.eqb c CR.

Definition DecodeString (e : Encoding) (s : string) : option string :=
  decode_quanta e (str_filter (λ c, negb (newline c)) s).

Definition pads (e : Encoding) (n : nat) : string :=
  if padded e then match n with 2%nat => "==" | 1%nat => "=" | _ => "" end else "".

Definition EncodeToString (e : Encoding) : string → string :=
  fix enc (s : string) : string :=
  match s with
  | "" => ""
  | String x "" =>
      let n := byte_val x in
      String (digit_char e (n / 4)) (String (digit_char e ((n mod 4) * 16)) (pads e 2))
  | String x (String y "") =>
      let n := byte_val x in let m := byte_val y in
      String (digit_char e (n / 4)) (String (digit_char e ((n mod 4) * 16 + m / 16))
        (String (digit_char e ((m mod 16) * 4)) (pads e 1)))
  | String x (String y (String z s)) =>
      let n := byte_val x in let m := byte_val y in let k := byte_val z in
      String (digit_char e (n / 4)) (String (digit_char e ((n mod 4) * 16 + m / 16))
        (String (digit_char e ((m mod 16) * 4 + k / 64)) (String (digit_char e (k mod 64)) (enc s))))
  end.

Example std_ex : (EncodeToString StdEncoding <$> ["Man"; "Ma"; "M"; ""]) = ["TWFu"; "TWE="; "TQ=="; ""].
Proof. vm_compute. reflexivity. Qed.
Example decode_b64_ex :
  (DecodeString RawStdEncoding "TWE", DecodeString StdEncoding "TWE", DecodeString RawStdEncoding "TWE=",
   DecodeString StdEncoding ("TW" +:+ nl +:+ "E=" +:+ nl), DecodeString StdEncoding "TWE=x", DecodeString RawURLEncoding "_-8") =
  (Some "Ma", None, None, Some "Ma", None, Some (String "255" (String "239" ""))).
Proof. vm_compute. reflexivity. Qed.

(** ** Round trip *)

Definition below_64 : list N := N.of_nat <$> seq 0 64.

Lemma sextet_digit e n : (n < 64)%N →
  sextet e (digit_char e n) = Some n ∧ is_pad e (digit_char e n) = false ∧ newline (digit_char e n) = false.
Proof.
  intros Hn. assert (Forall (λ n, sextet e (digit_char e n) = Some n ∧ is_pad e (digit_char e n) = false ∧
    newline (digit_char e n) = false) below_64) as HF.
  { destruct e as [[] []]; apply (bool_decide_unpack _); vm_compute; exact I. }
  rewrite Forall_forall in HF. apply HF. unfold below_64. apply list_elem_of_fmap.
  exists (N.to_nat n). split; [lia|]. apply elem_of_seq. lia.
Qed.

Lemma of_byte c n : n = byte_val c → ascii_of_N n = c.
Proof. intros ->. apply ascii_N_embedding. Qed.

Ltac div_lia := unfold byte1, byte2, byte3; zify; Z.to_euclidean_division_equations; lia.

Lemma string_ind3 (Q : string → Prop) :
  Q "" → (∀ x, Q (String x "")) → (∀ x y, Q (String x (String y ""))) →
  (∀ x y z s, Q s → Q (String x (String y (String z s)))) → ∀ s, Q s.
Proof.
  intros H0 H1 H2 H3. fix IH 1. intros [|x [|y [|z s]]]; [exact H0|apply H1|apply H2|apply H3, IH].
Qed.

(** The sextets of three octets, and back. *)
Lemma octets_bounds x y z :
  (byte_val x / 4 < 64 ∧ (byte_val x mod 4) * 16 + byte_val y / 16 < 64 ∧
   (byte_val y mod 16) * 4 + byte_val z / 64 < 64 ∧ byte_val z mod 64 < 64 ∧
   (byte_val x mod 4) * 16 < 64 ∧ (byte_val y mod 16) * 4 < 64)%N.
Proof. pose proof (byte_val_lt x). pose proof (byte_val_lt y). pose proof (byte_val_lt z). split_and!; div_lia. Qed.

Lemma byte1_octet x m : (m < 256)%N → byte1 (byte_val x / 4) ((byte_val x mod 4) * 16 + m / 16) = x.
Proof. intros Hm. apply of_byte. pose proof (byte_val_lt x). div_lia. Qed.
Lemma byte2_octet n y k : (k < 256)%N →
  byte2 ((n mod 4) * 16 + byte_val y / 16) ((byte_val y mod 16) * 4 + k / 64) = y.
Proof. intros Hk. apply of_byte. pose proof (byte_val_lt y). div_lia. Qed.
Lemma byte3_octet m z : byte3 ((m mod 16) * 4 + byte_val z / 64) (byte_val z mod 64) = z.
Proof. apply of_byte. pose proof (byte_val_lt z). div_lia. Qed.

Lemma byte1_last x : byte1 (byte_val x / 4) ((byte_val x mod 4) * 16) = x.
Proof. rewrite <- (byte1_octet x 0) at 3 by lia. by rewrite N.add_0_r. Qed.
Lemma byte2_last n y : byte2 ((n mod 4) * 16 + byte_val y / 16) ((byte_val y mod 16) * 4) = y.
Proof. rewrite <- (byte2_octet n y 0) at 3 by lia. by rewrite N.add_0_r. Qed.

Lemma decode_encode e s : decode_quanta e (EncodeToString e s) = Some s ∧
  str_forallb (λ c, negb (newline c)) (EncodeToString e s) = true.
Proof.
  induction s as [|x|x y|x y z s [IH1 IH2]] using string_ind3; [done|..].
  - destruct (octets_bounds x x x) as (H1 & _ & _ & _ & H2 & _).
    apply (sextet_digit e) in H1 as (S1 & _ & N1), H2 as (S2 & _ & N2).
    cbn [EncodeToString decode_quanta str_forallb]. rewrite S1, S2, N1, N2. cbn [mbind option_bind].
    rewrite byte1_last. unfold pads, is_pad. by destruct (padded e).
  - destruct (octets_bounds x y y) as (H1 & H2 & _ & _ & _ & H3). pose proof (byte_val_lt y).
    apply (sextet_digit e) in H1 as (S1 & _ & N1), H2 as (S2 & _ & N2), H3 as (S3 & P3 & N3).
    cbn [EncodeToString decode_quanta str_forallb]. rewrite S1, S2, S3, P3, N1, N2, N3. cbn [mbind option_bind].
    rewrite byte1_octet, byte2_last by done. unfold pads, is_pad. by destruct (padded e).
  - destruct (octets_bounds x y z) as (H1 & H2 & H3 & H4 & _). pose proof (byte_val_lt y). pose proof (byte_val_lt z).
    apply (sextet_digit e) in H1 as (S1 & _ & N1), H2 as (S2 & _ & N2), H3 as (S3 & P3 & N3), H4 as (S4 & P4 & N4).
    cbn [EncodeToString decode_quanta str_forallb]. rewrite S1, S2, S3, S4, P3, P4, N1, N2, N3, N4.
    cbn [mbind option_bind negb andb]. rewrite IH1. cbn [mbind option_bind].
    by rewrite byte1_octet, byte2_octet, byte3_octet by done.
Qed.

Lemma DecodeString_EncodeToString e s : DecodeString e (EncodeToString e s) = Some s.
Proof.
  destruct (decode_encode e s) as [Hd Hn]. unfold DecodeString.
  by rewrite str_filter_all.
Qed.

(** The bytes of an encoding: the alphabet's and the padding's. *)
Lemma EncodeToString_bytes (f : ascii → bool) e s :
  forallb (λ n, f (digit_char e n)) below_64 = true → (padded e = true → f pad = true) →
  str_forallb f (EncodeToString e s) = true.
Proof.
  intros Hf Hp. rewrite forallb_forall in Hf. assert (Hd : ∀ n, (n < 64)%N → f (digit_char e n) = true).
  { intros n Hn. apply Hf, list_elem_of_In. unfold below_64. apply list_elem_of_fmap.
    exists (N.to_nat n). split; [lia|]. apply elem_of_seq. lia. }
  induction s as [|x|x y|x y z s IH] using string_ind3; [done|..]; cbn [EncodeToString str_forallb].
  - destruct (octets_bounds x x x) as (H1 & _ & _ & _ & H2 & _). rewrite !Hd by done. unfold pads.
    destruct (padded e); [|done]. pose proof (Hp eq_refl) as Hq. unfold pad in Hq. cbn. by rewrite Hq.
  - destruct (octets_bounds x y y) as (H1 & H2 & _ & _ & _ & H3). rewrite !Hd by done. unfold pads.
    destruct (padded e); [|done]. pose proof (Hp eq_refl) as Hq. unfold pad in Hq. cbn. by rewrite Hq.
  - destruct (octets_bounds x y z) as (H1 & H2 & H3 & H4 & _). by rewrite !Hd, IH by done.
Qed.

(** ** What decodes *)

Lemma string_ind4 (Q : string → Prop) :
  Q "" → (∀ a, Q (String a "")) → (∀ a b, Q (String a (String b ""))) → (∀ a b c, Q (String a (String b (String c "")))) →
  (∀ a b c d s, Q s → Q (String a (String b (String c (String d s))))) → ∀ s, Q s.
Proof.
  intros H0 H1 H2 H3 H4. fix IH 1. intros [|a [|b [|c [|d s]]]]; [exact H0|apply H1|apply H2|apply H3|]. apply H4, IH.
Qed.

(** Every byte of the alphabets and the padding. *)
Definition base64_byte (c : ascii) : bool :=
  in_range 65 90 c || in_range 97 122 c || in_range 48 57 c || str_has c "+/-_=".

Lemma sextet_facts e c n : sextet e c = Some n →
  base64_byte c = true ∧ Ascii.eqb c pad = false ∧ ∀ e' n', sextet e' c = Some n' → n' = n.
Proof.
  intros Hs. split_and!.
  - revert Hs. destruct e as [[] ?], c as [[] [] [] [] [] [] [] []]; vm_compute; done.
  - revert Hs. destruct e as [[] ?], c as [[] [] [] [] [] [] [] []]; vm_compute; done.
  - intros [u' ?] n'. revert Hs. destruct e as [u ?].
    destruct u, u', c as [[] [] [] [] [] [] [] []]; vm_compute; congruence.
Qed.

Lemma pad_facts e c : is_pad e c = true → base64_byte c = true ∧ ∀ e', sextet e' c = None.
Proof. intros [_ ->%Ascii.eqb_eq]%andb_true_iff. split; [done|]. by intros [[] ?]. Qed.

(** Takes the steps of a decoding apart. *)
Ltac decode_steps :=
  repeat match goal with
  | H : (if is_pad ?e ?c then _ else _) = Some _ |- _ =>
      let E := fresh "E" in destruct (is_pad e c) eqn:E; [apply pad_facts in E as [? ?]|]
  | H : (if padded ?e then None else _) = Some _ |- _ => destruct (padded e); [discriminate H|]
  | H : sextet ?e ?c ≫= _ = Some _ |- _ =>
      let E := fresh "E" in destruct (sextet e c) eqn:E; cbn [mbind option_bind] in H; [|discriminate H]
  | H : decode_quanta ?e ?s ≫= _ = Some _ |- _ =>
      let E := fresh "E" in destruct (decode_quanta e s) eqn:E; cbn [mbind option_bind] in H; [|discriminate H]
  | H : match ?s with "" => _ | String _ _ => _ end = Some _ |- _ => destruct s
  | H : None = Some _ |- _ => discriminate H
  | H : Some _ = Some _ |- _ => injection H as <-
  | H : ∀ e, sextet e ?c = None, E : sextet ?e ?c = Some _ |- _ => by rewrite H in E
  end.

(** Two encodings that decode a text decode it to the same bytes. *)
Lemma decode_agree e e' s : ∀ t t', decode_quanta e s = Some t → decode_quanta e' s = Some t' → t = t'.
Proof.
  induction s as [|a|a b|a b c|a b c d s IH] using string_ind4; intros t t' H1 H2; cbn [decode_quanta] in H1, H2;
    decode_steps; try done;
    repeat match goal with
    | E1 : sextet e ?x = Some _, E2 : sextet e' ?x = Some _ |- _ =>
        apply sextet_facts in E1 as (_ & _ & E1); apply E1 in E2 as ->
    end; try done.
  all: try (by f_equal; f_equal; f_equal; eauto).
Qed.

Lemma decode_bytes e s : ∀ t, decode_quanta e s = Some t → str_forallb base64_byte s = true.
Proof.
  induction s as [|a|a b|a b c|a b c d s IH] using string_ind4; intros t H; cbn [decode_quanta] in H;
    decode_steps; try done; cbn [str_forallb];
    repeat match goal with E : sextet e ?x = Some _ |- _ => apply sextet_facts in E as (-> & _ & _) end;
    repeat match goal with E : base64_byte ?x = true |- _ => rewrite E end; try done.
  cbn [andb]. by eapply IH.
Qed.

Lemma DecodeString_agree e e' s t : DecodeString e' (EncodeToString e s) = Some t → t = s.
Proof.
  destruct (decode_encode e s) as [Hd Hn]. unfold DecodeString. rewrite str_filter_all by done.
  intros Ht. by eapply decode_agree.
Qed.

(** A text with another byte than those and line ends decodes under none. *)
Lemma DecodeString_foreign e s c : str_has c s = true → base64_byte c = false → newline c = false → DecodeString e s = None.
Proof.
  intros Hc Hb Hn. destruct (DecodeString e s) as [t|] eqn:E; [|done]. apply decode_bytes in E. exfalso.
  revert Hc E. unfold str_has. rewrite negb_true_iff. induction s as [|d s IH]; [done|]. cbn [str_forallb str_filter].
  destruct (Ascii.eqb_spec c d) as [<-|Hne]; cbn [negb andb].
  - intros _. rewrite Hn. cbn [negb str_forallb]. by rewrite Hb.
  - intros Hs. destruct (negb (newline d)); [|by apply IH]. cbn [str_forallb]. intros [_ Ht]%andb_true_iff. by apply IH.
Qed.

End Base64.
