(* ===== verification/Shadowsocks.v ===== *)
(** * Shadowsocks: the Shadowsocks share-link module
    ([internal/protocol/shadowsocks])

    Its links come in two forms, both accepted: SIP002, a URL whose user part
    is the base64 text of method and password, and the older form, all of it
    base64.  The module has a [Parse] of its own; renaming is the other
    modules'. *)

From S2P Require Import Prelude GoStr GoUrl GoUrlFacts GoBase64 Registry Schema Link.
Import Registry Schema Link.

Local Open Scope string_scope.
Local Open Scope list_scope.

Module Shadowsocks.

Definition ErrInvalidLink : string := "malformed link".
Definition ErrMissingPassword : string := "missing password".
Definition ErrMissingMethod : string := "missing encryption method".

Record Params := {
  Host : string;
  Port : Z;
  Password : string;
  Method : string;
  Plugin : string;
  PluginOptions : string
}.

(** The first of the encodings that decodes the text. *)
Fixpoint first_decoding (encs : list Base64.Encoding) (s : string) : option string :=
  match encs with
  | [] => None
  | e :: encs => match Base64.DecodeString e s with Some b => Some b | None => first_decoding encs s end
  end.

Definition encodings : list Base64.Encoding :=
  [Base64.URLEncoding; Base64.RawURLEncoding; Base64.StdEncoding; Base64.RawStdEncoding].

Definition decodeSSBase64 (s : string) : option string := first_decoding encodings (TrimSpace s).

Definition cutExactlyOneColon (s : string) : option (string * string) :=
  match Cut s ":" with
  | Some (m, p) => if str_has ":" p then None else Some (m, p)
  | None => None
  end.

(** Method and password of a SIP002 link. *)
Definition credentials (user : Url.Userinfo) : string * string :=
  match Url.password user with
  | Some pw => (Url.username user, pw)
  | None =>
      let userinfo := Url.username user in
      let mp :=
        match decodeSSBase64 userinfo with
        | Some decoded => default ("", "") (cutExactlyOneColon decoded)
        | None => ("", "")
        end in
      if String.eqb (fst mp) "" && String.eqb (snd mp) ""
      then default mp (cutExactlyOneColon userinfo) else mp
  end.

(** What either form leaves. *)
Record Parts := {
  method : string; pass : string; host : string; portStr : string;
  name : string; pluginName : string; pluginOpts : string
}.

Definition parse_sip002 (raw trimmed : string) : result ParseError Parts :=
  match Url.Parse trimmed with
  | None => Err (parseErr "link" raw ErrInvalidLink)
  | Some u =>
      match Url.User u with
      | None => Err (parseErr "password" "" ErrMissingPassword)
      | Some user =>
          let '(method, password) := credentials user in
          let plugin := Url.Get (Url.Query u) "plugin" in
          let '(pluginName, pluginOpts) :=
            if String.eqb plugin "" then ("", "") else default (plugin, "") (Cut plugin ";") in
          Ok {| method := method; pass := password; host := Url.Hostname u; portStr := Url.Port u;
                name := Url.Fragment u; pluginName := pluginName; pluginOpts := pluginOpts |}
      end
  end.

(** [url.PathUnescape] decodes like a path. *)
Definition legacy_name (body : string) : string :=
  match Cut body "#" with
  | Some (_, fragment) => default fragment (Url.unescape Url.encodePath fragment)
  | None => ""
  end.

Definition parse_legacy (raw body bodyNoFrag : string) : result ParseError Parts :=
  match decodeSSBase64 bodyNoFrag with
  | None => Err (parseErr "link" raw ErrInvalidLink)
  | Some plain =>
      match Url.cut_last "@" plain with
      | None => Err (parseErr "link" raw ErrInvalidLink)
      | Some (methodPassword, hostPort) =>
          match Cut methodPassword ":" with
          | None => Err (parseErr "link" raw ErrInvalidLink)
          | Some (method, password) =>
              match Url.SplitHostPort hostPort with
              | Err _ => Err (parseErr "link" hostPort ErrInvalidLink)
              | Ok (h, p) =>
                  Ok {| method := method; pass := password; host := h; portStr := p;
                        name := legacy_name body; pluginName := ""; pluginOpts := "" |}
              end
          end
      end
  end.

Definition check_parts (q : Parts) : result ParseError Params :=
  if String.eqb (method q) "" then Err (parseErr "method" "" ErrMissingMethod)
  else if String.eqb (pass q) "" then Err (parseErr "password" "" ErrMissingPassword)
  else
    let? host := need_host (host q) in
    let? port := need_port (portStr q) in
    Ok {| Host := host; Port := port; Password := pass q; Method := method q;
          Plugin := pluginName q; PluginOptions := pluginOpts q |}.

Definition before_fragment (body : string) : string :=
  match Cut body "#" with Some (b, _) => b | None => body end.

(** [Module.Parse] *)
Definition Parse (raw : string) : result ParseError (Profile Params) :=
  let trimmed := TrimSpace raw in
  match Cut trimmed "://" with
  | None => Err (parseErr "link" raw ErrInvalidLink)
  | Some (scheme, body) =>
      if negb (EqualFold scheme "ss") then Err (parseErr "scheme" scheme ErrInvalidLink) else
      let bodyNoFrag := before_fragment body in
      let? q := if Contains bodyNoFrag "@" then parse_sip002 raw trimmed
                else parse_legacy raw body bodyNoFrag in
      let? params := check_parts q in
      Ok {| Protocol := "shadowsocks"; Label := name q; Raw := raw; Registry.Params := params |}
  end.

(** [Module.SetLabel] *)
Definition SetLabel (raw label : string) : result ParseError string :=
  let trimmed := TrimSpace raw in
  match Url.Parse trimmed with
  | None => Err (parseErr "link" trimmed ErrInvalidLink)
  | Some u => Ok (Url.URL_String (Url.set_Fragment (TrimSpace label) u))
  end.

Definition RenderNode (p : Profile Params) (o : RenderOpts) : result string Node :=
  let params := Registry.Params p in
  Ok (ShadowsocksOutbound (dialer o (Host params) (Port params)) (Method params) (Password params)
        (Plugin params) (PluginOptions params) "").

Example parse_forms :
  (λ l, match Parse l with
        | Ok p => let q := Registry.Params p in
                  (Label p, Method q, Password q, Host q, Port q, Plugin q, PluginOptions q)
        | Err e => (Field e, "", "", "", 0%Z, Sentinel e, "")
        end) <$>
    ["ss://YWVzLTI1Ni1nY206cHc@h.example:8388/?plugin=obfs-local%3Bobfs%3Dtls#My%20key";
     "ss://YWVzLTI1Ni1nY206cHdAaC5leGFtcGxlOjgzODg=#My%20key";
     "ss://aes-256-gcm:pw@h.example:8388"; "SS://aes-256-gcm%3Apw@[::1]:8388"; "ss://x"; "ss://YWVz@h:1"] =
  [("My key", "aes-256-gcm", "pw", "h.example", 8388%Z, "obfs-local", "obfs=tls");
   ("My key", "aes-256-gcm", "pw", "h.example", 8388%Z, "", "");
   ("", "aes-256-gcm", "pw", "h.example", 8388%Z, "", ""); ("", "aes-256-gcm", "pw", "::1", 8388%Z, "", "");
   ("link", "", "", "", 0%Z, "malformed link", ""); ("method", "", "", "", 0%Z, "missing encryption method", "")].
Proof. vm_compute. reflexivity. Qed.

End Shadowsocks.
