(* ===== verification/Vmess.v ===== *)
(** * Vmess: the VMess share-link module ([internal/protocol/vmess])

    The link is base64 of a JSON object, the display name one of its members;
    renaming decodes the object, replaces the member and encodes it again.
    Documents are those of [GoJson]; the [v] member, which nothing reads, is
    only checked to be a string. *)

From S2P Require Import Prelude GoStr GoUtf8 GoJson GoBase64 Registry Schema Link.
Import Registry Schema Link.

Local Open Scope string_scope.
Local Open Scope list_scope.

Module Vmess.

Definition ErrNotVMess : string := "not a vmess:// link".
Definition ErrInvalidVMessBase64 : string := "invalid vmess base64 payload".
Definition ErrInvalidVMessJSON : string := "invalid vmess JSON payload".
Definition ErrInvalidVMessAlterID : string := "invalid vmess alterId (aid)".
Definition ErrInvalidUUID : string := "invalid UUID".
Definition ErrUnsupportedTransport : string := "unsupported transport type".

Record Params := {
  UUID : string;
  Host : string;
  Port : Z;
  Security : string;
  TLS : TLSParams;
  Transport : TransportParams;
  AlterID : Z;
  Encryption : string
}.

(** ** The payload *)

(** [vmessJSON]: the string members, zero ones empty, and the two raw ones. *)
Record vmessJSON := { strs : gmap string string; jPort : option Json.json; jAid : option Json.json }.

Definition no_json : vmessJSON := {| strs := ∅; jPort := None; jAid := None |}.

Definition str (j : vmessJSON) (f : string) : string := default "" (strs j !! f).

Definition string_fields : list string :=
  ["v"; "ps"; "add"; "id"; "scy"; "net"; "type"; "host"; "path"; "tls"; "sni"; "alpn"; "fp"].

(** [json.Unmarshal] of one member: the field whose name the key folds to
    takes the value; [None] is a type error. *)
Definition set_member (j : vmessJSON) (m : string * Json.json) : option vmessJSON :=
  let key := Json.unquote (fst m) in
  if EqualFold key "port" then Some {| strs := strs j; jPort := Some (snd m); jAid := jAid j |}
  else if EqualFold key "aid" then Some {| strs := strs j; jPort := jPort j; jAid := Some (snd m) |}
  else match list_find (λ f, EqualFold key f = true) string_fields with
       | Some (_, f) =>
           match snd m with
           | Json.JStr raw => Some {| strs := <[f := Json.unquote raw]> (strs j); jPort := jPort j; jAid := jAid j |}
           | Json.JNull => Some j
           | _ => None
           end
       | None => Some j
       end.

Fixpoint set_members (j : vmessJSON) (ms : list (string * Json.json)) : option vmessJSON :=
  match ms with
  | [] => Some j
  | m :: ms => j ← set_member j m; set_members j ms
  end.

Definition unmarshal (decoded : string) : option vmessJSON :=
  v ← Json.Decode decoded;
  match v with
  | Json.JObj ms => set_members no_json ms
  | Json.JNull => Some no_json
  | _ => None
  end.

Definition vmessNumOrString (raw : option Json.json) : option string :=
  match raw with
  | None => Some ""
  | Some (Json.JStr s) => Some (TrimSpace (Json.unquote s))
  | Some Json.JNull => Some ""
  | Some (Json.JNum n) => Some n
  | Some _ => None
  end.

Definition encodings : list Base64.Encoding :=
  [Base64.StdEncoding; Base64.RawStdEncoding; Base64.URLEncoding; Base64.RawURLEncoding].

Fixpoint try_encodings (encs : list Base64.Encoding) (s : string) : option (string * Base64.Encoding) :=
  match encs with
  | [] => None
  | e :: encs =>
      match Base64.DecodeString e s with Some b => Some (b, e) | None => try_encodings encs s end
  end.

Definition decodeVMessBase64 (s : string) : option (string * Base64.Encoding) :=
  try_encodings encodings (TrimSpace s).

(** ** Parsing *)

Section unicode.
Context `{GoUnicode}.

Definition scheme : string := "vmess://".

(** The text after the scheme, decoded. *)
Definition payload (trimmed : string) : result ParseError (string * Base64.Encoding) :=
  if negb (HasPrefix (ToLower trimmed) scheme) then Err (parseErr "scheme" trimmed ErrNotVMess)
  else
    let payload := String.substring 8 (String.length trimmed - 8) trimmed in
    match decodeVMessBase64 payload with
    | None => Err (parseErr "base64" payload ErrInvalidVMessBase64)
    | Some d => Ok d
    end.

(** The value an error shows; spaces inside an array or object are not kept. *)
Definition raw_value (raw : option Json.json) : string :=
  match raw with Some v => Json.json_text v | None => "" end.

Definition check_port (raw : option Json.json) : result ParseError Z :=
  match vmessNumOrString raw with
  | None => Err (parseErr "port" (raw_value raw) ErrMissingPort)
  | Some port =>
      if String.eqb port "" then Err (parseErr "port" (raw_value raw) ErrMissingPort)
      else match ParseUint16 port with
           | Some p => if (p =? 0)%Z then Err (parseErr "port" port ErrInvalidPort) else Ok p
           | None => Err (parseErr "port" port ErrInvalidPort)
           end
  end.

Definition check_aid (raw : option Json.json) : result ParseError Z :=
  match vmessNumOrString raw with
  | None => Ok 0%Z
  | Some aid =>
      if String.eqb aid "" then Ok 0%Z
      else match Atoi aid with
           | Some n => Ok n
           | None => Err (parseErr "aid" aid ErrInvalidVMessAlterID)
           end
  end.

Definition check_transport (net : string) : result ParseError string :=
  let transport := or_default (lower_trimmed net) "tcp" in
  if bool_decide (transport ∈ ["tcp"; "grpc"; "ws"]) then Ok transport
  else if String.eqb transport "h2" then Ok "http"
  else Err (parseErr "net" transport ErrUnsupportedTransport).

Definition params_of (j : vmessJSON) : result ParseError Params :=
  if String.eqb (str j "add") "" then Err (parseErr "add" "" ErrMissingHost) else
  if negb (is_uuid (str j "id")) then Err (parseErr "id" (str j "id") ErrInvalidUUID) else
  let? port := check_port (jPort j) in
  let? alterID := check_aid (jAid j) in
  let encryption := firstNonEmpty [lower_trimmed (str j "scy"); "auto"] in
  let? transport := check_transport (str j "net") in
  let grpc := String.eqb transport "grpc" in
  Ok {| UUID := str j "id"; Host := str j "add"; Port := port;
        Security := if EqualFold (TrimSpace (str j "tls")) "tls" then "tls" else "none";
        TLS := {| pServerName := str j "sni"; pFingerprint := str j "fp";
                  pALPN := splitCSV (str j "alpn"); pInsecure := false |};
        Transport := {| tType := transport;
                        tServiceName := if grpc then str j "path" else "";
                        tPath := if grpc then "" else str j "path";
                        tHost := splitCSV (str j "host"); tHeaderType := str j "type";
                        tMode := ""; tExtra := "" |};
        AlterID := alterID; Encryption := encryption |}.

(** [Module.Parse] *)
Definition Parse (raw : string) : result ParseError (Profile Params) :=
  let? decoded := payload (TrimSpace raw) in
  match unmarshal (fst decoded) with
  | None => Err (parseErr "json" (fst decoded) ErrInvalidVMessJSON)
  | Some j =>
      let? params := params_of j in
      Ok {| Protocol := "vmess"; Label := str j "ps"; Raw := raw; Registry.Params := params |}
  end.

(** ** Renaming *)

(** [json.Unmarshal] into a map: [None] is an error, [Some None] the nil map a
    null document leaves. *)
Definition unmarshal_map (decoded : string) : option (option (gmap string Json.json)) :=
  v ← Json.Decode decoded;
  match v with
  | Json.JObj ms => Some (Some (foldl (λ f m, <[Json.unquote (fst m) := snd m]> f) ∅ ms))
  | Json.JNull => Some None
  | _ => None
  end.

(** [json.Marshal] of the map: its members in the order of their keys. *)
Definition marshal_map (fields : gmap string Json.json) : string :=
  "{" +:+ Join "," ((λ k, Json.quoted (Json.quote_body k) +:+ ":" +:+
                          match fields !! k with Some v => Json.raw_text v | None => "" end)
                    <$> sort_strings (fst <$> map_to_list fields)) +:+ "}".

(** What [SetLabel] does; a write to a nil map panics. *)
Inductive outcome := Returned (r : result ParseError string) | Panicked.

(** [Module.SetLabel] *)
Definition SetLabel (raw label : string) : outcome :=
  match payload (TrimSpace raw) with
  | Err e => Returned (Err e)
  | Ok (decoded, enc) =>
      match unmarshal_map decoded with
      | None => Returned (Err (parseErr "json" decoded ErrInvalidVMessJSON))
      | Some None => Panicked
      | Some (Some fields) =>
          let fields := <["ps" := Json.JStr (Json.quote_body label)]> fields in
          Returned (Ok (scheme +:+ Base64.EncodeToString enc (marshal_map fields)))
      end
  end.

End unicode.

(** ** Rendering *)

Definition tlsCfg (sec : string) (tp : TLSParams) : option Schema.TLS :=
  if negb (String.eqb sec "tls") then None else Some (tls_block tp None).

Definition RenderNode (p : Profile Params) (o : RenderOpts) : result string Node :=
  let params := Registry.Params p in
  Ok (VMessOutbound (dialer o (Host params) (Port params)) (UUID params) (Encryption params)
        (AlterID params) "" (tlsCfg (Security params) (TLS params)) (buildTransport (Transport params)) "").

(** ** On links *)

Section examples.
#[local] Existing Instance ascii_only.

(** A payload as a link, written with single quotes. *)
Definition vm_link (doc : string) : string := scheme +:+ Base64.EncodeToString Base64.StdEncoding (Json.dq doc).

Definition vm_rest : string := "'id':'b831381d-6324-4d53-ad4f-8cda48b30811','port':'443'".

Definition vm_summary (r : result ParseError (Profile Params)) : string * string * Z * string :=
  match r with
  | Ok p => (Label p, Host (Registry.Params p), Port (Registry.Params p), tType (Transport (Registry.Params p)))
  | Err e => (Field e, Value e, 0%Z, Sentinel e)
  end.

Example payload_variants :
  (vm_summary ∘ Parse) <$>
    [vm_link ("{'ps':'caf\u00e9','ADD':'h.example','net':'h2'," +:+ vm_rest +:+ "}");
     vm_link ("{'add':'h','port':8443,'aid':'0','id':'b831381d-6324-4d53-ad4f-8cda48b30811','x':[1,{}]}");
     vm_link ("{'add':'h','port':null,'id':'b831381d-6324-4d53-ad4f-8cda48b30811'}");
     vm_link ("{'add':'h','port':443.0,'id':'b831381d-6324-4d53-ad4f-8cda48b30811'}");
     vm_link ("{'add':1," +:+ vm_rest +:+ "}"); vm_link "null"; "vmess://%%"; vm_link ("{'add':'h','net':'kcp'," +:+ vm_rest +:+ "}")] =
  [("caf" +:+ Utf8.EncodeRune 233, "h.example", 443%Z, "http"); ("", "h", 8443%Z, "tcp");
   ("port", "null", 0%Z, ErrMissingPort); ("port", "443.0", 0%Z, ErrInvalidPort);
   ("json", Json.dq ("{'add':1," +:+ vm_rest +:+ "}"), 0%Z, ErrInvalidVMessJSON); ("add", "", 0%Z, ErrMissingHost);
   ("base64", "%%", 0%Z, ErrInvalidVMessBase64); ("net", "kcp", 0%Z, ErrUnsupportedTransport)].
Proof. vm_compute. reflexivity. Qed.

Example relabel_keeps_unknown_fields :
  SetLabel (vm_link ("{'x':[ 1 ],'add':'h','ps':'old'," +:+ vm_rest +:+ "}")) "A <b>" =
  Returned (Ok (vm_link ("{'add':'h','id':'b831381d-6324-4d53-ad4f-8cda48b30811','port':'443','ps':'A \u003cb\u003e','x':[1]}"))).
Proof. vm_compute. reflexivity. Qed.

(** A null payload is refused by the parser, but renaming it writes to the nil
    map the decoder left. *)
Lemma relabel_of_null_panics label :
  SetLabel (vm_link "null") label = Panicked ∧ is_ok (Parse (vm_link "null")) = false.
Proof. split; vm_compute; reflexivity. Qed.

(** Renaming sorts the members, so of two that name one field another can
    become the last: here the server changes. *)
Lemma relabel_can_change_the_server :
  let link := vm_link ("{'add':'one.example','ADD':'two.example'," +:+ vm_rest +:+ "}") in
  let link' := vm_link ("{'ADD':'two.example','add':'one.example'," +:+ vm_rest +:+ ",'ps':'new'}") in
  SetLabel link "new" = Returned (Ok link') ∧
    vm_summary (Parse link) = ("", "two.example", 443%Z, "tcp") ∧
    vm_summary (Parse link') = ("new", "one.example", 443%Z, "tcp").
Proof. cbv zeta. split_and!; vm_compute; reflexivity. Qed.

End examples.

(** ** What parses *)

Lemma check_port_range raw p : check_port raw = Ok p → (1 <= p <= 65535)%Z.
Proof.
  unfold check_port. destruct (vmessNumOrString raw) as [s|]; [|done]. intros Hp.
  apply (need_port_range s). unfold need_port. destruct (String.eqb s ""); [done|].
  by repeat case_match.
Qed.

Lemma params_of_facts `{GoUnicode} j x : params_of j = Ok x →
  Host x ≠ "" ∧ is_uuid (UUID x) = true ∧ (1 <= Port x <= 65535)%Z ∧ Encryption x ≠ "" ∧
  (Security x = "tls" ∨ Security x = "none") ∧ tType (Transport x) ∈ ["tcp" : string; "grpc"; "ws"; "http"].
Proof.
  unfold params_of. destruct (String.eqb_spec (str j "add") "") as [|Ha]; [done|].
  destruct (is_uuid (str j "id")) eqn:Hu; cbn [negb]; [|done].
  intros (port & Hport%check_port_range & Hd)%rbind_Ok_inv. apply rbind_Ok_inv in Hd as (aid & _ & Hd). cbv zeta in Hd.
  apply rbind_Ok_inv in Hd as (t & Ht & Hd). injection Hd as <-. cbn [Host UUID Port Encryption Security Transport tType].
  split_and!; try done; try lia.
  - unfold firstNonEmpty. by destruct (String.eqb_spec (lower_trimmed (str j "scy")) "").
  - destruct (EqualFold _ _); auto.
  - unfold check_transport in Ht. case_bool_decide as Hin; [injection Ht as <-; set_solver|].
    destruct (String.eqb _ "h2"); [|done]. injection Ht as <-. set_solver.
Qed.

(** What parses can be renamed: the nil map is not reached. *)
Lemma parsed_can_be_renamed `{GoUnicode} raw p label :
  Parse raw = Ok p → ∃ raw', SetLabel raw label = Returned (Ok raw').
Proof.
  unfold Parse, SetLabel. intros ([decoded enc] & Hd & Hj)%rbind_Ok_inv. rewrite Hd. cbn [fst] in Hj.
  destruct (unmarshal decoded) as [j|] eqn:Hu; [|done]. apply rbind_Ok_inv in Hj as (x & Hx & _).
  unfold unmarshal in Hu. unfold unmarshal_map. destruct (Json.Decode decoded) as [v|]; cbn in *; [|done].
  destruct v; try done; [by injection Hu as <-|by eexists].
Qed.

End Vmess.
