(* ===== verification/Shipped.v ===== *)
(** * Shipped: the modules the program ships, in one registry
    ([internal/protocol/all], [internal/protocol/conformance.go])

    [shipped] is the registry of [all.Registry] with the nine modules of the
    other files; a profile's parameters are one of theirs ([AnyParams]), as the
    interface value is in the code.  The conformance harness's invariants
    ([conforms]) hold for every input, not just the worked examples, and every
    key the registry accepts renders to an outbound the engine can use. *)

From S2P Require Import Prelude GoStr GoUrl GoUrlFacts Registry Schema Singbox WireGuard Link.
From S2P Require Import Vless Links Shadowsocks Vmess.
Import Registry Schema.

Local Open Scope string_scope.
Local Open Scope list_scope.

Module Shipped.

Inductive AnyParams :=
  | PVless (p : Vless.Params)
  | PVmess (p : Vmess.Params)
  | PTrojan (p : Trojan.Params)
  | PShadowsocks (p : Shadowsocks.Params)
  | PHysteria (p : Hysteria.Params)
  | PHysteria2 (p : Hysteria2.Params)
  | PTuic (p : Tuic.Params)
  | PAnyTLS (p : AnyTLS.Params)
  | PWireGuard (p : WireGuard.Params).

Definition map_params {A B} (f : A → B) (p : Profile A) : Profile B := {|
  Protocol := Protocol p; Label := Label p; Raw := Raw p; Params := f (Params p) |}.

Definition map_result {E E' A B} (f : A → B) (g : E → E') (r : result E A) : result E' B :=
  match r with Ok a => Ok (f a) | Err e => Err (g e) end.

Section modules.
Context `{GoUnicode, GoQuote}.

Definition link_descriptor (n title : string) (schemes : list string) : Descriptor := {|
  Name := n; Title := title; dKind := KindOutbound; dInput := InputLink; Schemes := schemes |}.

(** A module whose links are URLs. *)
Definition url_module {P} (inj : P → AnyParams) (m : Link.LinkModule P) : Module_ AnyParams := {|
  descriptor := link_descriptor (Link.lName m) (Link.lTitle m) (Link.lSchemes m);
  mParse := λ raw, map_result (map_params inj) (Link.ParseError_Error (Link.lName m)) (Link.Parse m raw);
  mSetLabel := Some (λ raw label,
    map_result id (Link.ParseError_Error (Link.lName m)) (Link.SetLabel m raw label));
  mSniff := None |}.

Definition shadowsocks_module : Module_ AnyParams := {|
  descriptor := link_descriptor "shadowsocks" "Shadowsocks" ["ss"];
  mParse := λ raw,
    map_result (map_params PShadowsocks) (Link.ParseError_Error "shadowsocks") (Shadowsocks.Parse raw);
  mSetLabel := Some (λ raw label,
    map_result id (Link.ParseError_Error "shadowsocks") (Shadowsocks.SetLabel raw label));
  mSniff := None |}.

(** A panic of the module is an error here; what parses does not reach it
    ([Vmess.parsed_can_be_renamed]). *)
Definition vmess_module : Module_ AnyParams := {|
  descriptor := link_descriptor "vmess" "VMess" ["vmess"];
  mParse := λ raw, map_result (map_params PVmess) (Link.ParseError_Error "vmess") (Vmess.Parse raw);
  mSetLabel := Some (λ raw label,
    match Vmess.SetLabel raw label with
    | Vmess.Returned r => map_result id (Link.ParseError_Error "vmess") r
    | Vmess.Panicked => Err "assignment to entry in nil map"
    end);
  mSniff := None |}.

Definition shipped_modules : list (Module_ AnyParams) := [
  url_module PVless Vless.vless; vmess_module; url_module PTrojan Trojan.trojan; shadowsocks_module;
  url_module PHysteria Hysteria.hysteria; url_module PHysteria2 Hysteria2.hysteria2;
  url_module PTuic Tuic.tuic; url_module PAnyTLS AnyTLS.anytls;
  WireGuard.wireguard_module PWireGuard].

(** [all.Registry]; it panics where the registry cannot be built, which
    [shipped_new] excludes. *)
Definition shipped : Registry_ AnyParams :=
  match NewRegistry shipped_modules with Ok r => r | Err _ => empty_registry end.

Lemma shipped_new : NewRegistry shipped_modules = Ok shipped.
Proof.
  assert (is_ok (NewRegistry shipped_modules) = true) as Hok by (vm_compute; reflexivity).
  unfold shipped. by destruct (NewRegistry shipped_modules).
Qed.

(** The modules' [RenderNode] as one: the module's name selects it, as the
    interface assertion does, and it refuses another module's parameters. *)
Definition render_as {P} (sel : AnyParams → option P) (render : Profile P → RenderOpts → result string Node)
    (p : Profile AnyParams) (o : RenderOpts) : result string Node :=
  match sel (Params p) with
  | Some x => render (map_params (λ _, x) p) o
  | None => Err "unexpected Params type"
  end.

Definition shipped_renderer (m : Module_ AnyParams)
    : option (Profile AnyParams → RenderOpts → result string Node) :=
  let n := Name (descriptor m) in
  if String.eqb n "vless" then Some (render_as (λ p, match p with PVless x => Some x | _ => None end) Vless.RenderNode)
  else if String.eqb n "vmess" then Some (render_as (λ p, match p with PVmess x => Some x | _ => None end) Vmess.RenderNode)
  else if String.eqb n "trojan" then Some (render_as (λ p, match p with PTrojan x => Some x | _ => None end) Trojan.RenderNode)
  else if String.eqb n "shadowsocks" then
    Some (render_as (λ p, match p with PShadowsocks x => Some x | _ => None end) Shadowsocks.RenderNode)
  else if String.eqb n "hysteria" then
    Some (render_as (λ p, match p with PHysteria x => Some x | _ => None end) Hysteria.RenderNode)
  else if String.eqb n "hysteria2" then
    Some (render_as (λ p, match p with PHysteria2 x => Some x | _ => None end) Hysteria2.RenderNode)
  else if String.eqb n "tuic" then Some (render_as (λ p, match p with PTuic x => Some x | _ => None end) Tuic.RenderNode)
  else if String.eqb n "anytls" then
    Some (render_as (λ p, match p with PAnyTLS x => Some x | _ => None end) AnyTLS.RenderNode)
  else if String.eqb n "wireguard" then
    Some (render_as (λ p, match p with PWireGuard x => Some x | _ => None end) WireGuard.RenderNode)
  else None.

(** ** The renderer's laws *)

Definition lawful {P} (render : Profile P → RenderOpts → result string Node) : Prop :=
  ∀ p o n, render p o = Ok n → node_tag n = oTag o ∧ node_bind n = oBindInterface o ∧ node_refs n = [].

Lemma render_as_lawful {P} sel (render : Profile P → RenderOpts → result string Node) :
  lawful render → lawful (render_as sel render).
Proof. intros Hl p o n. unfold render_as. destruct (sel _); [apply Hl|done]. Qed.

Lemma shipped_renderer_lawful m f : shipped_renderer m = Some f → lawful f.
Proof.
  unfold shipped_renderer. repeat (case_match; [intros [= <-]; apply render_as_lawful; clear|]); try done;
    intros p o n; [|by intros [= <-]..].
  unfold Vless.RenderNode, Vless.xhttpOutbound. destruct (String.eqb _ _); by intros [= <-].
Qed.

#[export] Instance shipped_laws : Singbox.RendererLaws shipped_renderer.
Proof. split; intros m f p o n Hm Hf; by apply (shipped_renderer_lawful m f Hm) in Hf as (? & ? & ?). Qed.

(** ** Conformance *)

(** [CheckModule] without the worked example: what it asserts of one input is
    asserted of all. *)
Record conforms (m : Module_ AnyParams) : Prop := {
  c_name : Name (descriptor m) ≠ "";
  c_title : Title (descriptor m) ≠ "";
  c_input : match dInput (descriptor m) with
            | InputLink => Schemes (descriptor m) ≠ [] ∧
                Forall (λ s, ToLower s = s ∧ Contains s "://" = false) (Schemes (descriptor m))
            | InputConfig => is_Some (mSniff m) ∧ Schemes (descriptor m) = []
            end;
  c_protocol : ∀ raw p, mParse m raw = Ok p → Protocol p = Name (descriptor m);
  c_raw : ∀ raw p, mParse m raw = Ok p → TrimSpace (Raw p) = TrimSpace raw
}.

Lemma map_result_Ok {E E' A B} (f : A → B) (g : E → E') r b :
  map_result f g r = Ok b → ∃ a, r = Ok a ∧ b = f a.
Proof. destruct r as [a|e]; [|done]. intros [= <-]. by exists a. Qed.

Lemma url_module_conforms {P} inj (m : Link.LinkModule P) :
  Link.lName m ≠ "" → Link.lTitle m ≠ "" → Link.lSchemes m ≠ [] →
  Forall (λ s, ToLower s = s ∧ Contains s "://" = false) (Link.lSchemes m) → conforms (url_module inj m).
Proof.
  intros Hn Ht Hne Hs. split; [done|done|by split|..].
  - intros raw p (q & Hq & ->)%map_result_Ok. apply Link.Parse_inv in Hq as (u & _ & _ & _ & _ & Hp). exact Hp.
  - intros raw p (q & Hq & ->)%map_result_Ok. apply Link.Parse_inv in Hq as (u & _ & _ & _ & Hr & _).
    change (TrimSpace (Raw q) = TrimSpace raw). by rewrite Hr, TrimSpace_idemp.
Qed.

Lemma shipped_modules_conform : Forall conforms shipped_modules.
Proof.
  unfold shipped_modules. repeat (apply Forall_cons; split); [..|apply Forall_nil_2].
  1, 3, 5-8: apply url_module_conforms; try done; repeat constructor.
  - split; [done|done|by repeat constructor|..].
    + intros raw p (q & Hq & ->)%map_result_Ok. unfold Vmess.Parse in Hq. apply rbind_Ok_inv in Hq as (d & Hd & Hq).
      destruct (Vmess.unmarshal _); [|done]. by apply rbind_Ok_inv in Hq as (? & _ & [= <-]).
    + intros raw p (q & Hq & ->)%map_result_Ok. unfold Vmess.Parse in Hq. apply rbind_Ok_inv in Hq as (d & Hd & Hq).
      destruct (Vmess.unmarshal _); [|done]. by apply rbind_Ok_inv in Hq as (? & _ & [= <-]).
  - split; [done|done|by repeat constructor|..].
    + intros raw p (q & Hq & ->)%map_result_Ok. unfold Shadowsocks.Parse in Hq. cbv zeta in Hq.
      destruct (Cut _ _) as [[s b]|]; [|done]. destruct (negb _); [done|].
      apply rbind_Ok_inv in Hq as (? & _ & Hq). by apply rbind_Ok_inv in Hq as (? & _ & [= <-]).
    + intros raw p (q & Hq & ->)%map_result_Ok. unfold Shadowsocks.Parse in Hq. cbv zeta in Hq.
      destruct (Cut _ _) as [[s b]|] eqn:Hc; [|done]. destruct (negb _); [done|].
      apply rbind_Ok_inv in Hq as (? & _ & Hq). by apply rbind_Ok_inv in Hq as (? & _ & [= <-]).
  - split; [done|done|by split|..].
    + intros raw p Hp. cbn in Hp. destruct (WireGuard.Parse raw) as [q|] eqn:Hq; [|done]. injection Hp as <-.
      unfold WireGuard.Parse in Hq. by apply rbind_Ok_inv in Hq as (? & _ & [= <-]).
    + intros raw p Hp. cbn in Hp. destruct (WireGuard.Parse raw) as [q|] eqn:Hq; [|done]. injection Hp as <-.
      unfold WireGuard.Parse in Hq. by apply rbind_Ok_inv in Hq as (? & _ & [= <-]).
Qed.

(** ** Every key the registry accepts is rendered *)

(** A node with nothing missing: an outbound with a server by name or address,
    a valid port and [usable] credentials, or a WireGuard endpoint with its
    key, an address and peers.  Whether the engine takes the values is the
    engine's: see [reality_without_fingerprint]. *)
Definition complete (n : Node) : Prop :=
  match Link.node_dialer n with
  | Some d => Server d ≠ "" ∧ (1 <= ServerPort d <= 65535)%Z ∧ usable n
  | None =>
      match n with
      | WireGuardEndpoint _ _ addr key _ peers _ _ =>
          key ≠ "" ∧ addr ≠ [] ∧ peers ≠ [] ∧
          Forall (λ q, peerPublicKey q ≠ "" ∧ peerAllowedIPs q ≠ []) peers
      | _ => False
      end
  end.

(** What a module parses, its renderer renders, and the outbound runs. *)
Definition renders (m : Module_ AnyParams) : Prop :=
  ∀ raw p, mParse m raw = Ok p →
  ∃ f, shipped_renderer m = Some f ∧ ∀ o, ∃ n, f p o = Ok n ∧ complete n.

Lemma url_module_renders {P} inj sel (m : Link.LinkModule P) render host port
    `{!Link.Dials m render host port} `{!Usable m render} :
  shipped_renderer (url_module inj m) = Some (render_as sel render) → (∀ x, sel (inj x) = Some x) →
  renders (url_module inj m).
Proof.
  intros Hf Hsel raw p (q & Hq & ->)%map_result_Ok. exists (render_as sel render). split; [done|]. intros o.
  unfold render_as, map_params. cbn [Params]. rewrite Hsel. cbn [Protocol Label Raw].
  destruct (Link.parsed_dials m render host port raw q o Hq) as (u & n & Hu & Hn & Hd & Hh & Hp).
  exists n. assert (q = {| Protocol := Protocol q; Label := Label q; Raw := Raw q; Params := Params q |}) as <-
    by (by destruct q).
  split; [done|]. unfold complete. rewrite Hd. split; [done|]. split; [done|].
  apply Link.Parse_inv in Hq as (u' & _ & Hdec & _). unfold Link.decode_url in Hdec. destruct (negb _); [done|].
  by eapply (decoded_usable _ _ _ _ _ q).
Qed.

Lemma shadowsocks_renders : renders shadowsocks_module.
Proof.
  intros raw p (q & Hq & ->)%map_result_Ok. eexists. split; [reflexivity|]. intros o.
  unfold render_as, Shadowsocks.RenderNode. eexists. split; [reflexivity|]. cbn.
  unfold Shadowsocks.Parse in Hq. cbv zeta in Hq. destruct (Cut _ _) as [[s b]|]; [|done]. destruct (negb _); [done|].
  apply rbind_Ok_inv in Hq as (r & _ & Hq). apply rbind_Ok_inv in Hq as (x & Hx & [= <-]).
  unfold Shadowsocks.check_parts in Hx.
  destruct (String.eqb_spec (Shadowsocks.method r) ""); [done|]. destruct (String.eqb_spec (Shadowsocks.pass r) ""); [done|].
  apply rbind_Ok_inv in Hx as (h & [-> Hh]%Link.need_host_Ok & Hx).
  apply rbind_Ok_inv in Hx as (k & Hk%Link.need_port_range & [= <-]). unfold complete. cbn. split_and!; try done; lia.
Qed.

Lemma vmess_renders : renders vmess_module.
Proof.
  intros raw p (q & Hq & ->)%map_result_Ok. eexists. split; [reflexivity|]. intros o.
  unfold render_as, Vmess.RenderNode. eexists. split; [reflexivity|]. cbn.
  unfold Vmess.Parse in Hq. apply rbind_Ok_inv in Hq as (d & _ & Hq). destruct (Vmess.unmarshal _); [|done].
  apply rbind_Ok_inv in Hq as (x & (Hh & Hu & Hp & He & _)%Vmess.params_of_facts & [= <-]). cbn.
  split_and!; try done; try lia. intros t. unfold Vmess.tlsCfg. destruct (negb _); [done|]. intros [= <-].
  split; [apply tls_on_block|done].
Qed.

Lemma wireguard_renders : renders (WireGuard.wireguard_module PWireGuard).
Proof.
  intros raw p Hp. cbn in Hp. destruct (WireGuard.Parse raw) as [q|] eqn:Hq; [|done]. injection Hp as <-.
  eexists. split; [reflexivity|]. intros o. unfold render_as, WireGuard.RenderNode. eexists. split; [reflexivity|].
  apply WireGuard.Parse_facts in Hq as (_ & _ & Hk & Ha & Hpe & Hm). cbn.
  split_and!; try done; [by destruct (WireGuard.Peers _)|].
  apply Forall_and. split; [|apply WireGuard.render_peers_allowed]. by apply Forall_fmap.
Qed.

Lemma shipped_modules_render : Forall renders shipped_modules.
Proof.
  unfold shipped_modules. repeat (apply Forall_cons; split); [..|apply Forall_nil_2].
  - by apply (url_module_renders PVless (λ p, match p with PVless x => Some x | _ => None end) Vless.vless Vless.RenderNode Vless.Host Vless.Port).
  - apply vmess_renders.
  - by apply (url_module_renders PTrojan (λ p, match p with PTrojan x => Some x | _ => None end) Trojan.trojan Trojan.RenderNode Trojan.Host Trojan.Port).
  - apply shadowsocks_renders.
  - by apply (url_module_renders PHysteria (λ p, match p with PHysteria x => Some x | _ => None end) Hysteria.hysteria Hysteria.RenderNode Hysteria.Host Hysteria.Port).
  - by apply (url_module_renders PHysteria2 (λ p, match p with PHysteria2 x => Some x | _ => None end) Hysteria2.hysteria2 Hysteria2.RenderNode Hysteria2.Host Hysteria2.Port).
  - by apply (url_module_renders PTuic (λ p, match p with PTuic x => Some x | _ => None end) Tuic.tuic Tuic.RenderNode Tuic.Host Tuic.Port).
  - by apply (url_module_renders PAnyTLS (λ p, match p with PAnyTLS x => Some x | _ => None end) AnyTLS.anytls AnyTLS.RenderNode AnyTLS.Host AnyTLS.Port).
  - apply wireguard_renders.
Qed.

(** The registry finds the module of every profile it parsed. *)
Lemma shipped_profile_renders raw p tag phys : Parse shipped raw = Ok p →
  ∃ nk, Singbox.renderNode shipped_renderer shipped p tag phys = Ok nk ∧ complete nk.1 ∧
    node_tag nk.1 = tag ∧ node_bind nk.1 = phys.
Proof.
  intros Hp. destruct (NewRegistry_holds _ _ shipped_new) as [Hh _].
  destruct (Parse_module _ _ _ _ Hh Hp) as (_ & m & Hm & Hmp).
  pose proof shipped_modules_conform as Hc. rewrite Forall_forall in Hc. specialize (Hc m Hm).
  pose proof shipped_modules_render as Hr. rewrite Forall_forall in Hr.
  destruct (Hr m Hm _ _ Hmp) as (f & Hren & Hnode).
  unfold Singbox.renderNode. rewrite (c_protocol _ Hc _ _ Hmp).
  assert (byName shipped !! Name (descriptor m) = Some m) as -> by (by apply (holds_byName _ _ Hh)).
  rewrite Hren.
  destruct (Hnode {| oTag := tag; oBindInterface := phys; oConnectTimeout := Singbox.connectTimout |}) as (n & Hn & Hrun).
  rewrite Hn. eexists. split; [done|]. cbn.
  apply (shipped_renderer_lawful m f Hren) in Hn as (? & ? & _). by split_and!.
Qed.

(** C24: Every key set the program accepts makes a configuration.  When the
    shipped registry parses the input, the proxy generator succeeds, whatever
    the ports, interface and firewall rules; the configuration is well formed;
    and for every profile, in order, it holds an outbound or endpoint under the
    profile's tag and the given interface that has nothing missing: a server
    to dial, which is not empty, a port from 1 to 65535, and credentials that
    are not empty with, where the protocol is TLS-only, TLS on; or a WireGuard
    endpoint with a private key, an address and peers, each with a public key
    and allowed addresses.  The engine may still refuse a value: a cipher, a
    key's encoding, a REALITY block without a fingerprint. *)
Theorem accepted_keys_render (raws : list string) (ps : list (Profile AnyParams)) (opts : Singbox.ProxyOpts) :
  ParseAll shipped raws = Ok ps →
  ∃ c, Singbox.GenerateProxyConfigOpts shipped_renderer shipped ps opts = Ok c ∧ well_formed c ∧
  ∀ j p, ps !! j = Some p → ∃ n, n ∈ Outbounds c ++ Endpoints c ∧ complete n ∧
    node_tag n = (if (1 <? length ps)%nat then Singbox.proxyServerTag j else Singbox.proxyTag) ∧
    node_bind n = Singbox.PhysIface opts.
Proof.
  intros Hp. destruct (NewRegistry_holds _ _ shipped_new) as [Hh _].
  destruct (ParseAll_modules _ _ _ _ Hh Hp) as [Hne Hall]. rewrite Forall_forall in Hall.
  destruct (Singbox.generate_total shipped_renderer shipped ps opts Hne) as (c & Hc & Hin).
  { intros p tag Hin. destruct (Hall p Hin) as [raw Hraw].
    destruct (shipped_profile_renders raw p tag (Singbox.PhysIface opts) Hraw) as (nk & Hnk & _). by exists nk. }
  exists c. split; [done|]. split; [by eapply Singbox.proxy_config_wf; [apply shipped_laws|]|].
  intros j p Hj. destruct (Hin j p Hj) as (nk & Hnk & Hpl). exists nk.1.
  destruct (Hall p (list_elem_of_lookup_2 _ _ _ Hj)) as [raw Hraw].
  destruct (shipped_profile_renders raw p (if (1 <? length ps)%nat then Singbox.proxyServerTag j else Singbox.proxyTag)
    (Singbox.PhysIface opts) Hraw) as (nk' & Hnk' & Hrun & Ht & Hb).
  rewrite Hnk in Hnk'. injection Hnk' as <-. by split_and!.
Qed.

(** ** Renaming through the registry *)

Lemma ToLower_ascii s : str_forallb is_ascii_byte s = true → ToLower s = str_map lower_byte s.
Proof. unfold ToLower. by intros ->. Qed.

Lemma url_module_relabel {P} inj (m : Link.LinkModule P) `{!Link.NeedsHost m} `{!Link.PlainSchemes m} raw p label :
  url_module inj m ∈ shipped_modules → mParse (url_module inj m) (TrimSpace raw) = Ok p →
  Parse shipped raw = Ok p →
  (∀ u, Url.Parse (TrimSpace raw) = Some u → str_has "%" (Url.Host u) = false) → TrimSpace label ≠ "" →
  ∃ raw', SetLabel shipped raw label = Ok raw' ∧
    Parse shipped raw' =
      Ok {| Protocol := Protocol p; Label := TrimSpace label; Raw := raw'; Params := Params p |}.
Proof.
  intros Hin Hmp Hp Hno Hl. destruct (NewRegistry_holds _ _ shipped_new) as [Hh _].
  assert (byName shipped !! Protocol p = Some (url_module inj m)) as Hby.
  { apply (holds_byName _ _ Hh). split; [done|]. pose proof shipped_modules_conform as Hc.
    rewrite Forall_forall in Hc. by rewrite (c_protocol _ (Hc _ Hin) _ _ Hmp). }
  pose proof Hmp as Hmp'. apply map_result_Ok in Hmp' as (q & Hq & ->).
  pose proof Hq as Hq'. apply Link.Parse_inv in Hq' as (u & Hu & Hd & _). rewrite TrimSpace_idemp in Hu.
  apply Link.decode_url_host in Hd as (Hs & _ & Hhost); [|done..].
  destruct (Parse_scheme _ u Hu Hs Hhost) as (sch & rest & Hcut & Hlow & Hasc).
  destruct (Link.relabel_keeps m (TrimSpace raw) q u (TrimSpace label) Hq) as (raw' & Hset & Hparse & Htrim & u' & Hu' & E1 & E2);
    [by rewrite TrimSpace_idemp|by apply Hno|by rewrite TrimSpace_idemp|].
  rewrite TrimSpace_idemp in Hparse. exists raw'. unfold SetLabel. rewrite Hp. cbn [rbind]. rewrite Hby.
  cbn [mSetLabel url_module map_params Protocol]. rewrite Hset. split; [done|].
  destruct (Parse_scheme raw' u' Hu') as (sch' & rest' & Hcut' & Hlow' & Hasc'); [by rewrite E1|by rewrite E2|].
  unfold Parse in Hp |- *. rewrite Htrim. revert Hp. rewrite Hcut, Hcut', !ToLower_ascii, Hlow, Hlow', E1 by done.
  destruct (String.eqb _ _); [done|]. assert (String.eqb raw' "" = false) as -> by (by destruct raw').
  destruct (byScheme shipped !! Url.Scheme u) as [m0|] eqn:Hm0; [|done].
  apply (holds_byScheme _ _ Hh) in Hm0 as [Hm0 _]. unfold module_parse.
  destruct (mParse m0 _) as [p0|] eqn:Hp0; [|done]. intros [= ->].
  assert (m0 = url_module inj m) as ->.
  { pose proof shipped_modules_conform as Hc. rewrite Forall_forall in Hc.
    pose proof (c_protocol _ (Hc _ Hm0) _ _ Hp0) as Hn.
    assert (byName shipped !! Protocol q = Some m0) as Hb by (by apply (holds_byName _ _ Hh)).
    cbn in Hby. rewrite Hby in Hb. by injection Hb. }
  cbn [mParse url_module]. by rewrite Hparse.
Qed.

Definition url_names : list string := ["vless"; "trojan"; "hysteria"; "hysteria2"; "tuic"; "anytls"].

(** C26: Renaming keeps the key.  A link of one of the six URL protocols that the
    shipped registry accepts can be renamed to any label but a blank one; the
    new link is accepted, by the same module, under the trimmed label, and
    parses to exactly the parameters it had: no credential, host, port or
    option is lost or changed by printing the URL again.  The one exception
    is a host with a percent sign, the zone of an IPv6 address. *)
Theorem renamed_links_reload (raw label : string) (p : Profile AnyParams) :
  Parse shipped raw = Ok p → Protocol p ∈ url_names →
  (∀ u, Url.Parse (TrimSpace raw) = Some u → str_has "%" (Url.Host u) = false) → TrimSpace label ≠ "" →
  ∃ raw', SetLabel shipped raw label = Ok raw' ∧
    Parse shipped raw' =
      Ok {| Protocol := Protocol p; Label := TrimSpace label; Raw := raw'; Params := Params p |}.
Proof.
  intros Hp Hn Hno Hl. destruct (NewRegistry_holds _ _ shipped_new) as [Hh _].
  destruct (Parse_module _ _ _ _ Hh Hp) as (_ & m & Hm & Hmp).
  pose proof shipped_modules_conform as Hc. rewrite Forall_forall in Hc.
  rewrite (c_protocol _ (Hc _ Hm) _ _ Hmp) in Hn. pose proof Hm as Hm'.
  unfold shipped_modules in Hm'. rewrite !elem_of_cons, elem_of_nil in Hm'.
  assert ("vmess" ∉ url_names ∧ "shadowsocks" ∉ url_names ∧ "wireguard" ∉ url_names) as (H1 & H2 & H3)
    by (unfold url_names; split_and!; rewrite !not_elem_of_cons; split_and!; try done; apply not_elem_of_nil).
  destruct Hm' as [->|[->|[->|[->|[->|[->|[->|[->|[->|[]]]]]]]]]].
  - by apply (url_module_relabel PVless Vless.vless).
  - by destruct H1.
  - by apply (url_module_relabel PTrojan Trojan.trojan).
  - by destruct H2.
  - by apply (url_module_relabel PHysteria Hysteria.hysteria).
  - by apply (url_module_relabel PHysteria2 Hysteria2.hysteria2).
  - by apply (url_module_relabel PTuic Tuic.tuic).
  - by apply (url_module_relabel PAnyTLS AnyTLS.anytls).
  - by destruct H3.
Qed.

End modules.

(** ** On keys *)

#[local] Existing Instance ascii_only.
#[local] Existing Instance quote_as_is.

Definition sk_raws : list string :=
  [Join nl ["trojan://pa%20ss@trojan.example:443?type=ws&path=%2Fws&host=cdn.example#Home"; Vless.vx_link;
            "hy://h.example:36712?auth=x&up=100%20mbps&down=50#Hy"; "ss://YWVzLTI1Ni1nY206cHc@203.0.113.7:8388"];
   WireGuard.ww_config].

Definition sk_profiles : list (Profile AnyParams) :=
  match ParseAll shipped sk_raws with Ok ps => ps | Err _ => [] end.

Example sk_protocols : Protocol <$> sk_profiles = ["trojan"; "vless"; "hysteria"; "shadowsocks"; "wireguard"].
Proof. vm_compute. reflexivity. Qed.

(** A REALITY link without [fp] is accepted and rendered with REALITY on and no
    uTLS block, which the engine's REALITY client requires
    (third_party/sing-box/common/tls/reality_client.go). *)
Definition nofp_link : string :=
  "vless://b831381d-6324-4d53-ad4f-8cda48b30811@h.example:443?security=reality&pbk=KEY".

Definition nofp_tls : option (option bool * option UTLS) :=
  match Parse shipped nofp_link with
  | Ok p => match Singbox.renderNode shipped_renderer shipped p "proxy" "en0" with
            | Ok (VLESSOutbound _ _ _ (Some t) _, _) => Some (realityEnabled <$> tlsReality t, tlsUTLS t)
            | _ => None
            end
  | Err _ => None
  end.

Lemma reality_without_fingerprint : nofp_tls = Some (Some true, None).
Proof. vm_compute. reflexivity. Qed.

Lemma accepted_keys_render_witness :
  length sk_profiles = 5%nat ∧
  ∃ c, Singbox.GenerateProxyConfigOpts shipped_renderer shipped sk_profiles Singbox.sw_opts = Ok c ∧ well_formed c.
Proof.
  split; [vm_compute; reflexivity|].
  destruct (accepted_keys_render sk_raws sk_profiles Singbox.sw_opts) as (c & Hc & Hw & _).
  - unfold sk_profiles. assert (is_ok (ParseAll shipped sk_raws) = true) as Hok by (vm_compute; reflexivity).
    by destruct (ParseAll shipped sk_raws).
  - exists c. exact (conj Hc Hw).
Defined.

Definition sk_link : string := " Trojan://pa%20ss:x@trojan.example:443?type=ws&path=%2Fws#Old ".

Lemma renamed_links_reload_witness :
  ∃ p raw', Parse shipped sk_link = Ok p ∧ SetLabel shipped sk_link " New name " = Ok raw' ∧
    (λ p, (Label p, Params p)) <$> (match Parse shipped raw' with Ok q => Some q | Err _ => None end) =
      Some ("New name", Params p).
Proof.
  destruct (Parse shipped sk_link) as [p|] eqn:Hp; [|exfalso; revert Hp; vm_compute; discriminate].
  destruct (renamed_links_reload sk_link " New name " p Hp) as (raw' & Hs & Hr).
  - assert (Protocol p = "trojan") as ->; [|unfold url_names; right; left].
    revert Hp. vm_compute. by intros [= <-].
  - intros u. vm_compute. by intros [= <-].
  - vm_compute. discriminate.
  - exists p, raw'. split; [done|]. split; [exact Hs|]. rewrite Hr. vm_compute. reflexivity.
Defined.

End Shipped.
