(* ===== verification/Xhttp.v ===== *)
(** * Xhttp: the settings, padding and requests of the XHTTP transport
    ([internal/xhttp/settings.go], [padding.go], and the requests of [client.go])

    The settings a share link's extra document gives, with the defaults the
    server expects, the padding every request must carry, and the request with
    its session and sequence number.  A source of randomness is an argument:
    [draw max] is what [rand.Int] answers, [None] an error. *)

From S2P Require Import Prelude GoStr GoUtf8 GoUrl GoUrlFacts GoHttp GoJson GoBase64 Registry Link.

Local Open Scope string_scope.
Local Open Scope list_scope.
Local Open Scope Z_scope.

Module Xhttp.
Import Http.

Definition PlacementQueryInHeader : string := "queryInHeader".
Definition PlacementCookie : string := "cookie".
Definition PlacementHeader : string := "header".
Definition PlacementQuery : string := "query".
Definition PlacementPath : string := "path".
Definition PlacementBody : string := "body".

Definition ModePacketUp : string := "packet-up".
Definition ModeStreamUp : string := "stream-up".
Definition ModeStreamOne : string := "stream-one".

Definition PaddingRepeatX : string := "repeat-x".
Definition PaddingTokenish : string := "tokenish".

(** ** Ranges *)

Record Range := { From : Z; To : Z }.

Definition int32_min : Z := -2147483648.
Definition int32_max : Z := 2147483647.
Definition wrap32 (z : Z) : Z := (z + 2147483648) mod 4294967296 - 2147483648.

(** [strconv.ParseInt(s, 10, 32)] *)
Definition ParseInt32 (s : string) : option Z :=
  n ← Atoi s; if (int32_min <=? n) && (n <=? int32_max) then Some n else None.

(** [Range.UnmarshalJSON]: a number, null, or a string; [None] is an error. *)
Definition UnmarshalJSON (v : Json.json) : option Range :=
  match v with
  | Json.JNum raw => n ← ParseInt32 raw; Some {| From := n; To := n |}
  | Json.JNull => Some {| From := 0; To := 0 |}
  | Json.JStr raw =>
      let s := TrimSpace (Json.unquote raw) in
      match Cut s "-" with
      | None => n ← ParseInt32 s; Some {| From := n; To := n |}
      | Some (from, to) =>
          fromN ← ParseInt32 (TrimSpace from);
          toN ← ParseInt32 (TrimSpace to);
          Some {| From := fromN; To := toN |}
      end
  | _ => None
  end.

Definition empty (r : Range) : bool := To r =? 0.
Definition or (r : Range) (from to : Z) : Range := if empty r then {| From := from; To := to |} else r.

(** ** Settings *)

(** The members by kind, under their names in lower case; a zero one is absent. *)
Record Settings := {
  strs : gmap string string;
  flags : gmap string bool;
  ranges : gmap string Range;
  Headers : gmap string string
}.

Definition no_settings : Settings := {| strs := ∅; flags := ∅; ranges := ∅; Headers := ∅ |}.

Definition str (s : Settings) (f : string) : string := default "" (strs s !! f).
Definition flag (s : Settings) (f : string) : bool := default false (flags s !! f).
Definition range (s : Settings) (f : string) : Range := default {| From := 0; To := 0 |} (ranges s !! f).

Definition string_fields : list string :=
  ["host"; "path"; "mode"; "xpaddingkey"; "xpaddingheader"; "xpaddingplacement"; "xpaddingmethod";
   "uplinkhttpmethod"; "sessionplacement"; "sessionkey"; "seqplacement"; "seqkey"; "uplinkdataplacement";
   "uplinkdatakey"].
Definition flag_fields : list string := ["xpaddingobfsmode"; "nogrpcheader"].
Definition range_fields : list string :=
  ["xpaddingbytes"; "uplinkchunksize"; "scmaxeachpostbytes"; "scminpostsintervalms"].

Definition field_of (fs : list string) (key : string) : option string :=
  snd <$> list_find (λ f, Link.EqualFold key f = true) fs.

Definition set_str (f v : string) (s : Settings) : Settings :=
  {| strs := <[f := v]> (strs s); flags := flags s; ranges := ranges s; Headers := Headers s |}.
Definition set_flag (f : string) (b : bool) (s : Settings) : Settings :=
  {| strs := strs s; flags := <[f := b]> (flags s); ranges := ranges s; Headers := Headers s |}.
Definition set_range (f : string) (r : Range) (s : Settings) : Settings :=
  {| strs := strs s; flags := flags s; ranges := <[f := r]> (ranges s); Headers := Headers s |}.
Definition set_headers (h : gmap string string) (s : Settings) : Settings :=
  {| strs := strs s; flags := flags s; ranges := ranges s; Headers := h |}.

(** The members of a headers object, added to what there is. *)
Fixpoint add_headers (h : gmap string string) (ms : list (string * Json.json)) : option (gmap string string) :=
  match ms with
  | [] => Some h
  | (k, v) :: ms =>
      match v with
      | Json.JStr raw => add_headers (<[Json.unquote k := Json.unquote raw]> h) ms
      | Json.JNull => add_headers (<[Json.unquote k := ""]> h) ms
      | _ => None
      end
  end.

(** One member of the document; [None] is an error.  A string or flag keeps
    its value when the member is null. *)
Definition set_member (s : Settings) (m : string * Json.json) : option Settings :=
  let key := Json.unquote (fst m) in
  match field_of string_fields key with
  | Some f => match snd m with
              | Json.JStr raw => Some (set_str f (Json.unquote raw) s)
              | Json.JNull => Some s
              | _ => None
              end
  | None =>
  match field_of flag_fields key with
  | Some f => match snd m with
              | Json.JBool b => Some (set_flag f b s)
              | Json.JNull => Some s
              | _ => None
              end
  | None =>
  match field_of range_fields key with
  | Some f => r ← UnmarshalJSON (snd m); Some (set_range f r s)
  | None =>
      if Link.EqualFold key "headers" then
        match snd m with
        | Json.JObj ms => h ← add_headers (Headers s) ms; Some (set_headers h s)
        | Json.JNull => Some (set_headers ∅ s)
        | _ => None
        end
      else Some s
  end end end.

Fixpoint set_members (s : Settings) (ms : list (string * Json.json)) : option Settings :=
  match ms with
  | [] => Some s
  | m :: ms => s ← set_member s m; set_members s ms
  end.

(** The first value of a text, which is what a decoder reads; what follows it
    is not looked at. *)
Fixpoint first_value (read rest : string) : option Json.json :=
  match Json.Decode (srev read) with
  | Some v => Some v
  | None => match rest with
            | "" => None
            | String c rest => first_value (String c read) rest
            end
  end.

Definition ParseSettings (extra : string) : option Settings :=
  let extra := TrimSpace extra in
  if String.eqb extra "" then Some no_settings
  else v ← first_value "" extra;
       match v with
       | Json.JObj ms => set_members no_settings ms
       | Json.JNull => Some no_settings
       | _ => None
       end.

Definition Host (s : Settings) : string := str s "host".
Definition Path (s : Settings) : string := str s "path".
Definition Mode (s : Settings) : string := str s "mode".
Definition UplinkDataPlacement (s : Settings) : string := str s "uplinkdataplacement".
Definition UplinkDataKey (s : Settings) : string := str s "uplinkdatakey".
Definition UplinkChunkSize (s : Settings) : Range := range s "uplinkchunksize".
Definition XPaddingObfsMode (s : Settings) : bool := flag s "xpaddingobfsmode".
Definition NoGRPCHeader (s : Settings) : bool := flag s "nogrpcheader".

Definition paddingBytes (s : Settings) : Range := or (range s "xpaddingbytes") 100 1000.
Definition maxEachPostBytes (s : Settings) : Range := or (range s "scmaxeachpostbytes") 1000000 1000000.
Definition minPostsIntervalMs (s : Settings) : Range := or (range s "scminpostsintervalms") 30 30.

Definition uplinkMethod (s : Settings) : string := Link.or_default (str s "uplinkhttpmethod") "POST".
Definition sessionPlacement (s : Settings) : string := Link.or_default (str s "sessionplacement") PlacementPath.
Definition seqPlacement (s : Settings) : string := Link.or_default (str s "seqplacement") PlacementPath.
Definition uplinkDataPlacement (s : Settings) : string := Link.or_default (UplinkDataPlacement s) PlacementBody.

Definition sessionKey (s : Settings) : string :=
  if negb (String.eqb (str s "sessionkey") "") then str s "sessionkey"
  else if String.eqb (sessionPlacement s) PlacementHeader then "X-Session"
  else if bool_decide (sessionPlacement s ∈ [PlacementCookie; PlacementQuery]) then "x_session"
  else "".

Definition seqKey (s : Settings) : string :=
  if negb (String.eqb (str s "seqkey") "") then str s "seqkey"
  else if String.eqb (seqPlacement s) PlacementHeader then "X-Seq"
  else if bool_decide (seqPlacement s ∈ [PlacementCookie; PlacementQuery]) then "x_seq"
  else "".

Definition uplinkChunkSize (s : Settings) : Range :=
  if empty (UplinkChunkSize s) then
    if String.eqb (UplinkDataPlacement s) PlacementCookie then {| From := 2 * 1024; To := 3 * 1024 |}
    else if String.eqb (UplinkDataPlacement s) PlacementHeader then {| From := 3 * 1000; To := 4 * 1000 |}
    else maxEachPostBytes s
  else if From (UplinkChunkSize s) <? 64 then {| From := 64; To := Z.max 64 (To (UplinkChunkSize s)) |}
  else UplinkChunkSize s.

(** The placement, key, header and method of the padding. *)
Definition paddingParams (s : Settings) : string * string * string * string :=
  if negb (XPaddingObfsMode s) then (PlacementQueryInHeader, "x_padding", "Referer", "")
  else (Link.or_default (str s "xpaddingplacement") PlacementQueryInHeader,
        Link.or_default (str s "xpaddingkey") "x_padding",
        Link.or_default (str s "xpaddingheader") "X-Padding",
        Link.or_default (str s "xpaddingmethod") PaddingRepeatX).

(** ** Padding *)

(** [rand.Int] draws from [0, max), or fails. *)
Definition fair (draw : Z → option Z) : Prop := ∀ max n, draw max = Some n → 0 <= n < max.

(** In int32; [None] is the panic of [rand.Int] on an empty interval. *)
Definition randBetween (draw : Z → option Z) (from to : Z) : option Z :=
  if to <=? from then Some from
  else
    let max := wrap32 (to - from) + 1 in
    if max <=? 0 then None
    else match draw max with
         | None => Some from
         | Some n => Some (wrap32 (from + wrap32 n))
         end.

Definition rand (draw : Z → option Z) (r : Range) : option Z := randBetween draw (From r) (To r).

Definition charsetBase62 : string := "0123456789ABCDEFGHIJKLMNOPQRSTUVWXYZabcdefghijklmnopqrstuvwxyz".

Fixpoint Repeat (c : ascii) (n : nat) : string :=
  match n with O => "" | S n => String c (Repeat c n) end.

(** [read n] is [n] random bytes, or an error. *)
Definition randBase62 (read : nat → option string) (n : Z) : string :=
  if n <=? 0 then ""
  else match read (Z.to_nat n) with
       | None => Repeat "X" (Z.to_nat n)
       | Some b => str_map (λ v, default "X"%char (String.get (N.to_nat (byte_val v mod 62)) charsetBase62)) b
       end.

Section padding.
Context (HuffmanEncodeLength : string → Z) (read : nat → option string).

Definition tokenishTolerance : Z := 2.

(** The adjusting loop, at most [k] turns of it. *)
Fixpoint adjust_padding (k : nat) (target : Z) (adjust : ascii) (s : string) : string :=
  match k with
  | O => s
  | S k =>
      let diff := HuffmanEncodeLength s - target in
      if (diff <=? tokenishTolerance) && (- tokenishTolerance <=? diff) then s
      else if diff <? 0 then
        adjust_padding k target (if Ascii.eqb adjust "X" then "Z" else "X")%char (s +:+ String adjust "")
      else if (String.length s <=? 1)%nat then s
      else adjust_padding k target adjust (String.substring 0 (String.length s - 1) s)
  end.

(** [math.Ceil(float64(target) / 0.8)]: five quarters of the target, exactly,
    since the quotient of doubles rounds to it. *)
Definition tokenishPadding (target : Z) : string :=
  let n := Z.max 1 ((5 * target + 3) / 4) in
  adjust_padding 150 target "X" (randBase62 read n).

Definition generatePadding (method : string) (length : Z) : string :=
  if length <=? 0 then ""
  else if String.eqb method PaddingTokenish then
    let s := tokenishPadding length in
    if negb (String.eqb s "") then s else Repeat "X" (Z.to_nat length)
  else Repeat "X" (Z.to_nat length).

Definition applyToQuery (key value : string) (u : Url.URL) : Url.URL :=
  if String.eqb key "" || String.eqb value "" then u
  else set_query (Encode (Values_Set (Url.Query u) key value)) u.

(** [None] is a panic of the random source. *)
Definition applyPadding (draw : Z → option Z) (s : Settings) (req : Request) : option Request :=
  let '(placement, key, header, method) := paddingParams s in
  length ← rand draw (paddingBytes s);
  let value := generatePadding method length in
  Some (if String.eqb value "" then req
        else if String.eqb placement PlacementHeader then with_header (λ h, Header_Set h header value) req
        else if String.eqb placement PlacementQueryInHeader then
          with_header (λ h, Header_Set h header (Url.URL_String (set_query (key +:+ "=" +:+ value) (rURL req)))) req
        else if String.eqb placement PlacementCookie then with_header (λ h, AddCookie h key value) req
        else if String.eqb placement PlacementQuery then with_url (applyToQuery key value) req
        else req).

(** ** The session id and the sequence number *)

Definition appendPathSegment (path value : string) : string :=
  if HasSuffix path "/" then path +:+ value else path +:+ "/" +:+ value.

(** One value, where its placement says. *)
Definition place (placement key value : string) (req : Request) : Request :=
  if String.eqb value "" then req
  else if String.eqb placement PlacementPath then
    with_url (λ u, set_path (appendPathSegment (Url.Path u) value) u) req
  else if String.eqb placement PlacementQuery then with_url (applyToQuery key value) req
  else if String.eqb placement PlacementHeader then with_header (λ h, Header_Set h key value) req
  else if String.eqb placement PlacementCookie then with_header (λ h, AddCookie h key value) req
  else req.

Definition applyMeta (s : Settings) (sessionID seq : string) (req : Request) : Request :=
  place (seqPlacement s) (seqKey s) seq (place (sessionPlacement s) (sessionKey s) sessionID req).

(** ** The payload of a packet *)

(** [draws i] is the source at the [i]th chunk; the fuel is the number of
    bytes left, of which each turn takes one at least. *)
Fixpoint chunks (fuel i : nat) (draws : nat → Z → option Z) (size : Range) (encoded : string) : option (list string) :=
  match encoded with
  | "" => Some []
  | _ =>
      match fuel with
      | O => None
      | S fuel =>
          r ← rand (draws i) size;
          let n := Z.min r (slen encoded) in
          let n := if n <=? 0 then slen encoded else n in
          let k := Z.to_nat n in
          rest ← chunks fuel (S i) draws size (String.substring k (String.length encoded - k) encoded);
          Some (String.substring 0 k encoded :: rest)
      end
  end.

Definition chunkEncoded (draws : nat → Z → option Z) (payload : string) (size : Range) : option (list string) :=
  let encoded := Base64.EncodeToString Base64.RawURLEncoding payload in
  chunks (String.length encoded) 0 draws size encoded.

Fixpoint set_chunks (i : nat) (f : nat → string → Header → Header) (cs : list string) (h : Header) : Header :=
  match cs with
  | [] => h
  | c :: cs => set_chunks (S i) f cs (f i c h)
  end.

Definition attachPacketPayload (draws : nat → Z → option Z) (s : Settings) (payload : string) (req : Request)
    : option Request :=
  if String.eqb (uplinkDataPlacement s) PlacementHeader then
    cs ← chunkEncoded draws payload (uplinkChunkSize s);
    Some (with_header (set_chunks 0 (λ i c h, Header_Set h (UplinkDataKey s +:+ "-" +:+ Itoa (Z.of_nat i)) c) cs) req)
  else if String.eqb (uplinkDataPlacement s) PlacementCookie then
    cs ← chunkEncoded draws payload (uplinkChunkSize s);
    Some (with_header (set_chunks 0 (λ i c h, AddCookie h (UplinkDataKey s +:+ "_" +:+ Itoa (Z.of_nat i)) c) cs) req)
  else Some (with_body (Bytes payload) req).

(** ** The dialer and its requests *)

Record Config := {
  hasDial : bool;
  Scheme : string;
  Authority : string;
  HTTPVersion : string;
  Reality : bool;
  UserAgent : string;
  cSettings : Settings
}.

Definition HTTPVersion11 : string := "1.1".
Definition HTTPVersion2 : string := "2".
Definition HTTPVersion3 : string := "3".

Definition resolveMode (mode : string) (reality : bool) : string :=
  if bool_decide (mode ∈ [ModePacketUp; ModeStreamUp; ModeStreamOne]) then mode
  else if reality then ModeStreamOne else ModePacketUp.

Definition splitPathQuery (raw : string) : string * string :=
  let '(path, query) := match Cut raw "?" with Some pq => pq | None => (raw, "") end in
  let path := if HasPrefix path "/" then path else "/" +:+ path in
  let path := if HasSuffix path "/" then path else path +:+ "/" in
  (path, query).

(** The clients are not modelled; [upload] says whether there is a second. *)
Record Dialer := { cfg : Config; settings : Settings; dMode : string; baseURL : Url.URL; upload : bool }.

Definition New `{GoQuote} (c : Config) : result string Dialer :=
  if negb (hasDial c) then Err "xhttp: Dial is required"
  else if String.eqb (HTTPVersion c) HTTPVersion3
  then Err "xhttp: HTTP/3 (alpn=h3) is not supported; drop h3 from the key's alpn"
  else if negb (bool_decide (HTTPVersion c ∈ [HTTPVersion11; HTTPVersion2]))
  then Err ("xhttp: unsupported http version " +:+ Quote (HTTPVersion c))
  else if String.eqb (Authority c) "" then Err "xhttp: Authority is required"
  else if negb (String.eqb (Scheme c) "http") && negb (String.eqb (Scheme c) "https")
  then Err ("xhttp: unsupported scheme " +:+ Quote (Scheme c))
  else
    let s := cSettings c in
    let '(path, query) := splitPathQuery (Path s) in
    Ok {| cfg := c; settings := s; dMode := resolveMode (Mode s) (Reality c);
          baseURL := base_url (Scheme c) (Authority c) path query;
          upload := String.eqb (HTTPVersion c) HTTPVersion11 |}.

Definition defaultUserAgent : string :=
  "Mozilla/5.0 (Macintosh; Intel Mac OS X 10_15_7) AppleWebKit/537.36 " +:+
  "(KHTML, like Gecko) Chrome/131.0.0.0 Safari/537.36".

(** [hs] is the order in which the loop meets the settings' headers. *)
Definition header (d : Dialer) (hs : list (string * string)) : Header :=
  let h := foldl (λ h kv, Header_Set h kv.1 kv.2) ∅ hs in
  if String.eqb (Header_Get h "User-Agent") ""
  then Header_Set h "User-Agent" (Link.or_default (UserAgent (cfg d)) defaultUserAgent)
  else h.

(** What a request can fail with: [http.NewRequest], or a panic. *)
Inductive failure := BadRequest | Panic.

Definition newRequest (draw : Z → option Z) (hs : list (string * string)) (d : Dialer)
    (method : string) (body : Body) (sessionID seq : string) : result failure Request :=
  match NewRequest method (Url.URL_String (baseURL d)) body with
  | None => Err BadRequest
  | Some req =>
      let req := {| Method := Method req; rHost := Authority (cfg d); rURL := rURL req;
                    rHeader := header d hs; rBody := rBody req |} in
      match applyPadding draw (settings d) req with
      | None => Err Panic
      | Some req => Ok (applyMeta (settings d) sessionID seq req)
      end
  end.

(** The request of [openStream]. *)
Definition stream_request (draw : Z → option Z) (hs : list (string * string)) (d : Dialer)
    (sessionID : string) (uplink : bool) : result failure Request :=
  let? req := newRequest draw hs d (if uplink then uplinkMethod (settings d) else "GET")
                (if uplink then Streaming else NoBody) sessionID "" in
  Ok (if uplink && negb (NoGRPCHeader (settings d))
      then with_header (λ h, Header_Set h "Content-Type" "application/grpc") req else req).

(** The request of [postPacket]. *)
Definition packet_request (draw : Z → option Z) (draws : nat → Z → option Z) (hs : list (string * string))
    (d : Dialer) (sessionID : string) (seq : Z) (payload : string) : result failure Request :=
  let? req := newRequest draw hs d (uplinkMethod (settings d)) NoBody sessionID (Itoa seq) in
  match attachPacketPayload draws (settings d) payload req with
  | None => Err Panic
  | Some req => Ok req
  end.

End padding.

End Xhttp.
