(* ===== verification/XhttpProps.v ===== *)
(** * XhttpProps: what the server gets to see of an XHTTP stream

    The draws of every range a document can give stay inside it and cannot
    panic; the padding has the length drawn, in Huffman code for the tokenish
    method; a request carries the session, the sequence number and the payload
    where the server looks for them. *)

From S2P Require Import Prelude GoStr GoUtf8 GoNet GoUrl GoUrlFacts GoHttp GoQuery GoPath GoJson GoBase64 Registry Link Xhttp.

Local Open Scope string_scope.
Local Open Scope list_scope.
Local Open Scope Z_scope.

Module XhttpProps.
Import Http Xhttp.

(** ** Ranges *)

(** An interval whose length is an int32, the only one [rand] can take. *)
Definition sane (r : Range) : Prop := From r < To r → 0 <= From r ∧ To r <= int32_max.

(** [n] may be drawn from [r]; an inverted range is its first end. *)
Definition within (r : Range) (n : Z) : Prop := From r <= n <= Z.max (From r) (To r).

Lemma wrap32_id z : int32_min <= z <= int32_max → wrap32 z = z.
Proof. unfold int32_min, int32_max, wrap32. intros ?. rewrite Z.mod_small; lia. Qed.

Lemma rand_within draw r : fair draw → sane r → ∃ n, rand draw r = Some n ∧ within r n.
Proof.
  unfold sane, within, rand, randBetween. intros Hf Hs. destruct (To r <=? From r) eqn:Hc; propify.
  { eexists. split; [done|lia]. }
  destruct (Hs Hc) as [H0 H1]. unfold int32_max in H1.
  rewrite (wrap32_id (To r - From r)) by (unfold int32_min, int32_max; lia).
  destruct (_ <=? 0) eqn:Hp; propify; [lia|].
  destruct (draw _) as [n|] eqn:Hd; [|eexists; split; [done|lia]]. apply Hf in Hd.
  rewrite !wrap32_id by (unfold int32_min, int32_max; try rewrite wrap32_id; unfold int32_min, int32_max; lia).
  eexists. split; [done|lia].
Qed.

Lemma ParseInt32_nonneg s n : str_has "-" s = false → ParseInt32 s = Some n → 0 <= n <= int32_max.
Proof.
  unfold ParseInt32. intros Hs. destruct (Atoi s) as [m|] eqn:Ha; cbn [mbind option_bind]; [|done].
  destruct (_ && _) eqn:Hr; [|done]. intros [= <-]. propify. split; [|lia].
  destruct s as [|c s]; [done|]. rewrite str_has_cons in Hs. apply orb_false_iff in Hs as [Hc _].
  rewrite Ascii.eqb_sym in Hc. cbn [Atoi] in Ha. rewrite Hc in Ha.
  assert (∀ o : option N, (n ← o; in_int64 (Z.of_N n)) = Some m → 0 <= m) as Hnn.
  { intros [k|]; cbn; [|done]. unfold in_int64. destruct (_ && _); [|done]. intros [= <-]. lia. }
  by destruct (Ascii.eqb c "+"); apply Hnn in Ha.
Qed.

Lemma UnmarshalJSON_sane v r : UnmarshalJSON v = Some r → sane r.
Proof.
  unfold sane. destruct v as [| |raw|raw| |]; cbn; try done; [intros [= <-]; done| |].
  - destruct (ParseInt32 raw); cbn; [|done]. intros [= <-]. cbn. lia.
  - destruct (Cut _ "-") as [[from to]|] eqn:Hc.
    + destruct (ParseInt32 (TrimSpace from)) as [a|] eqn:Ha; cbn; [|done].
      destruct (ParseInt32 (TrimSpace to)) as [b|] eqn:Hb; cbn; [|done]. intros [= <-]. cbn. intros _.
      apply Cut_byte_first in Hc. apply ParseInt32_nonneg in Ha; [|by apply TrimSpace_has]. split; [lia|].
      unfold ParseInt32 in Hb. destruct (Atoi _); cbn in Hb; [|done]. destruct (_ && _) eqn:Hr in Hb; [|done].
      injection Hb as <-. propify. lia.
    + destruct (ParseInt32 _); cbn; [|done]. intros [= <-]. cbn. lia.
Qed.

(** ** Settings *)

Definition sane_settings (s : Settings) : Prop := ∀ f r, ranges s !! f = Some r → sane r.

Lemma set_member_sane s m s' : sane_settings s → set_member s m = Some s' → sane_settings s'.
Proof.
  unfold set_member. intros Hs. destruct (field_of string_fields _); [by destruct (snd m); intros; simplify_eq/=|].
  destruct (field_of flag_fields _); [by destruct (snd m); intros; simplify_eq/=|].
  destruct (field_of range_fields _) as [f|].
  - destruct (UnmarshalJSON (snd m)) as [r|] eqn:Hr; cbn; [|done]. intros [= <-] g r'. cbn.
    rewrite lookup_insert_Some. intros [[_ <-]|[_ Hl]]; [by eapply UnmarshalJSON_sane|by apply (Hs g)].
  - destruct (Link.EqualFold _ _); [|by intros [= <-]]. destruct (snd m) as [| | | | |ms]; try done; [by intros [= <-]|].
    destruct (add_headers _ _); cbn; [|done]. by intros [= <-].
Qed.

Lemma ParseSettings_sane extra s : ParseSettings extra = Some s → sane_settings s.
Proof.
  assert (Hno : sane_settings no_settings) by done.
  assert (Hms : ∀ ms s s', sane_settings s → set_members s ms = Some s' → sane_settings s').
  { induction ms as [|m ms IH]; intros s0 s' Hs; cbn; [by intros [= <-]|].
    destruct (set_member s0 m) as [s1|] eqn:Hm; cbn; [|done]. apply IH. by eapply set_member_sane. }
  unfold ParseSettings. destruct (String.eqb _ ""); [by intros [= <-]|].
  destruct (first_value _ _) as [v|]; cbn; [|done]. destruct v; try done; [by intros [= <-]|]. by apply Hms.
Qed.

Lemma range_sane s f : sane_settings s → sane (range s f).
Proof. unfold range. intros Hs. destruct (ranges s !! f) as [r|] eqn:Hr; cbn; [by eapply Hs|done]. Qed.

Lemma or_sane r a b : sane r → 0 <= a → b <= int32_max → sane (or r a b).
Proof. unfold or. destruct (empty r); [|done]. by intros _ ? ? _. Qed.

Definition drawn_ranges (s : Settings) : list Range :=
  [paddingBytes s; maxEachPostBytes s; minPostsIntervalMs s; uplinkChunkSize s].

Lemma drawn_ranges_sane s : sane_settings s → Forall sane (drawn_ranges s).
Proof.
  intros Hs. assert (Hm : sane (maxEachPostBytes s)) by (by apply or_sane; [apply range_sane|lia|]).
  unfold drawn_ranges. rewrite !Forall_cons, Forall_nil.
  split; [by apply or_sane; [apply range_sane|lia|]|]. split; [done|].
  split; [by apply or_sane; [apply range_sane|lia|]|]. split; [|done]. unfold uplinkChunkSize.
  pose proof (range_sane s "uplinkchunksize" Hs) as Hu. fold (UplinkChunkSize s) in Hu.
  destruct (empty _); [by repeat case_match|]. destruct (From _ <? 64) eqn:Hc; [|done].
  unfold sane, int32_max in *. propify. cbn. intros ?. split; [done|].
  destruct (Z.le_gt_cases (To (UplinkChunkSize s)) (From (UplinkChunkSize s))); lia.
Qed.

Lemma chunk_size_floor s : uplinkDataPlacement s ∈ [PlacementHeader; PlacementCookie] →
  64 <= From (uplinkChunkSize s).
Proof.
  unfold uplinkDataPlacement, uplinkChunkSize, Link.or_default. intros Hp.
  destruct (empty _); [|destruct (From _ <? 64) eqn:Hc; propify; cbn; lia].
  destruct (String.eqb_spec (UplinkDataPlacement s) "") as [E|]; [by rewrite !elem_of_cons, elem_of_nil in Hp; destruct Hp as [|[|]]|].
  rewrite !elem_of_cons, elem_of_nil in Hp. destruct Hp as [->|[->|[]]]; cbn; lia.
Qed.

(** ** Padding *)

Lemma length_Repeat c n : String.length (Repeat c n) = n.
Proof. induction n as [|n IH]; [done|]. cbn. by rewrite IH. Qed.

Lemma Repeat_forallb f c n : f c = true → str_forallb f (Repeat c n) = true.
Proof. intros Hc. induction n as [|n IH]; [done|]. cbn. by rewrite Hc. Qed.

Lemma generatePadding_repeat HL read method n : method ≠ PaddingTokenish →
  generatePadding HL read method n = Repeat "X" (Z.to_nat n).
Proof.
  intros Hm. unfold generatePadding. rewrite (proj2 (String.eqb_neq _ _) Hm).
  destruct (n <=? 0) eqn:Hn; [|done]. propify. by replace (Z.to_nat n) with 0%nat by lia.
Qed.

(** C23: Nothing a share link's extra document says can make a draw panic or
    leave the range the server was given.  For settings that parse and any
    fair source, failing or not, every range the transport draws from yields a
    value within its ends (an inverted one its first end); the padding is that
    many bytes, from 100 to 1000 when the document is silent; and a chunk of a
    payload hidden in headers or cookies is never smaller than 64 bytes by
    setting.  In particular the interval a string gives never overflows int32,
    since its first end cannot be negative. *)
Theorem draws_stay_in_range (extra : string) (s : Settings) (draw : Z → option Z) HL read :
  ParseSettings extra = Some s → fair draw →
  Forall (λ r, ∃ n, rand draw r = Some n ∧ within r n) (drawn_ranges s) ∧
  (∀ n method, rand draw (paddingBytes s) = Some n → method ≠ PaddingTokenish →
     generatePadding HL read method n = Repeat "X" (Z.to_nat n) ∧
     (empty (range s "xpaddingbytes") = true → 100 <= slen (generatePadding HL read method n) <= 1000)) ∧
  (uplinkDataPlacement s ∈ [PlacementHeader; PlacementCookie] →
     ∃ n, rand draw (uplinkChunkSize s) = Some n ∧ 64 <= n).
Proof.
  intros Hp Hf. pose proof (drawn_ranges_sane s (ParseSettings_sane _ _ Hp)) as Hs. split_and!.
  - eapply Forall_impl; [exact Hs|]. intros r. by apply rand_within.
  - intros n method Hn Hm. rewrite generatePadding_repeat by done. split; [done|]. intros He.
    unfold slen. rewrite length_Repeat. inversion Hs as [|? ? Hr]; subst.
    destruct (rand_within draw _ Hf Hr) as (n' & Hn' & Hw). rewrite Hn in Hn'. injection Hn' as <-.
    unfold within, paddingBytes, or in Hw. rewrite He in Hw. cbn in Hw. lia.
  - intros Hpl%chunk_size_floor. unfold drawn_ranges in Hs. rewrite !Forall_cons in Hs.
    destruct Hs as (_ & _ & _ & Hr & _). destruct (rand_within draw _ Hf Hr) as (n & Hn & Hw).
    exists n. split; [done|]. unfold within in Hw. lia.
Qed.

Definition px_extra : string := Json.dq
  "{'xPaddingBytes':'-5-10','XPADDINGBYTES':' 20 - 40 ','scMaxEachPostBytes':4096,'uplinkDataPlacement':'header','uplinkChunkSize':'10-50','headers':{'X-A':'b'},'unknown':[]}".

(** The source that always draws the largest value. *)
Definition px_draw (max : Z) : option Z := if max <=? 0 then None else Some (max - 1).

Example px_bad_range : ParseSettings px_extra = None ∧ ParseSettings "[1]" = None ∧ ParseSettings " null x" = Some no_settings.
Proof. vm_compute. repeat split. Qed.

Definition px_extra2 : string := Json.dq
  "{'xPaddingBytes':'5-10','XPADDINGBYTES':' 20 - 40 ','scMaxEachPostBytes':4096,'uplinkDataPlacement':'header','uplinkDataKey':'x-data','uplinkChunkSize':'10-50','headers':{'x-a':'b'},'unknown':[]}".

Definition px_settings : Settings := {|
  strs := {["uplinkdataplacement" := "header"; "uplinkdatakey" := "x-data"]}; flags := ∅;
  ranges := {["xpaddingbytes" := {| From := 20; To := 40 |}; "scmaxeachpostbytes" := {| From := 4096; To := 4096 |};
              "uplinkchunksize" := {| From := 10; To := 50 |}]};
  Headers := {["x-a" := "b"]} |}.

Lemma px_fair : fair px_draw.
Proof. intros max n. unfold px_draw. destruct (max <=? 0) eqn:Hm; [done|]. intros [= <-]. propify. lia. Qed.

Lemma draws_stay_in_range_witness :
  ∃ n, rand px_draw (uplinkChunkSize px_settings) = Some n ∧ 64 <= n.
Proof.
  eapply (draws_stay_in_range px_extra2 px_settings _ slen (λ _, None)); [vm_compute; reflexivity|exact px_fair|].
  apply list_elem_of_In. left. vm_compute. reflexivity.
Defined.

(** *** Tokenish padding *)

Fixpoint bits_of (bits : ascii → Z) (s : string) : Z :=
  match s with "" => 0 | String c s => bits c + bits_of bits s end.

Definition base62 (c : ascii) : bool := Url.is_alnum c.

(** The Huffman code of HPACK: a text takes the bits of its bytes, rounded up
    to bytes; a letter or digit takes 5 to 8 bits, and X and Z take 8. *)
Record Huffman (HL : string → Z) (bits : ascii → Z) : Prop := {
  huffman_length : ∀ s, HL s = (bits_of bits s + 7) / 8;
  huffman_base62 : ∀ c, base62 c = true → 5 <= bits c <= 8;
  huffman_full : bits "X"%char = 8 ∧ bits "Z"%char = 8
}.

Lemma base62_charset k : (k < 62)%nat → ∃ c, String.get k charsetBase62 = Some c ∧ base62 c = true.
Proof. intros Hk. do 62 (destruct k as [|k]; [by eexists|]). lia. Qed.

Lemma randBase62_facts read n : (∀ k b, read k = Some b → String.length b = k) →
  slen (randBase62 read n) = Z.max 0 n ∧ str_forallb base62 (randBase62 read n) = true.
Proof.
  intros Hr. unfold randBase62, slen. destruct (n <=? 0) eqn:Hn; propify; [split; [cbn; lia|done]|].
  destruct (read (Z.to_nat n)) as [b|] eqn:Hb.
  - split.
    + apply Hr in Hb. assert (∀ f s, String.length (str_map f s) = String.length s) as ->; [|lia].
      intros f. induction s as [|c s IH]; [done|]. cbn. by rewrite IH.
    + clear. induction b as [|c b IH]; [done|]. cbn [str_map str_forallb]. rewrite IH, andb_true_r.
      destruct (base62_charset (N.to_nat (byte_val c mod 62))) as (d & -> & Hd); [|done].
      pose proof (N.mod_lt (byte_val c) 62). lia.
  - rewrite length_Repeat, Repeat_forallb by done. lia.
Qed.

Definition on_target (HL : string → Z) (t : Z) (s : string) : Prop := t - 2 <= HL s <= t + 2.

Section tokenish.
Context {HL : string → Z} {bits : ascii → Z} (HH : Huffman HL bits).

Lemma bits_of_app a b : bits_of bits (a +:+ b) = bits_of bits a + bits_of bits b.
Proof. induction a as [|c a IH]; [done|]. change (String c a +:+ b) with (String c (a +:+ b)). cbn. rewrite IH. lia. Qed.

Lemma bits_of_bounds s : str_forallb base62 s = true → 5 * slen s <= bits_of bits s <= 8 * slen s.
Proof.
  unfold slen. induction s as [|c s IH]; [done|]. cbn [str_forallb bits_of String.length].
  intros [Hc Hs]%andb_true_iff. apply IH in Hs. pose proof (huffman_base62 _ _ HH c Hc). lia.
Qed.

Lemma adjust_on_target k t a s : on_target HL t s → adjust_padding HL k t a s = s.
Proof.
  unfold on_target. destruct k; [done|]. cbn. unfold tokenishTolerance. intros Ht.
  by rewrite (proj2 (Z.leb_le _ _)), (proj2 (Z.leb_le _ _)) by lia.
Qed.

(** Too short: every turn adds one byte. *)
Lemma adjust_up k t a s : a = "X"%char ∨ a = "Z"%char → HL s <= t + 2 → t - 2 - HL s <= Z.of_nat k →
  on_target HL t (adjust_padding HL k t a s).
Proof.
  revert a s. induction k as [|k IH]; intros a s Ha Hu Hl; [unfold on_target; cbn; lia|].
  destruct (Z.le_gt_cases (t - 2) (HL s)) as [Hin|Hout]; [by rewrite adjust_on_target|].
  cbn [adjust_padding]. unfold tokenishTolerance.
  rewrite (proj2 (Z.leb_gt (- (2)) _)) by lia. rewrite andb_false_r, (proj2 (Z.ltb_lt _ 0)) by lia.
  assert (HL (s +:+ String a "") = HL s + 1) as E.
  { rewrite !(huffman_length _ _ HH), bits_of_app. cbn [bits_of]. pose proof (huffman_full _ _ HH).
    replace (bits a) with 8 by (destruct Ha as [->| ->]; lia).
    replace (bits_of bits s + (8 + 0) + 7) with (bits_of bits s + 7 + 1 * 8) by lia. by rewrite Z.div_add. }
  apply IH; [destruct Ha as [->| ->]; cbn; auto|lia|lia].
Qed.

Lemma HL_bounds s : str_forallb base62 s = true → 5 * slen s <= 8 * HL s ∧ HL s <= slen s.
Proof.
  intros Hs%bits_of_bounds. rewrite (huffman_length _ _ HH).
  pose proof (Z.div_mod (bits_of bits s + 7) 8). pose proof (Z.mod_pos_bound (bits_of bits s + 7) 8). lia.
Qed.

Lemma snoc_str s : s ≠ "" → ∃ r c, s = r +:+ String c "" ∧ String.substring 0 (String.length s - 1) s = r.
Proof.
  intros Hs. assert (∃ r c, s = r +:+ String c "") as (r & c & ->).
  { induction s as [|c s IH]; [done|]. destruct s as [|d s]; [by exists "", c|].
    destruct IH as (r & e & ->); [done|]. by exists (String c r), e. }
  exists r, c. split; [done|]. rewrite length_app_str. cbn [String.length].
  replace (String.length r + 1 - 1)%nat with (String.length r) by lia. apply substring_prefix.
Qed.

(** Too long: every turn drops a byte, and at most one byte of code. *)
Lemma adjust_down k t a s : 0 <= t → str_forallb base62 s = true → t - 2 <= HL s → slen s - Z.of_nat k <= t + 2 →
  on_target HL t (adjust_padding HL k t a s).
Proof.
  intros Ht. revert a s. induction k as [|k IH]; intros a s Hs Hl Hu.
  - pose proof (HL_bounds s Hs). unfold on_target. cbn. lia.
  - destruct (Z.le_gt_cases (HL s) (t + 2)) as [Hin|Hout]; [by rewrite adjust_on_target|].
    cbn [adjust_padding]. unfold tokenishTolerance.
    rewrite (proj2 (Z.leb_gt _ 2)) by lia. cbn [andb]. rewrite (proj2 (Z.ltb_ge _ 0)) by lia.
    pose proof (HL_bounds s Hs) as Hb. unfold slen in Hb.
    rewrite (proj2 (Nat.leb_gt _ 1)) by lia.
    destruct (snoc_str s) as (r & c & -> & ->); [by intros ->; cbn in Hb; lia|].
    rewrite str_forallb_app in Hs. apply andb_true_iff in Hs as [Hr Hc]. cbn [str_forallb] in Hc.
    rewrite andb_true_r in Hc. pose proof (huffman_base62 _ _ HH c Hc).
    apply IH; [done| |unfold slen in *; rewrite length_app_str in Hu; cbn in Hu; lia].
    rewrite (huffman_length _ _ HH), bits_of_app in Hout. cbn [bits_of] in Hout.
    rewrite (huffman_length _ _ HH).
    pose proof (Z.div_mod (bits_of bits r + (bits c + 0) + 7) 8). pose proof (Z.mod_pos_bound (bits_of bits r + (bits c + 0) + 7) 8).
    pose proof (Z.div_mod (bits_of bits r + 7) 8). pose proof (Z.mod_pos_bound (bits_of bits r + 7) 8). lia.
Qed.

(** Tokenish padding hits its length.  For a target of up to 600 bytes and
    whatever random bytes it is built from, its length in HPACK's Huffman code,
    which is what the server measures, is within two bytes of the target: the
    150 turns of the adjusting loop are enough.  (For the largest default
    target, 1000, they are enough unless the draw is far from typical.) *)
Theorem tokenish_padding_on_target (read : nat → option string) (t : Z) :
  (∀ k b, read k = Some b → String.length b = k) → 1 <= t <= 600 →
  on_target HL t (generatePadding HL read PaddingTokenish t).
Proof.
  intros Hr Ht. unfold generatePadding. rewrite (proj2 (Z.leb_gt t 0)) by lia.
  change (String.eqb PaddingTokenish PaddingTokenish) with true. cbn iota.
  assert (Hlen : HL (Repeat "X" (Z.to_nat t)) = t).
  { rewrite (huffman_length _ _ HH). assert (∀ n, bits_of bits (Repeat "X" n) = 8 * Z.of_nat n) as ->.
    { induction n as [|n IH]; [done|]. cbn [Repeat bits_of]. rewrite IH. pose proof (huffman_full _ _ HH). lia. }
    rewrite Z2Nat.id by lia. replace (8 * t + 7) with (7 + t * 8) by lia. rewrite Z.div_add by lia. change (7 / 8) with 0. lia. }
  destruct (negb _); [|unfold on_target; lia]. unfold tokenishPadding. cbv zeta. set (n := Z.max 1 _).
  assert (5 * t <= 4 * n <= 5 * t + 3) as Hn by (unfold n; pose proof (Z.div_mod (5 * t + 3) 4); pose proof (Z.mod_pos_bound (5 * t + 3) 4); lia).
  destruct (randBase62_facts read n Hr) as [Hl Hb]. pose proof (HL_bounds _ Hb) as Hhl. rewrite Hl in Hhl.
  destruct (Z.le_gt_cases (HL (randBase62 read n)) (t + 2)).
  - apply adjust_up; [by left|done|lia].
  - apply adjust_down; [lia|done|lia|rewrite Hl; lia].
Qed.
End tokenish.

(** The code's lengths for letters and digits. *)
Definition hpack_bits (c : ascii) : Z :=
  if str_has c "012aceiost" then 5
  else if str_has c "3456789Abdfghlmnpru" then 6
  else if str_has c "XZ" then 8
  else if Url.is_alnum c then 7 else 13.

Definition hpack_length (s : string) : Z := (bits_of hpack_bits s + 7) / 8.

Lemma hpack_huffman : Huffman hpack_length hpack_bits.
Proof.
  split; [done| |done]. intros [[] [] [] [] [] [] [] []]; first [discriminate | intros _; vm_compute; split; discriminate].
Qed.

Lemma tokenish_padding_on_target_witness :
  on_target hpack_length 100 (generatePadding hpack_length (λ n, Some (Repeat "0" n)) PaddingTokenish 100).
Proof.
  apply (tokenish_padding_on_target hpack_huffman); [|lia].
  intros k b [= <-]. apply length_Repeat.
Defined.

(** ** The payload of a packet *)

Definition concat_str (cs : list string) : string := foldr (λ c r, c +:+ r) "" cs.

Lemma cut_at k s : (k <= String.length s)%nat →
  s = String.substring 0 k s +:+ String.substring k (String.length s - k) s ∧
  String.length (String.substring 0 k s) = k ∧
  String.length (String.substring k (String.length s - k) s) = (String.length s - k)%nat.
Proof.
  revert s. induction k as [|k IH]; intros s Hk.
  - assert (String.substring 0 0 s = "") as -> by (by destruct s). rewrite Nat.sub_0_r, substring_whole. done.
  - destruct s as [|c s]; [cbn in Hk; lia|]. cbn [String.length] in *. destruct (IH s) as (E & H1 & H2); [lia|].
    cbn [String.substring Nat.sub]. change (String c ?a +:+ ?b) with (String c (a +:+ b)). cbn [String.length].
    rewrite <- E, H1. done.
Qed.

Lemma chunks_spec fuel i draws size e : (∀ i, fair (draws i)) → sane size → 1 <= From size →
  (String.length e <= fuel)%nat →
  ∃ cs, chunks fuel i draws size e = Some cs ∧ concat_str cs = e ∧
    Forall (λ c, 1 <= slen c <= Z.max (From size) (To size)) cs.
Proof.
  intros Hf Hs H1. revert i e. induction fuel as [|fuel IH]; intros i e Hl.
  { destruct e; [|cbn in Hl; lia]. by exists []. }
  destruct e as [|c e]; [by exists []|]. set (s := String c e) in *.
  assert (1 <= slen s) as Hpos by (unfold slen, s; cbn; lia).
  destruct (rand_within (draws i) size (Hf i) Hs) as (r & Hr & Hw). unfold within in Hw.
  change (chunks (S fuel) i draws size s) with (
    r ← rand (draws i) size;
    let n := Z.min r (slen s) in
    let n := if n <=? 0 then slen s else n in
    let k := Z.to_nat n in
    rest ← chunks fuel (S i) draws size (String.substring k (String.length s - k) s);
    Some (String.substring 0 k s :: rest)).
  rewrite Hr. cbn [mbind option_bind]. cbv zeta. rewrite (proj2 (Z.leb_gt _ 0)) by lia.
  set (k := Z.to_nat (Z.min r (slen s))).
  assert (1 <= k <= String.length s)%nat as Hk by (unfold k, slen in *; lia).
  destruct (cut_at k s) as (E & L1 & L2); [lia|].
  destruct (IH (S i) (String.substring k (String.length s - k) s)) as (cs & -> & Hc & Hall); [lia|].
  cbn [mbind option_bind]. eexists. split; [done|]. split.
  - cbn [concat_str foldr]. fold (concat_str cs). by rewrite Hc, <- E.
  - constructor; [|done]. unfold slen at 1 2. rewrite L1. unfold k, slen in *. lia.
Qed.

Definition url_safe (c : ascii) : bool := Url.is_alnum c || Ascii.eqb c "-" || Ascii.eqb c "_".

Lemma chunkEncoded_spec draws payload size : (∀ i, fair (draws i)) → sane size → 1 <= From size →
  ∃ cs, chunkEncoded draws payload size = Some cs ∧
    Base64.DecodeString Base64.RawURLEncoding (concat_str cs) = Some payload ∧
    Forall (λ c, 1 <= slen c <= Z.max (From size) (To size) ∧ str_forallb url_safe c = true) cs.
Proof.
  intros Hf Hs H1. unfold chunkEncoded. cbv zeta.
  destruct (chunks_spec (String.length (Base64.EncodeToString Base64.RawURLEncoding payload)) 0 draws size
    (Base64.EncodeToString Base64.RawURLEncoding payload) Hf Hs H1) as (cs & -> & Hc & Hall); [done|].
  exists cs. split; [done|]. split; [by rewrite Hc, Base64.DecodeString_EncodeToString|].
  assert (Hb : str_forallb url_safe (concat_str cs) = true).
  { rewrite Hc. apply Base64.EncodeToString_bytes; [vm_compute; reflexivity|done]. }
  clear Hc. induction Hall as [|c cs Hlen _ IH]; [constructor|]. cbn [concat_str foldr] in Hb.
  rewrite str_forallb_app in Hb. apply andb_true_iff in Hb as [Hc Hb]. constructor; [done|by apply IH].
Qed.

Lemma Itoa_nat_digits i : str_forallb is_digit (Itoa (Z.of_nat i)) = true.
Proof. unfold Itoa. rewrite (proj2 (Z.ltb_ge _ 0)) by lia. apply utoa_digits. Qed.

(** The name of the header that carries chunk [i]. *)
Definition chunk_header (s : Settings) (i : nat) : string := UplinkDataKey s +:+ "-" +:+ Itoa (Z.of_nat i).

Lemma chunk_headers_Get s cs i h :
  (∀ j, (j < i)%nat → Header_Get (set_chunks i (λ i c h, Header_Set h (chunk_header s i) c) cs h) (chunk_header s j) =
        Header_Get h (chunk_header s j)) ∧
  (∀ j c, cs !! j = Some c →
        Header_Get (set_chunks i (λ i c h, Header_Set h (chunk_header s i) c) cs h) (chunk_header s (i + j)) = c).
Proof.
  assert (Hne : ∀ i j, i ≠ j → CanonicalHeaderKey (chunk_header s i) ≠ CanonicalHeaderKey (chunk_header s j)).
  { intros a b Hab E. apply canonical_suffix_inj in E; try apply Itoa_nat_digits. by apply Itoa_nat_inj in E. }
  revert i h. induction cs as [|c cs IH]; intros i h; cbn [set_chunks]; [done|].
  destruct (IH (S i) (Header_Set h (chunk_header s i) c)) as [IH1 IH2]. split.
  - intros j Hj. rewrite IH1 by lia. apply Header_Get_Set_ne, Hne. lia.
  - intros [|j] d; cbn.
    + intros [= <-]. rewrite Nat.add_0_r, IH1 by lia. apply Header_Get_Set.
    + intros Hd. replace (i + S j)%nat with (S i + j)%nat by lia. by apply IH2.
Qed.

(** The text of the cookie that carries chunk [i]. *)
Definition chunk_cookie (s : Settings) (i : nat) (c : string) : string :=
  cookie_name (UplinkDataKey s +:+ "_" +:+ Itoa (Z.of_nat i)) +:+ "=" +:+ c.

Lemma Join_cons sep x l : l ≠ [] → Join sep (x :: l) = x +:+ sep +:+ Join sep l.
Proof. by destruct l. Qed.

Lemma str_mid a b c : a +:+ String b c ≠ "".
Proof. by destruct a. Qed.

Lemma chunk_cookies_Get s cs i h : Forall (λ c, str_forallb url_safe c = true) cs →
  Header_Get (set_chunks i (λ i c h, AddCookie h (UplinkDataKey s +:+ "_" +:+ Itoa (Z.of_nat i)) c) cs h) "Cookie" =
  Join "; " ((if String.eqb (Header_Get h "Cookie") "" then [] else [Header_Get h "Cookie"]) ++
             imap (λ j c, chunk_cookie s (i + j) c) cs).
Proof.
  intros Hall. revert i h. induction Hall as [|c cs Hc _ IH]; intros i h; cbn [set_chunks imap].
  { rewrite app_nil_r. destruct (String.eqb_spec (Header_Get h "Cookie") ""); [done|done]. }
  assert (Hpair : cookie_pair (UplinkDataKey s +:+ "_" +:+ Itoa (Z.of_nat i)) c = chunk_cookie s i c).
  { unfold cookie_pair, chunk_cookie. rewrite cookie_value_plain; [done|].
    eapply str_forallb_impl; [|exact Hc]. intros [[] [] [] [] [] [] [] []]; first [discriminate|reflexivity]. }
  rewrite IH. set (o := Header_Get h "Cookie"). unfold AddCookie. fold o. rewrite Header_Get_Set, Hpair, Nat.add_0_r.
  assert (Hne : String.eqb (chunk_cookie s i c) "" = false).
  { apply String.eqb_neq. unfold chunk_cookie. apply str_mid. }
  assert (Hs : imap (λ j c, chunk_cookie s (S i + j) c) cs = imap ((λ j c, chunk_cookie s (i + j) c) ∘ S) cs).
  { apply imap_ext. intros j d _. cbn. by rewrite Nat.add_succ_r. }
  destruct (String.eqb_spec o "") as [->|Ho]; cbn [app]; [by rewrite Hne, Hs|].
  assert (String.eqb (o +:+ "; " +:+ chunk_cookie s i c) "" = false) as ->.
  { apply String.eqb_neq. change ("; " +:+ ?x) with (String ";" (" " +:+ x)). apply str_mid. }
  cbn [app]. rewrite Hs. generalize (imap ((λ j c, chunk_cookie s (i + j) c) ∘ S) cs). intros l.
  change (Join "; " (o :: ?x :: l)) with (o +:+ "; " +:+ Join "; " (x :: l)).
  destruct l as [|y l]; [done|]. rewrite !Join_cons by done. by rewrite !app_assoc_str.
Qed.

(** The server gets back every payload.  For settings that parse and fair
    draws, a packet is attached without a panic: as the body; or in numbered
    headers, or numbered cookies after those the request has, whose texts in
    order are the payload's base64, in chunks of at least one byte and at most
    the chunk size. *)
Theorem packet_payload_recovered (extra : string) (s : Settings) draws payload req :
  ParseSettings extra = Some s → (∀ i, fair (draws i)) →
  ∃ req', attachPacketPayload draws s payload req = Some req' ∧
  let size := uplinkChunkSize s in
  let carries cs := Base64.DecodeString Base64.RawURLEncoding (concat_str cs) = Some payload ∧
    Forall (λ c, 1 <= slen c <= Z.max (From size) (To size)) cs in
  if String.eqb (uplinkDataPlacement s) PlacementHeader then
    ∃ cs, carries cs ∧ rBody req' = rBody req ∧
      ∀ i c, cs !! i = Some c → Header_Get (rHeader req') (chunk_header s i) = c
  else if String.eqb (uplinkDataPlacement s) PlacementCookie then
    ∃ cs, carries cs ∧ rBody req' = rBody req ∧
      let old := Header_Get (rHeader req) "Cookie" in
      Header_Get (rHeader req') "Cookie" =
        Join "; " ((if String.eqb old "" then [] else [old]) ++ imap (chunk_cookie s) cs)
  else rBody req' = Bytes payload.
Proof.
  intros Hp Hf. assert (Hs : sane (uplinkChunkSize s)).
  { pose proof (drawn_ranges_sane s (ParseSettings_sane _ _ Hp)) as Hd. unfold drawn_ranges in Hd.
    rewrite !Forall_cons in Hd. tauto. }
  assert (Hc : uplinkDataPlacement s ∈ [PlacementHeader; PlacementCookie] →
    ∃ cs, chunkEncoded draws payload (uplinkChunkSize s) = Some cs ∧
      (Base64.DecodeString Base64.RawURLEncoding (concat_str cs) = Some payload ∧
       Forall (λ c, 1 <= slen c <= Z.max (From (uplinkChunkSize s)) (To (uplinkChunkSize s))) cs) ∧
      Forall (λ c, str_forallb url_safe c = true) cs).
  { intros H64%chunk_size_floor. destruct (chunkEncoded_spec draws payload _ Hf Hs) as (cs & He & Hd & Hall); [lia|].
    exists cs. split; [done|]. rewrite Forall_and in Hall. tauto. }
  unfold attachPacketPayload.
  destruct (String.eqb_spec (uplinkDataPlacement s) PlacementHeader) as [E|].
  { destruct Hc as (cs & -> & Hd & _); [rewrite E; by constructor|]. cbn [mbind option_bind].
    eexists. split; [done|]. exists cs. split; [done|]. split; [done|]. cbn [rHeader with_header].
    intros i c Hi. by apply (chunk_headers_Get s cs 0 (rHeader req)). }
  destruct (String.eqb_spec (uplinkDataPlacement s) PlacementCookie) as [E|]; [|by eexists].
  destruct Hc as (cs & -> & Hd & Hall); [rewrite E; by repeat constructor|]. cbn [mbind option_bind].
  eexists. split; [done|]. exists cs. split; [done|]. split; [done|]. cbn [rHeader with_header].
  by rewrite (chunk_cookies_Get s cs 0 (rHeader req) Hall).
Qed.

Definition px_req : Request := {|
  Method := "POST"; rHost := "h"; rURL := base_url "https" "h" "/" ""; rHeader := ∅; rBody := NoBody |}.

Lemma packet_payload_recovered_witness :
  ∃ req' cs, attachPacketPayload (λ _, px_draw) px_settings "some payload" px_req = Some req' ∧
    Base64.DecodeString Base64.RawURLEncoding (concat_str cs) = Some "some payload".
Proof.
  destruct (packet_payload_recovered px_extra2 px_settings (λ _, px_draw) "some payload" px_req) as (req' & H & Hc).
  - vm_compute. reflexivity.
  - intros _. exact px_fair.
  - cbv zeta in Hc. change (String.eqb (uplinkDataPlacement px_settings) PlacementHeader) with true in Hc.
    destruct Hc as (cs & [Hd _] & _). by exists req', cs.
Defined.

(** ** The request of a packet *)

Lemma HasSuffix_snoc p c : HasSuffix (p +:+ String c "") (String c "") = true.
Proof. unfold HasSuffix. rewrite srev_app. apply HasPrefix_true. by eexists. Qed.

Lemma HasSuffix_byte p c : HasSuffix p (String c "") = true → ∃ r, p = r +:+ String c "".
Proof.
  unfold HasSuffix. intros [r Hr]%HasPrefix_true. exists (srev r).
  rewrite <- (srev_srev p), Hr, srev_app. done.
Qed.

Lemma HasSuffix_app p t c : t ≠ "" → str_has c t = false → HasSuffix (p +:+ t) (String c "") = false.
Proof.
  intros Ht Hc. destruct (HasSuffix _ _) eqn:Hs; [|done]. apply HasSuffix_byte in Hs as [r E].
  destruct (snoc_str t Ht) as (t' & d & -> & _). rewrite <- app_assoc_str in E.
  assert (∀ a b x y, a +:+ String x "" = b +:+ String y "" → x = y) as Hinj.
  { intros a b x y Heq. assert (srev (a +:+ String x "") = srev (b +:+ String y "")) as E' by (by rewrite Heq).
    rewrite !srev_app in E'. by injection E'. }
  apply Hinj in E as ->. rewrite str_has_app, str_has_cons, Ascii.eqb_refl, orb_true_r in Hc. done.
Qed.

(** A split path is rooted and ends in a slash. *)
Lemma splitPathQuery_shape raw : rooted (splitPathQuery raw).1 = true ∧ HasSuffix (splitPathQuery raw).1 "/" = true.
Proof.
  unfold splitPathQuery. destruct (match Cut raw "?" with Some pq => pq | None => (raw, "") end) as [path query].
  cbn [fst]. set (p := if HasPrefix path "/" then path else "/" +:+ path).
  assert (Hp : HasPrefix p "/" = true).
  { unfold p. destruct (HasPrefix path "/") eqn:E; [done|]. apply HasPrefix_true. by eexists. }
  destruct (HasSuffix p "/") eqn:Hs; split; try done.
  - unfold rooted. by rewrite Hp, orb_true_r.
  - apply HasPrefix_true in Hp as [r ->]. rewrite app_assoc_str. unfold rooted. apply orb_true_iff. right.
    apply HasPrefix_true. by eexists.
  - apply HasSuffix_snoc.
Qed.

(** An authority that is a URL's host as it stands. *)
Definition plain_authority (a : string) : Prop :=
  Url.parseHost a = Some a ∧ str_has "%" a = false ∧ removeEmptyPort a = a.

Lemma New_inv `{GoQuote} c d : New c = Ok d →
  cfg d = c ∧ settings d = cSettings c ∧ dMode d = resolveMode (Mode (cSettings c)) (Reality c) ∧
  Authority c ≠ "" ∧ (Scheme c = "http" ∨ Scheme c = "https") ∧
  baseURL d = base_url (Scheme c) (Authority c) (splitPathQuery (Path (cSettings c))).1 (splitPathQuery (Path (cSettings c))).2.
Proof.
  unfold New. destruct (negb (hasDial c)); [done|]. destruct (String.eqb (HTTPVersion c) HTTPVersion3); [done|].
  destruct (negb (bool_decide _)); [done|]. destruct (String.eqb_spec (Authority c) ""); [done|].
  destruct (String.eqb_spec (Scheme c) "http"), (String.eqb_spec (Scheme c) "https"); cbn [negb andb]; try done;
    destruct (splitPathQuery _) as [p q]; intros [= <-]; cbn; eauto 10.
Qed.

Lemma base_parts `{GoQuote} c d : New c = Ok d → plain_authority (Authority c) →
  ∀ q, str_forallb url_byte q = true →
  let u := base_url (Scheme c) (Authority c) (splitPathQuery (Path (cSettings c))).1 q in
  Url.Parse (Url.URL_String u) = Some u.
Proof.
  intros (_ & _ & _ & Hne & Hsch & _)%New_inv (Hh & Hno & _) q Hq u.
  destruct (splitPathQuery_shape (Path (cSettings c))) as [Hr _].
  apply Parse_base_url; try done. apply base_url_parts; try done; by destruct Hsch as [->| ->].
Qed.

Lemma query_of_padding n : Url.Get (Url.Query (base_url "" "" "" ("x_padding=" +:+ Repeat "X" n))) "x_padding" = Repeat "X" n.
Proof.
  unfold Url.Query. cbn [Url.RawQuery base_url].
  assert (Hf : ∀ f, f "X"%char = true → str_forallb f "x_padding=" = true → str_forallb f ("x_padding=" +:+ Repeat "X" n) = true).
  { intros f H1 H2. by rewrite str_forallb_app, H2, Repeat_forallb. }
  rewrite split_byte_none by (by apply Hf). cbn [omap list_omap]. unfold Url.query_field.
  assert (str_has ";" ("x_padding=" +:+ Repeat "X" n) = false) as -> by (unfold str_has; by rewrite Hf).
  change ("x_padding=" +:+ Repeat "X" n) with ("x_padding" +:+ String "=" (Repeat "X" n)) at 2.
  rewrite Cut_byte_app by done. change (String.eqb ("x_padding=" +:+ Repeat "X" n) "") with false. cbn [orb].
  assert (Url.unescape Url.encodeQueryComponent (Repeat "X" n) = Some (Repeat "X" n)) as ->.
  { induction n as [|n IH]; [done|]. cbn [Repeat Url.unescape]. change (Ascii.eqb "X" "%") with false.
    change (Ascii.eqb "X" "+") with false. cbn [andb]. rewrite IH; [done|]. intros f H1 H2. by rewrite str_forallb_app, H2, Repeat_forallb. }
  done.
Qed.

(** Outside obfuscation mode the padding is the query of a Referer. *)
Lemma applyPadding_referer HL read draw s req n : XPaddingObfsMode s = false →
  rand draw (paddingBytes s) = Some n → 1 <= n →
  applyPadding HL read draw s req =
    Some (with_header (λ h, Header_Set h "Referer"
      (Url.URL_String (set_query ("x_padding=" +:+ Repeat "X" (Z.to_nat n)) (rURL req)))) req).
Proof.
  intros Hobfs Hn Hn1. unfold applyPadding.
  assert (paddingParams s = (PlacementQueryInHeader, "x_padding", "Referer", "")) as -> by (unfold paddingParams; by rewrite Hobfs).
  rewrite Hn. cbn [mbind option_bind]. rewrite generatePadding_repeat by done.
  assert (String.eqb (Repeat "X" (Z.to_nat n)) "" = false) as -> by (destruct (Z.to_nat n) eqn:E; [lia|done]).
  done.
Qed.

(** ** What a server reads

    A server looks for the session and the number where its own settings, the
    same as the link's, say: in the segments behind its path, in the query, in a
    header, or in a cookie. *)

Definition cookies (header : string) : list (string * string) :=
  omap (λ f, Cut (match f with String " " f => f | _ => f end) "=") (split_byte ";" header).

Definition read_at (placement key segment : string) (req : Request) : string :=
  if String.eqb placement PlacementPath then segment
  else if String.eqb placement PlacementQuery then Url.Get (Url.Query (rURL req)) key
  else if String.eqb placement PlacementHeader then Header_Get (rHeader req) key
  else Url.Get (cookies (Header_Get (rHeader req) "Cookie")) key.

Definition server_reads (s : Settings) (base : string) (req : Request) : string * string :=
  let segments := match CutPrefix base (Url.Path (rURL req)) with Some rest => split_byte "/" rest | None => [] end in
  let in_path := String.eqb (sessionPlacement s) PlacementPath in
  (read_at (sessionPlacement s) (sessionKey s) (default "" (head segments)) req,
   read_at (seqPlacement s) (seqKey s) (default "" (head (if in_path then tail segments else segments))) req).

Definition placements : list string := [PlacementPath; PlacementQuery; PlacementHeader; PlacementCookie].

(** Keys that can be told apart from what else a request carries. *)
Definition usable_key (placement key : string) : Prop :=
  (placement = PlacementQuery → key ≠ "") ∧
  (placement = PlacementHeader → CanonicalHeaderKey key ≠ "Cookie" ∧ CanonicalHeaderKey key ≠ "Referer") ∧
  (placement = PlacementCookie → str_forallb token_byte key = true).
Definition apart (s : Settings) : Prop :=
  sessionPlacement s ∈ placements ∧ seqPlacement s ∈ placements ∧
  usable_key (sessionPlacement s) (sessionKey s) ∧ usable_key (seqPlacement s) (seqKey s) ∧
  (sessionPlacement s = seqPlacement s → sessionPlacement s ≠ PlacementPath →
     CanonicalHeaderKey (sessionKey s) ≠ CanonicalHeaderKey (seqKey s)).

Lemma url_safe_cookie v : str_forallb url_safe v = true → cookie_value v = v.
Proof. intros Hv. apply cookie_value_plain. eapply str_forallb_impl; [|exact Hv]. intros [[] [] [] [] [] [] [] []]; first [discriminate|reflexivity]. Qed.

Lemma token_cookie k : str_forallb token_byte k = true → cookie_name k = k ∧ str_has "=" k = false ∧ str_has ";" k = false ∧
  (match k with String " " f => f | _ => k end = k).
Proof.
  intros Hk. split; [|split; [|split]].
  - unfold cookie_name. induction k as [|c k IH]; [done|]. cbn in *. apply andb_true_iff in Hk as [Hc Hk]. rewrite IH by done.
    destruct (Ascii.eqb_spec c LF) as [->|]; [done|]. by destruct (Ascii.eqb_spec c CR) as [->|].
  - by apply (str_has_forallb "=" token_byte).
  - by apply (str_has_forallb ";" token_byte).
  - destruct k as [|c k]; [done|]. cbn in Hk. apply andb_true_iff in Hk as [Hc _]. revert Hc.
    destruct c as [[] [] [] [] [] [] [] []]; first [discriminate|reflexivity].
Qed.

Lemma cookies_one k v : str_forallb token_byte k = true → str_forallb url_safe v = true → cookies (cookie_pair k v) = [(k, v)].
Proof.
  intros Hk Hv. pose proof (token_cookie k Hk) as (Hn & He & Hs & Ht). unfold cookies, cookie_pair. rewrite Hn, url_safe_cookie by done.
  rewrite split_byte_none.
  - cbn [omap list_omap]. assert (match k +:+ "=" +:+ v with String " " f => f | _ => k +:+ "=" +:+ v end = k +:+ String "=" v) as ->.
    { destruct k as [|c k]; [done|]. cbn in Hk. apply andb_true_iff in Hk as [Hc _]. revert Hc.
      destruct c as [[] [] [] [] [] [] [] []]; first [discriminate|reflexivity]. }
    by rewrite Cut_byte_app.
  - assert (str_has ";" (k +:+ "=" +:+ v) = false) as H.
    { rewrite !str_has_app, Hs. cbn. by apply (str_has_forallb ";" url_safe). }
    unfold str_has in H. by apply negb_false_iff in H.
Qed.
Lemma cookies_add k v h : str_forallb token_byte k = true → str_forallb url_safe v = true →
  cookies (Header_Get (AddCookie h k v) "Cookie") =
    (if String.eqb (Header_Get h "Cookie") "" then [] else cookies (Header_Get h "Cookie")) ++ [(k, v)].
Proof.
  intros Hk Hv. unfold AddCookie. rewrite Header_Get_Set. destruct (String.eqb (Header_Get h "Cookie") ""); [by apply cookies_one|].
  unfold cookies at 1. change ("; " +:+ ?x) with (String ";" (String " " x)). rewrite Path.split_byte_snoc.
  - rewrite omap_app. f_equal. cbn [omap list_omap]. pose proof (token_cookie k Hk) as (Hn & He & _). unfold cookie_pair.
    rewrite Hn, url_safe_cookie by done. change ("=" +:+ v) with (String "=" v). by rewrite Cut_byte_app.
  - pose proof (token_cookie k Hk) as (Hn & _ & Hs & _). rewrite str_has_cons. cbn. unfold cookie_pair. rewrite Hn, url_safe_cookie by done.
    rewrite !str_has_app, Hs. cbn. by apply (str_has_forallb ";" url_safe).
Qed.

Lemma cookies_empty : cookies "" = [].
Proof. done. Qed.

Lemma cookies_after k v h : str_forallb token_byte k = true → str_forallb url_safe v = true →
  cookies (Header_Get (AddCookie h k v) "Cookie") = cookies (Header_Get h "Cookie") ++ [(k, v)].
Proof. intros Hk Hv. rewrite cookies_add by done. by destruct (String.eqb_spec (Header_Get h "Cookie") "") as [->|]. Qed.

Lemma Get_snoc q k v : k ∉ (fst <$> q) → Url.Get (q ++ [(k, v)]) k = v.
Proof.
  intros Hn. rewrite Get_app. replace (existsb _ _) with false; [cbn; by rewrite String.eqb_refl|].
  symmetry. apply not_true_is_false. intros H. apply existsb_exists in H as ([x y] & Hin%list_elem_of_In & E%String.eqb_eq).
  apply Hn. cbn in E. subst x. by apply (list_elem_of_fmap_2 fst) in Hin.
Qed.

Lemma Get_snoc_ne q k v k' : k ≠ k' → Url.Get (q ++ [(k, v)]) k' = Url.Get q k'.
Proof.
  intros Hk. rewrite Get_app. destruct (existsb _ _) eqn:E; [done|]. cbn. rewrite (proj2 (String.eqb_neq k k')) by done.
  symmetry. apply Get_notin. intros ([x y] & -> & Hin)%list_elem_of_fmap. apply not_true_iff_false in E. apply E.
  apply existsb_exists. exists (x, y). split; [by apply list_elem_of_In|]. apply String.eqb_refl.
Qed.

Lemma is_cookie p : p ∈ placements → p ≠ PlacementPath → p ≠ PlacementQuery → p ≠ PlacementHeader → p = PlacementCookie.
Proof. unfold placements. rewrite !elem_of_cons. intros [?|[?|[?|[?|[]%not_elem_of_nil]]]]; done. Qed.

(** What a placement leaves alone. *)
Lemma place_frame p k v req : usable_key p k →
  let req' := place p k v req in
  Method req' = Method req ∧ rHost req' = rHost req ∧ rBody req' = rBody req ∧
  Url.Scheme (rURL req') = Url.Scheme (rURL req) ∧ Url.Host (rURL req') = Url.Host (rURL req) ∧
  Header_Get (rHeader req') "Referer" = Header_Get (rHeader req) "Referer" ∧
  ∀ x, x ≠ k → Url.Get (Url.Query (rURL req')) x = Url.Get (Url.Query (rURL req)) x.
Proof.
  intros (_ & Hh & _). unfold place. destruct (String.eqb v "") eqn:Hv; [done|]. destruct (String.eqb p PlacementPath); [done|].
  destruct (String.eqb p PlacementQuery).
  { cbn. unfold applyToQuery. rewrite Hv, orb_false_r. destruct (String.eqb k ""); [done|]. repeat (split; [done|]).
    intros x Hx. etransitivity; [apply Get_Encode|]. rewrite Get_Values_Set. by rewrite (proj2 (String.eqb_neq k x)). }
  destruct (String.eqb_spec p PlacementHeader) as [->|].
  { destruct (Hh eq_refl) as [_ Hr]. cbn. repeat (split; [done|]). split; [|done]. apply Header_Get_Set_ne. exact Hr. }
  destruct (String.eqb p PlacementCookie); [|done]. cbn. repeat (split; [done|]). split; [|done].
  unfold AddCookie. by rewrite Header_Get_Set_ne.
Qed.

Lemma place_path p k v req : v ≠ "" →
  Url.Path (rURL (place p k v req)) =
    if String.eqb p PlacementPath then appendPathSegment (Url.Path (rURL req)) v else Url.Path (rURL req).
Proof.
  intros Hv. unfold place. rewrite (proj2 (String.eqb_neq v "")) by done. destruct (String.eqb p PlacementPath); [done|].
  destruct (String.eqb p PlacementQuery); [cbn; unfold applyToQuery; by destruct (_ || _)|].
  destruct (String.eqb p PlacementHeader); [done|]. by destruct (String.eqb p PlacementCookie).
Qed.

(** A value that was placed is read back. *)
Lemma place_reads p k v req segment : p ∈ placements → p ≠ PlacementPath → usable_key p k → v ≠ "" →
  str_forallb url_safe v = true → (p = PlacementCookie → k ∉ fst <$> cookies (Header_Get (rHeader req) "Cookie")) →
  read_at p k segment (place p k v req) = v.
Proof.
  intros Hp Hne (Hq & _ & Hc) Hv Hsafe Hfresh. unfold place, read_at. rewrite (proj2 (String.eqb_neq v "")) by done.
  rewrite (proj2 (String.eqb_neq p PlacementPath)) by done. destruct (String.eqb_spec p PlacementQuery) as [->|Hpq].
  { cbn. unfold applyToQuery. rewrite (proj2 (String.eqb_neq v "")), (proj2 (String.eqb_neq k "")) by auto. cbn [orb].
    etransitivity; [apply Get_Encode|]. by rewrite Get_Values_Set, String.eqb_refl. }
  destruct (String.eqb_spec p PlacementHeader) as [->|]; [apply Header_Get_Set|].
  assert (p = PlacementCookie) as -> by (by apply is_cookie). cbn.
  rewrite cookies_after by auto. apply Get_snoc. auto.
Qed.

(** A value placed later, under another key, does not disturb it. *)
Lemma place_keeps p k v p' k' req segment : usable_key p k → usable_key p' k' → p' ∈ placements →
  (p = p' → CanonicalHeaderKey k ≠ CanonicalHeaderKey k') → str_forallb url_safe v = true →
  read_at p' k' segment (place p k v req) = read_at p' k' segment req.
Proof.
  intros Hu Hu' Hp' Hne Hv. unfold read_at. destruct (String.eqb_spec p' PlacementPath) as [|Hpath']; [done|].
  destruct (String.eqb_spec p' PlacementQuery) as [->|Hq'].
  { destruct (place_frame p k v req Hu) as (_ & _ & _ & _ & _ & _ & Hx). destruct (decide (p = PlacementQuery)) as [E|E].
    - apply Hx. intros ->. by apply Hne.
    - unfold place. destruct (String.eqb v ""); [done|]. destruct (String.eqb p PlacementPath); [done|].
      rewrite (proj2 (String.eqb_neq p PlacementQuery)) by done. destruct (String.eqb p PlacementHeader); [done|].
      by destruct (String.eqb p PlacementCookie). }
  unfold place. destruct (String.eqb v ""); [by destruct (String.eqb p' PlacementHeader)|].
  destruct (String.eqb p PlacementPath); [by destruct (String.eqb p' PlacementHeader)|].
  destruct (String.eqb p PlacementQuery); [by destruct (String.eqb p' PlacementHeader)|].
  destruct (String.eqb_spec p PlacementHeader) as [->|Hh].
  { destruct Hu as (_ & Hh & _). destruct (Hh eq_refl) as [Hck _]. destruct (String.eqb_spec p' PlacementHeader) as [->|].
    - cbn. apply Header_Get_Set_ne. auto.
    - cbn. by rewrite Header_Get_Set_ne. }
  destruct (String.eqb_spec p PlacementCookie) as [->|]; [|by destruct (String.eqb p' PlacementHeader)].
  destruct (String.eqb_spec p' PlacementHeader) as [->|].
  - destruct Hu' as (_ & Hh' & _). destruct (Hh' eq_refl) as [Hck _]. cbn. unfold AddCookie. apply Header_Get_Set_ne.
    intros E. exact (Hck (eq_sym E)).
  - assert (p' = PlacementCookie) as -> by (by apply is_cookie). destruct Hu as (_ & _ & Hc). cbn.
    rewrite cookies_after by auto. apply Get_snoc_ne. intros E. apply Hne; [done|]. by rewrite E.
Qed.

Lemma CutPrefix_self p r : CutPrefix p (p +:+ r) = Some r.
Proof. by apply CutPrefix_Some. Qed.

Lemma url_safe_no_slash v : str_forallb url_safe v = true → str_has "/" v = false.
Proof. by apply (str_has_forallb "/" url_safe). Qed.

(** The server reads the session and the number that were put on a request,
    wherever its settings have them. *)
Lemma applyMeta_reads s session seq req : apart s → HasSuffix (Url.Path (rURL req)) "/" = true →
  session ≠ "" → str_forallb url_safe session = true → seq ≠ "" → str_forallb url_safe seq = true →
  (PlacementCookie ∈ [sessionPlacement s; seqPlacement s] → Header_Get (rHeader req) "Cookie" = "") →
  server_reads s (Url.Path (rURL req)) (applyMeta s session seq req) = (session, seq).
Proof.
  intros (Hp1 & Hp2 & Hu1 & Hu2 & Hne) Hsl Hs1 Hv1 Hs2 Hv2 Hck. unfold server_reads, applyMeta.
  pose proof (url_safe_no_slash session Hv1) as Hn1. pose proof (url_safe_no_slash seq Hv2) as Hn2.
  unfold str_has in Hn1, Hn2. apply negb_false_iff in Hn1, Hn2. f_equal.
  - rewrite !place_path by done. destruct (String.eqb_spec (sessionPlacement s) PlacementPath) as [E1|E1].
    + rewrite E1 in *. unfold read_at at 1. cbn [String.eqb]. change (String.eqb PlacementPath PlacementPath) with true. cbn iota.
      unfold appendPathSegment at 2 3. rewrite Hsl. destruct (String.eqb (seqPlacement s) PlacementPath).
      * unfold appendPathSegment. rewrite HasSuffix_app by (try done; by apply url_safe_no_slash).
        rewrite app_assoc_str, CutPrefix_self. change ("/" +:+ seq) with (String "/" seq). by rewrite split_byte_app.
      * rewrite CutPrefix_self. by rewrite split_byte_none.
    + rewrite place_keeps by (try done; intros E; symmetry in E; specialize (Hne E E1); congruence).
      apply place_reads; try done. intros E. rewrite Hck by (rewrite E; by left). apply not_elem_of_nil.
  - rewrite !place_path by done. destruct (String.eqb_spec (seqPlacement s) PlacementPath) as [E2|E2].
    + rewrite E2 in *. unfold read_at. change (String.eqb PlacementPath PlacementPath) with true. cbn iota.
      destruct (String.eqb (sessionPlacement s) PlacementPath); unfold appendPathSegment.
      * rewrite Hsl, HasSuffix_app by (try done; by apply url_safe_no_slash).
        rewrite app_assoc_str, CutPrefix_self. change ("/" +:+ seq) with (String "/" seq). rewrite split_byte_app by done.
        cbn [tail head default]. by rewrite split_byte_none.
      * rewrite Hsl, CutPrefix_self. by rewrite split_byte_none.
    + apply place_reads; try done. intros E. rewrite E in *.
      assert (Hc : Header_Get (rHeader req) "Cookie" = "") by (apply Hck; right; left).
      unfold place. rewrite (proj2 (String.eqb_neq session "")) by done.
      destruct (String.eqb (sessionPlacement s) PlacementPath); [cbn; rewrite Hc; apply not_elem_of_nil|].
      destruct (String.eqb (sessionPlacement s) PlacementQuery); [cbn; rewrite Hc; apply not_elem_of_nil|].
      destruct (String.eqb_spec (sessionPlacement s) PlacementHeader) as [E1|].
      { destruct Hu1 as (_ & Hh & _). destruct (Hh E1) as [Hx _]. cbn. rewrite Header_Get_Set_ne, Hc by done. apply not_elem_of_nil. }
      destruct (String.eqb_spec (sessionPlacement s) PlacementCookie) as [E1|]; [|rewrite Hc; apply not_elem_of_nil].
      destruct Hu1 as (_ & _ & Hx). cbn. rewrite cookies_after, Hc by auto. cbn.
      intros Hin%list_elem_of_singleton. apply (Hne E1); [by rewrite E1|]. by rewrite Hin.
Qed.

(** C22: A packet reaches its session.  For a dialer that was built for an
    authority that is a URL's host as it stands, with a link query of URL
    bytes, placements in path, query, header or cookie under keys that can be
    told apart, the payload in the body, no obfuscated padding, a padding
    range that excludes zero, a session of letters, digits and dashes, and no
    configured Cookie header where a cookie carries one of the two, the
    request of packet [seq] has the method, authority and payload; a server
    with the same settings reads from it exactly the session and the number;
    the rest of its query is the link's; and its Referer is the URL as it was
    before the two were added, with a padding whose length is in the range the
    server checks. *)
Theorem packets_reach_their_session `{GoQuote} (c : Config) (d : Dialer) (hs : list (string * string))
    HL read draw draws (session payload : string) (seq : Z) :
  New c = Ok d → plain_authority (Authority c) →
  let s := cSettings c in
  let '(path, query) := splitPathQuery (Path s) in
  str_forallb url_byte query = true → sane_settings s → XPaddingObfsMode s = false →
  apart s → uplinkDataPlacement s = PlacementBody →
  (PlacementCookie ∈ [sessionPlacement s; seqPlacement s] → Header_Get (header d hs) "Cookie" = "") →
  str_forallb token_byte (uplinkMethod s) = true → 1 <= From (paddingBytes s) →
  fair draw → session ≠ "" → str_forallb url_safe session = true → 0 <= seq →
  ∃ req n, packet_request HL read draw draws hs d session seq payload = Ok req ∧
    Method req = uplinkMethod s ∧ rHost req = Authority c ∧ rBody req = Bytes payload ∧
    Url.Scheme (rURL req) = Scheme c ∧ Url.Host (rURL req) = Authority c ∧
    server_reads s path req = (session, Itoa seq) ∧
    (∀ k, k ≠ sessionKey s → k ≠ seqKey s → Url.Get (Url.Query (rURL req)) k = Url.Get (query_of query) k) ∧
    within (paddingBytes s) n ∧
    ∃ u, Url.Parse (Header_Get (rHeader req) "Referer") = Some u ∧ Url.Path u = path ∧ Url.Host u = Authority c ∧
      Url.Get (Url.Query u) "x_padding" = Repeat "X" (Z.to_nat n).
Proof.
  intros HN Ha s. pose proof (base_parts c d HN Ha) as Hparse. apply New_inv in HN as (Hc & Hset & _ & Hne & Hsch & Hb).
  destruct (splitPathQuery_shape (Path s)) as [Hr Hsl].
  fold s in Hparse, Hb, Hset. cbv zeta in Hparse. destruct (splitPathQuery (Path s)) as [path query]. cbn [fst snd] in *.
  intros Hq Hs Hobfs Hap Hp3 Hck Hm Hpad Hf Hsess Hsafe Hseq.
  destruct (rand_within draw (paddingBytes s) Hf) as (n & Hn & Hw).
  { pose proof (drawn_ranges_sane s Hs) as Hd. by inversion Hd. }
  assert (1 <= n) as Hn1 by (unfold within in Hw; lia).
  unfold packet_request, newRequest. rewrite Hset, Hb. unfold NewRequest.
  assert (String.eqb (uplinkMethod s) "" = false) as ->.
  { unfold uplinkMethod, Link.or_default. by destruct (String.eqb (str s _) "") eqn:E. }
  rewrite Hm. cbn [negb]. rewrite Hparse by done. cbn [mbind option_bind]. cbn [Url.Host base_url].
  destruct Ha as (_ & Hno & Hrm). rewrite Hrm, Hc.
  rewrite (applyPadding_referer _ _ _ _ _ n) by done. cbn [rbind].
  set (req := with_header _ _).
  assert (Hitoa : Itoa seq ≠ "") by (unfold Itoa; rewrite (proj2 (Z.ltb_ge seq 0)) by lia; apply utoa_nonempty).
  assert (Hdig : str_forallb url_safe (Itoa seq) = true) by (apply Itoa_bytes; [by_bytes|done]).
  unfold attachPacketPayload. rewrite Hp3.
  change (String.eqb PlacementBody PlacementHeader) with false. change (String.eqb PlacementBody PlacementCookie) with false.
  cbn iota beta. exists (with_body (Bytes payload) (applyMeta s session (Itoa seq) req)), n. split; [done|].
  pose proof Hap as (_ & _ & Hu1 & Hu2 & _).
  pose proof (place_frame _ _ session req Hu1) as (F1 & F2 & _ & F4 & F5 & F6 & F7).
  pose proof (place_frame _ _ (Itoa seq) (place (sessionPlacement s) (sessionKey s) session req) Hu2) as (G1 & G2 & _ & G4 & G5 & G6 & G7).
  fold (applyMeta s session (Itoa seq) req) in G1, G2, G4, G5, G6, G7.
  cbn [with_body Method rHost rBody rURL rHeader]. rewrite G1, F1, G2, F2, G4, F4, G5, F5, G6, F6.
  split; [done|]. split; [done|]. split; [done|]. split; [done|]. split; [done|]. split; [|split; [|split; [done|]]].
  - apply (applyMeta_reads s session (Itoa seq) req); try done. intros Hin. cbn. rewrite Header_Get_Set_ne by done. by apply Hck.
  - intros k Hk1 Hk2. by rewrite G7, F7.
  - cbn. rewrite Header_Get_Set.
    exists (base_url (Scheme c) (Authority c) path ("x_padding=" +:+ Repeat "X" (Z.to_nat n))). split.
    + rewrite <- Hparse; [done|]. rewrite str_forallb_app, Repeat_forallb by done. done.
    + split; [done|]. split; [done|]. apply query_of_padding.
Qed.

Definition px_config : Config := {|
  hasDial := true; Scheme := "https"; Authority := "cdn.example:8443"; HTTPVersion := "2"; Reality := false;
  UserAgent := ""; cSettings := set_str "path" "api/v1?ed=2048" no_settings |}.

Definition px_dialer `{GoQuote} : Dialer :=
  match New px_config with Ok d => d | Err _ => {| cfg := px_config; settings := no_settings; dMode := "";
    baseURL := base_url "" "" "" ""; upload := false |} end.

Example px_request_path `{GoQuote} :
  (λ r, (Url.URL_String (rURL r), String.length (Header_Get (rHeader r) "Referer"))) <$>
    (match packet_request slen (λ _, None) px_draw (λ _, px_draw) [] px_dialer "s1" 7 "x" with Ok r => Some r | Err _ => None end) =
  Some ("https://cdn.example:8443/api/v1/s1/7?ed=2048", 1043%nat).
Proof. vm_compute. reflexivity. Qed.

Definition px_placed : Config := {|
  hasDial := true; Scheme := "https"; Authority := "cdn.example:8443"; HTTPVersion := "2"; Reality := false;
  UserAgent := ""; cSettings := set_str "sessionplacement" "header" (set_str "seqplacement" "cookie" (cSettings px_config)) |}.

Definition px_placed_dialer `{GoQuote} : Dialer :=
  match New px_placed with Ok d => d | Err _ => {| cfg := px_placed; settings := no_settings; dMode := "";
    baseURL := base_url "" "" "" ""; upload := false |} end.

Lemma packets_reach_their_session_witness :
  ∃ req, packet_request slen (λ _, None) px_draw (λ _, px_draw) [] (@px_placed_dialer quote_as_is) "s1" 7 "x" = Ok req ∧
    Header_Get (rHeader req) "X-Session" = "s1" ∧ Header_Get (rHeader req) "Cookie" = "x_seq=7".
Proof.
  pose proof (@packets_reach_their_session quote_as_is px_placed (@px_placed_dialer quote_as_is) [] slen (λ _, None) px_draw
    (λ _, px_draw) "s1" "x" 7) as H.
  change (splitPathQuery (Path (cSettings px_placed))) with ("/api/v1/", "ed=2048") in H.
  destruct H as (req & n & H & _).
  - vm_compute. reflexivity.
  - repeat split; vm_compute; reflexivity.
  - vm_compute. reflexivity.
  - intros f r Hr. vm_compute in Hr. discriminate Hr.
  - vm_compute. reflexivity.
  - change (sessionPlacement (cSettings px_placed)) with PlacementHeader. unfold apart.
    change (sessionPlacement (cSettings px_placed)) with PlacementHeader.
    change (seqPlacement (cSettings px_placed)) with PlacementCookie.
    split; [unfold placements; by repeat constructor|]. split; [unfold placements; by repeat constructor|].
    split; [split; [done|split; [by intros _|done]]|]. split; [split; [done|split; [done|by intros _]]|done].
  - vm_compute. reflexivity.
  - intros _. vm_compute. reflexivity.
  - vm_compute. reflexivity.
  - vm_compute. discriminate.
  - exact px_fair.
  - discriminate.
  - vm_compute. reflexivity.
  - discriminate.
  - exists req. split; [exact H|]. vm_compute in H. injection H as <-. split; reflexivity.
Defined.

End XhttpProps.
