(* ===== verification/XhttpConn.v ===== *)
(** * XhttpConn: the streams of the XHTTP transport
    ([internal/xhttp/conn.go], [DialContext] and [openStream] of [client.go],
    and the outbound that dials them, [internal/singboxext/outbound.go])

    The uplink of packet-up mode is a buffer that writers fill and one
    goroutine empties; its critical sections are the events of [ustep], which
    may come in any order.  The reader of a stream is what [set], [fail] and
    [Close] leave of it, in any order too.  [DialContext] is given what its
    selects chose. *)

From S2P Require Import Prelude GoStr GoUtf8 GoNet GoUrl GoUrlFacts GoHttp GoJson Schema Registry Link Vless Xhttp XhttpProps.

Local Open Scope string_scope.
Local Open Scope list_scope.
Local Open Scope Z_scope.

Module XhttpConn.
Import Http Schema Xhttp XhttpProps.

(** ** The uploader *)

(** Where the goroutine of [run] is: before its critical section, pacing with
    a chunk, posting it, returned. *)
Inductive runner := Idle | Pacing (chunk : string) | Posting (chunk : string) | Done.

(** The fields of [packetUploader], with its goroutine's variables; [accepted]
    are the bytes its writes have taken, [posted] the chunks the server has
    acknowledged with their numbers, [failed] the chunk a failed post had. *)
Record Uploader := {
  maxChunk : Z;
  buf : string;
  closed : bool;
  err : option string;
  cancelled : bool;
  run : runner;
  seq : Z;
  accepted : string;
  posted : list (Z * string);
  failed : string
}.

Definition ErrClosedPipe : string := "io: read/write on closed pipe".

Definition newPacketUploader (draw : Z → option Z) (s : Settings) : option Uploader :=
  n ← rand draw (maxEachPostBytes s);
  Some {| maxChunk := if n <=? 0 then 1000000 else n; buf := ""; closed := false; err := None; cancelled := false;
          run := Idle; seq := 0; accepted := ""; posted := []; failed := "" |}.

Definition set_buf (b : string) (u : Uploader) : Uploader := {|
  maxChunk := maxChunk u; buf := b; closed := closed u; err := err u; cancelled := cancelled u; run := run u;
  seq := seq u; accepted := accepted u; posted := posted u; failed := failed u |}.
Definition accept (b : string) (u : Uploader) : Uploader := {|
  maxChunk := maxChunk u; buf := buf u +:+ b; closed := closed u; err := err u; cancelled := cancelled u; run := run u;
  seq := seq u; accepted := accepted u +:+ b; posted := posted u; failed := failed u |}.
Definition set_run (r : runner) (u : Uploader) : Uploader := {|
  maxChunk := maxChunk u; buf := buf u; closed := closed u; err := err u; cancelled := cancelled u; run := r;
  seq := seq u; accepted := accepted u; posted := posted u; failed := failed u |}.
Definition set_closed (u : Uploader) : Uploader := {|
  maxChunk := maxChunk u; buf := buf u; closed := true; err := err u; cancelled := cancelled u; run := run u;
  seq := seq u; accepted := accepted u; posted := posted u; failed := failed u |}.
Definition set_cancelled (u : Uploader) : Uploader := {|
  maxChunk := maxChunk u; buf := buf u; closed := closed u; err := err u; cancelled := true; run := run u;
  seq := seq u; accepted := accepted u; posted := posted u; failed := failed u |}.
Definition acknowledge (chunk : string) (u : Uploader) : Uploader := {|
  maxChunk := maxChunk u; buf := buf u; closed := closed u; err := err u; cancelled := cancelled u; run := Idle;
  seq := seq u + 1; accepted := accepted u; posted := posted u ++ [(seq u, chunk)]; failed := failed u |}.
Definition fail_with (e chunk : string) (u : Uploader) : Uploader := {|
  maxChunk := maxChunk u; buf := buf u; closed := closed u;
  err := match err u with None => Some e | old => old end; cancelled := cancelled u; run := Done;
  seq := seq u; accepted := accepted u; posted := posted u; failed := chunk |}.

Definition skip (n : Z) (s : string) : string :=
  String.substring (Z.to_nat n) (String.length s - Z.to_nat n) s.
Definition take (n : Z) (s : string) : string := String.substring 0 (Z.to_nat n) s.

(** How a stretch of [Write] between two waits ends. *)
Inductive write_end := Waits | Returns (e : option string).

(** The loop of [Write] from where the lock is held to the next wait or the
    return, with the bytes that are left; [None] is running out of fuel. *)
Fixpoint write_loop (fuel : nat) (u : Uploader) (b : string) : option (Uploader * string * write_end) :=
  match b with
  | "" => Some (u, "", Returns None)
  | _ =>
      if (maxChunk u <=? slen (buf u)) && negb (closed u) && bool_decide (err u = None) then Some (u, b, Waits)
      else if closed u then Some (u, b, Returns (Some ErrClosedPipe))
      else match err u with
           | Some e => Some (u, b, Returns (Some e))
           | None =>
               match fuel with
               | O => None
               | S fuel =>
                   let n := Z.min (maxChunk u - slen (buf u)) (slen b) in
                   write_loop fuel (accept (take n b) u) (skip n b)
               end
           end
  end.

(** The critical section of [run]: the guard of its wait, its return, and the
    chunk it takes. *)
Definition run_section (u : Uploader) : option Uploader :=
  if String.eqb (buf u) "" && negb (closed u) && bool_decide (err u = None) then None
  else if negb (bool_decide (err u = None)) || (closed u && String.eqb (buf u) "") then Some (set_run Done u)
  else
    let n := Z.min (maxChunk u) (slen (buf u)) in
    Some (set_run (Pacing (take n (buf u))) (set_buf (skip n (buf u)) u)).

(** What can happen: a stretch of a [Write] with [b] left; the goroutine's
    critical section; the end of its pacing, or its abort; the answer to its
    post; [stop], before and after it waits for the goroutine. *)
Inductive uevent := EWrite (b : string) | ETake | EPaced | EAborted | EPosted (e : option string) | EStop | ECancel.

(** [None] is an event that cannot happen. *)
Definition ustep (u : Uploader) (e : uevent) : option Uploader :=
  match e, run u with
  | EWrite b, _ => '(u, _, _) ← write_loop (String.length b) u b; Some u
  | ETake, Idle => run_section u
  | EPaced, Pacing c => Some (set_run (Posting c) u)
  | EAborted, Pacing c => if cancelled u then Some (set_run Done u) else None
  | EPosted None, Posting c => Some (acknowledge c u)
  | EPosted (Some e), Posting c => Some (fail_with e c u)
  | EStop, _ => Some (set_closed u)
  | ECancel, Done => if closed u then Some (set_cancelled u) else None
  | _, _ => None
  end.

Fixpoint usteps (u : Uploader) (es : list uevent) : option Uploader :=
  match es with
  | [] => Some u
  | e :: es => u ← ustep u e; usteps u es
  end.

(** What the goroutine does next if its posts succeed. *)
Definition next_event (u : Uploader) : uevent :=
  match run u with Idle => ETake | Pacing _ => EPaced | _ => EPosted None end.

Fixpoint drain (k : nat) (u : Uploader) : Uploader :=
  match k with
  | O => u
  | S k => match run u with
           | Done => u
           | _ => match ustep u (next_event u) with Some u => drain k u | None => u end
           end
  end.

(** *** Nothing is lost, reordered or oversized *)

Definition in_flight (r : runner) : string := match r with Pacing c | Posting c => c | _ => "" end.

Record uploader_ok (u : Uploader) : Prop := {
  ok_max : 1 <= maxChunk u;
  ok_buf : slen (buf u) <= maxChunk u;
  ok_flow : accepted u = concat_str (snd <$> posted u) +:+ in_flight (run u) +:+ failed u +:+ buf u;
  ok_seq : seq u = Z.of_nat (length (posted u));
  ok_posted : ∀ i n c, posted u !! i = Some (n, c) → n = Z.of_nat i ∧ 1 <= slen c <= maxChunk u;
  ok_flight : ∀ c, run u = Pacing c ∨ run u = Posting c → 1 <= slen c <= maxChunk u;
  ok_failed : err u = None → failed u = "";
  ok_err : err u ≠ None → run u = Done;
  ok_done : run u = Done → err u = None → closed u = true ∧ buf u = "";
  ok_cancelled : cancelled u = true → run u = Done
}.

Lemma take_skip n s : 0 <= n <= slen s → s = take n s +:+ skip n s ∧ slen (take n s) = n ∧ slen (skip n s) = slen s - n.
Proof.
  unfold slen, take, skip. intros Hn. destruct (cut_at (Z.to_nat n) s) as (E & H1 & H2); [lia|].
  rewrite H1, H2. split; [done|lia].
Qed.

Lemma slen_0 s : slen s = 0 → s = "".
Proof. unfold slen. destruct s; [done|cbn; lia]. Qed.

Lemma slen_app a b : slen (a +:+ b) = slen a + slen b.
Proof. unfold slen. rewrite length_app_str. lia. Qed.

Lemma take_all s : take (slen s) s = s ∧ skip (slen s) s = "".
Proof.
  destruct (take_skip (slen s) s) as (E & _ & H2); [unfold slen; lia|].
  rewrite Z.sub_diag in H2. apply slen_0 in H2. rewrite H2, app_nil_str in E. done.
Qed.

Lemma accept_ok u b : uploader_ok u → closed u = false → err u = None → slen (buf u) + slen b <= maxChunk u →
  uploader_ok (accept b u).
Proof.
  intros [] Hc He Hl. split; cbn; try done.
  - by rewrite slen_app.
  - rewrite ok_flow0. by rewrite !app_assoc_str.
  - intros Hd Hn. destruct (ok_done0 Hd Hn). congruence.
Qed.

(** A stretch of a write takes a prefix, and stops for one of four reasons. *)
Lemma write_loop_spec fuel u b : uploader_ok u → (String.length b <= fuel)%nat →
  ∃ u' rest e t, write_loop fuel u b = Some (u', rest, e) ∧ uploader_ok u' ∧ b = t +:+ rest ∧
    u' = accept t u ∧
    match e with
    | Returns None => rest = ""
    | Waits => rest ≠ "" ∧ slen (buf u') = maxChunk u ∧ closed u = false ∧ err u = None
    | Returns (Some x) => rest = b ∧ (closed u = true ∧ x = ErrClosedPipe ∨ err u = Some x)
    end.
Proof.
  assert (Hid : ∀ u : Uploader, accept "" u = u) by (intros []; unfold accept; cbn; by rewrite !app_nil_str).
  revert u b. induction fuel as [|fuel IH]; intros u b Hok Hl.
  { destruct b; [|cbn in Hl; lia]. exists u, "", (Returns None), "". by rewrite Hid. }
  destruct b as [|c b]; [exists u, "", (Returns None), ""; by rewrite Hid|].
  cbn [write_loop]. set (w := String c b) in *.
  assert (1 <= slen w) as Hw by (unfold slen, w; cbn; lia).
  destruct (_ && _ && _) eqn:Hwait.
  { exists u, w, Waits, "". rewrite Hid.
    apply andb_true_iff in Hwait as [[?%Z.leb_le ?%negb_true_iff]%andb_true_iff ?%bool_decide_eq_true].
    pose proof (ok_buf u Hok). split_and!; try done. lia. }
  destruct (closed u) eqn:Hc; [exists u, w, (Returns (Some ErrClosedPipe)), ""; rewrite Hid; eauto 10|].
  destruct (err u) as [x|] eqn:He; [exists u, w, (Returns (Some x)), ""; rewrite Hid; eauto 10|].
  rewrite bool_decide_true in Hwait by done. cbn [negb] in Hwait. rewrite !andb_true_r in Hwait. apply Z.leb_gt in Hwait.
  set (n := Z.min (maxChunk u - slen (buf u)) (slen w)).
  destruct (take_skip n w) as (E & L1 & L2); [lia|].
  destruct (IH (accept (take n w) u) (skip n w)) as (u' & rest & e & t & -> & Hok' & Ht & -> & He').
  { apply accept_ok; try done. rewrite L1. lia. }
  { unfold slen in *. lia. }
  exists (accept (take n w +:+ t) u), rest, e, (take n w +:+ t).
  assert (accept t (accept (take n w) u) = accept (take n w +:+ t) u) as Ea.
  { unfold accept. cbn. by rewrite !app_assoc_str. }
  rewrite Ea in *. split_and!; try done; [by rewrite app_assoc_str, <- Ht|].
  destruct e as [|[x|]]; [|cbn in He'|done].
  - destruct He' as (? & ? & _). done.
  - destruct He' as (_ & [[? _]|?]); congruence.
Qed.

Lemma slen_pos s : s ≠ "" → 1 <= slen s.
Proof. unfold slen. destruct s; [done|cbn; lia]. Qed.

Definition chunk_size (u : Uploader) : Z := Z.min (maxChunk u) (slen (buf u)).

Lemma take_ok u : uploader_ok u → run u = Idle → err u = None → buf u ≠ "" →
  uploader_ok (set_run (Pacing (take (chunk_size u) (buf u))) (set_buf (skip (chunk_size u) (buf u)) u)).
Proof.
  intros [] Hr He Hb. pose proof (slen_pos _ Hb).
  destruct (take_skip (chunk_size u) (buf u)) as (E & L1 & L2); [unfold chunk_size; lia|].
  unfold chunk_size in *. split; cbn; try done.
  - lia.
  - rewrite ok_flow0, Hr, ok_failed0 by done. cbn. by rewrite E at 1.
  - intros d [[= <-]|]; [lia|done].
  - by intros ?%ok_cancelled0; rewrite Hr in *.
Qed.

Lemma finish_ok u : uploader_ok u → run u = Idle → closed u = true → buf u = "" → uploader_ok (set_run Done u).
Proof.
  intros [] Hr Hc Hb. split; cbn; try done.
  - by rewrite ok_flow0, Hr.
  - by intros d [|].
Qed.

Lemma concat_str_snoc l c : concat_str (l ++ [c]) = concat_str l +:+ c.
Proof.
  induction l as [|y l IH]; cbn; [by rewrite app_nil_str|]. unfold concat_str in IH. by rewrite IH, app_assoc_str.
Qed.

Lemma acknowledge_ok u c : uploader_ok u → run u = Posting c → uploader_ok (acknowledge c u).
Proof.
  intros [] Hr. assert (He : err u = None).
  { destruct (err u); [|done]. rewrite ok_err0 in Hr by done. done. }
  split; cbn; try done.
  - rewrite ok_flow0, Hr, ok_failed0, fmap_app by done. cbn [in_flight fmap list_fmap].
    by rewrite concat_str_snoc, !app_assoc_str.
  - rewrite length_app. cbn. lia.
  - intros i n d. rewrite lookup_app_Some, list_lookup_singleton_Some.
    intros [Hi|(Hl & Hi & [= <- <-])]; [by apply ok_posted0|]. split; [lia|]. apply ok_flight0. by right.
  - by intros d [|].
  - by intros ?%ok_cancelled0; rewrite Hr in *.
Qed.

Lemma fail_ok u e c : uploader_ok u → run u = Posting c → uploader_ok (fail_with e c u).
Proof.
  intros [] Hr. assert (He : err u = None).
  { destruct (err u); [|done]. rewrite ok_err0 in Hr by done. done. }
  split; cbn; try done; rewrite ?He; try done.
  - by rewrite ok_flow0, Hr, ok_failed0.
  - by intros d [|].
Qed.

Lemma ustep_ok u e u' : uploader_ok u → ustep u e = Some u' → uploader_ok u'.
Proof.
  intros Hok. destruct e as [b| | | |r| |]; cbn [ustep].
  - destruct (write_loop_spec (String.length b) u b Hok) as (u1 & rest & en & t & -> & H & _); [done|].
    cbn. by intros [= <-].
  - destruct (run u) eqn:Hr; try done. unfold run_section.
    assert (err u = None) as He.
    { destruct (err u) eqn:E; [|done]. pose proof (ok_err u Hok) as H. rewrite E, Hr in H. by specialize (H ltac:(done)). }
    rewrite He, bool_decide_true by done. cbn [negb orb]. rewrite andb_true_r.
    destruct (String.eqb_spec (buf u) "") as [Hb|Hb]; cbn [andb].
    + destruct (closed u) eqn:Hc; [|done]. intros [= <-]. by apply finish_ok.
    + rewrite andb_false_r. intros [= <-]. by apply take_ok.
  - destruct (run u) as [|c| |] eqn:Hr; try done. intros [= <-]. destruct Hok. split; cbn; try done.
    + by rewrite ok_flow0, Hr.
    + intros d [|[= <-]]; [done|]. apply ok_flight0. by left.
    + by intros ?%ok_err0; rewrite Hr in *.
    + by intros ?%ok_cancelled0; rewrite Hr in *.
  - destruct (run u) as [|c| |] eqn:Hr; try done. destruct (cancelled u) eqn:Hc; [|done].
    apply (ok_cancelled u Hok) in Hc. congruence.
  - destruct r as [x|], (run u) as [| |c|] eqn:Hr; try done; intros [= <-]; [by apply fail_ok|by apply acknowledge_ok].
  - intros [= <-]. destruct Hok. split; cbn; try done. intros Hd Hn. by destruct (ok_done0 Hd Hn).
  - destruct (run u) eqn:Hr; try done. destruct (closed u) eqn:Hc; [|done]. intros [= <-].
    destruct Hok. split; cbn; try done.
Qed.

Lemma usteps_ok u es u' : uploader_ok u → usteps u es = Some u' → uploader_ok u'.
Proof.
  revert u. induction es as [|e es IH]; intros u Hok; cbn; [by intros [= <-]|].
  destruct (ustep u e) as [u1|] eqn:E; cbn; [|done]. apply IH. by eapply ustep_ok.
Qed.

Lemma new_uploader_ok draw s : fair draw → sane_settings s →
  ∃ u, newPacketUploader draw s = Some u ∧ uploader_ok u.
Proof.
  intros Hf Hs. pose proof (drawn_ranges_sane s Hs) as Hd. unfold drawn_ranges in Hd. rewrite !Forall_cons in Hd.
  destruct Hd as (_ & Hd & _). destruct (rand_within draw _ Hf Hd) as (n & Hn & _).
  unfold newPacketUploader. rewrite Hn. cbn. eexists. split; [done|]. split; cbn; try done.
  - destruct (n <=? 0) eqn:H0; propify; lia.
  - change (slen "") with 0. destruct (n <=? 0) eqn:H0; propify; lia.
  - by intros c [|].
Qed.

(** C19: The uplink arrives as it was written.  From a new uploader, whatever
    the writers, the goroutine, the server's answers and [stop] do and in
    whatever order, the chunks the server has acknowledged are numbered from
    zero, are not empty and not larger than the post size; followed by the
    chunk in flight, the one whose post failed and the buffer they are exactly
    the bytes the writes took; the buffer never exceeds one chunk; and once
    the goroutine has returned without a failure everything has arrived. *)
Theorem uploads_arrive_in_order (draw : Z → option Z) (s : Settings) (u0 u : Uploader) (es : list uevent) :
  fair draw → sane_settings s → newPacketUploader draw s = Some u0 → usteps u0 es = Some u →
  (∀ i n c, posted u !! i = Some (n, c) → n = Z.of_nat i ∧ 1 <= slen c <= maxChunk u) ∧
  accepted u = concat_str (snd <$> posted u) +:+ in_flight (run u) +:+ failed u +:+ buf u ∧
  slen (buf u) <= maxChunk u ∧
  (run u = Done → err u = None → closed u = true ∧ concat_str (snd <$> posted u) = accepted u) ∧
  (cancelled u = true → run u = Done).
Proof.
  intros Hf Hs Hn Hst. destruct (new_uploader_ok draw s Hf Hs) as (u1 & Hn1 & Hok). rewrite Hn in Hn1.
  injection Hn1 as <-. apply (usteps_ok _ _ _ Hok) in Hst as []. split_and!; try done.
  intros Hd He. destruct (ok_done0 Hd He) as [Hc Hb]. split; [done|].
  by rewrite ok_flow0, Hd, Hb, ok_failed0, !app_nil_str.
Qed.

Lemma drain_done k u : run u = Done → drain k u = u.
Proof. intros Hr. destruct k; [done|]. cbn. by rewrite Hr. Qed.

Lemma drain_step k u u' : ustep u (next_event u) = Some u' → run u ≠ Done → drain (S k) u = drain k u'.
Proof. intros Hs Hr. cbn [drain]. rewrite Hs. by destruct (run u). Qed.

Lemma run_section_closed u : err u = None → closed u = true → run_section u =
  Some (if String.eqb (buf u) "" then set_run Done u
        else set_run (Pacing (take (chunk_size u) (buf u))) (set_buf (skip (chunk_size u) (buf u)) u)).
Proof.
  intros He Hc. unfold run_section. rewrite He, Hc, bool_decide_true by done. cbn [negb andb orb].
  rewrite andb_false_r. cbn [andb]. by destruct (String.eqb (buf u) "").
Qed.

(** The goroutine at its loop's head, once the uploader is closed: it posts
    what is buffered and returns. *)
Lemma drain_idle k u : uploader_ok u → run u = Idle → closed u = true → err u = None →
  ∃ u', drain (4 + k) u = u' ∧ run u' = Done ∧ err u' = None ∧
    concat_str (snd <$> posted u') = accepted u ∧ (length (posted u') <= length (posted u) + 1)%nat.
Proof.
  intros Hok Hr Hc He. destruct Hok. rewrite Hr, ok_failed0 in ok_flow0 by done. cbn [in_flight] in ok_flow0.
  change (4 + k)%nat with (S (S (S (S k)))).
  erewrite drain_step; [|unfold ustep, next_event; rewrite Hr; by apply run_section_closed|by rewrite Hr].
  destruct (String.eqb_spec (buf u) "") as [Hb|Hb].
  { rewrite drain_done by done. eexists. split; [done|]. split_and!; [done|done| |cbn; lia].
    cbn. rewrite ok_flow0, Hb. change ("" +:+ ?x) with x. by rewrite !app_nil_str. }
  unfold chunk_size. rewrite Z.min_r by lia. destruct (take_all (buf u)) as [-> ->].
  erewrite drain_step; [|done|done]. erewrite drain_step; [|done|done].
  erewrite drain_step; [|unfold ustep, next_event; cbn [run acknowledge]; by apply run_section_closed|done].
  rewrite drain_done by done. eexists. split; [done|]. split_and!; [done|done| |].
  - cbn. rewrite fmap_app. cbn. by rewrite concat_str_snoc, ok_flow0.
  - cbn. rewrite length_app. cbn. lia.
Qed.

(** C20: Closing the stream sends what was written.  In every state an uploader
    can be in, once it is closed and no post has failed, its goroutine is
    never stuck: with answers to its posts it returns within six steps and two
    posts, and then the server has acknowledged every byte the writes took,
    in order. *)
Theorem close_sends_what_was_written (draw : Z → option Z) (s : Settings) (u0 u : Uploader) (es : list uevent) :
  fair draw → sane_settings s → newPacketUploader draw s = Some u0 → usteps u0 es = Some u →
  closed u = true → err u = None →
  ∃ u', drain 6 u = u' ∧ run u' = Done ∧ err u' = None ∧
    concat_str (snd <$> posted u') = accepted u ∧ (length (posted u') <= length (posted u) + 2)%nat.
Proof.
  intros Hf Hs Hn Hst Hc He. destruct (new_uploader_ok draw s Hf Hs) as (u1 & Hn1 & Hok). rewrite Hn in Hn1.
  injection Hn1 as <-. apply (usteps_ok _ _ _ Hok) in Hst.
  assert (Hpost : ∀ k w c, uploader_ok w → run w = Posting c → closed w = true → err w = None →
    ∃ u', drain (5 + k) w = u' ∧ run u' = Done ∧ err u' = None ∧
      concat_str (snd <$> posted u') = accepted w ∧ (length (posted u') <= length (posted w) + 2)%nat).
  { intros k w c Hw Hr Hcw Hew. change (5 + k)%nat with (S (4 + k)).
    erewrite drain_step; [|unfold ustep, next_event; by rewrite Hr|by rewrite Hr].
    destruct (drain_idle k (acknowledge c w)) as (u' & Hd & H1 & H2 & H3 & H4); try done; [by apply acknowledge_ok|].
    exists u'. split_and!; try done. cbn in H4. rewrite length_app in H4. cbn in H4. lia. }
  destruct (run u) as [|c|c|] eqn:Hr.
  - destruct (drain_idle 2 u) as (u' & ? & ? & ? & ? & ?); try done. exists u'. split_and!; try done. lia.
  - change 6%nat with (S 5). assert (Hp : ustep u EPaced = Some (set_run (Posting c) u)) by (unfold ustep; by rewrite Hr).
    pose proof (ustep_ok _ _ _ Hst Hp) as Hok2.
    erewrite drain_step; [|unfold ustep, next_event; by rewrite Hr|by rewrite Hr].
    exact (Hpost 0%nat (set_run (Posting c) u) c Hok2 eq_refl Hc He).
  - by apply (Hpost 1%nat _ c).
  - rewrite drain_done by done. exists u. split_and!; try done; [|lia]. destruct Hst.
    destruct (ok_done0 Hr He) as [_ Hb]. by rewrite ok_flow0, Hr, Hb, ok_failed0, !app_nil_str.
Qed.

(** *** On a stream *)

Definition ux_settings : Settings := set_range "scmaxeachpostbytes" {| From := 4; To := 4 |} no_settings.
Definition ux_events : list uevent :=
  [EWrite "hello world"; ETake; EWrite "o world"; EPaced; EPosted None; ETake; EStop; EPaced].

Example ux_run :
  (λ u, (posted u, run u, buf u, accepted u)) <$> (u ← newPacketUploader px_draw ux_settings; usteps u ux_events) =
  Some ([(0, "hell")], Posting "o wo", "", "hello wo").
Proof. vm_compute. reflexivity. Qed.

Definition ux_new : Uploader := default
  {| maxChunk := 0; buf := ""; closed := false; err := None; cancelled := false; run := Done; seq := 0;
     accepted := ""; posted := []; failed := "" |} (newPacketUploader px_draw ux_settings).

Lemma ux_sane : sane_settings ux_settings.
Proof.
  intros f r. change (ranges ux_settings) with (<["scmaxeachpostbytes" := {| From := 4; To := 4 |}]> (∅ : gmap string Range)).
  intros [[_ <-]|[_ ?]]%lookup_insert_Some; [unfold sane; cbn; lia|done].
Qed.

Lemma uploads_arrive_in_order_witness :
  ∃ u, usteps ux_new (ux_events ++ [EPosted None; ETake]) = Some u ∧ concat_str (snd <$> posted u) = "hello wo".
Proof.
  eexists. split; [vm_compute; reflexivity|].
  match goal with |- concat_str (snd <$> posted ?u) = _ =>
    destruct (uploads_arrive_in_order px_draw ux_settings ux_new u (ux_events ++ [EPosted None; ETake]))
      as (_ & _ & _ & Hd & _) end; [exact px_fair|exact ux_sane|reflexivity|vm_compute; reflexivity|].
  destruct Hd as [_ Hd]; [reflexivity|reflexivity|]. exact Hd.
Defined.

Lemma close_sends_what_was_written_witness :
  ∃ u u', usteps ux_new ux_events = Some u ∧ drain 6 u = u' ∧ run u' = Done.
Proof.
  eexists _, _. split; [vm_compute; reflexivity|]. split; [reflexivity|].
  match goal with |- run (drain 6 ?u) = _ =>
    destruct (close_sends_what_was_written px_draw ux_settings ux_new u ux_events)
      as (u' & Hd & Hr & _) end; [exact px_fair|exact ux_sane|reflexivity|vm_compute; reflexivity|reflexivity|reflexivity|].
  by rewrite Hd.
Defined.

(** ** The reader of a stream *)

(** [pendingReader]: whether its once has run, what it holds, whether its
    request was cancelled, and the bodies that have been closed. *)
Record PendingReader := {
  decided : bool;
  body : option nat;
  rerr : option string;
  rcancelled : bool;
  closedBodies : gset nat
}.

Inductive rcall := RSet (b : nat) | RFail (e : string) | RClose.

#[export] Instance rcall_eq_dec : EqDecision rcall.
Proof. solve_decision. Defined.

Definition new_reader : PendingReader :=
  {| decided := false; body := None; rerr := None; rcancelled := false; closedBodies := ∅ |}.

Definition close_body (b : nat) (r : PendingReader) : PendingReader := {|
  decided := decided r; body := body r; rerr := rerr r; rcancelled := rcancelled r;
  closedBodies := {[b]} ∪ closedBodies r |}.

Definition reader_set (b : nat) (r : PendingReader) : PendingReader :=
  let r := if decided r then r
           else {| decided := true; body := Some b; rerr := rerr r; rcancelled := rcancelled r;
                   closedBodies := closedBodies r |} in
  if bool_decide (body r = Some b) then r else close_body b r.

Definition reader_fail (e : string) (r : PendingReader) : PendingReader :=
  if decided r then r
  else {| decided := true; body := body r; rerr := Some e; rcancelled := rcancelled r; closedBodies := closedBodies r |}.

Definition ErrClosed : string := "use of closed network connection".

Definition reader_close (r : PendingReader) : PendingReader :=
  let r := reader_fail ErrClosed r in
  let r := {| decided := decided r; body := body r; rerr := rerr r; rcancelled := true; closedBodies := closedBodies r |} in
  match body r with Some b => close_body b r | None => r end.

Definition reader_call (r : PendingReader) (c : rcall) : PendingReader :=
  match c with RSet b => reader_set b r | RFail e => reader_fail e r | RClose => reader_close r end.

(** What [Read] does: it blocks, fails, is at the end, or reads the body. *)
Inductive read_result := Blocks | ReadErr (e : string) | EOF | ReadsBody (b : nat).

Definition reader_read (r : PendingReader) : read_result :=
  if negb (decided r) then Blocks
  else match rerr r with
       | Some e => ReadErr e
       | None => match body r with Some b => ReadsBody b | None => EOF end
       end.

(** A body is held only once decided; a body that was set is held or closed;
    after [Close] what is held is closed. *)
Definition reader_inv (r : PendingReader) : Prop := is_Some (body r) → decided r = true.
Definition tracked (b : nat) (r : PendingReader) : Prop := b ∈ closedBodies r ∨ body r = Some b.
Definition shut (r : PendingReader) : Prop :=
  decided r = true ∧ rcancelled r = true ∧ ∀ b, body r = Some b → b ∈ closedBodies r.

Lemma reader_call_inv r c : reader_inv r → reader_inv (reader_call r c).
Proof.
  unfold reader_inv. destruct r as [[] bo e ca cl], c as [b|x|]; cbn; unfold reader_set, reader_fail, reader_close; cbn;
    repeat case_bool_decide; try done; by destruct bo.
Qed.

Lemma reader_call_tracked b r c : reader_inv r → tracked b r → tracked b (reader_call r c).
Proof.
  destruct r as [d bo e ca cl]. unfold reader_inv, tracked. cbn [body decided closedBodies].
  intros Hi Ht. destruct c as [b'|e'|]; cbn [reader_call]; unfold reader_set, reader_close, reader_fail; cbn [decided].
  - destruct d; cbn [body]; [case_bool_decide; cbn; set_solver|].
    destruct bo; [by specialize (Hi ltac:(by eexists))|]. rewrite bool_decide_true by done. cbn. set_solver.
  - destruct d; cbn; set_solver.
  - destruct d, bo; cbn; set_solver.
Qed.

Lemma reader_set_tracked b r : tracked b (reader_call r (RSet b)).
Proof. unfold tracked. cbn. unfold reader_set. case_bool_decide; [by right|left; cbn; set_solver]. Qed.

Lemma reader_close_shut r : shut (reader_call r RClose).
Proof. destruct r as [[] [b|] ? ? ?]; (split; [done|]; split; [done|]); cbn; intros ? [= ->]; set_solver. Qed.

Lemma reader_call_shut r c : shut r → shut (reader_call r c).
Proof.
  destruct r as [d bo e ca cl]. intros (Hd & Hc & Hb). cbn in Hd, Hc, Hb. subst d ca.
  destruct c as [b'|e'|]; [|by split|apply reader_close_shut].
  cbn [reader_call]. unfold reader_set. cbn [decided]. case_bool_decide; (split; [done|]; split; [done|]); cbn; [done|].
  intros b Hbo. specialize (Hb b Hbo). set_solver.
Qed.

(** A stream's reader leaks no response.  Whatever the order in which the
    response arrives, the request fails and the stream is closed, and however
    often, a response body handed to the reader is closed or the one it holds;
    once the stream has been closed all of them are, and the request is
    cancelled; and a read never blocks again. *)
Theorem reader_leaks_no_body (calls : list rcall) :
  let r := foldl reader_call new_reader calls in
  (∀ b, RSet b ∈ calls → b ∈ closedBodies r ∨ body r = Some b ∧ RClose ∉ calls) ∧
  (RClose ∈ calls → rcancelled r = true ∧ reader_read r ≠ Blocks).
Proof.
  assert (Hall : ∀ cs r, reader_inv r →
    (∀ b, tracked b r ∨ RSet b ∈ cs → tracked b (foldl reader_call r cs)) ∧
    (shut r ∨ RClose ∈ cs → shut (foldl reader_call r cs))).
  { induction cs as [|c cs IH]; intros r Hi.
    { split; [intros b|]; intros [H|H]; try done; by apply elem_of_nil in H. }
    cbn [foldl]. destruct (IH (reader_call r c) (reader_call_inv r c Hi)) as [IH1 IH2]. split.
    - intros b [H|[<-|H]%elem_of_cons]; apply IH1; [left; by apply reader_call_tracked| |by right].
      left. apply reader_set_tracked.
    - intros [H|[<-|H]%elem_of_cons]; apply IH2; [left; by apply reader_call_shut| |by right].
      left. apply reader_close_shut. }
  destruct (Hall calls new_reader) as [H1 H2]; [by intros [? ?]|]. cbv zeta. split.
  - intros b Hb. destruct (H1 b (or_intror Hb)) as [|Hbo]; [by left|].
    destruct (decide (RClose ∈ calls)) as [Hc|]; [|by right]. left. by apply (H2 (or_intror Hc)).
  - intros Hc. destruct (H2 (or_intror Hc)) as (Hd & Hcc & _). split; [done|]. unfold reader_read. rewrite Hd. cbn.
    by repeat case_match.
Qed.

Lemma reader_leaks_no_body_witness :
  let r := foldl reader_call new_reader [RSet 1%nat; RClose; RSet 2%nat] in
  2%nat ∈ closedBodies r ∧ reader_read r ≠ Blocks.
Proof.
  destruct (reader_leaks_no_body [RSet 1%nat; RClose; RSet 2%nat]) as [H1 H2]. split.
  - destruct (H1 2%nat) as [H|[_ H]]; [apply list_elem_of_In; right; right; left; reflexivity|exact H|].
    exfalso. apply H. apply list_elem_of_In. right. left. reflexivity.
  - apply H2. apply list_elem_of_In. right. left. reflexivity.
Defined.

(** ** Opening a stream *)

Inductive waitMode := waitResponse | waitResponseBrief | waitConnected.

(** What the two selects of [openStream] find; the second is not reached when
    only the connection is waited for. *)
Inductive choice1 := Connected | Failed (e : string) | CtxDone.
Inductive choice2 := Responded | Failed2 (e : string) | Grace | CtxDone2.

Definition ErrCtx : string := "context canceled".

(** The error, and whether the reader was closed; a request that failed has
    closed what it had. *)
Definition openStream (wait : waitMode) (c1 : choice1) (c2 : choice2) : option (string * bool) :=
  match c1 with
  | Failed e => Some (e, false)
  | CtxDone => Some (ErrCtx, true)
  | Connected =>
      match wait with
      | waitConnected => None
      | _ => match c2 with
             | Responded | Grace => None
             | Failed2 e => Some (e, false)
             | CtxDone2 => Some (ErrCtx, true)
             end
      end
  end.

(** What a stream is made of: the pipe of an uplink body, the reader of the
    downlink, the uploader. *)
Inductive part := Pipe | Downlink | Packets.

#[export] Instance part_eq_dec : EqDecision part.
Proof. solve_decision. Defined.
#[export] Instance part_countable : Countable part.
Proof. refine (inj_countable' (λ p, match p with Pipe => 0%nat | Downlink => 1%nat | Packets => 2%nat end)
  (λ n, match n with O => Pipe | S O => Downlink | _ => Packets end) _). by intros []. Defined.

(** A request of [DialContext]: its session, whether it carries the uplink,
    and how long it is waited for. *)
Record Opening := { oSession : string; oUplink : bool; oWait : waitMode }.

(** What [DialContext] leaves: the reader and the writer of the connection or
    the error, what is still open, and the requests made. *)
Record Dialled := { conn : result string (part * part); open_ : gset part; requests : list Opening }.

(** [outcome n] is what the selects of the [n]th [openStream] find. *)
Definition DialContext (d : Dialer) (newSessionID : string) (outcome : nat → choice1 * choice2) : Dialled :=
  let sessionID := if String.eqb (dMode d) ModeStreamOne then "" else newSessionID in
  let open_stream n w := openStream w (fst (outcome n)) (snd (outcome n)) in
  let req up w := {| oSession := sessionID; oUplink := up; oWait := w |} in
  if String.eqb (dMode d) ModeStreamOne then
    match open_stream 0%nat waitResponseBrief with
    | Some (e, _) => {| conn := Err e; open_ := ∅; requests := [req true waitResponseBrief] |}
    | None => {| conn := Ok (Downlink, Pipe); open_ := {[Pipe; Downlink]}; requests := [req true waitResponseBrief] |}
    end
  else if String.eqb (dMode d) ModeStreamUp then
    match open_stream 0%nat waitResponse with
    | Some (e, _) => {| conn := Err e; open_ := ∅; requests := [req false waitResponse] |}
    | None =>
        match open_stream 1%nat waitConnected with
        | Some (e, _) => {| conn := Err e; open_ := {[Pipe; Downlink]} ∖ {[Pipe; Downlink]};
                            requests := [req false waitResponse; req true waitConnected] |}
        | None => {| conn := Ok (Downlink, Pipe); open_ := {[Pipe; Downlink]};
                     requests := [req false waitResponse; req true waitConnected] |}
        end
    end
  else
    match open_stream 0%nat waitResponse with
    | Some (e, _) => {| conn := Err e; open_ := ∅; requests := [req false waitResponse] |}
    | None => {| conn := Ok (Downlink, Packets); open_ := {[Downlink; Packets]}; requests := [req false waitResponse] |}
    end.

(** A dial that fails leaves nothing open, one that succeeds its connection;
    at most one request carries the uplink, and all have one session. *)
Lemma dial_all_or_nothing d session outcome :
  let r := DialContext d session outcome in
  match conn r with
  | Err _ => open_ r = ∅
  | Ok (reader, writer) => open_ r = {[reader; writer]} ∧ reader = Downlink
  end ∧
  Forall (λ q, oSession q = if String.eqb (dMode d) ModeStreamOne then "" else session) (requests r) ∧
  (length (List.filter oUplink (requests r)) <= 1)%nat.
Proof.
  cbv zeta. unfold DialContext. destruct (String.eqb (dMode d) ModeStreamOne).
  - destruct (openStream _ _ _) as [[e c]|]; cbn; (split; [|split; [by constructor|lia]]); [done|split; [set_solver|done]].
  - destruct (String.eqb (dMode d) ModeStreamUp).
    + destruct (openStream _ _ _) as [[e c]|]; [cbn; split; [done|split; [by constructor|lia]]|].
      destruct (openStream _ _ _) as [[e c]|]; cbn; (split; [|split; [by repeat constructor|lia]]); [set_solver|split; [set_solver|done]].
    + destruct (openStream _ _ _) as [[e c]|]; cbn; (split; [|split; [by constructor|lia]]); [done|split; [set_solver|done]].
Qed.

(** ** The outbound *)

Definition realityEnabled (tls : option TLS) : bool :=
  match tls with
  | Some t => match tlsReality t with Some r => Schema.realityEnabled r | None => false end
  | None => false
  end.

Definition tls_on (tls : option TLS) : bool := match tls with Some t => tlsEnabled t | None => false end.

Definition decideHTTPVersion (tls : option TLS) : string :=
  if negb (tls_on tls) then HTTPVersion11
  else if realityEnabled tls then HTTPVersion2
  else match ALPN <$> tls with
       | Some [a] => if String.eqb a "http/1.1" then HTTPVersion11
                     else if String.eqb a "h3" then HTTPVersion3 else HTTPVersion2
       | _ => HTTPVersion2
       end.

(** The protocols the handshake offers, as [NewXHTTPOutbound] completes them. *)
Definition offered (tls : option TLS) : list string :=
  match tls with
  | Some t => match ALPN t with
              | [] => if String.eqb (decideHTTPVersion tls) HTTPVersion2 then ["h2"] else ["http/1.1"]
              | l => l
              end
  | None => []
  end.

Definition override (f v : string) (s : Settings) : Settings := if String.eqb v "" then s else set_str f v s.

(** The constructors of the engine that the outbound calls: what each is given
    and the error it answers, if any. *)
Class Engine := {
  dialer_New : Schema.Dialer → option string;
  tls_NewClient : string → TLS → option string;
  vless_NewClient : string → option string
}.

Inductive outbound_error := DialerError (e : string) | TLSError (e : string) | BadExtra | BadConfig (e : string) | ClientError (e : string).

(** What the engine gets: the transport, and the protocols its TLS client
    offers when there is one. *)
Record XHTTPOut := { transport : Xhttp.Dialer; nextProtos : option (list string) }.

Definition NewXHTTPOutbound `{GoQuote} `{Engine} (d : Schema.Dialer) (uuid : string) (tls : option TLS) (x : XHTTP)
    : result outbound_error XHTTPOut :=
  match dialer_New d with
  | Some e => Err (DialerError e)
  | None =>
  match (if tls_on tls then tls ≫= tls_NewClient (Server d) else None) with
  | Some e => Err (TLSError e)
  | None =>
  match ParseSettings (xExtra x) with
  | None => Err BadExtra
  | Some s =>
      let s := override "mode" (xMode x) (override "host" (xHost x) (override "path" (xPath x) s)) in
      let authority := Link.firstNonEmpty [Host s; match tls with Some t => ServerName t | None => "" end; Server d] in
      match New {| hasDial := true; Scheme := if tls_on tls then "https" else "http"; Authority := authority;
                   HTTPVersion := decideHTTPVersion tls; Reality := realityEnabled tls; UserAgent := "";
                   cSettings := s |} with
      | Err e => Err (BadConfig e)
      | Ok transport =>
          match vless_NewClient uuid with
          | Some e => Err (ClientError e)
          | None => Ok {| transport := transport; nextProtos := if tls_on tls then Some (offered tls) else None |}
          end
      end
  end end end.

Lemma override_str f v s g : str (override f v s) g =
  if negb (String.eqb v "") && bool_decide (f = g) then v else str s g.
Proof.
  unfold override, str. destruct (String.eqb v ""); [done|]. cbn.
  case_bool_decide as E; [subst; by rewrite lookup_insert_eq|by rewrite lookup_insert_ne].
Qed.

Lemma override_sane f v s : sane_settings s → sane_settings (override f v s).
Proof. unfold override. by destruct (String.eqb v ""). Qed.

Lemma resolveMode_concrete m r : resolveMode m r ∈ [ModePacketUp; ModeStreamUp; ModeStreamOne].
Proof. unfold resolveMode. case_bool_decide; [done|]. destruct r; set_solver. Qed.

Definition ErrH3 : string := "xhttp: HTTP/3 (alpn=h3) is not supported; drop h3 from the key's alpn".

(** What a decoder of a VLESS link guarantees of an xhttp outbound. *)
Lemma xhttp_outbound_facts `{GoUnicode} raw p o d uuid tls x :
  Link.Parse Vless.vless raw = Ok p → Vless.RenderNode p o = Ok (XHTTPOutbound d uuid tls x) →
  Server d ≠ "" ∧ tls_on tls = bool_decide (tls ≠ None) ∧ xMode x ∈ Vless.xhttp_modes ∧
  (tls = None ↔ Vless.Security (Registry.Params p) = "none").
Proof.
  intros HP HR. destruct (Link.parsed_dials Vless.vless Vless.RenderNode Vless.Host Vless.Port raw p o HP)
    as (u & n & _ & Hn & Hd & Hne & _). rewrite HR in Hn. injection Hn as <-. cbn in Hd. injection Hd as ->.
  apply Link.Parse_inv in HP as (u' & _ & Hdec & _). unfold Link.decode_url in Hdec. destruct (negb _); [done|].
  apply Vless.decode_vless_inv in Hdec as (_ & _ & _ & _ & _ & Hcs & _ & _ & _ & Hx & _).
  apply Vless.check_security_Ok in Hcs. revert HR. unfold Vless.RenderNode, Vless.xhttpOutbound.
  destruct (String.eqb_spec (Link.tType (Vless.Transport (Registry.Params p))) "xhttp") as [Ex|]; [|done].
  intros [= _ _ <- <-]. cbn [Server xMode Link.dialer]. rewrite Ex in Hx. apply Vless.xhttp_params_Ok in Hx as [Hm _].
  split_and!; [done| |done|by apply Vless.tlsCfg_none].
  unfold Vless.tlsCfg. by destruct (_ && _).
Qed.

Lemma decideHTTPVersion_cases tls :
  (decideHTTPVersion tls = HTTPVersion3 ∧ realityEnabled tls = false ∧ ALPN <$> tls = Some ["h3"]) ∨
  decideHTTPVersion tls = HTTPVersion11 ∨ decideHTTPVersion tls = HTTPVersion2.
Proof.
  unfold decideHTTPVersion. destruct (negb (tls_on tls)); [auto|]. destruct (realityEnabled tls); [auto|].
  destruct (ALPN <$> tls) as [[|a [|]]|]; auto. destruct (String.eqb a "http/1.1"); [auto|].
  destruct (String.eqb_spec a "h3") as [->|]; auto.
Qed.

Lemma decideHTTPVersion_reality tls : tls_on tls = true → realityEnabled tls = true → decideHTTPVersion tls = HTTPVersion2.
Proof. unfold decideHTTPVersion. by intros -> ->. Qed.

(** A configuration without a reason to refuse it. *)
Lemma New_total `{GoQuote} c : hasDial c = true → HTTPVersion c = HTTPVersion11 ∨ HTTPVersion c = HTTPVersion2 →
  Authority c ≠ "" → Scheme c = "http" ∨ Scheme c = "https" →
  ∃ dl, New c = Ok dl ∧ cfg dl = c ∧ settings dl = cSettings c ∧ dMode dl = resolveMode (Mode (cSettings c)) (Reality c).
Proof.
  unfold New. intros -> Hv Ha Hs. rewrite (proj2 (String.eqb_neq _ _) Ha). cbn [negb].
  assert (String.eqb (HTTPVersion c) HTTPVersion3 = false) as -> by (by destruct Hv as [->| ->]).
  rewrite bool_decide_true by (destruct Hv as [->| ->]; set_solver). cbn [negb].
  assert (negb (String.eqb (Scheme c) "http") && negb (String.eqb (Scheme c) "https") = false) as -> by (by destruct Hs as [->| ->]).
  destruct (splitPathQuery _). by eexists.
Qed.

Lemma New_h3 `{GoQuote} c : hasDial c = true → HTTPVersion c = HTTPVersion3 → New c = Err ErrH3.
Proof. unfold New. by intros -> ->. Qed.

(** The settings with the link's own parameters over the document's. *)
Definition merged (x : XHTTP) (s : Settings) : Settings :=
  override "mode" (xMode x) (override "host" (xHost x) (override "path" (xPath x) s)).

Lemma merged_facts x s :
  Host (merged x s) = Link.or_default (xHost x) (Host s) ∧ Path (merged x s) = Link.or_default (xPath x) (Path s) ∧
  Mode (merged x s) = Link.or_default (xMode x) (Mode s) ∧ (sane_settings s → sane_settings (merged x s)).
Proof.
  unfold merged, Host, Path, Mode. rewrite !override_str. unfold Link.or_default.
  split; [|split; [|split]]; [..|by intros; do 3 apply override_sane];
    [destruct (String.eqb (xHost x) "")|destruct (String.eqb (xPath x) "")|destruct (String.eqb (xMode x) "")];
    cbn; rewrite ?andb_false_r; done.
Qed.

Lemma firstNonEmpty_or a b l : Link.firstNonEmpty (Link.or_default a b :: l) = Link.firstNonEmpty (a :: b :: l).
Proof. unfold Link.or_default. cbn [Link.firstNonEmpty]. destruct (String.eqb a "") eqn:E; cbn; by rewrite ?E. Qed.

Lemma firstNonEmpty_last a b c : c ≠ "" → Link.firstNonEmpty [a; b; c] ≠ "".
Proof. intros Hc. cbn. destruct (String.eqb_spec a ""), (String.eqb_spec b ""), (String.eqb_spec c ""); done. Qed.


(** A server given as an IPv6 address, without a host or a server name: the
    authority is the address without brackets, the transport is built, and
    every request is refused before it is sent. *)
Definition ipv6_link : string := "vless://b831381d-6324-4d53-ad4f-8cda48b30811@[2001:db8::abcd]:443?type=xhttp".

#[local] Instance willing_engine : Engine := {|
  dialer_New := λ _, None; tls_NewClient := λ _ _, None; vless_NewClient := λ _, None |}.

Lemma ipv6_server_is_undiallable `{GoUnicode} `{GoQuote} :
  ∃ p d uuid x out, Link.Parse Vless.vless ipv6_link = Ok p ∧
    Vless.RenderNode p Vless.vx_opts = Ok (XHTTPOutbound d uuid None x) ∧
    NewXHTTPOutbound d uuid None x = Ok out ∧ Authority (cfg (transport out)) = "2001:db8::abcd" ∧
    ∀ HL read draw hs up session, stream_request HL read draw hs (transport out) session up = Err BadRequest.
Proof.
  do 5 eexists. split; [vm_compute; reflexivity|]. split; [vm_compute; reflexivity|].
  split; [vm_compute; reflexivity|]. split; [reflexivity|]. intros. destruct up; vm_compute; reflexivity.
Qed.

#[local] Existing Instance ascii_only.
#[local] Existing Instance quote_as_is.

Definition ox_link : string :=
  "vless://b831381d-6324-4d53-ad4f-8cda48b30811@edge.example:443?type=xhttp&security=tls&sni=www.example.org&path=%2Fx&extra=%7B%22host%22%3A%22cdn.example%22%2C%22mode%22%3A%22stream-up%22%7D".

Definition ox_extra : string := Json.dq "{'host':'cdn.example','mode':'stream-up'}".

Definition ox_profile : Registry.Profile Vless.Params := {|
  Registry.Protocol := "vless"; Registry.Label := ""; Registry.Raw := ox_link;
  Registry.Params := {|
    Vless.UUID := "b831381d-6324-4d53-ad4f-8cda48b30811"; Vless.Host := "edge.example"; Vless.Port := 443;
    Vless.Flow := ""; Vless.Security := "tls";
    Vless.TLS := {| Link.pServerName := "www.example.org"; Link.pFingerprint := ""; Link.pALPN := []; Link.pInsecure := false |};
    Vless.Reality := Vless.no_reality;
    Vless.Transport := {| Link.tType := "xhttp"; Link.tServiceName := ""; Link.tPath := "/x"; Link.tHost := [];
      Link.tHeaderType := ""; Link.tMode := ""; Link.tExtra := ox_extra |} |} |}.

Definition ox_tls : option TLS := Some {|
  tlsEnabled := true; ServerName := "www.example.org"; Insecure := false; ALPN := []; tlsUTLS := None; tlsReality := None |}.
Definition ox_xhttp : XHTTP := {| xPath := "/x"; xHost := ""; xMode := ""; xExtra := ox_extra |}.


End XhttpConn.
