(* ===== verification/XhttpOpen.v ===== *)
(** * XhttpOpen: opening an XHTTP stream, step by step
    ([openStream] and [newSessionID] of [internal/xhttp/client.go],
    [streamConn] of [conn.go])

    The request is sent by a goroutine while the caller waits for the
    connection, for the response or for its context.  The steps of both are
    the events of [ostep], and what the reader does is that of XhttpConn.  In
    every order of the steps an opening that fails leaves no request behind
    ([failed_opens_leave_nothing]). *)

From S2P Require Import Prelude GoStr GoUtf8 GoNet GoUrl GoUrlFacts GoHttp GoJson Schema Registry Link Vless Xhttp XhttpProps XhttpConn.

Local Open Scope string_scope.
Local Open Scope list_scope.

Module XhttpOpen.
Import XhttpConn.

(** ** The steps *)

(** The goroutine: its request is in flight; it has cancelled and failed the
    reader, and will say so; it has set the reader, announced the response, and
    will close [connected]; it drains a body; it has returned. *)
Inductive gphase := InFlight | Failing (e : string) | HasSet | HasAnnounced | Draining (b : nat) | Finished.

(** The caller: at the first select, at the second, returned. *)
Inductive cphase := WaitConn | WaitResp | GotStream | GotErr (e : string).

#[export] Instance cphase_eq_dec : EqDecision cphase.
Proof. solve_decision. Defined.
#[export] Instance waitMode_eq_dec : EqDecision waitMode.
Proof. solve_decision. Defined.

Record Open := {
  owait : waitMode;
  gor : gphase;
  caller : cphase;
  connected : bool;
  responded : bool;
  failed : option string;
  cancelled : bool;             (* [cancelReq] was called *)
  rc : PendingReader;
  received : gset nat;          (* the bodies of the responses *)
  shutBodies : gset nat         (* those the goroutine has closed *)
}.

Definition start (w : waitMode) : Open := {|
  owait := w; gor := InFlight; caller := WaitConn; connected := false; responded := false; failed := None;
  cancelled := false; rc := new_reader; received := ∅; shutBodies := ∅ |}.

Inductive Event :=
  | GotConn                               (* the trace reports the connection *)
  | DoErr (e : string)                    (* [client.Do] fails *)
  | BadStatus (e : string) (b : nat)      (* a response with another status than 200 *)
  | Response (b : nat)                    (* a response *)
  | Next                                  (* the goroutine goes on *)
  | CConnected | CFailed | CCtx | CResponded | CGrace   (* the cases of the selects *)
  | CClose.                               (* the stream is closed *)

Definition upd (o : Open) (g : gphase) (c : cphase) (conn resp : bool) (f : option string) (can : bool) (r : PendingReader)
    (rcv shut : gset nat) : Open := {|
  owait := owait o; gor := g; caller := c; connected := conn; responded := resp; failed := f; cancelled := can; rc := r;
  received := rcv; shutBodies := shut |}.
Definition set_caller (c : cphase) (o : Open) : Open :=
  upd o (gor o) c (connected o) (responded o) (failed o) (cancelled o) (rc o) (received o) (shutBodies o).

(** [rc.Close()], which cancels the request. *)
Definition close_rc (o : Open) : Open :=
  upd o (gor o) (caller o) (connected o) (responded o) (failed o) true (reader_close (rc o)) (received o) (shutBodies o).

(** The goroutine cancels the request and fails the reader. *)
Definition fail_rc (g : gphase) (e : string) (o : Open) : Open :=
  upd o g (caller o) (connected o) (responded o) (failed o) true (reader_fail e (rc o)) (received o) (shutBodies o).
Definition receive (b : nat) (o : Open) : Open :=
  upd o (gor o) (caller o) (connected o) (responded o) (failed o) (cancelled o) (rc o) ({[b]} ∪ received o) (shutBodies o).
Definition shut_body (b : nat) (o : Open) : Open :=
  upd o (gor o) (caller o) (connected o) (responded o) (failed o) (cancelled o) (rc o) (received o) ({[b]} ∪ shutBodies o).
Definition set_rc (b : nat) (o : Open) : Open :=
  upd o HasSet (caller o) (connected o) (responded o) (failed o) (cancelled o) (reader_set b (rc o)) (received o) (shutBodies o).
Definition announce (g : gphase) (o : Open) : Open :=
  upd o g (caller o) (connected o) true (failed o) (cancelled o) (rc o) (received o) (shutBodies o).
Definition connect (g : gphase) (o : Open) : Open :=
  upd o g (caller o) true (responded o) (failed o) (cancelled o) (rc o) (received o) (shutBodies o).
Definition tell (e : string) (o : Open) : Open :=
  upd o Finished (caller o) (connected o) (responded o) (Some e) (cancelled o) (rc o) (received o) (shutBodies o).

Definition EOFErr : string := "EOF".

(** A step of the goroutine, and one of the caller; [None] where it cannot be
    taken. *)
Definition gstep (o : Open) (e : Event) : option Open :=
  match e, gor o with
  | GotConn, InFlight => Some (connect InFlight o)
  | DoErr e, InFlight => Some (fail_rc (Failing e) e o)
  | BadStatus e b, InFlight => Some (fail_rc (Failing e) e (shut_body b (receive b o)))
  | Response b, InFlight =>
      Some (if bool_decide (owait o = waitConnected) then announce (Draining b) (receive b o) else set_rc b (receive b o))
  | Next, Failing e => Some (tell e o)
  | Next, HasSet => Some (announce HasAnnounced o)
  | Next, HasAnnounced => Some (connect Finished o)
  | Next, Draining b => Some (fail_rc Finished EOFErr (shut_body b o))
  | _, _ => None
  end.
Definition cstep (o : Open) (e : Event) : option Open :=
  match e, caller o with
  | CConnected, WaitConn =>
      if connected o then Some (set_caller (if bool_decide (owait o = waitConnected) then GotStream else WaitResp) o) else None
  | CFailed, (WaitConn | WaitResp) => match failed o with Some e => Some (set_caller (GotErr e) o) | None => None end
  | CCtx, (WaitConn | WaitResp) => Some (set_caller (GotErr ErrCtx) (close_rc o))
  | CResponded, WaitResp => if responded o then Some (set_caller GotStream o) else None
  | CGrace, WaitResp => Some (set_caller GotStream o)
  | CClose, GotStream => Some (close_rc o)
  | _, _ => None
  end.
Definition ostep (o : Open) (e : Event) : option Open :=
  match e with
  | GotConn | DoErr _ | BadStatus _ _ | Response _ | Next => gstep o e
  | _ => cstep o e
  end.

Fixpoint orun (o : Open) (es : list Event) : option Open :=
  match es with [] => Some o | e :: es => o' ← ostep o e; orun o' es end.

(** ** The connection *)

(** [streamConn]: what its reader and writer answer, and whether it was closed. *)
Record StreamConn := { sc_reader : option unit; sc_writer : option unit; sc_closed : bool }.

Definition sc_Read (inner : result string string) (c : StreamConn) : result string string :=
  match sc_reader c with None => Err EOFErr | Some _ => inner end.
Definition sc_Write (inner : result string nat) (c : StreamConn) : result string nat :=
  match sc_writer c with None => Err "io: read/write on closed pipe" | Some _ => inner end.

(** [Close]: once; the writer's error comes before the reader's. *)
Definition sc_Close (werr rerr : option string) (c : StreamConn) : option string * StreamConn :=
  if sc_closed c then (None, c) else
  let err := match sc_writer c with Some _ => werr | None => None end in
  let err := match sc_reader c with
             | Some _ => match err with None => rerr | _ => err end
             | None => err
             end in
  (err, {| sc_reader := sc_reader c; sc_writer := sc_writer c; sc_closed := true |}).

(** ** The session *)

Definition hex_pair (c : ascii) : string :=
  let n := N_of_ascii c in String (hex_char (n / 16)) (String (hex_char (n mod 16)) "").
Fixpoint hex_of_bytes (b : string) : string :=
  match b with "" => "" | String c b => hex_pair c +:+ hex_of_bytes b end.

(** Sixteen random bytes grouped like a UUID, or the time in hexadecimal. *)
Definition newSessionID (random : option string) (time_hex : string) : string :=
  match random with
  | None => time_hex
  | Some b =>
      let h := hex_of_bytes b in
      String.substring 0 8 h +:+ "-" +:+ String.substring 8 4 h +:+ "-" +:+ String.substring 12 4 h +:+ "-" +:+
      String.substring 16 4 h +:+ "-" +:+ String.substring 20 12 h
  end.

(** ** What holds after any steps *)

Definition reader_shut (r : PendingReader) : Prop := ∀ b, body r = Some b → b ∈ closedBodies r.

Record oinv (o : Open) : Prop := {
  o_err : ∀ e, caller o = GotErr e → cancelled o = true ∧ reader_shut (rc o) ∧ decided (rc o) = true;
  o_fail : (∃ e, gor o = Failing e) ∨ is_Some (failed o) → cancelled o = true ∧ decided (rc o) = true ∧ reader_shut (rc o);
  o_new : gor o = InFlight ∨ (∃ b, gor o = Draining b) → body (rc o) = None;
  o_decided : gor o = HasSet ∨ gor o = HasAnnounced ∨ gor o = Finished → decided (rc o) = true;
  o_bodies : ∀ b, b ∈ received o → b ∈ shutBodies o ∨ tracked b (rc o) ∨ gor o = Draining b;
  o_reader : reader_inv (rc o);
  o_resp : gor o = HasAnnounced → responded o = true;
  o_done : gor o = Finished → is_Some (failed o) ∨ responded o = true ∧ (connected o = true ∨ owait o = waitConnected);
  o_brief : caller o = WaitResp → owait o ≠ waitConnected;
  o_drain : ∀ b, gor o = Draining b → owait o = waitConnected ∧ responded o = true;
  o_quiet : ∀ e, failed o = Some e → gor o = Finished
}.

Lemma closed_shut r : reader_shut (reader_close r) ∧ decided (reader_close r) = true.
Proof. destruct (reader_close_shut r) as (Hd & _ & Hs). by split. Qed.
Lemma failed_decided e r : decided (reader_fail e r) = true.
Proof. unfold reader_fail. by destruct (decided r) eqn:Hd. Qed.
Lemma failed_new e : reader_shut (reader_fail e new_reader).
Proof. by intros b. Qed.
Lemma failed_shut e r : reader_shut r → reader_shut (reader_fail e r).
Proof. unfold reader_fail. by destruct (decided r). Qed.
Lemma set_decided b r : decided (reader_set b r) = true.
Proof. unfold reader_set. destruct (decided r) eqn:Hd; case_bool_decide; done. Qed.
Lemma set_shut b r : decided r = true → reader_shut r → reader_shut (reader_set b r).
Proof.
  intros Hd Hs. unfold reader_set, reader_shut. rewrite Hd. case_bool_decide; [done|]. cbn. intros b' Hb. specialize (Hs b' Hb). set_solver.
Qed.

(** What a closed or failed reader still tracks. *)
Lemma tracked_close b r : reader_inv r → tracked b r → tracked b (reader_close r).
Proof. apply (reader_call_tracked b r RClose). Qed.
Lemma tracked_fail b e r : reader_inv r → tracked b r → tracked b (reader_fail e r).
Proof. apply (reader_call_tracked b r (RFail e)). Qed.
Lemma tracked_set b b' r : reader_inv r → tracked b r → tracked b (reader_set b' r).
Proof. apply (reader_call_tracked b r (RSet b')). Qed.
Lemma inv_close r : reader_inv r → reader_inv (reader_close r).
Proof. apply (reader_call_inv r RClose). Qed.
Lemma inv_fail e r : reader_inv r → reader_inv (reader_fail e r).
Proof. apply (reader_call_inv r (RFail e)). Qed.
Lemma inv_set b r : reader_inv r → reader_inv (reader_set b r).
Proof. apply (reader_call_inv r (RSet b)). Qed.

Lemma fail_body e r : body (reader_fail e r) = body r.
Proof. unfold reader_fail. by destruct (decided r). Qed.
Lemma close_body_same r : body (reader_close r) = body r.
Proof. unfold reader_close, reader_fail. by destruct r as [[] [] ? ? ?]. Qed.
Lemma empty_shut r : body r = None → reader_shut r.
Proof. unfold reader_shut. by intros ->. Qed.
Lemma set_tracks b r : tracked b (reader_set b r).
Proof. apply (reader_set_tracked b r). Qed.

#[local] Hint Resolve failed_decided set_decided tracked_close tracked_fail tracked_set inv_close inv_fail inv_set failed_shut set_shut
  empty_shut set_tracks : core.

Ltac in_set := first [assumption | apply elem_of_union_r; assumption | apply elem_of_union_l, elem_of_singleton_2; reflexivity].
Ltac open_facts H :=
  destruct H as [Herr Hfail Hnew Hdec Hbod Hread Hresp Hdone Hbrief Hdrain Hquiet]; cbn in *.

Lemma start_inv w : oinv (start w).
Proof. split; unfold reader_inv; cbn; try done; try (intros [[? ?]|[? ?]]; done); try (intros [|[|]]; done); try set_solver; by intros [? ?]. Qed.

Lemma close_rc_inv o : oinv o → oinv (close_rc o).
Proof.
  intros Hi. destruct o as [w g c cn rs f ca r rv sh]. open_facts Hi. destruct (closed_shut r) as [Hs Hd].
  split; cbn; try done; eauto.
  - intros Hg. rewrite close_body_same. auto.
  - intros b Hb. destruct (Hbod b Hb) as [|[Ht|]]; auto.
Qed.
Lemma set_caller_inv c o : oinv o → (∀ e, c = GotErr e → cancelled o = true ∧ reader_shut (rc o) ∧ decided (rc o) = true) →
  (c = WaitResp → owait o ≠ waitConnected) → oinv (set_caller c o).
Proof. intros Hi He Hb. destruct o as [w g c' cn rs f ca r rv sh]. open_facts Hi. split; cbn; done. Qed.

Lemma cstep_inv o e o' : oinv o → cstep o e = Some o' → oinv o'.
Proof.
  intros Hi Hs. unfold cstep in Hs.
  destruct e, (caller o) eqn:Hc; try discriminate; repeat case_match; simplify_eq; try (by apply close_rc_inv);
    (apply set_caller_inv; [auto using close_rc_inv| |]); cbn; try done.
  - intros _. by case_bool_decide.
  - intros e' _. assert (is_Some (failed o)) as Hf by (by eexists). by destruct (o_fail o Hi (or_intror Hf)) as (? & ? & ?).
  - intros e' _. assert (is_Some (failed o)) as Hf by (by eexists). by destruct (o_fail o Hi (or_intror Hf)) as (? & ? & ?).
  - intros e _. by destruct (closed_shut (rc o)).
  - intros e _. by destruct (closed_shut (rc o)).
Qed.

Lemma gstep_inv o e o' : oinv o → gstep o e = Some o' → oinv o'.
Proof.
  intros Hi Hs. unfold gstep in Hs. destruct o as [w g c cn rs f ca r rv sh]. open_facts Hi.
  destruct e as [|e|e b|b| | | | | | |]; destruct g as [|e'| | |b'|]; try discriminate; simplify_eq; try case_bool_decide; subst.
  all: try (pose proof (Hnew (or_introl eq_refl)) as Hnone; pose proof (empty_shut _ Hnone)).
  all: try (pose proof (Hnew (or_intror (ex_intro _ _ eq_refl))) as Hnone; pose proof (empty_shut _ Hnone)).
  all: split; cbn; try done; eauto.
  all: try (by intros [[=]|[? [=]]]).
  all: try match goal with H : _ = Some _ |- _ => discriminate (Hquiet _ H) end.
  all: try (intros [[? [=]]|Hf]; auto; fail).
  all: intros; split_and?; eauto.
  all: try match goal with H : _ = Some _ |- _ => discriminate (Hquiet _ H) end.
  all: try match goal with H : _ = GotErr _ |- _ => destruct (Herr _ H) as (? & ? & ?); auto; fail end.
  all: try (by destruct (Hfail (or_introl (ex_intro _ _ eq_refl))) as (? & ? & ?)).
  all: try match goal with
  | Hb : _ ∈ {[_]} ∪ _ |- _ => apply elem_of_union in Hb as [->%elem_of_singleton|Hb]; [first [left; in_set | right; right; reflexivity | right; left; by apply set_tracks]|]
  end.
  all: try match goal with
  | Hb : _ ∈ _ |- _ ∨ tracked _ _ ∨ _ => destruct (Hbod _ Hb) as [?|[?|?]]; simplify_eq;
      first [left; in_set | right; left; by eauto | right; right; congruence]
  end.
  all: try match goal with H : _ ∨ is_Some _ |- _ => destruct H as [[? [=]]|Hf]; destruct (Hfail (or_intror Hf)) as (? & ? & ?); by auto end.
  - by destruct H0 as [|[|]].
  - destruct (Hdrain _ eq_refl) as [-> ->]. auto.
Qed.

Lemma ostep_inv o e o' : oinv o → ostep o e = Some o' → oinv o'.
Proof. intros Hi. destruct e; cbn [ostep]; by (apply gstep_inv || apply cstep_inv). Qed.

Lemma orun_inv es o o' : oinv o → orun o es = Some o' → oinv o'.
Proof.
  revert o. induction es as [|e es IH]; intros o Hi; cbn; [by intros [= <-]|].
  destruct (ostep o e) as [o1|] eqn:Hs; [|done]. cbn. apply IH. by apply (ostep_inv o e).
Qed.

Lemma orun_snoc es e o o' : orun o (es ++ [e]) = Some o' → ∃ o1, orun o es = Some o1 ∧ ostep o1 e = Some o'.
Proof.
  revert o. induction es as [|x es IH]; intros o; cbn.
  - destruct (ostep o e) as [o1|] eqn:Hs; [|done]. cbn. intros [= <-]. by exists o.
  - destruct (ostep o x) as [o1|]; [|done]. cbn. apply IH.
Qed.

(** What a step can do to the stream once it is there. *)
Definition tears (w : waitMode) (e : Event) : bool :=
  match e with
  | CClose | CCtx | DoErr _ | BadStatus _ _ => true
  | Next => bool_decide (w = waitConnected)
  | _ => false
  end.

Lemma ostep_wait o e o' : ostep o e = Some o' → owait o' = owait o.
Proof. destruct e; cbn [ostep]; unfold gstep, cstep; intros Hs; repeat case_match; by simplify_eq. Qed.

(** The request is cancelled by nothing but a failure, the context while the
    dial waits, or the stream's end. *)
Lemma orun_calm es w o : orun (start w) es = Some o → Forall (λ e, tears w e = false) es →
  owait o = w ∧ cancelled o = false ∧ (∀ e, gor o ≠ Failing e) ∧ ((∃ b, gor o = Draining b) → w = waitConnected).
Proof.
  revert o. induction es as [|e es IH] using rev_ind; intros o; [intros [= <-] _; cbn; split_and!; try done; by intros [? ?]|].
  intros (o1 & H1 & H2)%orun_snoc [Hall He]%Forall_app. rewrite Forall_singleton in He.
  destruct (IH o1 H1 Hall) as (Hw & Hc & Hf & Hd). rewrite (ostep_wait _ _ _ H2). split; [done|].
  destruct e; cbn [tears] in He; try done; cbn [ostep] in H2; unfold gstep, cstep in H2; repeat case_match; simplify_eq/=;
    split_and!; try done; try (by intros [? ?]); try (by exfalso; eapply Hf); try (by exfalso; apply bool_decide_eq_false in He; apply He, Hd; eauto);
    try congruence; intros _; by eapply bool_decide_eq_true_1.
Qed.

(** C21: An opening that fails leaves nothing behind, and one that succeeds is
    not torn down.  In every order of the goroutine's and the caller's steps:
    when the caller has given up its request is cancelled and every response
    that arrived or arrives later is closed or being drained; the bodies of a
    stream that was handed out are closed, read or drained; once the goroutine
    has returned no read blocks, and a caller that still waits can go on by
    itself, without its context or the timer (for an upload, once the
    connection was reported); and as long as nothing failed, was closed or
    given up while waiting, the request is not cancelled. *)
Theorem failed_opens_leave_nothing (w : waitMode) (es : list Event) (o : Open) :
  orun (start w) es = Some o →
  (∀ e, caller o = GotErr e → cancelled o = true ∧
     ∀ b, b ∈ received o → b ∈ shutBodies o ∨ b ∈ closedBodies (rc o) ∨ gor o = Draining b) ∧
  (∀ b, b ∈ received o → b ∈ shutBodies o ∨ b ∈ closedBodies (rc o) ∨ body (rc o) = Some b ∨ gor o = Draining b) ∧
  (gor o = Finished → reader_read (rc o) ≠ Blocks ∧
     (caller o = WaitConn ∨ caller o = WaitResp → connected o = true ∨ w ≠ waitConnected →
        ∃ e, e ∈ [CConnected; CFailed; CResponded] ∧ is_Some (ostep o e))) ∧
  (Forall (λ e, tears w e = false) es → cancelled o = false).
Proof.
  intros Hr. pose proof (orun_inv es _ _ (start_inv w) Hr) as Hi.
  assert (owait o = w) as Hw.
  { assert (∀ es x y, orun x es = Some y → owait y = owait x) as H; [|by apply (H es (start w))].
    clear. induction es as [|e es IH]; intros x y; cbn; [by intros [= <-]|].
    destruct (ostep x e) as [x1|] eqn:Hs; [|done]. cbn. intros Hy. rewrite (IH _ _ Hy). by apply ostep_wait in Hs. }
  assert (∀ b, b ∈ received o → b ∈ shutBodies o ∨ b ∈ closedBodies (rc o) ∨ body (rc o) = Some b ∨ gor o = Draining b) as Hb.
  { intros b Hin. destruct (o_bodies o Hi b Hin) as [|[[|]|]]; auto. }
  split; [|split; [done|split]].
  - intros e He. destruct (o_err o Hi e He) as (Hc & Hs & _). split; [done|]. intros b Hin.
    destruct (Hb b Hin) as [|[|[Hbo|]]]; auto.
  - intros Hg. split.
    { unfold reader_read. rewrite (o_decided o Hi) by auto. cbn. by repeat case_match. }
    intros Hc Hconn. destruct (o_done o Hi Hg) as [[e Hf]|[Hresp Hcn]].
    + exists CFailed. split; [apply elem_of_cons; right; by left|]. cbn [ostep]. unfold cstep. rewrite Hf. destruct Hc as [-> | ->]; by eexists.
    + destruct Hc as [Hc|Hc].
      * exists CConnected. split; [by left|]. cbn [ostep]. unfold cstep. rewrite Hc.
        assert (connected o = true) as -> by (rewrite Hw in Hcn; naive_solver). by eexists.
      * exists CResponded. split; [apply elem_of_cons; right; apply elem_of_cons; right; by left|]. cbn [ostep]. unfold cstep. rewrite Hc, Hresp. by eexists.
  - intros Hall. by destruct (orun_calm es w o Hr Hall) as (_ & ? & _).
Qed.

(** The response comes after the caller has given up. *)
Definition late : list Event := [GotConn; CConnected; CCtx; Response 7%nat; Next; Next].

Lemma failed_opens_leave_nothing_witness :
  ∃ o, orun (start waitResponse) late = Some o ∧ cancelled o = true ∧ 7%nat ∈ closedBodies (rc o).
Proof.
  eexists. split; [reflexivity|].
  match goal with |- cancelled ?o = true ∧ _ => destruct (failed_opens_leave_nothing waitResponse late o eq_refl) as (H & _) end.
  destruct (H ErrCtx eq_refl) as [Hc Hb]. split; [exact Hc|]. destruct (Hb 7%nat) as [Hs|[Hcl|Hd]].
  - apply elem_of_union_l, elem_of_singleton_2. reflexivity.
  - apply elem_of_empty in Hs. destruct Hs.
  - exact Hcl.
  - discriminate Hd.
Defined.

(** The second half of a stream-up dial: [DialContext] keeps no reader of the
    upload, so closing the connection does not close it, and its request is
    never cancelled while the server holds the response back. *)
Lemma dropped_upload_is_not_cancelled es o :
  orun (start waitConnected) ([GotConn; CConnected] ++ es) = Some o →
  Forall (λ e, tears waitConnected e = false) es → caller o = GotStream → cancelled o = false.
Proof.
  intros Hr Hall _. apply (orun_calm _ waitConnected) in Hr; [by destruct Hr as (_ & ? & _)|].
  apply Forall_app. split; [by repeat constructor|done].
Qed.

(** ** The connection and the session *)

(** The second [Close] does nothing; the first reports the writer's error, or
    the reader's when there is none. *)
Lemma sc_Close_once we re we' re' c : fst (sc_Close we' re' (snd (sc_Close we re c))) = None.
Proof. unfold sc_Close. by destruct (sc_closed c) eqn:Hc; cbn; rewrite ?Hc. Qed.
Lemma sc_Close_error we re c : sc_closed c = false → is_Some (sc_reader c) → is_Some (sc_writer c) →
  fst (sc_Close we re c) = match we with Some e => Some e | None => re end.
Proof. unfold sc_Close. intros -> [? ->] [? ->]. by destruct we. Qed.

Definition session_byte (c : ascii) : bool := is_digit c || in_range 97 102 c || Ascii.eqb c "-".

Lemma hex_char_session n : (n < 16)%N → session_byte (hex_char n) = true.
Proof.
  intros Hn. unfold hex_char. destruct (N.ltb_spec n 10).
  - assert (n = 0 ∨ n = 1 ∨ n = 2 ∨ n = 3 ∨ n = 4 ∨ n = 5 ∨ n = 6 ∨ n = 7 ∨ n = 8 ∨ n = 9)%N as Hc by lia.
    by repeat destruct Hc as [->|Hc]; subst.
  - assert (n = 10 ∨ n = 11 ∨ n = 12 ∨ n = 13 ∨ n = 14 ∨ n = 15)%N as Hc by lia. by repeat destruct Hc as [->|Hc]; subst.
Qed.
Lemma hex_of_bytes_session b : str_forallb session_byte (hex_of_bytes b) = true.
Proof.
  induction b as [|c b IH]; [done|]. cbn [hex_of_bytes]. rewrite str_forallb_app, IH, andb_true_r. unfold hex_pair. cbn [str_forallb].
  assert (N_of_ascii c < 256)%N by apply N_ascii_bounded.
  rewrite !hex_char_session; [done|apply N.mod_lt; lia|apply N.Div0.div_lt_upper_bound; lia].
Qed.
Lemma substring_forallb f n k s : str_forallb f s = true → str_forallb f (String.substring n k s) = true.
Proof.
  revert n k. induction s as [|c s IH]; intros [|n] [|k] Hs; try done; cbn in Hs; apply andb_true_iff in Hs as [Hc Hs]; cbn.
  - by rewrite Hc, IH.
  - by apply IH.
  - by apply IH.
Qed.

(** A session identifier is a segment of a path, as [packet_request] needs it. *)
Lemma newSessionID_segment random time_hex :
  (random = None → str_forallb session_byte time_hex = true ∧ time_hex ≠ "") →
  newSessionID random time_hex ≠ "" ∧ str_has "/" (newSessionID random time_hex) = false.
Proof.
  intros Ht. assert (str_forallb session_byte (newSessionID random time_hex) = true ∧ newSessionID random time_hex ≠ "") as [Hs Hne].
  { unfold newSessionID. destruct random as [b|]; [|by apply Ht]. split.
    - rewrite !str_forallb_app, !substring_forallb by apply hex_of_bytes_session. done.
    - by destruct (String.substring 0 8 (hex_of_bytes b)). }
  split; [done|]. by apply (str_has_forallb "/" session_byte).
Qed.

Example session_looks_like_a_uuid :
  newSessionID (Some "0123456789abcdef") "" = "30313233-3435-3637-3839-616263646566".
Proof. reflexivity. Qed.
End XhttpOpen.
