(* ===== verification/Sub.v ===== *)
(** * Sub: subscriptions ([internal/sub])

    What a panel answers, as share links: a list of links, plain or in base64,
    a JSON array of them, a sing-box configuration or a Clash one, whose
    servers are rendered as links, and the headers beside it.  The YAML decoder
    is an argument that gives the proxies of a Clash document; the two
    attempts of a fetch are given by their responses.  JSON text is read by
    [GoJson]. *)

From S2P Require Import Prelude GoStr GoUtf8 GoNet GoUrl GoUrlFacts GoHttp GoJson GoBase64 Registry.

Local Open Scope string_scope.
Local Open Scope list_scope.

Module Sub.

(** ** The links of a text *)

Definition knownSchemes : list string :=
  ["vless"; "vmess"; "trojan"; "ss"; "hysteria2"; "hy2"; "hysteria"; "hy"; "tuic"; "anytls"].

(** [linkStart.FindAllStringIndex], the starts. *)
Definition link_starts (text : string) : list nat := Registry.find_all knownSchemes 0 false 0 text.

Definition separator (c : ascii) : bool :=
  Ascii.eqb c "," || Ascii.eqb c ";" || Ascii.eqb c CR || Ascii.eqb c LF || Ascii.eqb c TAB || Ascii.eqb c " ".

Definition splitLinks (text : string) : list string :=
  filter (λ c, c ≠ "") ((λ c, TrimRightBytes separator (TrimSpace c)) <$> Registry.slices text (link_starts text)).

(** Of a byte that is no UTF-8 [strings.Map] makes another that is no base64
    either, so dropping the white space is all that matters. *)
Definition compact (text : string) : string :=
  str_filter (λ c, negb (Ascii.eqb c LF || Ascii.eqb c CR || Ascii.eqb c " " || Ascii.eqb c TAB)) text.

Definition encodings : list Base64.Encoding :=
  [Base64.StdEncoding; Base64.RawStdEncoding; Base64.URLEncoding; Base64.RawURLEncoding].

Fixpoint first_link_list (encs : list Base64.Encoding) (text : string) : option string :=
  match encs with
  | [] => None
  | e :: encs =>
      match Base64.DecodeString e text with
      | Some d => if bool_decide (link_starts d ≠ []) then Some d else first_link_list encs text
      | None => first_link_list encs text
      end
  end.

Definition decodeBase64 (text : string) : option string := first_link_list encodings (compact text).

(** ** Building links *)

Record linkTLS := {
  Enabled : bool;
  ServerName : string;
  Insecure : bool;
  ALPN : list string;
  Fingerprint : string;
  RealityPub : string;
  RealityShortID : string
}.

Definition no_tls : linkTLS := {|
  Enabled := false; ServerName := ""; Insecure := false; ALPN := []; Fingerprint := ""; RealityPub := "";
  RealityShortID := "" |}.

Definition reality (t : linkTLS) : bool := negb (String.eqb (RealityPub t) "").

Record linkTransport := {
  Type_ : string;
  ServiceName : string;
  Path : string;
  Host : list string;
  Mode : string;
  Extra : string
}.

Definition no_transport : linkTransport := {|
  Type_ := ""; ServiceName := ""; Path := ""; Host := []; Mode := ""; Extra := "" |}.

(** [net.JoinHostPort] *)
Definition hostPort (host : string) (port : Z) : string :=
  if str_has ":" host then "[" +:+ host +:+ "]:" +:+ Itoa port else host +:+ ":" +:+ Itoa port.

Definition Values : Type := list (string * string).

Definition set_if (c : bool) (k v : string) (q : Values) : Values := if c then Http.Values_Set q k v else q.
(** A parameter that is left out when it is empty. *)
Definition set_ne (k v : string) : Values → Values := set_if (negb (String.eqb v "")) k v.

Definition setSecurityAndTLS (t : linkTLS) (q : Values) : Values :=
  let q := if reality t then Http.Values_Set q "security" "reality"
           else set_if (Enabled t) "security" "tls" q in
  let q := set_ne "sni" (ServerName t) q in
  let q := set_ne "fp" (Fingerprint t) q in
  let q := set_if (negb (bool_decide (ALPN t = []))) "alpn" (Join "," (ALPN t)) q in
  let q := set_if (Insecure t) "allowInsecure" "1" q in
  if reality t then set_ne "sid" (RealityShortID t) (Http.Values_Set q "pbk" (RealityPub t)) else q.

Definition setTransport (tr : linkTransport) (q : Values) : Values :=
  let t := Type_ tr in
  let q := set_if (negb (String.eqb t "") && negb (String.eqb t "tcp")) "type" t q in
  let q := if String.eqb t "grpc" then set_ne "serviceName" (ServiceName tr) q
           else if String.eqb t "ws" || String.eqb t "http" || String.eqb t "xhttp" then
             set_if (negb (bool_decide (Host tr = []))) "host" (Join "," (Host tr)) (set_ne "path" (Path tr) q)
           else q in
  if String.eqb t "xhttp" then set_ne "extra" (Extra tr) (set_ne "mode" (Mode tr) q) else q.

(** The URL of a link. *)
Definition link_url (scheme : string) (user : Url.Userinfo) (host : string) (port : Z) (q : Values) (name : string)
    : Url.URL := {|
  Url.Scheme := scheme; Url.Opaque := ""; Url.User := Some user; Url.Host := hostPort host port; Url.Path := "";
  Url.RawPath := ""; Url.OmitHost := false; Url.ForceQuery := false; Url.RawQuery := Http.Encode q;
  Url.Fragment := name; Url.RawFragment := "" |}.

Definition url_user (name : string) : Url.Userinfo := {| Url.username := name; Url.password := None |}.

Definition buildVLESSLink (name uuid host : string) (port : Z) (flow : string) (tls : linkTLS) (tr : linkTransport)
    : string :=
  Url.URL_String (link_url "vless" (url_user uuid) host port
    (set_ne "flow" flow (setTransport tr (setSecurityAndTLS tls []))) name).

Definition buildTrojanLink (name password host : string) (port : Z) (tls : linkTLS) (tr : linkTransport) : string :=
  Url.URL_String (link_url "trojan" (url_user password) host port (setTransport tr (setSecurityAndTLS tls [])) name).

Definition buildShadowsocksLink (name method password host : string) (port : Z) (plugin pluginOpts : string) : string :=
  let userinfo := Base64.EncodeToString Base64.URLEncoding (method +:+ ":" +:+ password) in
  let q := if String.eqb plugin "" then []
           else Http.Values_Set [] "plugin"
                  (if String.eqb pluginOpts "" then plugin else plugin +:+ ";" +:+ pluginOpts) in
  Url.URL_String (link_url "ss" (url_user userinfo) host port q name).

Definition buildHysteria2Link (name password host : string) (port upMbps downMbps : Z) (obfsType obfsPassword : string)
    (tls : linkTLS) : string :=
  let q := set_ne "sni" (ServerName tls) [] in
  let q := set_if (negb (bool_decide (ALPN tls = []))) "alpn" (Join "," (ALPN tls)) q in
  let q := set_if (Insecure tls) "insecure" "1" q in
  let q := if String.eqb obfsType "" then q
           else set_ne "obfs-password" obfsPassword (Http.Values_Set q "obfs" obfsType) in
  let q := set_if (0 <? upMbps)%Z "up" (Itoa upMbps) q in
  let q := set_if (0 <? downMbps)%Z "down" (Itoa downMbps) q in
  Url.URL_String (link_url "hysteria2" (url_user password) host port q name).

Definition buildTUICLink (name uuid password host : string) (port : Z) (congestion udpRelayMode : string)
    (zeroRTT : bool) (tls : linkTLS) : string :=
  let q := set_ne "sni" (ServerName tls) [] in
  let q := set_if (negb (bool_decide (ALPN tls = []))) "alpn" (Join "," (ALPN tls)) q in
  let q := set_if (Insecure tls) "allow_insecure" "1" q in
  let q := set_ne "congestion_control" congestion q in
  let q := set_ne "udp_relay_mode" udpRelayMode q in
  let q := set_if zeroRTT "zero_rtt_handshake" "1" q in
  Url.URL_String (link_url "tuic" {| Url.username := uuid; Url.password := Some password |} host port q name).

(** [json.Marshal] of a [vmessPayload]: the members in the order of its
    fields, those marked omitempty only when they are not empty. *)
Definition jstr (s : string) : Json.json := Json.JStr (Json.quote_body s).
Definition jint (z : Z) : Json.json := Json.JNum (Itoa z).
Definition omitempty (k v : string) : list (string * Json.json) := if String.eqb v "" then [] else [(k, jstr v)].

Definition vmess_network (t : string) : option string :=
  if String.eqb t "" || String.eqb t "tcp" then Some "tcp"
  else if String.eqb t "ws" then Some "ws"
  else if String.eqb t "grpc" then Some "grpc"
  else if String.eqb t "http" then Some "h2" else None.

Definition vmess_payload (name uuid host : string) (port alterID : Z) (network : string) (tls : linkTLS)
    (tr : linkTransport) : Json.json :=
  let on (s : string) := if Enabled tls then s else "" in
  Json.JObj ([("v", jstr "2"); ("ps", jstr name); ("add", jstr host); ("port", jint port); ("id", jstr uuid);
              ("aid", jint alterID); ("scy", jstr "auto"); ("net", jstr network)] ++
             omitempty "host" (default "" (head (Host tr))) ++
             omitempty "path" (if String.eqb network "grpc" then ServiceName tr else Path tr) ++
             omitempty "tls" (on "tls") ++ omitempty "sni" (on (ServerName tls)) ++
             omitempty "alpn" (on (Join "," (ALPN tls))) ++ omitempty "fp" (on (Fingerprint tls))).

Definition buildVMessLink (name uuid host : string) (port alterID : Z) (tls : linkTLS) (tr : linkTransport)
    : option string :=
  network ← vmess_network (Type_ tr);
  Some ("vmess://" +:+ Base64.EncodeToString Base64.StdEncoding
          (Json.json_text (vmess_payload name uuid host port alterID network tls tr))).

(** ** Reading JSON into structs *)

(** Each field reads, in order, the members whose name folds to its own, from
    the value it has; [None] is a type error. *)
Fixpoint read_all {A} (dec : A → Json.json → option A) (old : A) (vs : list Json.json) : option A :=
  match vs with
  | [] => Some old
  | v :: vs => x ← dec old v; read_all dec x vs
  end.

Definition values_of (name : string) (ms : list (string * Json.json)) : list Json.json :=
  snd <$> filter (λ m, Registry.match_lit name (Json.unquote m.1) = Some "") ms.

Definition field {A} (dec : A → Json.json → option A) (old : A) (name : string) (ms : list (string * Json.json))
    : option A := read_all dec old (values_of name ms).

Definition dec_string (old : string) (v : Json.json) : option string :=
  match v with Json.JStr raw => Some (Json.unquote raw) | Json.JNull => Some old | _ => None end.
Definition dec_int (old : Z) (v : Json.json) : option Z :=
  match v with Json.JNum raw => Atoi raw | Json.JNull => Some old | _ => None end.
Definition dec_bool (old : bool) (v : Json.json) : option bool :=
  match v with Json.JBool b => Some b | Json.JNull => Some old | _ => None end.

(** The elements of a slice are read over the ones it had. *)
Fixpoint dec_elements (old : list string) (vs : list Json.json) : option (list string) :=
  match vs with
  | [] => Some []
  | v :: vs => x ← dec_string (default "" (head old)) v; xs ← dec_elements (tail old) vs; Some (x :: xs)
  end.
Definition dec_strings (old : list string) (v : Json.json) : option (list string) :=
  match v with Json.JArr vs => dec_elements old vs | Json.JNull => Some [] | _ => None end.

(** A [json.RawMessage], kept as a document; null is one as well. *)
Definition dec_raw (old : option Json.json) (v : Json.json) : option (option Json.json) := Some (Some v).

(** A struct, and a pointer to one. *)
Definition dec_struct {A} (members : A → list (string * Json.json) → option A) (old : A) (v : Json.json) : option A :=
  match v with Json.JObj ms => members old ms | Json.JNull => Some old | _ => None end.
Definition dec_ptr {A} (zero : A) (dec : A → Json.json → option A) (old : option A) (v : Json.json)
    : option (option A) :=
  match v with Json.JNull => Some None | _ => x ← dec (default zero old) v; Some (Some x) end.

(** ** A sing-box configuration *)

Record sbReality := { rEnabled : bool; PublicKey : string; ShortID : string }.
Record sbTLS := {
  tEnabled : bool;
  tServerName : string;
  tInsecure : bool;
  tALPN : list string;
  UTLS : option string;        (* its one field, the fingerprint *)
  Reality : option sbReality
}.
Record sbTransport := {
  sType : string;
  sServiceName : string;
  sPath : string;
  sHost : list string;
  sMode : string;
  sExtra : option Json.json
}.

Definition dec_sbReality (old : sbReality) (ms : list (string * Json.json)) : option sbReality :=
  e ← field dec_bool (rEnabled old) "enabled" ms; k ← field dec_string (PublicKey old) "public_key" ms;
  i ← field dec_string (ShortID old) "short_id" ms;
  Some {| rEnabled := e; PublicKey := k; ShortID := i |}.

Definition no_sbReality : sbReality := {| rEnabled := false; PublicKey := ""; ShortID := "" |}.

Definition dec_sbTLS (old : sbTLS) (ms : list (string * Json.json)) : option sbTLS :=
  e ← field dec_bool (tEnabled old) "enabled" ms; n ← field dec_string (tServerName old) "server_name" ms;
  i ← field dec_bool (tInsecure old) "insecure" ms; a ← field dec_strings (tALPN old) "alpn" ms;
  u ← field (dec_ptr "" (dec_struct (λ fp ms, field dec_string fp "fingerprint" ms))) (UTLS old) "utls" ms;
  r ← field (dec_ptr no_sbReality (dec_struct dec_sbReality)) (Reality old) "reality" ms;
  Some {| tEnabled := e; tServerName := n; tInsecure := i; tALPN := a; UTLS := u; Reality := r |}.

Definition no_sbTLS : sbTLS := {|
  tEnabled := false; tServerName := ""; tInsecure := false; tALPN := []; UTLS := None; Reality := None |}.

Definition dec_sbTransport (old : sbTransport) (ms : list (string * Json.json)) : option sbTransport :=
  t ← field dec_string (sType old) "type" ms; n ← field dec_string (sServiceName old) "service_name" ms;
  p ← field dec_string (sPath old) "path" ms; h ← field dec_strings (sHost old) "host" ms;
  m ← field dec_string (sMode old) "mode" ms; x ← field dec_raw (sExtra old) "extra" ms;
  Some {| sType := t; sServiceName := n; sPath := p; sHost := h; sMode := m; sExtra := x |}.

Definition no_sbTransport : sbTransport := {|
  sType := ""; sServiceName := ""; sPath := ""; sHost := []; sMode := ""; sExtra := None |}.

Definition toLinkTLS (t : option sbTLS) : linkTLS :=
  match t with
  | None => no_tls
  | Some t =>
      let r := match Reality t with Some r => if rEnabled r then r else no_sbReality | None => no_sbReality end in
      {| Enabled := tEnabled t; ServerName := tServerName t; Insecure := tInsecure t; ALPN := tALPN t;
         Fingerprint := default "" (UTLS t); RealityPub := PublicKey r; RealityShortID := ShortID r |}
  end.

(** The extra document is taken without the white space between its tokens,
    which [vless.Parse] drops. *)
Definition toLinkTransport (t : option sbTransport) : linkTransport :=
  match t with
  | None => no_transport
  | Some t => {| Type_ := sType t; ServiceName := sServiceName t; Path := sPath t; Host := sHost t; Mode := sMode t;
                 Extra := match sExtra t with Some v => Json.json_text v | None => "" end |}
  end.

(** What every server entry has. *)
Record sbServer := { Tag : string; Server : string; ServerPort : Z; sTLS : option sbTLS }.

Definition dec_sbServer (ms : list (string * Json.json)) : option sbServer :=
  t ← field dec_string "" "tag" ms; s ← field dec_string "" "server" ms; p ← field dec_int 0%Z "server_port" ms;
  l ← field (dec_ptr no_sbTLS (dec_struct dec_sbTLS)) None "tls" ms;
  Some {| Tag := t; Server := s; ServerPort := p; sTLS := l |}.

Definition dec_transport (ms : list (string * Json.json)) : option (option sbTransport) :=
  field (dec_ptr no_sbTransport (dec_struct dec_sbTransport)) None "transport" ms.

Definition given (s : string) : bool := negb (String.eqb s "").

(** The link of an entry, one definition for each type; [None] skips it. *)
Definition sbVLESS (ms : list (string * Json.json)) : option string :=
  o ← dec_sbServer ms; tr ← dec_transport ms;
  uuid ← field dec_string "" "uuid" ms; flow ← field dec_string "" "flow" ms;
  if given (Server o) && given uuid
  then Some (buildVLESSLink (Tag o) uuid (Server o) (ServerPort o) flow (toLinkTLS (sTLS o)) (toLinkTransport tr))
  else None.

Definition sbVMess (ms : list (string * Json.json)) : option string :=
  o ← dec_sbServer ms; tr ← dec_transport ms;
  uuid ← field dec_string "" "uuid" ms; aid ← field dec_int 0%Z "alter_id" ms;
  if given (Server o) && given uuid
  then buildVMessLink (Tag o) uuid (Server o) (ServerPort o) aid (toLinkTLS (sTLS o)) (toLinkTransport tr)
  else None.

Definition sbTrojan (ms : list (string * Json.json)) : option string :=
  o ← dec_sbServer ms; tr ← dec_transport ms; password ← field dec_string "" "password" ms;
  if given (Server o) && given password
  then Some (buildTrojanLink (Tag o) password (Server o) (ServerPort o) (toLinkTLS (sTLS o)) (toLinkTransport tr))
  else None.

(** It has no TLS block, so a member of that name is not read. *)
Definition sbShadowsocks (ms : list (string * Json.json)) : option string :=
  t ← field dec_string "" "tag" ms; s ← field dec_string "" "server" ms; p ← field dec_int 0%Z "server_port" ms;
  method ← field dec_string "" "method" ms; password ← field dec_string "" "password" ms;
  plugin ← field dec_string "" "plugin" ms; opts ← field dec_string "" "plugin_opts" ms;
  if given s && given method then Some (buildShadowsocksLink t method password s p plugin opts) else None.

Definition dec_obfs (old : string * string) (ms : list (string * Json.json)) : option (string * string) :=
  t ← field dec_string old.1 "type" ms; p ← field dec_string old.2 "password" ms; Some (t, p).

Definition sbHysteria2 (ms : list (string * Json.json)) : option string :=
  o ← dec_sbServer ms; up ← field dec_int 0%Z "up_mbps" ms; down ← field dec_int 0%Z "down_mbps" ms;
  obfs ← field (dec_ptr ("", "") (dec_struct dec_obfs)) None "obfs" ms;
  password ← field dec_string "" "password" ms;
  let '(obfsType, obfsPassword) := default ("", "") obfs in
  if given (Server o)
  then Some (buildHysteria2Link (Tag o) password (Server o) (ServerPort o) up down obfsType obfsPassword
               (toLinkTLS (sTLS o)))
  else None.

Definition sbTUIC (ms : list (string * Json.json)) : option string :=
  o ← dec_sbServer ms; uuid ← field dec_string "" "uuid" ms; password ← field dec_string "" "password" ms;
  cc ← field dec_string "" "congestion_control" ms; udp ← field dec_string "" "udp_relay_mode" ms;
  zero ← field dec_bool false "zero_rtt_handshake" ms;
  if given (Server o) && given uuid
  then Some (buildTUICLink (Tag o) uuid password (Server o) (ServerPort o) cc udp zero (toLinkTLS (sTLS o)))
  else None.

Definition sb_entry (entry : Json.json) : option string :=
  let ms := match entry with Json.JObj ms => ms | _ => [] end in
  t ← match entry with
      | Json.JObj ms => field dec_string "" "type" ms
      | Json.JNull => Some ""
      | _ => None
      end;
  if String.eqb t "vless" then sbVLESS ms
  else if String.eqb t "vmess" then sbVMess ms
  else if String.eqb t "trojan" then sbTrojan ms
  else if String.eqb t "shadowsocks" then sbShadowsocks ms
  else if String.eqb t "hysteria2" then sbHysteria2 ms
  else if String.eqb t "tuic" then sbTUIC ms
  else None.

Inductive error :=
  | ErrEmpty | ErrNoLinks (bytes : nat) | ErrInvalidJSON | ErrNoField | ErrInvalidArray (what : string)
  | ErrNoKnownLinks | ErrInvalidOutbounds | ErrNoOutbound | ErrNoProxy.

(** An answer without a link is an error. *)
Definition some_links (e : error) (links : list string) : result error (list string) :=
  match links with [] => Err e | _ => Ok links end.

Definition singboxOutbounds (raw : Json.json) : result error (list string) :=
  match raw with
  | Json.JArr entries => some_links ErrNoOutbound (omap sb_entry entries)
  | Json.JNull => Err ErrNoOutbound
  | _ => Err ErrInvalidOutbounds
  end.

(** ** A Clash configuration *)

(** The proxy the YAML decoder gives, its nested options flattened: of the ws
    headers the Host, of the xhttp extra its JSON text when it has members and
    can be marshalled. *)
Record clashProxy := {
  cType : string; cName : string; cServer : string; cPort : Z; cUUID : string; cPassword : string; Cipher : string;
  AlterID : Z; Network : string; cTLS : bool; cServerName : string; SkipCertVerify : bool; cALPN : list string;
  ClientFingerprint : string; cFlow : string;
  WSOpts : option (string * string);                                (* path, headers["Host"] *)
  GRPCOpts : option string;                                         (* grpc-service-name *)
  XHTTPOpts : option (string * string * string * option string);    (* path, host, mode, extra *)
  RealityOpts : option (string * string);                           (* public-key, short-id *)
  cPlugin : string; cObfs : string; cObfsPassword : string; cUp : Z; cDown : Z;
  CongestionControl : string; UDPRelayMode : string; ReduceRTT : bool
}.

Definition clash_tls (p : clashProxy) : linkTLS :=
  let '(on, pub, short) :=
    match RealityOpts p with
    | Some (k, i) => if given k then (true, k, i) else (cTLS p, "", "")
    | None => (cTLS p, "", "")
    end in
  {| Enabled := on; ServerName := cServerName p; Insecure := SkipCertVerify p; ALPN := cALPN p;
     Fingerprint := ClientFingerprint p; RealityPub := pub; RealityShortID := short |}.

Definition one_host (h : string) : list string := if given h then [h] else [].

Definition clash_transport (p : clashProxy) : linkTransport :=
  let n := Network p in
  let mk (service path : string) (host : list string) (mode extra : string) :=
    {| Type_ := n; ServiceName := service; Path := path; Host := host; Mode := mode; Extra := extra |} in
  if String.eqb n "ws" then
    match WSOpts p with Some (path, host) => mk "" path (one_host host) "" "" | None => mk "" "" [] "" "" end
  else if String.eqb n "grpc" then mk (default "" (GRPCOpts p)) "" [] "" ""
  else if String.eqb n "xhttp" then
    match XHTTPOpts p with
    | Some (path, host, mode, extra) => mk "" path (one_host host) mode (default "" extra)
    | None => mk "" "" [] "" ""
    end
  else mk "" "" [] "" "".

Definition clash_link (p : clashProxy) : option string :=
  let t := cType p in
  if String.eqb t "vless" then
    if given (cServer p) && given (cUUID p)
    then Some (buildVLESSLink (cName p) (cUUID p) (cServer p) (cPort p) (cFlow p) (clash_tls p) (clash_transport p)) else None
  else if String.eqb t "vmess" then
    if given (cServer p) && given (cUUID p)
    then buildVMessLink (cName p) (cUUID p) (cServer p) (cPort p) (AlterID p) (clash_tls p) (clash_transport p) else None
  else if String.eqb t "trojan" then
    if given (cServer p) && given (cPassword p)
    then Some (buildTrojanLink (cName p) (cPassword p) (cServer p) (cPort p) (clash_tls p) (clash_transport p)) else None
  else if String.eqb t "ss" then
    if given (cServer p) && given (Cipher p)
    then Some (buildShadowsocksLink (cName p) (Cipher p) (cPassword p) (cServer p) (cPort p) (cPlugin p) "") else None
  else if String.eqb t "hysteria2" then
    if given (cServer p)
    then Some (buildHysteria2Link (cName p) (cPassword p) (cServer p) (cPort p) (cUp p) (cDown p) (cObfs p)
                 (cObfsPassword p) (clash_tls p)) else None
  else if String.eqb t "tuic" then
    if given (cServer p) && given (cUUID p)
    then Some (buildTUICLink (cName p) (cUUID p) (cPassword p) (cServer p) (cPort p) (CongestionControl p)
                 (UDPRelayMode p) (ReduceRTT p) (clash_tls p)) else None
  else None.

Definition clashLinks (proxies : list clashProxy) : result error (list string) :=
  some_links ErrNoProxy (omap clash_link proxies).

(** ** Reading an answer *)

Definition filterKnownLinks (raw : list string) : list string :=
  filter (λ s, head (link_starts s) = Some 0%nat) (TrimSpace <$> raw).

Definition jsonLinksArray (raw : Json.json) (field : string) : result error (list string) :=
  match dec_strings [] raw with
  | None => Err (ErrInvalidArray field)
  | Some candidates => some_links ErrNoKnownLinks (filterKnownLinks candidates)
  end.

(** [None] when the text has another shape. *)
Definition parseJSON (text : string) : option (result error (list string)) :=
  match text with
  | "" => None
  | String c _ =>
      if Ascii.eqb c "{" then
        v ← Json.Decode text;
        match v with
        | Json.JObj ms =>
            Some (match field dec_raw None "outbounds" ms, field dec_raw None "links" ms,
                        field dec_raw None "subscription" ms with
                  | Some (Some o), _, _ => singboxOutbounds o
                  | Some None, Some (Some l), _ => jsonLinksArray l "links"
                  | Some None, Some None, Some (Some b) => jsonLinksArray b "subscription"
                  | Some None, Some None, Some None => Err ErrNoField
                  | _, _, _ => Err ErrInvalidJSON
                  end)
        | _ => Some (Err ErrInvalidJSON)
        end
      else if Ascii.eqb c "[" then v ← Json.Decode text; Some (jsonLinksArray v "")
      else None
  end.

Section yaml.
(** The proxies of a text that is a YAML document; [None] is an error. *)
Context (yaml : string → option (list clashProxy)).

Definition parseClashYAML (text : string) : option (result error (list string)) :=
  match yaml text with
  | None | Some [] => None
  | Some proxies => Some (clashLinks proxies)
  end.

Definition parseStructured (text : string) : option (result error (list string)) :=
  match parseJSON text with Some r => Some r | None => parseClashYAML text end.

Definition Parse (body : string) : result error (list string) :=
  let text := TrimSpace body in
  if String.eqb text "" then Err ErrEmpty
  else match parseStructured text with
       | Some r => r
       | None =>
           let text := default text (decodeBase64 text) in
           some_links (ErrNoLinks (String.length body)) (splitLinks text)
       end.
End yaml.

(** ** What comes beside the links *)

(** Durations in nanoseconds; [Expire] in seconds, [None] when not reported. *)
Record Meta := {
  Title : string; UpdateInterval : Z; Upload : Z; Download : Z; Total : Z; Expire : option Z
}.

Definition no_meta : Meta := {|
  Title := ""; UpdateInterval := 0; Upload := 0; Download := 0; Total := 0; Expire := None |}.

Definition wrap64 (z : Z) : Z := ((z + 2 ^ 63) mod 2 ^ 64 - 2 ^ 63)%Z.

Definition HasUsage (m : Meta) : bool := ((0 <? Total m) || (0 <? Upload m) || (0 <? Download m))%Z.
Definition Used (m : Meta) : Z := wrap64 (Upload m + Download m).

Fixpoint first_decoding (encs : list Base64.Encoding) (text : string) : option string :=
  match encs with
  | [] => None
  | e :: encs => match Base64.DecodeString e text with Some d => Some d | None => first_decoding encs text end
  end.

Definition decodeTitle (raw : string) : string :=
  let raw := TrimSpace raw in
  match CutPrefix "base64:" raw with
  | None => raw
  | Some payload => default raw (first_decoding encodings (TrimSpace payload))
  end.

Definition hour : Z := 3600 * 1000000000.

Definition parse_interval (v : string) : Z :=
  let v := TrimSpace v in
  if String.eqb v "" then 0%Z
  else match Atoi v with
       | Some hours => if (0 <? hours)%Z then wrap64 (hours * hour) else 0%Z
       | None => 0%Z
       end.

Section unicode.
Context `{GoUnicode}.

Definition usage_field (m : Meta) (f : string) : Meta :=
  match Cut (TrimSpace f) "=" with
  | None => m
  | Some (key, value) =>
      match Atoi (TrimSpace value) with
      | None => m
      | Some n =>
          let k := ToLower (TrimSpace key) in
          let mk u d t x := {| Title := Title m; UpdateInterval := UpdateInterval m; Upload := u; Download := d;
                               Total := t; Expire := x |} in
          if String.eqb k "upload" then mk n (Download m) (Total m) (Expire m)
          else if String.eqb k "download" then mk (Upload m) n (Total m) (Expire m)
          else if String.eqb k "total" then mk (Upload m) (Download m) n (Expire m)
          else if String.eqb k "expire" && (0 <? n)%Z then mk (Upload m) (Download m) (Total m) (Some n)
          else m
      end
  end.

Definition ParseMeta (get : string → string) : Meta :=
  foldl usage_field
    {| Title := decodeTitle (get "profile-title"); UpdateInterval := parse_interval (get "profile-update-interval");
       Upload := 0; Download := 0; Total := 0; Expire := None |}
    (split_byte ";" (get "subscription-userinfo")).

(** ** Fetching *)

Definition maxBodySize : Z := 4194304.

(** What an attempt meets: a transport error, or a response; its body may not
    be readable. *)
Record Response := { StatusCode : Z; rBody : result string string; rGet : string → string }.

Inductive attempt_error := ErrTransport (e : string) | ErrStatus (code : Z) | ErrReadBody (e : string) | ErrTooBig.

(** [io.LimitReader] gives one byte more than the cap at most. *)
Definition attempt (resp : result string Response) : result attempt_error (string * (string → string)) :=
  match resp with
  | Err e => Err (ErrTransport e)
  | Ok r =>
      if ((StatusCode r <? 200) || (300 <=? StatusCode r))%Z then Err (ErrStatus (StatusCode r))
      else match rBody r with
           | Err e => Err (ErrReadBody e)
           | Ok body =>
               let body := String.substring 0 (Z.to_nat (maxBodySize + 1)) body in
               if (maxBodySize <? slen body)%Z then Err ErrTooBig else Ok (body, rGet r)
           end
  end.

Inductive fetch_error :=
  | ErrDirect (e : attempt_error)
  | ErrProxyClient (direct : attempt_error)
  | ErrBoth (direct proxy : attempt_error)
  | ErrParse (e : error).

Definition userAgent : string := "v2rayNG/1.9.0".

(** [FetchWithUserAgent]'s choice. *)
Definition user_agent (ua : string) : string := if String.eqb (TrimSpace ua) "" then userAgent else ua.

Section fetch.
Context (yaml : string → option (list clashProxy)).

Definition toResult (body : string) (get : string → string) : result fetch_error (list string * Meta) :=
  match Parse yaml body with
  | Err e => Err (ErrParse e)
  | Ok links => Ok (links, ParseMeta get)
  end.

(** [url.Parse] of the proxy's address. *)
Definition proxiedClient (addr : string) : bool :=
  bool_decide (is_Some (Url.Parse (if Contains addr "://" then addr else "http://" +:+ addr))).

(** [direct] and [proxied] are the responses the two attempts would get. *)
Definition fetch (proxyAddr : string) (direct proxied : result string Response)
    : result fetch_error (list string * Meta) :=
  match attempt direct with
  | Ok (body, get) => toResult body get
  | Err directErr =>
      if String.eqb proxyAddr "" then Err (ErrDirect directErr)
      else if negb (proxiedClient proxyAddr) then Err (ErrProxyClient directErr)
      else match attempt proxied with
           | Err proxyErr => Err (ErrBoth directErr proxyErr)
           | Ok (body, get) => toResult body get
           end
  end.
End fetch.
End unicode.

(** ** On answers *)

Definition sx_config : string := Json.dq
  "{'log':{},'outbounds':[{'type':'direct','tag':'direct'},
    {'type':'vless','tag':'My server','server':'example.com','server_port':443,'uuid':'b831381d-6324-4d53-ad4f-8cda48b30811',
     'flow':'xtls-rprx-vision','tls':{'enabled':true,'server_name':'sni.example','utls':{'fingerprint':'chrome'},
     'reality':{'enabled':true,'public_key':'KEY','short_id':'6ba8'}}},
    {'type':'trojan','tag':'t','server':'2001:db8::1','server_port':8443,'password':'p@ss','tls':{'enabled':true,'alpn':['h2','http/1.1']}},
    {'type':'wireguard'}, 7]}".

Example sx_links : Parse (λ _, None) sx_config = Ok [
  "vless://b831381d-6324-4d53-ad4f-8cda48b30811@example.com:443?flow=xtls-rprx-vision&fp=chrome&pbk=KEY&security=reality&sid=6ba8&sni=sni.example#My%20server";
  "trojan://p%40ss@[2001:db8::1]:8443?alpn=h2%2Chttp%2F1.1&security=tls#t"].
Proof. vm_compute. reflexivity. Qed.

Example sx_vmess : buildVMessLink "a<b" "u" "h" 1 0 no_tls no_transport =
  Some ("vmess://" +:+ Base64.EncodeToString Base64.StdEncoding
    (Json.dq "{'v':'2','ps':'a\u003cb','add':'h','port':1,'id':'u','aid':0,'scy':'auto','net':'tcp'}")).
Proof. vm_compute. reflexivity. Qed.

Example sx_shapes :
  (Parse (λ _, None) (Json.dq "[' ss://x ','http://y',null]"),
   Parse (λ _, None) (Json.dq "{'links':['vless://a'],'OUTBOUNDS':null}"),
   Parse (λ _, None) "c3M6Ly9hLHZtZXNzOi8vYg==",
   Parse (λ _, None) "vless://a?alpn=h2,http/1.1, hy2://b;",
   Parse (λ _, None) "<html>") =
  (Ok ["ss://x"], Err ErrNoOutbound, Ok ["ss://a"; "vmess://b"], Ok ["vless://a?alpn=h2,http/1.1"; "hy2://b"],
   Err (ErrNoLinks 6)).
Proof. vm_compute. reflexivity. Qed.

Example sx_meta :
  let get k := if String.eqb k "profile-title" then "base64:0YI=" else if String.eqb k "profile-update-interval" then " 12 "
               else if String.eqb k "subscription-userinfo" then "upload=1; Download = 2;total=x;expire=-1" else "" in
  @ParseMeta ascii_only get =
  {| Title := String "209" (String "130" ""); UpdateInterval := 12 * hour; Upload := 1; Download := 2; Total := 0; Expire := None |}.
Proof. vm_compute. reflexivity. Qed.

End Sub.
