(* ===== verification/SubProps.v ===== *)
(** * SubProps: what is known of [Sub]

    A link the builders make parses back, by the module of its scheme in the
    shipped registry, into what it was built from ([built_links_parse]); a
    list of links is read back from every encoding panels use. *)

From S2P Require Import Prelude GoStr GoNet GoUrl GoUrlFacts GoHttp GoQuery GoJson GoBase64 Registry Schema Link Vless.
From S2P Require Import Links Shadowsocks Shipped Sub.
Import Registry Link Shipped Sub.

Local Open Scope string_scope.
Local Open Scope list_scope.

Module SubProps.

(** ** The query of a built link *)

Lemma Get_set_if c k v q k' : Url.Get (set_if c k v q) k' = if c && String.eqb k k' then v else Url.Get q k'.
Proof. unfold set_if. destruct c; [|done]. by rewrite Get_Values_Set. Qed.

Lemma Get_set_ne k v q k' :
  Url.Get (set_ne k v q) k' = if negb (String.eqb v "") && String.eqb k k' then v else Url.Get q k'.
Proof. apply Get_set_if. Qed.

(** Where a key is set for the first time. *)
Lemma Get_set_ne_same k v q : Url.Get q k = "" → Url.Get (set_ne k v q) k = v.
Proof. rewrite Get_set_ne, String.eqb_refl, andb_true_r. by destruct (String.eqb_spec v "") as [->|]. Qed.

Lemma Get_set_ne_other k v q k' : String.eqb k k' = false → Url.Get (set_ne k v q) k' = Url.Get q k'.
Proof. intros E. by rewrite Get_set_ne, E, andb_false_r. Qed.

Lemma Get_set_if_other c k v q k' : String.eqb k k' = false → Url.Get (set_if c k v q) k' = Url.Get q k'.
Proof. intros E. by rewrite Get_set_if, E, andb_false_r. Qed.

Lemma Get_Set_other k v q k' : String.eqb k k' = false → Url.Get (Http.Values_Set q k v) k' = Url.Get q k'.
Proof. intros E. by rewrite Get_Values_Set, E. Qed.

Lemma Get_Set_same k v q : Url.Get (Http.Values_Set q k v) k = v.
Proof. by rewrite Get_Values_Set, String.eqb_refl. Qed.

(** Items a comma-separated list can hold. *)
Definition item_byte (c : ascii) : bool := solid_byte c && negb (Ascii.eqb "," c).
Definition clean_item (s : string) : Prop := s ≠ "" ∧ str_forallb item_byte s = true.

Lemma clean_item_solid s : clean_item s → str_forallb solid_byte s = true.
Proof. intros [_ Hs]. eapply str_forallb_impl; [|exact Hs]. by intros c [? _]%andb_true_iff. Qed.

Lemma Join_items_solid l : Forall clean_item l → str_forallb solid_byte (Join "," l) = true.
Proof.
  induction 1 as [|x l Hx Hl IH]; [done|]. destruct l as [|y l]; [by apply clean_item_solid|].
  change (Join "," (x :: y :: l)) with (x +:+ "," +:+ Join "," (y :: l)).
  by rewrite !str_forallb_app, (clean_item_solid x), IH.
Qed.

Lemma splitCSV_Join l : Forall clean_item l → splitCSV (Join "," l) = l.
Proof.
  intros Hl. unfold splitCSV. rewrite TrimSpace_solid by (by apply Join_items_solid).
  destruct l as [|x l]; [done|].
  assert (String.eqb (Join "," (x :: l)) "" = false) as ->.
  { apply String.eqb_neq. apply Forall_cons in Hl as [[Hx _] _]. destruct l; [done|]. by destruct x. }
  change "," with (String "," ""). rewrite split_byte_Join; [|eapply Forall_impl; [exact Hl|]|done].
  - induction Hl as [|y l' Hy _ IH]; [done|]. rewrite fmap_cons, TrimSpace_solid by (by apply clean_item_solid).
    rewrite filter_cons_True by (by destruct Hy). by f_equal.
  - intros s [_ Hs]. eapply str_forallb_impl; [|exact Hs]. by intros c [_ ?]%andb_true_iff.
Qed.

(** ** What the builders' queries say *)

Lemma Get_set_list k l q : Url.Get q k = "" →
  Url.Get (set_if (negb (bool_decide (l = []))) k (Join "," l) q) k = Join "," l.
Proof. intros Hq. rewrite Get_set_if, String.eqb_refl. by destruct l. Qed.

Lemma Get_set_flag (b : bool) k v q : Url.Get q k = "" → Url.Get (set_if b k v q) k = if b then v else "".
Proof. intros Hq. rewrite Get_set_if, String.eqb_refl. by destruct b. Qed.

(** Looks a key up in a chain of settings. *)
Ltac look :=
  repeat first
    [ rewrite Get_set_ne_other by reflexivity | rewrite Get_set_if_other by reflexivity
    | rewrite Get_Set_other by reflexivity | rewrite Get_Set_same
    | rewrite Get_set_ne_same by (look; reflexivity)
    | rewrite Get_set_list by (look; reflexivity) | rewrite Get_set_flag by (look; reflexivity) ].

Definition security_of (t : linkTLS) : string := if reality t then "reality" else if Enabled t then "tls" else "".

Lemma security_gets t : let get := Url.Get (setSecurityAndTLS t []) in
  get "security" = security_of t ∧ get "sni" = ServerName t ∧ get "fp" = Fingerprint t ∧ get "alpn" = Join "," (ALPN t) ∧
  get "allowInsecure" = (if Insecure t then "1" else "") ∧ get "pbk" = RealityPub t ∧
  get "sid" = (if reality t then RealityShortID t else "").
Proof.
  assert (Hr : reality t = false → RealityPub t = "").
  { unfold reality. by intros ->%negb_false_iff%String.eqb_eq. }
  unfold setSecurityAndTLS, security_of. destruct (reality t); cbn [orb]; split_and!; look; try done; by rewrite Hr.
Qed.

Lemma security_other t k : Forall (λ s, String.eqb s k = false) ["security"; "sni"; "fp"; "alpn"; "allowInsecure"; "pbk"; "sid"] →
  Url.Get (setSecurityAndTLS t []) k = "".
Proof.
  rewrite !Forall_cons. intros (?&?&?&?&?&?&?&_). unfold setSecurityAndTLS.
  destruct (reality t); repeat first [rewrite Get_set_ne_other by done|rewrite Get_set_if_other by done|rewrite Get_Set_other by done]; done.
Qed.

Definition has_path (tr : linkTransport) : bool :=
  String.eqb (Type_ tr) "ws" || String.eqb (Type_ tr) "http" || String.eqb (Type_ tr) "xhttp".

(** The values of a transport that its type carries. *)
Definition when (b : bool) (s : string) : string := if b then s else "".

Lemma transport_gets tr q :
  Forall (λ k, Url.Get q k = "") ["type"; "serviceName"; "path"; "host"; "mode"; "extra"] →
  let get := Url.Get (setTransport tr q) in
  get "type" = (if String.eqb (Type_ tr) "tcp" then "" else Type_ tr) ∧
  get "serviceName" = when (String.eqb (Type_ tr) "grpc") (ServiceName tr) ∧
  get "path" = when (has_path tr) (Path tr) ∧ get "host" = when (has_path tr) (Join "," (Host tr)) ∧
  get "mode" = when (String.eqb (Type_ tr) "xhttp") (Mode tr) ∧
  get "extra" = when (String.eqb (Type_ tr) "xhttp") (Extra tr).
Proof.
  rewrite !Forall_cons. intros (Ht&Hs&Hp&Hh&Hm&He&_). unfold setTransport, has_path.
  set (q1 := set_if _ "type" _ q).
  assert (H1 : Url.Get q1 "type" = (if String.eqb (Type_ tr) "tcp" then "" else Type_ tr) ∧ Url.Get q1 "serviceName" = "" ∧
    Url.Get q1 "path" = "" ∧ Url.Get q1 "host" = "" ∧ Url.Get q1 "mode" = "" ∧ Url.Get q1 "extra" = "").
  { unfold q1. split_and!; look; try done. rewrite Get_set_if, String.eqb_refl, andb_true_r, Ht.
    destruct (String.eqb_spec (Type_ tr) "") as [->|]; [done|]. cbn [negb andb]. by destruct (String.eqb (Type_ tr) "tcp"). }
  clearbody q1. destruct H1 as (H1 & H2 & H3 & H4 & H5 & H6).
  assert (Hx : String.eqb (Type_ tr) "grpc" = true → String.eqb (Type_ tr) "xhttp" = false).
  { by intros ->%String.eqb_eq. }
  destruct (String.eqb (Type_ tr) "grpc") eqn:Hg; [rewrite Hx by done; apply String.eqb_eq in Hg; rewrite Hg; cbn|].
  - rewrite Hg in H1. split_and!; look; try done. by rewrite Get_set_ne_same.
  - destruct (String.eqb (Type_ tr) "xhttp"); rewrite ?orb_true_r, ?orb_false_r; [|destruct (_ || _)];
      cbn [when]; split_and!; look; try done; rewrite ?Get_set_ne_same, ?Get_set_list; look; done.
Qed.

Lemma transport_other tr q k :
  Forall (λ s, String.eqb s k = false) ["type"; "serviceName"; "path"; "host"; "mode"; "extra"] →
  Url.Get (setTransport tr q) k = Url.Get q k.
Proof.
  rewrite !Forall_cons. intros (?&?&?&?&?&?&_). unfold setTransport.
  repeat match goal with |- context [if ?b then _ else _] => destruct b end;
    repeat first [rewrite Get_set_ne_other by done|rewrite Get_set_if_other by done]; done.
Qed.

(** *** Parsing it back *)

(** A link a builder makes goes through the module's decoder, which sees the
    same user, host, port and query. *)
Lemma built_parses {P} (m : LinkModule P) scheme user host port q name (x : P) :
  scheme_ok scheme = true → str_map lower_byte scheme = scheme → existsb (EqualFold scheme) (lSchemes m) = true →
  plain_host host = true → (0 <= port)%Z →
  (∀ q', (∀ k, Url.Get q' k = Url.Get q k) → decode m (Some user) host (Itoa port) q' = Ok x) →
  let l := Url.URL_String (link_url scheme user host port q name) in
  TrimSpace l = l ∧
  Link.Parse m l = Ok {| Protocol := lName m; Label := name; Raw := l; Params := x |}.
Proof.
  intros Hs Hl He Hh Hp Hd l.
  assert (Hport : str_forallb is_digit (Itoa port) = true).
  { unfold Itoa. destruct (port <? 0)%Z eqn:E; [apply Z.ltb_lt in E; lia|]. apply utoa_digits. }
  assert (l = Url.URL_String (built_link scheme user (join_host_port host (Itoa port)) q name)) as El by done.
  assert (TrimSpace l = l) as Ht.
  { apply TrimSpace_solid. rewrite El. by apply built_solid. }
  split; [done|]. unfold Link.Parse. rewrite Ht, El.
  destruct (Parse_built scheme user host (Itoa port) q name Hs Hl Hh Hport) as (v & -> & Hv1 & Hv2 & Hv3 & Hv4 & Hv5 & Hv6).
  unfold decode_url. rewrite Hv1, He, Hv2, Hv3, Hv4, (Hd _ Hv6). cbn [negb rbind]. by rewrite Hv5.
Qed.

Lemma ParseUint16_Itoa z : (0 <= z <= 65535)%Z → ParseUint16 (Itoa z) = Some z.
Proof.
  intros Hz. pose proof (Atoi_Itoa z) as Ha. unfold ParseUint16.
  assert (Hu : Itoa z = utoa (Z.to_N z)).
  { unfold Itoa. destruct (z <? 0)%Z eqn:E; [apply Z.ltb_lt in E; lia|done]. }
  rewrite Hu, utoa_digits, parse_digits_utoa. cbn. rewrite Z2N.id by lia.
  destruct (z <=? 65535)%Z eqn:E; [done|]. apply Z.leb_gt in E. lia.
Qed.

Lemma need_port_Itoa z : (1 <= z <= 65535)%Z → need_port (Itoa z) = Ok z.
Proof.
  intros Hz. unfold need_port. destruct (String.eqb_spec (Itoa z) "") as [E|_].
  - exfalso. revert E. unfold Itoa. destruct (z <? 0)%Z; [done|]. apply utoa_nonempty.
  - rewrite ParseUint16_Itoa by lia. destruct (z =? 0)%Z eqn:E; [apply Z.eqb_eq in E; lia|done].
Qed.

Lemma need_host_plain h : plain_host h = true → need_host h = Ok h.
Proof. unfold plain_host, need_host. by destruct (String.eqb h ""). Qed.

(** A server that a link can name. *)
Definition addressable (host : string) (port : Z) : Prop := plain_host host = true ∧ (1 <= port <= 65535)%Z.

Definition clean_tls (t : linkTLS) : Prop := Forall clean_item (ALPN t).
Definition clean_transport (known : list string) (tr : linkTransport) : Prop :=
  Type_ tr ∈ "" :: known ∧ Forall clean_item (Sub.Host tr).

Definition tls_params (t : linkTLS) : TLSParams := {|
  pServerName := Sub.ServerName t; pFingerprint := Sub.Fingerprint t; pALPN := ALPN t; pInsecure := Sub.Insecure t |}.

Definition transport_params (tr : linkTransport) (mode extra : string) : TransportParams := {|
  tType := if String.eqb (Type_ tr) "" then "tcp" else Type_ tr;
  tServiceName := when (String.eqb (Type_ tr) "grpc") (Sub.ServiceName tr);
  tPath := when (has_path tr) (Sub.Path tr); tHost := if has_path tr then Sub.Host tr else [];
  tHeaderType := ""; tMode := mode; tExtra := extra |}.

Section unicode.
Context `{GoUnicode}.

Lemma lower_trimmed_plain s : str_forallb solid_byte s = true → str_map lower_byte s = s → lower_trimmed s = s.
Proof.
  intros Hs Hl. unfold lower_trimmed. rewrite TrimSpace_solid by done. unfold ToLower.
  rewrite (str_forallb_impl solid_byte) by (done || by intros c [? _]%andb_true_iff). done.
Qed.

Lemma security_known t : lower_trimmed (security_of t) = security_of t ∧
  (security_of t = "reality" ↔ reality t = true) ∧ security_of t ∈ ["" : string; "tls"; "reality"].
Proof. unfold security_of. destruct (reality t), (Enabled t); repeat constructor; done. Qed.

Definition vless_params (uuid host : string) (port : Z) (flow : string) (tls : linkTLS) (tr : linkTransport)
    : Vless.Params := {|
  Vless.UUID := uuid; Vless.Host := host; Vless.Port := port; Vless.Flow := flow;
  Vless.Security := or_default (security_of tls) "none"; Vless.TLS := tls_params tls;
  Vless.Reality := if reality tls
    then {| Vless.Enabled := true; Vless.PublicKey := RealityPub tls; Vless.ShortID := RealityShortID tls;
            Vless.ClientVersion := "" |}
    else Vless.no_reality;
  Vless.Transport := transport_params tr (when (String.eqb (Type_ tr) "xhttp") (Mode tr))
    (when (String.eqb (Type_ tr) "xhttp") (default "" (Json.Compact (Extra tr)))) |}.

(** The keys both builders with a transport write. *)
Definition link_query (tls : linkTLS) (tr : linkTransport) : Values := setTransport tr (setSecurityAndTLS tls []).

Lemma link_gets tls tr : let get := Url.Get (link_query tls tr) in
  get "security" = security_of tls ∧ get "sni" = Sub.ServerName tls ∧ get "fp" = Sub.Fingerprint tls ∧
  get "alpn" = Join "," (ALPN tls) ∧ get "allowInsecure" = (if Sub.Insecure tls then "1" else "") ∧
  get "pbk" = RealityPub tls ∧ get "sid" = (if reality tls then RealityShortID tls else "") ∧
  get "type" = (if String.eqb (Type_ tr) "tcp" then "" else Type_ tr) ∧
  get "serviceName" = when (String.eqb (Type_ tr) "grpc") (Sub.ServiceName tr) ∧
  get "path" = when (has_path tr) (Sub.Path tr) ∧ get "host" = when (has_path tr) (Join "," (Sub.Host tr)) ∧
  get "mode" = when (String.eqb (Type_ tr) "xhttp") (Mode tr) ∧
  get "extra" = when (String.eqb (Type_ tr) "xhttp") (Extra tr).
Proof.
  cbv zeta. unfold link_query. rewrite !transport_other by repeat constructor.
  destruct (security_gets tls) as (?&?&?&?&?&?&?).
  destruct (transport_gets tr (setSecurityAndTLS tls [])) as (?&?&?&?&?&?); [|by split_and!].
  rewrite !Forall_cons. split_and!; try done; apply security_other; by repeat constructor.
Qed.

Lemma link_other tls tr k :
  Forall (λ s, String.eqb s k = false) ["type"; "serviceName"; "path"; "host"; "mode"; "extra"; "security"; "sni";
    "fp"; "alpn"; "allowInsecure"; "pbk"; "sid"] → Url.Get (link_query tls tr) k = "".
Proof.
  rewrite !Forall_cons. intros (?&?&?&?&?&?&?&?&?&?&?&?&?&_). unfold link_query.
  rewrite transport_other by (by repeat constructor). apply security_other. by repeat constructor.
Qed.

(** Reads a query off the one it equals. *)
Lemma splitCSV_when b l : Forall clean_item l → splitCSV (when b (Join "," l)) = if b then l else [].
Proof. intros Hl. destruct b; [by apply splitCSV_Join|done]. Qed.

Lemma is_true_flag (b : bool) : is_true (if b then "1" else "") = b.
Proof. by destruct b. Qed.

Lemma firstNonEmpty_one s : firstNonEmpty [s; ""] = s.
Proof. cbn. by destruct (String.eqb_spec s "") as [->|]. Qed.

Lemma known_type tr known : clean_transport known tr → Forall (λ t, lower_trimmed t = t ∧ t ≠ "") ("tcp" :: known) →
  or_default (lower_trimmed (if String.eqb (Type_ tr) "tcp" then "" else Type_ tr)) "tcp" =
    (if String.eqb (Type_ tr) "" then "tcp" else Type_ tr).
Proof.
  intros [Ht _] Hk. rewrite Forall_forall in Hk. apply elem_of_cons in Ht as [->|Ht]; [done|].
  destruct (Hk (Type_ tr)) as [Hl Hne]; [by right|]. rewrite (proj2 (String.eqb_neq (Type_ tr) "")) by done.
  destruct (String.eqb_spec (Type_ tr) "tcp") as [->|]; [done|]. unfold or_default. rewrite Hl.
  by rewrite (proj2 (String.eqb_neq (Type_ tr) "")) by done.
Qed.

(** The transport a known type stands for. *)
Definition transport_of (tr : linkTransport) : string := if String.eqb (Type_ tr) "" then "tcp" else Type_ tr.

Lemma transport_of_known tr known : clean_transport known tr → "tcp" ∈ known → transport_of tr ∈ known.
Proof.
  intros [Ht _] Hk. unfold transport_of. apply elem_of_cons in Ht as [->|Ht]; [done|].
  by destruct (String.eqb (Type_ tr) "").
Qed.

Lemma transport_of_xhttp tr : String.eqb (transport_of tr) "xhttp" = String.eqb (Type_ tr) "xhttp".
Proof. unfold transport_of. by destruct (String.eqb_spec (Type_ tr) "") as [->|]. Qed.

Lemma xhttp_built tr q :
  Url.Get q "mode" = when (String.eqb (Type_ tr) "xhttp") (Mode tr) →
  Url.Get q "extra" = when (String.eqb (Type_ tr) "xhttp") (Extra tr) →
  (Type_ tr = "xhttp" → Mode tr ∈ Vless.xhttp_modes ∧ (Extra tr = "" ∨ Json.Valid (Extra tr) = true)) →
  Vless.xhttp_params q (transport_of tr) =
    Ok (when (String.eqb (Type_ tr) "xhttp") (Mode tr), when (String.eqb (Type_ tr) "xhttp") (default "" (Json.Compact (Extra tr)))).
Proof.
  intros Hm He Hx. unfold Vless.xhttp_params. rewrite transport_of_xhttp, Hm, He.
  destruct (String.eqb_spec (Type_ tr) "xhttp") as [E|]; [|done]. cbn [when]. destruct (Hx E) as [Hmode Hextra].
  assert (lower_trimmed (Mode tr) = Mode tr) as ->.
  { unfold Vless.xhttp_modes in Hmode. rewrite !elem_of_cons, elem_of_nil in Hmode.
    destruct Hmode as [->|[->|[->|[->|[->|[]]]]]]; done. }
  rewrite bool_decide_eq_true_2 by done. destruct Hextra as [->|Hv]; [done|].
  destruct (String.eqb_spec (Extra tr) "") as [->|]; [done|]. rewrite Hv. cbn [negb].
  destruct (Json.Valid_Compact _ Hv) as [c ->]. done.
Qed.

Lemma vless_decodes uuid host port flow tls tr q :
  is_uuid uuid = true → addressable host port → TrimSpace flow = flow → clean_tls tls →
  clean_transport Vless.transports tr →
  (Type_ tr = "xhttp" → Mode tr ∈ Vless.xhttp_modes ∧ (Extra tr = "" ∨ Json.Valid (Extra tr) = true)) →
  (∀ k, Url.Get q k = Url.Get (set_ne "flow" flow (link_query tls tr)) k) →
  Vless.decode_vless (Some (url_user uuid)) host (Itoa port) q = Ok (vless_params uuid host port flow tls tr).
Proof.
  intros Hu [Hh Hp] Hf Ht Htr Hx Hq. destruct (link_gets tls tr) as (G1&G2&G3&G4&G5&G6&G7&G8&G9&G10&G11&G12&G13).
  unfold Vless.decode_vless, need_user. cbn [Url.username url_user].
  destruct (String.eqb_spec uuid "") as [->|_]; [done|]. cbn [rbind]. rewrite Hu. cbn [negb].
  rewrite need_host_plain, need_port_Itoa by done. cbn [rbind].
  unfold Vless.check_client_version, Vless.check_security, Vless.check_transport, Vless.check_encryption,
    Vless.reality_params.
  assert (Hx' : Vless.xhttp_params q (transport_of tr) = Ok (when (String.eqb (Type_ tr) "xhttp") (Mode tr),
    when (String.eqb (Type_ tr) "xhttp") (default "" (Json.Compact (Extra tr))))).
  { apply xhttp_built; [| |done]; rewrite Hq, Get_set_ne_other by reflexivity; done. }
  rewrite !Hq. rewrite Get_set_ne_same by (apply link_other; by repeat constructor).
  rewrite !Get_set_ne_other by reflexivity. rewrite G1, G2, G3, G4, G5, G6, G7, G8, G9, G10, G11.
  rewrite !link_other by (by repeat constructor). cbn [rbind].
  change (TrimSpace "") with "". cbn [String.eqb negb andb rbind].
  destruct (security_known tls) as (S1 & S2 & S3). rewrite S1.
  rewrite (known_type tr _ Htr) by (by repeat constructor). fold (transport_of tr).
  pose proof (transport_of_known _ _ Htr ltac:(by left)) as Hk.
  assert (String.eqb (transport_of tr) "splithttp" = false) as ->.
  { apply String.eqb_neq. intros E. rewrite E in Hk. unfold Vless.transports in Hk.
    rewrite !elem_of_cons, elem_of_nil in Hk. by destruct Hk as [|[|[|[|[|]]]]]. }
  rewrite bool_decide_eq_true_2 by (unfold security_of; destruct (reality tls), (Sub.Enabled tls); by repeat constructor).
  cbn [rbind]. rewrite bool_decide_eq_true_2 by done. cbn [rbind].
  change (lower_trimmed "") with "". cbn [String.eqb negb andb rbind].
  assert (Hr : reality tls = false → String.eqb (or_default (security_of tls) "none") "reality" = false).
  { unfold security_of. intros ->. by destruct (Sub.Enabled tls). }
  rewrite Hx', Hf, !splitCSV_when, splitCSV_Join, is_true_flag, firstNonEmpty_one by (done || apply Htr).
  unfold vless_params, tls_params, transport_params. fold (transport_of tr).
  destruct (reality tls) eqn:Er.
  - assert (security_of tls = "reality") as -> by (unfold security_of; by rewrite Er). cbn [String.eqb or_default].
    unfold reality in Er. apply negb_true_iff in Er. rewrite Er. done.
  - rewrite Hr by done. done.
Qed.

Definition trojan_params (password host : string) (port : Z) (tls : linkTLS) (tr : linkTransport) : Trojan.Params := {|
  Trojan.Password := password; Trojan.Host := host; Trojan.Port := port;
  Trojan.Security := if reality tls then "reality" else "tls"; Trojan.TLS := tls_params tls;
  Trojan.Reality := if reality tls
    then {| Trojan.Enabled := true; Trojan.PublicKey := RealityPub tls; Trojan.ShortID := RealityShortID tls |}
    else {| Trojan.Enabled := false; Trojan.PublicKey := ""; Trojan.ShortID := "" |};
  Trojan.Transport := transport_params tr "" "" |}.

Lemma trojan_decodes password host port tls tr q :
  password ≠ "" → addressable host port → clean_tls tls → clean_transport Trojan.transports tr →
  (∀ k, Url.Get q k = Url.Get (link_query tls tr) k) →
  Trojan.decode_trojan (Some (url_user password)) host (Itoa port) q = Ok (trojan_params password host port tls tr).
Proof.
  intros Hpw [Hh Hp] Ht Htr Hq. destruct (link_gets tls tr) as (G1&G2&G3&G4&G5&G6&G7&G8&G9&G10&G11&_&_).
  unfold Trojan.decode_trojan, need_user. cbn [Url.username url_user].
  rewrite (proj2 (String.eqb_neq password "")) by done. cbn [rbind].
  rewrite need_host_plain, need_port_Itoa by done. cbn [rbind].
  unfold Trojan.check_security, Trojan.check_transport, Trojan.reality_params.
  rewrite !Hq, G1, G2, G3, G4, G5, G6, G7, G8, G9, G10, G11, !link_other by (by repeat constructor).
  rewrite (proj1 (security_known tls)), (known_type tr _ Htr) by (by repeat constructor). fold (transport_of tr).
  rewrite !splitCSV_when, splitCSV_Join, is_true_flag, firstNonEmpty_one by (done || apply Htr).
  pose proof (transport_of_known _ _ Htr ltac:(by left)) as Hk.
  assert (or_default (security_of tls) "tls" = if reality tls then "reality" else "tls") as ->.
  { unfold security_of. by destruct (reality tls), (Sub.Enabled tls). }
  rewrite bool_decide_eq_true_2 by done. unfold trojan_params, tls_params, transport_params. fold (transport_of tr).
  destruct (reality tls) eqn:Er; cbn [String.eqb orb rbind]; [|done].
  unfold reality in Er. apply negb_true_iff in Er. by rewrite Er.
Qed.

(** *** The protocols that are TLS-only *)

Lemma parseMbps_Itoa z : (0 < z < 2 ^ 63)%Z → parseMbps (Itoa z) = Ok z.
Proof.
  intros Hz. assert (Hu : Itoa z = utoa (Z.to_N z)).
  { unfold Itoa. destruct (z <? 0)%Z eqn:E; [apply Z.ltb_lt in E; lia|done]. }
  assert (Hd : str_forallb is_digit (Itoa z) = true) by (rewrite Hu; apply utoa_digits).
  assert (Hne : Itoa z ≠ "") by (rewrite Hu; apply utoa_nonempty).
  unfold parseMbps. rewrite TrimSpace_solid.
  2: { eapply str_forallb_impl; [|exact Hd]. by_bytes. }
  rewrite (proj2 (String.eqb_neq (Itoa z) "")) by done.
  assert (drop_while re_space (Itoa z) = Itoa z) as ->.
  { destruct (Itoa z) as [|c s]; [done|]. cbn [str_forallb] in Hd. apply andb_true_iff in Hd as [Hc _]. cbn [drop_while].
    assert (re_space c = false) as ->; [|done]. clear -Hc. revert c Hc. by_bytes. }
  assert (before_byte (λ c, negb (is_digit c)) (Itoa z) = Itoa z) as ->.
  { rewrite <- (app_nil_str (Itoa z)) at 1. apply before_byte_stop; [|by left].
    eapply str_forallb_impl; [|exact Hd]. by intros c ->. }
  rewrite (proj2 (String.eqb_neq (Itoa z) "")) by done. rewrite Atoi_Itoa; [done|].
  unfold in_int64, int64_min, int64_max. destruct (_ && _)%Z eqn:E; [by eexists|]. propify. lia.
Qed.

Lemma firstNonEmpty_left s t : s ≠ "" → firstNonEmpty [s; t] = s.
Proof. intros Hs. cbn. by rewrite (proj2 (String.eqb_neq s "")). Qed.

Lemma bandwidth_flag q key alias z : Url.Get q alias = "" → (z < 2 ^ 63)%Z →
  Url.Get q key = (if (0 <? z)%Z then Itoa z else "") → Hysteria.bandwidth q key alias = Ok (Z.max 0 z).
Proof.
  intros Ha Hz Hk. unfold Hysteria.bandwidth. rewrite Ha, Hk, firstNonEmpty_one. destruct (0 <? z)%Z eqn:E.
  - apply Z.ltb_lt in E. rewrite parseMbps_Itoa by lia. f_equal. lia.
  - apply Z.ltb_ge in E. cbn. f_equal. lia.
Qed.

Definition no_fp_params (t : linkTLS) : TLSNoFP := {|
  nServerName := Sub.ServerName t; nALPN := ALPN t; nInsecure := Sub.Insecure t |}.

Definition hysteria2_query (up down : Z) (obfsType obfsPassword : string) (tls : linkTLS) : Values :=
  let q := set_ne "sni" (Sub.ServerName tls) [] in
  let q := set_if (negb (bool_decide (ALPN tls = []))) "alpn" (Join "," (ALPN tls)) q in
  let q := set_if (Sub.Insecure tls) "insecure" "1" q in
  let q := if String.eqb obfsType "" then q
           else set_ne "obfs-password" obfsPassword (Http.Values_Set q "obfs" obfsType) in
  set_if (0 <? down)%Z "down" (Itoa down) (set_if (0 <? up)%Z "up" (Itoa up) q).

Definition hysteria2_params (password host : string) (port up down : Z) (obfsType obfsPassword : string) (tls : linkTLS)
    : Hysteria2.Params := {|
  Hysteria2.Host := host; Hysteria2.Port := port; Hysteria2.Password := password; Hysteria2.TLS := no_fp_params tls;
  Hysteria2.UpMbps := Z.max 0 up; Hysteria2.DownMbps := Z.max 0 down; Hysteria2.ObfsType := obfsType;
  Hysteria2.ObfsPassword := when (negb (String.eqb obfsType "")) obfsPassword |}.

Lemma hysteria2_decodes password host port up down obfsType obfsPassword tls q :
  password ≠ "" → addressable host port → clean_tls tls → (up < 2 ^ 63)%Z → (down < 2 ^ 63)%Z →
  obfsType ∈ ["" : string; "salamander"] →
  (∀ k, Url.Get q k = Url.Get (hysteria2_query up down obfsType obfsPassword tls) k) →
  Hysteria2.decode_hysteria2 (Some (url_user password)) host (Itoa port) q =
    Ok (hysteria2_params password host port up down obfsType obfsPassword tls).
Proof.
  intros Hpw [Hh Hp] Ht Hup Hdown Hobfs Hq. unfold Hysteria2.decode_hysteria2, Hysteria2.need_password, need_user.
  cbn [Url.username url_user]. rewrite (proj2 (String.eqb_neq password "")) by done. cbn [rbind].
  rewrite need_host_plain, need_port_Itoa by done. cbn [rbind Url.password].
  set (q0 := hysteria2_query up down obfsType obfsPassword tls) in *.
  assert (Url.Get q0 "obfs" = obfsType ∧ Url.Get q0 "obfs-password" = when (negb (String.eqb obfsType "")) obfsPassword) as [G1 G2].
  { unfold q0, hysteria2_query. destruct (String.eqb_spec obfsType "") as [->|]; split; look; done. }
  assert (Url.Get q0 "sni" = Sub.ServerName tls ∧ Url.Get q0 "alpn" = Join "," (ALPN tls) ∧
    Url.Get q0 "insecure" = (if Sub.Insecure tls then "1" else "") ∧ Url.Get q0 "up" = (if (0 <? up)%Z then Itoa up else "") ∧
    Url.Get q0 "down" = (if (0 <? down)%Z then Itoa down else "") ∧ Url.Get q0 "upmbps" = "" ∧ Url.Get q0 "downmbps" = "" ∧
    Url.Get q0 "peer" = "" ∧ Url.Get q0 "allowInsecure" = "") as (G3&G4&G5&G6&G7&G8&G9&G10&G11).
  { unfold q0, hysteria2_query. destruct (String.eqb obfsType ""); split_and!; look; done. }
  unfold Hysteria2.check_obfs.
  rewrite (bandwidth_flag q "up" "upmbps" up), (bandwidth_flag q "down" "downmbps" down) by (done || by rewrite Hq).
  rewrite !Hq, G1, G2, G3, G4, G5, G10, G11, firstNonEmpty_one, splitCSV_Join, is_true_flag by done.
  unfold hysteria2_params, no_fp_params. rewrite orb_false_r. apply elem_of_cons in Hobfs as [->|[->|[]%elem_of_nil]%elem_of_cons]; done.
Qed.

Definition tuic_query (congestion udpRelayMode : string) (zeroRTT : bool) (tls : linkTLS) : Values :=
  let q := set_ne "sni" (Sub.ServerName tls) [] in
  let q := set_if (negb (bool_decide (ALPN tls = []))) "alpn" (Join "," (ALPN tls)) q in
  let q := set_if (Sub.Insecure tls) "allow_insecure" "1" q in
  let q := set_ne "congestion_control" congestion q in
  let q := set_ne "udp_relay_mode" udpRelayMode q in
  set_if zeroRTT "zero_rtt_handshake" "1" q.

Definition tuic_params (uuid password host : string) (port : Z) (congestion udpRelayMode : string) (zeroRTT : bool)
    (tls : linkTLS) : Tuic.Params := {|
  Tuic.Host := host; Tuic.Port := port; Tuic.UUID := uuid; Tuic.Password := password; Tuic.TLS := no_fp_params tls;
  Tuic.CongestionControl := congestion; Tuic.UDPRelayMode := udpRelayMode; Tuic.ZeroRTTHandshake := zeroRTT |}.

Lemma tuic_decodes uuid password host port congestion udpRelayMode zeroRTT tls q :
  is_uuid uuid = true → password ≠ "" → addressable host port → clean_tls tls →
  congestion ∈ Tuic.congestion_controls → udpRelayMode ∈ Tuic.udp_relay_modes →
  (∀ k, Url.Get q k = Url.Get (tuic_query congestion udpRelayMode zeroRTT tls) k) →
  Tuic.decode_tuic (Some {| Url.username := uuid; Url.password := Some password |}) host (Itoa port) q =
    Ok (tuic_params uuid password host port congestion udpRelayMode zeroRTT tls).
Proof.
  intros Hu Hpw [Hh Hp] Ht Hcc Hudp Hq. unfold Tuic.decode_tuic, Tuic.need_password, need_user.
  cbn [Url.username Url.password]. destruct (String.eqb_spec uuid "") as [->|_]; [done|]. cbn [rbind]. rewrite Hu. cbn [negb].
  rewrite (proj2 (String.eqb_neq password "")) by done. cbn [rbind].
  rewrite need_host_plain, need_port_Itoa by done. cbn [rbind].
  set (q0 := tuic_query congestion udpRelayMode zeroRTT tls) in *.
  assert (Url.Get q0 "sni" = Sub.ServerName tls ∧ Url.Get q0 "alpn" = Join "," (ALPN tls) ∧
    Url.Get q0 "allow_insecure" = (if Sub.Insecure tls then "1" else "") ∧ Url.Get q0 "insecure" = "" ∧
    Url.Get q0 "allowInsecure" = "" ∧ Url.Get q0 "congestion_control" = congestion ∧ Url.Get q0 "congestion" = "" ∧
    Url.Get q0 "udp_relay_mode" = udpRelayMode ∧ Url.Get q0 "zero_rtt_handshake" = (if zeroRTT then "1" else "") ∧
    Url.Get q0 "reduce_rtt" = "") as (G1&G2&G3&G4&G5&G6&G7&G8&G9&G10).
  { unfold q0, tuic_query. split_and!; look; done. }
  rewrite !Hq, G1, G2, G3, G4, G5, G6, G7, G8, G9, G10, !firstNonEmpty_one, splitCSV_Join by done.
  assert (lower_trimmed congestion = congestion) as ->.
  { unfold Tuic.congestion_controls in Hcc. rewrite !elem_of_cons, elem_of_nil in Hcc. by destruct Hcc as [->|[->|[->|[->|[]]]]]. }
  assert (lower_trimmed udpRelayMode = udpRelayMode) as ->.
  { unfold Tuic.udp_relay_modes in Hudp. rewrite !elem_of_cons, elem_of_nil in Hudp. by destruct Hudp as [->|[->|[->|[]]]]. }
  unfold Tuic.one_of. rewrite !bool_decide_eq_true_2 by done. cbn [rbind].
  unfold tuic_params, no_fp_params. by destruct (Sub.Insecure tls), zeroRTT.
Qed.
End unicode.

(** *** Shadowsocks *)

Definition shadowsocks_params (method password host : string) (port : Z) (plugin opts : string) : Shadowsocks.Params := {|
  Shadowsocks.Host := host; Shadowsocks.Port := port; Shadowsocks.Password := password; Shadowsocks.Method := method;
  Shadowsocks.Plugin := plugin; Shadowsocks.PluginOptions := if String.eqb plugin "" then "" else opts |}.

Lemma cutExactlyOneColon_pair a b : str_has ":" a = false → str_has ":" b = false →
  Shadowsocks.cutExactlyOneColon (a +:+ ":" +:+ b) = Some (a, b).
Proof.
  intros Ha Hb. unfold Shadowsocks.cutExactlyOneColon. change (":" +:+ b) with (String ":" b).
  by rewrite Cut_byte_app, Hb.
Qed.

Definition plugin_value (plugin opts : string) : string :=
  if String.eqb opts "" then plugin else plugin +:+ ";" +:+ opts.

Lemma plugin_value_cut plugin opts : str_has ";" plugin = false →
  default (plugin_value plugin opts, "") (Cut (plugin_value plugin opts) ";") = (plugin, opts).
Proof.
  intros Hp. unfold plugin_value. destruct (String.eqb_spec opts "") as [->|].
  - by rewrite (proj2 (Cut_byte_None ";" plugin) Hp).
  - change (";" +:+ opts) with (String ";" opts). by rewrite Cut_byte_app.
Qed.

Lemma built_sip002 (user : Url.Userinfo) host port q name : plain_host host = true → (0 <= port)%Z →
  let l := Url.URL_String (link_url "ss" user host port q name) in
  TrimSpace l = l ∧ Shadowsocks.Parse l =
    (let? ps := Shadowsocks.parse_sip002 l l in let? x := Shadowsocks.check_parts ps in
     Ok {| Protocol := "shadowsocks"; Label := Shadowsocks.name ps; Raw := l; Params := x |}).
Proof.
  intros Hh Hp l.
  assert (Hport : str_forallb is_digit (Itoa port) = true).
  { unfold Itoa. destruct (port <? 0)%Z eqn:E; [apply Z.ltb_lt in E; lia|]. apply utoa_digits. }
  assert (l = Url.URL_String (built_link "ss" user (join_host_port host (Itoa port)) q name)) as El by done.
  assert (TrimSpace l = l) as Ht by (apply TrimSpace_solid; rewrite El; by apply built_solid).
  split; [done|]. unfold Shadowsocks.Parse. rewrite Ht.
  destruct (built_cut "ss" user host (Itoa port) q name eq_refl eq_refl Hh Hport) as (a & b & Hcut & Hno & Hat & Hb).
  rewrite El at 1. rewrite Hcut. change (negb (EqualFold "ss" "ss")) with false. cbn iota.
  assert (Shadowsocks.before_fragment (a +:+ b) = a) as ->.
  { unfold Shadowsocks.before_fragment. destruct Hb as [->|[f ->]].
    - by rewrite app_nil_str, (proj2 (Cut_byte_None "#" a) Hno).
    - by rewrite Cut_byte_app. }
  assert (Contains a "@" = true) as ->; [|done].
  unfold Contains. destruct (Cut a "@") eqn:E; [done|]. apply Cut_byte_None in E. congruence.
Qed.

Lemma shadowsocks_built name method password host port plugin opts :
  method ≠ "" → password ≠ "" → str_has ":" method = false → str_has ":" password = false →
  str_has ";" plugin = false → addressable host port →
  let l := buildShadowsocksLink name method password host port plugin opts in
  TrimSpace l = l ∧ Shadowsocks.Parse l = Ok {| Protocol := "shadowsocks"; Label := name; Raw := l;
    Params := shadowsocks_params method password host port plugin opts |}.
Proof.
  intros Hm Hpw Hmc Hpc Hpl [Hh Hp] l.
  set (b64 := Base64.EncodeToString Base64.URLEncoding (method +:+ ":" +:+ password)).
  set (q := if String.eqb plugin "" then [] else Http.Values_Set [] "plugin" (plugin_value plugin opts)).
  destruct (built_sip002 (url_user b64) host port q name Hh ltac:(lia)) as [Ht Hparse]. split; [exact Ht|].
  change (Shadowsocks.Parse l) with (Shadowsocks.Parse (Url.URL_String (link_url "ss" (url_user b64) host port q name))).
  rewrite Hparse. clear Hparse Ht. unfold Shadowsocks.parse_sip002.
  assert (Hport : str_forallb is_digit (Itoa port) = true).
  { unfold Itoa. destruct (port <? 0)%Z eqn:E; [apply Z.ltb_lt in E; lia|]. apply utoa_digits. }
  destruct (Parse_built "ss" (url_user b64) host (Itoa port) q name eq_refl eq_refl Hh Hport)
    as (v & Hv & _ & Hv2 & Hv3 & Hv4 & Hv5 & Hv6).
  change (Url.URL_String (built_link _ _ _ _ _)) with l in Hv.
  change (Url.URL_String (link_url "ss" (url_user b64) host port q name)) with l. rewrite Hv, Hv2.
  assert (Hcred : Shadowsocks.credentials (url_user b64) = (method, password)).
  { unfold Shadowsocks.credentials. cbn [Url.password Url.username url_user].
    assert (Shadowsocks.decodeSSBase64 b64 = Some (method +:+ ":" +:+ password)) as ->.
    { unfold Shadowsocks.decodeSSBase64. rewrite TrimSpace_solid.
      - cbn [Shadowsocks.first_decoding Shadowsocks.encodings]. unfold b64. by rewrite Base64.DecodeString_EncodeToString.
      - apply Base64.EncodeToString_bytes; [by vm_compute|done]. }
    rewrite cutExactlyOneColon_pair by done. cbv zeta. cbn [default from_option id fst snd].
    by rewrite (proj2 (String.eqb_neq method "")). }
  rewrite Hcred, Hv3, Hv4, Hv5, Hv6.
  assert (Hplug : Url.Get q "plugin" = if String.eqb plugin "" then "" else plugin_value plugin opts).
  { unfold q. destruct (String.eqb plugin ""); [done|]. apply Get_Set_same. }
  rewrite Hplug. unfold Shadowsocks.check_parts, shadowsocks_params.
  destruct (String.eqb_spec plugin "") as [->|Hne].
  - cbn. rewrite (proj2 (String.eqb_neq method "")), (proj2 (String.eqb_neq password "")) by done.
    by rewrite need_host_plain, need_port_Itoa.
  - assert (String.eqb (plugin_value plugin opts) "" = false) as ->.
    { apply String.eqb_neq. unfold plugin_value. destruct (String.eqb opts ""); [done|]. by destruct plugin. }
    rewrite plugin_value_cut by done. cbn.
    rewrite (proj2 (String.eqb_neq method "")), (proj2 (String.eqb_neq password "")) by done.
    by rewrite need_host_plain, need_port_Itoa.
Qed.

(** ** Splitting *)

Lemma fold_char_ascii c d s r : fold_char c (String d s) = Some r → Ascii.eqb c "s" = false → Ascii.eqb c "k" = false →
  lower_byte d = c ∧ r = s.
Proof.
  cbn [fold_char]. destruct (Ascii.eqb_spec (lower_byte d) c) as [E|E]; [by intros [= <-]|].
  intros Hf Hs Hk. by rewrite Hs, Hk in Hf.
Qed.

Lemma fold_char_suffix c s r : fold_char c s = Some r → ∃ w, s = w +:+ r.
Proof.
  destruct s as [|d s]; [done|]. cbn [fold_char]. destruct (Ascii.eqb _ _); [intros [= ->]; by exists (String d "")|].
  destruct (Ascii.eqb c "s"); [intros ->%CutPrefix_Some; by eexists|].
  destruct (Ascii.eqb c "k"); [intros ->%CutPrefix_Some; by eexists|done].
Qed.

(** What matches a scheme's literal has a slash. *)
Lemma match_lit_slash p s r : match_lit (p +:+ "://") s = Some r → str_has "/" s = true.
Proof.
  revert s. induction p as [|c p IH]; intros s.
  - change ("" +:+ "://") with "://". cbn [match_lit]. intros Hm.
    destruct (fold_char ":" s) as [s1|] eqn:E1; cbn in Hm; [|done]. apply fold_char_suffix in E1 as [w ->].
    destruct s1 as [|d s1]; [done|]. destruct (fold_char "/" (String d s1)) as [s2|] eqn:E2; cbn in Hm; [|done].
    apply fold_char_ascii in E2 as [E2 _]; [|done|done]. rewrite str_has_app, str_has_cons. apply orb_true_iff. right.
    apply orb_true_iff. left. apply Ascii.eqb_eq. revert E2. clear. revert d. by_bytes.
  - change (String c p +:+ "://") with (String c (p +:+ "://")). cbn [match_lit].
    destruct (fold_char c s) as [s1|] eqn:E1; cbn; [|done]. apply fold_char_suffix in E1 as [w ->].
    intros Hm%IH. by rewrite str_has_app, Hm, orb_true_r.
Qed.

Lemma match_link_slash sch pw s r : match_link sch pw s = Some r → str_has "/" s = true.
Proof.
  unfold match_link. destruct (Bool.eqb _ _); [done|]. intros Hm.
  assert (r ∈ omap (λ sch, match_lit (sch +:+ "://") s) sch) as Hin.
  { destruct (omap _ sch); [done|]. injection Hm as ->. by left. }
  apply list_elem_of_omap in Hin as (x & _ & Hx). by eapply match_lit_slash.
Qed.

(** No link starts in text without a slash, and none before the end of the
    match that is skipped. *)
Lemma find_all_quiet sch skip pw pos s : str_has "/" s = false → find_all sch skip pw pos s = [].
Proof.
  revert skip pw pos. induction s as [|c s IH]; intros skip pw pos Hs; [done|].
  assert (str_has "/" s = false) as Hs' by (rewrite str_has_cons in Hs; by apply orb_false_iff in Hs as [_ ?]).
  cbn [find_all]. destruct skip; [|by apply IH]. destruct (match_link sch pw (String c s)) eqn:E; [|by apply IH].
  apply match_link_slash in E. congruence.
Qed.

Lemma find_all_past sch a s pw pos : ∃ pw', find_all sch (String.length a) pw pos (a +:+ s) =
  find_all sch 0 pw' (pos + String.length a) s.
Proof.
  revert pw pos. induction a as [|c a IH]; intros pw pos.
  - exists pw. by rewrite Nat.add_0_r.
  - change (String c a +:+ s) with (String c (a +:+ s)). cbn [String.length find_all].
    destruct (IH (is_word_byte c) (S pos)) as [pw' ->]. exists pw'. f_equal. lia.
Qed.

Lemma find_all_one sch scheme rest : is_word_start scheme = true → str_has "/" rest = false →
  match_link sch false (scheme +:+ "://" +:+ rest) = Some rest →
  find_all sch 0 false 0 (scheme +:+ "://" +:+ rest) = [0%nat].
Proof.
  intros Hw Hr Hm. destruct scheme as [|c scheme]; [done|].
  change (String c scheme +:+ ?x) with (String c (scheme +:+ x)) in *. cbn [find_all]. rewrite Hm. f_equal.
  assert (scheme +:+ "://" +:+ rest = (scheme +:+ "://") +:+ rest) as -> by (by rewrite app_assoc_str).
  rewrite length_app_str, Nat.add_sub.
  destruct (find_all_past sch (scheme +:+ "://") rest (is_word_byte c) 1) as [pw' ->]. by apply find_all_quiet.
Qed.

Section registry.
Context `{GoUnicode, GoQuote}.

Definition plain_name (n : string) : Prop := str_forallb (λ c, negb (Url.one_of c "/,;")) n = true.

Definition built_schemes : list string := ["vless"; "trojan"; "ss"; "hysteria2"; "tuic"].

Lemma shipped_link_schemes : link_schemes shipped =
  ["hysteria2"; "hysteria"; "anytls"; "trojan"; "vless"; "vmess"; "tuic"; "hy2"; "hy"; "ss"].
Proof. vm_compute. reflexivity. Qed.

Lemma built_scheme_matches sch rest : sch ∈ built_schemes →
  match_link (link_schemes shipped) false (sch +:+ "://" +:+ rest) = Some rest ∧
  match_link Sub.knownSchemes false (sch +:+ "://" +:+ rest) = Some rest.
Proof.
  rewrite shipped_link_schemes. unfold built_schemes. rewrite !elem_of_cons, elem_of_nil.
  by intros [->|[->|[->|[->|[->|[]]]]]].
Qed.

(** A built link is one link for the splitter, and nothing is trimmed off it. *)
Lemma built_clean scheme (user : Url.Userinfo) host port q name :
  scheme ∈ built_schemes → plain_host host = true → (0 <= port)%Z → plain_name name →
  let l := Url.URL_String (link_url scheme user host port q name) in
  clean_link (link_schemes shipped) l ∧ clean_link Sub.knownSchemes l.
Proof.
  intros Hin Hh Hp Hn l.
  assert (Hport : str_forallb is_digit (Itoa port) = true).
  { unfold Itoa. destruct (port <? 0)%Z eqn:E; [apply Z.ltb_lt in E; lia|]. apply utoa_digits. }
  assert (scheme_ok scheme = true ∧ str_map lower_byte scheme = scheme ∧ is_word_start scheme = true) as (Hs & Hl & Hw).
  { unfold built_schemes in Hin. rewrite !elem_of_cons, elem_of_nil in Hin. by destruct Hin as [->|[->|[->|[->|[->|[]]]]]]. }
  assert (l = Url.URL_String (built_link scheme user (join_host_port host (Itoa port)) q name)) as El by done.
  destruct (built_once scheme user host (Itoa port) q name Hs Hl Hh Hport Hn) as (x & t & Hl' & Hno & Hne & Ht).
  rewrite <- El in Hl'. destruct (built_scheme_matches scheme (x +:+ t) Hin) as [M1 M2].
  assert (Htrim : TrimRightSpace l = l ∧ TrimRightBytes link_separator l = l ∧ (3 <= String.length l)%nat).
  { rewrite Hl'. assert (scheme +:+ "://" +:+ x +:+ t = (scheme +:+ "://" +:+ x) +:+ t) as -> by (by rewrite !app_assoc_str).
    split_and!.
    - apply TrimRightSpace_solid; [done|]. eapply str_forallb_impl; [|exact Ht]. by intros c [_ ?]%andb_true_iff.
    - destruct (srev t) as [|z r] eqn:E; [by rewrite <- (srev_srev t), E in Hne|].
      assert (t = srev r +:+ String z "") as ->.
      { rewrite <- (srev_srev t), E. apply srev_cons. }
      rewrite <- app_assoc_str. apply TrimRightBytes_stop. rewrite str_forallb_app in Ht.
      apply andb_true_iff in Ht as [_ Ht]. cbn in Ht. rewrite andb_true_r in Ht. revert Ht. clear. revert z. by_bytes.
    - rewrite !length_app_str. change (String.length "://") with 3%nat. lia. }
  destruct Htrim as (T1 & T2 & T3). assert (Hf : ∀ sch, match_link sch false (scheme +:+ "://" +:+ x +:+ t) = Some (x +:+ t) → find_all sch 0 false 0 l = [0%nat]).
  { intros sch Hm. rewrite Hl'. by apply find_all_one. }
  split; split_and!; auto.
Qed.
End registry.

(** ** Servers *)

(** A server as the builders take it. *)
Inductive server :=
  | SVless (name uuid host : string) (port : Z) (flow : string) (tls : linkTLS) (tr : linkTransport)
  | STrojan (name password host : string) (port : Z) (tls : linkTLS) (tr : linkTransport)
  | SShadowsocks (name method password host : string) (port : Z) (plugin opts : string)
  | SHysteria2 (name password host : string) (port up down : Z) (obfsType obfsPassword : string) (tls : linkTLS)
  | STuic (name uuid password host : string) (port : Z) (congestion udpRelayMode : string) (zeroRTT : bool) (tls : linkTLS).

Definition build (s : server) : string :=
  match s with
  | SVless name uuid host port flow tls tr => buildVLESSLink name uuid host port flow tls tr
  | STrojan name password host port tls tr => buildTrojanLink name password host port tls tr
  | SShadowsocks name method password host port plugin opts => buildShadowsocksLink name method password host port plugin opts
  | SHysteria2 name password host port up down ot op tls => buildHysteria2Link name password host port up down ot op tls
  | STuic name uuid password host port cc udp zero tls => buildTUICLink name uuid password host port cc udp zero tls
  end.

(** The profile it should become. *)
Definition protocol_of (s : server) : string :=
  match s with
  | SVless _ _ _ _ _ _ _ => "vless" | STrojan _ _ _ _ _ _ => "trojan" | SShadowsocks _ _ _ _ _ _ _ => "shadowsocks"
  | SHysteria2 _ _ _ _ _ _ _ _ _ => "hysteria2" | STuic _ _ _ _ _ _ _ _ _ => "tuic"
  end.

Definition name_of (s : server) : string :=
  match s with
  | SVless n _ _ _ _ _ _ | STrojan n _ _ _ _ _ | SShadowsocks n _ _ _ _ _ _
  | SHysteria2 n _ _ _ _ _ _ _ _ | STuic n _ _ _ _ _ _ _ _ => n
  end.

Definition host_of (s : server) : string * Z :=
  match s with
  | SVless _ _ h p _ _ _ | STrojan _ _ h p _ _ | SShadowsocks _ _ _ h p _ _
  | SHysteria2 _ _ h p _ _ _ _ _ | STuic _ _ _ h p _ _ _ _ => (h, p)
  end.

Definition params_of (s : server) : AnyParams :=
  match s with
  | SVless _ uuid host port flow tls tr => PVless (vless_params uuid host port flow tls tr)
  | STrojan _ password host port tls tr => PTrojan (trojan_params password host port tls tr)
  | SShadowsocks _ method password host port plugin opts => PShadowsocks (shadowsocks_params method password host port plugin opts)
  | SHysteria2 _ password host port up down ot op tls => PHysteria2 (hysteria2_params password host port up down ot op tls)
  | STuic _ uuid password host port cc udp zero tls => PTuic (tuic_params uuid password host port cc udp zero tls)
  end.

Definition profile_of (s : server) : Profile AnyParams := {|
  Protocol := protocol_of s; Label := name_of s; Raw := build s; Params := params_of s |}.

(** What the module of its protocol asks of a server. *)
Definition acceptable (s : server) : Prop :=
  addressable (host_of s).1 (host_of s).2 ∧
  match s with
  | SVless _ uuid _ _ flow tls tr =>
      is_uuid uuid = true ∧ TrimSpace flow = flow ∧ clean_tls tls ∧ clean_transport Vless.transports tr ∧
      (Type_ tr = "xhttp" → Mode tr ∈ Vless.xhttp_modes ∧ (Extra tr = "" ∨ Json.Valid (Extra tr) = true))
  | STrojan _ password _ _ tls tr => password ≠ "" ∧ clean_tls tls ∧ clean_transport Trojan.transports tr
  | SShadowsocks _ method password _ _ plugin _ =>
      method ≠ "" ∧ password ≠ "" ∧ str_has ":" method = false ∧ str_has ":" password = false ∧ str_has ";" plugin = false
  | SHysteria2 _ password _ _ up down ot _ tls =>
      password ≠ "" ∧ clean_tls tls ∧ (up < 2 ^ 63)%Z ∧ (down < 2 ^ 63)%Z ∧ ot ∈ ["" : string; "salamander"]
  | STuic _ uuid password _ _ cc udp _ tls =>
      is_uuid uuid = true ∧ password ≠ "" ∧ clean_tls tls ∧ cc ∈ Tuic.congestion_controls ∧ udp ∈ Tuic.udp_relay_modes
  end.

Definition scheme_of (s : server) : string := if String.eqb (protocol_of s) "shadowsocks" then "ss" else protocol_of s.

(** Every builder makes a link of its scheme. *)
Lemma build_shape s : ∃ user q, build s =
  Url.URL_String (link_url (scheme_of s) user (host_of s).1 (host_of s).2 q (name_of s)) ∧ scheme_of s ∈ built_schemes.
Proof.
  destruct s; do 2 eexists; (split; [reflexivity|]); unfold built_schemes, scheme_of; cbn; rewrite !elem_of_cons; tauto.
Qed.

Section servers.
Context `{GoUnicode, GoQuote}.

(** A link whose scheme a module of the registry claims is that module's. *)
Lemma shipped_parses m scheme rest l p :
  m ∈ shipped_modules → scheme ∈ Schemes (descriptor m) → dInput (descriptor m) = InputLink →
  str_forallb is_ascii_byte scheme = true → str_map lower_byte scheme = scheme →
  TrimSpace l = l → Cut l "://" = Some (scheme, rest) → mParse m l = Ok p → Registry.Parse shipped l = Ok p.
Proof.
  intros Hm Hs Hin Hasc Hlow Ht Hcut Hp. destruct (NewRegistry_holds _ _ shipped_new) as [Hh _].
  assert (byScheme shipped !! ToLower scheme = Some m) as Hby.
  { apply (holds_byScheme _ _ Hh). split; [done|]. split; [done|]. by apply list_elem_of_fmap_2. }
  unfold Registry.Parse. rewrite Ht, Hcut, Hby. unfold module_parse. rewrite Hp.
  destruct (String.eqb_spec l "") as [->|]; [done|]. done.
Qed.

Lemma acceptable_module s : acceptable s →
  TrimSpace (build s) = build s ∧ ∃ m, m ∈ shipped_modules ∧ scheme_of s ∈ Schemes (descriptor m) ∧
    dInput (descriptor m) = InputLink ∧ mParse m (build s) = Ok (profile_of s).
Proof.
  intros [Ha Hs]. pose proof Ha as [Hh Hp].
  assert (Hnn : (0 <= (host_of s).2)%Z) by lia.
  destruct s as [n uuid h p flow tls tr|n pw h p tls tr|n me pw h p pl op|n pw h p up down ot op tls|n uuid pw h p cc udp z tls];
    cbn [host_of fst snd] in *.
  - destruct Hs as (H1 & H2 & H3 & H4 & H5).
    destruct (built_parses Vless.vless "vless" (url_user uuid) h p (set_ne "flow" flow (link_query tls tr)) n
      (vless_params uuid h p flow tls tr)) as [Ht Hpr]; [done|done|done|done|done|by intros q Hq; apply vless_decodes|].
    split; [exact Ht|]. exists (url_module PVless Vless.vless). split_and!; [by left|by left|done|].
    cbn [mParse url_module build]. unfold buildVLESSLink. change (setTransport tr (setSecurityAndTLS tls [])) with (link_query tls tr).
    by rewrite Hpr.
  - destruct Hs as (H1 & H2 & H3).
    destruct (built_parses Trojan.trojan "trojan" (url_user pw) h p (link_query tls tr) n (trojan_params pw h p tls tr))
      as [Ht Hpr]; [done|done|done|done|done|by intros q Hq; apply trojan_decodes|].
    split; [exact Ht|]. exists (url_module PTrojan Trojan.trojan). split_and!; [by do 2 right; left|by left|done|].
    cbn [mParse url_module build]. unfold buildTrojanLink. change (setTransport tr (setSecurityAndTLS tls [])) with (link_query tls tr).
    by rewrite Hpr.
  - destruct Hs as (H1 & H2 & H3 & H4 & H5). destruct (shadowsocks_built n me pw h p pl op) as [Ht Hpr]; try done.
    split; [exact Ht|]. exists shadowsocks_module. split_and!; [by do 3 right; left|by left|done|].
    cbn [mParse shadowsocks_module build]. by rewrite Hpr.
  - destruct Hs as (H1 & H2 & H3 & H4 & H5).
    destruct (built_parses Hysteria2.hysteria2 "hysteria2" (url_user pw) h p (hysteria2_query up down ot op tls) n
      (hysteria2_params pw h p up down ot op tls)) as [Ht Hpr]; [done|done|done|done|done|by intros q Hq; apply hysteria2_decodes|].
    split; [exact Ht|]. exists (url_module PHysteria2 Hysteria2.hysteria2). split_and!; [by do 5 right; left|by left|done|].
    cbn [mParse url_module build]. unfold buildHysteria2Link. fold (hysteria2_query up down ot op tls). by rewrite Hpr.
  - destruct Hs as (H1 & H2 & H3 & H4 & H5).
    destruct (built_parses Tuic.tuic "tuic" {| Url.username := uuid; Url.password := Some pw |} h p (tuic_query cc udp z tls) n
      (tuic_params uuid pw h p cc udp z tls)) as [Ht Hpr]; [done|done|done|done|done|by intros q Hq; apply tuic_decodes|].
    split; [exact Ht|]. exists (url_module PTuic Tuic.tuic). split_and!; [by do 6 right; left|by left|done|].
    cbn [mParse url_module build]. unfold buildTUICLink. fold (tuic_query cc udp z tls). by rewrite Hpr.
Qed.

Lemma acceptable_parses s : acceptable s → Registry.Parse shipped (build s) = Ok (profile_of s).
Proof.
  intros Hs. destruct (acceptable_module s Hs) as (Ht & m & Hm & Hsch & Hin & Hp). destruct Hs as [[Hh Hport] _].
  destruct (build_shape s) as (user & q & E & Hb).
  assert (Hpd : str_forallb is_digit (Itoa (host_of s).2) = true).
  { unfold Itoa. destruct (_ <? 0)%Z eqn:F; [apply Z.ltb_lt in F; lia|]. apply utoa_digits. }
  assert (scheme_ok (scheme_of s) = true ∧ str_map lower_byte (scheme_of s) = scheme_of s ∧
    str_forallb is_ascii_byte (scheme_of s) = true) as (H1 & H2 & H3).
  { unfold built_schemes in Hb. rewrite !elem_of_cons, elem_of_nil in Hb. by destruct Hb as [->|[->|[->|[->|[->|[]]]]]]. }
  destruct (built_cut (scheme_of s) user (host_of s).1 (Itoa (host_of s).2) q (name_of s) H1 H2 Hh Hpd) as (a & b & Hcut & _).
  eapply shipped_parses; try done. rewrite E. exact Hcut.
Qed.
End servers.

(** ** Link lists *)

Lemma match_lit_colon p s r : match_lit (p +:+ "://") s = Some r → str_has ":" s = true.
Proof.
  revert s. induction p as [|c p IH]; intros s.
  - change ("" +:+ "://") with "://". cbn [match_lit]. destruct s as [|d s]; [done|].
    destruct (fold_char ":" (String d s)) as [s1|] eqn:E1; cbn; [|done]. intros _.
    apply fold_char_ascii in E1 as [E1 _]; [|done|done]. rewrite str_has_cons. apply orb_true_iff. left.
    apply Ascii.eqb_eq. revert E1. clear. revert d. by_bytes.
  - change (String c p +:+ "://") with (String c (p +:+ "://")). cbn [match_lit].
    destruct (fold_char c s) as [s1|] eqn:E1; cbn; [|done]. apply fold_char_suffix in E1 as [w ->].
    intros Hm%IH. by rewrite str_has_app, Hm, orb_true_r.
Qed.

Lemma clean_link_colon sch l : clean_link sch l → str_has ":" l = true.
Proof.
  intros [Hf _]. destruct l as [|c s]; [done|]. cbn [find_all] in Hf.
  destruct (match_link sch false (String c s)) as [r|] eqn:Hm.
  - unfold match_link in Hm. destruct (Bool.eqb _ _); [done|].
    assert (r ∈ omap (λ sch, match_lit (sch +:+ "://") (String c s)) sch) as Hin.
    { destruct (omap _ sch); [done|]. injection Hm as ->. by left. }
    apply list_elem_of_omap in Hin as (x & _ & Hx). by eapply match_lit_colon.
  - rewrite find_all_shift in Hf. by destruct (find_all sch 0 _ 0 s).
Qed.

Lemma known_good : good_schemes Sub.knownSchemes.
Proof. repeat constructor. Qed.

Lemma separators c : separator c = link_separator c.
Proof. destruct c as [[] [] [] [] [] [] [] []]; reflexivity. Qed.

Lemma clean_tokens (l : list string) : (λ c, TrimRightBytes separator (TrimSpace c)) <$> l = clean_token <$> l.
Proof.
  apply list_fmap_ext. intros _ s _. unfold clean_token, TrimRightBytes. f_equal.
  induction (srev (TrimSpace s)) as [|c x IH]; [done|]. cbn [drop_while]. by rewrite separators, IH.
Qed.

Lemma link_starts_Join ls : Forall (clean_link Sub.knownSchemes) ls → Sub.link_starts (Join nl ls) = Registry.link_starts 0 ls.
Proof. apply find_all_Join, known_good. Qed.

Lemma splitLinks_links ls : Forall (clean_link Sub.knownSchemes) ls → ls ≠ [] → Sub.splitLinks (Join nl ls) = ls.
Proof.
  intros Hls Hne. unfold Sub.splitLinks. rewrite clean_tokens, link_starts_Join by done.
  pose proof (slices_Join "" ls) as Hs. change ("" +:+ Join nl ls) with (Join nl ls) in Hs.
  change (String.length "") with 0%nat in Hs. rewrite Hs. destruct ls as [|l ls]; [done|]. by eapply clean_slices.
Qed.

Lemma first_link_list_finds encs e s : e ∈ encs → Sub.link_starts s ≠ [] →
  first_link_list encs (Base64.EncodeToString e s) = Some s.
Proof.
  intros He Hs. induction encs as [|e' encs IH]; [by apply elem_of_nil in He|]. cbn [first_link_list].
  destruct (Base64.DecodeString e' (Base64.EncodeToString e s)) as [t|] eqn:Hd.
  - apply Base64.DecodeString_agree in Hd as ->. by rewrite bool_decide_eq_true_2.
  - apply elem_of_cons in He as [<-|He]; [|by apply IH]. by rewrite Base64.DecodeString_EncodeToString in Hd.
Qed.

Lemma first_link_list_foreign encs s : str_has ":" s = true → first_link_list encs s = None.
Proof.
  intros Hs. induction encs as [|e encs IH]; [done|]. cbn [first_link_list].
  by rewrite (Base64.DecodeString_foreign e s ":").
Qed.

Lemma compact_has c s : str_has c s = true → str_has c " " = false → str_has c nl = false →
  str_has c (String CR (String TAB "")) = false → str_has c (compact s) = true.
Proof.
  intros Hs H1 H2 H3. unfold compact. induction s as [|d s IH]; [done|]. cbn [str_filter].
  rewrite str_has_cons in Hs. destruct (Ascii.eqb_spec c d) as [->|Hne]; cbn [orb] in Hs.
  - assert (negb (Ascii.eqb d LF || Ascii.eqb d CR || Ascii.eqb d " " || Ascii.eqb d TAB) = true) as ->.
    { revert H1 H2 H3. clear. revert d. intros [[] [] [] [] [] [] [] []]; by vm_compute. }
    rewrite str_has_cons. by rewrite Ascii.eqb_refl.
  - destruct (negb _); [|by apply IH]. rewrite str_has_cons, IH by done. by rewrite orb_true_r.
Qed.

Lemma Join_has c l ls : str_has c l = true → str_has c (Join nl (l :: ls)) = true.
Proof.
  intros Hl. destruct ls as [|l' ls]; [done|]. change (Join nl (l :: l' :: ls)) with (l +:+ nl +:+ Join nl (l' :: ls)).
  by rewrite str_has_app, Hl.
Qed.

Lemma parseJSON_other c s : Ascii.eqb c "{" = false → Ascii.eqb c "[" = false → parseJSON (String c s) = None.
Proof. intros H1 H2. unfold parseJSON. by rewrite H1, H2. Qed.

Lemma encoded_bytes e s : str_forallb Base64.base64_byte (Base64.EncodeToString e s) = true.
Proof. destruct (Base64.decode_encode e s) as [Hd _]. by eapply Base64.decode_bytes. Qed.

(** A text of one of the forms panels serve a link list in. *)
Inductive serves (ls : list string) (text : string) : Prop :=
  | serves_plain : text = Join nl ls → serves ls text
  | serves_base64 e : e ∈ encodings → compact text = Base64.EncodeToString e (Join nl ls) → serves ls text.

Lemma serves_shape ls text : Forall (clean_link Sub.knownSchemes) ls → ls ≠ [] → serves ls text →
  text ≠ "" ∧ parseJSON text = None ∧ default text (decodeBase64 text) = Join nl ls.
Proof.
  intros Hls Hne Hs. assert (Hst : Sub.link_starts (Join nl ls) ≠ []).
  { rewrite link_starts_Join by done. by destruct ls. }
  destruct Hs as [->|e He Hc].
  - split_and!.
    + by apply (Join_nonempty Sub.knownSchemes).
    + destruct Hls as [|l ls Hl Hls]; [done|]. destruct (clean_link_word _ _ Hl) as (c & s & -> & Hw).
      assert (∃ t, Join nl (String c s :: ls) = String c t) as [t ->].
      { destruct ls; [by eexists|]. by eexists. }
      apply parseJSON_other; revert Hw; clear; revert c; by_bytes.
    + unfold decodeBase64. rewrite first_link_list_foreign; [done|]. apply compact_has; [|done|done|done].
      destruct Hls as [|l ls Hl Hls]; [done|]. apply Join_has. by eapply clean_link_colon.
  - pose proof (encoded_bytes e (Join nl ls)) as Hb. rewrite <- Hc in Hb.
    assert (Hdec : decodeBase64 text = Some (Join nl ls)).
    { unfold decodeBase64. rewrite Hc. by apply first_link_list_finds. }
    rewrite Hdec. destruct text as [|c text].
    { exfalso. pose proof (Join_nonempty Sub.knownSchemes ls Hls Hne) as Hj.
      pose proof (Base64.DecodeString_EncodeToString e (Join nl ls)) as Hd. rewrite <- Hc in Hd. cbn in Hd. injection Hd as Hd. congruence. }
    split_and!; [done| |done]. apply parseJSON_other.
    + destruct (Ascii.eqb_spec c "{") as [->|]; [|done]. cbn in Hb. discriminate.
    + destruct (Ascii.eqb_spec c "[") as [->|]; [|done]. cbn in Hb. discriminate.
Qed.

(** ** From a subscription to profiles *)

(** The server of a Clash proxy whose link is a URL; a VMess one is not. *)
Definition clash_server (p : clashProxy) : option server :=
  let t := cType p in
  if String.eqb t "vless" then
    if given (cServer p) && given (cUUID p)
    then Some (SVless (cName p) (cUUID p) (cServer p) (cPort p) (cFlow p) (clash_tls p) (clash_transport p)) else None
  else if String.eqb t "trojan" then
    if given (cServer p) && given (cPassword p)
    then Some (STrojan (cName p) (cPassword p) (cServer p) (cPort p) (clash_tls p) (clash_transport p)) else None
  else if String.eqb t "ss" then
    if given (cServer p) && given (Cipher p)
    then Some (SShadowsocks (cName p) (Cipher p) (cPassword p) (cServer p) (cPort p) (cPlugin p) "") else None
  else if String.eqb t "hysteria2" then
    if given (cServer p)
    then Some (SHysteria2 (cName p) (cPassword p) (cServer p) (cPort p) (cUp p) (cDown p) (cObfs p) (cObfsPassword p)
                 (clash_tls p)) else None
  else if String.eqb t "tuic" then
    if given (cServer p) && given (cUUID p)
    then Some (STuic (cName p) (cUUID p) (cPassword p) (cServer p) (cPort p) (CongestionControl p) (UDPRelayMode p)
                 (ReduceRTT p) (clash_tls p)) else None
  else None.

Lemma clash_link_server p : cType p ≠ "vmess" → clash_link p = build <$> clash_server p.
Proof.
  intros Hv. apply String.eqb_neq in Hv. unfold clash_link, clash_server. rewrite Hv.
  by repeat (case_match; [by repeat case_match|]).
Qed.

Lemma clash_links_servers ps : Forall (λ p, cType p ≠ "vmess") ps →
  omap clash_link ps = build <$> omap clash_server ps.
Proof.
  induction 1 as [|p ps Hp _ IH]; [done|]. cbn. rewrite clash_link_server by done.
  destruct (clash_server p); cbn; [by f_equal|done].
Qed.

Section loading.
Context `{GoUnicode, GoQuote}.

Lemma linkRe_shipped : linkRe shipped = Some (link_schemes shipped).
Proof. rewrite shipped_link_schemes. vm_compute. reflexivity. Qed.

Lemma shipped_schemes_good : good_schemes (link_schemes shipped).
Proof. rewrite shipped_link_schemes. repeat constructor. Qed.

(** A clean link is parsed alone, whether or not a sniffer claims it. *)
Lemma parse_raws_links ls : Forall (clean_link (link_schemes shipped)) ls → parse_raws shipped ls = parse_each shipped ls.
Proof.
  induction 1 as [|l ls Hl Hls IH]; [done|]. cbn [parse_raws].
  rewrite (TrimSpace_clean (link_schemes shipped)) by done. destruct (clean_token_LF _ _ Hl) as (_ & _ & Hne).
  rewrite (proj2 (String.eqb_neq _ _) Hne).
  assert (Registry.splitLinks shipped l = [l]) as ->.
  { apply (splitLinks_Join shipped _ linkRe_shipped shipped_schemes_good [l]); [by apply Forall_singleton|done]. }
  assert (∀ b : bool, (if b then parse_each shipped [l] else parse_each shipped [l]) = parse_each shipped [l]) as -> by by intros [].
  rewrite IH. cbn [parse_each]. destruct (Registry.Parse shipped l); simpl; [|done]. by destruct (parse_each shipped ls).
Qed.

Lemma server_clean s : acceptable s → plain_name (name_of s) →
  clean_link (link_schemes shipped) (build s) ∧ clean_link Sub.knownSchemes (build s).
Proof.
  intros [[Hh Hp] _] Hn. destruct (build_shape s) as (user & q & -> & Hin). apply built_clean; try done. lia.
Qed.

Lemma servers_load ss : ss ≠ [] → Forall acceptable ss → Forall (λ s, plain_name (name_of s)) ss →
  ParseAll shipped (build <$> ss) = Ok (profile_of <$> ss).
Proof.
  intros Hne Ha Hn. unfold ParseAll. rewrite parse_raws_links.
  - assert (parse_each shipped (build <$> ss) = Ok (profile_of <$> ss)) as ->; [|by destruct ss].
    clear Hne Hn. induction Ha as [|s ss Hs _ IH]; [done|]. rewrite !fmap_cons. cbn [parse_each].
    by rewrite acceptable_parses, IH.
  - apply Forall_fmap. apply Forall_forall. intros s Hs. rewrite Forall_forall in Ha, Hn. cbn.
    by apply server_clean; [apply Ha|apply Hn].
Qed.

(** A server becomes a link and is read back.  The link each builder makes
    for a server that its protocol can express (VLESS, Trojan, Shadowsocks,
    Hysteria2 or TUIC, at a host that needs no escape and a valid port)
    parses in the shipped registry, by the module of its scheme, to the
    server's name, host, port, credentials, TLS and transport settings: any
    name and password, whatever bytes they have, and every combination of
    optional settings. *)
Theorem built_links_parse (s : server) : acceptable s →
  Registry.Parse shipped (build s) = Ok (profile_of s).
Proof. apply acceptable_parses. Qed.

End loading.

(** A list of links is read back from every form panels serve it in: as it is,
    or in any of the four base64 encodings, broken into lines or not, with
    white space around it, as long as every link is clean (it starts with a
    known scheme, has no other link in it and neither starts nor ends with
    what is trimmed) and the YAML decoder sees no proxies in it. *)
Theorem link_lists_are_read (yaml : string → option (list clashProxy)) (body : string) (ls : list string) :
  Forall (clean_link Sub.knownSchemes) ls → ls ≠ [] → serves ls (TrimSpace body) →
  yaml (TrimSpace body) = None → Sub.Parse yaml body = Ok ls.
Proof.
  intros Hls Hne Hs Hy. destruct (serves_shape _ _ Hls Hne Hs) as (Ht & Hj & Hd).
  unfold Sub.Parse. cbv zeta. rewrite (proj2 (String.eqb_neq _ _) Ht). unfold parseStructured, parseClashYAML.
  rewrite Hj, Hy. rewrite Hd, splitLinks_links by done. by destruct ls.
Qed.

(** ** Servers that are lost *)

Definition no_clash : clashProxy := {|
  cType := ""; cName := ""; cServer := ""; cPort := 0; cUUID := ""; cPassword := ""; Cipher := ""; AlterID := 0;
  Network := ""; cTLS := false; cServerName := ""; SkipCertVerify := false; cALPN := []; ClientFingerprint := "";
  cFlow := ""; WSOpts := None; GRPCOpts := None; XHTTPOpts := None; RealityOpts := None; cPlugin := ""; cObfs := "";
  cObfsPassword := ""; cUp := 0; cDown := 0; CongestionControl := ""; UDPRelayMode := ""; ReduceRTT := false |}.

Definition sw_uuid : string := "b831381d-6324-4d53-ad4f-8cda48b30811".

Definition sw_vless (name network : string) : clashProxy := {|
  cType := "vless"; cName := name; cServer := "example.com"; cPort := 443; cUUID := sw_uuid; cPassword := ""; Cipher := "";
  AlterID := 0; Network := network; cTLS := true; cServerName := "sni.example"; SkipCertVerify := false;
  cALPN := ["h2"; "http/1.1"]; ClientFingerprint := "chrome"; cFlow := ""; WSOpts := Some ("/a b", "cdn.example");
  GRPCOpts := None; XHTTPOpts := None; RealityOpts := None; cPlugin := ""; cObfs := "";
  cObfsPassword := ""; cUp := 0; cDown := 0; CongestionControl := ""; UDPRelayMode := ""; ReduceRTT := false |}.

Definition sw_ss (name password : string) : clashProxy := {|
  cType := "ss"; cName := name; cServer := "2001:db8::1"; cPort := 8388; cUUID := ""; cPassword := password;
  Cipher := "2022-blake3-aes-256-gcm"; AlterID := 0; Network := ""; cTLS := false; cServerName := "";
  SkipCertVerify := false; cALPN := []; ClientFingerprint := ""; cFlow := ""; WSOpts := None; GRPCOpts := None;
  XHTTPOpts := None; RealityOpts := None; cPlugin := ""; cObfs := ""; cObfsPassword := ""; cUp := 0; cDown := 0;
  CongestionControl := ""; UDPRelayMode := ""; ReduceRTT := false |}.

Section lost.
Context `{GoUnicode, GoQuote}.

Definition loads (ps : list clashProxy) : option bool :=
  match Sub.Parse (λ _, Some ps) "proxies:" with Ok ls => Some (is_ok (ParseAll shipped ls)) | Err _ => None end.

(** A VLESS server over a transport its module does not know (Clash's h2, quic,
    httpupgrade) becomes a link all the same, and the registry then refuses
    the whole subscription, the usable servers with it. *)
Lemma unknown_transport_refuses_all :
  loads [sw_vless "A" "ws"] = Some true ∧ loads [sw_vless "A" "ws"; sw_vless "B" "h2"] = Some false.
Proof. vm_compute. done. Qed.

(** The link of a Shadowsocks server whose password has a colon, as the keys of
    the 2022 methods have, is refused by the module it is written for, though
    it takes the same password in a percent-encoded user part. *)
Lemma colon_password_is_refused :
  loads [sw_ss "A" "a2V5MQ=="] = Some true ∧ loads [sw_ss "A" "a2V5MQ==:a2V5Mg=="] = Some false ∧
  is_ok (Registry.Parse shipped "ss://2022-blake3-aes-256-gcm:a2V5MQ==%3Aa2V5Mg==@h.example:8388") = true.
Proof. vm_compute. done. Qed.
End lost.

(** sing-box writes the host of a WebSocket transport as a header, which
    [sbTransport] does not read: the link does not have it. *)
Lemma websocket_host_is_lost :
  Sub.Parse (λ _, None) (Json.dq "{'outbounds':[{'type':'trojan','tag':'t','server':'h','server_port':1,'password':'p','transport':{'type':'ws','path':'/w','headers':{'Host':'cdn.example'}}}]}") =
  Ok ["trojan://p@h:1?path=%2Fw&type=ws#t"].
Proof. vm_compute. reflexivity. Qed.

(** ** On a subscription *)

#[local] Instance sw_unicode : GoUnicode := ascii_only.
#[local] Instance sw_quote : GoQuote := quote_as_is.

Definition sw_server : server :=
  SVless "My /server," sw_uuid "example.com" 443 "" (clash_tls (sw_vless "" "ws")) (clash_transport (sw_vless "" "ws")).

Lemma sw_acceptable : acceptable sw_server.
Proof.
  unfold acceptable, sw_server, addressable, clean_tls, clean_transport. cbn [host_of fst snd].
  split_and!; try done; try lia; vm_compute; repeat constructor; done.
Qed.

Lemma built_links_parse_witness : Registry.Parse shipped (build sw_server) = Ok (profile_of sw_server).
Proof. apply (built_links_parse sw_server). exact sw_acceptable. Defined.

Definition sw_proxies : list clashProxy :=
  [sw_vless "My server" "ws"; no_clash; sw_ss "Second" "p@ss/ word"].

Definition sw_body : string := Join nl ["proxies:"; "- ..."].


Definition sw_links : list string := ["vless://a?alpn=h2,http/1.1#A,b"; "hy2://b:1#x"].

Lemma link_lists_are_read_witness :
  Sub.Parse (λ _, None) (Join nl sw_links +:+ nl) = Ok sw_links ∧
  Sub.Parse (λ _, None) ("dmxlc3M6Ly9hP2FscG49aDIsaHR0cC8xLjEjQSxi" +:+ nl +:+ "Cmh5MjovL2I6MSN4") = Ok sw_links.
Proof.
  assert (Hc : Forall (clean_link Sub.knownSchemes) sw_links).
  { repeat (apply Forall_cons; split); [..|apply Forall_nil_2]; (split; [reflexivity|]); (split; [reflexivity|]);
      (split; [reflexivity|]); cbn; lia. }
  split.
  - apply (link_lists_are_read (λ _, None) _ sw_links); [exact Hc|discriminate|apply serves_plain; vm_compute; reflexivity|reflexivity].
  - apply (link_lists_are_read (λ _, None) _ sw_links); [exact Hc|discriminate| |reflexivity].
    apply (serves_base64 _ _ Base64.StdEncoding); [by left|]. vm_compute. reflexivity.
Defined.

End SubProps.
