(* ===== verification/Watchdog.v ===== *)
(** * Watchdog: leaving the process when a resource leaks
    ([internal/app/watchdog.go])

    The watchdog samples three counters of its own process and exits once one
    of them has stayed at or over its limit for a sustained time.  A sample is
    an argument of [tick], with the time it was taken and what the cooldown
    file's status is then; times and durations are nanoseconds, [None] the
    zero time.  [window_reports_leaks_exactly] says when the pressure window reports a leak,
    [watchdog_exits] that a sustained leak ends the process. *)

From S2P Require Import Prelude GoStr.

Local Open Scope string_scope.
Local Open Scope list_scope.
Local Open Scope Z_scope.

Module Watchdog.

Record HealthSample := { Goroutines : Z; FileDescs : Z; TrackerCount : Z }.

Definition second : Z := 1000000000.
Definition minute : Z := 60 * second.
Definition hour : Z := 60 * minute.

Record WatchdogConfig := {
  Interval : Z;
  SustainedFor : Z;
  GoroutineLimit : Z;
  FileDescLimit : Z;
  TrackerLimit : Z;
  CooldownFile : string;
  Cooldown : Z
}.

(** The defaults of [NewWatchdog]; the logger and the exit function are the
    events of [tick]. *)
Definition NewWatchdog (cfg : WatchdogConfig) : WatchdogConfig := {|
  Interval := if Interval cfg <=? 0 then minute else Interval cfg;
  SustainedFor := if SustainedFor cfg <=? 0 then 15 * minute else SustainedFor cfg;
  GoroutineLimit := GoroutineLimit cfg; FileDescLimit := FileDescLimit cfg; TrackerLimit := TrackerLimit cfg;
  CooldownFile := CooldownFile cfg;
  Cooldown := if Cooldown cfg <=? 0 then hour else Cooldown cfg |}.

(** ** The pressure window *)

Inductive resource := RGoroutines | RFileDescs | RTracker.
Definition resources : list resource := [RGoroutines; RFileDescs; RTracker].

#[export] Instance resource_eq_dec : EqDecision resource.
Proof. solve_decision. Defined.

Definition value (s : HealthSample) (i : resource) : Z :=
  match i with RGoroutines => Goroutines s | RFileDescs => FileDescs s | RTracker => TrackerCount s end.
Definition limit (cfg : WatchdogConfig) (i : resource) : Z :=
  match i with RGoroutines => GoroutineLimit cfg | RFileDescs => FileDescLimit cfg | RTracker => TrackerLimit cfg end.

Record pressureWindow := { since : resource → option Z; lastSample : option Z }.

Definition no_pressure : pressureWindow := {| since := λ _, None; lastSample := None |}.

(** The clock went back, or more than two intervals passed. *)
Definition broken (cfg : WatchdogConfig) (last now : Z) : bool :=
  (now <? last) || (2 * Interval cfg <? now - last).

(** The limit is on and the counter has reached it. *)
Definition over (cfg : WatchdogConfig) (s : HealthSample) (i : resource) : bool :=
  negb ((limit cfg i <=? 0) || (value s i <? limit cfg i)).

Definition observe (cfg : WatchdogConfig) (p : pressureWindow) (now : Z) (s : HealthSample)
    : bool * pressureWindow :=
  let p := match lastSample p with
           | Some last => if broken cfg last now then no_pressure else p
           | None => p
           end in
  let since' i := if over cfg s i then Some (default now (since p i)) else None in
  (existsb (λ i, match since' i with Some t => SustainedFor cfg <=? now - t | None => false end) resources,
   {| since := since'; lastSample := Some now |}).

(** ** The loop *)

Inductive event :=
  | LogSampleFailed (e : string)
  | LogSuppressed
  | LogGrowth (s : HealthSample)
  | MarkCooldown
  | Exit.

(** What a tick finds: the time, the sample or its error, and [os.Lstat] of the
    cooldown file: whether it is regular, and its age. *)
Record Tick := { at_ : Z; sample : result string HealthSample; lstat : option (bool * Z) }.

Definition inCooldown (cfg : WatchdogConfig) (l : option (bool * Z)) : bool :=
  if String.eqb (CooldownFile cfg) "" then false
  else match l with Some (regular, age) => regular && (age <? Cooldown cfg) | None => false end.

Record State := { pressure : pressureWindow; exited : bool }.

Definition start : State := {| pressure := no_pressure; exited := false |}.

(** One turn of the loop of [Run]; nothing happens after the exit. *)
Definition tick (cfg : WatchdogConfig) (st : State) (t : Tick) : State * list event :=
  if exited st then (st, []) else
  match sample t with
  | Err e => ({| pressure := no_pressure; exited := false |}, [LogSampleFailed e])
  | Ok s =>
      let '(leaking, p) := observe cfg (pressure st) (at_ t) s in
      if leaking then
        if inCooldown cfg (lstat t)
        then ({| pressure := no_pressure; exited := false |}, [LogSuppressed])
        else ({| pressure := p; exited := true |},
              LogGrowth s :: (if String.eqb (CooldownFile cfg) "" then [] else [MarkCooldown]) ++ [Exit])
      else ({| pressure := p; exited := false |}, [])
  end.

Fixpoint Run (cfg : WatchdogConfig) (st : State) (ts : list Tick) : State * list event :=
  match ts with
  | [] => (st, [])
  | t :: ts =>
      let '(st, es) := tick cfg st t in
      let '(st, es') := Run cfg st ts in (st, es ++ es')
  end.

(** [leaking], on regularly spaced samples. *)
Fixpoint leaking_from (cfg : WatchdogConfig) (p : pressureWindow) (now : Z) (ss : list HealthSample) : bool :=
  match ss with
  | [] => false
  | s :: ss =>
      let '(l, p) := observe cfg p now s in
      if l then true else leaking_from cfg p (now + Interval cfg) ss
  end.

Definition leaking (cfg : WatchdogConfig) (ss : list HealthSample) : bool :=
  leaking_from cfg no_pressure second ss.

(** ** When the window reports a leak *)

Section window.
Context (cfg : WatchdogConfig).

(** An observation: when, and what. *)
Definition obs : Type := Z * HealthSample.

(** Consecutive observations of a run follow each other in time, at most two
    intervals apart. *)
Fixpoint linked (run : list obs) : Prop :=
  match run with
  | o :: ((o' :: _) as run') => broken cfg o.1 o'.1 = false ∧ linked run'
  | _ => True
  end.

(** A run of observations that ends the list, with resource [i] over its limit
    throughout. *)
Definition run_of (i : resource) (os : list obs) (first : obs) (run : list obs) : Prop :=
  (∃ pre, os = pre ++ first :: run) ∧ linked (first :: run) ∧
  Forall (λ o, over cfg o.2 i = true) (first :: run).

Definition window_after (p : pressureWindow) (os : list obs) : pressureWindow :=
  foldl (λ p o, (observe cfg p o.1 o.2).2) p os.

Lemma linked_snoc run o o' : linked (run ++ [o]) → broken cfg o.1 o'.1 = false → linked (run ++ [o; o']).
Proof.
  induction run as [|a [|b run] IH]; cbn; intros H Hb; [done| |].
  - by destruct H as [? _].
  - destruct H as [? H]. by split; [|apply IH].
Qed.

Lemma linked_app_l run run' : linked (run ++ run') → linked run.
Proof.
  induction run as [|a [|b run] IH]; cbn; [done|done|]. intros [? H]. by split; [|apply IH].
Qed.

Lemma linked_last run o o' : linked (run ++ [o; o']) → broken cfg o.1 o'.1 = false.
Proof.
  induction run as [|a [|b run] IH]; cbn; [by intros [? _]|intros [_ [? _]]; done|]. intros [_ H]. by apply IH.
Qed.

Lemma linked_times first run o : linked (first :: run ++ [o]) → first.1 <= o.1.
Proof.
  revert first. induction run as [|a run IH]; intros first; cbn [app].
  - intros [Hb _]. unfold broken in Hb. propify. lia.
  - intros [Hb H]. apply IH in H. unfold broken in Hb. propify. lia.
Qed.

(** The window describes the observations: it starts a resource's pressure at
    the first observation of the longest run, none later. *)
Definition describes (os : list obs) (p : pressureWindow) : Prop :=
  lastSample p = fst <$> last os ∧
  ∀ i, (∀ t, since p i = Some t → ∃ first run, run_of i os first run ∧ first.1 = t) ∧
       (∀ first run, run_of i os first run → ∃ t, since p i = Some t ∧ t <= first.1).

Lemma run_of_snoc i os o first run : run_of i (os ++ [o]) first run →
  over cfg o.2 i = true ∧
  (run = [] ∧ first = o ∨
   ∃ run', run = run' ++ [o] ∧ run_of i os first run' ∧ ∀ last_, last os = Some last_ → broken cfg last_.1 o.1 = false).
Proof.
  intros ((pre & Hpre) & Hl & Hall).
  destruct (rev_ind (λ run, run = [] ∨ ∃ r x, run = r ++ [x]) (or_introl eq_refl)
    (λ x r _, or_intror (ex_intro _ r (ex_intro _ x eq_refl))) run) as [->|(r & x & ->)].
  - apply (app_inj_tail os pre o first) in Hpre as [_ <-]. rewrite Forall_singleton in Hall. by split; [|left].
  - change (first :: r ++ [x]) with ((first :: r) ++ [x]) in *. rewrite app_assoc in Hpre.
    apply app_inj_tail in Hpre as [-> <-]. apply Forall_app in Hall as [Hall Hx]. rewrite Forall_singleton in Hx.
    split; [done|]. right. exists r. split; [done|]. split.
    + split; [by exists pre|]. split; [by apply linked_app_l in Hl|done].
    + intros l Hlast. destruct (rev_ind (λ r, r = [] ∨ ∃ r' y, r = r' ++ [y]) (or_introl eq_refl)
        (λ y r' _, or_intror (ex_intro _ r' (ex_intro _ y eq_refl))) (first :: r)) as [E|(r' & y & E)]; [done|].
      rewrite E, app_assoc, last_snoc in Hlast. injection Hlast as <-. rewrite E, <- app_assoc in Hl.
      by apply linked_last in Hl.
Qed.

Lemma run_of_single i os o : over cfg o.2 i = true → run_of i (os ++ [o]) o [].
Proof. intros H. split; [by exists os|]. by split; [|constructor]. Qed.

Lemma run_of_extend i os o l first run : last os = Some l → broken cfg l.1 o.1 = false →
  over cfg o.2 i = true → run_of i os first run → run_of i (os ++ [o]) first (run ++ [o]).
Proof.
  intros Hl Hb Ho ((pre & ->) & Hli & Hall). split; [exists pre; by rewrite <- app_assoc|].
  change (first :: run ++ [o]) with ((first :: run) ++ [o]). split.
  - destruct (rev_ind (λ r, r = [] ∨ ∃ r' y, r = r' ++ [y]) (or_introl eq_refl)
      (λ y r' _, or_intror (ex_intro _ r' (ex_intro _ y eq_refl))) (first :: run)) as [E|(r' & y & E)]; [done|].
    rewrite E in Hl, Hli |- *. rewrite app_assoc, last_snoc in Hl. injection Hl as ->.
    rewrite <- app_assoc. by apply linked_snoc.
  - apply Forall_app. by split; [|constructor].
Qed.

Lemma observe_describes os p o : describes os p → describes (os ++ [o]) (observe cfg p o.1 o.2).2.
Proof.
  intros [Hlast Hi]. split; [cbn; by rewrite last_snoc|]. intros i. specialize (Hi i) as [Hs Hc].
  unfold observe. cbn [snd since]. rewrite Hlast.
  destruct (over cfg o.2 i) eqn:Ho.
  2: { split; [done|]. intros first run Hr. apply run_of_snoc in Hr as [Ho' _]. congruence. }
  destruct (last os) as [l|] eqn:El; cbn [fmap option_fmap option_map].
  - destruct (broken cfg l.1 o.1) eqn:Hb; cbn [since no_pressure default].
    + split.
      * intros t [= <-]. exists o, []. split; [by apply run_of_single|done].
      * intros first run Hr. apply run_of_snoc in Hr as [_ [[-> ->]|(r & _ & _ & Hbr)]]; [by eexists|].
        rewrite (Hbr l El) in Hb. done.
    + destruct (since p i) as [t0|] eqn:Es; cbn [default].
      * split.
        -- intros t [= <-]. destruct (Hs t0 eq_refl) as (first & run & Hr & Hf). exists first, (run ++ [o]).
           split; [by eapply run_of_extend|done].
        -- intros first run Hr. exists t0. split; [done|].
           apply run_of_snoc in Hr as [_ [[-> ->]|(r & -> & Hr & _)]].
           ++ destruct (Hs t0 eq_refl) as (first & run & Hr & <-).
              apply (run_of_extend i os o l) in Hr as (_ & Hli & _); try done. by apply linked_times in Hli.
           ++ destruct (Hc _ _ Hr) as (t & [= <-] & ?). done.
      * split.
        -- intros t [= <-]. exists o, []. split; [by apply run_of_single|done].
        -- intros first run Hr. apply run_of_snoc in Hr as [_ [[-> ->]|(r & -> & Hr & _)]]; [by eexists|].
           by destruct (Hc _ _ Hr) as (t & ? & _).
  - apply last_None in El as ->. assert (since p i = None) as ->.
    { destruct (since p i) as [t|] eqn:Es; [|done]. destruct (Hs t eq_refl) as (f & r & ((pre & Hp) & _) & _).
      by destruct pre. }
    cbn [default]. split.
    + intros t [= <-]. exists o, []. split; [by apply (run_of_single i [])|done].
    + intros first run Hr. apply (run_of_snoc i [] o) in Hr as [_ [[-> ->]|(r & -> & Hr & _)]]; [by eexists|].
      destruct Hr as ((pre & Hp) & _). by destruct pre.
Qed.

Lemma window_describes os : describes os (window_after no_pressure os).
Proof.
  induction os as [|o os IH] using rev_ind.
  - split; [done|]. intros i. split; [done|]. intros first run ((pre & Hp) & _). by destruct pre.
  - unfold window_after. rewrite foldl_app. by apply observe_describes.
Qed.

Lemma observe_reports os p o : describes os p →
  (observe cfg p o.1 o.2).1 = true ↔
  ∃ i first run, run_of i (os ++ [o]) first run ∧ SustainedFor cfg <= o.1 - first.1.
Proof.
  intros Hd. destruct (observe_describes os p o Hd) as [_ Hi].
  assert ((observe cfg p o.1 o.2).1 = existsb (λ i, match since (observe cfg p o.1 o.2).2 i with
    Some t => SustainedFor cfg <=? o.1 - t | None => false end) resources) as -> by done.
  rewrite existsb_exists. split.
  - intros (i & _ & Ht). destruct (since _ i) as [t|] eqn:Es; [|done].
    destruct (Hi i) as [Hs _]. destruct (Hs t Es) as (first & run & Hr & <-). exists i, first, run.
    split; [done|]. propify. lia.
  - intros (i & first & run & Hr & Hspan). exists i. split; [destruct i; cbn; auto|].
    destruct (Hi i) as [_ Hc]. destruct (Hc _ _ Hr) as (t & -> & ?). propify. lia.
Qed.

(** C28: The pressure window reports a leak exactly when there is one: at an
    observation, after any others, [observe] answers yes if and only if some
    resource with a limit has been at or over it in every observation of a
    run that ends with this one, has no gap of more than two intervals and no
    step back in time, and lasts the sustained time.  In particular spikes of
    different resources never add up, and one sample under the limit, or a
    long sleep, starts over. *)
Theorem window_reports_leaks_exactly (os : list obs) (o : obs) :
  (observe cfg (window_after no_pressure os) o.1 o.2).1 = true ↔
  ∃ i pre first run, os ++ [o] = pre ++ first :: run ∧ linked (first :: run) ∧
    Forall (λ o, over cfg o.2 i = true) (first :: run) ∧ SustainedFor cfg <= o.1 - first.1.
Proof.
  rewrite (observe_reports os) by apply window_describes. unfold run_of. split.
  - intros (i & first & run & ((pre & ?) & ? & ?) & ?). by exists i, pre, first, run.
  - intros (i & pre & first & run & ? & ? & ? & ?). exists i, first, run. by split; [split; [exists pre|]|].
Qed.

(** ** The loop *)

(** The observations of ticks whose samples all succeeded. *)
Fixpoint observed (ts : list Tick) : option (list obs) :=
  match ts with
  | [] => Some []
  | t :: ts => match sample t with
               | Ok s => cons (at_ t, s) <$> observed ts
               | Err _ => None
               end
  end.

Lemma observed_snoc ts t os s : observed ts = Some os → sample t = Ok s →
  observed (ts ++ [t]) = Some (os ++ [(at_ t, s)]).
Proof.
  revert os. induction ts as [|a ts IH]; intros os; cbn [observed app].
  - intros [= <-] ->. done.
  - destruct (sample a); [|done]. intros (os' & H & ->)%fmap_Some Hs. by rewrite (IH os' H Hs).
Qed.

Lemma observed_app ts ts' os : observed (ts ++ ts') = Some os →
  ∃ os1 os2, observed ts = Some os1 ∧ observed ts' = Some os2 ∧ os = os1 ++ os2.
Proof.
  revert os. induction ts as [|a ts IH]; intros os; cbn [observed app]; [by intros H; exists [], os|].
  destruct (sample a) as [sa|]; [|done]. intros (os' & H & ->)%fmap_Some.
  destruct (IH _ H) as (os1 & os2 & -> & -> & ->). by exists ((at_ a, sa) :: os1), os2.
Qed.

Lemma Run_app st ts ts' : Run cfg st (ts ++ ts') =
  let '(st1, es1) := Run cfg st ts in let '(st2, es2) := Run cfg st1 ts' in (st2, es1 ++ es2).
Proof.
  revert st. induction ts as [|t ts IH]; intros st; cbn [Run app].
  - by destruct (Run cfg st ts').
  - destruct (tick cfg st t) as [st1 es]. rewrite IH. destruct (Run cfg st1 ts) as [st2 es2].
    destruct (Run cfg st2 ts') as [st3 es3]. by rewrite app_assoc.
Qed.

Lemma Run_exited st ts : exited st = true → Run cfg st ts = (st, []).
Proof. intros H. induction ts as [|t ts IH]; [done|]. cbn [Run]. unfold tick. by rewrite H, IH. Qed.

(** While the loop runs its window describes the samples since the last failed
    or suppressed one. *)
Definition watching (ts : list Tick) (st : State) : Prop :=
  exited st = false ∧ ∃ pre seg os, ts = pre ++ seg ∧ observed seg = Some os ∧ describes os (pressure st).

Lemma watching_start : watching [] start.
Proof. split; [done|]. exists [], [], []. split; [done|]. split; [done|]. apply (window_describes []). Qed.

Lemma describes_nothing : describes [] no_pressure.
Proof. apply (window_describes []). Qed.

(** One tick of a running loop: it exits exactly on a leak outside the
    cooldown, and goes on otherwise. *)
Lemma tick_watching ts st t : watching ts st →
  let '(st', es) := tick cfg st t in
  (exited st' = true ∧ Exit ∈ es ∧ inCooldown cfg (lstat t) = false ∧
     ∃ pre seg os i first run, ts ++ [t] = pre ++ seg ∧ observed seg = Some os ∧
       run_of i os first run ∧ SustainedFor cfg <= at_ t - first.1) ∨
  (watching (ts ++ [t]) st' ∧ Exit ∉ es).
Proof.
  intros [Hex (pre & seg & os & -> & Hseg & Hd)]. unfold tick. rewrite Hex.
  destruct (sample t) as [s|e] eqn:Hs.
  2: { right. split; [|rewrite not_elem_of_cons; split; [done|apply not_elem_of_nil]]. split; [done|].
       exists ((pre ++ seg) ++ [t]), [], []. split; [by rewrite app_nil_r|]. split; [done|apply describes_nothing]. }
  pose proof (observe_reports os _ (at_ t, s) Hd) as Hrep. pose proof (observe_describes os _ (at_ t, s) Hd) as Hd'.
  cbn [fst snd] in Hrep, Hd'. destruct (observe cfg (pressure st) (at_ t) s) as [l p]. cbn [fst snd] in Hrep, Hd'.
  destruct l.
  - destruct (inCooldown cfg (lstat t)) eqn:Hcool.
    + right. split; [|rewrite not_elem_of_cons; split; [done|apply not_elem_of_nil]]. split; [done|].
      exists ((pre ++ seg) ++ [t]), [], []. split; [by rewrite app_nil_r|]. split; [done|apply describes_nothing].
    + left. split; [done|]. split; [right; apply elem_of_app; right; left|]. split; [done|].
      destruct Hrep as [Hrep _]. destruct (Hrep eq_refl) as (i & first & run & Hr & Hspan).
      exists pre, (seg ++ [t]), (os ++ [(at_ t, s)]), i, first, run. rewrite <- app_assoc. split; [done|].
      split; [by apply observed_snoc|]. by split.
  - right. split; [|apply not_elem_of_nil]. split; [done|]. exists pre, (seg ++ [t]), (os ++ [(at_ t, s)]).
    rewrite <- app_assoc. split; [done|]. split; [by apply observed_snoc|done].
Qed.

Lemma Run_snoc st ts t : Run cfg st (ts ++ [t]) =
  let '(st1, es1) := Run cfg st ts in let '(st2, es2) := tick cfg st1 t in (st2, es1 ++ es2).
Proof.
  rewrite Run_app. destruct (Run cfg st ts) as [st1 es1]. cbn [Run]. destruct (tick cfg st1 t) as [st2 es2].
  by rewrite app_nil_r.
Qed.

(** Either the loop still runs, or some tick of it found a leak and exited. *)
Lemma Run_spec ts :
  let '(st, es) := Run cfg start ts in
  (watching ts st ∧ Exit ∉ es) ∨
  (exited st = true ∧ ∃ ts1 t rest, ts = ts1 ++ t :: rest ∧ inCooldown cfg (lstat t) = false ∧
     watching ts1 (Run cfg start ts1).1 ∧ Exit ∉ (Run cfg start ts1).2 ∧ (Run cfg start ts1).2 ++ (tick cfg (Run cfg start ts1).1 t).2 = es ∧
     ∃ pre seg os i first run, ts1 ++ [t] = pre ++ seg ∧ observed seg = Some os ∧
       run_of i os first run ∧ SustainedFor cfg <= at_ t - first.1).
Proof.
  induction ts as [|t ts IH] using rev_ind.
  - left. split; [apply watching_start|apply not_elem_of_nil].
  - rewrite Run_snoc. destruct (Run cfg start ts) as [st es] eqn:Hrun. destruct IH as [[Hw Hno]|[Hex Hrest]].
    + pose proof (tick_watching ts st t Hw) as Ht. destruct (tick cfg st t) as [st' es'] eqn:Htick.
      destruct Ht as [(Hex & _ & Hcool & Hleak)|[Hw' Hno']].
      * right. split; [done|]. exists ts, t, []. rewrite Hrun. cbn [fst snd]. rewrite Htick. by split_and!.
      * left. split; [done|]. rewrite elem_of_app. tauto.
    + unfold tick. rewrite Hex. right. split; [done|].
      destruct Hrest as (ts1 & t1 & rest & -> & Hc & Hw & Hno & <- & Hl). exists ts1, t1, (rest ++ [t]).
      rewrite <- app_assoc. split; [done|]. split; [done|]. split; [done|]. split; [done|]. split; [by rewrite app_nil_r|done].
Qed.

(** The watchdog exits only on a leak, and once.  If a run of the loop exits,
    the exit is its last event, and at the tick that made it some resource had
    been at or over its limit in every one of a run of consecutive successful
    samples that lasts the sustained time, and the cooldown file was not
    younger than the cooldown. *)
Theorem watchdog_exits_only_on_a_leak (ts : list Tick) :
  Exit ∈ (Run cfg start ts).2 →
  ∃ ts1 t rest l, ts = ts1 ++ t :: rest ∧ (Run cfg start ts).2 = l ++ [Exit] ∧ Exit ∉ l ∧
    (CooldownFile cfg = "" ∨ ∀ age, lstat t = Some (true, age) → Cooldown cfg <= age) ∧
    ∃ pre seg i first run, ts1 ++ [t] = pre ++ seg ∧
      (∃ os0, observed seg = Some (os0 ++ first :: run)) ∧ linked (first :: run) ∧
      Forall (λ o, over cfg o.2 i = true) (first :: run) ∧ SustainedFor cfg <= at_ t - first.1.
Proof.
  intros Hexit. pose proof (Run_spec ts) as Hspec. destruct (Run cfg start ts) as [st es]. cbn [snd] in *.
  destruct Hspec as [[_ Hno]|(_ & ts1 & t & rest & -> & Hcool & Hw & Hno & Hes & pre & seg & os & i & first & run & Hts & Hseg & Hr & Hspan)];
    [done|].
  destruct (Run cfg start ts1) as [st1 es1]. cbn [fst snd] in *.
  assert (∃ l, es = l ++ [Exit] ∧ Exit ∉ l) as (l & Hl & Hlno).
  { pose proof (tick_watching ts1 st1 t Hw) as Ht. unfold tick in *. destruct Hw as [Hex _]. rewrite Hex in *.
    destruct (sample t) as [s|e].
    2: { cbn in Hes. subst es. destruct Ht as [(? & _)|[_ Hn]]; [done|]. rewrite elem_of_app in Hexit. tauto. }
    destruct (observe cfg (pressure st1) (at_ t) s) as [[] p]; cbn in *.
    - rewrite Hcool in *. cbn in *. subst es.
      exists (es1 ++ LogGrowth s :: (if String.eqb (CooldownFile cfg) "" then [] else [MarkCooldown])).
      rewrite <- app_assoc. split; [done|]. rewrite elem_of_app, elem_of_cons. intros [?|[?|Hin]]; [done|done|].
      destruct (String.eqb _ _); [by apply elem_of_nil in Hin|]. by apply list_elem_of_singleton in Hin.
    - subst es. rewrite app_nil_r in Hexit. done. }
  exists ts1, t, rest, l. split_and!; try done.
  - unfold inCooldown in Hcool. destruct (String.eqb_spec (CooldownFile cfg) ""); [by left|right].
    intros age Ha. rewrite Ha in Hcool. cbn in Hcool. by apply Z.ltb_ge in Hcool.
  - destruct Hr as ((os0 & ->) & Hlink & Hall). exists pre, seg, i, first, run. split_and!; try done. by exists os0.
Qed.

Lemma Run_segment seg st os os2 : exited st = false → describes os (pressure st) → observed seg = Some os2 →
  Forall (λ t, inCooldown cfg (lstat t) = false) seg →
  exited (Run cfg st seg).1 = true ∨
  exited (Run cfg st seg).1 = false ∧ describes (os ++ os2) (pressure (Run cfg st seg).1).
Proof.
  revert st os os2. induction seg as [|t seg IH]; intros st os os2 Hex Hd Ho Hc; cbn [observed] in Ho.
  - injection Ho as <-. right. by rewrite app_nil_r.
  - apply Forall_cons in Hc as [Hct Hc]. destruct (sample t) as [s|] eqn:Hs; [|done].
    apply fmap_Some in Ho as (os' & Ho & ->). cbn [Run].
    assert (tick cfg st t = (let '(l, p) := observe cfg (pressure st) (at_ t) s in
      if l then ({| pressure := p; exited := true |},
                 LogGrowth s :: (if String.eqb (CooldownFile cfg) "" then [] else [MarkCooldown]) ++ [Exit])
      else ({| pressure := p; exited := false |}, []))) as ->.
    { unfold tick. rewrite Hex, Hs, Hct. by destruct (observe _ _ _ _) as [[] ?]. }
    pose proof (observe_describes os (pressure st) (at_ t, s) Hd) as Hd'. cbn [fst snd] in Hd'.
    destruct (observe cfg (pressure st) (at_ t) s) as [[] p]; cbn [snd] in Hd'.
    + left. by rewrite Run_exited.
    + specialize (IH {| pressure := p; exited := false |} (os ++ [(at_ t, s)]) os' eq_refl Hd' Ho Hc).
      rewrite <- app_assoc in IH. by destruct (Run cfg {| pressure := p; exited := false |} seg).
Qed.

(** C29: A leak ends the process.  Whatever happened before, once a resource has
    been at or over its limit in consecutive samples, none failed, none more
    than two intervals after the last, none found in the cooldown, that span
    the sustained time, the watchdog has exited. *)
Theorem watchdog_exits (pre seg : list Tick) (i : resource) (first final : obs) (run : list obs) :
  observed seg = Some (first :: run) → last (first :: run) = Some final → linked (first :: run) →
  Forall (λ o, over cfg o.2 i = true) (first :: run) →
  Forall (λ t, inCooldown cfg (lstat t) = false) seg →
  SustainedFor cfg <= final.1 - first.1 →
  exited (Run cfg start (pre ++ seg)).1 = true.
Proof.
  intros Hobs Hlast Hlink Hall Hcool Hspan. rewrite Run_app.
  pose proof (Run_spec pre) as Hpre. destruct (Run cfg start pre) as [st es]. cbn [fst].
  destruct Hpre as [[[Hex (p0 & s0 & os & _ & _ & Hd)] _]|[Hex _]]; [|by rewrite Run_exited].
  destruct seg as [|t0 seg0] using rev_ind; [done|]. clear IHseg0.
  apply Forall_app in Hcool as [Hc [Hct _]%Forall_cons]. destruct (observed_app _ _ _ Hobs) as (os1 & os2 & H1 & H2 & Heq).
  cbn [observed] in H2. destruct (sample t0) as [s|] eqn:Hs; [|done]. injection H2 as <-.
  rewrite Heq, last_snoc in Hlast. injection Hlast as <-. cbn [fst] in Hspan.
  rewrite Run_snoc. destruct (Run_segment seg0 st os os1 Hex Hd H1 Hc) as [Hex'|[Hex' Hd']].
  - destruct (Run cfg st seg0) as [st' es']. cbn [fst] in Hex'. unfold tick. by rewrite Hex'.
  - destruct (Run cfg st seg0) as [st' es']. cbn [fst] in Hex', Hd'. unfold tick. rewrite Hex', Hs.
    pose proof (observe_reports _ _ (at_ t0, s) Hd') as Hrep. cbn [fst snd] in Hrep.
    destruct (observe cfg (pressure st') (at_ t0) s) as [l p]. cbn [fst] in Hrep.
    assert (l = true) as ->; [|by rewrite Hct]. apply Hrep. exists i, first, run. split; [|done].
    split; [|done]. exists os. by rewrite <- app_assoc, Heq.
Qed.

End window.

(** ** On samples *)

Definition wx_cfg : WatchdogConfig := NewWatchdog {|
  Interval := 0; SustainedFor := 3 * minute; GoroutineLimit := 100; FileDescLimit := 50; TrackerLimit := 0;
  CooldownFile := ""; Cooldown := 0 |}.

Definition wx_tick (m : Z) (g f : Z) : Tick := {|
  at_ := (1000 + m) * minute; sample := Ok {| Goroutines := g; FileDescs := f; TrackerCount := 999 |}; lstat := None |}.

(** Spikes of two resources in turn are no leak; one that lasts is. *)
Example wx_alternating :
  (leaking wx_cfg ((λ n, if Nat.even n then {| Goroutines := 100; FileDescs := 0; TrackerCount := 0 |}
                    else {| Goroutines := 0; FileDescs := 50; TrackerCount := 0 |}) <$> seq 0 20),
   leaking wx_cfg (replicate 4 {| Goroutines := 0; FileDescs := 50; TrackerCount := 0 |}),
   leaking wx_cfg (replicate 3 {| Goroutines := 0; FileDescs := 50; TrackerCount := 0 |})) = (false, true, false).
Proof. vm_compute. reflexivity. Qed.

Definition wx_seg : list Tick := [wx_tick 0 100 0; wx_tick 1 120 0; wx_tick 3 130 60; wx_tick 4 140 0].

Lemma watchdog_exits_witness :
  exited (Run wx_cfg start ([wx_tick (-1) 100 0; {| at_ := 999 * minute; sample := Err "x"; lstat := None |}] ++ wx_seg)).1 = true.
Proof.
  apply (watchdog_exits wx_cfg _ wx_seg RGoroutines
    (1000 * minute, {| Goroutines := 100; FileDescs := 0; TrackerCount := 999 |})
    (1004 * minute, {| Goroutines := 140; FileDescs := 0; TrackerCount := 999 |})
    [(1001 * minute, {| Goroutines := 120; FileDescs := 0; TrackerCount := 999 |});
     (1003 * minute, {| Goroutines := 130; FileDescs := 60; TrackerCount := 999 |});
     (1004 * minute, {| Goroutines := 140; FileDescs := 0; TrackerCount := 999 |})]);
    [vm_compute; reflexivity|reflexivity|vm_compute; repeat split|vm_compute; repeat constructor
    |vm_compute; repeat constructor|vm_compute; discriminate].
Defined.

Lemma watchdog_exits_only_on_a_leak_witness :
  (Run wx_cfg start wx_seg).2 =
    [LogGrowth {| Goroutines := 130; FileDescs := 60; TrackerCount := 999 |}; Exit] ∧
  ∃ ts1 t rest, wx_seg = ts1 ++ t :: rest.
Proof.
  split; [vm_compute; reflexivity|].
  destruct (watchdog_exits_only_on_a_leak wx_cfg wx_seg) as (ts1 & t & rest & l & H & _).
  - vm_compute. right. left.
  - exists ts1, t, rest. exact H.
Defined.

End Watchdog.
