(* ===== verification/Proclist.v ===== *)
(** * Proclist: processes with sockets, grouped into applications
    ([internal/proclist])

    The parsers of lsof, ps and /proc text, and the grouping that folds an
    application's helper processes under one root.  The walk up the parent
    chain has no bound in the code but a set of visited processes;
    [appRoot_terminates] shows that the size of the parent map bounds it. *)

From S2P Require Import Prelude GoStr GoUrl.

Local Open Scope string_scope.
Local Open Scope list_scope.

Module Proclist.

Record Process := { PID : Z; pName : string; Ports : list Z }.
Record App := { aPID : Z; aName : string; aPorts : list Z; Children : nat }.

Definition portsString (ports : list Z) : string := Join " " ((λ p, ":" +:+ Itoa p) <$> ports).

Definition launcherNames : list string :=
  ["launchd"; "systemd"; "init"; "login"; "bash"; "zsh"; "sh"; "fish"; "dash"; "tmux"; "tmux: server";
   "screen"; "sshd"; "(sd-pam)"; "containerd-shim"; "runc"].

(** The text before the last " (", if the name ends in a parenthesis. *)
Definition strip_paren (n : string) : option string :=
  match Cut (srev n) "( " with
  | Some (_, before) => if HasSuffix n ")" then Some (TrimSpace (srev before)) else None
  | None => None
  end.

Fixpoint strip_parens (fuel : nat) (n : string) : string :=
  match fuel with
  | O => n
  | S k => match strip_paren n with Some m => strip_parens k m | None => n end
  end.

Lemma strip_paren_shorter n m : strip_paren n = Some m → (String.length m < String.length n)%nat.
Proof.
  unfold strip_paren. destruct (Cut (srev n) "( ") as [[a b]|] eqn:Hc; [|done]. destruct (HasSuffix n ")"); [|done].
  intros [= <-]. apply Cut_Some in Hc. pose proof (length_TrimSpace (srev b)) as Ht. rewrite length_srev in Ht.
  rewrite <- (length_srev n), Hc, !length_app_str. cbn. lia.
Qed.

(** The fuel is enough: what is left has no parenthesis to strip. *)
Lemma strip_parens_done k n : (String.length n <= k)%nat → strip_paren (strip_parens k n) = None.
Proof.
  revert n. induction k as [|k IH]; intros n Hk; cbn [strip_parens].
  - destruct n; [done|cbn in Hk; lia].
  - destruct (strip_paren n) as [m|] eqn:Hm; [|done]. apply strip_paren_shorter in Hm. apply IH. lia.
Qed.

Section unicode.
Context `{GoUnicode}.

(** Each turn of the loop shortens the name. *)
Definition appBase (name : string) : string :=
  let n := TrimSpace name in
  let n := strip_parens (String.length n) n in
  ToLower (TrimSpace (TrimSuffix n " Helper")).

Definition sameApp (a b : string) : bool :=
  let ba := appBase a in negb (String.eqb ba "") && String.eqb ba (appBase b).

(** ** The application of a process *)

(** [name[pid]] *)
Definition name_of (name : gmap Z string) (pid : Z) : string := default "" (name !! pid).

(** The parent the walk goes on to, if it does. *)
Definition next (ppid : gmap Z Z) (name : gmap Z string) (seen : gset Z) (root : Z) : option Z :=
  match ppid !! root with
  | None => None
  | Some parent =>
      if (parent =? 0)%Z || (parent =? 1)%Z || bool_decide (parent ∈ seen) then None
      else if bool_decide (TrimSpace (name_of name parent) ∈ launcherNames) then None
      else if negb (sameApp (name_of name root) (name_of name parent)) then None
      else Some parent
  end.

(** The loop of [appRoot]; [None] is running out of fuel. *)
Fixpoint climb (fuel : nat) (ppid : gmap Z Z) (name : gmap Z string) (seen : gset Z) (root : Z) : option Z :=
  match fuel with
  | O => None
  | S k =>
      match next ppid name seen root with
      | None => Some root
      | Some parent => climb k ppid name ({[parent]} ∪ seen) parent
      end
  end.

Definition appRoot (pid : Z) (ppid : gmap Z Z) (name : gmap Z string) : Z :=
  default pid (climb (S (S (size ppid))) ppid name {[pid]} pid).

(** ** Grouping *)

Definition dedupSortPorts (ports : list Z) : list Z := merge_sort Z.le (dedup_from [] ports).

Definition name_le (n1 : string) (p1 : Z) (n2 : string) (p2 : Z) : Prop :=
  let l1 := ToLower n1 in let l2 := ToLower n2 in
  if String.eqb l1 l2 then (p1 <= p2)%Z else String.le l1 l2.

Definition app_le (a b : App) : Prop := name_le (aName a) (aPID a) (aName b) (aPID b).
Definition proc_le (a b : Process) : Prop := name_le (pName a) (PID a) (pName b) (PID b).

#[export] Instance app_le_dec a b : Decision (app_le a b).
Proof. unfold app_le, name_le. cbv zeta. destruct (String.eqb _ _); apply _. Defined.
#[export] Instance proc_le_dec a b : Decision (proc_le a b).
Proof. unfold proc_le, name_le. cbv zeta. destruct (String.eqb _ _); apply _. Defined.

Record acc := { ports : list Z; kids : gset Z; net : bool }.

Definition no_acc : acc := {| ports := []; kids := ∅; net := false |}.

(** The variables of the first loop of [groupApps]; it writes to the caller's
    name map. *)
Record Groups := { byRoot : gmap Z acc; order : list Z; gNames : gmap Z string }.

Definition add_process (ppid : gmap Z Z) (g : Groups) (p : Process) : Groups :=
  let root := appRoot (PID p) ppid (gNames g) in
  let a := default no_acc (byRoot g !! root) in
  let self := (PID p =? root)%Z in
  {| byRoot := <[root := {| ports := ports a ++ Ports p;
                            kids := if self then kids a else {[PID p]} ∪ kids a;
                            net := net a || self |}]> (byRoot g);
     order := match byRoot g !! root with Some _ => order g | None => order g ++ [root] end;
     gNames := if bool_decide (is_Some (gNames g !! root)) then gNames g
               else if self then <[root := pName p]> (gNames g) else gNames g |}.

Definition app_of (g : Groups) (root : Z) : App :=
  let a := default no_acc (byRoot g !! root) in
  let dispName := TrimSpace (name_of (gNames g) root) in
  {| aPID := root;
     aName := if String.eqb dispName "" then "PID " +:+ Itoa root else dispName;
     aPorts := dedupSortPorts (ports a);
     Children := size (kids a) |}.

Definition groups (procs : list Process) (ppid : gmap Z Z) (name : gmap Z string) : Groups :=
  foldl (add_process ppid) {| byRoot := ∅; order := []; gNames := name |} procs.

Definition groupApps (procs : list Process) (ppid : gmap Z Z) (name : gmap Z string) : list App :=
  let g := groups procs ppid name in merge_sort app_le (app_of g <$> order g).

(** ** Parsers *)

Definition localPortFromName (name : string) : Z :=
  let local := match Cut name "->" with Some (l, _) => l | None => name end in
  let local := match Cut local " " with Some (l, _) => l | None => local end in
  match Url.cut_last ":" local with
  | None => 0
  | Some (_, port) => default 0%Z (Atoi port)
  end.

Record LsofState := { byPID : gmap Z Process; lOrder : list Z; cur : option Z }.

Definition lsof_line (st : LsofState) (line : string) : LsofState :=
  match line with
  | "" => st
  | String tag val =>
      if Ascii.eqb tag "p" then
        match Atoi val with
        | None => {| byPID := byPID st; lOrder := lOrder st; cur := None |}
        | Some pid =>
            match byPID st !! pid with
            | Some _ => {| byPID := byPID st; lOrder := lOrder st; cur := Some pid |}
            | None => {| byPID := <[pid := {| PID := pid; pName := ""; Ports := [] |}]> (byPID st);
                         lOrder := lOrder st ++ [pid]; cur := Some pid |}
            end
        end
      else
        match p ← cur st; byPID st !! p with
        | None => st
        | Some p =>
            let set q := {| byPID := <[PID p := q]> (byPID st); lOrder := lOrder st; cur := cur st |} in
            if Ascii.eqb tag "c" then set {| PID := PID p; pName := val; Ports := Ports p |}
            else if Ascii.eqb tag "n" then
              let port := localPortFromName val in
              if (port =? 0)%Z then st else set {| PID := PID p; pName := pName p; Ports := Ports p ++ [port] |}
            else st
        end
  end.

Definition parseLsofFields (data : string) : list Process :=
  let st := foldl lsof_line {| byPID := ∅; lOrder := []; cur := None |} (split_byte LF data) in
  merge_sort proc_le
    ((λ p, {| PID := PID p; pName := pName p; Ports := dedupSortPorts (Ports p) |})
     <$> omap (λ pid, byPID st !! pid) (lOrder st)).

(** [strings.LastIndexByte(path, '/')] *)
Definition baseName (path : string) : string :=
  match Url.cut_last "/" path with Some (_, b) => b | None => path end.

Definition trim_left_blanks (s : string) : string := drop_while (λ c, Ascii.eqb c " ") s.

(** The process, its parent and its command on one line of ps. *)
Definition ps_line (line : string) : option (Z * Z * string) :=
  let line := TrimSpace line in
  '(a, r) ← Cut line " "; pid ← Atoi a;
  '(b, c) ← Cut (trim_left_blanks r) " "; parent ← Atoi b;
  Some (pid, parent, baseName (TrimSpace c)).

Definition ps_step (m : gmap Z Z * gmap Z string) (line : string) : gmap Z Z * gmap Z string :=
  match ps_line line with
  | Some (pid, parent, comm) => (<[pid := parent]> m.1, <[pid := comm]> m.2)
  | None => m
  end.

Definition parsePSPpid (data : string) : gmap Z Z * gmap Z string :=
  foldl ps_step (∅, ∅) (split_byte LF data).

(** [strconv.Atoi] with its error ignored: zero for a syntax error, the nearest
    value for one out of range. *)
Definition Atoi_ignoring (s : string) : Z :=
  match Atoi s with
  | Some n => n
  | None =>
      match s with
      | String c s' =>
          if Ascii.eqb c "-" then match parse_digits s' with Some _ => int64_min | None => 0 end
          else match parse_digits (if Ascii.eqb c "+" then s' else s) with Some _ => int64_max | None => 0 end
      | "" => 0
      end
  end.

Definition parseStatPPID (stat : string) : Z :=
  match Url.cut_last ")" stat with
  | None => 0
  | Some (_, rest) =>
      if (String.length rest <=? 1)%nat then 0%Z
      else match Fields rest with _ :: ppid :: _ => Atoi_ignoring ppid | _ => 0%Z end
  end.

Fixpoint hex_digits (acc : N) (s : string) : option N :=
  match s with
  | "" => Some acc
  | String c s => d ← Url.hex_digit c; hex_digits (16 * acc + d) s
  end.

(** [strconv.ParseInt(s, 16, 32)] *)
Definition ParseInt_16_32 (s : string) : option Z :=
  let '(neg, digits) := match s with
    | String c s' => if Ascii.eqb c "-" then (true, s') else if Ascii.eqb c "+" then (false, s') else (false, s)
    | "" => (false, "") end in
  match digits with
  | "" => None
  | _ => n ← hex_digits 0 digits;
         let z := if (neg : bool) then (- Z.of_N n)%Z else Z.of_N n in
         if ((-2147483648 <=? z) && (z <=? 2147483647))%Z then Some z else None
  end.

(** [strconv.ParseUint(s, 10, 64)] *)
Definition ParseUint_10_64 (s : string) : option N :=
  n ← parse_digits s; if (n <? 18446744073709551616)%N then Some n else None.

(** One line of /proc/net/tcp: the inode and the local port. *)
Definition net_line (line : string) : option (N * Z) :=
  let fields := Fields line in
  if (length fields <? 10)%nat then None else
  local ← fields !! 1%nat; '(_, hexport) ← Url.cut_last ":" local; port ← ParseInt_16_32 hexport;
  f9 ← fields !! 9%nat; inode ← ParseUint_10_64 f9;
  if (inode =? 0)%N then None else Some (inode, port).

Definition parseProcNetPorts (data : string) : gmap N Z :=
  foldl (λ m line, match net_line line with Some (i, p) => <[i := p]> m | None => m end) ∅
    (match split_byte LF data with [] => [] | _ :: ls => ls end).

(** ** The walk ends *)

Lemma next_Some ppid name seen root parent : next ppid name seen root = Some parent →
  ppid !! root = Some parent ∧ parent ∉ seen ∧ parent ≠ 0%Z ∧ parent ≠ 1%Z ∧
  TrimSpace (name_of name parent) ∉ launcherNames ∧ sameApp (name_of name root) (name_of name parent) = true.
Proof.
  unfold next. destruct (ppid !! root) as [q|]; [|done]. destruct ((q =? 0)%Z || (q =? 1)%Z) eqn:E; cbn [orb]; [done|].
  apply orb_false_iff in E as [?%Z.eqb_neq ?%Z.eqb_neq]. case_bool_decide; [done|]. case_bool_decide; [done|].
  destruct (sameApp _ _) eqn:Hs; [|done]. intros [= <-]. by split_and!.
Qed.

(** Every turn uses up a key of the parent map. *)
Lemma climb_total fuel ppid name seen root :
  root ∈ seen → (size (dom ppid ∖ (seen ∖ {[root]})) < fuel)%nat → is_Some (climb fuel ppid name seen root).
Proof.
  revert seen root. induction fuel as [|k IH]; intros seen root Hin Hsize; [lia|]. cbn [climb].
  destruct (next ppid name seen root) as [parent|] eqn:Hn; [|by eexists].
  apply next_Some in Hn as (Hp & Hns & _). apply IH; [set_solver|].
  assert (({[parent]} ∪ seen) ∖ {[parent]} = seen) as -> by set_solver.
  assert (root ∈ dom ppid) as Hdom by (by apply elem_of_dom_2 in Hp).
  assert (size (dom ppid ∖ seen) < size (dom ppid ∖ (seen ∖ {[root]})))%nat; [|lia].
  apply subset_size. set_solver.
Qed.

Lemma climb_more k k' ppid name seen root r : climb k ppid name seen root = Some r → (k <= k')%nat →
  climb k' ppid name seen root = Some r.
Proof.
  revert k' seen root. induction k as [|k IH]; intros k' seen root; [done|]. destruct k' as [|k']; [lia|].
  cbn [climb]. destruct (next _ _ _ _) as [q|]; [|done]. intros Hc Hk. apply IH; [done|lia].
Qed.

(** A chain of parents within one application. *)
Fixpoint app_chain (ppid : gmap Z Z) (name : gmap Z string) (from : Z) (path : list Z) : Prop :=
  match path with
  | [] => True
  | q :: path =>
      ppid !! from = Some q ∧ q ≠ 0%Z ∧ q ≠ 1%Z ∧ TrimSpace (name_of name q) ∉ launcherNames ∧
      sameApp (name_of name from) (name_of name q) = true ∧ app_chain ppid name q path
  end.

Lemma climb_chain k ppid name seen root r : root ∈ seen → climb k ppid name seen root = Some r →
  ∃ path, app_chain ppid name root path ∧ last (root :: path) = Some r ∧ NoDup path ∧
    (∀ x, x ∈ path → x ∉ seen) ∧ next ppid name (list_to_set path ∪ seen) r = None.
Proof.
  revert seen root. induction k as [|k IH]; intros seen root Hin; [done|]. cbn [climb].
  destruct (next ppid name seen root) as [q|] eqn:Hn.
  - intros Hc. apply next_Some in Hn as (Hp & Hns & H0 & H1 & Hl & Hs).
    destruct (IH ({[q]} ∪ seen) q ltac:(set_solver) Hc) as (path & Hch & Hlast & Hnd & Hfresh & Hstop).
    exists (q :: path). split; [by split_and!|]. split; [done|]. split.
    { constructor; [|done]. intros Hq. by apply Hfresh in Hq; set_solver. }
    split; [intros x [->|Hx]%elem_of_cons; [done|apply Hfresh in Hx; set_solver]|].
    assert (list_to_set (q :: path) ∪ seen = list_to_set path ∪ ({[q]} ∪ seen) :> gset Z) as -> by set_solver. done.
  - intros [= <-]. exists []. split; [done|]. split; [done|]. split; [constructor|].
    split; [intros x Hx; by apply elem_of_nil in Hx|].
    assert (list_to_set [] ∪ seen = seen :> gset Z) as -> by set_solver. done.
Qed.

(** C30: The walk up the parent chain ends, whatever the tables say, cycles
    included: within as many turns as there are parents it stops at a process
    reached by a chain of distinct ancestors of one application, none of them
    0, 1 or a launcher, and it stops there because there is no further parent,
    or that is 0, 1, a launcher, an ancestor already visited or another
    application. *)
Theorem appRoot_terminates (pid : Z) (ppid : gmap Z Z) (name : gmap Z string) :
  (∀ fuel, (size ppid + 2 <= fuel)%nat → climb fuel ppid name {[pid]} pid = Some (appRoot pid ppid name)) ∧
  ∃ path, app_chain ppid name pid path ∧ last (pid :: path) = Some (appRoot pid ppid name) ∧ NoDup (pid :: path) ∧
    next ppid name (list_to_set (pid :: path)) (appRoot pid ppid name) = None.
Proof.
  destruct (climb_total (S (S (size ppid))) ppid name {[pid]} pid) as [r Hr].
  { set_solver. }
  { assert ({[pid]} ∖ {[pid]} = ∅ :> gset Z) as -> by set_solver. rewrite (difference_empty_L (dom ppid)), size_dom. lia. }
  assert (appRoot pid ppid name = r) as -> by (unfold appRoot; by rewrite Hr). split.
  - intros fuel Hf. eapply climb_more; [exact Hr|lia].
  - destruct (climb_chain _ _ _ _ _ _ (elem_of_singleton_2 pid pid eq_refl) Hr) as (path & Hc & Hl & Hnd & Hfr & Hstop).
    exists path. split_and!; try done.
    + constructor; [|done]. intros Hin. apply Hfr in Hin. set_solver.
    + assert (list_to_set (pid :: path) = list_to_set path ∪ {[pid]} :> gset Z) as -> by set_solver. done.
Qed.

(** ** Grouping is a partition *)

Lemma dedupSortPorts_spec l : NoDup (dedupSortPorts l) ∧ Sorted Z.le (dedupSortPorts l) ∧
  ∀ x, x ∈ dedupSortPorts l ↔ x ∈ l.
Proof.
  unfold dedupSortPorts. split_and!.
  - rewrite merge_sort_Permutation. apply NoDup_dedup_from.
  - apply Sorted_merge_sort. apply _.
  - intros x. rewrite merge_sort_Permutation, elem_of_dedup_from. split; [tauto|]. intros ?. split; [done|apply not_elem_of_nil].
Qed.

#[export] Instance app_le_total : Total app_le.
Proof.
  intros a b. unfold app_le, name_le. cbv zeta. rewrite (String.eqb_sym (ToLower (aName b))).
  destruct (String.eqb _ _); [lia|]. apply (total String.le).
Qed.

Section partition.
Context (ppid : gmap Z Z) (name : gmap Z string).

Definition root_of (p : Process) : Z := appRoot (PID p) ppid name.

(** What the first loop has gathered after some processes. *)
Record gathers (procs : list Process) (g : Groups) : Prop := {
  ga_names : gNames g = name;
  ga_order : NoDup (order g);
  ga_roots : ∀ root, root ∈ order g ↔ ∃ p, p ∈ procs ∧ root_of p = root;
  ga_found : ∀ root, is_Some (byRoot g !! root) ↔ root ∈ order g;
  ga_ports : ∀ root port, port ∈ ports (default no_acc (byRoot g !! root)) ↔
    ∃ p, p ∈ procs ∧ root_of p = root ∧ port ∈ Ports p;
  ga_kids : ∀ root k, k ∈ kids (default no_acc (byRoot g !! root)) ↔
    k ≠ root ∧ ∃ p, p ∈ procs ∧ root_of p = root ∧ PID p = k
}.

Lemma add_process_gathers procs g p : is_Some (name !! PID p) → gathers procs g →
  gathers (procs ++ [p]) (add_process ppid g p).
Proof.
  intros Hname [Hn Hnd Hr Hf Hp Hk]. unfold add_process. rewrite Hn. fold (root_of p).
  assert (∀ Q : Process → Prop, (∃ q, q ∈ procs ++ [p] ∧ Q q) ↔ (∃ q, q ∈ procs ∧ Q q) ∨ Q p) as Hex.
  { intros Q. split.
    - intros (q & Hq & HQ). apply elem_of_app in Hq as [Hq|Hq%list_elem_of_singleton]; [left; by exists q|right; by subst].
    - intros [(q & Hq & HQ)|HQ]; [exists q|exists p]; rewrite elem_of_app, list_elem_of_singleton; tauto. }
  split; cbn [gNames order byRoot].
  - case_bool_decide as Hb; [done|]. destruct (PID p =? root_of p)%Z eqn:E; [|done]. apply Z.eqb_eq in E.
    destruct Hb. by rewrite <- E.
  - destruct (byRoot g !! root_of p) eqn:E; [done|]. apply NoDup_app. split_and!; [done| |apply NoDup_singleton].
    intros x Hx ->%list_elem_of_singleton. apply Hf in Hx. rewrite E in Hx. by destruct Hx.
  - intros root. rewrite (Hex (λ q, root_of q = root)), <- Hr.
    destruct (byRoot g !! root_of p) eqn:E.
    + split; [by left|]. intros [?|<-]; [done|]. apply Hf. by rewrite E.
    + rewrite elem_of_app, list_elem_of_singleton. split; intros [?|?]; auto.
  - intros root. destruct (byRoot g !! root_of p) eqn:E.
    + destruct (decide (root = root_of p)) as [->|Hne].
      * rewrite lookup_insert_eq. split; [intros _; apply Hf; by rewrite E|by eexists].
      * rewrite lookup_insert_ne by done. apply Hf.
    + rewrite elem_of_app, list_elem_of_singleton. destruct (decide (root = root_of p)) as [->|Hne].
      * rewrite lookup_insert_eq. split; [by right|by eexists].
      * rewrite lookup_insert_ne, Hf by done. tauto.
  - intros root port. rewrite (Hex (λ q, root_of q = root ∧ port ∈ Ports q)), <- Hp.
    destruct (decide (root = root_of p)) as [->|Hne].
    + rewrite lookup_insert_eq. cbn [from_option id ports]. rewrite elem_of_app. tauto.
    + rewrite lookup_insert_ne by done. split; [by left|]. by intros [?|[<- _]].
  - intros root k. rewrite (Hex (λ q, root_of q = root ∧ PID q = k)).
    destruct (decide (root = root_of p)) as [->|Hne].
    + rewrite lookup_insert_eq. cbn [from_option id kids]. specialize (Hk (root_of p) k).
      destruct (Z.eqb_spec (PID p) (root_of p)) as [E|E].
      * rewrite Hk. split; [tauto|]. intros [? [?|[_ <-]]]; [tauto|done].
      * rewrite elem_of_union, elem_of_singleton, Hk. split; [intros [->|?]; tauto|]. intros [? [?|[_ <-]]]; tauto.
    + rewrite lookup_insert_ne, Hk by done. split; [tauto|]. intros [? [?|[<- _]]]; [tauto|done].
Qed.

Lemma groups_gathers procs : Forall (λ p, is_Some (name !! PID p)) procs → gathers procs (groups procs ppid name).
Proof.
  unfold groups. induction procs as [|p procs IH] using rev_ind; intros Hall.
  - split; cbn [gNames order byRoot foldl]; [done|apply NoDup_nil_2|..].
    + intros r. rewrite elem_of_nil. split; [done|]. by intros (p & Hp%elem_of_nil & _).
    + intros r. rewrite lookup_empty, elem_of_nil. split; [by intros []|done].
    + intros r port. rewrite lookup_empty. cbn. rewrite elem_of_nil. split; [done|]. by intros (p & Hp%elem_of_nil & _).
    + intros r k. rewrite lookup_empty. cbn. split; [by intros ?%elem_of_empty|]. by intros (_ & p & Hp%elem_of_nil & _).
  - apply Forall_app in Hall as [Hall [Hp _]%Forall_cons]. rewrite foldl_app. apply add_process_gathers; auto.
Qed.

(** The picker's list is a partition of the processes.  When ps names every
    process with a socket, each of them belongs to exactly one listed
    application, its root; every listed application has one; an application's
    ports are exactly those of its processes, sorted and without repetition,
    and it counts exactly its processes other than the root; the list is
    ordered by name and process number. *)
Theorem groupApps_partitions (procs : list Process) :
  Forall (λ p, is_Some (name !! PID p)) procs →
  let apps := groupApps procs ppid name in
  NoDup (aPID <$> apps) ∧ Sorted app_le apps ∧
  (∀ r, r ∈ aPID <$> apps ↔ ∃ p, p ∈ procs ∧ root_of p = r) ∧
  Forall (λ a, NoDup (aPorts a) ∧ Sorted Z.le (aPorts a) ∧
    (∀ port, port ∈ aPorts a ↔ ∃ p, p ∈ procs ∧ root_of p = aPID a ∧ port ∈ Ports p) ∧
    ∃ ks : gset Z, Children a = size ks ∧
      ∀ k, k ∈ ks ↔ k ≠ aPID a ∧ ∃ p, p ∈ procs ∧ root_of p = aPID a ∧ PID p = k) apps.
Proof.
  intros Hall apps. pose proof (groups_gathers procs Hall) as [Hn Hnd Hr Hf Hp Hk].
  assert (apps ≡ₚ app_of (groups procs ppid name) <$> order (groups procs ppid name)) as Hperm
    by (apply merge_sort_Permutation).
  assert (aPID <$> apps ≡ₚ order (groups procs ppid name)) as Hids.
  { rewrite Hperm, <- list_fmap_compose. by rewrite (list_fmap_ext _ id), list_fmap_id. }
  split_and!.
  - by rewrite Hids.
  - apply Sorted_merge_sort, app_le_total.
  - intros r. by rewrite Hids, Hr.
  - rewrite Hperm. apply Forall_fmap, Forall_forall. intros r Hin. cbn.
    destruct (dedupSortPorts_spec (ports (default no_acc (byRoot (groups procs ppid name) !! r)))) as (H1 & H2 & H3).
    split_and!; [done|done| |].
    + intros port. rewrite H3. apply Hp.
    + eexists. split; [done|]. intros k. apply Hk.
Qed.

End partition.

End unicode.

(** ** On tables *)

#[local] Existing Instance ascii_only.

Definition px_ps : string := Join nl [
  "  1     0 /sbin/launchd"; " 300     1 /Applications/Cursor.app/Contents/MacOS/Cursor";
  " 301   300 /Applications/Cursor.app/Contents/Frameworks/Cursor Helper (Renderer).app/Cursor Helper (Renderer)";
  " 302   300 /x/Cursor Helper"; " 400     1 /bin/zsh"; " 401   400 /usr/bin/curl"; "bad line"; ""].

Definition px_lsof : string := Join nl ["p301"; "cCursor\x20Helper"; "n127.0.0.1:5000->1.2.3.4:443"; "n*:80 (LISTEN)";
  "p302"; "n[::1]:80->[::1]:5"; "p401"; "ccurl"; "n*:*"; "n10.0.0.1:9->2.2.2.2:443"].

Example px_parsed : (λ p, (PID p, pName p, Ports p)) <$> parseLsofFields px_lsof =
  [(302%Z, "", [80%Z]); (401%Z, "curl", [9%Z]); (301%Z, "Cursor\x20Helper", [80%Z; 5000%Z])].
Proof. vm_compute. reflexivity. Qed.

Example px_apps :
  let '(ppid, name) := parsePSPpid px_ps in
  (λ a, (aPID a, aName a, portsString (aPorts a), Children a)) <$> groupApps (parseLsofFields px_lsof) ppid name =
  [(401%Z, "curl", ":9", 0%nat); (300%Z, "Cursor", ":80 :5000", 2%nat)].
Proof. vm_compute. reflexivity. Qed.

(** A cycle of parents does not hang the walk. *)
Example px_cycle :
  appRoot 5 (<[5%Z := 6%Z]> {[6%Z := 5%Z]}) (<[5%Z := "App"]> {[6%Z := "App Helper (GPU)"]}) = 6%Z.
Proof. vm_compute. reflexivity. Qed.

Example px_stat : (parseStatPPID "42 (a b) c) S 7 1", parseStatPPID "42 (a)", parseStatPPID "x") = (7%Z, 0%Z, 0%Z).
Proof. vm_compute. reflexivity. Qed.

Lemma groupApps_partitions_witness :
  let '(ppid, name) := parsePSPpid px_ps in
  Sorted app_le (groupApps (parseLsofFields px_lsof) ppid name).
Proof.
  destruct (parsePSPpid px_ps) as [ppid name] eqn:E.
  apply (groupApps_partitions ppid name (parseLsofFields px_lsof)).
  injection E as <- <-. apply (bool_decide_unpack _). vm_compute. exact I.
Defined.

End Proclist.
