(* ===== verification/Executor.v ===== *)
(** * Executor: the composition of keys, manager and monitor
    ([internal/app/executor.go], [subscriptions.go], [internal/sub/record.go])

    The executor owns the manager, the key set (manual keys and subscriptions),
    the firewall rules and the coexistence state.  A method is a state
    transformer; what it sends to the UI and to its persistence hooks is the
    list [out].  The manager's methods run as in RuntimeSeq, one at a time,
    and the environment [env] answers their calls.  Locks are not modelled
    here: the callers are the control socket and the monitor loop, one call
    after the other. *)

From S2P Require Import Prelude GoStr GoUrl NetState Policy Monitor Runtime Registry Singbox Sub.
Import Policy Runtime Registry.

Local Open Scope string_scope.
Local Open Scope list_scope.

Module Executor.

(** ** Data *)

(** [time.Time] in nanoseconds; 0 is the zero time.  The metadata of a panel
    is Sub's. *)
Abbreviation Meta := Sub.Meta.

Record Subscription := {
  subURL : string;
  subTitle : string;
  AddedAt : Z;
  LastUpdate : Z;
  LastError : string;
  subLinks : list string;
  subMeta : Meta
}.

Definition DefaultInterval : Z := 12 * 3600 * 1000000000.

Definition Interval (s : Subscription) : Z :=
  if (0 <? Sub.UpdateInterval (subMeta s))%Z then Sub.UpdateInterval (subMeta s) else DefaultInterval.

(** [None] is the zero time: due at once. *)
Definition DueAt (s : Subscription) : option Z :=
  if (LastUpdate s =? 0)%Z then None else Some (LastUpdate s + Interval s)%Z.

Definition Label (s : Subscription) : string :=
  if negb (String.eqb (subTitle s) "") then subTitle s
  else match Cut (subURL s) "://" with
       | Some (_, rest) => before_byte (λ c, Ascii.eqb c "/") rest
       | None => subURL s
       end.

Inductive coexistState := coexistNone | coexistBypass | coexistFallback | coexistSuspended.

#[export] Instance coexistState_eq_dec : EqDecision coexistState.
Proof. solve_decision. Defined.

Inductive RunMode := RunOff | RunProxy | RunVPN.
Inductive Level := ActInfo | ActOk | ActWarn.

(** What leaves the executor. *)
Inductive Effect :=
  | StatusMsg (m : RunMode) (note : string)
  | ActionMsg (l : Level) (text : string)
  | NetStateMsg (cisco : bool) (physIface : string) (bypass : bool)
  | SaveProfile (text : string)
  | SaveSubs (subs : list Subscription).

Record Executor := {
  x_loaded : bool;             (* mgr is not nil *)
  x_world : World;             (* the manager and the cores *)
  links : list string;
  manual : list string;
  subs : list Subscription;
  fwRules : list Firewall.Rule;
  autostartMode : string;
  coexist : coexistState;
  lastCisco : bool;
  lastPhys : string;
  poller : bool;               (* pollCancel is not nil *)
  watchdog : bool;             (* watchdogCancel is not nil *)
  out : list Effect
}.

Definition NewExecutor : Executor := {|
  x_loaded := false; x_world := init_world; links := []; manual := []; subs := []; fwRules := [];
  autostartMode := ""; coexist := coexistNone; lastCisco := false; lastPhys := "";
  poller := false; watchdog := false; out := [] |}.

Inductive error :=
  | errNoProxy
  | ErrCiscoActive
  | ErrManager (e : Runtime.error)
  | ErrRegistry (e : Registry.error)
  | ErrKeyIndex (i : Z)
  | ErrSubscriptionOwned (owner : string)
  | ErrSubURL (raw : string)
  | ErrSubExists (raw : string)
  | ErrNoFetcher
  | ErrFetch (e : string)
  | ErrUnusable (url : string) (e : Registry.error)
  | ErrNoSubscription (raw : string)
  | ErrAutostartMode (mode : string)
  | ErrAutostart (mode : string) (e : error)
  | ErrFirewall (e : Firewall.error)
  | ErrRuleExists (id : string)
  | ErrNoRule (id : string)
  | ErrSave (e : string).

(** ** State passing *)

Definition M (A : Type) : Type := Executor → A * Executor.
Definition ret {A} (a : A) : M A := λ x, (a, x).
Definition mbind {A B} (m : M A) (k : A → M B) : M B := λ x, let '(a, x') := m x in k a x'.
Definition get {A} (f : Executor → A) : M A := λ x, (f x, x).
Definition modify (f : Executor → Executor) : M unit := λ x, (tt, f x).

Declare Scope exec_scope.
Delimit Scope exec_scope with exec.
Notation "'let^' x ':=' m 'in' k" := (mbind m (fun x => k))
  (at level 10, x pattern, m at level 100, k at level 200) : exec_scope.
Open Scope exec_scope.

(** Go on after a call that succeeded, or return its error. *)
Definition and_then (m : M (option error)) (k : M (option error)) : M (option error) :=
  let^ r := m in match r with Some e => ret (Some e) | None => k end.

Definition set_runtime (l : bool) (w : World) (x : Executor) : Executor := {|
  x_loaded := l; x_world := w; links := links x; manual := manual x; subs := subs x;
  fwRules := fwRules x; autostartMode := autostartMode x; coexist := coexist x;
  lastCisco := lastCisco x; lastPhys := lastPhys x; poller := poller x; watchdog := watchdog x;
  out := out x |}.
Definition set_keys (ls man : list string) (x : Executor) : Executor := {|
  x_loaded := x_loaded x; x_world := x_world x; links := ls; manual := man; subs := subs x;
  fwRules := fwRules x; autostartMode := autostartMode x; coexist := coexist x;
  lastCisco := lastCisco x; lastPhys := lastPhys x; poller := poller x; watchdog := watchdog x;
  out := out x |}.
Definition set_subs (ss : list Subscription) (x : Executor) : Executor := {|
  x_loaded := x_loaded x; x_world := x_world x; links := links x; manual := manual x; subs := ss;
  fwRules := fwRules x; autostartMode := autostartMode x; coexist := coexist x;
  lastCisco := lastCisco x; lastPhys := lastPhys x; poller := poller x; watchdog := watchdog x;
  out := out x |}.
Definition set_rules (rs : list Firewall.Rule) (x : Executor) : Executor := {|
  x_loaded := x_loaded x; x_world := x_world x; links := links x; manual := manual x; subs := subs x;
  fwRules := rs; autostartMode := autostartMode x; coexist := coexist x;
  lastCisco := lastCisco x; lastPhys := lastPhys x; poller := poller x; watchdog := watchdog x;
  out := out x |}.
Definition set_autostart (m : string) (x : Executor) : Executor := {|
  x_loaded := x_loaded x; x_world := x_world x; links := links x; manual := manual x; subs := subs x;
  fwRules := fwRules x; autostartMode := m; coexist := coexist x;
  lastCisco := lastCisco x; lastPhys := lastPhys x; poller := poller x; watchdog := watchdog x;
  out := out x |}.
Definition set_coexist (c : coexistState) (x : Executor) : Executor := {|
  x_loaded := x_loaded x; x_world := x_world x; links := links x; manual := manual x; subs := subs x;
  fwRules := fwRules x; autostartMode := autostartMode x; coexist := c;
  lastCisco := lastCisco x; lastPhys := lastPhys x; poller := poller x; watchdog := watchdog x;
  out := out x |}.
Definition set_display (cisco : bool) (phys : string) (x : Executor) : Executor := {|
  x_loaded := x_loaded x; x_world := x_world x; links := links x; manual := manual x; subs := subs x;
  fwRules := fwRules x; autostartMode := autostartMode x; coexist := coexist x;
  lastCisco := cisco; lastPhys := phys; poller := poller x; watchdog := watchdog x;
  out := out x |}.
Definition set_background (p w : bool) (x : Executor) : Executor := {|
  x_loaded := x_loaded x; x_world := x_world x; links := links x; manual := manual x; subs := subs x;
  fwRules := fwRules x; autostartMode := autostartMode x; coexist := coexist x;
  lastCisco := lastCisco x; lastPhys := lastPhys x; poller := p; watchdog := w;
  out := out x |}.
Definition emit (e : Effect) (x : Executor) : Executor := {|
  x_loaded := x_loaded x; x_world := x_world x; links := links x; manual := manual x; subs := subs x;
  fwRules := fwRules x; autostartMode := autostartMode x; coexist := coexist x;
  lastCisco := lastCisco x; lastPhys := lastPhys x; poller := poller x; watchdog := watchdog x;
  out := out x ++ [e] |}.

(** ** Readers *)

Definition mgr_state (x : Executor) : State := state (mgr (x_world x)).

Definition Executor_Mode (x : Executor) : Mode :=
  if x_loaded x && bool_decide (mgr_state x = StateVPN) then ModeVPN else ModeProxy.

Definition ProxyBoundToPhysical (x : Executor) : bool :=
  x_loaded x && bool_decide (mgr_state x = StateProxyOnly) &&
  negb (String.eqb (bound (mgr (x_world x))) "").

Definition StateLabel (x : Executor) : string :=
  if negb (x_loaded x) then "off"
  else match mgr_state x with
       | StateVPN => "vpn"
       | StateProxyOnly => "proxy"
       | StateSuspended => "suspended"
       | StateStopped => "off"
       end.

Definition runMode (x : Executor) : RunMode :=
  if negb (x_loaded x) then RunOff
  else match mgr_state x with
       | StateVPN => RunVPN
       | StateProxyOnly => RunProxy
       | _ => RunOff
       end.

Definition proxyRunning (x : Executor) : bool :=
  x_loaded x && negb (bool_decide (mgr_state x = StateStopped)).

Definition AutostartMode (x : Executor) : string :=
  if String.eqb (autostartMode x) "" then "off" else autostartMode x.

(** [effectiveLinks]: the loop over manual keys and subscriptions, with [seen]. *)
Definition effectiveLinks (x : Executor) : list string :=
  dedup_from [] (filter (λ s, s ≠ "") (TrimSpace <$> (manual x ++ mjoin (subLinks <$> subs x)))).

Definition subscriptionOwning (x : Executor) (raw : string) : option string :=
  let raw := TrimSpace raw in
  if existsb (λ l, String.eqb (TrimSpace l) raw) (manual x) then None
  else Label <$> List.find (λ s, existsb (λ l, String.eqb (TrimSpace l) raw) (subLinks s)) (subs x).

(** ** The operations *)

Section operations.
Context `{GoUnicode} {P : Type} (reg : Registry_ P) (env : Env).
(** The hooks: whether there is a profile saver, a subscription saver and a
    notes channel, whether the Clash API is on, the fetcher, which may answer
    differently at different times, and the savers whose errors are reported. *)
Context (save saveSubs notes clash : bool).
Context (fetcher : option (Z → string → result string (list string * Meta))).
Context (saveAutostart : option (string → option string)).
Context (saveFirewall : option (list Firewall.Rule → option string)).

(** *** Calls of the manager *)

Definition run_mgr {A} (p : prog A) : M A := λ x,
  let '(a, w) := run env p (x_world x) in (a, set_runtime (x_loaded x) w x).

Definition mgr_call (o : op) : M (option error) :=
  let^ r := run_mgr (call o) in ret (ErrManager <$> r).

Definition push (e : Effect) : M unit := if notes then modify (emit e) else ret tt.

(** *** Background tasks *)

Definition startPoller : M unit :=
  modify (λ x, set_background (if clash then true else poller x) (watchdog x) x).
Definition startWatchdog : M unit := modify (λ x, set_background (poller x) true x).
Definition stopPoller : M unit := modify (λ x, set_background false (watchdog x) x).
Definition stopWatchdog : M unit := modify (λ x, set_background (poller x) false x).

(** *** Modes *)

Definition EnableProxy : M (option error) :=
  let^ loaded := get x_loaded in
  if negb loaded then ret (Some errNoProxy) else
  let^ st := get mgr_state in
  let^ r := mgr_call (if bool_decide (st = StateVPN) then OpStopForwarder else OpStartProxy) in
  match r with
  | Some e => ret (Some e)
  | None => let^ _ := startPoller in let^ _ := startWatchdog in ret None
  end.

Definition EnableVPN : M (option error) :=
  let^ cisco := get lastCisco in
  if cisco then ret (Some ErrCiscoActive) else
  let^ loaded := get x_loaded in
  if negb loaded then ret (Some errNoProxy) else
  and_then (mgr_call OpStartProxy)
    (and_then (mgr_call OpStartForwarder)
       (let^ _ := startPoller in let^ _ := startWatchdog in ret None)).

Definition Stop : M (option error) :=
  let^ _ := stopPoller in
  let^ _ := stopWatchdog in
  let^ loaded := get x_loaded in
  if negb loaded then ret None else mgr_call OpShutdown.

Definition SetAutostartMode (mode : string) : M (option error) :=
  if bool_decide (mode ∈ ["off"; "proxy"; "vpn"]) then
    let^ _ := modify (set_autostart mode) in
    ret (match saveAutostart with Some f => ErrSave <$> f mode | None => None end)
  else ret (Some (ErrAutostartMode mode)).

Definition ApplyAutostart : M (option error) :=
  let^ mode := get AutostartMode in
  let finish (r : option error) : M (option error) :=
    match r with
    | None => ret None
    | Some e => let^ _ := Stop in ret (Some (ErrAutostart mode e))
    end in
  if String.eqb mode "proxy" then let^ r := EnableProxy in finish r
  else if String.eqb mode "vpn" then
    let^ cisco := get lastCisco in
    if cisco then let^ r := EnableProxy in finish r
    else
      let^ r := EnableVPN in
      let^ cisco := get lastCisco in
      match r with
      | Some _ => if cisco then let^ r := EnableProxy in finish r else finish r
      | None => finish r
      end
  else ret None.

(** *** Keys *)

Definition save_profile : M unit :=
  if save then let^ man := get manual in modify (emit (SaveProfile (Join nl man))) else ret tt.

Definition clearLinks : M (option error) :=
  and_then Stop
    (let^ loaded := get x_loaded in
     let^ _ := (if loaded then mgr_call OpShutdown else ret None) in
     let^ _ := modify (λ x, set_keys [] (manual x) (set_runtime false (x_world x) x)) in
     let^ _ := save_profile in
     ret None).

(** [runtime.NewManager]: a new manager over the same cores. *)
Definition fresh_manager (w : World) : World := upd_mgr NewManager w.

Definition applyEffective : M (option error) :=
  let^ effective := get effectiveLinks in
  match effective with
  | [] => clearLinks
  | _ =>
      match ParseAll reg effective with
      | Err e => ret (Some (ErrRegistry e))
      | Ok profiles =>
          let^ _ := stopPoller in
          let^ _ := stopWatchdog in
          let^ loaded := get x_loaded in
          let^ _ := (if loaded then mgr_call OpShutdown else ret None) in
          let^ _ := modify (λ x, set_keys (Raw <$> profiles) (manual x)
                                   (set_runtime true (fresh_manager (x_world x)) x)) in
          let^ _ := save_profile in
          ret None
      end
  end.

Definition Reload : M (option error) := applyEffective.

(** What a start puts in place from the files, without fetching. *)
Definition RestoreSubscriptions (ss : list Subscription) : M unit := modify (set_subs ss).
Definition RestoreFirewallRules (rs : list Firewall.Rule) : M unit := modify (set_rules rs).

(** The re-enabling that follows a reload. *)
Definition reenable (prev : string) : M (option error) :=
  if String.eqb prev "vpn" then EnableVPN
  else if String.eqb prev "proxy" || String.eqb prev "suspended" then EnableProxy
  else ret None.

Definition applyPreservingMode : M (option error) :=
  let^ prev := get StateLabel in and_then applyEffective (reenable prev).

Definition LoadLink (raw : string) : M (option error) :=
  match ParseAll reg [raw] with
  | Err e => ret (Some (ErrRegistry e))
  | Ok profiles =>
      let^ _ := modify (λ x, set_keys (links x) (Raw <$> profiles) x) in
      applyEffective
  end.

Definition AddLink (raw : string) : M (option error) :=
  match ParseAll reg [raw] with
  | Err e => ret (Some (ErrRegistry e))
  | Ok _ =>
      let^ prev := get StateLabel in
      let^ man := get manual in
      and_then (LoadLink (Join nl (man ++ [TrimSpace raw]))) (reenable prev)
  end.

(** [links[index]], bounds included. *)
Definition key_at (index : Z) (ls : list string) : option string :=
  if (index <? 0)%Z then None else ls !! Z.to_nat index.

Definition DeleteLink (index : Z) : M (option error) :=
  let^ ls := get links in
  match key_at index ls with
  | None => ret (Some (ErrKeyIndex index))
  | Some l =>
      let^ owner := get (λ x, subscriptionOwning x l) in
      match owner with
      | Some o => ret (Some (ErrSubscriptionOwned o))
      | None =>
          let^ _ := modify (λ x, set_keys (links x)
            (filter (λ m, TrimSpace m ≠ TrimSpace l) (manual x)) x) in
          applyPreservingMode
      end
  end.

(** Replace the first manual key equal to [old]. *)
Fixpoint rename_first (old new : string) (man : list string) : list string :=
  match man with
  | [] => []
  | m :: man =>
      if String.eqb (TrimSpace m) (TrimSpace old) then new :: man else m :: rename_first old new man
  end.

Definition RenameLink (index : Z) (newname : string) : M (option error) :=
  let^ ls := get links in
  match key_at index ls with
  | None => ret (Some (ErrKeyIndex index))
  | Some l =>
      let^ owner := get (λ x, subscriptionOwning x l) in
      match owner with
      | Some o => ret (Some (ErrSubscriptionOwned o))
      | None =>
          match SetLabel reg l newname with
          | Err e => ret (Some (ErrRegistry e))
          | Ok renamed =>
              let^ _ := modify (λ x, set_keys (links x) (rename_first l renamed (manual x)) x) in
              applyPreservingMode
          end
      end
  end.

(** *** Subscriptions *)

Definition validateSubURL (raw : string) : option error :=
  match Url.Parse raw with
  | None => Some (ErrSubURL raw)
  | Some u =>
      if String.eqb raw "" then Some (ErrSubURL raw)
      else if bool_decide (ToLower (Url.Scheme u) ∉ ["http"; "https"]) then Some (ErrSubURL raw)
      else if String.eqb (Url.Host u) "" then Some (ErrSubURL raw)
      else None
  end.

Definition with_error (e : string) (s : Subscription) : Subscription := {|
  subURL := subURL s; subTitle := subTitle s; AddedAt := AddedAt s; LastUpdate := LastUpdate s;
  LastError := e; subLinks := subLinks s; subMeta := subMeta s |}.

(** The text of an error kept in a record. *)
Definition registry_error_text (e : Registry.error) : string :=
  match e with ErrModule t => t | ErrNoProfiles => "no link provided" | _ => "unsupported input" end.

Definition fetchInto (now : Z) (fetch : string → result string (list string * Meta)) (s : Subscription)
    : Subscription * option error :=
  match fetch (subURL s) with
  | Err e => (with_error e s, Some (ErrFetch e))
  | Ok (ls, meta) =>
      match ParseAll reg ls with
      | Err e => (with_error (registry_error_text e) s, Some (ErrUnusable (subURL s) e))
      | Ok _ =>
          ({| subURL := subURL s;
              subTitle := if String.eqb (Sub.Title meta) "" then subTitle s else Sub.Title meta;
              AddedAt := AddedAt s; LastUpdate := now; LastError := ""; subLinks := ls;
              subMeta := meta |}, None)
      end
  end.

Definition persistSubscriptions : M unit :=
  if saveSubs then let^ ss := get subs in modify (emit (SaveSubs ss)) else ret tt.

Definition AddSubscription (now : Z) (raw0 : string) : M (option error) :=
  let raw := TrimSpace raw0 in
  match validateSubURL raw with
  | Some e => ret (Some e)
  | None =>
      let^ ss := get subs in
      if existsb (λ s, String.eqb (subURL s) raw) ss then ret (Some (ErrSubExists raw)) else
      match fetcher with
      | None => ret (Some ErrNoFetcher)
      | Some fetch =>
          let record := {| subURL := raw; subTitle := ""; AddedAt := now; LastUpdate := 0;
            LastError := ""; subLinks := []; subMeta := Sub.no_meta |} in
          match fetchInto now (fetch now) record with
          | (_, Some e) => ret (Some e)
          | (record, None) =>
              let^ _ := modify (λ x, set_subs (subs x ++ [record]) x) in
              let^ _ := persistSubscriptions in
              applyPreservingMode
          end
      end
  end.

Definition RemoveSubscription (raw0 : string) : M (option error) :=
  let raw := TrimSpace raw0 in
  let^ ss := get subs in
  let kept := filter (λ s, subURL s ≠ raw) ss in
  let^ _ := modify (set_subs kept) in
  if negb (existsb (λ s, String.eqb (subURL s) raw) ss) then ret (Some (ErrNoSubscription raw)) else
  let^ _ := persistSubscriptions in
  applyPreservingMode.

(** The records after a round of fetches, the first error, and how many changed. *)
Fixpoint fetch_all (now : Z) (fetch : string → result string (list string * Meta))
    (ss : list Subscription) : list Subscription * option error * nat :=
  match ss with
  | [] => ([], None, 0)
  | s :: ss =>
      let '(s', e) := fetchInto now fetch s in
      let '(ss', e', n) := fetch_all now fetch ss in
      (s' :: ss', match e with Some _ => e | None => e' end,
       match e with
       | Some _ => n
       | None => if String.eqb (Join nl (subLinks s')) (Join nl (subLinks s)) then n else S n
       end)
  end.

(** Put a fetched record back under its URL, over the first one that has it. *)
Fixpoint put_back (u : Subscription) (ss : list Subscription) : list Subscription :=
  match ss with
  | [] => []
  | s :: ss => if String.eqb (subURL s) (subURL u) then u :: ss else s :: put_back u ss
  end.

Definition RefreshSubscriptions (now : Z) : M (nat * option error) :=
  let^ current := get subs in
  match current with
  | [] => ret (0, None)
  | _ =>
      match fetcher with
      | None => ret (0, Some ErrNoFetcher)
      | Some fetch =>
          let '(fetched, firstErr, changed) := fetch_all now (fetch now) current in
          let^ _ := modify (λ x, set_subs (foldl (λ ss u, put_back u ss) (subs x) fetched) x) in
          let^ _ := persistSubscriptions in
          if (0 <? changed)%nat then
            let^ r := applyPreservingMode in
            match r with
            | Some e => ret (changed, Some e)
            | None => ret (changed, firstErr)
            end
          else ret (changed, firstErr)
      end
  end.

Definition anySubscriptionDue (now : Z) (x : Executor) : bool :=
  existsb (λ s, match DueAt s with None => true | Some d => (d <? now)%Z end) (subs x).

(** *** Firewall *)

(** [newID] is the random id given to a rule that has none. *)
Definition FirewallAdd (newID : string) (rule : Firewall.Rule) : M (result error Firewall.Rule) :=
  let rule := if String.eqb (Firewall.ID rule) "" then
    {| Firewall.ID := newID; Firewall.Action := Firewall.Action rule;
       Firewall.Domain := Firewall.Domain rule; Firewall.CIDR := Firewall.CIDR rule;
       Firewall.Process := Firewall.Process rule |} else rule in
  match Firewall.Validate rule with
  | Some e => ret (Err (ErrFirewall e))
  | None =>
      let^ rs := get fwRules in
      if existsb (λ r, String.eqb (Firewall.ID r) (Firewall.ID rule)) rs
      then ret (Err (ErrRuleExists (Firewall.ID rule))) else
      let^ _ := modify (set_rules (rs ++ [rule])) in
      match (f ← saveFirewall; f (rs ++ [rule])) with
      | Some e => ret (Err (ErrSave e))
      | None =>
          let^ loaded := get x_loaded in
          if negb loaded then ret (Ok rule) else
          let^ r := applyPreservingMode in
          ret (match r with Some e => Err e | None => Ok rule end)
      end
  end.

Definition FirewallRemove (id0 : string) : M (option error) :=
  let id := TrimSpace id0 in
  let^ rs := get fwRules in
  let kept := filter (λ r, Firewall.ID r ≠ id) rs in
  let^ _ := modify (set_rules kept) in
  if negb (existsb (λ r, String.eqb (Firewall.ID r) id) rs) then ret (Some (ErrNoRule id)) else
  match (f ← saveFirewall; f kept) with
  | Some e => ret (Some (ErrSave e))
  | None =>
      let^ loaded := get x_loaded in
      if negb loaded then ret None else applyPreservingMode
  end.

(** *** The monitor's events *)

Definition coexistFor (x : Executor) (ns : NetState.NetState) : coexistState :=
  if negb (x_loaded x) then coexistNone
  else match mgr_state x with
       | StateSuspended => coexistSuspended
       | StateProxyOnly =>
           if NetState.CiscoActive ns then
             if String.eqb (bound (mgr (x_world x))) "" then coexistFallback else coexistBypass
           else coexistNone
       | _ => coexistNone
       end.

Definition coexistNote (s : coexistState) (physIface : string) : string * Level :=
  match s with
  | coexistBypass =>
      let iface := if String.eqb physIface "" then "the physical interface" else physIface in
      ("Cisco is active — proxy is bypassing Cisco (egress via " +:+ iface +:+ ")", ActOk)
  | coexistFallback =>
      ("Cisco is active — proxy is using the system routes alongside the corporate VPN", ActInfo)
  | coexistSuspended =>
      ("Cisco is active — our VPN has stopped (fail-closed), we will resume once Cisco disconnects",
       ActWarn)
  | coexistNone => ("Cisco disconnected — proxy is back on the default route", ActInfo)
  end.

Definition updateCoexist (ns : NetState.NetState) : M unit :=
  let^ next := get (λ x, coexistFor x ns) in
  let^ prev := get coexist in
  let^ _ := modify (set_coexist next) in
  if bool_decide (next = prev) then ret tt
  else if bool_decide (next = coexistNone) && NetState.CiscoActive ns then ret tt
  else
    let '(note, level) := coexistNote next (NetState.PhysicalIface ns) in
    let^ rm := get runMode in
    let^ _ := push (StatusMsg rm note) in
    push (ActionMsg level note).

Definition PushDisplay (ns : NetState.NetState) : M unit :=
  let^ bypass := get (λ x, bool_decide (coexistFor x ns = coexistBypass)) in
  let^ _ := modify (set_display (NetState.CiscoActive ns) (NetState.PhysicalIface ns)) in
  push (NetStateMsg (NetState.CiscoActive ns) (NetState.PhysicalIface ns) bypass).

(** The part of [Apply] that binds to the physical interface. *)
Definition apply_bind (ns : NetState.NetState) : M unit :=
  let^ iface :=
    (if String.eqb (NetState.PhysicalIface ns) "" then
       let^ r := run_mgr (PhysicalDefault Runtime.Ret) in
       ret (match r with Ok i => i | Err _ => "" end)
     else ret (NetState.PhysicalIface ns)) in
  if String.eqb iface "" then ret tt
  else let^ _ := mgr_call (OpBindProxyToPhysical iface) in ret tt.

(** The part of [Apply] that refreshes the proxy. *)
Definition apply_refresh : M unit :=
  let^ st := get mgr_state in
  let^ _ := mgr_call (if bool_decide (st = StateSuspended) then OpResumeProxy else OpRefreshProxy) in
  ret tt.

Definition when (b : bool) (m : M unit) : M unit := if b then m else ret tt.

Definition Apply (ev : Monitor.Event) : M unit :=
  let acts := Actions (Monitor.evDecision ev) in
  let has a := bool_decide (a ∈ acts) in
  let ns := Monitor.evNetState ev in
  let^ loaded := get x_loaded in
  let^ _ := when loaded (
    let^ _ := when (has ActFailClosed || has ActStopForwarder)
      (let^ _ := mgr_call OpStopForwarder in ret tt) in
    let^ _ := when (has ActBindPhysical) (apply_bind ns) in
    let^ _ := when (has ActUnbindProxy) (let^ _ := mgr_call OpUnbindProxy in ret tt) in
    when (has ActRefreshProxy) apply_refresh) in
  let^ _ := updateCoexist ns in
  PushDisplay ns.

(** ** Requests

    What reaches the executor: the commands of the control socket, the
    subscription refresher, and the monitor's events and polls. *)
Inductive request :=
  | ReqEnableProxy | ReqEnableVPN | ReqStop
  | ReqSetAutostart (mode : string) | ReqApplyAutostart
  | ReqLoadLink (raw : string) | ReqAddLink (raw : string)
  | ReqDeleteLink (index : Z) | ReqRenameLink (index : Z) (newname : string)
  | ReqAddSubscription (now : Z) (raw : string) | ReqRemoveSubscription (raw : string)
  | ReqRefreshSubscriptions (now : Z)
  | ReqFirewallAdd (newID : string) (rule : Firewall.Rule) | ReqFirewallRemove (id : string)
  | ReqApply (ev : Monitor.Event) | ReqPushDisplay (ns : NetState.NetState).

Definition serve (q : request) (x : Executor) : Executor :=
  match q with
  | ReqEnableProxy => (EnableProxy x).2
  | ReqEnableVPN => (EnableVPN x).2
  | ReqStop => (Stop x).2
  | ReqSetAutostart m => (SetAutostartMode m x).2
  | ReqApplyAutostart => (ApplyAutostart x).2
  | ReqLoadLink raw => (LoadLink raw x).2
  | ReqAddLink raw => (AddLink raw x).2
  | ReqDeleteLink i => (DeleteLink i x).2
  | ReqRenameLink i n => (RenameLink i n x).2
  | ReqAddSubscription now raw => (AddSubscription now raw x).2
  | ReqRemoveSubscription raw => (RemoveSubscription raw x).2
  | ReqRefreshSubscriptions now => (RefreshSubscriptions now x).2
  | ReqFirewallAdd id r => (FirewallAdd id r x).2
  | ReqFirewallRemove id => (FirewallRemove id x).2
  | ReqApply ev => (Apply ev x).2
  | ReqPushDisplay ns => (PushDisplay ns x).2
  end.

Definition serve_all (qs : list request) (x : Executor) : Executor := foldl (λ x q, serve q x) x qs.

End operations.

(** ** The effective key set *)

Lemma elem_of_effectiveLinks x k :
  k ∈ effectiveLinks x ↔
  k ≠ "" ∧ ∃ l, (l ∈ manual x ∨ ∃ s, s ∈ subs x ∧ l ∈ subLinks s) ∧ TrimSpace l = k.
Proof.
  unfold effectiveLinks. rewrite elem_of_dedup_from, list_elem_of_filter, list_elem_of_fmap.
  split.
  - intros [[Hk (l & -> & Hl)] _]. split; [done|]. exists l. split; [|done].
    apply elem_of_app in Hl as [Hl|Hl]; [by left|right].
    apply list_elem_of_join in Hl as (ls & Hl & Hls). apply list_elem_of_fmap in Hls as (s & -> & Hs).
    by exists s.
  - intros [Hk (l & Hl & <-)]. split; [|apply not_elem_of_nil]. split; [done|]. exists l. split; [done|].
    apply elem_of_app. destruct Hl as [Hl|(s & Hs & Hl)]; [by left|right].
    apply list_elem_of_join. exists (subLinks s). split; [done|]. apply list_elem_of_fmap. by exists s.
Qed.

(** The effective key set: without repetition, exactly the trimmed non-empty
    keys of the manual set and of every subscription, and the manual keys
    come first, the same whatever the subscriptions are. *)
Theorem effective_links (x : Executor) (others : list Subscription) :
  NoDup (effectiveLinks x) ∧
  (∀ k, k ∈ effectiveLinks x ↔
     k ≠ "" ∧ ∃ l, (l ∈ manual x ∨ ∃ s, s ∈ subs x ∧ l ∈ subLinks s) ∧ TrimSpace l = k) ∧
  ∃ fromSubs, effectiveLinks (set_subs others x) =
    effectiveLinks (set_subs [] x) ++ fromSubs.
Proof.
  split_and!; [apply NoDup_dedup_from|apply elem_of_effectiveLinks|].
  unfold effectiveLinks; simpl. rewrite app_nil_r, fmap_app, filter_app.
  destruct (dedup_from_app [] (filter (λ s, s ≠ "") (TrimSpace <$> manual x))
    (filter (λ s, s ≠ "") (TrimSpace <$> mjoin (subLinks <$> others)))) as [k ->].
  by exists k.
Qed.

End Executor.
