(* ===== verification/ExecutorInv.v ===== *)
(** * ExecutorInv: the executor's invariants

    The Hoare-style machinery over the executor's methods ([pres J m]: the
    method [m] keeps [J]), the two invariants (the manager is consistent and
    never suspended, what is stored is well-formed), that every request keeps
    them, and what stopping, reloading and enabling a mode do. *)

From S2P Require Import Prelude GoStr NetState Policy Monitor Runtime RuntimeSeq Registry Singbox Sub Executor.
Import Policy Runtime Registry Executor.

Local Open Scope string_scope.
Local Open Scope list_scope.

(** ** The manager is never suspended *)

(** Every critical section of the program keeps [I]. *)
Fixpoint keeps {A} (I : Manager → Prop) (p : prog A) : Prop :=
  match p with
  | Ret _ => True
  | Lock f k => (∀ m, I m → I (fst (f m))) ∧ ∀ b, keeps I (k b)
  | CleanupOrphans k => ∀ r, keeps I (k r)
  | ProxyConfig _ k => ∀ r, keeps I (k r)
  | ForwarderConfig k => ∀ r, keeps I (k r)
  | PhysicalDefault k => ∀ r, keeps I (k r)
  | Factory _ _ k => ∀ r, keeps I (k r)
  | Start _ k => ∀ r, keeps I (k r)
  | Close _ k => ∀ r, keeps I (k r)
  end.

Lemma keeps_bind {A B} I (p : prog A) (h : A → prog B) :
  keeps I p → (∀ a, keeps I (h a)) → keeps I (bind p h).
Proof.
  intros Hp Hh. induction p; simpl in *; auto.
  destruct Hp as [Hf Hk]. split; [done|]. intros b. by apply H.
Qed.

Lemma keeps_run {A} I e (p : prog A) w : keeps I p → I (mgr w) → I (mgr (run e p w).2).
Proof.
  revert w. induction p; intros w Hp Hw; simpl in *; auto.
  - destruct Hp as [Hf Hk]. specialize (Hf _ Hw). destruct (f (mgr w)) as [m b]. by apply H.
  - destruct (env_factory e (calls w) label cfg); by apply H.
Qed.

#[local] Arguments run {A} e p w : simpl never.
#[local] Arguments call o : simpl never.

Definition awake (m : Manager) : Prop := state m ≠ StateSuspended.

Lemma keeps_get {B} I (f : Manager → B) : keeps I (lock_get f).
Proof. split; simpl; auto. Qed.
Lemma keeps_set I f : (∀ m, I m → I (f m)) → keeps I (lock_set f).
Proof. intros Hf. split; simpl; auto. Qed.
Lemma keeps_close_opt I c : keeps I (close_opt c).
Proof. by destruct c. Qed.

Lemma set_state_if_awake g s m : s ≠ StateSuspended → awake m → awake (set_state_if g s m).
Proof. unfold set_state_if, awake. by case_match. Qed.

Lemma refresh_failed_awake g m : awake m → awake (fst (refresh_failed g m)).
Proof. unfold refresh_failed, awake. by case_match. Qed.

Create HintDb awake.
#[local] Hint Resolve keeps_get keeps_close_opt set_state_if_awake : awake.

(** One step through a program: the critical sections that remain are about
    the field [state] only. *)
Ltac keeps_step :=
  lazymatch goal with
  | |- keeps _ (bind (Lock _ _) _) => cbn [bind]
  | |- keeps _ (bind (committed _) _) => apply keeps_bind; [apply keeps_get|intros ?]
  | |- keeps _ (bind (CleanupOrphans _) _) => cbn [bind]
  | |- keeps _ (bind _ _) => apply keeps_bind; [|intros ?]
  | |- keeps _ (lock_set _) => apply keeps_set; intros ? ?
  | |- keeps _ (lock_get _) => apply keeps_get
  | |- keeps _ (Ret _) => exact I
  | |- keeps _ (Lock _ _) => split; [intros ? ?|intros ?]
  | |- keeps _ (CleanupOrphans _) => intros ?
  | |- keeps _ (ProxyConfig _ _) => intros ?
  | |- keeps _ (ForwarderConfig _) => intros ?
  | |- keeps _ (PhysicalDefault _) => intros ?
  | |- keeps _ (Factory _ _ _) => intros ?
  | |- keeps _ (Start _ _) => intros ?
  | |- keeps _ (Close _ _) => intros ?
  | |- keeps _ (match ?x with _ => _ end) => destruct x
  | |- keeps _ _ => solve [auto with awake nocore]
  | |- awake _ => first [assumption | apply refresh_failed_awake; assumption | apply set_state_if_awake; [discriminate|assumption] | discriminate]
  end.

Lemma dialProxy_awake i g : keeps awake (dialProxy i g).
Proof. unfold dialProxy. repeat keeps_step. Qed.
#[local] Hint Resolve dialProxy_awake : awake.

Lemma recreateProxy_awake i g : keeps awake (recreateProxy i g).
Proof. unfold recreateProxy. repeat keeps_step. Qed.
#[local] Hint Resolve recreateProxy_awake : awake.

Lemma rollbackProxy_awake i g : keeps awake (rollbackProxy i g).
Proof. unfold rollbackProxy. repeat keeps_step. Qed.
Lemma teardownForwarder_awake g : keeps awake (teardownForwarder g).
Proof. unfold teardownForwarder. repeat keeps_step. Qed.
#[local] Hint Resolve rollbackProxy_awake teardownForwarder_awake : awake.

(** Only [SuspendForCisco] suspends the manager. *)
Lemma call_awake o : o ≠ OpSuspendForCisco → keeps awake (call o).
Proof.
  intros Ho. unfold call, transition.
  destruct o; try done; unfold op_work, StartProxy, StartForwarder, startForwarderCore, StopForwarder,
    NotifyForwarderExited, ResumeProxy, BindProxyToPhysical, UnbindProxy, RefreshProxy, Shutdown;
    repeat keeps_step.
Qed.

(** ** Invariants of the executor *)

(** The manager is consistent and not suspended. *)
Definition mgr_ok (x : Executor) : Prop := wf (x_world x) ∧ awake (mgr (x_world x)).

(** ... and without a loaded key set nothing runs. *)
Definition inv (x : Executor) : Prop :=
  mgr_ok x ∧ (x_loaded x = false → live (x_world x) = ∅).

Definition inv_loaded (x : Executor) : Prop := mgr_ok x ∧ x_loaded x = true.

(** [m] keeps [J]. *)
Definition pres {A} (J : Executor → Prop) (m : M A) : Prop := ∀ x, J x → J (m x).2.

Lemma pres_ret {A} J (a : A) : pres J (ret a).
Proof. by intros x. Qed.
Lemma pres_bind {A B} J (m : M A) (k : A → M B) :
  pres J m → (∀ a, pres J (k a)) → pres J (mbind m k).
Proof.
  intros Hm Hk x Hx. unfold mbind. specialize (Hm x Hx).
  destruct (m x) as [a x'] eqn:?. by apply Hk.
Qed.
Lemma pres_get {A B} J (f : Executor → A) (k : A → M B) :
  (∀ a, pres J (k a)) → pres J (mbind (get f) k).
Proof. intros Hk x Hx. by apply Hk. Qed.
Lemma pres_and_then J m k : pres J m → pres J k → pres J (and_then m k).
Proof. intros Hm Hk. apply pres_bind; [done|]. intros [e|]; [apply pres_ret|done]. Qed.

(** A change of the other fields. *)
Definition frames (f : Executor → Executor) : Prop :=
  ∀ x, x_loaded (f x) = x_loaded x ∧ x_world (f x) = x_world x.

Class FrameInv (J : Executor → Prop) : Prop :=
  frame_inv : ∀ x y, x_loaded y = x_loaded x → x_world y = x_world x → J x → J y.

#[export] Instance inv_frame : FrameInv inv.
Proof. intros x y Hl Hw. unfold inv, mgr_ok. rewrite Hl, Hw. auto. Qed.
#[export] Instance inv_loaded_frame : FrameInv inv_loaded.
Proof. intros x y Hl Hw. unfold inv_loaded, mgr_ok. rewrite Hl, Hw. auto. Qed.

Lemma pres_modify J `{!FrameInv J} f : frames f → pres J (modify f).
Proof. intros Hf x Hx. destruct (Hf x). by eapply frame_inv. Qed.

(** A guard on the loaded manager. *)
Lemma pres_guard {A} (v : A) (m : M A) :
  pres inv_loaded m →
  pres inv (let^ loaded := get x_loaded in if negb loaded then ret v else m).
Proof.
  intros Hm x Hinv. unfold mbind, get. destruct (x_loaded x) eqn:Hx; simpl; [|exact Hinv].
  destruct Hinv as [Hok _].
  destruct (Hm x (conj Hok Hx)) as [? Hy]. split; [done|]. by rewrite Hy.
Qed.
Lemma pres_guard_when {A} (m : M unit) (k : M A) :
  pres inv_loaded m → pres inv k →
  pres inv (let^ loaded := get x_loaded in let^ _ := when loaded m in k).
Proof.
  intros Hm Hk x Hinv. unfold mbind, get, when. destruct (x_loaded x) eqn:Hx; [|by apply Hk].
  destruct Hinv as [Hok _]. destruct (Hm x (conj Hok Hx)) as [? Hy].
  destruct (m x) as [[] x1]. apply Hk. split; [done|]. simpl in Hy. by rewrite Hy.
Qed.

(** One step through a method. *)
Ltac pres_step :=
  lazymatch goal with
  | |- pres _ (ret _) => apply pres_ret
  | |- pres _ (mbind (get _) _) => apply pres_get; intros ?
  | |- pres _ (mbind _ _) => apply pres_bind; [|intros ?]
  | |- pres _ (and_then _ _) => apply pres_and_then
  | |- pres _ (modify _) => first [apply pres_modify; [apply _|done] | intros ? Hsame; exact Hsame]
  | |- pres _ (when _ _) => unfold when
  | |- pres _ (if ?b then _ else _) => destruct b
  | |- pres _ (match ?x with _ => _ end) => destruct x
  | |- pres _ _ => solve [auto with pres nocore]
  end.

Create HintDb pres.

Section operations.
Context `{GoUnicode} {P : Type} {reg : Registry_ P} {env : Env}.
Context {save saveSubs notes clash : bool}.
Context {fetcher : option (Z → string → result string (list string * Meta))}.
Context {saveAutostart : option (string → option string)}.
Context {saveFirewall : option (list Firewall.Rule → option string)}.

Lemma mgr_call_run o x :
  mgr_call env o x =
  let '(r, w) := run env (call o) (x_world x) in (ErrManager <$> r, set_runtime (x_loaded x) w x).
Proof. unfold mgr_call, mbind, run_mgr. by destruct (run env (call o) (x_world x)). Qed.

Lemma mgr_call_pres o : o ≠ OpSuspendForCisco → pres inv_loaded (mgr_call env o).
Proof.
  intros Ho x [[Hwf Haw] Hl]. rewrite mgr_call_run.
  pose proof (keeps_run awake env (call o) (x_world x) (call_awake o Ho) Haw) as Haw'.
  destruct (run env (call o) (x_world x)) as [r w] eqn:Hr; simpl in *.
  by split; [split; [by eapply call_wf|]|].
Qed.

#[local] Hint Resolve mgr_call_pres : pres.
#[local] Hint Extern 1 (_ ≠ OpSuspendForCisco) => first [discriminate | case_match; discriminate] : pres.

#[local] Hint Extern 1 (pres _ (startPoller _)) => apply pres_modify; [apply _|done] : pres.
#[local] Hint Extern 1 (pres _ startWatchdog) => apply pres_modify; [apply _|done] : pres.

Lemma EnableProxy_pres : pres inv (EnableProxy env clash).
Proof. unfold EnableProxy. apply pres_guard. repeat pres_step. Qed.

Lemma EnableVPN_pres : pres inv (EnableVPN env clash).
Proof. unfold EnableVPN. pres_step. pres_step; [pres_step|]. apply pres_guard. repeat pres_step. Qed.

(** *** Stopping and reloading *)

(** The configuration: what is not the manager, the display or the output. *)
Definition config (x : Executor) : list string * list string * list Subscription *
    list Firewall.Rule * string * bool * string :=
  (links x, manual x, subs x, fwRules x, autostartMode x, lastCisco x, lastPhys x).

Lemma Shutdown_mgr_call x r x' :
  mgr_call env OpShutdown x = (r, x') → inv x →
  inv x' ∧ x_loaded x' = x_loaded x ∧ config x' = config x ∧ out x' = out x ∧
  live (x_world x') = ∅ ∧ mgr_state x' = StateStopped.
Proof.
  rewrite mgr_call_run. destruct (run env (call OpShutdown) (x_world x)) as [r' w] eqn:Hr.
  intros [= <- <-] [[Hwf Haw] Hl].
  destruct (Shutdown_spec _ _ _ _ Hr Hwf) as (Hwf' & Hg & Hst & Hlv & Hb).
  unfold inv, mgr_ok, awake, mgr_state, config; simpl. rewrite Hst. split_and!; auto; discriminate.
Qed.

Lemma Stop_spec x r x' :
  Stop env x = (r, x') → inv x →
  inv x' ∧ x_loaded x' = x_loaded x ∧ config x' = config x ∧ out x' = out x ∧
  live (x_world x') = ∅ ∧ (x_loaded x = true → mgr_state x' = StateStopped) ∧
  (x_loaded x = false → r = None).
Proof.
  unfold Stop, stopPoller, stopWatchdog, modify, get, mbind. simpl.
  intros Hs Hinv. destruct (x_loaded x) eqn:Hl; simpl in Hs.
  - apply Shutdown_mgr_call in Hs as (? & Hl' & ? & ? & ? & ?); [|done].
    rewrite Hl' in *. simpl in *. by rewrite Hl.
  - injection Hs as <- <-. simpl. rewrite Hl. destruct Hinv as [? Hlv].
    split_and!; auto; [by split|discriminate].
Qed.

Lemma Stop_off x r x' : Stop env x = (r, x') → inv x → StateLabel x' = "off".
Proof.
  intros Hs Hinv. destruct (Stop_spec _ _ _ Hs Hinv) as (_ & Hl & _ & _ & _ & Hst & _).
  unfold StateLabel. rewrite Hl. destruct (x_loaded x); simpl; [by rewrite Hst|done].
Qed.

Lemma wf_fresh_manager w : live w = ∅ → wf (fresh_manager w).
Proof.
  intros Hl. unfold wf, owned, fresh, state_ok; simpl. rewrite Hl.
  split_and!; try done; intros c Hc; set_solver.
Qed.

Lemma fresh_inv l man x :
  live (x_world x) = ∅ → inv (set_keys l man (set_runtime true (fresh_manager (x_world x)) x)).
Proof. intros Hl. unfold inv, mgr_ok; simpl. split_and!; [by apply wf_fresh_manager|done..]. Qed.

Lemma save_profile_frame x :
  let x' := (save_profile save x).2 in
  x_loaded x' = x_loaded x ∧ x_world x' = x_world x ∧ config x' = config x.
Proof. unfold save_profile, mbind, get, modify, ret. by case_match. Qed.

(** The keys that the effective set turns into. *)
Definition reloaded (x x' : Executor) : Prop :=
  effectiveLinks x = [] ∧ x_loaded x' = false ∧ links x' = [] ∨
  ∃ profiles, ParseAll reg (effectiveLinks x) = Ok profiles ∧ effectiveLinks x ≠ [] ∧
    x_loaded x' = true ∧ links x' = Raw <$> profiles.

(** What a reload leaves alone. *)
Definition sources (x : Executor) : list string * list Subscription * list Firewall.Rule * string * bool :=
  (manual x, subs x, fwRules x, autostartMode x, lastCisco x).

Lemma config_sources x y : config x = config y → sources x = sources y ∧ links x = links y.
Proof. unfold config, sources. intros [= -> -> -> -> -> -> _]. done. Qed.

Lemma clearLinks_spec x r x' :
  clearLinks env save x = (r, x') → inv x →
  inv x' ∧ sources x' = sources x ∧ live (x_world x') = ∅ ∧
  (r = None → x_loaded x' = false ∧ links x' = []).
Proof.
  unfold clearLinks, and_then. unfold mbind at 1.
  destruct (Stop env x) as [r1 x1] eqn:H1. intros Hc Hinv.
  destruct (Stop_spec _ _ _ H1 Hinv) as (Hi1 & Hl1 & Hc1 & _ & Hv1 & _).
  destruct (config_sources _ _ Hc1) as [Hs1 _].
  destruct r1; [injection Hc as <- <-; by split_and!|].
  unfold mbind at 1, get at 1 in Hc. unfold mbind at 1 in Hc.
  destruct ((if x_loaded x1 then mgr_call env OpShutdown else ret None) x1) as [r2 x2] eqn:H2.
  assert (inv x2 ∧ sources x2 = sources x1 ∧ live (x_world x2) = ∅) as (Hi2 & Hs2 & Hv2).
  { destruct (x_loaded x1); [|injection H2 as <- <-; by split_and!].
    apply Shutdown_mgr_call in H2 as (? & _ & Hc2 & _ & ? & _); [|done].
    by destruct (config_sources _ _ Hc2). }
  unfold mbind, modify in Hc.
  set (x3 := set_keys [] _ _) in Hc. pose proof (save_profile_frame x3) as (Hl4 & Hw4 & Hc4).
  destruct (save_profile save x3) as [[] x4] eqn:H4. injection Hc as <- <-. simpl in *.
  destruct (config_sources _ _ Hc4) as [Hs4 Hk4].
  destruct Hi2 as [Hok2 _]. unfold inv, mgr_ok. rewrite Hl4, Hw4, Hs4. simpl.
  split_and!; auto; [apply Hok2..|]. by rewrite <- Hs1, <- Hs2.
Qed.

Lemma applyEffective_spec x r x' :
  applyEffective reg env save x = (r, x') → inv x →
  inv x' ∧ sources x' = sources x ∧
  (r = None → reloaded x x' ∧ live (x_world x') = ∅ ∧
     (x_loaded x' = true → mgr (x_world x') = NewManager)) ∧
  (∀ e, ParseAll reg (effectiveLinks x) = Err e → effectiveLinks x ≠ [] →
     r = Some (ErrRegistry e) ∧ x' = x).
Proof.
  unfold applyEffective, reloaded. unfold mbind at 1, get at 1. intros Hc Hinv.
  destruct (effectiveLinks x) as [|k ks] eqn:Hk.
  { destruct (clearLinks_spec _ _ _ Hc Hinv) as (? & ? & ? & Hn). split_and!; [done..| |done].
    intros Hr. destruct (Hn Hr) as [Hl Hk']. split_and!; [by left|done|congruence]. }
  destruct (ParseAll reg (k :: ks)) as [profiles|e] eqn:Hp; [|injection Hc as <- <-; split_and!; [done|done|done|by intros ? [= ->]]].
  unfold mbind, stopPoller, stopWatchdog, modify, get in Hc. simpl in Hc.
  destruct ((if x_loaded x then mgr_call env OpShutdown else ret None) _) as [r2 x2] eqn:H2 in Hc.
  assert (inv x2 ∧ sources x2 = sources x ∧ live (x_world x2) = ∅) as (Hi2 & Hs2 & Hv2).
  { destruct (x_loaded x) eqn:Hl.
    - apply Shutdown_mgr_call in H2 as (? & _ & Hc2 & _ & ? & _); [|by eapply (frame_inv (J:=inv)); [..|exact Hinv]].
      by destruct (config_sources _ _ Hc2).
    - injection H2 as <- <-. destruct Hinv as [Hok Hl0]. split_and!; [|done|by apply Hl0]. by split. }
  set (x3 := set_keys _ _ _) in Hc. pose proof (save_profile_frame x3) as (Hl4 & Hw4 & Hc4).
  destruct (save_profile save x3) as [[] x4] eqn:H4. injection Hc as <- <-. simpl in *.
  destruct (config_sources _ _ Hc4) as [Hs4 Hk4]. simpl in *.
  split_and!.
  - eapply (frame_inv (J:=inv) x3); [done..|]. by apply fresh_inv.
  - rewrite Hs4. exact Hs2.
  - intros _. rewrite Hw4, Hl4. split_and!; [right; exists profiles; by split_and!|exact Hv2|done].
  - done.
Qed.

(** A set the registry accepts is loaded. *)
Lemma applyEffective_loads x ps : ParseAll reg (effectiveLinks x) = Ok ps → effectiveLinks x ≠ [] →
  (applyEffective reg env save x).1 = None.
Proof.
  intros Hp Hne. unfold applyEffective. unfold mbind at 1, get at 1. destruct (effectiveLinks x) as [|k ks]; [done|]. rewrite Hp.
  unfold mbind, stopPoller, stopWatchdog, modify, get. simpl.
  destruct ((if x_loaded x then mgr_call env OpShutdown else ret None) _). by destruct (save_profile save _).
Qed.

(** *** Enabling a mode on a fresh manager *)

Lemma EnableProxy_fresh x x' :
  EnableProxy env clash x = (None, x') → inv x →
  x_loaded x = true ∧
  (mgr (x_world x) = NewManager → StateLabel x' = "proxy") ∧ config x' = config x.
Proof.
  unfold EnableProxy. unfold mbind at 1, get at 1. destruct (x_loaded x) eqn:Hl; [|done]. simpl.
  unfold mbind, get. intros Hc [[Hwf _] _]. split; [done|].
  rewrite mgr_call_run in Hc.
  destruct (run env _ _) as [[e|] w] eqn:Hr; simpl in Hc; [done|]. injection Hc as <-.
  split; [|done]. intros Hm. rewrite bool_decide_eq_false_2 in Hr by (unfold mgr_state; by rewrite Hm).
  apply call_spec in Hr; [|done]. unfold StateLabel, mgr_state. simpl. rewrite Hl. simpl.
  destruct (StartProxy_spec _ _ _ _ _ Hr Hwf eq_refl) as (_ & _ & [[Hp _]|(_ & -> & _)]); [|done].
  rewrite Hm in Hp. by destruct Hp.
Qed.

Lemma EnableVPN_fresh x x' :
  EnableVPN env clash x = (None, x') → inv x →
  x_loaded x = true ∧ lastCisco x = false ∧ StateLabel x' = "vpn" ∧ config x' = config x.
Proof.
  unfold EnableVPN. unfold mbind at 1, get at 1. destruct (lastCisco x) eqn:Hci; [done|].
  unfold mbind at 1, get at 1. destruct (x_loaded x) eqn:Hl; [|done]. simpl.
  unfold and_then, mbind. intros Hc [[Hwf _] _].
  rewrite mgr_call_run in Hc.
  destruct (run env (call OpStartProxy) _) as [[e|] w] eqn:Hr; simpl in Hc; [done|].
  rewrite mgr_call_run in Hc. simpl in Hc.
  destruct (run env (call OpStartForwarder) w) as [[e|] w2] eqn:Hr2; simpl in Hc; [done|].
  injection Hc as <-. apply call_wf in Hr; [|done]. apply call_spec in Hr2; [|done].
  destruct (StartForwarder_spec _ _ _ _ _ Hr2 Hr eq_refl) as (_ & _ & Hst).
  unfold StateLabel, mgr_state; simpl. rewrite Hl, Hst. done.
Qed.

(** The label after a successful re-enabling on a fresh or absent manager. *)
Lemma reenable_fresh prev x x' :
  reenable env clash prev x = (None, x') → inv x →
  (x_loaded x = true → mgr (x_world x) = NewManager) →
  StateLabel x' = (if String.eqb prev "vpn" then "vpn"
    else if String.eqb prev "proxy" || String.eqb prev "suspended" then "proxy" else "off") ∧
  config x' = config x ∧ x_loaded x' = x_loaded x.
Proof.
  unfold reenable. intros Hr Hi Hn. destruct (String.eqb prev "vpn").
  { destruct (EnableVPN_fresh _ _ Hr Hi) as (Hl & _ & Hlab & Hc). split_and!; [done..|].
    unfold StateLabel in Hlab. rewrite Hl. by destruct (x_loaded x'). }
  destruct (_ || _).
  { destruct (EnableProxy_fresh _ _ Hr Hi) as (Hl & Hlab & Hc). specialize (Hlab (Hn Hl)).
    split_and!; [done..|]. unfold StateLabel in Hlab. rewrite Hl. by destruct (x_loaded x'). }
  injection Hr as <-. split_and!; [|done..]. unfold StateLabel, mgr_state.
  destruct (x_loaded x); [|done]. by rewrite Hn.
Qed.

Lemma reenable_pres prev : pres inv (reenable env clash prev).
Proof.
  unfold reenable. repeat case_match; [apply EnableVPN_pres|apply EnableProxy_pres|apply pres_ret].
Qed.

Lemma applyEffective_pres : pres inv (applyEffective reg env save).
Proof.
  intros x Hx. destruct (applyEffective reg env save x) as [r x'] eqn:H1.
  by destruct (applyEffective_spec _ _ _ H1 Hx).
Qed.

Lemma applyPreservingMode_pres : pres inv (applyPreservingMode reg env save clash).
Proof.
  unfold applyPreservingMode. apply pres_get. intros prev.
  apply pres_and_then; [apply applyEffective_pres|apply reenable_pres].
Qed.

#[local] Hint Resolve EnableProxy_pres EnableVPN_pres reenable_pres applyEffective_pres
  applyPreservingMode_pres : pres.

Lemma Stop_pres : pres inv (Stop env).
Proof.
  unfold Stop. do 2 (apply pres_bind; [by apply pres_modify; [apply _|]|intros _]).
  apply pres_guard. repeat pres_step.
Qed.
#[local] Hint Resolve Stop_pres : pres.

Lemma push_pres J `{!FrameInv J} e : pres J (push notes e).
Proof. unfold push. repeat pres_step. Qed.

Lemma persist_pres : pres inv (persistSubscriptions saveSubs).
Proof. unfold persistSubscriptions. repeat pres_step. Qed.
#[local] Hint Resolve persist_pres : pres.

Lemma ApplyAutostart_pres : pres inv (ApplyAutostart env clash).
Proof. unfold ApplyAutostart. repeat pres_step. Qed.

Lemma SetAutostartMode_pres m : pres inv (SetAutostartMode saveAutostart m).
Proof. unfold SetAutostartMode. repeat pres_step. Qed.

Lemma LoadLink_pres raw : pres inv (LoadLink reg env save raw).
Proof. unfold LoadLink. repeat pres_step. Qed.
#[local] Hint Resolve LoadLink_pres : pres.
Lemma AddLink_pres raw : pres inv (AddLink reg env save clash raw).
Proof. unfold AddLink. repeat pres_step. Qed.
Lemma DeleteLink_pres i : pres inv (DeleteLink reg env save clash i).
Proof. unfold DeleteLink. repeat pres_step. Qed.
Lemma RenameLink_pres i n : pres inv (RenameLink reg env save clash i n).
Proof. unfold RenameLink. repeat pres_step. Qed.

Lemma AddSubscription_pres now raw : pres inv (AddSubscription reg env save saveSubs clash fetcher now raw).
Proof. unfold AddSubscription. repeat pres_step. Qed.
Lemma RemoveSubscription_pres raw : pres inv (RemoveSubscription reg env save saveSubs clash raw).
Proof. unfold RemoveSubscription. repeat pres_step. Qed.
Lemma RefreshSubscriptions_pres now :
  pres inv (RefreshSubscriptions reg env save saveSubs clash fetcher now).
Proof.
  unfold RefreshSubscriptions. apply pres_get. intros [|s ss]; [pres_step|].
  destruct fetcher as [fetch|]; [|pres_step].
  destruct (fetch_all _ _ _ _) as [[fetched firstErr] changed]. repeat pres_step.
Qed.

Lemma FirewallAdd_pres id r : pres inv (FirewallAdd reg env save clash saveFirewall id r).
Proof. unfold FirewallAdd. repeat pres_step. Qed.
Lemma FirewallRemove_pres id : pres inv (FirewallRemove reg env save clash saveFirewall id).
Proof. unfold FirewallRemove. repeat pres_step. Qed.

Lemma PushDisplay_pres ns : pres inv (PushDisplay notes ns).
Proof. unfold PushDisplay. repeat pres_step. apply push_pres, _. Qed.

Lemma updateCoexist_pres ns : pres inv (updateCoexist notes ns).
Proof.
  unfold updateCoexist. repeat lazymatch goal with
  | |- context [coexistNote ?a ?b] => destruct (coexistNote a b)
  | |- pres _ (push _ _) => apply push_pres, _
  | _ => pres_step end.
Qed.

Lemma run_physical_pres : pres inv_loaded (run_mgr env (PhysicalDefault Runtime.Ret)).
Proof. intros x [[Hwf Haw] Hl]. exact (conj (conj Hwf Haw) Hl). Qed.
#[local] Hint Resolve run_physical_pres : pres.

Lemma apply_bind_pres ns : pres inv_loaded (apply_bind env ns).
Proof. unfold apply_bind. repeat pres_step. Qed.
Lemma apply_refresh_pres : pres inv_loaded (apply_refresh env).
Proof. unfold apply_refresh. repeat pres_step. Qed.
#[local] Hint Resolve apply_bind_pres apply_refresh_pres PushDisplay_pres updateCoexist_pres : pres.

Lemma Apply_pres ev : pres inv (Apply env notes ev).
Proof. unfold Apply. apply pres_guard_when; repeat pres_step. Qed.

Notation serve_ := (serve reg env save saveSubs notes clash fetcher saveAutostart saveFirewall).

Lemma serve_inv q x : inv x → inv (serve_ q x).
Proof.
  intros Hx. destruct q; simpl;
    [apply EnableProxy_pres|apply EnableVPN_pres|apply Stop_pres|apply SetAutostartMode_pres
    |apply ApplyAutostart_pres|apply LoadLink_pres|apply AddLink_pres|apply DeleteLink_pres
    |apply RenameLink_pres|apply AddSubscription_pres|apply RemoveSubscription_pres
    |apply RefreshSubscriptions_pres|apply FirewallAdd_pres|apply FirewallRemove_pres
    |apply Apply_pres|apply PushDisplay_pres]; done.
Qed.

Lemma serve_all_inv J qs x : (∀ q x, J x → J (serve_ q x)) → J x →
  J (serve_all reg env save saveSubs notes clash fetcher saveAutostart saveFirewall qs x).
Proof. intros Hs. revert x. induction qs as [|q qs IH]; intros x Hx; simpl; [done|]. by apply IH, Hs. Qed.

Lemma NewExecutor_inv : inv NewExecutor.
Proof. unfold inv, mgr_ok. split_and!; [apply init_wf|done..]. Qed.

(** *** What the executor stores *)

(** The stored subscriptions have distinct, valid URLs; the firewall rules have
    distinct identifiers and are valid; the autostart mode is a mode. *)
Definition stored_ok (x : Executor) : Prop :=
  NoDup (subURL <$> subs x) ∧ Forall (λ s, validateSubURL (subURL s) = None) (subs x) ∧
  NoDup (Firewall.ID <$> fwRules x) ∧ Forall (λ r, Firewall.Validate r = None) (fwRules x) ∧
  autostartMode x ∈ [""; "off"; "proxy"; "vpn"].

Lemma call_stored o : pres stored_ok (mgr_call env o).
Proof. intros x. rewrite mgr_call_run. by destruct (run env (call o) (x_world x)). Qed.
Lemma physical_stored : pres stored_ok (run_mgr env (PhysicalDefault Runtime.Ret)).
Proof. intros x Hx. exact Hx. Qed.
Lemma push_stored e : pres stored_ok (push notes e).
Proof. unfold push. repeat pres_step. Qed.
#[local] Hint Resolve call_stored physical_stored push_stored : pres.

Ltac stored_steps := repeat pres_step.

Lemma EnableProxy_stored : pres stored_ok (EnableProxy env clash).
Proof. unfold EnableProxy, startPoller, startWatchdog. stored_steps. Qed.
Lemma EnableVPN_stored : pres stored_ok (EnableVPN env clash).
Proof. unfold EnableVPN, startPoller, startWatchdog. stored_steps. Qed.
Lemma Stop_stored : pres stored_ok (Stop env).
Proof. unfold Stop, stopPoller, stopWatchdog. stored_steps. Qed.
#[local] Hint Resolve EnableProxy_stored EnableVPN_stored Stop_stored : pres.

Lemma ApplyAutostart_stored : pres stored_ok (ApplyAutostart env clash).
Proof. unfold ApplyAutostart. stored_steps. Qed.

Lemma SetAutostartMode_stored m : pres stored_ok (SetAutostartMode saveAutostart m).
Proof.
  unfold SetAutostartMode. case_bool_decide as Hm; [|pres_step].
  apply pres_bind; [|intros _; pres_step]. intros x (?&?&?&?&_). unfold stored_ok; simpl.
  by split_and!; [..|set_solver].
Qed.

Lemma save_profile_stored : pres stored_ok (save_profile save).
Proof. unfold save_profile. stored_steps. Qed.
#[local] Hint Resolve save_profile_stored : pres.

Lemma applyPreservingMode_stored : pres stored_ok (applyPreservingMode reg env save clash).
Proof.
  unfold applyPreservingMode, applyEffective, clearLinks, reenable, stopPoller, stopWatchdog.
  stored_steps.
Qed.
Lemma LoadLink_stored raw : pres stored_ok (LoadLink reg env save raw).
Proof. unfold LoadLink, applyEffective, clearLinks, stopPoller, stopWatchdog. stored_steps. Qed.
Lemma Reload_stored : pres stored_ok (Reload reg env save).
Proof. unfold Reload, applyEffective, clearLinks, stopPoller, stopWatchdog. stored_steps. Qed.
#[local] Hint Resolve applyPreservingMode_stored LoadLink_stored : pres.
Lemma AddLink_stored raw : pres stored_ok (AddLink reg env save clash raw).
Proof. unfold AddLink, reenable. stored_steps. Qed.
Lemma DeleteLink_stored i : pres stored_ok (DeleteLink reg env save clash i).
Proof. unfold DeleteLink. stored_steps. Qed.
Lemma RenameLink_stored i n : pres stored_ok (RenameLink reg env save clash i n).
Proof. unfold RenameLink. stored_steps. Qed.

Lemma fetchInto_url now fetch s : subURL (fetchInto reg now fetch s).1 = subURL s.
Proof. unfold fetchInto. by repeat case_match. Qed.

Lemma NoDup_fmap_snoc {A} (f : A → string) (l : list A) (a : A) :
  NoDup (f <$> l) → existsb (λ b, String.eqb (f b) (f a)) l = false → NoDup (f <$> l ++ [a]).
Proof.
  intros Hl Hnew. rewrite fmap_app. apply NoDup_app. split_and!; [done| |by apply NoDup_singleton].
  intros u Hin. simpl. rewrite list_elem_of_singleton. intros ->.
  apply existsb_false_Forall in Hnew. rewrite Forall_forall in Hnew.
  apply list_elem_of_fmap in Hin as (s & Hs & Hin). apply Hnew in Hin.
  by rewrite Hs, String.eqb_refl in Hin.
Qed.

Lemma Forall_filter_keep {A} (Q R : A → Prop) `{∀ a, Decision (R a)} (l : list A) :
  Forall Q l → Forall Q (filter R l).
Proof. rewrite !Forall_forall. intros Hl a [_ Ha]%list_elem_of_filter. by apply Hl. Qed.

Lemma stored_ok_subscribe record x :
  stored_ok x → validateSubURL (subURL record) = None →
  existsb (λ s, String.eqb (subURL s) (subURL record)) (subs x) = false →
  stored_ok (set_subs (subs x ++ [record]) x).
Proof.
  intros (Hu & Hv & Hrest) Hok Hnew. unfold stored_ok; simpl. split_and!; [|..|by apply Hrest].
  - by apply NoDup_fmap_snoc.
  - apply Forall_app. split; [done|by constructor].
  - apply Hrest.
  - apply Hrest.
Qed.

Lemma persist_stored : pres stored_ok (persistSubscriptions saveSubs).
Proof. unfold persistSubscriptions. stored_steps. Qed.
#[local] Hint Resolve persist_stored : pres.

Lemma AddSubscription_stored now raw :
  pres stored_ok (AddSubscription reg env save saveSubs clash fetcher now raw).
Proof.
  unfold AddSubscription. destruct (validateSubURL _) eqn:Hv; [pres_step|].
  intros x Hx. unfold mbind at 1, get at 1. cbv beta.
  destruct (existsb _ (subs x)) eqn:Hnew; [done|].
  destruct fetcher as [fetch|]; [|done].
  set (record := {| subURL := TrimSpace raw |}).
  pose proof (fetchInto_url now (fetch now) record) as Hurl.
  destruct (fetchInto reg now (fetch now) record) as [r [e|]]; [done|]. simpl in Hurl.
  unfold mbind at 1, modify at 1. apply pres_bind; [apply persist_stored|intros _; pres_step|].
  by apply stored_ok_subscribe; rewrite ?Hurl.
Qed.

Lemma NoDup_fmap_filter {A B} (f : A → B) (Q : A → Prop) `{∀ a, Decision (Q a)} (l : list A) :
  NoDup (f <$> l) → NoDup (f <$> filter Q l).
Proof.
  induction l as [|a l IH]; [done|]. rewrite fmap_cons, NoDup_cons, filter_cons. intros [Ha Hl].
  case_decide; [|by apply IH]. rewrite fmap_cons, NoDup_cons. split; [|by apply IH].
  rewrite list_elem_of_fmap. intros (b & Hb & Hin). apply list_elem_of_filter in Hin as [_ Hin].
  apply Ha, list_elem_of_fmap. by exists b.
Qed.

Lemma RemoveSubscription_stored raw :
  pres stored_ok (RemoveSubscription reg env save saveSubs clash raw).
Proof.
  intros x Hx. unfold RemoveSubscription. unfold mbind at 1, get at 1. unfold mbind at 1, modify at 1.
  match goal with |- stored_ok (?m ?y).2 => assert (pres stored_ok m) as Hm by stored_steps; apply Hm end.
  destruct Hx as (Hu & Hv & Hrest). unfold stored_ok; simpl.
  split_and!; [by apply NoDup_fmap_filter|by apply Forall_filter_keep|apply Hrest..].
Qed.

Lemma put_back_urls u ss : subURL <$> put_back u ss = subURL <$> ss.
Proof.
  induction ss as [|s ss IH]; [done|]. simpl. destruct (String.eqb_spec (subURL s) (subURL u)); rewrite !fmap_cons; f_equal; auto.
Qed.

Lemma put_all_urls fetched ss : subURL <$> foldl (λ ss u, put_back u ss) ss fetched = subURL <$> ss.
Proof.
  revert ss. induction fetched as [|u fetched IH]; intros ss; simpl; [done|]. by rewrite IH, put_back_urls.
Qed.

Lemma RefreshSubscriptions_stored now :
  pres stored_ok (RefreshSubscriptions reg env save saveSubs clash fetcher now).
Proof.
  unfold RefreshSubscriptions. apply pres_get. intros [|s ss]; [pres_step|].
  destruct fetcher as [fetch|]; [|pres_step].
  destruct (fetch_all _ _ _ _) as [[fetched firstErr] changed].
  apply pres_bind; [|intros _; stored_steps].
  intros x (Hu & Hv & Hrest). unfold stored_ok; simpl.
  split_and!; [by rewrite put_all_urls| |apply Hrest..].
  apply (Forall_fmap subURL (λ u, validateSubURL u = None)). rewrite put_all_urls.
  by apply Forall_fmap.
Qed.

Lemma FirewallAdd_stored id rule :
  pres stored_ok (FirewallAdd reg env save clash saveFirewall id rule).
Proof.
  unfold FirewallAdd. set (rule' := if String.eqb _ "" then _ else rule).
  destruct (Firewall.Validate rule') eqn:Hv; [pres_step|].
  intros x Hx. unfold mbind at 1, get at 1. cbv beta.
  destruct (existsb _ (fwRules x)) eqn:Hnew; [done|].
  unfold mbind at 1, modify at 1.
  match goal with |- stored_ok (?m ?y).2 => assert (pres stored_ok m) as Hm by stored_steps; apply Hm end.
  destruct Hx as (? & ? & Hn & Hf & ?). unfold stored_ok; simpl. split_and!; try done.
  - by apply NoDup_fmap_snoc.
  - apply Forall_app. split; [done|by constructor].
Qed.

Lemma FirewallRemove_stored id :
  pres stored_ok (FirewallRemove reg env save clash saveFirewall id).
Proof.
  intros x Hx. unfold FirewallRemove. unfold mbind at 1, get at 1. unfold mbind at 1, modify at 1.
  match goal with |- stored_ok (?m ?y).2 => assert (pres stored_ok m) as Hm by stored_steps; apply Hm end.
  destruct Hx as (? & ? & Hn & Hf & ?). unfold stored_ok; simpl.
  split_and!; try done; [by apply NoDup_fmap_filter|by apply Forall_filter_keep].
Qed.

Lemma PushDisplay_stored ns : pres stored_ok (PushDisplay notes ns).
Proof. unfold PushDisplay. stored_steps. Qed.
Lemma updateCoexist_stored ns : pres stored_ok (updateCoexist notes ns).
Proof.
  unfold updateCoexist. repeat lazymatch goal with
  | |- context [coexistNote ?a ?b] => destruct (coexistNote a b) | _ => pres_step end.
Qed.
#[local] Hint Resolve PushDisplay_stored updateCoexist_stored : pres.
Lemma Apply_stored ev : pres stored_ok (Apply env notes ev).
Proof. unfold Apply, apply_bind, apply_refresh. stored_steps. Qed.

Lemma serve_stored q x : stored_ok x → stored_ok (serve_ q x).
Proof.
  intros Hx. destruct q; simpl;
    [apply EnableProxy_stored|apply EnableVPN_stored|apply Stop_stored|apply SetAutostartMode_stored
    |apply ApplyAutostart_stored|apply LoadLink_stored|apply AddLink_stored|apply DeleteLink_stored
    |apply RenameLink_stored|apply AddSubscription_stored|apply RemoveSubscription_stored
    |apply RefreshSubscriptions_stored|apply FirewallAdd_stored|apply FirewallRemove_stored
    |apply Apply_stored|apply PushDisplay_stored]; done.
Qed.

Notation serve_all_ :=
  (serve_all reg env save saveSubs notes clash fetcher saveAutostart saveFirewall).

Lemma reachable_inv qs : inv (serve_all_ qs NewExecutor).
Proof. apply serve_all_inv; [apply serve_inv|apply NewExecutor_inv]. Qed.

Lemma executor_stored qs : stored_ok (serve_all_ qs NewExecutor).
Proof.
  apply serve_all_inv; [apply serve_stored|]. unfold stored_ok; simpl.
  split_and!; [constructor..|set_solver].
Qed.

Lemma fwd_iff_vpn x : inv x → is_Some (fwd (mgr (x_world x))) ↔ StateLabel x = "vpn".
Proof.
  intros [[[(Hl & _ & _) Hst] _] Hn]. unfold StateLabel, mgr_state. unfold state_ok in Hst.
  destruct (x_loaded x) eqn:Hx; simpl.
  - destruct (state (mgr (x_world x))); destruct_and?; split; try done;
      by repeat match goal with H : fwd _ = None |- _ => rewrite H end; intros [].
  - rewrite Hn in Hl by done. split; [|done]. intros [f Hf]. rewrite Hf in Hl. set_solver.
Qed.

Lemma call_config v o : pres (λ x, config x = v) (mgr_call env o).
Proof. intros x. rewrite mgr_call_run. by destruct (run env (call o) (x_world x)). Qed.
#[local] Hint Resolve call_config : pres.

Lemma ApplyAutostart_config v : pres (λ x, config x = v) (ApplyAutostart env clash).
Proof.
  unfold ApplyAutostart, EnableProxy, EnableVPN, Stop, startPoller, startWatchdog, stopPoller, stopWatchdog. stored_steps.
Qed.

(** What the two invariants say of an executor. *)
Definition sound (x : Executor) : Prop :=
  let w := x_world x in
  live w = opt_set (proxy (mgr w)) ∪ opt_set (fwd (mgr w)) ∧
  (x_loaded x = false → live w = ∅) ∧
  (is_Some (fwd (mgr w)) ↔ StateLabel x = "vpn") ∧
  StateLabel x ∈ ["off"; "proxy"; "vpn"] ∧
  stored_ok x.

Lemma inv_sound x : inv x → stored_ok x → sound x.
Proof.
  intros Hi Hs. unfold sound. cbv zeta. split_and!; [apply Hi|apply Hi|by apply fwd_iff_vpn| |exact Hs..].
  destruct Hi as [[_ Haw] _]. unfold StateLabel, awake, mgr_state in *.
  destruct (x_loaded x); simpl; [|set_solver]. destruct (state _); try done; set_solver.
Qed.

(** Whatever requests the executor serves, in any order and whatever the cores,
    the fetcher and the savers answer: the live cores are exactly the
    manager's proxy and forwarder; without a loaded key set nothing is live; a
    forwarder runs exactly when the reported state is [vpn], and the state is
    never [suspended]; the stored subscriptions have distinct valid URLs, the
    firewall rules distinct identifiers and valid contents. *)
Theorem executor_invariant (qs : list request) :
  let x := serve_all_ qs NewExecutor in
  let w := x_world x in
  live w = opt_set (proxy (mgr w)) ∪ opt_set (fwd (mgr w)) ∧
  (x_loaded x = false → live w = ∅) ∧
  (is_Some (fwd (mgr w)) ↔ StateLabel x = "vpn") ∧
  StateLabel x ∈ ["off"; "proxy"; "vpn"] ∧
  stored_ok x.
Proof.
  intros x w. exact (inv_sound x (reachable_inv qs) (executor_stored qs)).
Qed.

End operations.

Arguments reloaded {_ _} reg x x'.
