(* ===== verification/ExecutorProps.v ===== *)
(** * ExecutorProps: what the executor guarantees

    The end-to-end fail-closed theorem that composes the monitor, the policy,
    the executor and the manager; that reloads keep the running mode; the
    effect of deleting a key, of refreshing the subscriptions and of
    autostart; and concrete runs. *)

From S2P Require Import Prelude GoStr NetState Policy Monitor Runtime RuntimeSeq Registry Singbox Sub Executor ExecutorInv.
Import Policy Runtime Registry Executor.

Local Open Scope string_scope.
Local Open Scope list_scope.

#[local] Arguments run {A} e p w : simpl never.
#[local] Arguments call o : simpl never.

Section operations.
Context `{GoUnicode} {P : Type} (reg : Registry_ P) (env : Env).
Context (save saveSubs notes clash : bool).
Context (fetcher : option (Z → string → result string (list string * Meta))).
Context (saveAutostart : option (string → option string)).
Context (saveFirewall : option (list Firewall.Rule → option string)).

Notation serve_ := (serve reg env save saveSubs notes clash fetcher saveAutostart saveFirewall).
Notation serve_all_ :=
  (serve_all reg env save saveSubs notes clash fetcher saveAutostart saveFirewall).

(** *** The fail-closed chain *)

Lemma mgr_call_stop x r x' :
  mgr_call env OpStopForwarder x = (r, x') → inv_loaded x →
  inv_loaded x' ∧ fwd (mgr (x_world x')) = None ∧ config x' = config x ∧ mgr_state x' ≠ StateVPN.
Proof.
  rewrite mgr_call_run. destruct (run env (call OpStopForwarder) (x_world x)) as [r' w] eqn:Hr.
  intros [= <- <-] Hi. pose proof Hi as [[Hwf Haw] Hl].
  pose proof (mgr_call_pres (env:=env) OpStopForwarder ltac:(discriminate) x Hi) as Hi'.
  rewrite mgr_call_run, Hr in Hi'. simpl in Hi'. apply call_spec in Hr; [|done].
  destruct (stop_like_spec _ _ _ _ _ Hr Hwf eq_refl) as (Hwf' & _ & Hf & _).
  split_and!; [done..|]. unfold mgr_state; simpl. intros Hs. destruct Hwf' as [_ Hok]. unfold state_ok in Hok.
  rewrite Hs, Hf in Hok. by destruct Hok as (_ & [] & _).
Qed.

(** The display half of [Apply]. *)
Lemma display_frame ns x :
  let x' := ((let^ _ := updateCoexist notes ns in PushDisplay notes ns) x).2 in
  x_loaded x' = x_loaded x ∧ x_world x' = x_world x ∧ lastCisco x' = NetState.CiscoActive ns.
Proof.
  unfold updateCoexist, PushDisplay, push, mbind, get, modify, ret.
  repeat case_match; simplify_eq/=; done.
Qed.

(** The event of a fail-closed decision, applied. *)
Lemma Apply_fail_closed x ns :
  inv x →
  let d := {| Actions := [ActFailClosed; ActStopForwarder; ActNotify]; NextMode := ModeProxy |} in
  let x' := (Apply env notes {| Monitor.evNetState := ns; Monitor.evDecision := d |} x).2 in
  fwd (mgr (x_world x')) = None ∧ Executor_Mode x' = ModeProxy ∧
  lastCisco x' = NetState.CiscoActive ns ∧ x_loaded x' = x_loaded x.
Proof.
  intros Hi d x'.
  assert (∃ x1, x' = ((let^ _ := updateCoexist notes ns in PushDisplay notes ns) x1).2 ∧
    x_loaded x1 = x_loaded x ∧ fwd (mgr (x_world x1)) = None ∧ Executor_Mode x1 = ModeProxy)
    as (x1 & -> & Hl1 & Hf1 & Hm1).
  { unfold x', Apply. unfold mbind at 1, get at 1. destruct (x_loaded x) eqn:Hl.
    - unfold when at 1. unfold mbind at 1. simpl Monitor.evDecision. simpl Actions.
      repeat match goal with |- context [bool_decide (?a ∈ ?l)] =>
        let b := eval vm_compute in (bool_decide (a ∈ l)) in change (bool_decide (a ∈ l)) with b end.
      simpl orb. unfold when, ret, mbind at 2 3 4 5 6.
      destruct (mgr_call env OpStopForwarder x) as [r x1] eqn:H1.
      destruct (mgr_call_stop _ _ _ H1) as ([? ?] & ? & _ & Hv); [by split; [apply Hi|]|].
      exists x1. split_and!; [cbv [mbind]; by rewrite ?H1|congruence|done|].
      unfold Executor_Mode. by rewrite bool_decide_eq_false_2, andb_false_r.
    - exists x. split_and!; [done|done| |by unfold Executor_Mode; rewrite Hl].
      destruct Hi as [[[(Hlv & _ & _) _] _] Hn]. rewrite Hn in Hlv by done.
      destruct (fwd _); [set_solver|done]. }
  destruct (display_frame ns x1) as (Hl & Hw & Hc). unfold Executor_Mode, mgr_state in *.
  rewrite Hl, Hw. by split_and!.
Qed.

(** The monitor's poll and the executor together: the poll reads the executor's
    mode and binding, and the event it emits, if any, is applied. *)
Definition poll_and_apply (m : Monitor.Monitor) (ns : NetState.NetState) (x : Executor) : Executor :=
  match Monitor.emitted (snd (Monitor.poll m (Some ns) (Executor_Mode x) (ProxyBoundToPhysical x))) with
  | Some ev => serve_ (ReqApply ev) x
  | None => x
  end.

(** C33: Fail closed, end to end: whatever the executor served before and whatever
    the monitor saw before, when the poll of a running VPN leaves Cisco
    committed as active, then after the event is applied no forwarder runs,
    the executor is out of VPN mode, only the loopback proxy can be live, and
    while Cisco is seen active VPN mode is refused without any effect. *)
Theorem fail_closed_end_to_end (qs : list request) (m : Monitor.Monitor) (ns : NetState.NetState) :
  let x := serve_all_ qs NewExecutor in
  StateLabel x = "vpn" →
  Debounce.committed (Monitor.deb
    (fst (Monitor.poll m (Some ns) (Executor_Mode x) (ProxyBoundToPhysical x)))) = CiscoActive →
  let x' := poll_and_apply m ns x in
  fwd (mgr (x_world x')) = None ∧ Executor_Mode x' = ModeProxy ∧ StateLabel x' ≠ "vpn" ∧
  live (x_world x') = opt_set (proxy (mgr (x_world x'))) ∧
  (NetState.CiscoActive ns = true → EnableVPN env clash x' = (Some ErrCiscoActive, x')).
Proof.
  intros x Hvpn Hc x'. assert (inv x) as Hi by apply reachable_inv.
  assert (Executor_Mode x = ModeVPN) as Hmode.
  { unfold StateLabel, Executor_Mode in *. destruct (x_loaded x); [|done]. simpl in *.
    by destruct (mgr_state x). }
  unfold x', poll_and_apply. rewrite Hmode in *.
  rewrite (Monitor.poll_vpn_fail_closed _ _ _ Hc).
  destruct (Apply_fail_closed x ns Hi) as (Hf & Hm & Hci & _). simpl serve.
  pose proof (Apply_pres (env:=env) (notes:=notes) {| Monitor.evNetState := ns; Monitor.evDecision :=
    {| Actions := [ActFailClosed; ActStopForwarder; ActNotify]; NextMode := ModeProxy |} |} x Hi) as Hi'.
  split_and!; [done|done| | |].
  - intros Hv. apply fwd_iff_vpn in Hv; [|done]. rewrite Hf in Hv. by destruct Hv.
  - destruct Hi' as [[[(Hl & _) _] _] _]. rewrite Hl, Hf. simpl. by rewrite union_empty_r_L.
  - intros Ha. unfold EnableVPN, mbind, get. by rewrite Hci, Ha.
Qed.

(** *** Reloading *)

(** A reload that succeeds puts the mode that was running back on the new key
    set: [vpn] stays [vpn], [proxy] stays [proxy], off stays off; the new
    key set is the effective one parsed, in order, and the stored sources are
    untouched. *)
Theorem reload_preserves_mode (x x' : Executor) :
  inv x → applyPreservingMode reg env save clash x = (None, x') →
  StateLabel x' = StateLabel x ∧ inv x' ∧ sources x' = sources x ∧ reloaded reg x x'.
Proof.
  intros Hi Hc. pose proof (applyPreservingMode_pres (reg:=reg) (env:=env) (save:=save) (clash:=clash) x Hi) as Hi'. rewrite Hc in Hi'.
  unfold applyPreservingMode, and_then in Hc. unfold mbind at 1, get at 1 in Hc. unfold mbind in Hc.
  destruct (applyEffective reg env save x) as [r1 x1] eqn:H1.
  destruct (applyEffective_spec _ _ _ H1 Hi) as (Hi1 & Hs1 & Hr & _).
  destruct r1; [done|]. destruct (Hr eq_refl) as (Hre & Hlv & Hnew).
  assert (StateLabel x' = StateLabel x ∧ config x' = config x1 ∧ x_loaded x' = x_loaded x1)
    as (Hlab & Hcfg & Hld).
  { destruct (reenable_fresh _ _ _ Hc Hi1 Hnew) as (Hlab & ? & ?). split_and!; [|done..].
    rewrite Hlab. pose proof Hi as [[_ Haw] _]. unfold StateLabel, mgr_state, awake in *.
    destruct (x_loaded x); [|done]. by destruct (state _). }
  destruct (config_sources _ _ Hcfg) as [Hs Hk]. split_and!; [done|done|congruence|].
  unfold reloaded in *. by rewrite Hld, Hk.
Qed.

(** *** Sources *)

Lemma call_sources v o : pres (λ x, sources x = v) (mgr_call env o).
Proof. intros x. rewrite mgr_call_run. by destruct (run env (call o) (x_world x)). Qed.
#[local] Hint Resolve call_sources : pres.

Lemma reenable_sources v prev : pres (λ x, sources x = v) (reenable env clash prev).
Proof. unfold reenable, EnableVPN, EnableProxy, startPoller, startWatchdog. repeat pres_step. Qed.

Lemma applyPreservingMode_sources x r x' :
  inv x → applyPreservingMode reg env save clash x = (r, x') → sources x' = sources x.
Proof.
  intros Hi. unfold applyPreservingMode, and_then. unfold mbind at 1, get at 1. unfold mbind.
  destruct (applyEffective reg env save x) as [[e|] x1] eqn:H1;
    destruct (applyEffective_spec _ _ _ H1 Hi) as (_ & Hs & _); [by intros [= <- <-]|].
  intros Hr. pose proof (reenable_sources (sources x1) (StateLabel x) x1 eq_refl) as Hr'.
  rewrite Hr in Hr'. simpl in Hr'. congruence.
Qed.

(** Deleting a key: an index out of range and a key that only a subscription
    offers are refused without effect; otherwise the key leaves the manual
    set, nothing else stored changes whatever the reload answers, and the key
    is still effective only if a subscription offers it too. *)
Theorem delete_link_effect (i : Z) (x x' : Executor) (r : option error) :
  inv x → DeleteLink reg env save clash i x = (r, x') →
  match key_at i (links x) with
  | None => r = Some (ErrKeyIndex i) ∧ x' = x
  | Some l =>
      match subscriptionOwning x l with
      | Some o => r = Some (ErrSubscriptionOwned o) ∧ x' = x
      | None =>
          sources x' = (filter (λ m, TrimSpace m ≠ TrimSpace l) (manual x), subs x, fwRules x,
                        autostartMode x, lastCisco x) ∧
          (TrimSpace l ∈ effectiveLinks x' → ∃ s, s ∈ subs x ∧ TrimSpace l ∈ TrimSpace <$> subLinks s)
      end
  end.
Proof.
  intros Hi. unfold DeleteLink. unfold mbind at 1, get at 1.
  destruct (key_at i (links x)) as [l|]; [|by intros [= <- <-]].
  unfold mbind at 1, get at 1. cbv beta.
  destruct (subscriptionOwning x l) as [o|]; [by intros [= <- <-]|].
  unfold mbind at 1, modify at 1. intros Hr.
  apply applyPreservingMode_sources in Hr; [|by eapply (frame_inv (J:=inv)); [..|exact Hi]].
  split; [exact Hr|]. intros [_ (l' & Hl' & Ht)]%elem_of_effectiveLinks.
  unfold sources in Hr. simpl in Hr. injection Hr as Hman Hsubs _ _ _. rewrite Hman, Hsubs in Hl'.
  destruct Hl' as [[Hne _]%list_elem_of_filter|(s & Hs & Hl')]; [done|].
  exists s. split; [done|]. apply list_elem_of_fmap. by exists l'.
Qed.

(** *** Refreshing *)

Definition refreshed (now : Z) (fetch : Z → string → result string (list string * Meta))
    (s : Subscription) : Subscription := (fetchInto reg now (fetch now) s).1.

Lemma fetch_all_spec now fetch ss :
  let '(fetched, e, n) := fetch_all reg now (fetch now) ss in
  fetched = refreshed now fetch <$> ss ∧
  e = head (omap (λ s, (fetchInto reg now (fetch now) s).2) ss) ∧
  (Forall (λ s, is_Some (fetchInto reg now (fetch now) s).2) ss → n = 0).
Proof.
  induction ss as [|s ss IH]; simpl; [done|]. unfold refreshed at 1.
  destruct (fetchInto reg now (fetch now) s) as [s' e] eqn:Hs.
  destruct (fetch_all reg now (fetch now) ss) as [[fetched e'] n]. destruct IH as (-> & -> & Hn).
  split_and!; [done|by destruct e|]. rewrite Forall_cons, Hs. simpl. intros [[e0 ->] Hall]. by apply Hn.
Qed.

Lemma put_back_skip u l k : subURL u ∉ subURL <$> l → put_back u (l ++ k) = l ++ put_back u k.
Proof.
  induction l as [|s l IH]; [done|]. rewrite fmap_cons, not_elem_of_cons. intros [Hne Hl]. simpl.
  destruct (String.eqb_spec (subURL s) (subURL u)); [congruence|]. by rewrite IH.
Qed.

Lemma put_all_back (g : Subscription → Subscription) l k :
  (∀ s, subURL (g s) = subURL s) → NoDup (subURL <$> l ++ k) →
  foldl (λ ss u, put_back u ss) ((g <$> l) ++ k) (g <$> k) = g <$> l ++ k.
Proof.
  intros Hg. revert l. induction k as [|s k IH]; intros l Hn; simpl; [by rewrite !app_nil_r|].
  rewrite put_back_skip.
  - simpl. rewrite Hg, String.eqb_refl. specialize (IH (l ++ [s])).
    rewrite <- !app_assoc in IH. simpl in IH. rewrite <- IH by done.
    rewrite fmap_app, <- app_assoc. done.
  - rewrite Hg, <- list_fmap_compose. erewrite (list_fmap_ext _ subURL); [|intros; apply Hg].
    rewrite fmap_app, NoDup_app, fmap_cons in Hn. destruct Hn as (_ & Hd & _).
    intros Hin. apply (Hd _ Hin). left.
Qed.

Lemma persist_frame x :
  let x' := (persistSubscriptions saveSubs x).2 in
  x_loaded x' = x_loaded x ∧ x_world x' = x_world x ∧ config x' = config x.
Proof. unfold persistSubscriptions, mbind, get, modify, ret. by case_match. Qed.

(** The state right after the fetched records are put back and saved. *)
Lemma refresh_spec now fetch x n r x' :
  NoDup (subURL <$> subs x) → inv x →
  RefreshSubscriptions reg env save saveSubs clash (Some fetch) now x = (n, r, x') →
  subs x' = refreshed now fetch <$> subs x ∧
  (subs x ≠ [] → Forall (λ s, is_Some (fetchInto reg now (fetch now) s).2) (subs x) →
   n = 0 ∧ is_Some r ∧ x_world x' = x_world x ∧ links x' = links x).
Proof.
  intros Hnd Hi. unfold RefreshSubscriptions. unfold mbind at 1, get at 1.
  pose proof (fetch_all_spec now fetch (subs x)) as Hfa.
  pose proof (put_all_back (refreshed now fetch) [] (subs x) (fetchInto_url now (fetch now)) Hnd) as Hput.
  simpl in Hput. destruct (subs x) as [|s ss] eqn:Hss; [by intros [= <- <- <-]; rewrite Hss|].
  destruct (fetch_all reg now (fetch now) (s :: ss)) as [[fetched e] m]. destruct Hfa as (-> & He & Hm).
  unfold mbind at 1, modify at 1. rewrite Hss, Hput. set (x1 := set_subs _ x).
  destruct (persist_frame x1) as (Hl2 & Hw2 & Hc2). unfold mbind at 1.
  destruct (persistSubscriptions saveSubs x1) as [[] x2]. simpl in Hl2, Hw2, Hc2.
  destruct (config_sources _ _ Hc2) as [Hs2 Hk2].
  assert (subs x2 = refreshed now fetch <$> s :: ss) as Hsub
    by (unfold sources in Hs2; injection Hs2 as _ -> _ _ _; done).
  assert (inv x2) as Hi2 by (by eapply (frame_inv (J:=inv) x)).
  intros Hr. split.
  - destruct (0 <? m)%nat; [|by injection Hr as <- <- <-].
    unfold mbind in Hr. destruct (applyPreservingMode reg env save clash x2) as [r3 x3] eqn:H3.
    apply applyPreservingMode_sources in H3; [|done].
    assert (subs x3 = subs x2) by (unfold sources in H3; by injection H3).
    destruct r3; injection Hr as <- <- <-; congruence.
  - intros _ Hall. rewrite (Hm Hall) in Hr. simpl in Hr. injection Hr as <- <- <-.
    split_and!; [done| |done|done]. apply Forall_cons in Hall as [[e0 He0] _].
    rewrite He. simpl. rewrite He0. by eexists.
Qed.

(** A refresh keeps what it cannot replace: in every executor that serves
    requests, the records after a round are those before it, each with its
    own answer; one whose fetch fails or yields keys no module accepts keeps
    its servers, title and update time and only records the error; and when
    every fetch fails, the running cores and the loaded keys are not touched
    and the first error is returned. *)
Theorem refresh_keeps_cached (qs : list request) (now : Z) (x' : Executor)
    (fetch : Z → string → result string (list string * Meta)) (n : nat) (r : option error) :
  let x := serve_all_ qs NewExecutor in
  RefreshSubscriptions reg env save saveSubs clash (Some fetch) now x = (n, r, x') →
  subs x' = refreshed now fetch <$> subs x ∧
  (∀ s, s ∈ subs x →
     match fetch now (subURL s) with
     | Err e => refreshed now fetch s = with_error e s
     | Ok (ls, meta) =>
         match ParseAll reg ls with
         | Err _ => subLinks (refreshed now fetch s) = subLinks s ∧
             LastUpdate (refreshed now fetch s) = LastUpdate s
         | Ok _ => subLinks (refreshed now fetch s) = ls ∧ LastUpdate (refreshed now fetch s) = now
         end
     end) ∧
  (subs x ≠ [] → Forall (λ s, is_ok (fetch now (subURL s)) = false) (subs x) →
     n = 0 ∧ is_Some r ∧ x_world x' = x_world x ∧ links x' = links x).
Proof.
  intros x Hr. assert (stored_ok x) as (Hnd & _) by apply executor_stored.
  destruct (refresh_spec _ _ _ _ _ _ Hnd (reachable_inv _) Hr) as [Hs Hall]. split_and!; [done| |].
  - intros s _. unfold refreshed, fetchInto. destruct (fetch now (subURL s)) as [[ls meta]|e]; [|done].
    by destruct (ParseAll reg ls).
  - intros Hne Hf. apply Hall; [done|]. eapply Forall_impl; [exact Hf|].
    intros s. unfold fetchInto. by destruct (fetch now (subURL s)).
Qed.

(** *** Autostart *)

#[local] Hint Resolve call_config : pres.

(** Enabling a mode keeps the invariant and the configuration. *)
Lemma enable_step x (m : M (option error)) r x1 :
  m = EnableProxy env clash ∨ m = EnableVPN env clash → inv x → m x = (r, x1) →
  inv x1 ∧ config x1 = config x.
Proof.
  intros Hm Hi Hr.
  assert (pres (λ y, config y = config x) m) as Hc.
  { destruct Hm as [-> | ->]; unfold EnableProxy, EnableVPN, startPoller, startWatchdog; repeat pres_step. }
  specialize (Hc x eq_refl). rewrite Hr in Hc. split; [|done].
  replace x1 with (m x).2 by (by rewrite Hr).
  destruct Hm as [-> | ->]; [by apply EnableProxy_pres|by apply EnableVPN_pres].
Qed.

(** The end of [ApplyAutostart]: an error stops everything. *)
Lemma autostart_finish mode r1 x x1 r x' :
  match r1 with
  | None => ret None
  | Some e => let^ _ := Stop env in ret (Some (ErrAutostart mode e))
  end x1 = (r, x') → inv x1 → config x1 = config x →
  match r with
  | Some e => ∃ e', e = ErrAutostart mode e' ∧
      StateLabel x' = "off" ∧ live (x_world x') = ∅ ∧ config x' = config x
  | None => r1 = None ∧ x' = x1
  end.
Proof.
  intros Hr Hi Hc. destruct r1 as [e|]; [|by injection Hr as <- <-].
  unfold mbind in Hr. destruct (Stop env x1) as [r2 x2] eqn:H2. injection Hr as <- <-.
  destruct (Stop_spec _ _ _ H2 Hi) as (_ & _ & Hc2 & _ & Hl & _).
  exists e. split_and!; [done|by eapply Stop_off|done|congruence].
Qed.

Lemma autostart_proxy x mode r x' :
  inv x →
  (let^ r := EnableProxy env clash in
   match r with
   | None => ret None
   | Some e => let^ _ := Stop env in ret (Some (ErrAutostart mode e))
   end) x = (r, x') →
  match r with
  | Some e => ∃ e', e = ErrAutostart mode e' ∧
      StateLabel x' = "off" ∧ live (x_world x') = ∅ ∧ config x' = config x
  | None => mgr (x_world x) = NewManager → StateLabel x' = "proxy"
  end.
Proof.
  intros Hi. unfold mbind at 1. destruct (EnableProxy env clash x) as [r1 x1] eqn:H1. intros Hf.
  destruct (enable_step _ _ _ _ (or_introl eq_refl) Hi H1) as [Hi1 Hc1].
  pose proof (autostart_finish _ _ x _ _ _ Hf Hi1 Hc1) as H2. destruct r; [done|].
  destruct H2 as [-> ->]. by destruct (EnableProxy_fresh _ _ H1 Hi) as (_ & ? & _).
Qed.

(** Autostart is all or nothing: when it reports an error nothing runs, the
    state is off and the configuration is unchanged; when it reports none,
    the stored mode [vpn] runs the VPN, or with Cisco active, as the stored
    mode [proxy], the proxy alone; any other stored mode changes nothing. *)
Theorem autostart_all_or_nothing (x x' : Executor) (r : option error) :
  inv x → ApplyAutostart env clash x = (r, x') →
  match r with
  | Some e => ∃ e', e = ErrAutostart (AutostartMode x) e' ∧
      StateLabel x' = "off" ∧ live (x_world x') = ∅ ∧ config x' = config x
  | None =>
      (AutostartMode x = "vpn" → lastCisco x = false → StateLabel x' = "vpn") ∧
      ((AutostartMode x = "vpn" ∧ lastCisco x = true ∨ AutostartMode x = "proxy") →
         mgr (x_world x) = NewManager → StateLabel x' = "proxy") ∧
      (AutostartMode x ≠ "vpn" → AutostartMode x ≠ "proxy" → x' = x)
  end.
Proof.
  intros Hi. unfold ApplyAutostart. unfold mbind at 1, get at 1. cbv zeta.
  destruct (String.eqb_spec (AutostartMode x) "proxy") as [Hm|Hnp].
  { intros H1%autostart_proxy; [|done]. destruct r; [done|]. by rewrite Hm. }
  destruct (String.eqb_spec (AutostartMode x) "vpn") as [Hm|Hnv].
  2: { intros [= <- <-]. split_and!; [done|by intros [[]|]|done]. }
  unfold mbind at 1, get at 1. destruct (lastCisco x) eqn:Hci.
  { intros H1%autostart_proxy; [|done]. by destruct r. }
  unfold mbind at 1. destruct (EnableVPN env clash x) as [r1 x1] eqn:H1.
  destruct (enable_step _ _ _ _ (or_intror eq_refl) Hi H1) as [Hi1 Hc1].
  assert (lastCisco x1 = false) as Hci1 by (unfold config in Hc1; injection Hc1; congruence).
  unfold mbind at 1, get at 1. rewrite Hci1. intros Hf.
  assert (match r1 with
    | None => ret None
    | Some e => let^ _ := Stop env in ret (Some (ErrAutostart (AutostartMode x) e))
    end x1 = (r, x')) as Hf' by (by destruct r1).
  pose proof (autostart_finish _ _ x _ _ _ Hf' Hi1 Hc1) as H2. destruct r; [done|].
  destruct H2 as [-> ->]. split_and!; [|by intros [[_ ?]|?]|by rewrite Hm].
  intros _ _. by destruct (EnableVPN_fresh _ _ H1 Hi) as (_ & _ & ? & _).
Qed.

End operations.

(** ** Concrete runs *)

#[local] Existing Instance ascii_only.

Definition ew_serve : list request → Executor :=
  λ qs, serve_all rw_registry (good_env "en0") true true true false None None None qs NewExecutor.

Definition ew_proxy : Executor := ew_serve [ReqLoadLink "hy2://a"; ReqEnableProxy].
Definition ew_vpn : list request := [ReqLoadLink "hy2://a"; ReqEnableVPN].

Lemma ew_inv qs : inv (ew_serve qs).
Proof. apply reachable_inv. Qed.

Lemma fail_closed_end_to_end_witness :
  let m := fst (Monitor.poll (Monitor.New 1) (Some (Monitor.mw_ns false)) ModeVPN false) in
  StateLabel (ew_serve ew_vpn) = "vpn" ∧
  StateLabel (poll_and_apply rw_registry (good_env "en0") true true true false None None None m
    (Monitor.mw_ns true) (ew_serve ew_vpn)) ≠ "vpn".
Proof.
  split; [vm_compute; reflexivity|].
  destruct (fail_closed_end_to_end rw_registry (good_env "en0") true true true false None None None
    ew_vpn (fst (Monitor.poll (Monitor.New 1) (Some (Monitor.mw_ns false)) ModeVPN false))
    (Monitor.mw_ns true)) as (_ & _ & H & _); [vm_compute; reflexivity..|exact H].
Defined.

Lemma reload_preserves_mode_witness :
  StateLabel (applyPreservingMode rw_registry (good_env "en0") true false ew_proxy).2 = "proxy".
Proof.
  assert (applyPreservingMode rw_registry (good_env "en0") true false ew_proxy =
    (None, (applyPreservingMode rw_registry (good_env "en0") true false ew_proxy).2)) as H
    by (vm_compute; reflexivity).
  destruct (reload_preserves_mode rw_registry (good_env "en0") true false ew_proxy
    _ (ew_inv _) H) as [-> _]. vm_compute. reflexivity.
Defined.

Lemma delete_link_effect_witness :
  ∃ r x', DeleteLink rw_registry (good_env "en0") true false 1 ew_proxy = (r, x') ∧
    r = Some (ErrKeyIndex 1) ∧ x' = ew_proxy.
Proof.
  destruct (DeleteLink rw_registry (good_env "en0") true false 1 ew_proxy) as [r x'] eqn:H.
  exists r, x'. split; [reflexivity|].
  exact (delete_link_effect rw_registry (good_env "en0") true false 1 ew_proxy x' r (ew_inv _) H).
Defined.

Definition ew_fetch : Z → string → result string (list string * Meta) :=
  λ now u, if (now <? 10)%Z then Ok (["hy2://a"], {| Sub.Title := "p"; Sub.UpdateInterval := 0; Sub.Upload := 0; Sub.Download := 0; Sub.Total := 0; Sub.Expire := None |})
           else Err "timeout".

Lemma refresh_keeps_cached_witness :
  ∃ n r x', RefreshSubscriptions rw_registry (good_env "en0") true true false (Some ew_fetch) 20
      (serve_all rw_registry (good_env "en0") true true true false (Some ew_fetch) None None
         [ReqAddSubscription 1 "https://panel.example/s"] NewExecutor) = (n, r, x') ∧
    n = 0 ∧ links x' = ["hy2://a"].
Proof.
  destruct (RefreshSubscriptions rw_registry (good_env "en0") true true false (Some ew_fetch) 20
    (serve_all rw_registry (good_env "en0") true true true false (Some ew_fetch) None None
       [ReqAddSubscription 1 "https://panel.example/s"] NewExecutor)) as [[n r] x'] eqn:H.
  exists n, r, x'. split; [reflexivity|].
  destruct (refresh_keeps_cached rw_registry (good_env "en0") true true true false (Some ew_fetch)
    None None [ReqAddSubscription 1 "https://panel.example/s"] 20 x' ew_fetch n r H)
    as (_ & _ & Hall).
  destruct Hall as (-> & _ & _ & ->); [vm_compute; discriminate|vm_compute; repeat constructor|].
  split; [reflexivity|vm_compute; reflexivity].
Defined.

Lemma autostart_all_or_nothing_witness :
  ∃ e x', ApplyAutostart (good_env "") false (ew_serve [ReqLoadLink "hy2://a"; ReqSetAutostart "vpn"])
      = (Some e, x') ∧ StateLabel x' = "off".
Proof.
  destruct (ApplyAutostart (good_env "") false (ew_serve [ReqLoadLink "hy2://a"; ReqSetAutostart "vpn"]))
    as [[e|] x'] eqn:H; [|vm_compute in H; discriminate].
  exists e, x'. split; [reflexivity|].
  destruct (autostart_all_or_nothing (good_env "") false _ x' (Some e) (ew_inv _) H)
    as (_ & _ & Hl & _). exact Hl.
Defined.

(** Removing the last key of a running proxy reports that no proxy is loaded,
    although the key is gone and the proxy is stopped. *)
Theorem deleting_last_key_reports_an_error :
  let x := ew_proxy in
  let '(r, x') := DeleteLink rw_registry (good_env "en0") true false 0 x in
  StateLabel x = "proxy" ∧ links x = ["hy2://a"] ∧ manual x = ["hy2://a"] ∧
  r = Some errNoProxy ∧ StateLabel x' = "off" ∧ links x' = [] ∧ manual x' = [] ∧
  live (x_world x') = ∅ ∧ sources x' = sources (ew_serve []).
Proof. vm_compute. repeat split. Qed.

(** A VPN that cannot be enabled leaves the proxy it has started running, with
    neither the poller nor the watchdog that every other way to it starts. *)
Lemma failed_vpn_leaves_proxy_unwatched :
  let '(r, x) := EnableVPN (good_env "") true (ew_serve [ReqLoadLink "hy2://a"]) in
  is_Some r ∧ StateLabel x = "proxy" ∧ watchdog x = false ∧ poller x = false.
Proof. vm_compute. split_and!; try reflexivity. by eexists. Qed.

(** Whatever enables a mode without an error starts both. *)
Lemma enabled_is_watched env clash x x' :
  EnableProxy env clash x = (None, x') ∨ EnableVPN env clash x = (None, x') → watchdog x' = true ∧ (clash = true → poller x' = true).
Proof.
  unfold EnableProxy, EnableVPN, and_then, startPoller, startWatchdog, mbind, modify, ret, get. cbn.
  intros [H|H]; repeat case_match; simplify_eq/=; split; try done; by intros ->.
Qed.
