(* ===== verification/Store.v ===== *)
(** * Store: what the program keeps in files
    ([internal/profile], [internal/app/appstore.go])

    The profile store saves the keys, the subscriptions, the firewall rules,
    the autostart mode, the system proxy settings and the introduction mark,
    each in a file of its own below one directory; the application store keeps
    the applications to proxy in another.  Both are written over an interface
    to the file system ([FS]), as the code is, and the theorems hold for every
    file system that does what [FSLaws] says.  Lists are stored as JSON. *)

From S2P Require Import Prelude GoStr GoUtf8 GoNet GoUrl GoUrlFacts GoPath Registry Schema Link GoJson GoJsonData Singbox Sub Executor.
Import Json Data.

Local Open Scope string_scope.
Local Open Scope list_scope.

Module Store.

(** ** The file system *)

Inductive FsError := NotExist | OtherError (text : string).

#[export] Instance FsError_eq_dec : EqDecision FsError.
Proof. solve_decision. Defined.

(** [profile.FS], over the state [W] of the files; [Rename] is os.Rename. *)
Class FS (W : Type) := {
  MkdirAll : string → Z → W → option FsError * W;
  WriteFile : string → string → Z → W → option FsError * W;
  ReadFile : string → W → result FsError string;
  Chown : string → Z → Z → W → option FsError * W;
  Remove : string → W → option FsError * W;
  Rename : string → string → W → option FsError * W
}.

(** What the stores rely on: names are files of their own, a write that
    succeeds is read back, a failed operation on one file leaves the others,
    and a rename replaces its target in one step or not at all. *)
Class FSLaws (W : Type) `{FS W} := {
  mkdir_reads d p w n : ReadFile n (snd (MkdirAll d p w)) = ReadFile n w;
  chown_reads f u g w n : ReadFile n (snd (Chown f u g w)) = ReadFile n w;
  write_reads f d p w : fst (WriteFile f d p w) = None → ReadFile f (snd (WriteFile f d p w)) = Ok d;
  write_others f d p w n : n ≠ f → ReadFile n (snd (WriteFile f d p w)) = ReadFile n w;
  remove_reads f w : fst (Remove f w) = None ∨ fst (Remove f w) = Some NotExist →
    ReadFile f (snd (Remove f w)) = Err NotExist;
  remove_others f w n : n ≠ f → ReadFile n (snd (Remove f w)) = ReadFile n w;
  rename_reads a b w : fst (Rename a b w) = None → ReadFile b (snd (Rename a b w)) = ReadFile a w;
  rename_others a b w n : n ≠ a → (n ≠ b ∨ fst (Rename a b w) ≠ None) → ReadFile n (snd (Rename a b w)) = ReadFile n w
}.

(** A file system in memory: names to contents. *)
#[export] Instance map_FS : FS (gmap string string) := {|
  MkdirAll := λ _ _ w, (None, w);
  WriteFile := λ f d _ w, (None, <[f := d]> w);
  ReadFile := λ f w, match w !! f with Some d => Ok d | None => Err NotExist end;
  Chown := λ _ _ _ w, (None, w);
  Remove := λ f w, match w !! f with Some _ => (None, delete f w) | None => (Some NotExist, w) end;
  Rename := λ a b w, match w !! a with Some d => (None, <[b := d]> (delete a w)) | None => (Some NotExist, w) end |}.

#[export] Instance map_FSLaws : FSLaws (gmap string string).
Proof.
  split; cbn.
  - done.
  - done.
  - intros. by rewrite lookup_insert_eq.
  - intros. by rewrite lookup_insert_ne.
  - intros f w. destruct (w !! f) eqn:E; cbn; [by rewrite lookup_delete_eq|by rewrite E].
  - intros f w n Hn. destruct (w !! f) eqn:E; cbn; [by rewrite lookup_delete_ne|done].
  - intros a b w. destruct (w !! a) eqn:E; cbn; [by rewrite lookup_insert_eq|done].
  - intros a b w n Ha Hb. destruct (w !! a) eqn:E; cbn in *; [|done]. destruct Hb as [Hb|Hb]; [|done].
    by rewrite lookup_insert_ne, lookup_delete_ne.
Qed.

(** ** Times *)

(** The text encoding/json gives a time, and its reading; [None] is the zero
    time, [Some n] is [n] nanoseconds after 1970.  A time has no text when its
    year has more than four digits. *)
Class GoTime := {
  time_text : option Z → option string;
  parse_time : string → option (option Z)
}.

Definition time_byte (c : ascii) : bool := is_digit c || str_has c "-+:.TZ".

Class GoTimeLaws `{GoTime} := {
  time_text_read t s : time_text t = Some s → parse_time s = Some t;
  time_text_bytes t s : time_text t = Some s → str_forallb time_byte s = true
}.

(** [Time.UnmarshalJSON] *)
Definition dec_time `{GoTime} : Dec (option Z) := λ old v,
  match v with JStr raw => parse_time raw | JNull => Some old | _ => None end.

Lemma time_safe s : str_forallb time_byte s = true → str_safe s.
Proof.
  intros Hs. apply str_safe_plain. revert Hs. apply str_forallb_impl. intros c Hc.
  assert (Hin : (byte_val c = 84 ∨ byte_val c = 90 ∨ 43 <= byte_val c <= 58)%N).
  { unfold time_byte, is_digit, in_range in Hc. apply orb_true_iff in Hc as [Hc|Hc].
    - apply andb_true_iff in Hc as [H1%N.leb_le H2%N.leb_le]. lia.
    - rewrite !str_has_cons, !orb_true_iff, !Ascii.eqb_eq in Hc. decompose [or] Hc; subst; try discriminate; vm_compute; intuition congruence. }
  unfold plain_byte. apply andb_true_iff. split; [apply N.leb_le; lia|]. apply negb_true_iff, orb_false_iff.
  split; apply Ascii.eqb_neq; intros ->; vm_compute in Hin; intuition congruence.
Qed.

(** ** Encoding and decoding the records *)

(** [firewall.Rule] *)
Definition enc_rule (r : Firewall.Rule) : json :=
  JObj ([("id", enc_string (Firewall.ID r)); ("action", enc_string (Firewall.Action r))] ++
        omit_empty "domain" (Firewall.Domain r) ++ omit_empty "cidr" (Firewall.CIDR r) ++
        omit_empty "process" (Firewall.Process r)).

Definition no_rule : Firewall.Rule := {|
  Firewall.ID := ""; Firewall.Action := ""; Firewall.Domain := ""; Firewall.CIDR := ""; Firewall.Process := "" |}.

Definition rule_fields : Fields Firewall.Rule := [
  field "id" Firewall.ID (λ v r, {| Firewall.ID := v; Firewall.Action := Firewall.Action r;
    Firewall.Domain := Firewall.Domain r; Firewall.CIDR := Firewall.CIDR r; Firewall.Process := Firewall.Process r |}) dec_string;
  field "action" Firewall.Action (λ v r, {| Firewall.ID := Firewall.ID r; Firewall.Action := v;
    Firewall.Domain := Firewall.Domain r; Firewall.CIDR := Firewall.CIDR r; Firewall.Process := Firewall.Process r |}) dec_string;
  field "domain" Firewall.Domain (λ v r, {| Firewall.ID := Firewall.ID r; Firewall.Action := Firewall.Action r;
    Firewall.Domain := v; Firewall.CIDR := Firewall.CIDR r; Firewall.Process := Firewall.Process r |}) dec_string;
  field "cidr" Firewall.CIDR (λ v r, {| Firewall.ID := Firewall.ID r; Firewall.Action := Firewall.Action r;
    Firewall.Domain := Firewall.Domain r; Firewall.CIDR := v; Firewall.Process := Firewall.Process r |}) dec_string;
  field "process" Firewall.Process (λ v r, {| Firewall.ID := Firewall.ID r; Firewall.Action := Firewall.Action r;
    Firewall.Domain := Firewall.Domain r; Firewall.CIDR := Firewall.CIDR r; Firewall.Process := v |}) dec_string
].

Definition dec_rule : Dec Firewall.Rule := dec_struct rule_fields.

Definition rule_valid (r : Firewall.Rule) : Prop :=
  Forall (λ s, Utf8.valid s = true)
    [Firewall.ID r; Firewall.Action r; Firewall.Domain r; Firewall.CIDR r; Firewall.Process r].

Lemma enc_rule_spec r : rule_valid r → wf (enc_rule r) ∧ (depth (enc_rule r) <= 1)%nat ∧ dec_rule no_rule (enc_rule r) = Some r.
Proof.
  unfold rule_valid. rewrite !Forall_cons. intros (H1 & H2 & H3 & H4 & H5 & _). split_and!.
  - apply wf_obj. wf_members.
  - apply depth_obj. rewrite !Forall_app. split_and!; auto using depth_omit_empty.
  - unfold dec_rule, dec_struct, enc_rule. cbn [app].
    erewrite (dec_members_string rule_fields 0 "id"), (dec_members_string rule_fields 1 "action") by (done || reflexivity).
    rewrite <- (app_nil_r (omit_empty "process" _)).
    erewrite (dec_members_omit_empty rule_fields 2 "domain"), (dec_members_omit_empty rule_fields 3 "cidr"),
      (dec_members_omit_empty rule_fields 4 "process") by (done || reflexivity).
    by destruct r.
Qed.

Example rule_ex :
  Unmarshal no_rule dec_rule (dq "{'id':'1','ACTION':'block','cidr':'10.0.0.0/8','x':1}") =
  Some {| Firewall.ID := "1"; Firewall.Action := "block"; Firewall.Domain := ""; Firewall.CIDR := "10.0.0.0/8";
          Firewall.Process := "" |}.
Proof. vm_compute. reflexivity. Qed.

(** *** Subscriptions *)

Section time.
Context `{GoTime}.

Definition second : Z := 1000000000.

(** The executor's instants: nanoseconds, 0 for the zero time. *)
Definition instant (z : Z) : option Z := if (z =? 0)%Z then None else Some z.
Definition of_instant (t : option Z) : Z := default 0%Z t.

Definition dec_instant : Dec Z := λ old v, of_instant <$> dec_time (instant old) v.
(** [Expire]: whole seconds. *)
Definition to_nanos (t : option Z) : option Z := match t with Some n => Some (n * second)%Z | None => None end.
Definition to_seconds (t : option Z) : option Z := match t with Some n => Some (n / second)%Z | None => None end.
Definition dec_expire : Dec (option Z) := λ old v, to_seconds <$> dec_time (to_nanos old) v.

(** [sub.Meta] *)
Definition enc_meta (m : Sub.Meta) : option json :=
  e ← time_text (to_nanos (Sub.Expire m));
  Some (JObj (omit_empty "title" (Sub.Title m) ++ omit_zero "update_interval" (Sub.UpdateInterval m) ++
    omit_zero "upload" (Sub.Upload m) ++ omit_zero "download" (Sub.Download m) ++ omit_zero "total" (Sub.Total m) ++
    [("expire", JStr e)])).

Definition mk_meta (m : Sub.Meta) t i u d tot x : Sub.Meta := {|
  Sub.Title := t m; Sub.UpdateInterval := i m; Sub.Upload := u m; Sub.Download := d m; Sub.Total := tot m; Sub.Expire := x m |}.

Definition meta_fields : Fields Sub.Meta := [
  field "title" Sub.Title (λ v m, mk_meta m (λ _, v) Sub.UpdateInterval Sub.Upload Sub.Download Sub.Total Sub.Expire) dec_string;
  field "update_interval" Sub.UpdateInterval (λ v m, mk_meta m Sub.Title (λ _, v) Sub.Upload Sub.Download Sub.Total Sub.Expire) dec_int;
  field "upload" Sub.Upload (λ v m, mk_meta m Sub.Title Sub.UpdateInterval (λ _, v) Sub.Download Sub.Total Sub.Expire) dec_int;
  field "download" Sub.Download (λ v m, mk_meta m Sub.Title Sub.UpdateInterval Sub.Upload (λ _, v) Sub.Total Sub.Expire) dec_int;
  field "total" Sub.Total (λ v m, mk_meta m Sub.Title Sub.UpdateInterval Sub.Upload Sub.Download (λ _, v) Sub.Expire) dec_int;
  field "expire" Sub.Expire (λ v m, mk_meta m Sub.Title Sub.UpdateInterval Sub.Upload Sub.Download Sub.Total (λ _, v)) dec_expire
].

Definition omit_links (l : list string) : list (string * json) :=
  match l with [] => [] | _ => [("links", JArr (map enc_string l))] end.

(** [sub.Subscription]; a time or the metadata, being structs, are never
    left out. *)
Definition enc_subscription (s : Executor.Subscription) : option json :=
  a ← time_text (instant (Executor.AddedAt s));
  u ← time_text (instant (Executor.LastUpdate s));
  m ← enc_meta (Executor.subMeta s);
  Some (JObj ([("url", enc_string (Executor.subURL s))] ++ omit_empty "title" (Executor.subTitle s) ++
    [("added_at", JStr a); ("last_update", JStr u)] ++ omit_empty "last_error" (Executor.LastError s) ++
    omit_links (Executor.subLinks s) ++ [("meta", m)])).

Definition mk_subscription (s : Executor.Subscription) url t a u e l m : Executor.Subscription := {|
  Executor.subURL := url s; Executor.subTitle := t s; Executor.AddedAt := a s; Executor.LastUpdate := u s;
  Executor.LastError := e s; Executor.subLinks := l s; Executor.subMeta := m s |}.

Definition subscription_fields : Fields Executor.Subscription :=
  let u := Executor.subURL in let t := Executor.subTitle in let a := Executor.AddedAt in
  let w := Executor.LastUpdate in let e := Executor.LastError in let l := Executor.subLinks in
  let m := Executor.subMeta in [
  field "url" u (λ v s, mk_subscription s (λ _, v) t a w e l m) dec_string;
  field "title" t (λ v s, mk_subscription s u (λ _, v) a w e l m) dec_string;
  field "added_at" a (λ v s, mk_subscription s u t (λ _, v) w e l m) dec_instant;
  field "last_update" w (λ v s, mk_subscription s u t a (λ _, v) e l m) dec_instant;
  field "last_error" e (λ v s, mk_subscription s u t a w (λ _, v) l m) dec_string;
  field "links" l (λ v s, mk_subscription s u t a w e (λ _, v) m) (dec_list "" dec_string);
  field "meta" m (λ v s, mk_subscription s u t a w e l (λ _, v)) (dec_struct meta_fields)
].

Definition no_subscription : Executor.Subscription := {|
  Executor.subURL := ""; Executor.subTitle := ""; Executor.AddedAt := 0; Executor.LastUpdate := 0;
  Executor.LastError := ""; Executor.subLinks := []; Executor.subMeta := Sub.no_meta |}.

Definition dec_subscription : Dec Executor.Subscription := dec_struct subscription_fields.

Definition meta_valid (m : Sub.Meta) : Prop :=
  Utf8.valid (Sub.Title m) = true ∧
  Forall (λ z, is_Some (in_int64 z)) [Sub.UpdateInterval m; Sub.Upload m; Sub.Download m; Sub.Total m].

(** Texts in UTF-8 and numbers that fit: what can be stored unharmed. *)
Definition subscription_valid (s : Executor.Subscription) : Prop :=
  Forall (λ t, Utf8.valid t = true)
    (Executor.subURL s :: Executor.subTitle s :: Executor.LastError s :: Executor.subLinks s) ∧
  meta_valid (Executor.subMeta s).

Context `{!GoTimeLaws}.

Lemma time_member k t v : str_forallb plain_byte k = true → time_text t = Some v → wf_member (k, JStr v).
Proof. intros Hk Ht. apply wf_plain_member; [done|]. by apply str_safe_relexes, time_safe, (time_text_bytes t). Qed.

Lemma enc_meta_spec m j : meta_valid m → enc_meta m = Some j →
  wf j ∧ (depth j <= 1)%nat ∧ dec_struct meta_fields Sub.no_meta j = Some m.
Proof.
  intros [Ht Hi]. rewrite !Forall_cons in Hi. destruct Hi as (H1 & H2 & H3 & H4 & _). unfold enc_meta.
  destruct (time_text _) as [e|] eqn:He; cbn [mbind option_bind]; [|done]. intros [= <-]. split_and!.
  - apply wf_obj. wf_members. by eapply time_member.
  - apply depth_obj. rewrite !Forall_app. split_and!; auto using depth_omit_empty, depth_omit_zero.
  - unfold dec_struct.
    erewrite (dec_members_omit_empty meta_fields 0 "title"), (dec_members_omit_zero meta_fields 1 "update_interval"),
      (dec_members_omit_zero meta_fields 2 "upload"), (dec_members_omit_zero meta_fields 3 "download"),
      (dec_members_omit_zero meta_fields 4 "total") by (done || reflexivity).
    rewrite (dec_members_field meta_fields 5 "expire" _ _ "expire") by reflexivity. cbn [snd].
    unfold dec_expire, dec_time. rewrite (time_text_read _ _ He). cbn. destruct m as [? ? ? ? ? [x|]]; cbn; [|done].
    by rewrite Z.div_mul.
Qed.

Lemma of_instant_instant z : of_instant (instant z) = z.
Proof. unfold instant. by destruct (Z.eqb_spec z 0) as [->|]. Qed.

Lemma wf_omit_links l : Forall (λ t, Utf8.valid t = true) l → Forall wf_member (omit_links l).
Proof.
  intros Hl. destruct l as [|x l]; [done|]. constructor; [|done]. apply wf_plain_member; [done|]. apply wf_arr.
  apply Forall_fmap. eapply Forall_impl; [exact Hl|]. intros. by apply wf_enc_string.
Qed.

Lemma depth_omit_links l : Forall (λ m, (depth (snd m) <= 1)%nat) (omit_links l).
Proof.
  destruct l as [|x l]; [done|]. constructor; [|done]. cbn [snd]. apply depth_arr. apply Forall_forall.
  intros j (y & -> & _)%list_elem_of_fmap. cbn. lia.
Qed.

Lemma dec_members_links l ms s : Forall (λ t, Utf8.valid t = true) l → Executor.subLinks s = [] →
  dec_members subscription_fields s (omit_links l ++ ms) =
  dec_members subscription_fields (mk_subscription s Executor.subURL Executor.subTitle Executor.AddedAt
    Executor.LastUpdate Executor.LastError (λ _, l) Executor.subMeta) ms.
Proof.
  intros Hl Hs. destruct l as [|x l].
  - cbn [omit_links app]. f_equal. destruct s; cbn in *. by subst.
  - cbn [omit_links app]. rewrite (dec_members_field subscription_fields 5 "links" _ _ "links") by reflexivity.
    cbn [snd]. unfold dec_list. rewrite (mapM_Some_map _ enc_string); [done|].
    eapply Forall_impl; [exact Hl|]. intros. by apply dec_enc_string.
Qed.

Lemma enc_subscription_spec s j : subscription_valid s → enc_subscription s = Some j →
  wf j ∧ (depth j <= 2)%nat ∧ dec_subscription no_subscription j = Some s.
Proof.
  intros [Hs Hm]. rewrite !Forall_cons in Hs. destruct Hs as (H1 & H2 & H3 & H4). unfold enc_subscription.
  destruct (time_text (instant (Executor.AddedAt s))) as [a|] eqn:Ha; cbn [mbind option_bind]; [|done].
  destruct (time_text (instant (Executor.LastUpdate s))) as [u|] eqn:Hu; cbn [mbind option_bind]; [|done].
  destruct (enc_meta (Executor.subMeta s)) as [m|] eqn:Em; cbn [mbind option_bind]; [|done]. intros [= <-].
  destruct (enc_meta_spec _ _ Hm Em) as (Hw & Hd & Hr). split_and!.
  - apply wf_obj. wf_members; [by eapply time_member..|by apply wf_omit_links].
  - apply depth_obj. repeat first [apply Forall_app_2|apply Forall_cons_2|apply Forall_nil_2];
      try (eapply Forall_impl; [apply depth_omit_empty|cbn; lia]); try apply depth_omit_links; cbn; lia.
  - unfold dec_subscription, dec_struct. cbn [app].
    erewrite (dec_members_string subscription_fields 0 "url"), (dec_members_omit_empty subscription_fields 1 "title")
      by (done || reflexivity).
    cbn [app]. rewrite (dec_members_field subscription_fields 2 "added_at" _ _ "added_at") by reflexivity.
    cbn [snd]. unfold dec_instant at 1, dec_time. rewrite (time_text_read _ _ Ha). cbn [fmap option_fmap option_map mbind option_bind].
    rewrite (dec_members_field subscription_fields 3 "last_update" _ _ "last_update") by reflexivity.
    cbn [snd]. unfold dec_instant at 1, dec_time. rewrite (time_text_read _ _ Hu). cbn [fmap option_fmap option_map mbind option_bind].
    erewrite (dec_members_omit_empty subscription_fields 4 "last_error") by (done || reflexivity).
    rewrite dec_members_links by done. cbn [app].
    rewrite (dec_members_field subscription_fields 6 "meta" _ _ "meta") by reflexivity. cbn [snd].
    change (Executor.subMeta (mk_subscription _ _ _ _ _ _ _ _)) with Sub.no_meta. rewrite Hr. cbn.
    rewrite !of_instant_instant. by destruct s.
Qed.

End time.

(** ** The profile store *)

Record ProfileStore := { dir : string; uid : Z; gid : Z }.

Definition NewStore (homeDir : string) (uid gid : Z) : ProfileStore := {|
  dir := Path.JoinPath [homeDir; ".config"; "singctl"]; uid := uid; gid := gid |}.

Definition file (s : ProfileStore) (name : string) : string := Path.JoinPath [dir s; name].
Definition path (s : ProfileStore) : string := file s "profile.txt".
Definition introPath (s : ProfileStore) : string := file s "intro-shown".
Definition autostartPath (s : ProfileStore) : string := file s "autostart-mode.txt".
Definition sysproxyPath (s : ProfileStore) : string := file s "sysproxy.ini".
Definition subscriptionsPath (s : ProfileStore) : string := file s "subscriptions.json".
Definition firewallPath (s : ProfileStore) : string := file s "firewall.json".

Inductive StoreError := FsFailed (e : FsError) | NotEncoded | Corrupt (path : string).

Section ops.
Context {W : Type} `{FS W} `{GoTime}.
Implicit Types (s : ProfileStore) (w : W).

Definition fs_fail (e : option FsError) : option StoreError := FsFailed <$> e.

(** Two calls, the second when the first succeeds. *)
Definition then_ (r : option StoreError * W) (k : W → option StoreError * W) : option StoreError * W :=
  match fst r with Some e => (Some e, snd r) | None => k (snd r) end.

Definition mkdir s w : option StoreError * W := let '(e, w) := MkdirAll (dir s) 448 w in (fs_fail e, w).

(** Best effort. *)
Definition chown s f w : W := snd (Chown f (uid s) (gid s) w).

Definition write_owned s f (data : string) w : option StoreError * W :=
  let '(e, w) := WriteFile f data 384 w in
  match e with
  | Some e => (Some (FsFailed e), w)
  | None => (None, chown s f (chown s (dir s) w))
  end.

Definition save_file s f data w : option StoreError * W := then_ (mkdir s w) (write_owned s f data).

Definition SaveAutostartMode s (mode : string) w := save_file s (autostartPath s) mode w.
Definition MarkIntroSeen s w := save_file s (introPath s) "1" w.
Definition Save s (link : string) w := save_file s (path s) link w.
Definition SaveSysproxyConfig s (data : string) w := save_file s (sysproxyPath s) data w.

Definition LoadAutostartMode s w : string * option StoreError :=
  match ReadFile (autostartPath s) w with
  | Err NotExist => ("off", None)
  | Err e => ("off", Some (FsFailed e))
  | Ok data => let mode := TrimSpace data in (if String.eqb mode "" then "off" else mode, None)
  end.

Definition HasSeenIntro s w : bool := is_ok (ReadFile (introPath s) w).

Definition Load s w : result StoreError string :=
  match ReadFile (path s) w with
  | Err NotExist => Ok ""
  | Err e => Err (FsFailed e)
  | Ok data => Ok (TrimSpace data)
  end.

(** [None] is nil: nothing to restore. *)
Definition LoadSysproxyConfig s w : result StoreError (option string) :=
  match ReadFile (sysproxyPath s) w with
  | Err NotExist => Ok None
  | Err e => Err (FsFailed e)
  | Ok data => Ok (Some data)
  end.

(** A list in a file of its own, which goes away with the last element. *)
Section list.
Context {A : Type} (f : string) (zero : A) (enc : A → option json) (dec : Dec A).

Definition load_list w : result StoreError (list A) :=
  match ReadFile f w with
  | Err NotExist => Ok []
  | Err e => Err (FsFailed e)
  | Ok data => match Unmarshal [] (dec_list zero dec) data with
               | Some l => Ok l
               | None => Err (Corrupt f)
               end
  end.

Definition save_list s (l : list A) w : option StoreError * W :=
  then_ (mkdir s w) (λ w,
    match l with
    | [] =>
        let '(e, w) := Remove f w in
        match e with
        | Some (OtherError t) => (Some (FsFailed (OtherError t)), w)
        | _ => (None, chown s (dir s) w)
        end
    | _ =>
        match mapM enc l with
        | None => (Some NotEncoded, w)
        | Some vs => write_owned s f (MarshalIndent (JArr vs)) w
        end
    end).
End list.

Definition LoadSubscriptions s w := load_list (subscriptionsPath s) no_subscription dec_subscription w.
Definition SaveSubscriptions s l w := save_list (subscriptionsPath s) enc_subscription s l w.
Definition LoadFirewallRules s w := load_list (firewallPath s) no_rule dec_rule w.
Definition SaveFirewallRules s l w := save_list (firewallPath s) (λ r, Some (enc_rule r)) s l w.

(** ** What the profile store promises

    A record of what the loads would return; a save that succeeds replaces
    its own field. *)
Record View := {
  v_profile : result StoreError string;
  v_mode : string * option StoreError;
  v_intro : bool;
  v_sysproxy : result StoreError (option string);
  v_subs : result StoreError (list Executor.Subscription);
  v_rules : result StoreError (list Firewall.Rule)
}.

Definition view s w : View := {|
  v_profile := Load s w; v_mode := LoadAutostartMode s w; v_intro := HasSeenIntro s w;
  v_sysproxy := LoadSysproxyConfig s w; v_subs := LoadSubscriptions s w; v_rules := LoadFirewallRules s w |}.

Inductive SaveOp :=
  | OpProfile (link : string) | OpMode (mode : string) | OpIntro | OpSysproxy (data : string)
  | OpSubs (l : list Executor.Subscription) | OpRules (l : list Firewall.Rule).

Definition run_save s (o : SaveOp) w : option StoreError * W :=
  match o with
  | OpProfile link => Save s link w
  | OpMode mode => SaveAutostartMode s mode w
  | OpIntro => MarkIntroSeen s w
  | OpSysproxy data => SaveSysproxyConfig s data w
  | OpSubs l => SaveSubscriptions s l w
  | OpRules l => SaveFirewallRules s l w
  end.

Definition apply_save (o : SaveOp) (v : View) : View :=
  let mk p m i y u r := {| v_profile := p; v_mode := m; v_intro := i; v_sysproxy := y; v_subs := u; v_rules := r |} in
  let p := v_profile v in let m := v_mode v in let i := v_intro v in
  let y := v_sysproxy v in let u := v_subs v in let r := v_rules v in
  match o with
  | OpProfile link => mk (Ok (TrimSpace link)) m i y u r
  | OpMode mode => mk p (if String.eqb (TrimSpace mode) "" then "off" else TrimSpace mode, None) i y u r
  | OpIntro => mk p m true y u r
  | OpSysproxy data => mk p m i (Ok (Some data)) u r
  | OpSubs l => mk p m i y (Ok l) r
  | OpRules l => mk p m i y u (Ok l)
  end.

(** Lists whose elements can be stored unharmed. *)
Definition storable (o : SaveOp) : Prop :=
  match o with
  | OpSubs l => Forall subscription_valid l
  | OpRules l => Forall rule_valid l
  | _ => True
  end.

Fixpoint run_saves s (os : list SaveOp) w : option StoreError * W :=
  match os with
  | [] => (None, w)
  | o :: os => then_ (run_save s o w) (run_saves s os)
  end.
End ops.

(** ** The store keeps its promise *)

Section facts.
Context {W : Type} `{FSLaws W} `{GoTimeLaws}.
Implicit Types (s : ProfileStore) (w : W).

Lemma chown_keeps s f w n : ReadFile n (chown s f w) = ReadFile n w.
Proof. apply chown_reads. Qed.

Lemma then_None (r : option StoreError * W) k w' : then_ r k = (None, w') → fst r = None ∧ k (snd r) = (None, w').
Proof. unfold then_. destruct r as [[e|] w]; cbn; [done|auto]. Qed.

Lemma mkdir_keeps s w n : ReadFile n (snd (mkdir s w)) = ReadFile n w.
Proof. unfold mkdir. pose proof (mkdir_reads (dir s) 448 w n) as Hm. by destruct (MkdirAll (dir s) 448 w). Qed.

Lemma write_owned_reads s f data w w' : write_owned s f data w = (None, w') →
  ReadFile f w' = Ok data ∧ ∀ n, n ≠ f → ReadFile n w' = ReadFile n w.
Proof.
  unfold write_owned. pose proof (write_reads f data 384 w) as Hr. pose proof (write_others f data 384 w) as Ho.
  destruct (WriteFile f data 384 w) as [[e|] w1]; [done|]. intros [= <-]. cbn in *.
  split; [|intros n Hn]; rewrite !chown_keeps; auto.
Qed.

Lemma save_file_reads s f data w w' : save_file s f data w = (None, w') →
  ReadFile f w' = Ok data ∧ ∀ n, n ≠ f → ReadFile n w' = ReadFile n w.
Proof.
  intros [_ Hw]%then_None. apply write_owned_reads in Hw as [Hf Ho]. split; [done|]. intros n Hn.
  by rewrite Ho, mkdir_keeps.
Qed.

Section list.
Context {A : Type} (f : string) (zero : A) (enc : A → option json) (dec : Dec A) (ok : A → Prop).
Context (Hspec : ∀ a j, ok a → enc a = Some j → wf j ∧ (depth j <= 2)%nat ∧ dec zero j = Some a).

Lemma save_list_reads s l w w' : save_list f enc s l w = (None, w') →
  (match l with
   | [] => ReadFile f w' = Err NotExist
   | _ => ∃ vs, mapM enc l = Some vs ∧ ReadFile f w' = Ok (MarshalIndent (JArr vs))
   end) ∧ ∀ n, n ≠ f → ReadFile n w' = ReadFile n w.
Proof.
  intros [_ Hk]%then_None. destruct l as [|a l].
  - pose proof (remove_reads f (snd (mkdir s w))) as Hr. pose proof (remove_others f (snd (mkdir s w))) as Ho.
    destruct (Remove f (snd (mkdir s w))) as [e w1]. cbn in *.
    assert ((e = None ∨ e = Some NotExist) ∧ w' = chown s (dir s) w1) as [He ->].
    { destruct e as [[|t]|]; simplify_eq; auto. }
    split; [rewrite chown_keeps; auto|]. intros n Hn. by rewrite chown_keeps, Ho, mkdir_keeps.
  - destruct (mapM enc (a :: l)) as [vs|] eqn:Hm; [|done]. apply write_owned_reads in Hk as [Hf Ho].
    split; [by exists vs|]. intros n Hn. by rewrite Ho, mkdir_keeps.
Qed.

Lemma mapM_enc l vs : Forall ok l → mapM enc l = Some vs →
  wf (JArr vs) ∧ (depth (JArr vs) <= 3)%nat ∧ mapM (dec zero) vs = Some l.
Proof.
  intros Hl Hm. apply mapM_Some in Hm. rewrite wf_arr.
  assert (Forall wf vs ∧ Forall (λ v, (depth v <= 2)%nat) vs ∧ mapM (dec zero) vs = Some l) as (?&?&?).
  { induction Hm as [|a j l vs Ha _ IH]; [done|]. apply Forall_cons in Hl as [Hok Hl].
    destruct (Hspec _ _ Hok Ha) as (H1' & H2' & H3'). destruct (IH Hl) as (?&?&IHm).
    split_and!; [by constructor..|]. cbn. by rewrite H3', IHm. }
  split_and!; [done|by apply depth_arr|done].
Qed.

Lemma reload s l w w' : Forall ok l → save_list f enc s l w = (None, w') → load_list f zero dec w' = Ok l.
Proof.
  intros Hl [Hf _]%save_list_reads. unfold load_list. destruct l as [|a l]; [by rewrite Hf|].
  destruct Hf as (vs & Hm & ->). apply mapM_enc in Hm as (Hw & Hd & Hmap); [|done].
  rewrite (Unmarshal_MarshalIndent _ (a :: l)); [done|done| |done].
  etrans; [exact Hd|]. apply Nat.leb_le. by vm_compute.
Qed.
End list.

Definition names : list string :=
  ["profile.txt"; "autostart-mode.txt"; "intro-shown"; "sysproxy.ini"; "subscriptions.json"; "firewall.json"].

Lemma file_ne s a b : a ∈ names → b ∈ names → a ≠ b → file s a ≠ file s b.
Proof.
  intros Ha Hb Hab He. assert (Hp : ∀ n, n ∈ names → Path.plain_name n = true).
  { intros n Hn. assert (Forall (λ n, Path.plain_name n = true) names) as Hall by by repeat constructor.
    rewrite Forall_forall in Hall. auto. }
  apply Hab, (Path.JoinPath_inj (dir s)); auto.
Qed.

Lemma read_owned s a b (w w' : W) : (∀ n, n ≠ file s a → ReadFile n w' = ReadFile n w) →
  a ∈ names → b ∈ names → a ≠ b → ReadFile (file s b) w' = ReadFile (file s b) w.
Proof. intros Hr Ha Hb Hab. apply Hr. by apply file_ne. Qed.
(** One save, by the file it owns. *)
Lemma save_others s o w w' : run_save s o w = (None, w') →
  ∃ a, a ∈ names ∧ (∀ b, b ∈ names → a ≠ b → ReadFile (file s b) w' = ReadFile (file s b) w) ∧
    a = match o with OpProfile _ => "profile.txt" | OpMode _ => "autostart-mode.txt" | OpIntro => "intro-shown"
                | OpSysproxy _ => "sysproxy.ini" | OpSubs _ => "subscriptions.json" | OpRules _ => "firewall.json" end.
Proof.
  intros Hr. eexists. split; [|split; [|reflexivity]]; [destruct o; set_solver|]. intros b Hb Hab.
  assert (∀ n, n ≠ file s (match o with OpProfile _ => "profile.txt" | OpMode _ => "autostart-mode.txt" | OpIntro => "intro-shown"
    | OpSysproxy _ => "sysproxy.ini" | OpSubs _ => "subscriptions.json" | OpRules _ => "firewall.json" end) →
    ReadFile n w' = ReadFile n w) as Ho.
  { destruct o; cbn in Hr; first [by apply save_file_reads in Hr as [_ ?] | by apply save_list_reads in Hr as [_ ?]]. }
  eapply read_owned; [exact Ho|destruct o; apply list_elem_of_In; cbn; tauto|done|done].
Qed.

Lemma view_eq s w w' a : a ∈ names → (∀ b, b ∈ names → a ≠ b → ReadFile (file s b) w' = ReadFile (file s b) w) →
  (a ≠ "profile.txt" → Load s w' = Load s w) ∧
  (a ≠ "autostart-mode.txt" → LoadAutostartMode s w' = LoadAutostartMode s w) ∧
  (a ≠ "intro-shown" → HasSeenIntro s w' = HasSeenIntro s w) ∧
  (a ≠ "sysproxy.ini" → LoadSysproxyConfig s w' = LoadSysproxyConfig s w) ∧
  (a ≠ "subscriptions.json" → LoadSubscriptions s w' = LoadSubscriptions s w) ∧
  (a ≠ "firewall.json" → LoadFirewallRules s w' = LoadFirewallRules s w).
Proof.
  intros Ha Hr. unfold Load, LoadAutostartMode, HasSeenIntro, LoadSysproxyConfig, LoadSubscriptions, LoadFirewallRules,
    load_list, path, autostartPath, introPath, sysproxyPath, subscriptionsPath, firewallPath.
  split_and!; try done; intros Hne; by rewrite Hr by (done || set_solver).
Qed.

Lemma store_refines_one s o w w' : storable o → run_save s o w = (None, w') → view s w' = apply_save o (view s w).
Proof.
  intros Ho Hr. pose proof (save_others s o w w' Hr) as (a & Ha & Hothers & Hae).
  destruct (view_eq s w w' a Ha Hothers) as (H1' & H2' & H3' & H4' & H5' & H6').
  unfold view, apply_save. destruct o; subst a; cbn in Hr, Ho;
    rewrite ?H1', ?H2', ?H3', ?H4', ?H5', ?H6' by done; cbn [v_profile v_mode v_intro v_sysproxy v_subs v_rules]; f_equal.
  1-4: apply save_file_reads in Hr as [Hf _].
  - unfold Load. by rewrite Hf.
  - unfold LoadAutostartMode. by rewrite Hf.
  - unfold HasSeenIntro. by rewrite Hf.
  - unfold LoadSysproxyConfig. by rewrite Hf.
  - eapply reload; [|exact Ho|exact Hr]. apply enc_subscription_spec.
  - eapply reload; [|exact Ho|exact Hr]. intros r j Hv [= <-].
    destruct (enc_rule_spec r Hv) as (?&?&?). split_and!; [done|lia|done].
Qed.
End facts.

Section claims.
Context {W : Type} `{FSLaws W} `{GoTimeLaws}.

(** C6: On every file system that keeps [FSLaws] the profile store behaves as
    a record of six independent values: when a sequence of saves succeeds,
    loading gives for each value what was saved last — the trimmed profile,
    the autostart mode with "off" for a blank one, the introduction mark, the
    proxy settings, the subscriptions and the rules, element for element in
    their order, an emptied list included — and what was there before for the
    values that were not saved. *)
Theorem store_refines (s : ProfileStore) (os : list SaveOp) (w w' : W) :
  Forall storable os → run_saves s os w = (None, w') →
  view s w' = foldl (λ v o, apply_save o v) (view s w) os.
Proof.
  intros Hos. revert w. induction Hos as [|o os Ho _ IH]; intros w; cbn [run_saves foldl]; [by intros [= <-]|].
  intros [H1' H2']%then_None. rewrite <- (store_refines_one s o w (snd (run_save s o w))); auto.
  destruct (run_save s o w). cbn in *. by subst.
Qed.
End claims.

(** Times as numbers, in place of RFC 3339. *)
#[local] Instance number_time : GoTime := {|
  time_text := λ t, match t with None => Some "Z" | Some n => Itoa <$> in_int64 n end;
  parse_time := λ s, if String.eqb s "Z" then Some None else match Atoi s with Some n => Some (Some n) | None => None end |}.

#[local] Instance number_time_laws : GoTimeLaws.
Proof.
  assert (Hin : ∀ n m, in_int64 n = Some m → m = n) by (unfold in_int64; intros n m; case_match; congruence).
  assert (Hb : ∀ n, str_forallb time_byte (Itoa n) = true).
  { intros n. apply Itoa_bytes; [|done]. intros c Hc. unfold time_byte. by rewrite Hc. }
  split; intros [n|] s; cbn; try by intros [= <-].
  - destruct (in_int64 n) as [m|] eqn:Hm; [|done]. intros [= <-]. pose proof (Hin _ _ Hm) as ->.
    destruct (String.eqb_spec (Itoa n) "Z") as [He|_]; [|by rewrite Atoi_Itoa].
    pose proof (Atoi_Itoa n ltac:(by eexists)) as Ha. by rewrite He in Ha.
  - destruct (in_int64 n) as [m|] eqn:Hm; [|done]. intros [= <-]. apply Hb.
Qed.

Definition sw_store : ProfileStore := NewStore "/Users/m" 501 20.
Definition sw_sub : Executor.Subscription := {|
  Executor.subURL := "https://p/s"; Executor.subTitle := ""; Executor.AddedAt := 17; Executor.LastUpdate := 0;
  Executor.LastError := "a<b"; Executor.subLinks := ["hy2://p@h:443#x"];
  Executor.subMeta := {| Sub.Title := "P"; Sub.UpdateInterval := 0; Sub.Upload := 1; Sub.Download := 0; Sub.Total := 9;
                         Sub.Expire := Some 3%Z |} |}.
Definition sw_ops : list SaveOp := [OpMode "vpn"; OpSubs [sw_sub]; OpProfile " l "; OpIntro].
Definition sw_files : gmap string string := snd (run_saves sw_store sw_ops ∅).

Lemma store_refines_witness :
  run_saves sw_store sw_ops ∅ = (None, sw_files) ∧
  view sw_store sw_files = foldl (λ v o, apply_save o v) (view sw_store ∅) sw_ops.
Proof.
  assert (run_saves sw_store sw_ops ∅ = (None, sw_files)) as Hr.
  { rewrite (surjective_pairing (run_saves sw_store sw_ops ∅)). unfold sw_files. apply (f_equal (λ e, (e, _))). vm_compute. reflexivity. }
  split; [exact Hr|]. apply (store_refines sw_store sw_ops ∅ sw_files); [|exact Hr].
  repeat constructor; try reflexivity; by eexists.
Defined.

Example stored_subscriptions : LoadSubscriptions sw_store sw_files = Ok [sw_sub].
Proof. vm_compute. reflexivity. Qed.

End Store.
