(* ===== verification/AppStore.v ===== *)
(** * AppStore: the applications the user wants proxied
    ([internal/app/appstore.go])

    Entries by bundle ID in memory, mirrored in a JSON file that is replaced
    in one step.  [survives_restart] is the point of it: after any calls that
    succeed a new store loads the same entries; [save_is_atomic] that no
    failure on the way loses the old ones.  The lock covers the entries but
    not the writing of the file, and [save_race_loses_an_app] shows what two
    concurrent calls can do. *)

From S2P Require Import Prelude GoStr GoUtf8 GoNet GoUrl GoUrlFacts GoPath Registry Schema Link GoJson GoJsonData Store.
Import Json Data Store.

Local Open Scope string_scope.
Local Open Scope list_scope.

Module AppStore.

Record ProxiedApp := { BundleID : string; Name : string; Enabled : bool; Running : bool }.

#[export] Instance ProxiedApp_eq_dec : EqDecision ProxiedApp.
Proof. solve_decision. Defined.

Record appStore := { path : string; entries : gmap string ProxiedApp }.

Definition proxiedAppsPath : string := "/Library/Application Support/singctl/proxied-apps.json".

Definition newAppStore (p : string) : appStore := {| path := p; entries := ∅ |}.

Definition set_entries (m : gmap string ProxiedApp) (s : appStore) : appStore := {| path := path s; entries := m |}.

(** ** JSON *)

Definition no_app : ProxiedApp := {| BundleID := ""; Name := ""; Enabled := false; Running := false |}.

Definition enc_app (a : ProxiedApp) : json :=
  JObj [("bundleID", enc_string (BundleID a)); ("name", enc_string (Name a)); ("enabled", JBool (Enabled a));
        ("running", JBool (Running a))].

Definition app_fields : Fields ProxiedApp := [
  field "bundleid" BundleID (λ v a, {| BundleID := v; Name := Name a; Enabled := Enabled a; Running := Running a |}) dec_string;
  field "name" Name (λ v a, {| BundleID := BundleID a; Name := v; Enabled := Enabled a; Running := Running a |}) dec_string;
  field "enabled" Enabled (λ v a, {| BundleID := BundleID a; Name := Name a; Enabled := v; Running := Running a |}) dec_bool;
  field "running" Running (λ v a, {| BundleID := BundleID a; Name := Name a; Enabled := Enabled a; Running := v |}) dec_bool
].

Definition dec_app : Dec ProxiedApp := dec_struct app_fields.

(** ** Operations *)

Inductive StoreError :=
  | ErrRead (e : FsError) | ErrEmptyID | ErrNotFound (id : string) | ErrWrite (step : string) (e : FsError).

(** Entries in the order of a key, which [sort.Slice] leaves unspecified
    among equal keys; [l] is the order the map is walked in. *)
Definition by_key (key : ProxiedApp → string) (l : list ProxiedApp) : list ProxiedApp :=
  merge_sort (λ a b, String.le (key a) (key b)) l.

Definition values (m : gmap string ProxiedApp) : list ProxiedApp := snd <$> map_to_list m.

Definition load_entry (m : gmap string ProxiedApp) (e : ProxiedApp) : gmap string ProxiedApp :=
  let e := {| BundleID := BundleID e; Name := Name e; Enabled := Enabled e; Running := false |} in
  if String.eqb (BundleID e) "" then m else <[BundleID e := e]> m.

Definition List_ `{GoUnicode} (walk : list ProxiedApp) : list ProxiedApp := by_key (λ a, ToLower (Name a)) walk.

Definition EnabledBundleIDs (s : appStore) : list string :=
  sort_strings (fst <$> filter (λ e, Enabled e.2 = true) (map_to_list (entries s))).

Definition tmp_path (s : appStore) : string := path s +:+ ".tmp".

(** The text [save] writes. *)
Definition data (m : gmap string ProxiedApp) : string :=
  MarshalIndent (JArr (map enc_app (by_key BundleID (values m)))).

Section ops.
Context {W : Type} `{FS W}.
Implicit Types (s : appStore) (w : W).

(** A file that does not parse leaves the store as it is. *)
Definition Load s w : option StoreError * appStore :=
  match ReadFile (path s) w with
  | Err NotExist => (None, s)
  | Err e => (Some (ErrRead e), s)
  | Ok text =>
      match Unmarshal [] (dec_list no_app dec_app) text with
      | None => (None, s)
      | Some l => (None, set_entries (foldl load_entry ∅ l) s)
      end
  end.

Definition step_error (step : string) (e : option FsError) : option StoreError := ErrWrite step <$> e.

(** The three calls of [save], each on what the one before left; the states
    it goes through come with its result. *)
Definition save s w : option StoreError * W * list W :=
  let '(e1, w1) := MkdirAll (Path.Dir (path s)) 493 w in
  match e1 with
  | Some e => (Some (ErrWrite "create directory" e), w1, [w; w1])
  | None =>
      let '(e2, w2) := WriteFile (tmp_path s) (data (entries s)) 420 w1 in
      match e2 with
      | Some e => (Some (ErrWrite "write" e), w2, [w; w1; w2])
      | None =>
          let '(e3, w3) := Rename (tmp_path s) (path s) w2 in
          (step_error "rename" e3, w3, [w; w1; w2; w3])
      end
  end.

(** A mutation: the entries first, under the lock, then the file. *)
Definition saved (s : appStore) w : option StoreError * appStore * W :=
  let '(e, w, _) := save s w in (e, s, w).

Definition upsert (id name : string) (enabled : bool) (m : gmap string ProxiedApp) : gmap string ProxiedApp :=
  let e := default no_app (m !! id) in
  <[id := {| BundleID := id; Name := if negb (String.eqb name "") then name else Name e; Enabled := enabled;
             Running := Running e |}]> m.

Definition Upsert s (bundleID name : string) (enabled : bool) w : option StoreError * appStore * W :=
  let id := TrimSpace bundleID in
  if String.eqb id "" then (Some ErrEmptyID, s, w)
  else saved (set_entries (upsert id name enabled (entries s)) s) w.

Definition SetEnabled s (bundleID : string) (enabled : bool) w : option StoreError * appStore * W :=
  let id := TrimSpace bundleID in
  match entries s !! id with
  | None => (Some (ErrNotFound id), s, w)
  | Some e =>
      saved (set_entries (<[id := {| BundleID := BundleID e; Name := Name e; Enabled := enabled; Running := Running e |}]>
        (entries s)) s) w
  end.

Definition Remove_ s (bundleID : string) w : option StoreError * appStore * W :=
  saved (set_entries (delete (TrimSpace bundleID) (entries s)) s) w.

(** ** Any sequence of mutations *)

Inductive Mutation :=
  | MUpsert (id name : string) (enabled : bool) | MSetEnabled (id : string) (enabled : bool) | MRemove (id : string).

Definition mutate (o : Mutation) s w : option StoreError * appStore * W :=
  match o with
  | MUpsert id name enabled => Upsert s id name enabled w
  | MSetEnabled id enabled => SetEnabled s id enabled w
  | MRemove id => Remove_ s id w
  end.

(** The error of each call, and where it all ends. *)
Fixpoint mutations (os : list Mutation) s w : list (option StoreError) * appStore * W :=
  match os with
  | [] => ([], s, w)
  | o :: os => let '(e, s, w) := mutate o s w in let '(es, s, w) := mutations os s w in (e :: es, s, w)
  end.
End ops.

(** ** Facts *)

(** Keys are the entries' own bundle IDs, which are not empty; nothing is
    marked running. *)
Definition entry_ok (id : string) (e : ProxiedApp) : Prop := BundleID e = id ∧ id ≠ "" ∧ Running e = false.
Definition store_ok (s : appStore) : Prop := map_Forall entry_ok (entries s).

(** Texts in UTF-8. *)
Definition app_valid (e : ProxiedApp) : Prop := Utf8.valid (BundleID e) = true ∧ Utf8.valid (Name e) = true.

#[export] Instance app_valid_dec e : Decision (app_valid e).
Proof. apply and_dec; apply bool_eq_dec. Defined.

Lemma enc_app_spec a : app_valid a → wf (enc_app a) ∧ (depth (enc_app a) <= 1)%nat ∧ dec_app no_app (enc_app a) = Some a.
Proof.
  intros [H1 H2]. split_and!.
  - apply wf_obj. wf_members.
  - apply depth_obj. by repeat constructor.
  - unfold dec_app, dec_struct, enc_app.
    erewrite (dec_members_string app_fields 0 "bundleID"), (dec_members_string app_fields 1 "name") by (done || reflexivity).
    rewrite (dec_members_field app_fields 2 "enabled" _ _ "enabled") by reflexivity. cbn [snd dec_bool fmap option_fmap option_map mbind option_bind].
    rewrite (dec_members_field app_fields 3 "running" _ _ "running") by reflexivity. by destruct a.
Qed.

Lemma by_key_perm k l : by_key k l ≡ₚ l.
Proof. apply merge_sort_Permutation. Qed.

Lemma values_keys m : map_Forall entry_ok m → map_to_list m = (λ e, (BundleID e, e)) <$> values m.
Proof.
  intros Hm. unfold values. rewrite <- list_fmap_compose. rewrite <- (list_fmap_id (map_to_list m)) at 1.
  apply list_fmap_ext. intros i [id e] Hi. cbn. apply list_elem_of_lookup_2, elem_of_map_to_list in Hi.
  destruct (Hm _ _ Hi) as (<- & _). done.
Qed.

Lemma load_entries l m : Forall (λ e, entry_ok (BundleID e) e) l →
  foldl load_entry m l = list_to_map (reverse ((λ e, (BundleID e, e)) <$> l)) ∪ m.
Proof.
  intros Hl. revert m. induction Hl as [|e l He _ IH]; intros m; cbn [foldl]; rewrite ?fmap_cons.
  - exact (eq_sym (left_id_L ∅ (∪) m)).
  - rewrite IH. destruct He as (_ & Hne & Hrun). unfold load_entry. cbn [BundleID].
    destruct (String.eqb_spec (BundleID e) "") as [?|_]; [done|].
    destruct e as [b n en r]; cbn in Hrun, Hne; subst r. rewrite reverse_cons, list_to_map_app. cbn [fst snd list_to_map foldr uncurry BundleID].
    rewrite insert_empty. rewrite <- (assoc_L (∪)). by rewrite <- insert_union_singleton_l.
Qed.

Lemma reload_entries m l : map_Forall entry_ok m → l ≡ₚ values m → foldl load_entry ∅ l = m.
Proof.
  intros Hm Hl. rewrite load_entries.
  - rewrite (right_id_L ∅ (∪)). transitivity (list_to_map (map_to_list m) : gmap string ProxiedApp);
      [|apply list_to_map_to_list]. apply list_to_map_proper.
    + apply NoDup_fmap_fst.
      * intros k x y Hx Hy. rewrite reverse_Permutation, list_elem_of_fmap in Hx, Hy.
        destruct Hx as (a & [= -> ->] & Ha), Hy as (b & [= Hk ->] & Hb). rewrite Hl in Ha, Hb.
        unfold values in *. apply list_elem_of_fmap in Ha as ([ka va] & -> & Ha), Hb as ([kb vb] & -> & Hb).
        apply elem_of_map_to_list in Ha, Hb. pose proof (Hm _ _ Ha) as (Hka & _). pose proof (Hm _ _ Hb) as (Hkb & _).
        cbn in *. rewrite Hka, Hkb in Hk. congruence.
      * rewrite reverse_Permutation. rewrite Hl. rewrite <- values_keys by done. apply NoDup_map_to_list.
    + rewrite reverse_Permutation, Hl, <- values_keys by done. done.
  - rewrite Hl. apply Forall_forall. intros e He. unfold values in He.
    apply list_elem_of_fmap in He as ([k v] & -> & He). apply elem_of_map_to_list in He.
    destruct (Hm _ _ He) as (Hk & ? & ?). cbn. split_and!; [done|by rewrite Hk|done].
Qed.

Lemma load_data m : map_Forall entry_ok m → map_Forall (λ _ e, app_valid e) m →
  ∃ l, Unmarshal [] (dec_list no_app dec_app) (data m) = Some l ∧ foldl load_entry ∅ l = m.
Proof.
  intros Hm Hv. exists (by_key BundleID (values m)). split; [|by apply reload_entries, by_key_perm].
  assert (Forall app_valid (by_key BundleID (values m))) as Hall.
  { rewrite by_key_perm. unfold values. apply Forall_fmap, Forall_forall. intros [k v] He%elem_of_map_to_list. by apply (Hv k v). }
  unfold data. revert Hall. generalize (by_key BundleID (values m)). intros l Hall. apply Unmarshal_MarshalIndent.
  - apply wf_arr, Forall_fmap. eapply Forall_impl; [exact Hall|]. intros a Ha. by apply enc_app_spec.
  - trans 2%nat; [|apply Nat.leb_le; by vm_compute]. apply depth_arr, Forall_forall. intros j (a & -> & Ha)%list_elem_of_fmap.
    rewrite Forall_forall in Hall. by apply enc_app_spec, Hall.
  - cbn [dec_list]. apply mapM_Some_map. eapply Forall_impl; [exact Hall|]. intros a Ha. by apply enc_app_spec.
Qed.

Section facts.
Context {W : Type} `{FSLaws W}.
Implicit Types (s : appStore) (w : W).

Lemma tmp_ne s : path s ≠ tmp_path s.
Proof. intros He%(f_equal String.length). unfold tmp_path in He. rewrite length_app_str in He. cbn in He. lia. Qed.

(** The states a save went through, one by one. *)
Ltac save_states :=
  split; [first [done | intros _; auto]|intros x; rewrite !elem_of_cons, elem_of_nil; intuition (subst; intuition congruence)].

Lemma save_reads s w :
  let '(e, w', tr) := save s w in
  (e = None → ReadFile (path s) w' = Ok (data (entries s))) ∧
  ∀ x, x ∈ tr → ReadFile (path s) x = ReadFile (path s) w ∨ (e = None ∧ ReadFile (path s) x = Ok (data (entries s))).
Proof.
  unfold save. pose proof (mkdir_reads (Path.Dir (path s)) 493 w (path s)) as H1'.
  destruct (MkdirAll (Path.Dir (path s)) 493 w) as [[e1|] w1]; cbn in H1'; [by save_states|].
  pose proof (write_reads (tmp_path s) (data (entries s)) 420 w1) as H2'.
  pose proof (write_others (tmp_path s) (data (entries s)) 420 w1 (path s) (tmp_ne s)) as H2''.
  destruct (WriteFile (tmp_path s) (data (entries s)) 420 w1) as [[e2|] w2]; cbn in H2', H2''; [by save_states|].
  pose proof (rename_reads (tmp_path s) (path s) w2) as H3'.
  pose proof (rename_others (tmp_path s) (path s) w2 (path s) (tmp_ne s)) as H3''.
  destruct (Rename (tmp_path s) (path s) w2) as [[e3|] w3]; cbn in H3', H3''; unfold step_error; cbn.
  - assert (ReadFile (path s) w3 = ReadFile (path s) w2) by (apply H3''; by right).
    save_states.
  - rewrite H2' in H3' by done. save_states.
Qed.

Lemma mutate_ok o s w e s' w' : store_ok s → mutate o s w = (e, s', w') → store_ok s' ∧ path s' = path s.
Proof.
  intros Hs. destruct o as [id name en|id en|id]; cbn [mutate].
  - unfold Upsert. destruct (String.eqb_spec (TrimSpace id) "") as [?|Hne]; [by intros [= <- <- <-]|].
    unfold saved. destruct (save _ w) as [[e1 w1] tr]. intros [= <- <- <-]. split; [|done]. unfold store_ok. cbn.
    apply map_Forall_insert_2; [|done]. unfold entry_ok. cbn. split_and!; [done|done|].
    destruct (entries s !! TrimSpace id) as [x|] eqn:Hx; cbn; [|done]. by destruct (Hs _ _ Hx) as (_ & _ & ?).
  - unfold SetEnabled. destruct (entries s !! TrimSpace id) as [x|] eqn:Hx; [|by intros [= <- <- <-]].
    unfold saved. destruct (save _ w) as [[e1 w1] tr]. intros [= <- <- <-]. split; [|done]. unfold store_ok. cbn.
    apply map_Forall_insert_2; [|done]. destruct (Hs _ _ Hx) as (? & ? & ?). by split_and!.
  - unfold Remove_, saved. destruct (save _ w) as [[e1 w1] tr]. intros [= <- <- <-]. split; [|done].
    unfold store_ok. cbn. by apply map_Forall_delete.
Qed.

Lemma mutate_saves o s w s' w' : mutate o s w = (None, s', w') → ReadFile (path s') w' = Ok (data (entries s')).
Proof.
  assert (Hsv : ∀ t, saved t w = (None, s', w') → ReadFile (path s') w' = Ok (data (entries s'))).
  { intros t. unfold saved. pose proof (save_reads t w) as Hr. destruct (save t w) as [[e1 w1] tr]. intros [= -> <- <-].
    by apply Hr. }
  destruct o as [id name en|id en|id]; cbn [mutate]; unfold Upsert, SetEnabled, Remove_; [case_match; [done|]|case_match; [|done]|];
    apply Hsv.
Qed.

Lemma load_ok s w : store_ok s → store_ok (snd (Load s w)) ∧ path (snd (Load s w)) = path s.
Proof.
  intros Hs. unfold Load. destruct (ReadFile (path s) w) as [text|[|t]]; [|done|done].
  destruct (Unmarshal _ _ _) as [l|]; [|done]. cbn. split; [|done]. unfold store_ok. cbn.
  assert (Hf : ∀ m, map_Forall entry_ok m → map_Forall entry_ok (foldl load_entry m l)); [|by apply Hf].
  clear. induction l as [|e l IH]; intros m Hm; [done|]. cbn. apply IH. unfold load_entry. cbn.
  destruct (String.eqb_spec (BundleID e) "") as [?|Hne]; [done|]. by apply map_Forall_insert_2.
Qed.

Lemma mutations_ok os s w es s' w' : store_ok s → mutations os s w = (es, s', w') →
  store_ok s' ∧ path s' = path s ∧ (last es = Some None → ReadFile (path s') w' = Ok (data (entries s'))).
Proof.
  revert s w es. induction os as [|o os IH]; intros s w es Hs; cbn; [by intros [= <- <- <-]|].
  destruct (mutate o s w) as [[e1 s1] w1] eqn:Ho. destruct (mutations os s1 w1) as [[es1 s2] w2] eqn:Hos.
  intros [= <- <- <-]. destruct (mutate_ok _ _ _ _ _ _ Hs Ho) as [Hs1 Hp1].
  destruct (IH s1 w1 es1 Hs1 Hos) as (Hs2 & Hp2 & Hl). split_and!; [done|congruence|].
  destruct es1 as [|e' es1]; [|exact Hl]. intros [= ->]. destruct os as [|o' os].
  - injection Hos as <- <-. by apply mutate_saves in Ho.
  - cbn in Hos. destruct (mutate o' s1 w1) as [[? ?] ?]. by destruct (mutations os _ _) as [[? ?] ?].
Qed.
End facts.

Section claims.
Context {W : Type} `{FSLaws W}.

(** C7: Whatever the file held at the start and whichever calls failed on the
    way, once a call that changes the store has returned without an error a
    store that starts from the file alone has exactly the same entries: no
    application is lost, added or changed by a restart. *)
Theorem survives_restart (p : string) (w w' : W) (os : list Mutation) (es : list (option StoreError)) (s : appStore) :
  mutations os (snd (Load (newAppStore p) w)) w = (es, s, w') → last es = Some None →
  map_Forall (λ _ e, app_valid e) (entries s) →
  Load (newAppStore p) w' = (None, s).
Proof.
  intros Hm Hlast Hv. assert (store_ok (newAppStore p)) as H0' by by intros ? ?.
  destruct (load_ok _ w H0') as [H1' Hp]. destruct (mutations_ok _ _ _ _ _ _ H1' Hm) as (Hs & Hp' & Hr).
  specialize (Hr Hlast). rewrite Hp', Hp in Hr. cbn [path newAppStore] in Hr. unfold Load. cbn [path newAppStore]. rewrite Hr. cbv beta iota.
  destruct (load_data (entries s) Hs Hv) as (l & -> & Hl). unfold set_entries. cbn [path newAppStore].
  rewrite Hl. f_equal. rewrite Hp in Hp'. cbn in Hp'. rewrite <- Hp'. by destruct s.
Qed.

(** However far a save gets, at every point of it the file holds either
    what it held before or the whole of the new text, and a save that reports
    an error has left it as it was. *)
Theorem save_is_atomic (s : appStore) (w : W) :
  let '(e, w', states) := save s w in
  Forall (λ x, ReadFile (path s) x = ReadFile (path s) w ∨ ReadFile (path s) x = Ok (data (entries s))) states ∧
  (e = None → ReadFile (path s) w' = Ok (data (entries s))) ∧
  (e ≠ None → ReadFile (path s) w' = ReadFile (path s) w).
Proof.
  pose proof (save_reads s w) as Hr.
  assert (Hlast : ∀ x, x = snd (fst (save s w)) → x ∈ snd (save s w)).
  { intros x ->. unfold save. destruct (MkdirAll _ _ _) as [[|] w1]; [cbn; rewrite !elem_of_cons; tauto|].
    destruct (WriteFile _ _ _ _) as [[|] w2]; [cbn; rewrite !elem_of_cons; tauto|]. destruct (Rename _ _ _) as [? w3]. cbn.
    rewrite !elem_of_cons. tauto. }
  destruct (save s w) as [[e w'] tr]. destruct Hr as [Hok Htr]. split_and!.
  - apply Forall_forall. intros x Hx. destruct (Htr x Hx) as [?|[_ ?]]; auto.
  - exact Hok.
  - intros He. destruct (Htr w') as [?|[? _]]; [by apply Hlast|done|done].
Qed.
End claims.

Definition aw_ops : list Mutation :=
  [MUpsert " com.a " "A" true; MUpsert "" "x" true; MUpsert "com.b" "B" true; MSetEnabled "com.a" false; MRemove "com.c"].
Definition aw_end : list (option StoreError) * appStore * gmap string string :=
  mutations aw_ops (newAppStore "/d/apps.json") (∅ : gmap string string).

Lemma survives_restart_witness :
  fst (fst aw_end) = [None; Some ErrEmptyID; None; None; None] ∧
  Load (newAppStore "/d/apps.json") (snd aw_end) = (None, snd (fst aw_end)).
Proof.
  split; [vm_compute; reflexivity|].
  apply (survives_restart "/d/apps.json" ∅ (snd aw_end) aw_ops (fst (fst aw_end)) (snd (fst aw_end))).
  - unfold aw_end. change (snd (Load (newAppStore "/d/apps.json") (∅ : gmap string string))) with (newAppStore "/d/apps.json").
    by destruct (mutations aw_ops (newAppStore "/d/apps.json") ∅) as [[? ?] ?].
  - vm_compute. reflexivity.
  - refine (bool_decide_unpack _ _). vm_compute. exact I.
Defined.

(** ** Two calls at once

    The lock is released before the file is written, so the calls of another
    connection can come between any two of these steps.  A thread holds the
    entries its [save] has copied. *)

Inductive thread :=
  | Mutate (id name : string) (enabled : bool)   (* before Upsert takes the lock *)
  | Copy                                         (* unlocked, before save takes it *)
  | Write (copied : gmap string ProxiedApp)
  | Replace
  | Done.

Record race := { r_entries : gmap string ProxiedApp; r_files : gmap string string; r_threads : list thread }.

Definition thread_step (p : string) (i : nat) (r : race) : race :=
  let at_ t m f := {| r_entries := m; r_files := f; r_threads := <[i := t]> (r_threads r) |} in
  match r_threads r !! i with
  | Some (Mutate id name en) => at_ Copy (upsert id name en (r_entries r)) (r_files r)
  | Some Copy => at_ (Write (r_entries r)) (r_entries r) (r_files r)
  | Some (Write m) => at_ Replace (r_entries r) (snd (WriteFile (p +:+ ".tmp") (data m) 420 (r_files r)))
  | Some Replace => at_ Done (r_entries r) (snd (Rename (p +:+ ".tmp") p (r_files r)))
  | _ => r
  end.

(** Both calls return without an error, and the file lacks the second's
    application. *)
Lemma save_race_loses_an_app :
  ∃ schedule, let r := foldl (λ r i, thread_step "/d/apps.json" i r)
      {| r_entries := ∅; r_files := ∅; r_threads := [Mutate "com.a" "A" true; Mutate "com.b" "B" true] |} schedule in
  r_threads r = [Done; Done] ∧ dom (r_entries r) = {["com.a"; "com.b"]} ∧
  dom (entries (snd (Load (newAppStore "/d/apps.json") (r_files r)))) = {["com.a"]}.
Proof.
  exists [0; 0; 1; 1; 1; 1; 0; 0]%nat. cbv zeta. split_and!; [by vm_compute|..];
    apply set_eq; intros x; vm_compute; naive_solver.
Qed.

End AppStore.
