(* ===== verification/Netext.v ===== *)
(** * Netext: the captured applications and their extension
    ([internal/netext])

    The controller keeps a set of bundle IDs and writes it, with the address
    of the local proxy, to the file the macOS extension reads; [apply] is the
    extension's side of that contract
    ([macos/Singctl/ProxyExtension/TransparentProxyProvider.swift]).  The
    availability probe is a state machine over its callers. *)

From S2P Require Import Prelude GoStr GoUtf8 GoNet GoUrl GoUrlFacts GoPath Registry Schema Link GoJson GoJsonData Store.
Import Json Data Store.

Local Open Scope string_scope.
Local Open Scope list_scope.

Module Netext.

Definition ExtensionID : string := "com.singctl.proxy.netext".
Definition AppGroup : string := "group.com.singctl.proxy".

(** ** The configuration the extension reads *)

(** [None] is a nil slice. *)
Record Config := { Targets : option (list string); SocksHost : string; SocksPort : Z }.

(** [append([]string(nil), l...)]: nil when there is nothing to append. *)
Definition append_nil (l : list string) : option (list string) := match l with [] => None | _ => Some l end.

Definition enc_targets (t : option (list string)) : json :=
  match t with None => JNull | Some l => JArr (map enc_string l) end.

Definition enc_config (c : Config) : json :=
  JObj [("targets", enc_targets (Targets c)); ("socksHost", enc_string (SocksHost c)); ("socksPort", enc_int (SocksPort c))].

Definition Marshal_ (c : Config) : string :=
  MarshalIndent (enc_config {| Targets := append_nil (sort_strings (match Targets c with Some l => l | None => [] end)); SocksHost := SocksHost c;
                               SocksPort := SocksPort c |}).

(** ** The set *)

Definition set_add (id : string) (s : gset string) : bool * gset string :=
  if String.eqb id "" || bool_decide (id ∈ s) then (false, s) else (true, {[id]} ∪ s).
Definition set_remove (id : string) (s : gset string) : bool * gset string :=
  if bool_decide (id ∈ s) then (true, s ∖ {[id]}) else (false, s).
Definition set_replace (ids : list string) : gset string := list_to_set (filter (λ id, id ≠ "") ids).
Definition set_list (s : gset string) : list string := sort_strings (elements s).

(** ** The controller *)

Record Controller := { ctargets : gset string; csocks : string; cport : Z; cfgPath : string }.

Definition with_targets (s : gset string) (c : Controller) : Controller := {|
  ctargets := s; csocks := csocks c; cport := cport c; cfgPath := cfgPath c |}.

(** [home] is [None] when it cannot be resolved. *)
Definition sharedConfigPath (home : option string) : string :=
  match home with
  | None | Some "" => ""
  | Some h => Path.JoinPath [h; "Library"; "Group Containers"; AppGroup; "config.json"]
  end.

Definition New (home : option string) (socksHost : string) (socksPort : Z) : Controller := {|
  ctargets := ∅; csocks := socksHost; cport := socksPort; cfgPath := sharedConfigPath home |}.

Inductive FlushError := NoConfigPath | MkdirFailed (e : FsError) | WriteFailed (e : FsError).

Section controller.
Context {W : Type} `{FS W}.
Implicit Types (c : Controller) (w : W).

(** What the file says for the set. *)
Definition config_text c : string :=
  Marshal_ {| Targets := Some (set_list (ctargets c)); SocksHost := csocks c; SocksPort := cport c |}.

Definition flushLocked c w : option FlushError * W :=
  if String.eqb (cfgPath c) "" then (Some NoConfigPath, w)
  else
    let '(e, w) := MkdirAll (Path.Dir (cfgPath c)) 493 w in
    match e with
    | Some e => (Some (MkdirFailed e), w)
    | None => let '(e, w) := WriteFile (cfgPath c) (config_text c) 420 w in (WriteFailed <$> e, w)
    end.

Definition AddTarget (id : string) c w : option FlushError * Controller * W :=
  let '(changed, s) := set_add id (ctargets c) in
  let c := with_targets s c in
  if changed then let '(e, w) := flushLocked c w in (e, c, w) else (None, c, w).

Definition RemoveTarget (id : string) c w : option FlushError * Controller * W :=
  let '(changed, s) := set_remove id (ctargets c) in
  let c := with_targets s c in
  if changed then let '(e, w) := flushLocked c w in (e, c, w) else (None, c, w).

Definition SetTargets (ids : list string) c w : option FlushError * Controller * W :=
  let c := with_targets (set_replace ids) c in
  let '(e, w) := flushLocked c w in (e, c, w).

Definition TargetList c : list string := set_list (ctargets c).
End controller.

(** ** The extension's side *)

Record Extension := { x_targets : gset string; x_host : string; x_port : Z }.

(** [dict["targets"] as? [String]] and its like: the value when it has the
    type, whatever it was otherwise. *)
Definition as_strings (v : json) : option (list string) :=
  match v with JArr vs => mapM (λ v, match v with JStr r => Some (unquote r) | _ => None end) vs | _ => None end.
Definition as_string (v : json) : option string := match v with JStr r => Some (unquote r) | _ => None end.
Definition as_int (v : json) : option Z := match v with JNum r => Atoi r | _ => None end.

Definition member (k : string) (ms : list (string * json)) : option json :=
  snd <$> (snd <$> list_find (λ m, unquote (fst m) = k) ms).

Definition apply (ms : list (string * json)) (x : Extension) : Extension := {|
  x_targets := match member "targets" ms ≫= as_strings with Some t => list_to_set t | None => x_targets x end;
  x_host := match member "socksHost" ms ≫= as_string with
            | Some h => if negb (String.eqb h "") then h else x_host x
            | None => x_host x end;
  x_port := match member "socksPort" ms ≫= as_int with
            | Some p => if ((0 <? p) && (p <? 65536))%Z then p else x_port x
            | None => x_port x end |}.

(** The file as it is read on every change; what is no object is ignored. *)
Definition loadConfigFile (text : string) (x : Extension) : Extension :=
  match Decode text with Some (JObj ms) => apply ms x | _ => x end.

Definition shouldCapture (appID : string) (x : Extension) : bool :=
  negb (String.eqb appID "") && bool_decide (appID ∈ x_targets x).

(** ** Bundles *)

(** Each turn goes one directory up. *)
Fixpoint plist_from (fuel : nat) (p : string) : string :=
  match fuel with
  | O => ""
  | S k =>
      if bool_decide (p ∈ ["/"; "."; ""]) then ""
      else if HasSuffix p ".app" then Path.JoinPath [p; "Contents"; "Info.plist"]
      else let parent := Path.Dir p in if String.eqb parent p then "" else plist_from k parent
  end.

Definition BundleInfoPlistPath (p : string) : string :=
  let p := Path.Clean p in plist_from (S (String.length p)) p.

Example plist_ex :
  (BundleInfoPlistPath <$> ["/Applications/Cursor.app"; "/Applications/Visual Studio Code.app/Contents/MacOS/Electron";
     "/usr/bin/curl"; ""; "/"; "../x"]) =
  ["/Applications/Cursor.app/Contents/Info.plist"; "/Applications/Visual Studio Code.app/Contents/Info.plist"; ""; ""; ""; ""].
Proof. vm_compute. reflexivity. Qed.

(** [defaults] stands for running [defaults read], [ps] for running [ps];
    [None] is a failed command. *)
Definition BundleID (defaults : string → option string) (path : string) : string :=
  let plist := BundleInfoPlistPath path in
  if String.eqb plist "" then ""
  else match defaults (TrimSuffix plist ".plist") with None => "" | Some out => TrimSpace out end.

Definition BundleIDForPID (defaults : string → option string) (ps : Z → option string) (pid : Z) : string :=
  if (pid <=? 0)%Z then ""
  else match ps pid with None => "" | Some out => BundleID defaults (TrimSpace out) end.

(** [probeExtension], on the output of [systemextensionsctl list]. *)
Definition probeExtension (out : option string) : bool :=
  match out with
  | None => false
  | Some out => existsb (λ line, Contains line ExtensionID && Contains line "activated enabled") (split_byte LF out)
  end.

(** ** The availability cache

    Callers of [Available] are numbered; what one call does under the mutex is
    one event, and so are the end of a probe, the return of a caller that
    waited for somebody else's probe, [Invalidate] and the passing of time. *)

Definition availTTL : Z := 5000000000.

Inductive Caller := Probing (flight : nat) (generation : Z) | Waiting (flight : nat).

(** [availAt] is [None] for the zero time; a flight is the channel the
    waiting callers receive from, closed when the probe is over. *)
Record Avail := {
  clock : Z; availAt : option Z; availCache : bool; availFlight : option nat; availGeneration : Z;
  callers : gmap nat Caller; closed : gset nat; nflights : nat }.

Inductive Event := Enter (c : nat) | Answer (c : nat) (v : bool) | Wake (c : nat) | Invalidates | Tick (d : Z).
Inductive Outcome := Returned (v : bool) | Joined | Probes | Silent | Disabled.

Definition avail0 : Avail := {|
  clock := 0; availAt := None; availCache := false; availFlight := None; availGeneration := 0;
  callers := ∅; closed := ∅; nflights := 0 |}.

Definition recent (now : Z) (at_ : option Z) : bool := match at_ with Some t => (now - t <? availTTL)%Z | None => false end.

(** Past the cached answer: join the probe that runs, or begin one. *)
Definition join_or_probe (c : nat) (s : Avail) : Outcome * Avail :=
  match availFlight s with
  | Some fl => (Joined, {|
      clock := clock s; availAt := availAt s; availCache := availCache s; availFlight := availFlight s;
      availGeneration := availGeneration s; callers := <[c := Waiting fl]> (callers s); closed := closed s;
      nflights := nflights s |})
  | None => (Probes, {|
      clock := clock s; availAt := availAt s; availCache := availCache s; availFlight := Some (nflights s);
      availGeneration := availGeneration s;
      callers := <[c := Probing (nflights s) (availGeneration s)]> (callers s); closed := closed s;
      nflights := S (nflights s) |})
  end.

Definition Available (c : nat) (s : Avail) : Outcome * Avail :=
  match callers s !! c with
  | Some _ => (Disabled, s)
  | None => if recent (clock s) (availAt s) then (Returned (availCache s), s) else join_or_probe c s
  end.

Definition probe_over (c : nat) (v : bool) (s : Avail) : Outcome * Avail :=
  match callers s !! c with
  | Some (Probing fl g) => (Returned v, {|
      clock := clock s; availAt := if (g =? availGeneration s)%Z then Some (clock s) else availAt s; availCache := v;
      availFlight := None; availGeneration := availGeneration s; callers := delete c (callers s);
      closed := {[fl]} ∪ closed s; nflights := nflights s |})
  | _ => (Disabled, s)
  end.

Definition flight_over (c : nat) (s : Avail) : Outcome * Avail :=
  match callers s !! c with
  | Some (Waiting fl) =>
      if bool_decide (fl ∈ closed s) then
        (Returned (availCache s), {|
          clock := clock s; availAt := availAt s; availCache := availCache s; availFlight := availFlight s;
          availGeneration := availGeneration s; callers := delete c (callers s); closed := closed s;
          nflights := nflights s |})
      else (Disabled, s)
  | _ => (Disabled, s)
  end.

Definition Cached (s : Avail) : bool := availCache s.

Definition Invalidate (s : Avail) : Avail := {|
  clock := clock s; availAt := None; availCache := availCache s; availFlight := availFlight s;
  availGeneration := ((availGeneration s + 1) mod 2 ^ 64)%Z; callers := callers s; closed := closed s;
  nflights := nflights s |}.

Definition avail_step (e : Event) (s : Avail) : Outcome * Avail :=
  match e with
  | Enter c => Available c s
  | Answer c v => probe_over c v s
  | Wake c => flight_over c s
  | Invalidates => (Silent, Invalidate s)
  | Tick d => (Silent, {|
      clock := (clock s + Z.max 0 d)%Z; availAt := availAt s; availCache := availCache s; availFlight := availFlight s;
      availGeneration := availGeneration s; callers := callers s; closed := closed s; nflights := nflights s |})
  end.

Fixpoint outcomes {A} (step : Event → A → Outcome * A) (es : list Event) (s : A) : list Outcome :=
  match es with [] => [] | e :: es => let '(o, s) := step e s in o :: outcomes step es s end.

(** What callers may rely on: the probe that runs (with whether no
    [Invalidate] came since it began), the last answer that is not out of
    date, and who waits for the running probe or has one to collect. *)
Record Promise := {
  p_now : Z; fresh : option (Z * bool); lastAnswer : bool; prober : option (nat * bool); waits : gset nat;
  released : gset nat }.

Definition promise0 : Promise := {|
  p_now := 0; fresh := None; lastAnswer := false; prober := None; waits := ∅; released := ∅ |}.

Definition busy (c : nat) (p : Promise) : bool :=
  bool_decide (fst <$> prober p = Some c) || bool_decide (c ∈ waits p) || bool_decide (c ∈ released p).

Definition promise_enter (c : nat) (p : Promise) : Outcome * Promise :=
  match prober p with
  | Some _ => (Joined, {|
      p_now := p_now p; fresh := fresh p; lastAnswer := lastAnswer p; prober := prober p; waits := {[c]} ∪ waits p;
      released := released p |})
  | None => (Probes, {|
      p_now := p_now p; fresh := fresh p; lastAnswer := lastAnswer p; prober := Some (c, true); waits := waits p;
      released := released p |})
  end.

Definition promise_step (e : Event) (p : Promise) : Outcome * Promise :=
  match e with
  | Enter c =>
      if busy c p then (Disabled, p)
      else match fresh p with
      | Some (t, v) => if (p_now p - t <? availTTL)%Z then (Returned v, p) else promise_enter c p
      | None => promise_enter c p
      end
  | Answer c v =>
      match prober p with
      | Some (c', since) =>
          if Nat.eqb c c' then (Returned v, {|
            p_now := p_now p; fresh := if since then Some (p_now p, v) else fresh p; lastAnswer := v; prober := None;
            waits := ∅; released := waits p ∪ released p |})
          else (Disabled, p)
      | None => (Disabled, p)
      end
  | Wake c =>
      if bool_decide (c ∈ released p) then (Returned (lastAnswer p), {|
        p_now := p_now p; fresh := fresh p; lastAnswer := lastAnswer p; prober := prober p; waits := waits p;
        released := released p ∖ {[c]} |})
      else (Disabled, p)
  | Invalidates => (Silent, {|
      p_now := p_now p; fresh := None; lastAnswer := lastAnswer p; prober := (λ q, (fst q, false)) <$> prober p;
      waits := waits p; released := released p |})
  | Tick d => (Silent, {|
      p_now := (p_now p + Z.max 0 d)%Z; fresh := fresh p; lastAnswer := lastAnswer p; prober := prober p;
      waits := waits p; released := released p |})
  end.

(** ** Facts *)

Lemma elem_of_set_replace id ids : id ∈ set_replace ids ↔ id ∈ ids ∧ id ≠ "".
Proof. unfold set_replace. rewrite elem_of_list_to_set, list_elem_of_filter. tauto. Qed.

Lemma elem_of_set_list id s : id ∈ set_list s ↔ id ∈ s.
Proof. unfold set_list. by rewrite elem_of_sort_strings, elem_of_elements. Qed.

Lemma set_list_sorted s : sort_strings (set_list s) = set_list s.
Proof. apply sort_strings_unique, sort_strings_perm. Qed.

(** Everything the controller writes is text in UTF-8. *)
Definition controller_valid (c : Controller) : Prop :=
  set_Forall (λ id, Utf8.valid id = true) (ctargets c) ∧ Utf8.valid (csocks c) = true.

Definition config_members (c : Controller) : list (string * json) :=
  [("targets", enc_targets (append_nil (set_list (ctargets c)))); ("socksHost", enc_string (csocks c));
   ("socksPort", enc_int (cport c))].

Lemma decode_config c : controller_valid c → Decode (config_text c) = Some (JObj (config_members c)).
Proof.
  intros [Ht Hs]. unfold config_text, Marshal_. cbn [Targets SocksHost SocksPort]. rewrite set_list_sorted.
  change (enc_config _) with (JObj (config_members c)). apply Decode_MarshalIndent.
  - apply wf_obj. unfold config_members. wf_members. apply wf_plain_member; [done|].
    assert (Forall (λ id, Utf8.valid id = true) (set_list (ctargets c))) as Hall.
    { apply Forall_forall. intros id Hid%elem_of_set_list. by apply Ht. }
    destruct (set_list (ctargets c)) as [|id ids]; [done|]. apply wf_arr, Forall_fmap.
    eapply Forall_impl; [exact Hall|]. intros. by apply wf_enc_string.
  - trans 2%nat; [|apply Nat.leb_le; by vm_compute]. apply depth_obj. repeat apply Forall_cons_2; try apply Forall_nil_2; cbn [snd]; try (cbn; lia).
    destruct (set_list (ctargets c)) as [|id ids]; [cbn; lia|]. apply depth_arr, Forall_forall.
    intros j (y & -> & _)%list_elem_of_fmap. cbn. lia.
Qed.

Lemma as_strings_enc l : Forall (λ id, Utf8.valid id = true) l → as_strings (JArr (map enc_string l)) = Some l.
Proof.
  intros Hl. cbn [as_strings]. apply mapM_Some_map. eapply Forall_impl; [exact Hl|]. intros s Hs. cbn.
  by rewrite unquote_quote_body.
Qed.

(** The cache and what it promises, after [n] calls of [Invalidate]. *)
Record avail_rel (n : Z) (s : Avail) (p : Promise) : Prop := {
  ar_n : (0 <= n)%Z;
  ar_gen : availGeneration s = n;
  ar_clock : clock s = p_now p;
  ar_at : availAt s = fst <$> fresh p;
  ar_cache : availCache s = lastAnswer p;
  ar_fresh : ∀ t v, fresh p = Some (t, v) → lastAnswer p = v;
  ar_stale : ∀ c, prober p = Some (c, false) → fresh p = None;
  ar_flight : availFlight s = None ↔ prober p = None;
  ar_prober : ∀ c since, prober p = Some (c, since) →
    ∃ fl g, callers s !! c = Some (Probing fl g) ∧ availFlight s = Some fl ∧ (g <= n)%Z ∧ (since = true ↔ g = n);
  ar_probing : ∀ c fl g, callers s !! c = Some (Probing fl g) → fst <$> prober p = Some c;
  ar_waiting : ∀ c fl, callers s !! c = Some (Waiting fl) →
    (fl ∈ closed s ∧ c ∈ released p) ∨ (availFlight s = Some fl ∧ c ∈ waits p);
  ar_waits : ∀ c, c ∈ waits p → ∃ fl, callers s !! c = Some (Waiting fl) ∧ availFlight s = Some fl;
  ar_released : ∀ c, c ∈ released p → ∃ fl, callers s !! c = Some (Waiting fl) ∧ fl ∈ closed s;
  ar_open : ∀ fl, availFlight s = Some fl → fl ∉ closed s ∧ (fl < nflights s)%nat;
  ar_closed : ∀ fl, fl ∈ closed s → (fl < nflights s)%nat
}.

Lemma avail_rel_init : avail_rel 0 avail0 promise0.
Proof. split; simpl; try done; try lia; intros; by set_solver. Qed.

Lemma avail_busy n s p c : avail_rel n s p → busy c p = bool_decide (is_Some (callers s !! c)).
Proof.
  intros R. apply eq_true_iff_eq. unfold busy. rewrite !orb_true_iff, !bool_decide_eq_true. split.
  - intros [[Hp|Hw]|Hr].
    + destruct (prober p) as [[c' b]|] eqn:Hpr; [|done]. injection Hp as <-.
      destruct (ar_prober _ _ _ R _ _ Hpr) as (fl & g & -> & _). by eexists.
    + destruct (ar_waits _ _ _ R _ Hw) as (fl & -> & _). by eexists.
    + destruct (ar_released _ _ _ R _ Hr) as (fl & -> & _). by eexists.
  - intros [[fl g|fl] Hc].
    + left. left. by eapply ar_probing.
    + destruct (ar_waiting _ _ _ R _ _ Hc) as [[_ ?]|[_ ?]]; [by right|left; by right].
Qed.

Ltac avail_lookup :=
  repeat match goal with
    | H : context [<[?i := _]> _ !! ?j] |- _ =>
        destruct (decide (i = j)) as [<-|?]; [rewrite lookup_insert_eq in H|rewrite lookup_insert_ne in H by done]
    | H : context [delete ?i _ !! ?j] |- _ =>
        destruct (decide (i = j)) as [<-|?]; [rewrite lookup_delete_eq in H|rewrite lookup_delete_ne in H by done]
    end.

Lemma other_caller {A} (m : gmap nat A) (c c' : nat) (x k : A) :
  m !! c = None → m !! c' = Some x → <[c := k]> m !! c' = Some x.
Proof. intros Hc Hc'. rewrite lookup_insert_ne; [done|]. intros ->. by rewrite Hc in Hc'. Qed.

Lemma join_sim n s p c : avail_rel n s p → callers s !! c = None →
  fst (join_or_probe c s) = fst (promise_enter c p) ∧ avail_rel n (snd (join_or_probe c s)) (snd (promise_enter c p)).
Proof.
  intros R Hc. unfold join_or_probe, promise_enter. pose proof (ar_flight _ _ _ R) as Hf.
  destruct (availFlight s) as [fl|] eqn:Hfl, (prober p) as [q|] eqn:Hp;
    try (exfalso; naive_solver); (split; [done|]); destruct R; split; cbn; try done;
    rewrite ?Hfl, ?Hp in *; try done.
  - intros c' b Hq. destruct (ar_prober0 c' b Hq) as (fl' & g & ? & ? & ?). exists fl', g. split; [|done].
    by apply other_caller.
  - intros c' fl' g Hc'. avail_lookup; [done|]. by eapply ar_probing0.
  - intros c' fl' Hc'. avail_lookup; [|].
    + injection Hc' as <-. right. split; [done|]. apply elem_of_union. left. by apply elem_of_singleton.
    + destruct (ar_waiting0 _ _ Hc') as [?|[? ?]]; [by left|right; split; [done|]]. apply elem_of_union. by right.
  - intros c' [->%elem_of_singleton|Hw]%elem_of_union; [exists fl; by rewrite lookup_insert_eq|].
    destruct (ar_waits0 _ Hw) as (fl' & ? & ?). exists fl'. split; [|done]. by apply other_caller.
  - intros c' Hr. destruct (ar_released0 _ Hr) as (fl' & ? & ?). exists fl'. split; [|done]. by apply other_caller.
  - intros c' b [= <- <-]. exists (nflights s), (availGeneration s). rewrite lookup_insert_eq.
    split_and!; try done; lia.
  - intros c' fl g Hc'. avail_lookup; [done|]. by apply ar_probing0 in Hc'.
  - intros c' fl Hc'. avail_lookup; [done|]. destruct (ar_waiting0 _ _ Hc') as [?|[? ?]]; [by left|done].
  - intros c' Hw. by destruct (ar_waits0 _ Hw) as (? & ? & ?).
  - intros c' Hr. destruct (ar_released0 _ Hr) as (fl' & ? & ?). exists fl'. split; [|done]. by apply other_caller.
  - intros fl [= <-]. split; [|lia]. intros Hcl. apply ar_closed0 in Hcl. lia.
  - intros fl Hcl. apply ar_closed0 in Hcl. lia.
Qed.

Lemma enter_sim n s p c : avail_rel n s p →
  fst (Available c s) = fst (promise_step (Enter c) p) ∧
  avail_rel n (snd (Available c s)) (snd (promise_step (Enter c) p)).
Proof.
  intros R. cbn [promise_step]. rewrite (avail_busy _ _ _ _ R). unfold Available, recent.
  destruct (callers s !! c) as [k|] eqn:Hc; [done|]. rewrite bool_decide_eq_false_2 by (by intros [??]).
  rewrite (ar_at _ _ _ R), (ar_clock _ _ _ R), (ar_cache _ _ _ R).
  destruct (fresh p) as [[t v]|] eqn:Hfr; cbn; [|by apply join_sim].
  destruct (_ <? _)%Z; [|by apply join_sim]. by rewrite (ar_fresh _ _ _ R _ _ Hfr).
Qed.

Lemma answer_sim n s p c v : avail_rel n s p →
  fst (probe_over c v s) = fst (promise_step (Answer c v) p) ∧
  avail_rel n (snd (probe_over c v s)) (snd (promise_step (Answer c v) p)).
Proof.
  intros R. cbn [promise_step]. unfold probe_over.
  destruct (callers s !! c) as [[fl g|fl]|] eqn:Hc.
  - pose proof (ar_probing _ _ _ R _ _ _ Hc) as Hp. destruct (prober p) as [[c' b]|] eqn:Hpr; [|done].
    injection Hp as ->. rewrite Nat.eqb_refl. split; [done|].
    destruct (ar_prober _ _ _ R _ _ Hpr) as (fl' & g' & Hc' & Hfl & Hg & Hb). rewrite Hc in Hc'. injection Hc' as <- <-.
    pose proof (ar_stale _ _ _ R c) as Hst. destruct R. split; cbn; try done.
    + destruct b, (Z.eqb_spec g (availGeneration s)); rewrite ?ar_clock0; try done; exfalso; naive_solver.
    + intros t v' Hf. destruct b; [by injection Hf|]. by rewrite Hst in Hf.
    + intros c' fl' g' Hc'. avail_lookup; [done|]. exfalso. apply ar_probing0 in Hc'. rewrite Hpr in Hc'. by injection Hc'.
    + intros c' fl' Hc'. avail_lookup; [done|]. left. rewrite !elem_of_union, elem_of_singleton.
      destruct (ar_waiting0 _ _ Hc') as [[? ?]|[Heq ?]]; [tauto|]. rewrite Hfl in Heq. injection Heq as <-. tauto.
    + intros c'. rewrite elem_of_union. intros Hw.
      assert (∃ fl', callers s !! c' = Some (Waiting fl') ∧ fl' ∈ {[fl]} ∪ closed s) as (fl' & Hl & ?).
      { destruct Hw as [Hw|Hw]; [apply ar_waits0 in Hw|apply ar_released0 in Hw]; destruct Hw as (fl' & ? & Hin);
          exists fl'; (split; [done|]); rewrite elem_of_union, elem_of_singleton; [|tauto].
        rewrite Hfl in Hin. injection Hin as <-. tauto. }
      exists fl'. split; [|done]. rewrite lookup_delete_ne; [done|]. intros <-. by rewrite Hc in Hl.
    + intros fl'. rewrite elem_of_union, elem_of_singleton. intros [->|?]; [by destruct (ar_open0 _ Hfl)|by apply ar_closed0].
  - destruct (prober p) as [[c' b]|] eqn:Hpr; [|done]. destruct (Nat.eqb_spec c c') as [<-|]; [|done]. exfalso.
    destruct (ar_prober _ _ _ R _ _ Hpr) as (? & ? & Hc' & _). by rewrite Hc in Hc'.
  - destruct (prober p) as [[c' b]|] eqn:Hpr; [|done]. destruct (Nat.eqb_spec c c') as [<-|]; [|done]. exfalso.
    destruct (ar_prober _ _ _ R _ _ Hpr) as (? & ? & Hc' & _). by rewrite Hc in Hc'.
Qed.

Lemma wake_sim n s p c : avail_rel n s p →
  fst (flight_over c s) = fst (promise_step (Wake c) p) ∧
  avail_rel n (snd (flight_over c s)) (snd (promise_step (Wake c) p)).
Proof.
  intros R. cbn [promise_step]. unfold flight_over.
  destruct (bool_decide_reflect (c ∈ released p)) as [Hr|Hr].
  - destruct (ar_released _ _ _ R _ Hr) as (fl & Hc & Hcl). rewrite Hc, bool_decide_eq_true_2 by done.
    split; [cbn; by rewrite (ar_cache _ _ _ R)|]. destruct R; split; cbn; try done.
    + intros c' b Hq. destruct (ar_prober0 _ _ Hq) as (fl' & g & Hl & ?). exists fl', g. split; [|done].
      rewrite lookup_delete_ne; [done|]. intros <-. by rewrite Hc in Hl.
    + intros c' fl' g Hc'. avail_lookup; [done|]. by eapply ar_probing0.
    + intros c' fl' Hc'. avail_lookup; [done|]. rewrite elem_of_difference, elem_of_singleton.
      destruct (ar_waiting0 _ _ Hc') as [[? ?]|?]; [left; split_and!; congruence|by right].
    + intros c' Hw. destruct (ar_waits0 _ Hw) as (fl' & Hl & Hop). exists fl'. split; [|done].
      rewrite lookup_delete_ne; [done|]. intros <-. rewrite Hc in Hl. injection Hl as <-.
      by destruct (ar_open0 _ Hop).
    + intros c'. rewrite elem_of_difference, elem_of_singleton. intros [Hr' Hne].
      destruct (ar_released0 _ Hr') as (fl' & ? & ?). exists fl'. by rewrite lookup_delete_ne.
  - destruct (callers s !! c) as [[|fl]|] eqn:Hc; [done| |done].
    rewrite bool_decide_eq_false_2; [done|]. intros Hcl.
    destruct (ar_waiting _ _ _ R _ _ Hc) as [[_ ?]|[Hop _]]; [done|]. by destruct (ar_open _ _ _ R _ Hop).
Qed.

Lemma invalidate_rel n s p : (n + 1 < 2 ^ 64)%Z → avail_rel n s p →
  avail_rel (n + 1) (Invalidate s) (snd (promise_step Invalidates p)).
Proof.
  intros Hn R. assert (∀ c b, (λ q : nat * bool, (fst q, false)) <$> prober p = Some (c, b) →
    b = false ∧ ∃ b', prober p = Some (c, b')) as Hq.
  { intros c b. destruct (prober p) as [[c' b']|]; [|done]. intros [= <- <-]. eauto. }
  destruct R; split; cbn; try done; try lia.
  - rewrite Z.mod_small; lia.
  - rewrite ar_flight0. destruct (prober p); naive_solver.
  - intros c b [-> [b' Hp]]%Hq. destruct (ar_prober0 _ _ Hp) as (fl & g & ? & ? & ? & _).
    exists fl, g. split_and!; try done; lia.
  - intros c fl g Hc%ar_probing0. destruct (prober p) as [[c' b']|]; [|done]. cbn in *. by injection Hc as <-.
Qed.

Lemma avail_step_sim n s p e : (n + 1 < 2 ^ 64)%Z → avail_rel n s p →
  fst (avail_step e s) = fst (promise_step e p) ∧
  ∃ n', (n' <= n + 1)%Z ∧ avail_rel n' (snd (avail_step e s)) (snd (promise_step e p)).
Proof.
  intros Hn R. destruct e as [c|c v|c| |d]; cbn [avail_step].
  - destruct (enter_sim n s p c R). split; [done|]. exists n. split; [lia|done].
  - destruct (answer_sim n s p c v R). split; [done|]. exists n. split; [lia|done].
  - destruct (wake_sim n s p c R). split; [done|]. exists n. split; [lia|done].
  - split; [done|]. exists (n + 1)%Z. split; [lia|]. by apply invalidate_rel.
  - split; [done|]. exists n. split; [lia|]. destruct R; split; cbn; try done. lia.
Qed.

Lemma avail_outcomes es : ∀ n s p, (n + Z.of_nat (length es) < 2 ^ 64)%Z → avail_rel n s p →
  outcomes avail_step es s = outcomes promise_step es p.
Proof.
  induction es as [|e es IH]; intros n s p Hn R; [done|]. cbn [outcomes length] in *.
  destruct (avail_step_sim n s p e) as (Ho & n' & Hn' & R'); [lia|done|].
  destruct (avail_step e s) as [o s'], (promise_step e p) as [o' p']. cbn in Ho, R'. subst o'. f_equal.
  apply (IH n'); [lia|done].
Qed.

(** C8: The availability cache keeps its promise whatever the callers do: a
    call returns at once exactly when the last answer of a probe that began
    after the last [Invalidate] is less than five seconds old, and returns that
    answer; otherwise it joins the one probe that may be running, or starts it;
    and everyone who joined returns once that probe is over, with its answer or
    a later one. *)
Theorem available_keeps_its_promise (es : list Event) : (Z.of_nat (length es) < 2 ^ 64)%Z →
  outcomes avail_step es avail0 = outcomes promise_step es promise0.
Proof. intros Hn. apply (avail_outcomes es 0); [lia|apply avail_rel_init]. Qed.

Example available_keeps_its_promise_witness :
  outcomes avail_step [Enter 1; Enter 2; Answer 1 true; Wake 2; Enter 3; Tick 6000000000; Enter 3] avail0 =
  [Probes; Joined; Returned true; Returned true; Returned true; Silent; Probes].
Proof. refine (eq_trans (available_keeps_its_promise _ _) _); [vm_compute; reflexivity|vm_compute; reflexivity]. Defined.

(** The call that comes next after [Invalidate] does not refresh the approval
    state when a probe was running: it joins that probe and returns what the
    approval was before. *)
Example invalidate_misses_the_running_probe :
  outcomes avail_step [Enter 1; Invalidates; Enter 2; Answer 1 false; Wake 2] avail0 =
  [Probes; Silent; Joined; Returned false; Returned false].
Proof. reflexivity. Qed.

(** What the extension captures after it reads the file is what the controller
    was told, whenever that is anything at all. *)
Lemma file_reaches_the_extension (c : Controller) (x : Extension) :
  controller_valid c → ctargets c ≠ ∅ → csocks c ≠ "" → (0 < cport c < 65536)%Z →
  let x' := loadConfigFile (config_text c) x in
  (∀ id, shouldCapture id x' = true ↔ id ∈ ctargets c ∧ id ≠ "") ∧ x_host x' = csocks c ∧ x_port x' = cport c.
Proof.
  intros Hv Hne Hsocks Hport. cbv zeta. unfold loadConfigFile. rewrite decode_config by done.
  unfold apply, config_members. destruct Hv as [Hv1 Hv2].
  assert (append_nil (set_list (ctargets c)) = Some (set_list (ctargets c))) as ->.
  { destruct (set_list (ctargets c)) as [|i l] eqn:Hl; [|done]. exfalso. apply Hne. apply set_eq. intros id.
    rewrite <- elem_of_set_list, Hl. set_solver. }
  change (member "targets" _) with (Some (JArr (map enc_string (set_list (ctargets c))))).
  change (member "socksHost" _) with (Some (enc_string (csocks c))).
  change (member "socksPort" _) with (Some (enc_int (cport c))). cbn [mbind option_bind].
  rewrite as_strings_enc by (apply Forall_forall; intros id Hid%elem_of_set_list; by apply Hv1).
  cbn [as_string enc_string]. rewrite unquote_quote_body by done. unfold enc_int. cbn [as_int].
  rewrite Atoi_Itoa by (unfold in_int64, int64_min, int64_max; rewrite (proj2 (Z.leb_le _ _)), (proj2 (Z.leb_le _ _)) by lia; by eexists).
  cbn [x_host x_port x_targets]. destruct (String.eqb_spec (csocks c) "") as [?|_]; [done|]. cbn [negb].
  rewrite (proj2 (Z.ltb_lt 0 (cport c))), (proj2 (Z.ltb_lt (cport c) 65536)) by lia. split; [|done]. intros id.
  unfold shouldCapture. cbn [x_targets]. rewrite andb_true_iff, negb_true_iff, String.eqb_neq, bool_decide_eq_true.
  rewrite elem_of_list_to_set, elem_of_set_list. tauto.
Qed.

(** The empty set is written as null, which the extension takes for a missing
    list: it goes on capturing what it captured, through the new address. *)
Lemma emptied_targets_stay_captured (c : Controller) (x : Extension) :
  Utf8.valid (csocks c) = true → ctargets c = ∅ →
  member "targets" (config_members c) = Some JNull ∧
  ∀ id, shouldCapture id (loadConfigFile (config_text c) x) = shouldCapture id x.
Proof.
  intros Hsocks He. assert (controller_valid c) as Hv by (split; [rewrite He; by apply set_Forall_empty|done]).
  unfold loadConfigFile. rewrite decode_config by done. unfold config_members. by rewrite He.
Qed.

Lemma flush_writes {W : Type} `{FSLaws W} (c : Controller) (w w' : W) :
  flushLocked c w = (None, w') → ReadFile (cfgPath c) w' = Ok (config_text c).
Proof.
  unfold flushLocked. destruct (String.eqb (cfgPath c) ""); [done|]. destruct (MkdirAll _ _ w) as [[e|] w1]; [done|].
  pose proof (write_reads (cfgPath c) (config_text c) 420 w1) as Hr.
  destruct (WriteFile _ _ _ w1) as [[e|] w2]; [done|]. intros [= <-]. by apply Hr.
Qed.

End Netext.
