(* ===== verification/Procproxy.v ===== *)
(** * Procproxy: routing single processes ([internal/procproxy])

    The environment and the command line of a launched child, the way an
    executable is found, and the two routers: the one that restarts processes
    with proxy variables, and the macOS one, which keeps the books of which
    process belongs to which application.  What the operating system answers
    (starting a process, [ps], signals, directories) is an argument. *)

From S2P Require Import Prelude GoStr GoUtf8 GoNet GoUrl GoPath Netext.

Local Open Scope string_scope.
Local Open Scope list_scope.

Module Procproxy.

(** ** Configuration *)

Record LaunchUser := { Uid : Z; Gid : Z; Name : string; Home : string }.

(** [Captures] tells whether there is a sink for the output. *)
Record Config := {
  SocksAddr : string; HTTPAddr : string; Gateway : string; Mark : Z; Table : Z; CgroupRoot : string;
  CgroupName : string; User : option LaunchUser; Captures : bool }.

Definition or_str (s d : string) : string := if String.eqb s "" then d else s.
Definition or_int (n d : Z) : Z := if (n =? 0)%Z then d else n.

Definition withDefaults (c : Config) : Config := {|
  SocksAddr := or_str (SocksAddr c) "127.0.0.1:1080"; HTTPAddr := or_str (HTTPAddr c) "127.0.0.1:2080";
  Gateway := or_str (Gateway c) "198.18.0.1"; Mark := or_int (Mark c) 457; Table := or_int (Table c) 457;
  CgroupRoot := or_str (CgroupRoot c) "/sys/fs/cgroup"; CgroupName := or_str (CgroupName c) "singctl-proxy";
  User := User c; Captures := Captures c |}.

(** ** Environments *)

Definition assign (k v : string) : string := k +:+ "=" +:+ v.
Definition env_key (kv : string) : string := match Cut kv "=" with Some (k, _) => k | None => kv end.

(** What a child reads: the last assignment to a variable counts. *)
Definition env_value (k kv : string) : option string :=
  match Cut kv "=" with Some (k', v) => if String.eqb k' k then Some v else None | None => None end.
Definition Getenv (env : list string) (k : string) : option string := last (omap (env_value k) env).

Definition sudoEnvVars : list string := ["SUDO_USER"; "SUDO_UID"; "SUDO_GID"; "SUDO_COMMAND"].

Definition overrides (u : LaunchUser) (k : string) : option string :=
  if String.eqb k "HOME" then Some (Home u)
  else if String.eqb k "USER" || String.eqb k "LOGNAME" then Some (Name u) else None.

Definition override_entry (u : LaunchUser) (kv : string) : option string :=
  let key := env_key kv in
  if bool_decide (key ∈ sudoEnvVars) then None
  else Some (match overrides u key with Some v => assign key v | None => kv end).

Definition missing_entry (env : list string) (u : LaunchUser) (key : string) : option string :=
  match overrides u key with
  | Some v => if negb (existsb (λ kv, String.eqb (env_key kv) key) env) && negb (String.eqb v "") then Some (assign key v) else None
  | None => None
  end.

(** [order] is the order in which Go walks the map of overrides. *)
Definition applyUserEnv (order : list string) (env : list string) (u : option LaunchUser) : list string :=
  match u with
  | None => env
  | Some u => omap (override_entry u) env ++ omap (missing_entry env u) order
  end.

Definition override_keys : list string := ["HOME"; "USER"; "LOGNAME"].

Definition mallocStackLoggingPrefix : string := "MallocStackLogging".
Definition stripMallocStackLogging (env : list string) : list string :=
  filter (λ kv, HasPrefix (env_key kv) mallocStackLoggingPrefix = false) env.

Definition proxyEnv (socksAddr httpAddr : string) : list string :=
  let httpURL := "http://" +:+ httpAddr in
  let socksURL := "socks5h://" +:+ socksAddr in
  ["HTTP_PROXY=" +:+ httpURL; "http_proxy=" +:+ httpURL; "HTTPS_PROXY=" +:+ httpURL; "https_proxy=" +:+ httpURL;
   "ALL_PROXY=" +:+ socksURL; "all_proxy=" +:+ socksURL].

(** ** Command lines *)

Section commands.
Context `{GoUnicode} `{GoFold}.

Definition chromiumApps : list string :=
  ["cursor"; "code"; "vscode"; "chrome"; "google chrome"; "chromium"; "brave"; "zen"; "electron"; "slack"; "discord"; "claude"].

Definition appLabel (arg : string) : string :=
  if String.eqb arg "" then ""
  else TrimSuffix (TrimSuffix (ToLower (Path.Base arg)) ".app") ".exe".

Definition is_chromium (arg : string) : bool := bool_decide (appLabel arg ∈ chromiumApps).
Definition names_proxy (a : string) : bool := String.eqb a "--proxy-server" || HasPrefix a "--proxy-server=".

Definition chromiumProxyArgs (argv : list string) (socksAddr : string) : list string :=
  match argv with
  | [] => argv
  | a0 :: args =>
      if String.eqb socksAddr "" then argv
      else if negb (is_chromium a0) then argv
      else if existsb names_proxy args then argv
      else argv ++ ["--proxy-server=socks5://" +:+ socksAddr]
  end.

Definition electronEnv (argv : list string) : list string :=
  match argv with
  | [] => []
  | a0 :: _ => if is_chromium a0 then ["NODE_USE_ENV_PROXY=1"] else []
  end.

(** ** Starting a process *)

Record Command := {
  Bin : string; Args : list string; Env : list string; Dir_ : option string; Credential : option (Z * Z); Piped : bool }.

Inductive Error :=
  | ErrEmpty
  | ErrNotFound (name : string)
  | ErrStart (e : string)
  | ErrInvalidPID
  | ErrReadArgv
  | ErrNoCommandLine
  | ErrRefusing
  | ErrSignal (e : string)
  | ErrExtensionUnavailable
  | ErrNoBundleID (pid : Z)
  | ErrLaunchedUncaptured (pid : Z).

(** [uint32(uid)] *)
Definition userSysProcAttr (uid gid : Z) : Z * Z := (uid mod 2 ^ 32, gid mod 2 ^ 32)%Z.

(** What a launch reads of its surroundings; a directory is its entries with
    whether each is a directory itself. *)
Record Host := {
  Darwin : bool; LookPath : string → option string; ReadDir : string → option (list (string * bool));
  UserHomeDir : option string; Environ : list string; Geteuid : Z; MapOrder : list string }.

Variable h : Host.

Definition MacBundleExe (appPath : string) : string :=
  let macos := Path.JoinPath [appPath; "Contents"; "MacOS"] in
  match ReadDir h macos with
  | None => ""
  | Some entries =>
      let base := TrimSuffix (Path.Base appPath) ".app" in
      let files := fst <$> filter (λ e, snd e = false) entries in
      match snd <$> list_find (λ n, EqualFold n base = true) files with
      | Some n => Path.JoinPath [macos; n]
      | None => match files with n :: _ => if String.eqb n "" then "" else Path.JoinPath [macos; n] | [] => "" end
      end
  end.

Fixpoint find_in (want : string) (dirs : list string) : string :=
  match dirs with
  | [] => ""
  | d :: dirs =>
      match ReadDir h d with
      | None => find_in want dirs
      | Some entries =>
          match snd <$> list_find (λ e, ToLower (fst e) = want) entries with
          | Some e => MacBundleExe (Path.JoinPath [d; fst e])
          | None => find_in want dirs
          end
      end
  end.

Definition findMacAppExe (name : string) : string :=
  let dirs := ["/Applications"; "/System/Applications"] ++
    match UserHomeDir h with Some home => [Path.JoinPath [home; "Applications"]] | None => [] end in
  let want := ToLower name in
  find_in (if HasSuffix want ".app" then want else want +:+ ".app") dirs.

Definition resolveExecutable (name : string) : result Error string :=
  if str_has "/" name then Ok name
  else match LookPath h name with
  | Some p => Ok p
  | None =>
      if Darwin h then
        let p := findMacAppExe name in if String.eqb p "" then Err (ErrNotFound name) else Ok p
      else Err (ErrNotFound name)
  end.

(** [user != nil && user.Uid > 0 && os.Geteuid() == 0] *)
Definition drops (user : option LaunchUser) : option LaunchUser :=
  match user with
  | Some u => if (0 <? Uid u)%Z && (Geteuid h =? 0)%Z then Some u else None
  | None => None
  end.

Definition child_env (extraEnv : list string) (user : option LaunchUser) : list string :=
  applyUserEnv (MapOrder h) (stripMallocStackLogging (Environ h) ++ extraEnv) (drops user).

(** The command [startProcess] starts. *)
Definition command (argv extraEnv : list string) (user : option LaunchUser) (sink : bool) : result Error Command :=
  match argv with
  | [] => Err ErrEmpty
  | a0 :: args =>
      let? bin := resolveExecutable a0 in
      Ok {| Bin := bin; Args := args; Env := child_env extraEnv user;
            Dir_ := match drops user with Some u => if String.eqb (Home u) "" then None else Some (Home u) | None => None end;
            Credential := match drops user with Some u => Some (userSysProcAttr (Uid u) (Gid u)) | None => None end;
            Piped := sink |}
  end.
End commands.

(** What the operating system does for the routers. *)
Class Processes (W : Type) := {
  Start : Command → W → result string Z * W;
  ps_args : Z → W → option string;
  ps_comm : Z → W → option string;
  defaults_read : string → W → option string;
  Signal : Z → W → option string * W
}.

Definition exitText (err : option string) : string :=
  match err with None => "[process exited]" | Some e => "[process exited: " +:+ e +:+ "]" end.

(** [splitSocksAddr] *)
Definition splitSocksAddr (addr : string) : string * Z :=
  match Url.SplitHostPort addr with
  | Err _ => ("127.0.0.1", 1080%Z)
  | Ok (host, portStr) =>
      match Atoi portStr with
      | None => (host, 1080%Z)
      | Some port => if (port <=? 0)%Z then (host, 1080%Z) else (host, port)
      end
  end.

(** ** The ordered set of processes *)

Definition pids_add (pid : Z) (l : list Z) : list Z := if bool_decide (pid ∈ l) then l else l ++ [pid].
Fixpoint pids_remove (pid : Z) (l : list Z) : list Z :=
  match l with [] => [] | p :: l => if (p =? pid)%Z then l else p :: pids_remove pid l end.

Section routers.
Context `{GoUnicode} `{GoFold} {W : Type} `{Processes W}.
Variables (h : Host) (cfg : Config).
Implicit Types (w : W).

Definition startProcess (argv extraEnv : list string) (user : option LaunchUser) (sink : bool) w : result Error Z * W :=
  match command h argv extraEnv user sink with
  | Err e => (Err e, w)
  | Ok c => let '(r, w) := Start c w in (match r with Ok pid => Ok pid | Err e => Err (ErrStart e) end, w)
  end.

Definition processArgv (pid : Z) w : option (list string) :=
  out ← ps_args pid w;
  let line := TrimSpace out in
  if String.eqb line "" then None else Some (Fields line).

Definition terminate (pid : Z) w : option Error * W :=
  if (pid <=? 0)%Z then (Some ErrRefusing, w)
  else let '(e, w) := Signal pid w in (ErrSignal <$> e, w).

(** [launch] works on the state [S] of a router. *)
Definition restartPID {S : Type} (launch : list string → S → W → result Error Z * S * W) (pid : Z) (s : S) w
    : result Error Z * S * W :=
  if (pid <=? 0)%Z then (Err ErrInvalidPID, s, w)
  else match processArgv pid w with
  | None => (Err ErrReadArgv, s, w)
  | Some [] => (Err ErrNoCommandLine, s, w)
  | Some argv => let '(_, w) := terminate pid w in launch argv s w
  end.

Definition only_error {A S : Type} (r : result Error A * S * W) : option Error * S * W :=
  let '(r, s, w) := r in (match r with Ok _ => None | Err e => Some e end, s, w).

(** *** The router that restarts processes *)

Definition env_Launch (argv : list string) (l : list Z) w : result Error Z * list Z * W :=
  let argv := chromiumProxyArgs argv (SocksAddr cfg) in
  let env := proxyEnv (SocksAddr cfg) (HTTPAddr cfg) ++ electronEnv argv in
  match argv with
  | [] => (Err ErrEmpty, l, w)
  | _ =>
      let '(r, w) := startProcess argv env (User cfg) (Captures cfg) w in
      match r with
      | Err e => (Err e, l, w)
      | Ok pid => (Ok pid, pids_add pid l, w)
      end
  end.

Definition env_RestartPID (pid : Z) (l : list Z) w : result Error Z * list Z * W := restartPID env_Launch pid l w.
Definition env_AddPID (pid : Z) (l : list Z) w : option Error * list Z * W := only_error (env_RestartPID pid l w).
Definition env_RemovePID (pid : Z) (l : list Z) w : option Error * list Z * W := (None, l, w).
Definition env_Unroute (pid : Z) (l : list Z) w : option Error * list Z * W :=
  let '(e, w) := terminate pid w in (e, pids_remove pid l, w).

(** *** The macOS router *)

Record darwinRouter := { byPID : gmap Z string; refs : gmap string Z }.
Definition newDarwinRouter : darwinRouter := {| byPID := ∅; refs := ∅ |}.

Definition ref_count (r : darwinRouter) (id : string) : Z := match refs r !! id with Some n => n | None => 0%Z end.

Definition register (pid : Z) (id : string) (r : darwinRouter) : darwinRouter :=
  match byPID r !! pid with
  | Some _ => r
  | None => {| byPID := <[pid := id]> (byPID r); refs := <[id := (ref_count r id + 1)%Z]> (refs r) |}
  end.

Definition deregister (pid : Z) (r : darwinRouter) : darwinRouter :=
  match byPID r !! pid with
  | None => r
  | Some id =>
      let n := (ref_count r id - 1)%Z in
      {| byPID := delete pid (byPID r); refs := if (n <=? 0)%Z then delete id (refs r) else <[id := n]> (refs r) |}
  end.

Definition bundle_of_path (path : string) w : string := Netext.BundleID (λ b, defaults_read b w) path.
Definition bundle_of_pid (pid : Z) w : string := Netext.BundleIDForPID (λ b, defaults_read b w) (λ p, ps_comm p w) pid.

(** [avail] is what the probe of the extension answers. *)
Definition AddPID (avail : bool) (pid : Z) (r : darwinRouter) w : option Error * darwinRouter :=
  if negb avail then (Some ErrExtensionUnavailable, r)
  else let id := bundle_of_pid pid w in
       if String.eqb id "" then (Some (ErrNoBundleID pid), r) else (None, register pid id r).

Definition Launch (avail : bool) (argv : list string) (r : darwinRouter) w : result Error Z * darwinRouter * W :=
  if negb avail then (Err ErrExtensionUnavailable, r, w)
  else match argv with
  | [] => (Err ErrEmpty, r, w)
  | a0 :: _ =>
      let '(res, w) := startProcess argv [] (User cfg) (Captures cfg) w in
      match res with
      | Err e => (Err e, r, w)
      | Ok pid =>
          let id := let id := bundle_of_path a0 w in if String.eqb id "" then bundle_of_pid pid w else id in
          if String.eqb id "" then (Err (ErrLaunchedUncaptured pid), r, w) else (Ok pid, register pid id r, w)
      end
  end.

Definition RestartPID (avail : bool) (pid : Z) (r : darwinRouter) w : result Error Z * darwinRouter :=
  let '(e, r) := AddPID avail pid r w in (match e with Some e => Err e | None => Ok pid end, r).

Definition Unroute (pid : Z) (r : darwinRouter) : darwinRouter := deregister pid r.
Definition RemovePID (pid : Z) (r : darwinRouter) : darwinRouter := deregister pid r.
Definition Kill (pid : Z) (r : darwinRouter) w : option Error * darwinRouter * W :=
  let '(e, w) := terminate pid w in (e, deregister pid r, w).

Definition ListRouted (r : darwinRouter) : list Z := merge_sort Z.le (elements (dom (byPID r))).
Definition PIDsForBundle (id : string) (r : darwinRouter) : list Z :=
  merge_sort Z.le (elements (dom (filter (λ kv, snd kv = id) (byPID r)))).
Definition RoutedBundleIDs (r : darwinRouter) : list string := sort_strings (elements (dom (refs r))).
Definition Cleanup (r : darwinRouter) : darwinRouter := newDarwinRouter.

(** One call of the router, by whom and however it ends. *)
Inductive Call :=
  | CAdd (avail : bool) (pid : Z)
  | CLaunch (avail : bool) (argv : list string)
  | CRestart (avail : bool) (pid : Z)
  | CUnroute (pid : Z)
  | CRemove (pid : Z)
  | CKill (pid : Z)
  | CCleanup.

Definition call (c : Call) (s : darwinRouter * W) : darwinRouter * W :=
  let '(r, w) := s in
  match c with
  | CAdd a pid => (snd (AddPID a pid r w), w)
  | CLaunch a argv => let '(_, r, w) := Launch a argv r w in (r, w)
  | CRestart a pid => (snd (RestartPID a pid r w), w)
  | CUnroute pid => (Unroute pid r, w)
  | CRemove pid => (RemovePID pid r, w)
  | CKill pid => let '(_, r, w) := Kill pid r w in (r, w)
  | CCleanup => (Cleanup r, w)
  end.
End routers.

(** ** Facts *)

Definition routed_of (m : gmap Z string) (id : string) : gmap Z string := filter (λ kv, snd kv = id) m.

(** The count of an application is the number of its processes. *)
Definition counted (r : darwinRouter) : Prop :=
  ∀ id, refs r !! id = let n := size (routed_of (byPID r) id) in if Nat.eqb n 0 then None else Some (Z.of_nat n).

Lemma counted_count r id : counted r → ref_count r id = Z.of_nat (size (routed_of (byPID r) id)).
Proof. intros Hr. unfold ref_count. rewrite Hr. cbv zeta. destruct (size _); [done|]. by cbn [Nat.eqb]. Qed.

Lemma size_routed_insert m pid (id id' : string) : m !! pid = None →
  size (routed_of (<[pid := id]> m) id') = if String.eqb id id' then S (size (routed_of m id')) else size (routed_of m id').
Proof.
  intros Hm. unfold routed_of. destruct (String.eqb_spec id id') as [->|Hne].
  - rewrite map_filter_insert_True by done. rewrite map_size_insert_None; [done|].
    apply map_lookup_filter_None. by left.
  - rewrite map_filter_insert_False by (cbn; congruence). by rewrite delete_id by done.
Qed.

Lemma size_routed_delete m pid (id id' : string) : m !! pid = Some id →
  size (routed_of (delete pid m) id') =
    if String.eqb id id' then pred (size (routed_of m id')) else size (routed_of m id').
Proof.
  intros Hm. unfold routed_of. rewrite map_filter_delete. rewrite map_size_delete.
  destruct (String.eqb_spec id id') as [->|Hne].
  - rewrite (map_lookup_filter_Some_2 _ _ pid id' Hm) by done. done.
  - rewrite (proj2 (map_lookup_filter_None _ m pid)); [done|]. right. intros x Hx. cbn. congruence.
Qed.

Lemma register_counted pid id r : counted r → counted (register pid id r).
Proof.
  intros Hr. unfold register. destruct (byPID r !! pid) eqn:Hp; [done|]. intros id'. cbn [refs byPID].
  rewrite size_routed_insert, counted_count by done. destruct (String.eqb_spec id id') as [<-|Hne].
  - rewrite lookup_insert_eq. cbn [Nat.eqb]. f_equal. lia.
  - rewrite lookup_insert_ne by done. apply Hr.
Qed.

Lemma deregister_counted pid r : counted r → counted (deregister pid r).
Proof.
  intros Hr. unfold deregister. destruct (byPID r !! pid) as [id|] eqn:Hp; [|done]. intros id'. cbn [refs byPID].
  rewrite size_routed_delete with (id := id), counted_count by done.
  assert (0 < size (routed_of (byPID r) id))%nat as Hpos.
  { apply Nat.neq_0_lt_0. intros Hz%map_size_empty_inv. unfold routed_of in Hz.
    pose proof (map_lookup_filter_Some_2 (λ kv, snd kv = id) _ pid id Hp eq_refl) as Hl. by rewrite Hz in Hl. }
  destruct (String.eqb_spec id id') as [<-|Hne].
  - destruct (Z.leb_spec (Z.of_nat (size (routed_of (byPID r) id)) - 1) 0).
    + rewrite lookup_delete_eq. by replace (size (routed_of (byPID r) id)) with 1%nat by lia.
    + rewrite lookup_insert_eq. cbv zeta. destruct (Nat.eqb_spec (pred (size (routed_of (byPID r) id))) 0); [lia|]. f_equal. lia.
  - destruct (_ <=? _)%Z; [rewrite lookup_delete_ne by done|rewrite lookup_insert_ne by done]; apply Hr.
Qed.

Lemma new_counted : counted newDarwinRouter.
Proof. intros id. reflexivity. Qed.

Lemma elem_of_ids r id : counted r → id ∈ RoutedBundleIDs r ↔ ∃ pid, byPID r !! pid = Some id.
Proof.
  intros Hr. unfold RoutedBundleIDs. rewrite elem_of_sort_strings, elem_of_elements, elem_of_dom, Hr. cbv zeta.
  destruct (Nat.eqb_spec (size (routed_of (byPID r) id)) 0) as [Hz|Hz].
  - split; [by intros []|]. intros [pid Hp]. apply map_size_empty_inv in Hz. unfold routed_of in Hz.
    pose proof (map_lookup_filter_Some_2 (λ kv, snd kv = id) _ pid id Hp eq_refl) as Hl. by rewrite Hz in Hl.
  - split; [|by eexists]. intros _. destruct (decide (routed_of (byPID r) id = ∅)) as [He|He]; [by rewrite He, map_size_empty in Hz|].
    apply map_choose in He as (pid & id' & [Hl Hid]%map_lookup_filter_Some). cbn in Hid. subst id'. by exists pid.
Qed.

Lemma elem_of_pids r id pid : pid ∈ PIDsForBundle id r ↔ byPID r !! pid = Some id.
Proof.
  unfold PIDsForBundle. rewrite merge_sort_Permutation, elem_of_elements, elem_of_dom. split.
  - intros [x [Hl Hid]%map_lookup_filter_Some]. cbn in Hid. by subst.
  - intros Hl. exists id. by apply map_lookup_filter_Some_2.
Qed.

Lemma pids_add_spec pid l : NoDup l → NoDup (pids_add pid l) ∧ ∀ p, p ∈ pids_add pid l ↔ p ∈ l ∨ p = pid.
Proof.
  intros Hl. unfold pids_add. destruct (bool_decide_reflect (pid ∈ l)) as [Hin|Hin].
  - split; [done|]. intros p. split; [by left|]. by intros [?| ->].
  - split.
    + apply NoDup_app. split_and!; [done| |apply NoDup_singleton]. intros x Hx ->%list_elem_of_singleton. done.
    + intros p. by rewrite elem_of_app, list_elem_of_singleton.
Qed.

Lemma pids_remove_spec pid l : NoDup l → NoDup (pids_remove pid l) ∧ ∀ p, p ∈ pids_remove pid l ↔ p ∈ l ∧ p ≠ pid.
Proof.
  induction l as [|q l IH]; cbn [pids_remove]; intros Hl.
  - split; [done|]. intros p. split; [by intros ?%not_elem_of_nil|by intros [?%not_elem_of_nil _]].
  - apply NoDup_cons in Hl as [Hq Hl]. destruct (IH Hl) as [IH1 IH2]. destruct (Z.eqb_spec q pid) as [->|Hne].
    + split; [done|]. intros p. rewrite elem_of_cons. split; [|naive_solver]. intros Hp. split; [by right|]. by intros ->.
    + split; [apply NoDup_cons; split; [rewrite IH2; naive_solver|done]|]. intros p. rewrite !elem_of_cons, IH2. naive_solver.
Qed.

(** *** What a child reads from its environment *)

Definition well_formed (kv : string) : Prop := is_Some (Cut kv "=").

Lemma Getenv_cons kv env k :
  Getenv (kv :: env) k = match Getenv env k with Some v => Some v | None => env_value k kv end.
Proof.
  unfold Getenv. cbn [omap list_omap]. destruct (env_value k kv) as [v|]; [|by destruct (last _)].
  rewrite last_cons. by destruct (last _).
Qed.

Lemma Getenv_app e1 e2 k : Getenv (e1 ++ e2) k = match Getenv e2 k with Some v => Some v | None => Getenv e1 k end.
Proof.
  induction e1 as [|kv e1 IH]; cbn [app]; [by destruct (Getenv e2 k)|]. rewrite !Getenv_cons, IH.
  by destruct (Getenv e2 k).
Qed.

Lemma env_value_key k kv v : env_value k kv = Some v → env_key kv = k.
Proof. unfold env_value, env_key. destruct (Cut kv "=") as [[k' v']|]; [|done]. by destruct (String.eqb_spec k' k). Qed.

Lemma env_value_some k kv : well_formed kv → env_key kv = k → is_Some (env_value k kv).
Proof. intros [[k' v] E]. unfold env_value, env_key. rewrite E. intros ->. rewrite String.eqb_refl. by eexists. Qed.

Lemma env_value_other k kv : env_key kv ≠ k → env_value k kv = None.
Proof. destruct (env_value k kv) eqn:E; [|done]. by apply env_value_key in E. Qed.

Lemma Getenv_strip env k : Getenv (stripMallocStackLogging env) k =
  if HasPrefix k mallocStackLoggingPrefix then None else Getenv env k.
Proof.
  unfold stripMallocStackLogging. induction env as [|kv env IH]; [by destruct (HasPrefix _ _)|].
  rewrite Getenv_cons. destruct (env_value k kv) as [v|] eqn:E.
  - pose proof (env_value_key _ _ _ E) as <-. rewrite filter_cons. case_decide as Hp; rewrite ?Getenv_cons, ?IH, ?E; rewrite ?Hp; [done|].
    destruct (HasPrefix _ _); done.
  - rewrite filter_cons. case_decide; rewrite ?Getenv_cons, IH; rewrite ?E; destruct (HasPrefix k _), (Getenv env k); done.
Qed.

Lemma seen_Getenv env k : Forall well_formed env →
  existsb (λ kv, String.eqb (env_key kv) k) env = match Getenv env k with Some _ => true | None => false end.
Proof.
  induction 1 as [|kv env Hkv _ IH]; [done|]. cbn [existsb]. rewrite Getenv_cons, IH.
  destruct (String.eqb_spec (env_key kv) k) as [He|He].
  - destruct (env_value_some _ _ Hkv He) as [v ->]. by destruct (Getenv env k).
  - rewrite env_value_other by done. by destruct (Getenv env k).
Qed.

Lemma override_key u k v : overrides u k = Some v → k ∈ override_keys.
Proof.
  unfold overrides, override_keys. rewrite !elem_of_cons.
  destruct (String.eqb_spec k "HOME"); [tauto|]. destruct (String.eqb_spec k "USER"); [tauto|].
  destruct (String.eqb_spec k "LOGNAME"); [tauto|done].
Qed.

Lemma assign_value k (v k' : string) : k ∈ override_keys → env_value k' (assign k v) = if String.eqb k k' then Some v else None.
Proof.
  unfold override_keys, env_value, assign. rewrite !elem_of_cons, elem_of_nil.
  by intros [->|[->|[->|[]]]].
Qed.

Lemma override_value u k kv :
  match override_entry u kv with Some kv' => env_value k kv' | None => None end =
  if bool_decide (k ∈ sudoEnvVars) then None
  else match overrides u k with
       | Some v => if String.eqb (env_key kv) k then Some v else None
       | None => env_value k kv end.
Proof.
  unfold override_entry. destruct (String.eqb_spec (env_key kv) k) as [->|Hne].
  - destruct (bool_decide (k ∈ sudoEnvVars)); [done|]. destruct (overrides u k) as [v|] eqn:E; [|done].
    rewrite assign_value by (by eapply override_key). by rewrite String.eqb_refl.
  - rewrite (env_value_other k kv) by done.
    assert (∀ v, overrides u (env_key kv) = Some v → env_value k (assign (env_key kv) v) = None) as Ho.
    { intros v Hv. rewrite assign_value by (by eapply override_key). by rewrite (proj2 (String.eqb_neq _ _)). }
    destruct (bool_decide (env_key kv ∈ sudoEnvVars)).
    + by destruct (bool_decide (k ∈ sudoEnvVars)), (overrides u k).
    + destruct (overrides u (env_key kv)) as [v|]; rewrite ?Ho, ?env_value_other by done;
        by destruct (bool_decide (k ∈ sudoEnvVars)), (overrides u k).
Qed.

Lemma Getenv_override u env k : Forall well_formed env → Getenv (omap (override_entry u) env) k =
  if bool_decide (k ∈ sudoEnvVars) then None
  else match overrides u k with
       | Some v => match Getenv env k with Some _ => Some v | None => None end
       | None => Getenv env k end.
Proof.
  induction 1 as [|kv env Hkv _ IH].
  - by destruct (bool_decide _), (overrides u k).
  - assert (Getenv (omap (override_entry u) (kv :: env)) k = match Getenv (omap (override_entry u) env) k with
      | Some v => Some v
      | None => match override_entry u kv with Some kv' => env_value k kv' | None => None end end) as ->.
    { cbn [omap list_omap]. destruct (override_entry u kv); [by rewrite Getenv_cons|by destruct (Getenv _ k)]. }
    rewrite IH, override_value, Getenv_cons. destruct (bool_decide _); [done|].
    destruct (overrides u k) as [v|], (Getenv env k); try done.
    destruct (String.eqb_spec (env_key kv) k) as [He|He].
    + by destruct (env_value_some _ _ Hkv He) as [? ->].
    + by rewrite env_value_other.
Qed.

Lemma Getenv_missing u env order k : NoDup order → Getenv (omap (missing_entry env u) order) k =
  if bool_decide (k ∈ order) then match missing_entry env u k with Some _ => overrides u k | None => None end else None.
Proof.
  assert (∀ key, match missing_entry env u key with Some kv => env_value k kv | None => None end =
    if String.eqb key k then match missing_entry env u k with Some _ => overrides u k | None => None end else None) as Hv.
  { intros key. unfold missing_entry. destruct (String.eqb_spec key k) as [->|Hne].
    - destruct (overrides u k) as [v|] eqn:E; [|done]. destruct (_ && _); [|done].
      rewrite assign_value by (by eapply override_key). by rewrite String.eqb_refl.
    - destruct (overrides u key) as [v|] eqn:E; [|done]. destruct (_ && _); [|done].
      rewrite assign_value by (by eapply override_key). by rewrite (proj2 (String.eqb_neq _ _)). }
  induction 1 as [|key order Hkey _ IH]; [done|].
  assert (Getenv (omap (missing_entry env u) (key :: order)) k = match Getenv (omap (missing_entry env u) order) k with
      | Some v => Some v
      | None => match missing_entry env u key with Some kv' => env_value k kv' | None => None end end) as ->.
  { cbn [omap list_omap]. destruct (missing_entry env u key); [by rewrite Getenv_cons|by destruct (Getenv _ k)]. }
  rewrite IH, Hv. destruct (String.eqb_spec key k) as [->|Hne].
  - rewrite (bool_decide_eq_false_2 _ Hkey), bool_decide_eq_true_2 by (by left). done.
  - rewrite (bool_decide_ext (k ∈ key :: order) (k ∈ order)) by (rewrite elem_of_cons; naive_solver).
    by destruct (if bool_decide _ then _ else _).
Qed.

(** What a variable is for the user a child is dropped to. *)
Definition user_value (u : LaunchUser) (k : string) (inherited : option string) : option string :=
  if bool_decide (k ∈ sudoEnvVars) then None
  else match overrides u k with
       | Some v => match inherited with Some _ => Some v | None => if String.eqb v "" then None else Some v end
       | None => inherited end.

Lemma applyUserEnv_value order env u k : Permutation order override_keys → Forall well_formed env →
  Getenv (applyUserEnv order env (Some u)) k = user_value u k (Getenv env k).
Proof.
  intros Hord Hwf. cbn [applyUserEnv]. rewrite Getenv_app, Getenv_override by done.
  assert (NoDup order) as Hnd by (rewrite Hord; refine (bool_decide_unpack _ _); by vm_compute).
  rewrite Getenv_missing by done. unfold user_value, missing_entry. rewrite seen_Getenv by done.
  destruct (overrides u k) as [v|] eqn:E.
  - pose proof (override_key _ _ _ E) as Hk. rewrite bool_decide_eq_true_2 by (by rewrite Hord).
    assert (bool_decide (k ∈ sudoEnvVars) = false) as ->.
    { unfold override_keys in Hk. rewrite !elem_of_cons, elem_of_nil in Hk. by destruct Hk as [->|[->|[->|[]]]]. }
    destruct (Getenv env k); [done|]. by destruct (String.eqb v "").
  - by destruct (bool_decide (k ∈ order)).
Qed.

Section child.
Context `{GoUnicode} `{GoFold}.

(** The variables a launch sets itself. *)
Definition proxy_value (cfg : Config) (chromium : bool) (k : string) : option string :=
  if bool_decide (k ∈ ["HTTP_PROXY"; "http_proxy"; "HTTPS_PROXY"; "https_proxy"]) then Some ("http://" +:+ HTTPAddr cfg)
  else if bool_decide (k ∈ ["ALL_PROXY"; "all_proxy"]) then Some ("socks5h://" +:+ SocksAddr cfg)
  else if chromium && String.eqb k "NODE_USE_ENV_PROXY" then Some "1" else None.

Definition set_env (cfg : Config) (chromium : bool) : list string :=
  proxyEnv (SocksAddr cfg) (HTTPAddr cfg) ++ if chromium then ["NODE_USE_ENV_PROXY=1"] else [].

Lemma Getenv_set cfg chromium k : Getenv (set_env cfg chromium) k = proxy_value cfg chromium k.
Proof.
  unfold set_env. rewrite Getenv_app. unfold proxyEnv. rewrite !Getenv_cons. unfold proxy_value.
  assert (∀ key v, key ∈ ["HTTP_PROXY"; "http_proxy"; "HTTPS_PROXY"; "https_proxy"; "ALL_PROXY"; "all_proxy"] →
    env_value k (key +:+ "=" +:+ v) = if String.eqb key k then Some v else None) as Hv.
  { intros key v. rewrite !elem_of_cons, elem_of_nil. by intros [->|[->|[->|[->|[->|[->|[]]]]]]]. }
  change (env_value k ("HTTP_PROXY=" +:+ ?v)) with (env_value k ("HTTP_PROXY" +:+ "=" +:+ v)).
  change (env_value k ("http_proxy=" +:+ ?v)) with (env_value k ("http_proxy" +:+ "=" +:+ v)).
  change (env_value k ("HTTPS_PROXY=" +:+ ?v)) with (env_value k ("HTTPS_PROXY" +:+ "=" +:+ v)).
  change (env_value k ("https_proxy=" +:+ ?v)) with (env_value k ("https_proxy" +:+ "=" +:+ v)).
  change (env_value k ("ALL_PROXY=" +:+ ?v)) with (env_value k ("ALL_PROXY" +:+ "=" +:+ v)).
  change (env_value k ("all_proxy=" +:+ ?v)) with (env_value k ("all_proxy" +:+ "=" +:+ v)).
  rewrite !Hv by (rewrite !elem_of_cons; tauto).
  assert (Getenv (if chromium then ["NODE_USE_ENV_PROXY=1"] else []) k =
    if chromium && String.eqb k "NODE_USE_ENV_PROXY" then Some "1" else None) as ->.
  { destruct chromium; [|done]. rewrite Getenv_cons. cbn [Getenv omap list_omap last andb].
    unfold env_value. change (Cut _ _) with (Some ("NODE_USE_ENV_PROXY", "1")). by rewrite String.eqb_sym. }
  repeat match goal with |- context [String.eqb ?a k] =>
    destruct (String.eqb_spec a k) as [<-|?]; [by destruct chromium|] end.
  rewrite !bool_decide_eq_false_2; [by destruct (_ && _)| |];
    rewrite !elem_of_cons, elem_of_nil; intuition congruence.
Qed.

Lemma set_wf cfg chromium : Forall well_formed (set_env cfg chromium).
Proof. unfold set_env. destruct chromium; cbn [app proxyEnv]; repeat apply Forall_cons_2; try apply Forall_nil_2; by eexists. Qed.

Lemma user_value_set cfg chromium u k v o : proxy_value cfg chromium k = Some v → user_value u k o = o.
Proof.
  unfold proxy_value, user_value. intros Hv.
  assert (k ∈ ["HTTP_PROXY"; "http_proxy"; "HTTPS_PROXY"; "https_proxy"; "ALL_PROXY"; "all_proxy"; "NODE_USE_ENV_PROXY"]) as Hk.
  { rewrite !elem_of_cons. destruct (bool_decide_reflect (k ∈ ["HTTP_PROXY"; "http_proxy"; "HTTPS_PROXY"; "https_proxy"])) as [Hk|_].
    { rewrite !elem_of_cons in Hk. tauto. }
    destruct (bool_decide_reflect (k ∈ ["ALL_PROXY"; "all_proxy"])) as [Hk|_]; [rewrite !elem_of_cons in Hk; tauto|].
    destruct chromium, (String.eqb_spec k "NODE_USE_ENV_PROXY"); try done. subst. tauto. }
  rewrite !elem_of_cons, elem_of_nil in Hk. by destruct Hk as [->|[->|[->|[->|[->|[->|[->|[]]]]]]]].
Qed.

Definition chromium_argv (argv : list string) : bool := match argv with a0 :: _ => is_chromium a0 | [] => false end.

Lemma chromiumProxyArgs_head argv socks : chromium_argv (chromiumProxyArgs argv socks) = chromium_argv argv.
Proof. unfold chromiumProxyArgs. destruct argv; [done|]. by repeat case_match. Qed.

Lemma electronEnv_eq argv : electronEnv argv = if chromium_argv argv then ["NODE_USE_ENV_PROXY=1"] else [].
Proof. by destruct argv. Qed.

(** A child the fallback router launches gets the proxy and the session of
    its user: every proxy variable has the router's address whatever was
    inherited, a Chromium application also gets the flag (its own, if it was
    given one) and the variable that makes Node use the proxy, nothing of
    sudo's or of malloc's logging is inherited when it is dropped to a user,
    whose HOME, USER and LOGNAME it sees, and every other variable is the
    inherited one. *)
Theorem launched_child_environment (h : Host) (cfg : Config) (argv : list string) (c : Command) :
  let argv' := chromiumProxyArgs argv (SocksAddr cfg) in
  command h argv' (proxyEnv (SocksAddr cfg) (HTTPAddr cfg) ++ electronEnv argv') (User cfg) (Captures cfg) = Ok c →
  Permutation (MapOrder h) override_keys → Forall well_formed (Environ h) → SocksAddr cfg ≠ "" →
  (∀ k, Getenv (Env c) k =
    match proxy_value cfg (chromium_argv argv) k with
    | Some v => Some v
    | None =>
        let inherited := if HasPrefix k mallocStackLoggingPrefix then None else Getenv (Environ h) k in
        match drops h (User cfg) with Some u => user_value u k inherited | None => inherited end
    end) ∧
  (chromium_argv argv = true → existsb names_proxy (Args c) = true).
Proof.
  cbv zeta. intros Hc Hord Hwf Hsocks. rewrite electronEnv_eq, chromiumProxyArgs_head in Hc.
  change (proxyEnv _ _ ++ _) with (set_env cfg (chromium_argv argv)) in Hc. unfold command in Hc.
  destruct (chromiumProxyArgs argv (SocksAddr cfg)) as [|a0 args] eqn:Ha; [done|].
  destruct (resolveExecutable h a0) as [bin|e]; [|done]. cbn [rbind] in Hc. injection Hc as <-. cbn [Env Args].
  split.
  - intros k. unfold child_env.
    assert (Getenv (stripMallocStackLogging (Environ h) ++ set_env cfg (chromium_argv argv)) k =
      match proxy_value cfg (chromium_argv argv) k with Some v => Some v
      | None => if HasPrefix k mallocStackLoggingPrefix then None else Getenv (Environ h) k end) as Hg.
    { by rewrite Getenv_app, Getenv_set, Getenv_strip. }
    destruct (drops h (User cfg)) as [u|]; [|exact Hg].
    rewrite applyUserEnv_value, Hg; [|done|].
    + destruct (proxy_value _ _ k) as [v|] eqn:Hv; [|done]. by rewrite (user_value_set _ _ u _ _ (Some v) Hv).
    + apply Forall_app. split; [|apply set_wf]. apply Forall_forall.
      intros kv [_ Hkv]%list_elem_of_filter. by apply (proj1 (Forall_forall _ _) Hwf).
  - intros Hch. unfold chromiumProxyArgs in Ha. destruct argv as [|b0 bargs]; [done|]. cbn [chromium_argv] in Hch.
    rewrite (proj2 (String.eqb_neq _ _) Hsocks), Hch in Ha. cbn [negb] in Ha.
    destruct (existsb names_proxy bargs) eqn:Hb; injection Ha as _ <-; [done|].
    rewrite existsb_app. apply orb_true_iff. right. reflexivity.
Qed.
End child.

Definition exact_fold : GoFold := {| fold_unicode := String.eqb |}.
Definition ex_user : LaunchUser := {| Uid := 501; Gid := 20; Name := "ann"; Home := "/Users/ann" |}.
Definition ex_host : Host := {|
  Darwin := true; LookPath := λ _, None; ReadDir := λ _, None; UserHomeDir := Some "/var/root";
  Environ := ["HOME=/var/root"; "PATH=/bin"; "SUDO_UID=501"; "http_proxy=http://old"; "MallocStackLogging=1"];
  Geteuid := 0; MapOrder := ["LOGNAME"; "USER"; "HOME"] |}.
Definition ex_cfg : Config := withDefaults {|
  SocksAddr := ""; HTTPAddr := ""; Gateway := ""; Mark := 0; Table := 0; CgroupRoot := ""; CgroupName := "";
  User := Some ex_user; Captures := false |}.
Definition ex_argv : list string := ["/Applications/Cursor.app/Contents/MacOS/Cursor"; "--wait"].

Definition ex_child : Command := {|
  Bin := "/Applications/Cursor.app/Contents/MacOS/Cursor"; Args := ["--wait"; "--proxy-server=socks5://127.0.0.1:1080"];
  Env := ["HOME=/Users/ann"; "PATH=/bin"; "http_proxy=http://old"; "HTTP_PROXY=http://127.0.0.1:2080";
          "http_proxy=http://127.0.0.1:2080"; "HTTPS_PROXY=http://127.0.0.1:2080"; "https_proxy=http://127.0.0.1:2080";
          "ALL_PROXY=socks5h://127.0.0.1:1080"; "all_proxy=socks5h://127.0.0.1:1080"; "NODE_USE_ENV_PROXY=1";
          "LOGNAME=ann"; "USER=ann"];
  Dir_ := Some "/Users/ann"; Credential := Some (501, 20)%Z; Piped := false |}.

Lemma launched_child_environment_witness :
  Getenv (Env ex_child) "http_proxy" = Some "http://127.0.0.1:2080" ∧ Getenv (Env ex_child) "USER" = Some "ann" ∧
  Getenv (Env ex_child) "SUDO_UID" = None ∧ existsb names_proxy (Args ex_child) = true.
Proof.
  refine (match @launched_child_environment ascii_only exact_fold ex_host ex_cfg ex_argv ex_child _ _ _ _ with
    | conj He Hch => conj (He "http_proxy") (conj (He "USER") (conj (He "SUDO_UID") (Hch _))) end).
  - vm_compute. reflexivity.
  - exact (Permutation_trans (perm_swap _ _ _) (Permutation_trans (perm_skip _ (perm_swap _ _ _)) (Permutation_trans (perm_swap _ _ _) (perm_skip _ (Permutation_refl _))))).
  - repeat apply Forall_cons_2; try apply Forall_nil_2; by eexists.
  - discriminate.
  - reflexivity.
Defined.

Section books.
Context `{GoUnicode} `{GoFold} {W : Type} `{Processes W}.

Lemma call_counted h cfg c r (w : W) : counted r → counted (fst (call h cfg c (r, w))).
Proof.
  intros Hr. destruct c as [a pid|a argv|a pid|pid|pid|pid|]; cbn [call].
  - unfold AddPID. repeat case_match; cbn; eauto using register_counted.
  - unfold Launch. repeat (case_match; simplify_eq/=); eauto using register_counted.
  - unfold RestartPID, AddPID. repeat (case_match; simplify_eq/=); eauto using register_counted.
  - by apply deregister_counted.
  - by apply deregister_counted.
  - unfold Kill. destruct (terminate pid w). by apply deregister_counted.
  - apply new_counted.
Qed.

Lemma calls_counted h cfg cs : ∀ s : darwinRouter * W, counted (fst s) → counted (fst (foldl (λ s c, call h cfg c s) s cs)).
Proof. induction cs as [|c cs IH]; intros [r w] Hr; [done|]. apply IH. by apply call_counted. Qed.

(** C9: The books of the macOS router balance after any calls, however each of
    them ends: the count of an application is the number of its routed
    processes, the applications listed are, once each, those with a process,
    and every routed process belongs to exactly one of them. *)
Theorem router_books_balance (h : Host) (cfg : Config) (cs : list Call) (w : W) :
  let r := fst (foldl (λ s c, call h cfg c s) (newDarwinRouter, w) cs) in
  (∀ id, ref_count r id = Z.of_nat (length (PIDsForBundle id r))) ∧
  NoDup (RoutedBundleIDs r) ∧ (∀ id, id ∈ RoutedBundleIDs r ↔ PIDsForBundle id r ≠ []) ∧
  (∀ pid, pid ∈ ListRouted r ↔ ∃ id, pid ∈ PIDsForBundle id r) ∧
  (∀ pid id id', pid ∈ PIDsForBundle id r → pid ∈ PIDsForBundle id' r → id = id').
Proof.
  intros r. assert (counted r) as Hr by (apply calls_counted, new_counted). split_and!.
  - intros id. rewrite counted_count by done. f_equal. unfold PIDsForBundle. rewrite merge_sort_Permutation.
    change (length (elements ?X)) with (size X). by rewrite size_dom.
  - unfold RoutedBundleIDs. rewrite sort_strings_perm. apply NoDup_elements.
  - intros id. rewrite elem_of_ids by done. setoid_rewrite <- elem_of_pids.
    split; [intros [pid Hp] He; rewrite He in Hp; by apply not_elem_of_nil in Hp|].
    destruct (PIDsForBundle id r) as [|pid l]; [done|]. intros _. exists pid. by left.
  - intros pid. unfold ListRouted. rewrite merge_sort_Permutation, elem_of_elements, elem_of_dom.
    setoid_rewrite elem_of_pids. split; [intros [id ?]|intros [id ?]]; by exists id.
  - intros pid id id'. rewrite !elem_of_pids. congruence.
Qed.

(** The number of a process that has ended is given to another application,
    which is added with success and not routed. *)
Lemma reused_pid_is_not_routed pid a b r : byPID r !! pid = None → a ≠ b → counted r → routed_of (byPID r) b = ∅ →
  b ∉ RoutedBundleIDs (register pid b (register pid a r)).
Proof.
  intros Hp Hab Hr Hb. rewrite elem_of_ids by by apply register_counted, register_counted.
  intros [p Hl]. unfold register in Hl. rewrite Hp in Hl. cbn [byPID] in Hl. rewrite lookup_insert_eq in Hl. cbn [byPID] in Hl.
  destruct (decide (p = pid)) as [->|Hne]; [rewrite lookup_insert_eq in Hl; congruence|].
  rewrite lookup_insert_ne in Hl by done.
  pose proof (map_lookup_filter_Some_2 (λ kv, snd kv = b) _ p b Hl eq_refl) as Hf. unfold routed_of in Hb. by rewrite Hb in Hf.
Qed.
End books.

End Procproxy.
