(* ===== verification/Apps.v ===== *)
(** * Apps: whole-application proxying ([internal/app/executor.go])

    The part of the executor that decides which applications the extension
    captures: it joins the stored applications that are enabled with those the
    router has a process of.  The router is an interface, [Router], with the
    promise its books keep; the macOS router is its instance. *)

From S2P Require Import Prelude GoStr GoUtf8 GoNet GoUrl GoPath Registry Schema Link GoJson GoJsonData Store Proclist AppStore Netext Procproxy.
Import Json Data Store Proclist.

Local Open Scope string_scope.
Local Open Scope list_scope.

(** ** Routers *)

Class Router (R W : Type) := {
  NewRouter : Procproxy.Config → R;
  router_AddPID : Z → R → W → option Procproxy.Error * R * W;
  router_Unroute : Z → R → W → option Procproxy.Error * R * W;
  router_Kill : Z → R → W → option Procproxy.Error * R * W;
  router_Launch : list string → R → W → result Procproxy.Error Z * R * W;
  router_RestartPID : Z → R → W → result Procproxy.Error Z * R * W;
  router_ListRouted : R → list Z;
  router_PIDsForBundle : string → R → list Z;
  router_RoutedBundleIDs : R → list string
}.

(** What the executor relies on: there are books, [routed], and the calls
    keep them; no application has an empty name. *)
Class RouterLaws (R W : Type) `{Router R W} := {
  router_ok : R → Prop;
  routed : R → gmap Z string;
  new_router c : router_ok (NewRouter c) ∧ routed (NewRouter c) = ∅;
  add_router pid r w : router_ok r → let '(e, r', _) := router_AddPID pid r w in
    router_ok r' ∧ routed r ⊆ routed r' ∧ (e = None → is_Some (routed r' !! pid));
  launch_router argv r w : router_ok r → let '(e, r', _) := router_Launch argv r w in
    router_ok r' ∧ routed r ⊆ routed r' ∧ (∀ pid, e = Ok pid → is_Some (routed r' !! pid));
  restart_router pid r w : router_ok r → let '(_, r', _) := router_RestartPID pid r w in
    router_ok r' ∧ routed r ⊆ routed r';
  unroute_router pid r w : router_ok r → let '(_, r', _) := router_Unroute pid r w in
    router_ok r' ∧ routed r' = delete pid (routed r);
  kill_router pid r w : router_ok r → let '(_, r', _) := router_Kill pid r w in
    router_ok r' ∧ routed r' = delete pid (routed r);
  pids_router id r pid : pid ∈ router_PIDsForBundle id r ↔ routed r !! pid = Some id;
  ids_router r id : router_ok r → id ∈ router_RoutedBundleIDs r ↔ ∃ pid, routed r !! pid = Some id;
  routed_named r : router_ok r → map_Forall (λ _ id, id ≠ "") (routed r)
}.

(** What the extension's probe answers, and where it leaves the world. *)
Class Extends (W : Type) := { ext_available : W → bool * W }.

Section darwin.
Context `{GoUnicode} `{GoFold} {W : Type} `{Procproxy.Processes W} `{Extends W} (h : Procproxy.Host).

Record Darwin := { d_cfg : Procproxy.Config; d_books : Procproxy.darwinRouter }.
Definition with_books (r : Darwin) (b : Procproxy.darwinRouter) : Darwin := {| d_cfg := d_cfg r; d_books := b |}.

#[export] Instance darwin_Router : Router Darwin W := {|
  NewRouter := λ c, {| d_cfg := Procproxy.withDefaults c; d_books := Procproxy.newDarwinRouter |};
  router_AddPID := λ pid r w, let '(a, w) := ext_available w in
    let '(e, b) := Procproxy.AddPID a pid (d_books r) w in (e, with_books r b, w);
  router_Unroute := λ pid r w, (None, with_books r (Procproxy.Unroute pid (d_books r)), w);
  router_Kill := λ pid r w, let '(e, b, w) := Procproxy.Kill pid (d_books r) w in (e, with_books r b, w);
  router_Launch := λ argv r w, let '(a, w) := ext_available w in
    let '(e, b, w) := Procproxy.Launch h (d_cfg r) a argv (d_books r) w in (e, with_books r b, w);
  router_RestartPID := λ pid r w, let '(a, w) := ext_available w in
    let '(e, b) := Procproxy.RestartPID a pid (d_books r) w in (e, with_books r b, w);
  router_ListRouted := λ r, Procproxy.ListRouted (d_books r);
  router_PIDsForBundle := λ id r, Procproxy.PIDsForBundle id (d_books r);
  router_RoutedBundleIDs := λ r, Procproxy.RoutedBundleIDs (d_books r) |}.

Definition books_ok (b : Procproxy.darwinRouter) : Prop :=
  Procproxy.counted b ∧ map_Forall (λ _ id, id ≠ "") (Procproxy.byPID b).

Lemma register_ok pid id b : id ≠ "" → books_ok b → let b' := Procproxy.register pid id b in
  books_ok b' ∧ Procproxy.byPID b ⊆ Procproxy.byPID b' ∧ is_Some (Procproxy.byPID b' !! pid).
Proof.
  intros Hid [Hc Hn]. split_and!.
  - split; [by apply Procproxy.register_counted|]. unfold Procproxy.register. case_match; [done|].
    by apply map_Forall_insert_2.
  - unfold Procproxy.register. case_match; [done|]. by apply insert_subseteq.
  - unfold Procproxy.register. destruct (Procproxy.byPID b !! pid) eqn:E; [by rewrite E|]. cbn. by rewrite lookup_insert_eq.
Qed.

Lemma deregister_ok pid b : books_ok b → books_ok (Procproxy.deregister pid b) ∧
  Procproxy.byPID (Procproxy.deregister pid b) = delete pid (Procproxy.byPID b).
Proof.
  intros [Hc Hn]. assert (Procproxy.byPID (Procproxy.deregister pid b) = delete pid (Procproxy.byPID b)) as He.
  { unfold Procproxy.deregister. destruct (Procproxy.byPID b !! pid) eqn:E; [done|]. by rewrite delete_id. }
  split; [|done]. split; [by apply Procproxy.deregister_counted|]. rewrite He. by apply map_Forall_delete.
Qed.

Lemma darwin_add a pid b (w : W) : books_ok b → let '(e, b') := Procproxy.AddPID a pid b w in
  books_ok b' ∧ Procproxy.byPID b ⊆ Procproxy.byPID b' ∧ (e = None → is_Some (Procproxy.byPID b' !! pid)).
Proof.
  intros Hb. unfold Procproxy.AddPID. destruct (negb a); [done|].
  destruct (String.eqb_spec (Procproxy.bundle_of_pid pid w) "") as [?|Hid]; [done|].
  destruct (register_ok pid _ b Hid Hb) as (? & ? & ?). done.
Qed.

#[export] Instance darwin_RouterLaws : RouterLaws Darwin W.
Proof.
  refine {| router_ok := λ r, books_ok (d_books r); routed := λ r, Procproxy.byPID (d_books r) |}.
  - intros c. split; [split; [apply Procproxy.new_counted|apply map_Forall_empty]|done].
  - intros pid r w Hr. cbn. destruct (ext_available w) as [a w1]. pose proof (darwin_add a pid (d_books r) w1 Hr) as Ha.
    by destruct (Procproxy.AddPID a pid (d_books r) w1).
  - intros argv r w Hr. cbn. destruct (ext_available w) as [a w1]. unfold Procproxy.Launch.
    destruct (negb a); [done|]. destruct argv as [|a0 argv]; [done|].
    destruct (Procproxy.startProcess _ _ _ _ _ w1) as [[pid|e] w2]; [|done]. cbv zeta.
    set (id := if String.eqb (Procproxy.bundle_of_path a0 w2) "" then Procproxy.bundle_of_pid pid w2
               else Procproxy.bundle_of_path a0 w2). destruct (String.eqb_spec id "") as [?|Hid]; [done|].
    destruct (register_ok pid id (d_books r) Hid Hr) as (? & ? & ?). split; [done|]. split; [done|]. by intros ? [= <-].
  - intros pid r w Hr. cbn. destruct (ext_available w) as [a w1]. unfold Procproxy.RestartPID.
    pose proof (darwin_add a pid (d_books r) w1 Hr) as Ha. destruct (Procproxy.AddPID a pid (d_books r) w1). tauto.
  - intros pid r w Hr. by apply deregister_ok.
  - intros pid r w Hr. cbn. unfold Procproxy.Kill. destruct (Procproxy.terminate pid w). by apply deregister_ok.
  - intros id r pid. apply Procproxy.elem_of_pids.
  - intros r id [Hc _]. by apply Procproxy.elem_of_ids.
  - by intros r [_ Hn].
Qed.
End darwin.

(** ** The executor's part *)

Module Apps.

(** What is asked of the running processes: the networked ones, a stable
    token of each, and the bundle it belongs to. *)
Class ProcTable (W : Type) := {
  listProcRows : W → result string (list App);
  processIdentity : Z → W → option string;
  bundleIDForPID : Z → W → string;
  bundleIDOf : string → W → string
}.

Record Application := { a_name : string; a_bundleID : string; a_running : bool; a_pids : list Z }.

(** [socks] and [http] are zero when they are not set; the cache is [None]
    when it is empty. *)
Record State (R : Type) := {
  running : bool; socks : Z; http : Z; launchUser : option Procproxy.LaunchUser;
  store : AppStore.appStore; router : option R; ctrl : option Netext.Controller;
  appCache : option (Z * list Application * gmap Z string) }.
Arguments running {R} s.
Arguments socks {R} s.
Arguments http {R} s.
Arguments launchUser {R} s.
Arguments store {R} s.
Arguments router {R} s.
Arguments ctrl {R} s.
Arguments appCache {R} s.

Inductive AppError :=
  | ErrProxyNotRunning
  | ErrEmptyBundle
  | ErrEmptyPath
  | ErrNotOpen (id : string)
  | ErrProcList (e : string)
  | ErrRouter (e : Procproxy.Error)
  | ErrStore (e : AppStore.StoreError)
  | ErrFlush (e : Netext.FlushError)
  | ErrUncaptured (pid : Z).

Section setters.
Context {R : Type}.
Implicit Types (s : State R).

Definition with_store (st : AppStore.appStore) s : State R := {|
  running := running s; socks := socks s; http := http s; launchUser := launchUser s; store := st;
  router := router s; ctrl := ctrl s; appCache := appCache s |}.
Definition with_router (r : option R) s : State R := {|
  running := running s; socks := socks s; http := http s; launchUser := launchUser s; store := store s;
  router := r; ctrl := ctrl s; appCache := appCache s |}.
Definition with_ctrl (c : option Netext.Controller) s : State R := {|
  running := running s; socks := socks s; http := http s; launchUser := launchUser s; store := store s;
  router := router s; ctrl := c; appCache := appCache s |}.
Definition with_cache (c : option (Z * list Application * gmap Z string)) s : State R := {|
  running := running s; socks := socks s; http := http s; launchUser := launchUser s; store := store s;
  router := router s; ctrl := ctrl s; appCache := c |}.
Definition with_ports (p q : Z) s : State R := {|
  running := running s; socks := p; http := q; launchUser := launchUser s; store := store s;
  router := router s; ctrl := ctrl s; appCache := appCache s |}.

Definition invalidateAppCache s : State R := with_cache None s.
End setters.

Section executor.
Context {R W : Type} `{Router R W} `{FS W} `{ProcTable W} `{GoUnicode} `{GoFold}.
Implicit Types (s : State R) (w : W).

Definition addr (port : Z) : string := "127.0.0.1:" +:+ Itoa port.

Definition router_config s : Procproxy.Config :=
  let '(socks_, http_) := if (socks s =? 0)%Z then (1080, 2080)%Z else (socks s, http s) in
  {| Procproxy.SocksAddr := addr socks_; Procproxy.HTTPAddr := addr http_; Procproxy.Gateway := ""; Procproxy.Mark := 0;
     Procproxy.Table := 0; Procproxy.CgroupRoot := ""; Procproxy.CgroupName := ""; Procproxy.User := launchUser s;
     Procproxy.Captures := true |}.

(** Both are built when they are first asked for. *)
Definition procRouter s : R * State R :=
  match router s with Some r => (r, s) | None => let r := NewRouter (router_config s) in (r, with_router (Some r) s) end.

Definition controller (home : option string) s : Netext.Controller * State R :=
  match ctrl s with
  | Some c => (c, s)
  | None =>
      let c := Netext.New home "127.0.0.1" (if (socks s =? 0)%Z then 1080 else socks s)%Z in (c, with_ctrl (Some c) s)
  end.

Definition ListRouted s : list Z := match router s with Some r => router_ListRouted r | None => [] end.
Definition ListRoutedApps s : list string := match router s with Some r => router_RoutedBundleIDs r | None => [] end.

Variable home : option string.

(** The union, once each; [SetTargets] makes a set of it. *)
Definition wanted s : list string := dedup_from [] (AppStore.EnabledBundleIDs (store s) ++ ListRoutedApps s).

Definition RecomputeAppTargets s w : option AppError * State R * W :=
  let '(c, s) := controller home s in
  let '(e, c, w) := Netext.SetTargets (wanted s) c w in (ErrFlush <$> e, with_ctrl (Some c) s, w).

(** *** Single processes *)

Definition RoutePID (pid : Z) s w : option AppError * State R * W :=
  if negb (running s) then (Some ErrProxyNotRunning, s, w)
  else let '(r, s) := procRouter s in
       let '(e, r, w) := router_AddPID pid r w in (ErrRouter <$> e, with_router (Some r) s, w).

Definition routed_result (e : result Procproxy.Error Z) : result AppError Z :=
  match e with Ok pid => Ok pid | Err e => Err (ErrRouter e) end.

Definition LaunchProxied (argv : list string) s w : result AppError Z * State R * W :=
  if negb (running s) then (Err ErrProxyNotRunning, s, w)
  else let '(r, s) := procRouter s in
       let '(e, r, w) := router_Launch argv r w in (routed_result e, with_router (Some r) s, w).

Definition RestartProxied (pid : Z) s w : result AppError Z * State R * W :=
  if negb (running s) then (Err ErrProxyNotRunning, s, w)
  else let '(r, s) := procRouter s in
       let '(e, r, w) := router_RestartPID pid r w in (routed_result e, with_router (Some r) s, w).

Definition UnroutePID (pid : Z) s w : option AppError * State R * W :=
  let '(r, s) := procRouter s in
  let '(e, r, w) := router_Unroute pid r w in (ErrRouter <$> e, with_router (Some r) s, w).

Definition StopProxied (pid : Z) s w : option AppError * State R * W :=
  let '(r, s) := procRouter s in
  let '(e, r, w) := router_Kill pid r w in (ErrRouter <$> e, with_router (Some r) s, w).

(** *** Whole applications *)

(** Every process is tried, and the first error is kept. *)
Fixpoint add_all (pids : list Z) (r : R) w : option Procproxy.Error * R * W :=
  match pids with
  | [] => (None, r, w)
  | pid :: pids =>
      let '(e, r, w) := router_AddPID pid r w in
      let '(e', r, w) := add_all pids r w in (match e with Some _ => e | None => e' end, r, w)
  end.

Fixpoint unroute_all (pids : list Z) (r : R) w : option Procproxy.Error * R * W :=
  match pids with
  | [] => (None, r, w)
  | pid :: pids =>
      let '(e, r, w) := router_Unroute pid r w in
      let '(e', r, w) := unroute_all pids r w in (match e with Some _ => e | None => e' end, r, w)
  end.

Definition rows_of (id : string) (rows : list App) w : list App := filter (λ row, bundleIDForPID (aPID row) w = id) rows.

(** The state after the store has been changed, if it could be saved. *)
Definition stored (r : option AppStore.StoreError * AppStore.appStore * W) s (k : State R → W → option AppError * State R * W)
    : option AppError * State R * W :=
  let '(e, st, w) := r in
  let s := with_store st s in
  match e with Some e => (Some (ErrStore e), s, w) | None => k s w end.

Definition RouteApp (bundleID : string) s w : option AppError * State R * W :=
  if negb (running s) then (Some ErrProxyNotRunning, s, w)
  else
    let id := TrimSpace bundleID in
    if String.eqb id "" then (Some ErrEmptyBundle, s, w)
    else match listProcRows w with
    | Err e => (Some (ErrProcList e), s, w)
    | Ok rows =>
        let mine := rows_of id rows w in
        let name := match last mine with Some row => aName row | None => id end in
        match mine with
        | [] => (Some (ErrNotOpen id), s, w)
        | _ =>
            let '(r, s) := procRouter s in
            let '(e, r, w) := add_all (aPID <$> mine) r w in
            let s := with_router (Some r) s in
            match e with
            | Some e => (Some (ErrRouter e), s, w)
            | None => stored (AppStore.Upsert (store s) id name true w) s (λ s, RecomputeAppTargets (invalidateAppCache s))
            end
        end
    end.

Definition UnrouteApp (bundleID : string) s w : option AppError * State R * W :=
  let '(r, s) := procRouter s in
  let '(e, r, w) := unroute_all (router_PIDsForBundle bundleID r) r w in
  (ErrRouter <$> e, invalidateAppCache (with_router (Some r) s), w).

Definition SetProxiedAppEnabled (bundleID : string) (enabled : bool) s w : option AppError * State R * W :=
  let id := TrimSpace bundleID in
  if String.eqb id "" then (Some ErrEmptyBundle, s, w)
  else stored (AppStore.SetEnabled (store s) id enabled w) s RecomputeAppTargets.

Definition unrouteLiveBundle (id : string) s w : State R * W :=
  match router s with
  | None => (s, w)
  | Some r => let '(_, r, w) := unroute_all (router_PIDsForBundle id r) r w in (with_router (Some r) s, w)
  end.

Definition RemoveProxiedApp (bundleID : string) s w : option AppError * State R * W :=
  let id := TrimSpace bundleID in
  if String.eqb id "" then (Some ErrEmptyBundle, s, w)
  else
    let '(s, w) := unrouteLiveBundle id s w in
    stored (AppStore.Remove_ (store s) id w) s RecomputeAppTargets.

Variable host : Procproxy.Host.

Definition first_nonempty (l : list string) : string := match filter (λ x, x ≠ "") l with x :: _ => x | [] => "" end.

(** The result is the number of the child, where there is one, beside the
    error. *)
Definition LaunchProxiedApp (appPath : string) s w : Z * option AppError * State R * W :=
  if negb (running s) then (0%Z, Some ErrProxyNotRunning, s, w)
  else
    let path := TrimSpace appPath in
    if String.eqb path "" then (0%Z, Some ErrEmptyPath, s, w)
    else
      let exe := first_nonempty [Procproxy.MacBundleExe host path; path] in
      let '(r, s) := procRouter s in
      let '(e, r, w) := router_Launch [exe] r w in
      let s := with_router (Some r) s in
      match e with
      | Err e => (0%Z, Some (ErrRouter e), s, w)
      | Ok pid =>
          let id := first_nonempty [bundleIDOf path w; bundleIDOf exe w; bundleIDForPID pid w] in
          if String.eqb id "" then (pid, Some (ErrUncaptured pid), s, w)
          else
            let name := TrimSuffix (Path.Base path) ".app" in
            let '(e, s, w) := stored (AppStore.Upsert (store s) id name true w) s RecomputeAppTargets in (pid, e, s, w)
      end.

(** The applications of the store, in the order [walk] of its map, with
    whether each has a process. *)
Fixpoint mark_running (entries : list AppStore.ProxiedApp) w : result AppError (list AppStore.ProxiedApp) :=
  match entries with
  | [] => Ok []
  | a :: entries =>
      match listProcRows w with
      | Err e => Err (ErrProcList e)
      | Ok rows =>
          let? out := mark_running entries w in
          Ok ({| AppStore.BundleID := AppStore.BundleID a; AppStore.Name := AppStore.Name a; AppStore.Enabled := AppStore.Enabled a;
                 AppStore.Running := negb (bool_decide (rows_of (AppStore.BundleID a) rows w = [])) |} :: out)
      end
  end.

Definition ListProxiedApps (walk : list AppStore.ProxiedApp) w : result AppError (list AppStore.ProxiedApp) :=
  mark_running (AppStore.List_ walk) w.

(** *** The running applications *)

(** What the process table answered for one row: its token before and after
    its bundle was looked up. *)
Record Reads := { before : option string; bundle : string; after : option string }.

(** The bundle and the token, [None] when it cannot be relied on. *)
Definition resolveApplicationPID (r : Reads) : string * option string :=
  match before r, after r with
  | Some b, Some a => if String.eqb b a then (bundle r, Some b) else ("", None)
  | Some _, None => ("", None)
  | None, _ => (bundle r, None)
  end.

(** A process of the bundle [fst]. *)
Definition new_app (p : string * App) : Application := {|
  a_name := aName (snd p); a_bundleID := fst p; a_running := true; a_pids := [aPID (snd p)] |}.
Definition grow_app (p : string * App) (a : Application) : Application := {|
  a_name := a_name a; a_bundleID := a_bundleID a; a_running := a_running a; a_pids := a_pids a ++ [aPID (snd p)] |}.
Definition add_app : list Application → string * App → list Application := group_add fst a_bundleID new_app grow_app.

Definition list_row (reads : App → Reads) (acc : list Application * option (gmap Z string)) (row : App)
    : list Application * option (gmap Z string) :=
  let '(apps, ids) := acc in
  let '(id, token) := resolveApplicationPID (reads row) in
  let ids := match ids, token with Some m, Some t => Some (<[aPID row := t]> m) | _, _ => None end in
  (if String.eqb id "" then apps else add_app apps (id, row), ids).

Definition sort_apps (apps : list Application) : list Application :=
  merge_sort (λ a b, String.le (ToLower (a_name a)) (ToLower (a_name b))) apps.

Definition cacheTTL : Z := 30000000000.

Definition cached (now : Z) s w : option (list Application) :=
  match appCache s with
  | Some (at_, apps, ids) =>
      if (now - at_ <? cacheTTL)%Z && bool_decide (map_Forall (λ pid token, processIdentity pid w = Some token) ids)
      then Some apps else None
  | None => None
  end.

(** [now] is the time of the call, [later] the time at its end. *)
Definition ListApplications (now later : Z) (reads : App → Reads) s w : result AppError (list Application) * State R :=
  match cached now s w with
  | Some apps => (Ok apps, s)
  | None =>
      match listProcRows w with
      | Err e => (Err (ErrProcList e), s)
      | Ok rows =>
          let '(apps, ids) := foldl (list_row reads) ([], Some ∅) rows in
          let out := sort_apps apps in
          (Ok out, with_cache (match ids with Some m => Some (later, out, m) | None => None end) s)
      end
  end.

(** *** Ports and the end *)

Definition resetRouter s : State R := with_router None s.
Definition SetSocksPort (p : Z) s : State R := if (p =? 0)%Z then with_ports 0 0 s else with_ports p (p + 1) s.

(** What Shutdown does for the applications: the books are dropped and the
    extension is told to capture nothing, whether or not that works. *)
Definition Shutdown s w : State R * W :=
  let s := with_router None s in
  match ctrl s with
  | None => (s, w)
  | Some c => let '(_, c, w) := Netext.SetTargets [] c w in (with_ctrl (Some c) s, w)
  end.
End executor.

(** ** Facts *)

Section facts.
Context {R W : Type} `{RouterLaws R W} `{FSLaws W} `{ProcTable W} `{GoUnicode} `{GoFold}.
Implicit Types (s : State R) (w : W).

Definition apps_ok s : Prop := AppStore.store_ok (store s) ∧ ∀ r, router s = Some r → router_ok r.

Definition enabled_app s (id : string) : Prop := ∃ e, AppStore.entries (store s) !! id = Some e ∧ AppStore.Enabled e = true.
Definition routed_app s (id : string) : Prop := ∃ r pid, router s = Some r ∧ routed r !! pid = Some id.

(** What should be captured. *)
Definition to_capture s (id : string) : Prop := enabled_app s id ∨ routed_app s id.

Lemma elem_of_enabled s id : id ∈ AppStore.EnabledBundleIDs (store s) ↔ enabled_app s id.
Proof.
  unfold AppStore.EnabledBundleIDs, enabled_app. rewrite elem_of_sort_strings, list_elem_of_fmap. split.
  - intros ([k e] & -> & [He Hin]%list_elem_of_filter). apply elem_of_map_to_list in Hin. by exists e.
  - intros (e & Hl & He). exists (id, e). split; [done|]. apply list_elem_of_filter. split; [done|]. by apply elem_of_map_to_list.
Qed.

Lemma elem_of_routed_apps s id : apps_ok s → id ∈ ListRoutedApps s ↔ routed_app s id.
Proof.
  intros [_ Hr]. unfold ListRoutedApps, routed_app. destruct (router s) as [r|].
  - rewrite ids_router by auto. split; [intros [pid ?]; by exists r, pid|]. intros (r' & pid & [= <-] & ?). by exists pid.
  - split; [by intros ?%not_elem_of_nil|]. by intros (? & ? & ? & _).
Qed.

Lemma to_capture_named s id : apps_ok s → to_capture s id → id ≠ "".
Proof.
  intros [Hs Hr] [(e & He & _)|(r & pid & Hrt & Hp)].
  - by destruct (Hs _ _ He) as (_ & ? & _).
  - exact (routed_named r (Hr r Hrt) _ _ Hp).
Qed.

Lemma elem_of_wanted s id : apps_ok s → id ∈ wanted s ↔ to_capture s id.
Proof.
  intros Hs. unfold wanted. rewrite elem_of_dedup_from, elem_of_app, elem_of_enabled, elem_of_routed_apps by done.
  split; [by intros [? _]|]. intros ?. split; [done|apply not_elem_of_nil].
Qed.

Lemma controller_same home s : let '(c, s') := controller home s in
  store s' = store s ∧ router s' = router s ∧ ctrl s' = Some c.
Proof. unfold controller. destruct (ctrl s) eqn:E; [|done]. by rewrite E. Qed.

(** The controller has the set that should be captured, and its file says so. *)
Definition synced s w : Prop := ∃ c,
  ctrl s = Some c ∧ (∀ id, id ∈ Netext.ctargets c ↔ to_capture s id) ∧ Netext.csocks c = "127.0.0.1" ∧
  ReadFile (Netext.cfgPath c) w = Ok (Netext.config_text c).

Definition ctrl_ok s : Prop := ∀ c, ctrl s = Some c → Netext.csocks c = "127.0.0.1".
Definition state_ok s : Prop := apps_ok s ∧ ctrl_ok s.

Lemma recompute_spec home s w : state_ok s → let '(e, s', w') := RecomputeAppTargets home s w in
  state_ok s' ∧ store s' = store s ∧ router s' = router s ∧ (e = None → synced s' w').
Proof.
  intros [Hs Hk]. unfold RecomputeAppTargets. pose proof (controller_same home s) as Hc.
  assert (Netext.csocks (fst (controller home s)) = "127.0.0.1") as Hk0.
  { unfold controller. destruct (ctrl s) eqn:E; [by apply Hk|done]. }
  destruct (controller home s) as [c0 s0]. destruct Hc as (Hst & Hrt & Hct). cbn [fst] in Hk0.
  assert (wanted s0 = wanted s) as -> by (unfold wanted, ListRoutedApps; by rewrite Hst, Hrt).
  unfold Netext.SetTargets. set (c1 := Netext.with_targets (Netext.set_replace (wanted s)) c0).
  pose proof (Netext.flush_writes c1 w) as Hf. destruct (Netext.flushLocked c1 w) as [e1 w1].
  assert (∀ id, to_capture (with_ctrl (Some c1) s0) id ↔ to_capture s id) as Hcap.
  { intros id. unfold to_capture, enabled_app, routed_app. cbn. by rewrite Hst, Hrt. }
  split; [split|split; [done|split; [done|]]].
  - unfold apps_ok. cbn. by rewrite Hst, Hrt.
  - by intros c [= <-].
  - intros He. exists c1. split; [done|]. split; [|split; [done|]].
    + intros id. rewrite Hcap. cbn. rewrite Netext.elem_of_set_replace, elem_of_wanted by done.
      split; [by intros [? _]|]. intros Hid. split; [done|]. by eapply to_capture_named.
    + apply Hf. destruct e1; [done|reflexivity].
Qed.

(** *** The router's part *)

Definition same_but_router s s' : Prop := store s' = store s ∧ ctrl s' = ctrl s.

Lemma procRouter_ok s : state_ok s → let '(r, s') := procRouter s in
  router_ok r ∧ state_ok s' ∧ same_but_router s s' ∧ router s' = Some r ∧
  (∀ id, routed_app s' id ↔ routed_app s id).
Proof.
  intros Hs. pose proof Hs as [[Hst Hr] Hk]. unfold procRouter. destruct (router s) as [r|] eqn:E.
  - split; [by apply Hr|]. split; [done|]. split; [done|]. split; [done|]. done.
  - destruct (new_router (router_config s)) as [Hok Hnew]. split; [done|].
    split; [split; [split; [done|by intros r [= <-]]|done]|]. split; [done|]. split; [done|].
    intros id. unfold routed_app. cbn. rewrite E. split; [|by intros (? & ? & ? & _)].
    intros (r & pid & [= <-] & Hl). by rewrite Hnew, lookup_empty in Hl.
Qed.

Lemma with_router_ok r s : router_ok r → state_ok s → state_ok (with_router (Some r) s).
Proof. intros Hr [[Hst _] Hk]. split; [split; [done|]|done]. by intros r' [= <-]. Qed.

Lemma add_all_ok pids : ∀ r w, router_ok r → let '(e, r', _) := add_all pids r w in
  router_ok r' ∧ routed r ⊆ routed r' ∧ (e = None → Forall (λ pid, is_Some (routed r' !! pid)) pids).
Proof.
  induction pids as [|pid pids IH]; intros r w Hr; [done|]. cbn [add_all].
  pose proof (add_router pid r w Hr) as Hone. destruct (router_AddPID pid r w) as [[e1 r1] w1]. destruct Hone as (Hr1 & Hs1 & Hp1).
  pose proof (IH r1 w1 Hr1) as Htwo. destruct (add_all pids r1 w1) as [[e2 r2] w2]. destruct Htwo as (Hr2 & Hs2 & Hp2).
  split; [done|]. split; [by etrans|]. destruct e1; [done|]. intros ->. apply Forall_cons. split; [|by apply Hp2].
  destruct (Hp1 eq_refl) as [id Hid]. exists id. by eapply lookup_weaken.
Qed.

Lemma unroute_all_ok pids : ∀ r w, router_ok r → let '(_, r', _) := unroute_all pids r w in
  router_ok r' ∧ ∀ pid, routed r' !! pid = if bool_decide (pid ∈ pids) then None else routed r !! pid.
Proof.
  induction pids as [|pid pids IH]; intros r w Hr; [done|]. cbn [unroute_all].
  pose proof (unroute_router pid r w Hr) as Hone. destruct (router_Unroute pid r w) as [[e1 r1] w1]. destruct Hone as (Hr1 & He1).
  pose proof (IH r1 w1 Hr1) as Htwo. destruct (unroute_all pids r1 w1) as [[e2 r2] w2]. destruct Htwo as (Hr2 & He2).
  split; [done|]. intros p. rewrite He2, He1. destruct (bool_decide_reflect (p ∈ pids)) as [Hin|Hin].
  - by rewrite bool_decide_eq_true_2 by (by right).
  - destruct (decide (p = pid)) as [->|Hne].
    + by rewrite lookup_delete_eq, bool_decide_eq_true_2 by (by left).
    + rewrite lookup_delete_ne by done. rewrite bool_decide_eq_false_2; [done|]. rewrite elem_of_cons. tauto.
Qed.

(** A whole application is unrouted. *)
Lemma unroute_bundle id r w : router_ok r → let '(_, r', _) := unroute_all (router_PIDsForBundle id r) r w in
  router_ok r' ∧ ∀ pid id', routed r' !! pid = Some id' ↔ routed r !! pid = Some id' ∧ id' ≠ id.
Proof.
  intros Hr. pose proof (unroute_all_ok (router_PIDsForBundle id r) r w Hr) as Hone.
  destruct (unroute_all _ r w) as [[e r1] w1]. destruct Hone as [Hr1 He]. split; [done|]. intros pid id'. rewrite He.
  destruct (bool_decide_reflect (pid ∈ router_PIDsForBundle id r)) as [Hp|Hp]; rewrite pids_router in Hp; split.
  - done.
  - intros [Hl Hne]. congruence.
  - intros Hl. split; [done|]. intros ->. done.
  - by intros [? _].
Qed.
(** *** Every operation *)

Section operations.
Variables (home : option string) (host : Procproxy.Host).

Inductive Op :=
  | ORouteApp (id : string) | OEnable (id : string) (on : bool) | ORemove (id : string) | OLaunchApp (path : string)
  | OUnrouteApp (id : string) | ORoutePID (pid : Z) | OUnroutePID (pid : Z) | OStopPID (pid : Z)
  | OLaunch (argv : list string) | ORestart (pid : Z).

Definition error_of {A} (r : result AppError A * State R * W) : option AppError * State R * W :=
  let '(r, s, w) := r in (match r with Ok _ => None | Err e => Some e end, s, w).

Definition run_op (o : Op) s w : option AppError * State R * W :=
  match o with
  | ORouteApp id => RouteApp home id s w
  | OEnable id on => SetProxiedAppEnabled home id on s w
  | ORemove id => RemoveProxiedApp home id s w
  | OLaunchApp path => let '(_, e, s, w) := LaunchProxiedApp home host path s w in (e, s, w)
  | OUnrouteApp id => UnrouteApp id s w
  | ORoutePID pid => RoutePID pid s w
  | OUnroutePID pid => UnroutePID pid s w
  | OStopPID pid => StopProxied pid s w
  | OLaunch argv => error_of (LaunchProxied argv s w)
  | ORestart pid => error_of (RestartProxied pid s w)
  end.

Definition run_ops (os : list Op) (c : State R * W) : State R * W :=
  foldl (λ c o, let '(_, s, w) := run_op o (fst c) (snd c) in (s, w)) c os.

(** The operations that write the set. *)
Definition sets_targets (o : Op) : bool :=
  match o with ORouteApp _ | OEnable _ _ | ORemove _ | OLaunchApp _ => true | _ => false end.

(** What a successful operation is for. *)
Definition achieves (o : Op) s : Prop :=
  match o with
  | ORouteApp id => enabled_app s (TrimSpace id)
  | OEnable id on => if on then enabled_app s (TrimSpace id) else ¬ enabled_app s (TrimSpace id)
  | ORemove id => ¬ to_capture s (TrimSpace id)
  | _ => True
  end.

Definition good (r : option AppError * State R * W) (P : State R → Prop) : Prop :=
  let '(e, s, w) := r in state_ok s ∧ (e = None → synced s w ∧ P s).

Lemma good_failed e s w P : state_ok s → good (Some e, s, w) P.
Proof. by split. Qed.

(** A change of the store and the recomputation after it. *)
Lemma stored_good o s w k P :
  state_ok s →
  (∀ st, AppStore.store_ok st → state_ok (with_store st s)) →
  (∀ e st w', AppStore.mutate o (store s) w = (e, st, w') → e = None → ∀ s', store s' = st → router s' = router s → P s') →
  (∀ s w, k s w = RecomputeAppTargets home (invalidateAppCache s) w ∨ k s w = RecomputeAppTargets home s w) →
  good (stored (AppStore.mutate o (store s) w) s k) P.
Proof.
  intros Hs Hst HP Hk. unfold stored. destruct (AppStore.mutate o (store s) w) as [[e st] w1] eqn:Ho.
  assert (state_ok (with_store st s)) as Hs1 by (apply Hst; eapply (AppStore.mutate_ok o); [apply Hs|exact Ho]).
  destruct e as [e|]; [by apply good_failed|]. specialize (HP _ _ _ eq_refl eq_refl).
  destruct (Hk (with_store st s) w1) as [->| ->]; unfold good.
  - pose proof (recompute_spec home (invalidateAppCache (with_store st s)) w1) as Hr.
    destruct (RecomputeAppTargets _ _ w1) as [[e2 s2] w2]. destruct Hr as (? & ? & ? & Hsy); [done|].
    split; [done|]. intros He. split; [by apply Hsy|]. by apply HP.
  - pose proof (recompute_spec home (with_store st s) w1 Hs1) as Hr.
    destruct (RecomputeAppTargets _ _ w1) as [[e2 s2] w2]. destruct Hr as (? & ? & ? & Hsy).
    split; [done|]. intros He. split; [by apply Hsy|]. by apply HP.
Qed.

Lemma with_store_ok s st : state_ok s → AppStore.store_ok st → state_ok (with_store st s).
Proof. intros [[_ Hr] Hk] Hst. by split; [split|]. Qed.

Lemma upsert_enables id name st w e st' w' :
  AppStore.mutate (AppStore.MUpsert id name true) st w = (e, st', w') → TrimSpace id ≠ "" →
  ∃ a, AppStore.entries st' !! TrimSpace id = Some a ∧ AppStore.Enabled a = true.
Proof.
  cbn. unfold AppStore.Upsert. intros Hm Hne. rewrite (proj2 (String.eqb_neq _ _) Hne) in Hm. unfold AppStore.saved in Hm.
  destruct (AppStore.save _ w) as [[e1 w1] tr]. injection Hm as _ <- _. cbn. unfold AppStore.upsert.
  rewrite lookup_insert_eq. by eexists.
Qed.

Lemma RouteApp_good id s w : state_ok s → good (RouteApp home id s w) (achieves (ORouteApp id)).
Proof.
  intros Hs. unfold RouteApp. destruct (negb (running s)); [by apply good_failed|]. cbv zeta.
  destruct (String.eqb_spec (TrimSpace id) "") as [?|Hne]; [by apply good_failed|].
  destruct (listProcRows w) as [rows|e]; [|by apply good_failed].
  destruct (rows_of (TrimSpace id) rows w) as [|row mine] eqn:Hm; [by apply good_failed|].
  pose proof (procRouter_ok s Hs) as Hp. destruct (procRouter s) as [r s1]. destruct Hp as (Hr & Hs1 & Hsame & Hrt & _).
  pose proof (add_all_ok (aPID <$> row :: mine) r w Hr) as Ha.
  destruct (add_all _ r w) as [[e r2] w2]. destruct Ha as (Hr2 & _). pose proof (with_router_ok _ _ Hr2 Hs1) as Hs2.
  destruct e as [e|]; [by apply good_failed|].
  refine (stored_good (AppStore.MUpsert (TrimSpace id) _ true) (with_router (Some r2) s1) w2 _ _ Hs2 _ _ _).
  - intros st. by apply with_store_ok.
  - intros e st w' Hmu _ s' Hst _. apply upsert_enables in Hmu; rewrite TrimSpace_idemp in *; [|done].
    destruct Hmu as (a & ? & ?). exists a. by rewrite Hst.
  - intros. by left.
Qed.

Lemma SetEnabled_good id on s w : state_ok s → good (SetProxiedAppEnabled home id on s w) (achieves (OEnable id on)).
Proof.
  intros Hs. unfold SetProxiedAppEnabled. cbv zeta.
  destruct (String.eqb_spec (TrimSpace id) "") as [?|Hne]; [by apply good_failed|].
  refine (stored_good (AppStore.MSetEnabled (TrimSpace id) on) s w _ _ Hs _ _ _).
  - intros st. by apply with_store_ok.
  - intros e st w' Hmu -> s' Hst _. cbn in Hmu. unfold AppStore.SetEnabled in Hmu. rewrite TrimSpace_idemp in Hmu.
    destruct (AppStore.entries (store s) !! TrimSpace id) as [a|]; [|done]. unfold AppStore.saved in Hmu.
    destruct (AppStore.save _ w) as [[e1 w1] tr]. injection Hmu as _ <- _. cbn [achieves]. unfold enabled_app. rewrite Hst.
    cbn. rewrite lookup_insert_eq. destruct on; [by eexists|]. by intros (b & [= <-] & ?).
  - intros. by right.
Qed.

Lemma RemoveProxiedApp_good id s w : state_ok s → good (RemoveProxiedApp home id s w) (achieves (ORemove id)).
Proof.
  intros Hs. unfold RemoveProxiedApp. cbv zeta.
  destruct (String.eqb_spec (TrimSpace id) "") as [?|Hne]; [by apply good_failed|].
  assert (let '(s1, w1) := unrouteLiveBundle (TrimSpace id) s w in
    state_ok s1 ∧ store s1 = store s ∧ ¬ routed_app s1 (TrimSpace id)) as Hu.
  { unfold unrouteLiveBundle. destruct (router s) as [r|] eqn:Hr.
    - pose proof (unroute_bundle (TrimSpace id) r w (proj2 (proj1 Hs) r Hr)) as Hu.
      destruct (unroute_all _ r w) as [[e r1] w1]. destruct Hu as [Hr1 Hl]. split; [by apply with_router_ok|].
      split; [done|]. intros (r' & pid & [= <-] & Hp). by apply Hl in Hp as [_ ?].
    - split; [done|]. split; [done|]. intros (r' & pid & Hr' & _). by rewrite Hr in Hr'. }
  destruct (unrouteLiveBundle (TrimSpace id) s w) as [s1 w1]. destruct Hu as (Hs1 & Hst1 & Hnr).
  refine (stored_good (AppStore.MRemove (TrimSpace id)) s1 w1 _ _ Hs1 _ _ _).
  - intros st. by apply with_store_ok.
  - intros e st w' Hmu -> s' Hst Hrt. cbn in Hmu. unfold AppStore.Remove_, AppStore.saved in Hmu. rewrite TrimSpace_idemp in Hmu.
    destruct (AppStore.save _ w1) as [[e1 w2] tr]. injection Hmu as _ <- _. intros [(a & Ha & _)|(r & pid & Hr & Hp)].
    + rewrite Hst in Ha. cbn in Ha. by rewrite lookup_delete_eq in Ha.
    + apply Hnr. exists r, pid. by rewrite <- Hrt.
  - intros. by right.
Qed.

Lemma LaunchProxiedApp_good path s w : state_ok s →
  good (let '(_, e, s, w) := LaunchProxiedApp home host path s w in (e, s, w)) (achieves (OLaunchApp path)).
Proof.
  intros Hs. unfold LaunchProxiedApp. destruct (negb (running s)); [by apply good_failed|]. cbv zeta.
  destruct (String.eqb (TrimSpace path) ""); [by apply good_failed|].
  pose proof (procRouter_ok s Hs) as Hp. destruct (procRouter s) as [r s1]. destruct Hp as (Hr & Hs1 & Hsame & Hrt & _).
  set (exe := first_nonempty _). pose proof (launch_router [exe] r w Hr) as Hl.
  destruct (router_Launch [exe] r w) as [[e r2] w2]. destruct Hl as (Hr2 & _). pose proof (with_router_ok _ _ Hr2 Hs1) as Hs2.
  destruct e as [pid|e]; [|by apply good_failed]. set (id := first_nonempty _).
  destruct (String.eqb id ""); [by apply good_failed|].
  pose proof (stored_good (AppStore.MUpsert id (TrimSuffix (Path.Base (TrimSpace path)) ".app") true) (with_router (Some r2) s1) w2
    (RecomputeAppTargets home) (achieves (OLaunchApp path)) Hs2) as Hg. cbn [AppStore.mutate] in Hg.
  destruct (stored _ _ _) as [[e2 s3] w3]. apply Hg; [intros st; by apply with_store_ok|done|]. intros. by right.
Qed.
Lemma run_op_good o s w : state_ok s → let '(e, s', w') := run_op o s w in
  state_ok s' ∧ (e = None → sets_targets o = true → synced s' w' ∧ achieves o s').
Proof.
  intros Hs. assert (∀ P r, good r P → sets_targets o = true → (∀ s, P s → achieves o s) →
    let '(e, s', w') := r in state_ok s' ∧ (e = None → sets_targets o = true → synced s' w' ∧ achieves o s')) as Hg.
  { intros P [[e s'] w'] [? Hok] _ HP. split; [done|]. intros He _. destruct (Hok He). auto. }
  destruct o as [id|id on|id|path|id|pid|pid|pid|argv|pid]; cbn [run_op sets_targets] in *.
  1-4: eapply Hg; [|done|by intros ? ?].
  - by apply RouteApp_good.
  - by apply SetEnabled_good.
  - by apply RemoveProxiedApp_good.
  - by apply LaunchProxiedApp_good.
  - unfold UnrouteApp. pose proof (procRouter_ok s Hs) as Hp. destruct (procRouter s) as [r s1]. destruct Hp as (Hr & Hs1 & _).
    pose proof (unroute_bundle id r w Hr) as Hu. destruct (unroute_all _ r w) as [[e r1] w1]. split; [|done].
    by apply (with_router_ok r1 s1 (proj1 Hu) Hs1).
  - unfold RoutePID. destruct (negb (running s)); [done|]. pose proof (procRouter_ok s Hs) as Hp.
    destruct (procRouter s) as [r s1]. destruct Hp as (Hr & Hs1 & _). pose proof (add_router pid r w Hr) as Ha.
    destruct (router_AddPID pid r w) as [[e r1] w1]. split; [|done]. by apply with_router_ok; [apply Ha|].
  - unfold UnroutePID. pose proof (procRouter_ok s Hs) as Hp.
    destruct (procRouter s) as [r s1]. destruct Hp as (Hr & Hs1 & _). pose proof (unroute_router pid r w Hr) as Ha.
    destruct (router_Unroute pid r w) as [[e r1] w1]. split; [|done]. by apply with_router_ok; [apply Ha|].
  - unfold StopProxied. pose proof (procRouter_ok s Hs) as Hp.
    destruct (procRouter s) as [r s1]. destruct Hp as (Hr & Hs1 & _). pose proof (kill_router pid r w Hr) as Ha.
    destruct (router_Kill pid r w) as [[e r1] w1]. split; [|done]. by apply with_router_ok; [apply Ha|].
  - unfold LaunchProxied. destruct (negb (running s)); [done|]. pose proof (procRouter_ok s Hs) as Hp.
    destruct (procRouter s) as [r s1]. destruct Hp as (Hr & Hs1 & _). pose proof (launch_router argv r w Hr) as Ha.
    destruct (router_Launch argv r w) as [[e r1] w1]. split; [|done]. by apply with_router_ok; [apply Ha|].
  - unfold RestartProxied. destruct (negb (running s)); [done|]. pose proof (procRouter_ok s Hs) as Hp.
    destruct (procRouter s) as [r s1]. destruct Hp as (Hr & Hs1 & _). pose proof (restart_router pid r w Hr) as Ha.
    destruct (router_RestartPID pid r w) as [[e r1] w1]. split; [|done]. by apply with_router_ok; [apply Ha|].
Qed.

Lemma run_ops_ok os : ∀ s w, state_ok s → state_ok (fst (run_ops os (s, w))).
Proof.
  induction os as [|o os IH]; intros s w Hs; [done|]. cbn [run_ops foldl fst snd].
  pose proof (run_op_good o s w Hs) as Ho. destruct (run_op o s w) as [[e s1] w1]. apply IH. by apply Ho.
Qed.

(** The executor when it starts, with what the store's file holds. *)
Definition start (on : bool) (port : Z) (path : string) w : State R := SetSocksPort port {|
  running := on; socks := 0; http := 0; launchUser := None; store := snd (AppStore.Load (AppStore.newAppStore path) w);
  router := None; ctrl := None; appCache := None |}.

Lemma start_ok on port path w : state_ok (start on port path w).
Proof.
  assert (AppStore.store_ok (snd (AppStore.Load (AppStore.newAppStore path) w))) as Hst.
  { apply AppStore.load_ok. by intros ? ?. }
  unfold start, SetSocksPort. destruct (port =? 0)%Z; by split; [split|].
Qed.
End operations.

(** C10: Routing, enabling, removing or launching an application does what it
    says, down to the extension: after any operations from the start, such an
    operation that succeeds leaves in the file exactly the applications that
    are enabled or have a routed process, the one it was about among them or
    gone from them, and an extension in any state that reads the file captures
    exactly these, if there are any. *)
Theorem extension_follows_the_applications (home : option string) (host : Procproxy.Host) (on : bool) (port : Z)
    (path : string) (w0 : W) (os : list Op) (o : Op) (s' : State R) (w' : W) :
  sets_targets o = true →
  (let '(s, w) := run_ops home host os (start on port path w0, w0) in run_op home host o s w) = (None, s', w') →
  achieves o s' ∧
  ∃ c text, ctrl s' = Some c ∧ ReadFile (Netext.cfgPath c) w' = Ok text ∧
    (∀ id, id ∈ Netext.ctargets c ↔ to_capture s' id) ∧
    (Netext.controller_valid c → (0 < Netext.cport c < 65536)%Z → (∃ id, to_capture s' id) →
      ∀ x, let x' := Netext.loadConfigFile text x in
        (∀ id, Netext.shouldCapture id x' = true ↔ to_capture s' id) ∧
        Netext.x_host x' = "127.0.0.1" ∧ Netext.x_port x' = Netext.cport c).
Proof.
  intros Hop Hrun. pose proof (run_ops_ok home host os _ w0 (start_ok on port path w0)) as Hs.
  destruct (run_ops home host os _) as [s w]. cbn [fst] in Hs. pose proof (run_op_good home host o s w Hs) as Ho.
  rewrite Hrun in Ho. destruct Ho as [Hs' Ho]. destruct (Ho eq_refl Hop) as [(c & Hc & Hids & Hsocks & Hr) Ha]. split; [exact Ha|].
  exists c, (Netext.config_text c). split; [done|]. split; [done|]. split; [done|]. intros Hv Hport [id Hid] x.
  destruct (Netext.file_reaches_the_extension c x Hv) as (Hx & Hh & Hp).
  - intros He. apply Hids in Hid. rewrite He in Hid. by apply not_elem_of_empty in Hid.
  - by rewrite Hsocks.
  - done.
  - cbv zeta. rewrite Hh, Hp, Hsocks. split; [|done]. intros id'. rewrite Hx, Hids.
    split; [by intros [? _]|]. intros ?. split; [done|]. eapply to_capture_named; [apply Hs'|done].
Qed.

(** The other operations leave the set as it was: a process that is routed by
    its number is not captured until something else writes the set, nor is an
    application that is unrouted released. *)
Lemma other_operations_keep_targets home host o s w e s' w' :
  sets_targets o = false → run_op home host o s w = (e, s', w') → ctrl s' = ctrl s.
Proof.
  assert (ctrl (snd (procRouter s)) = ctrl s) as Hp by (unfold procRouter; by destruct (router s)).
  destruct o as [id|id on|id|path|id|pid|pid|pid|argv|pid]; intros [=]; cbn [run_op error_of];
    unfold UnrouteApp, RoutePID, UnroutePID, StopProxied, LaunchProxied, RestartProxied;
    destruct (procRouter s) as [r s1]; cbn [snd] in Hp;
    try (destruct (negb (running s)); [by intros [= _ <- _]|]).
  - destruct (unroute_all _ r w) as [[? ?] ?]. by intros [= _ <- _].
  - destruct (router_AddPID pid r w) as [[? ?] ?]. by intros [= _ <- _].
  - destruct (router_Unroute pid r w) as [[? ?] ?]. by intros [= _ <- _].
  - destruct (router_Kill pid r w) as [[? ?] ?]. by intros [= _ <- _].
  - destruct (router_Launch argv r w) as [[? ?] ?]. by intros [= _ <- _].
  - destruct (router_RestartPID pid r w) as [[? ?] ?]. by intros [= _ <- _].
Qed.

(** A change of the port reaches the next router and not the controller, which
    goes on writing the old one. *)
Lemma port_change_misses_the_extension home (p : Z) s c : ctrl s = Some c →
  fst (controller home (resetRouter (SetSocksPort p s))) = c ∧
  fst (procRouter (resetRouter (SetSocksPort p s))) = NewRouter (router_config (SetSocksPort p s)).
Proof. intros Hc. unfold controller, SetSocksPort. by destruct (p =? 0)%Z; cbn; rewrite Hc. Qed.

(** When nothing is left to capture, a successful write leaves the extension
    capturing what it did. *)
Lemma last_application_stays_captured s w : synced s w → (∀ id, ¬ to_capture s id) →
  ∃ c text, ctrl s = Some c ∧ ReadFile (Netext.cfgPath c) w = Ok text ∧
    ∀ x id, Netext.shouldCapture id (Netext.loadConfigFile text x) = Netext.shouldCapture id x.
Proof.
  intros (c & Hc & Hids & Hsocks & Hr) Hno. exists c, (Netext.config_text c). split; [done|]. split; [done|]. intros x id.
  apply Netext.emptied_targets_stay_captured; [by rewrite Hsocks|]. apply set_eq. intros i. rewrite Hids.
  split; [intros Hi; by destruct (Hno i)|by intros ?%not_elem_of_empty].
Qed.

(** *** The running applications, grouped *)

(** The processes that count, each with its bundle. *)
Definition row_id (reads : App → Reads) (row : App) : string := fst (resolveApplicationPID (reads row)).
Definition named_rows (reads : App → Reads) (rows : list App) : list (string * App) :=
  filter (λ p, fst p ≠ "") ((λ row, (row_id reads row, row)) <$> rows).
Definition app_rows (reads : App → Reads) (rows : list App) (id : string) : list App := filter (λ row, row_id reads row = id) rows.

Lemma list_rows reads rows apps ids :
  fst (foldl (list_row reads) (apps, ids) rows) = foldl add_app apps (named_rows reads rows).
Proof.
  revert apps ids. induction rows as [|row rows IH]; intros apps ids; [done|]. cbn [foldl].
  assert (fst (list_row reads (apps, ids) row) = if String.eqb (row_id reads row) "" then apps else add_app apps (row_id reads row, row)) as Hr.
  { unfold list_row, row_id. by destruct (resolveApplicationPID (reads row)). }
  destruct (list_row reads (apps, ids) row) as [apps' ids']. cbn [fst] in Hr. subst apps'. rewrite IH.
  unfold named_rows. rewrite fmap_cons, filter_cons. cbn [fst].
  destruct (String.eqb_spec (row_id reads row) ""); by case_decide.
Qed.

Lemma grown_app l a : foldl (λ b p, grow_app p b) a l = {|
  a_name := a_name a; a_bundleID := a_bundleID a; a_running := a_running a; a_pids := a_pids a ++ (aPID ∘ snd <$> l) |}.
Proof.
  revert a. induction l as [|p l IH]; intros a; cbn [foldl]; [rewrite app_nil_r; by destruct a|].
  rewrite IH. cbn. by rewrite <- app_assoc.
Qed.

Lemma named_rows_id reads rows id : id ≠ "" → filter (λ p, fst p = id) (named_rows reads rows) =
  (λ row, (id, row)) <$> app_rows reads rows id.
Proof.
  intros Hne. unfold named_rows, app_rows. induction rows as [|row rows IH]; [done|]. rewrite fmap_cons, !filter_cons. cbn [fst].
  destruct (decide (row_id reads row ≠ "")) as [Hn|Hn]; [rewrite filter_cons; cbn [fst]|].
  - case_decide as He; rewrite IH; [rewrite fmap_cons; by rewrite He|done].
  - rewrite IH. case_decide as He; [|done]. exfalso. apply Hn. by rewrite He.
Qed.

(** The list of running applications is the processes grouped by bundle:
    every bundle once, in the order of its first process and under its name,
    with exactly its processes in order; processes without a bundle, or whose
    number changed hands while it was looked up, are left out. *)
Theorem applications_are_grouped (reads : App → Reads) (rows : list App) (ids : option (gmap Z string)) :
  let apps := fst (foldl (list_row reads) ([], ids) rows) in
  a_bundleID <$> apps = dedup_from [] (filter (λ id, id ≠ "") (row_id reads <$> rows)) ∧
  Forall (λ a, a_running a = true ∧ a_pids a = aPID <$> app_rows reads rows (a_bundleID a) ∧
               Some (a_name a) = aName <$> head (app_rows reads rows (a_bundleID a))) apps.
Proof.
  cbv zeta. rewrite list_rows.
  destruct (group_spec fst a_bundleID new_app grow_app (λ _, eq_refl) (λ _ _, eq_refl) (named_rows reads rows)) as [Hn Hb].
  fold add_app in Hn, Hb. assert (fst <$> named_rows reads rows = filter (λ id, id ≠ "") (row_id reads <$> rows)) as He.
  { unfold named_rows. clear. induction rows as [|row rows IH]; [done|]. rewrite !fmap_cons, !filter_cons. cbn [fst].
    case_decide; [rewrite fmap_cons; cbn [fst]; by f_equal|done]. }
  split; [by rewrite Hn, He|]. apply Forall_forall. intros a Ha. pose proof (proj1 (Forall_forall _ _) Hb a Ha) as Hba.
  assert (a_bundleID a ≠ "") as Hne.
  { apply (list_elem_of_fmap_2 a_bundleID) in Ha. rewrite Hn, He in Ha.
    by apply elem_of_dedup_from in Ha as [[? _]%list_elem_of_filter _]. }
  unfold bucket in Hba. rewrite named_rows_id in Hba by done.
  destruct (app_rows reads rows (a_bundleID a)) as [|row r]; [done|]. rewrite fmap_cons, grown_app in Hba.
  injection Hba as Hba. rewrite <- Hba. cbn. split; [done|]. split; [|done]. by rewrite <- list_fmap_compose.
Qed.
End facts.

(** ** A run *)

Module Run.
Definition Files := gmap string string.

#[export] Instance procs : Procproxy.Processes Files := {|
  Procproxy.Start := λ _ w, (Ok 9%Z, w); Procproxy.ps_args := λ _ _, None;
  Procproxy.ps_comm := λ pid _, if (pid =? 7)%Z then Some "/Applications/B.app/Contents/MacOS/B" else Some "/Applications/C.app";
  Procproxy.defaults_read := λ plist _, if String.eqb plist "/Applications/B.app/Contents/Info" then Some "com.b" else Some "com.c";
  Procproxy.Signal := λ _ w, (None, w) |}.
#[export] Instance approved : Extends Files := {| ext_available := λ w, (true, w) |}.
#[export] Instance table : ProcTable Files := {|
  listProcRows := λ _, Ok [{| aPID := 7; aName := "B"; aPorts := []; Children := 0 |}];
  processIdentity := λ _ _, None;
  bundleIDForPID := λ pid w, Procproxy.bundle_of_pid pid w;
  bundleIDOf := λ p w, Procproxy.bundle_of_path p w |}.
#[export] Instance unicode : GoUnicode := ascii_only.
#[export] Instance fold : GoFold := Procproxy.exact_fold.

Definition host : Procproxy.Host := Procproxy.ex_host.
Definition home : option string := Some "/Users/a".
#[export] Instance router_ : Router Darwin Files | 0 := darwin_Router host.
#[export] Instance router_laws : RouterLaws Darwin Files | 0 := darwin_RouterLaws host.

Definition before_ : State Darwin * Files := run_ops home host [ORoutePID 8] (start true 0 "/c/apps.json" ∅, ∅).
Definition after_ : option AppError * State Darwin * Files :=
  run_op home host (ORouteApp " com.b ") (fst before_) (snd before_).
Definition state_after : State Darwin := snd (fst after_).
Definition extension : Netext.Extension := {| Netext.x_targets := {["com.old"]}; Netext.x_host := "127.0.0.1"; Netext.x_port := 1 |}.

Definition controller_after : Netext.Controller := {|
  Netext.ctargets := {["com.b"; "com.c"]}; Netext.csocks := "127.0.0.1"; Netext.cport := 1080;
  Netext.cfgPath := "/Users/a/Library/Group Containers/group.com.singctl.proxy/config.json" |}.

Lemma run_succeeds : fst (fst after_) = None ∧ ctrl state_after = Some controller_after.
Proof. split; [by vm_compute|]. vm_compute. reflexivity. Qed.

Lemma controller_after_valid : Netext.controller_valid controller_after.
Proof. split; [|reflexivity]. refine (bool_decide_unpack _ _). vm_compute. exact I. Qed.
End Run.
Import Run.

Lemma extension_follows_the_applications_witness :
  enabled_app Run.state_after (TrimSpace " com.b ") ∧
  ∃ text, ReadFile (Netext.cfgPath Run.controller_after) (snd Run.after_) = Ok text ∧
    ∀ id, Netext.shouldCapture id (Netext.loadConfigFile text Run.extension) = true ↔ to_capture Run.state_after id.
Proof.
  assert ((let '(s, w) := before_ in run_op home host (ORouteApp " com.b ") s w) = (None, Run.state_after, snd Run.after_)) as Ha.
  { transitivity after_; [unfold after_; by destruct before_|]. unfold Run.state_after. rewrite (surjective_pairing Run.after_) at 1. rewrite (surjective_pairing (fst Run.after_)) at 1.
    by rewrite (proj1 Run.run_succeeds). }
  destruct (extension_follows_the_applications (H := router_) (H1 := map_FS) (H3 := table) (H5 := fold) Run.home Run.host true 0 "/c/apps.json" ∅ [ORoutePID 8] (ORouteApp " com.b ")
    Run.state_after (snd Run.after_) eq_refl Ha) as [He (c & text & Hc & Hr & _ & Hx)].
  rewrite (proj2 Run.run_succeeds) in Hc. injection Hc as <-. split; [exact He|]. exists text. split; [exact Hr|].
  apply (Hx Run.controller_after_valid); [split; reflexivity|]. exists (TrimSpace " com.b "). left. exact He.
Defined.

End Apps.
