(* ===== verification/Console.v ===== *)
(** * Console: the output of launched applications
    ([internal/app/executor.go], [internal/remote/backend.go])

    A daemon keeps the last lines its applications wrote in a ring, under
    numbers that grow, and an attached client asks again and again for the
    lines after the last number it has seen and pushes them to the channel it
    was given, if any, as long as that has room.  The numbers are Go's [int]:
    they would wrap after 2^63 lines. *)

From S2P Require Import Prelude GoStr.

Local Open Scope string_scope.
Local Open Scope list_scope.

Module Console.

(** [procproxy.OutputLine] *)
Record OutputLine := { l_PID : Z; l_App : string; l_Stream : string; l_Text : string }.

Record ConsoleEntry := { ID : Z; PID : Z; App : string; Stream : string; Text : string }.

Record Ring := { consoleLog : list ConsoleEntry; consoleSeq : Z }.
Definition ring0 : Ring := {| consoleLog := []; consoleSeq := 0 |}.

Definition consoleRingMax : nat := 2000.
Definition maxBatch : nat := 500.

(** [l[len(l)-n:]] when there are more than [n]. *)
Definition last_n {A} (n : nat) (l : list A) : list A := drop (length l - n) l.

Definition entry (id : Z) (l : OutputLine) : ConsoleEntry := {|
  ID := id; PID := l_PID l; App := l_App l; Stream := l_Stream l; Text := l_Text l |}.

Definition appendConsole (l : OutputLine) (r : Ring) : Ring :=
  let seq := (consoleSeq r + 1)%Z in
  {| consoleLog := last_n consoleRingMax (consoleLog r ++ [entry seq l]); consoleSeq := seq |}.

Definition ConsoleSince (id : Z) (r : Ring) : list ConsoleEntry :=
  last_n maxBatch (filter (λ e, (id < ID e)%Z) (consoleLog r)).

(** *** The attached client *)

Definition line (e : ConsoleEntry) : OutputLine := {| l_PID := PID e; l_App := App e; l_Stream := Stream e; l_Text := Text e |}.

(** What the client sends to its screen: a line, or rows and latencies, which
    share the channel. *)
Inductive msg := ConsoleMsg (l : OutputLine) | OtherMsg.

(** The screen's channel: a buffer of [cap] messages. *)
Record Notes := { cap : nat; queue : list msg }.

(** [Backend.push]: nothing without a channel, and a message that finds it
    full is dropped. *)
Definition push (m : msg) (notes : option Notes) : option Notes :=
  match notes with
  | None => None
  | Some n => if (length (queue n) <? cap n)%nat then Some {| cap := cap n; queue := queue n ++ [m] |} else Some n
  end.

(** The loop of the poller over one reply: the last number seen, and the
    channel. *)
Fixpoint take_reply (last : Z) (notes : option Notes) (es : list ConsoleEntry) : Z * option Notes :=
  match es with
  | [] => (last, notes)
  | e :: es => take_reply (if (last <? ID e)%Z then ID e else last) (push (ConsoleMsg (line e)) notes) es
  end.

(** The daemon's ring, the poller, its channel and what the screen has
    received. *)
Record World := { ring : Ring; last : Z; closed : bool; notes : option Notes; got : list msg }.

(** An application writes a line; a tick of the poller, whose request is
    answered or not (a reply that is no JSON is as good as none); the other
    poller pushes; the screen receives; the client closes. *)
Inductive event := Said (l : OutputLine) | Poll (answered : bool) | PushOther | Receive | Close.

Definition step (ev : event) (w : World) : World :=
  match ev with
  | Said l => {| ring := appendConsole l (ring w); last := last w; closed := closed w; notes := notes w; got := got w |}
  | Poll answered =>
      if closed w || negb answered then w
      else let '(last, notes) := take_reply (last w) (notes w) (ConsoleSince (last w) (ring w)) in
           {| ring := ring w; last := last; closed := closed w; notes := notes; got := got w |}
  | PushOther => {| ring := ring w; last := last w; closed := closed w; notes := push OtherMsg (notes w); got := got w |}
  | Receive =>
      match notes w with
      | Some {| cap := c; queue := m :: q |} =>
          {| ring := ring w; last := last w; closed := closed w; notes := Some {| cap := c; queue := q |}; got := got w ++ [m] |}
      | _ => w
      end
  | Close => {| ring := ring w; last := last w; closed := true; notes := notes w; got := got w |}
  end.

(** [New], in front of a daemon with this ring. *)
Definition attach (r : Ring) (n : option Notes) : World := {| ring := r; last := 0; closed := false; notes := n; got := [] |}.

Definition run (evs : list event) (w : World) : World := foldl (λ w ev, step ev w) w evs.

(** ** The ring *)

Lemma last_n_all {A} n (l : list A) : (length l <= n)%nat → last_n n l = l.
Proof. intros Hl. unfold last_n. by replace (length l - n)%nat with 0%nat by lia. Qed.

Lemma last_n_length {A} n (l : list A) : (length (last_n n l) <= n)%nat.
Proof. unfold last_n. rewrite length_drop. lia. Qed.

Lemma last_n_app_ge {A} n (l k : list A) : (n <= length k)%nat → last_n n (l ++ k) = last_n n k.
Proof.
  intros Hn. unfold last_n. rewrite length_app.
  replace (length l + length k - n)%nat with (length l + (length k - n))%nat by lia. apply drop_app_add.
Qed.

Lemma last_n_snoc {A} n m (l : list A) x : (m <= n)%nat → last_n m (last_n n l ++ [x]) = last_n m (l ++ [x]).
Proof.
  intros Hm. destruct (decide (length l <= n)%nat) as [Hl|Hl]; [by rewrite (last_n_all n l)|].
  change (last_n n l) with (drop (length l - n) l).
  replace (l ++ [x]) with (take (length l - n) l ++ (drop (length l - n) l ++ [x])) by (by rewrite app_assoc, take_drop).
  symmetry. apply last_n_app_ge. rewrite length_app, length_drop. simpl. lia.
Qed.

(** The lines under their numbers. *)
Fixpoint numbered (from : Z) (ls : list OutputLine) : list ConsoleEntry :=
  match ls with [] => [] | l :: ls => entry (from + 1) l :: numbered (from + 1) ls end.

Lemma numbered_length k ls : length (numbered k ls) = length ls.
Proof. revert k. induction ls; intros k; simpl; auto. Qed.
Lemma numbered_app k ls ls' : numbered k (ls ++ ls') = numbered k ls ++ numbered (k + Z.of_nat (length ls)) ls'.
Proof.
  revert k. induction ls as [|l ls IH]; intros k; simpl; [by rewrite Z.add_0_r|].
  rewrite IH. do 3 f_equal. lia.
Qed.
Lemma numbered_drop n k ls : drop n (numbered k ls) = numbered (k + Z.of_nat (Nat.min n (length ls))) (drop n ls).
Proof.
  revert n k. induction ls as [|l ls IH]; intros n k; [simpl; by rewrite !drop_nil|].
  destruct n as [|n]; [by rewrite !drop_0, Z.add_0_r|]. simpl. rewrite IH. f_equal. lia.
Qed.
Lemma numbered_above k ls e : e ∈ numbered k ls → (k < ID e <= k + Z.of_nat (length ls))%Z.
Proof.
  revert k. induction ls as [|l ls IH]; intros k; simpl; [by rewrite elem_of_nil|].
  rewrite elem_of_cons. intros [->|He]; [simpl; lia|]. apply IH in He. lia.
Qed.

(** After any lines the ring holds the last two thousand of them. *)
Definition holds (all : list OutputLine) (r : Ring) : Prop :=
  consoleSeq r = Z.of_nat (length all) ∧ consoleLog r = last_n consoleRingMax (numbered 0 all).

Lemma append_holds all l r : holds all r → holds (all ++ [l]) (appendConsole l r).
Proof.
  intros [Hs Hl]. split; simpl.
  - rewrite Hs, length_app. simpl. lia.
  - rewrite Hl, Hs, last_n_snoc by lia. by rewrite numbered_app.
Qed.

Lemma appends_hold all g r : holds all r → holds (all ++ g) (foldl (λ r l, appendConsole l r) r g).
Proof.
  revert all r. induction g as [|l g IH]; intros all r Hr; [by rewrite app_nil_r|].
  rewrite (app_assoc all [l] g : all ++ l :: g = _). by apply IH, append_holds.
Qed.

(** ** The replies *)

Lemma filter_later k from ls : (k <= from)%Z → filter (λ e, (k < ID e)%Z) (numbered from ls) = numbered from ls.
Proof.
  revert from. induction ls as [|l ls IH]; intros from Hk; [done|]. cbn [numbered].
  rewrite filter_cons, decide_True by (simpl; lia). f_equal. apply IH. lia.
Qed.

Lemma filter_numbered k from ls : (from <= k <= from + Z.of_nat (length ls))%Z →
  filter (λ e, (k < ID e)%Z) (numbered from ls) = numbered k (drop (Z.to_nat (k - from)) ls).
Proof.
  revert from. induction ls as [|l ls IH]; intros from Hk; [by rewrite drop_nil|]. cbn [numbered]. rewrite filter_cons.
  destruct (decide (k = from)) as [->|Hne].
  - rewrite Z.sub_diag, decide_True by (simpl; lia). rewrite drop_0. cbn [numbered]. f_equal. apply filter_later. lia.
  - simpl in Hk. rewrite decide_False by (simpl; lia). rewrite IH by lia.
    by replace (Z.to_nat (k - from)) with (S (Z.to_nat (k - (from + 1)))) by lia.
Qed.

Lemma last_n_drop {A} n d (l : list A) : (d + n <= length l)%nat → last_n n (drop d l) = last_n n l.
Proof. intros Hd. unfold last_n. rewrite drop_drop, length_drop. f_equal. lia. Qed.

(** What a client that has seen the first [k] lines is answered. *)
Lemma since_spec all r k : holds all r → (k <= length all)%nat →
  ConsoleSince (Z.of_nat k) r = last_n maxBatch (numbered (Z.of_nat k) (drop k all)).
Proof.
  intros [_ Hl] Hk. unfold ConsoleSince. rewrite Hl. unfold last_n at 2. rewrite numbered_drop, numbered_length.
  set (d := (length all - consoleRingMax)%nat). rewrite Nat.min_l by lia.
  destruct (decide (d <= k)%nat) as [Hd|Hd].
  - rewrite filter_numbered by (rewrite length_drop; lia). rewrite drop_drop. do 3 f_equal. lia.
  - replace (numbered (0 + Z.of_nat d) (drop d all)) with (drop (d - k) (numbered (Z.of_nat k) (drop k all))).
    + rewrite numbered_drop, length_drop, Nat.min_l by lia. rewrite drop_drop, filter_later by lia.
      rewrite <- (last_n_drop maxBatch (d - k) (numbered (Z.of_nat k) (drop k all))).
      * rewrite numbered_drop, length_drop, Nat.min_l by lia. by rewrite drop_drop.
      * rewrite numbered_length, length_drop. unfold d, consoleRingMax, maxBatch in *. lia.
    + rewrite numbered_drop, length_drop, Nat.min_l by lia. rewrite drop_drop. f_equal; [lia|]. f_equal. lia.
Qed.

(** ** The channel *)

Definition console_lines (ms : list msg) : list OutputLine := omap (λ m, match m with ConsoleMsg l => Some l | OtherMsg => None end) ms.

Definition queued (n : option Notes) : list msg := match n with Some n => queue n | None => [] end.

(** Messages pushed one after the other. *)
Definition pushes (ms : list msg) (n : option Notes) : option Notes := foldl (λ n m, push m n) n ms.

Lemma push_none ms : pushes ms None = None.
Proof. unfold pushes. by induction ms. Qed.

(** Some of the messages are queued, in their order; all of them when there
    is room. *)
Lemma pushes_sublist ms n : ∃ ms', queued (pushes ms n) = queued n ++ ms' ∧ ms' `sublist_of` ms ∧
  ((∀ m, n = Some m → (length (queue m) + length ms <= cap m)%nat) → n ≠ None → ms' = ms).
Proof.
  destruct n as [n|]; [|exists []; rewrite push_none; split; [done|]; split; [apply sublist_nil_l|done]].
  revert n. induction ms as [|m ms IH]; intros n.
  { exists []. cbn. by rewrite app_nil_r. }
  change (pushes (m :: ms) (Some n)) with (pushes ms (push m (Some n))). cbn [push]. destruct (Nat.ltb_spec (length (queue n)) (cap n)) as [Hl|Hl].
  - destruct (IH {| cap := cap n; queue := queue n ++ [m] |}) as (ms' & Hq & Hs & Hr). cbn [queued queue cap] in *.
    exists (m :: ms'). rewrite Hq, <- app_assoc. split; [done|]. split; [by apply sublist_skip|].
    intros Hroom Hne. f_equal. apply Hr; [|done]. intros k [= <-]. cbn [queue cap]. rewrite length_app. specialize (Hroom n eq_refl). cbn in *. lia.
  - destruct (IH n) as (ms' & Hq & Hs & Hr). exists ms'. split; [done|]. split; [by apply sublist_cons|].
    intros Hroom. specialize (Hroom n eq_refl). cbn in Hroom. lia.
Qed.

(** The loop ends at the last number, with the lines pushed in order. *)
Lemma take_numbered k from n ls : (k <= from)%Z →
  take_reply k n (numbered from ls) =
    (if decide (ls = []) then k else (from + Z.of_nat (length ls))%Z, pushes (ConsoleMsg <$> ls) n).
Proof.
  revert k from n. induction ls as [|l ls IH]; intros k from n Hl; [done|]. cbn [numbered take_reply].
  rewrite (proj2 (Z.ltb_lt k (ID (entry (from + 1) l)))) by (simpl; lia). rewrite IH by (simpl; lia).
  simpl. f_equal; [|by destruct l]. destruct (decide (ls = [])) as [->|]; simpl; lia.
Qed.

Lemma last_n_numbered n from ls : last_n n (numbered from ls) = numbered (from + Z.of_nat (length ls - n)) (last_n n ls).
Proof.
  unfold last_n. rewrite numbered_drop, numbered_length. do 2 f_equal. lia.
Qed.

Lemma console_poll_spec all r k n : holds all r → (k <= length all)%nat →
  take_reply (Z.of_nat k) n (ConsoleSince (Z.of_nat k) r) =
    (Z.of_nat (length all), pushes (ConsoleMsg <$> last_n maxBatch (drop k all)) n).
Proof.
  intros Hr Hk. rewrite (since_spec all) by done. rewrite last_n_numbered, take_numbered by lia. f_equal.
  destruct (decide _) as [He|He].
  - apply (f_equal length) in He. unfold last_n in He. rewrite !length_drop in He. unfold maxBatch in He. simpl in He. lia.
  - unfold last_n. rewrite !length_drop. unfold maxBatch. lia.
Qed.

(** ** Following *)

(** What the poller hands to [push]: at each answered poll before the client
    closes, the last five hundred of the lines not seen before. *)
Fixpoint handed (unseen : list OutputLine) (evs : list event) : list OutputLine :=
  match evs with
  | [] => []
  | Said l :: evs => handed (unseen ++ [l]) evs
  | Poll true :: evs => last_n maxBatch unseen ++ handed [] evs
  | Close :: _ => []
  | _ :: evs => handed unseen evs
  end.

(** Every answered poll finds room in the channel for its reply. *)
Definition room (unseen : list OutputLine) (ev : event) (w : World) : bool :=
  match ev, closed w, notes w with
  | Poll true, false, Some n => (length (queue n) + length (last_n maxBatch unseen) <=? cap n)%nat
  | _, _, _ => true
  end.
Fixpoint roomy (unseen : list OutputLine) (evs : list event) (w : World) : bool :=
  match evs with
  | [] => true
  | ev :: evs => room unseen ev w && roomy (match ev with Said l => unseen ++ [l] | Poll true => [] | _ => unseen end) evs (step ev w)
  end.

(** What the screen has and will receive of the console. *)
Definition reaching (w : World) : list OutputLine := console_lines (got w ++ queued (notes w)).

Lemma console_lines_map ls : console_lines (ConsoleMsg <$> ls) = ls.
Proof. unfold console_lines. induction ls as [|l ls IH]; [done|]. cbn. by f_equal. Qed.

Lemma sublist_omap {A B} (f : A → option B) l k : l `sublist_of` k → omap f l `sublist_of` omap f k.
Proof.
  induction 1 as [|x l k H IH|x l k H IH]; [done| |]; cbn; destruct (f x); try done; by constructor.
Qed.

Lemma other_reaches w : reaching (step PushOther w) = reaching w.
Proof.
  unfold reaching. cbn [step got notes]. destruct (notes w) as [n|]; [|done]. cbn [push].
  destruct (_ <? _)%nat; [|done]. cbn [queued queue]. unfold console_lines. rewrite app_assoc, omap_app. cbn. by rewrite app_nil_r.
Qed.

Lemma receive_reaches w : reaching (step Receive w) = reaching w ∧ (notes (step Receive w) = None ↔ notes w = None) ∧
  ring (step Receive w) = ring w ∧ last (step Receive w) = last w ∧ closed (step Receive w) = closed w.
Proof.
  unfold reaching. cbn [step]. destruct (notes w) as [[c [|m q]]|] eqn:Hn; rewrite ?Hn; try done.
  cbn. by rewrite <- app_assoc.
Qed.

Lemma closed_run evs w : closed w = true → reaching (run evs w) = reaching w.
Proof.
  revert w. induction evs as [|ev evs IH]; intros w Hc; [done|]. change (run (ev :: evs) w) with (run evs (step ev w)).
  destruct ev as [l|a| | |].
  - by rewrite IH.
  - cbn [step]. rewrite Hc. by apply IH.
  - rewrite IH by done. apply other_reaches.
  - destruct (receive_reaches w) as (E & _ & _ & _ & Ec). rewrite IH, E by congruence. done.
  - by rewrite IH.
Qed.

Lemma run_reaches evs all k w : holds all (ring w) → (k <= length all)%nat → last w = Z.of_nat k → closed w = false →
  ∃ ls, reaching (run evs w) = reaching w ++ ls ∧ ls `sublist_of` handed (drop k all) evs ∧
  (notes w ≠ None → roomy (drop k all) evs w = true → ls = handed (drop k all) evs).
Proof.
  revert all k w. induction evs as [|ev evs IH]; intros all k w Hh Hk Hl Hc.
  { exists []. rewrite app_nil_r. split; [done|]. split; [done|]. done. }
  change (run (ev :: evs) w) with (run evs (step ev w)). destruct ev as [l|a| | |].
  - destruct (IH (all ++ [l]) k (step (Said l) w)) as (ls & E & Hs & Hr); try done.
    { by apply append_holds. } { rewrite length_app. lia. }
    rewrite drop_app_le in Hs, Hr by done. exists ls. cbn [handed roomy]. split; [exact E|]. split; [done|]. intros Hn [_ Hro]%andb_true_iff. by apply Hr.
  - destruct a.
    2:{ cbn [step handed roomy]. rewrite orb_true_r. destruct (IH all k w) as (ls & E & Hs & Hr); try done. exists ls.
        split; [done|]. split; [done|]. intros Hn [_ Hro]%andb_true_iff. by apply Hr. }
    cbn [handed roomy]. cbn [step]. rewrite Hc, Hl. cbn [orb negb]. rewrite (console_poll_spec all) by done.
    set (reply := last_n maxBatch (drop k all)). set (w1 := {| ring := ring w |}).
    destruct (IH all (length all) w1) as (ls & E & Hs & Hr); try done.
    rewrite drop_all in Hs, Hr. destruct (pushes_sublist (ConsoleMsg <$> reply) (notes w)) as (ms & Hq & Hms & Hroom).
    assert (reaching w1 = reaching w ++ console_lines ms) as E1.
    { unfold reaching, w1. cbn [got notes]. rewrite Hq, app_assoc. unfold console_lines. by rewrite omap_app. }
    exists (console_lines ms ++ ls). rewrite E, E1, app_assoc. split; [done|]. split.
    + apply sublist_app; [|done]. rewrite <- (console_lines_map reply). by apply sublist_omap.
    + intros Hn [Hro1 Hro2]%andb_true_iff. f_equal.
      * rewrite Hroom; [apply console_lines_map| |done]. intros n Hm. rewrite length_fmap. unfold room in Hro1. rewrite Hc, Hm in Hro1. by apply Nat.leb_le.
      * apply Hr; [|done]. unfold w1. cbn [notes]. intros He. destruct (notes w) as [n|]; [|done].
        clear -He. revert n He. induction (ConsoleMsg <$> reply) as [|m ms' IHm]; [done|]. intros n. unfold pushes. cbn [foldl push].
        destruct (_ <? _)%nat; apply IHm.
  - destruct (IH all k (step PushOther w)) as (ls & E & Hs & Hr); try done. exists ls. rewrite E, other_reaches. cbn [handed roomy].
    split; [done|]. split; [done|]. intros Hn [_ Hro]%andb_true_iff. apply Hr; [|done]. cbn [step notes]. destruct (notes w) as [m|]; [|done]. cbn [push]. by case_match.
  - destruct (receive_reaches w) as (E0 & Hn0 & Hr0 & Hl0 & Hc0). destruct (IH all k (step Receive w)) as (ls & E & Hs & Hr); try congruence.
    exists ls. rewrite E, E0. cbn [handed roomy]. split; [done|]. split; [done|]. intros Hn [_ Hro]%andb_true_iff. apply Hr; [|done]. by rewrite Hn0.
  - exists []. rewrite (closed_run evs) by done. cbn [handed]. rewrite app_nil_r. done.
Qed.

Lemma take_reply_none k es : (take_reply k None es).2 = None.
Proof. revert k. induction es as [|e es IH]; intros k; [done|]. apply IH. Qed.

Lemma no_channel evs w : notes w = None → got w = [] → notes (run evs w) = None ∧ got (run evs w) = [].
Proof.
  revert w. induction evs as [|ev evs IH]; intros w Hn Hg; [done|]. apply IH; destruct ev as [l|a| | |]; cbn; rewrite ?Hn; try done.
  - destruct (_ || _); [done|]. pose proof (take_reply_none (last w) (ConsoleSince (last w) (ring w))) as Hr.
    by destruct (take_reply _ _ _).
  - destruct (_ || _); [done|]. by destruct (take_reply _ _ _).
Qed.

(** Between the polls of a client that asks often enough nothing is cut. *)
Fixpoint paced (unseen : nat) (evs : list event) : Prop :=
  match evs with
  | [] | Close :: _ => True
  | Said _ :: evs => paced (S unseen) evs
  | Poll true :: evs => (unseen <= maxBatch)%nat ∧ paced 0 evs
  | _ :: evs => paced unseen evs
  end.

(** The lines said up to the last answered poll. *)
Fixpoint polled (unseen : list OutputLine) (evs : list event) : list OutputLine :=
  match evs with
  | [] | Close :: _ => []
  | Said l :: evs => polled (unseen ++ [l]) evs
  | Poll true :: evs => unseen ++ polled [] evs
  | _ :: evs => polled unseen evs
  end.

Lemma paced_handed unseen evs : paced (length unseen) evs → handed unseen evs = polled unseen evs.
Proof.
  revert unseen. induction evs as [|[l|[]| | |] evs IH]; intros unseen; cbn [paced handed polled]; try done; try (by apply IH).
  - intros Hp. apply IH. by rewrite length_app, Nat.add_comm.
  - intros [Hl Hp]. by rewrite last_n_all, (IH []).
Qed.


(** The only client the program makes has no channel, so no line ever reaches
    a screen. *)
Lemma headless_client_shows_nothing (r : Ring) (evs : list event) l : l ∉ reaching (run evs (attach r None)).
Proof.
  destruct (no_channel evs (attach r None)) as [Hn Hg]; [done|done|]. unfold reaching. rewrite Hn, Hg. apply not_elem_of_nil.
Qed.

(** A burst of more lines than a reply holds loses its beginning for good,
    although the ring still has it: the reply is cut at the front and the
    client goes on after its end. *)
Lemma burst_loses_lines (l : OutputLine) (old burst : list OutputLine) : length burst = maxBatch →
  handed old (Poll true :: (Said <$> l :: burst) ++ [Poll true; Poll true]) = last_n maxBatch old ++ burst.
Proof.
  intros Hb. cbn [handed]. f_equal.
  assert (∀ ls unseen evs, handed unseen ((Said <$> ls) ++ evs) = handed (unseen ++ ls) evs) as Hsaid.
  { induction ls as [|x ls IH]; intros unseen evs; [by rewrite app_nil_r|]. cbn. by rewrite IH, <- app_assoc. }
  rewrite Hsaid. cbn [handed app]. change (last_n maxBatch (l :: burst)) with (last_n maxBatch ([l] ++ burst)).
  rewrite last_n_app_ge, last_n_all by lia. apply app_nil_r.
Qed.

Definition said (t : string) : OutputLine := {| l_PID := 7; l_App := "a"; l_Stream := "stdout"; l_Text := t |}.

Definition fl_events : list event :=
  [Said (said "b"); Poll true; Receive; Said (said "c"); Poll false; Said (said "d"); PushOther; Poll true; Receive; Poll true].


End Console.
