(* ===== verification/ClashApi.v ===== *)
(** * ClashApi: what the engine reports ([internal/clashapi], [internal/clashui])

    The client of the engine's HTTP interface, the connection table with its
    totals per application and per destination, the latencies of the failover
    group, and the poller with its memory of what it has logged and of the
    process names it has looked up.  The HTTP exchange itself is an argument:
    what a request is answered. *)

From S2P Require Import Prelude GoStr GoUtf8 GoNet GoUrl GoHttp GoQuery Registry Schema Link GoJson GoJsonData Sub Store.
Import Json Data Store.

Local Open Scope string_scope.
Local Open Scope list_scope.

Module ClashApi.

(** ** Data *)

Record Metadata := {
  Network : string; Type_ : string; SourceIP : string; DestinationIP : string; SourcePort : string;
  DestinationPort : string; Host : string; Process : string; ProcessPath : string }.

Record Connection := {
  ID : string; Meta : Metadata; Upload : Z; Download : Z; Start : option Z; Chains : list string; Rule : string }.

Record DelayHistory := { Time : option Z; Delay : Z; Error : string }.
Record ProxyState := { p_type : string; p_name : string; Now : string; All : list string; History : list DelayHistory }.

Definition with_process (p : string) (m : Metadata) : Metadata := {|
  Network := Network m; Type_ := Type_ m; SourceIP := SourceIP m; DestinationIP := DestinationIP m;
  SourcePort := SourcePort m; DestinationPort := DestinationPort m; Host := Host m; Process := p;
  ProcessPath := ProcessPath m |}.
Definition with_meta (m : Metadata) (c : Connection) : Connection := {|
  ID := ID c; Meta := m; Upload := Upload c; Download := Download c; Start := Start c; Chains := Chains c; Rule := Rule c |}.

Definition no_metadata : Metadata := {|
  Network := ""; Type_ := ""; SourceIP := ""; DestinationIP := ""; SourcePort := ""; DestinationPort := ""; Host := "";
  Process := ""; ProcessPath := "" |}.
Definition no_connection : Connection := {|
  ID := ""; Meta := no_metadata; Upload := 0; Download := 0; Start := None; Chains := []; Rule := "" |}.
Definition no_history : DelayHistory := {| Time := None; Delay := 0; Error := "" |}.
Definition no_state : ProxyState := {| p_type := ""; p_name := ""; Now := ""; All := []; History := [] |}.

Definition SourcePortNum (m : Metadata) : Z := match Atoi (SourcePort m) with Some n => n | None => 0%Z end.

Definition Dest (m : Metadata) : string :=
  let h := if String.eqb (Host m) "" then DestinationIP m else Host m in
  if String.eqb (DestinationPort m) "" then h else join_host_port h (DestinationPort m).

Definition Source (m : Metadata) : string :=
  if String.eqb (SourcePort m) "" then SourceIP m else join_host_port (SourceIP m) (SourcePort m).

Definition LastDelay (p : ProxyState) : Z := match last (History p) with Some h => Delay h | None => 0%Z end.
Definition LastError (p : ProxyState) : string := match last (History p) with Some h => Error h | None => "" end.

(** ** Decoding *)

Section decoding.
Context `{GoTime}.

Definition metadata_fields : Fields Metadata := [
  field "network" Network (λ v m, {| Network := v; Type_ := Type_ m; SourceIP := SourceIP m; DestinationIP := DestinationIP m; SourcePort := SourcePort m; DestinationPort := DestinationPort m; Host := Host m; Process := Process m; ProcessPath := ProcessPath m |}) dec_string;
  field "type" Type_ (λ v m, {| Network := Network m; Type_ := v; SourceIP := SourceIP m; DestinationIP := DestinationIP m; SourcePort := SourcePort m; DestinationPort := DestinationPort m; Host := Host m; Process := Process m; ProcessPath := ProcessPath m |}) dec_string;
  field "sourceip" SourceIP (λ v m, {| Network := Network m; Type_ := Type_ m; SourceIP := v; DestinationIP := DestinationIP m; SourcePort := SourcePort m; DestinationPort := DestinationPort m; Host := Host m; Process := Process m; ProcessPath := ProcessPath m |}) dec_string;
  field "destinationip" DestinationIP (λ v m, {| Network := Network m; Type_ := Type_ m; SourceIP := SourceIP m; DestinationIP := v; SourcePort := SourcePort m; DestinationPort := DestinationPort m; Host := Host m; Process := Process m; ProcessPath := ProcessPath m |}) dec_string;
  field "sourceport" SourcePort (λ v m, {| Network := Network m; Type_ := Type_ m; SourceIP := SourceIP m; DestinationIP := DestinationIP m; SourcePort := v; DestinationPort := DestinationPort m; Host := Host m; Process := Process m; ProcessPath := ProcessPath m |}) dec_string;
  field "destinationport" DestinationPort (λ v m, {| Network := Network m; Type_ := Type_ m; SourceIP := SourceIP m; DestinationIP := DestinationIP m; SourcePort := SourcePort m; DestinationPort := v; Host := Host m; Process := Process m; ProcessPath := ProcessPath m |}) dec_string;
  field "host" Host (λ v m, {| Network := Network m; Type_ := Type_ m; SourceIP := SourceIP m; DestinationIP := DestinationIP m; SourcePort := SourcePort m; DestinationPort := DestinationPort m; Host := v; Process := Process m; ProcessPath := ProcessPath m |}) dec_string;
  field "process" Process (λ v m, with_process v m) dec_string;
  field "processpath" ProcessPath (λ v m, {| Network := Network m; Type_ := Type_ m; SourceIP := SourceIP m; DestinationIP := DestinationIP m; SourcePort := SourcePort m; DestinationPort := DestinationPort m; Host := Host m; Process := Process m; ProcessPath := v |}) dec_string
].

Definition connection_fields : Fields Connection := [
  field "id" ID (λ v c, {| ID := v; Meta := Meta c; Upload := Upload c; Download := Download c; Start := Start c; Chains := Chains c; Rule := Rule c |}) dec_string;
  field "metadata" Meta with_meta (dec_struct metadata_fields);
  field "upload" Upload (λ v c, {| ID := ID c; Meta := Meta c; Upload := v; Download := Download c; Start := Start c; Chains := Chains c; Rule := Rule c |}) dec_int;
  field "download" Download (λ v c, {| ID := ID c; Meta := Meta c; Upload := Upload c; Download := v; Start := Start c; Chains := Chains c; Rule := Rule c |}) dec_int;
  field "start" Start (λ v c, {| ID := ID c; Meta := Meta c; Upload := Upload c; Download := Download c; Start := v; Chains := Chains c; Rule := Rule c |}) dec_time;
  field "chains" Chains (λ v c, {| ID := ID c; Meta := Meta c; Upload := Upload c; Download := Download c; Start := Start c; Chains := v; Rule := Rule c |}) (dec_list "" dec_string);
  field "rule" Rule (λ v c, {| ID := ID c; Meta := Meta c; Upload := Upload c; Download := Download c; Start := Start c; Chains := Chains c; Rule := v |}) dec_string
].

(** [connectionsResponse]: the totals are checked and not kept; [None] is a
    nil table. *)
Record ConnectionsResponse := { downloadTotal : Z; uploadTotal : Z; connections : option (list Connection) }.
Definition no_response : ConnectionsResponse := {| downloadTotal := 0; uploadTotal := 0; connections := None |}.

Definition response_fields : Fields ConnectionsResponse := [
  field "downloadtotal" downloadTotal (λ v r, {| downloadTotal := v; uploadTotal := uploadTotal r; connections := connections r |}) dec_int;
  field "uploadtotal" uploadTotal (λ v r, {| downloadTotal := downloadTotal r; uploadTotal := v; connections := connections r |}) dec_int;
  field "connections" connections (λ v r, {| downloadTotal := downloadTotal r; uploadTotal := uploadTotal r; connections := v |})
    (dec_slice no_connection (dec_struct connection_fields))
].

Record TrafficSnapshot := { Up : Z; Down : Z; Active : Z }.
Definition no_traffic : TrafficSnapshot := {| Up := 0; Down := 0; Active := 0 |}.
Definition traffic_fields : Fields TrafficSnapshot := [
  field "up" Up (λ v t, {| Up := v; Down := Down t; Active := Active t |}) dec_int;
  field "down" Down (λ v t, {| Up := Up t; Down := v; Active := Active t |}) dec_int;
  field "active" Active (λ v t, {| Up := Up t; Down := Down t; Active := v |}) dec_int
].

Definition history_fields : Fields DelayHistory := [
  field "time" Time (λ v h, {| Time := v; Delay := Delay h; Error := Error h |}) dec_time;
  field "delay" Delay (λ v h, {| Time := Time h; Delay := v; Error := Error h |}) dec_int;
  field "error" Error (λ v h, {| Time := Time h; Delay := Delay h; Error := v |}) dec_string
].

Definition state_fields : Fields ProxyState := [
  field "type" p_type (λ v s, {| p_type := v; p_name := p_name s; Now := Now s; All := All s; History := History s |}) dec_string;
  field "name" p_name (λ v s, {| p_type := p_type s; p_name := v; Now := Now s; All := All s; History := History s |}) dec_string;
  field "now" Now (λ v s, {| p_type := p_type s; p_name := p_name s; Now := v; All := All s; History := History s |}) dec_string;
  field "all" All (λ v s, {| p_type := p_type s; p_name := p_name s; Now := Now s; All := v; History := History s |}) (dec_list "" dec_string);
  field "history" History (λ v s, {| p_type := p_type s; p_name := p_name s; Now := Now s; All := All s; History := v |})
    (dec_list no_history (dec_struct history_fields))
].

Definition proxies_fields : Fields (gmap string ProxyState) :=
  [field "proxies" id (λ v _, v) (dec_map no_state (dec_struct state_fields))].
Definition delay_fields : Fields Z := [field "delay" id (λ v _, v) dec_int].

(** ** The client *)

Record Client := { BaseURL : string; Secret : string }.
Definition NewClient (externalController secret : string) : Client := {|
  BaseURL := "http://" +:+ externalController; Secret := secret |}.

Record Request := { Method : string; Url_ : string; Authorization : option string; ContentType : option string; Body : string }.

Inductive ApiError := ErrURL | ErrHTTP (e : string) | ErrStatus (code : Z) | ErrDecode.

(** [do] is what a request is answered: a status with a body, or an error. *)
Definition Exchange : Type := Request → result string (Z * string).

Definition request (c : Client) (method path : string) (ctype : option string) (body : string) : Request := {|
  Method := method; Url_ := BaseURL c +:+ path;
  Authorization := if String.eqb (Secret c) "" then None else Some ("Bearer " +:+ Secret c);
  ContentType := ctype; Body := body |}.

Definition send (do : Exchange) (r : Request) : result ApiError (Z * string) :=
  match Url.Parse (Url_ r) with
  | None => Err ErrURL
  | Some _ => match do r with Ok a => Ok a | Err e => Err (ErrHTTP e) end
  end.

Definition getJSON {A} (do : Exchange) (c : Client) (path : string) (zero : A) (d : Dec A) : result ApiError A :=
  let? (status, body) := send do (request c "GET" path None "") in
  if negb (status =? 200)%Z then Err (ErrStatus status)
  else match DecodeFirst zero d body with Some a => Ok a | None => Err ErrDecode end.

Definition Connections_ (do : Exchange) (c : Client) : result ApiError (option (list Connection)) :=
  let? r := getJSON do c "/connections" no_response (dec_struct response_fields) in Ok (connections r).

Definition TrafficSnapshot_ (do : Exchange) (c : Client) : result ApiError TrafficSnapshot :=
  getJSON do c "/traffic?once=1" no_traffic (dec_struct traffic_fields).

Definition Traffic (do : Exchange) (c : Client) : Z * Z * option ApiError :=
  match TrafficSnapshot_ do c with Ok t => (Up t, Down t, None) | Err e => (0%Z, 0%Z, Some e) end.

Definition Proxies (do : Exchange) (c : Client) : result ApiError (gmap string ProxyState) :=
  getJSON do c "/proxies" ∅ (dec_struct proxies_fields).

Definition PathEscape (s : string) : string := Url.escape Url.encodePathSegment s.

(** [timeout] in nanoseconds. *)
Definition delay_path (tag testURL : string) (timeout : Z) : string :=
  "/proxies/" +:+ PathEscape tag +:+ "/delay?" +:+
  Http.Encode (Http.Values_Set (Http.Values_Set [] "url" testURL) "timeout" (Itoa (Z.quot timeout 1000000))).

Definition Delay_ (do : Exchange) (c : Client) (tag testURL : string) (timeout : Z) : result ApiError Z :=
  getJSON do c (delay_path tag testURL timeout) 0%Z (dec_struct delay_fields).

(** 200 and 204 are success. *)
Definition command (do : Exchange) (r : Request) : option ApiError :=
  match send do r with
  | Err e => Some e
  | Ok (status, _) => if (status =? 200)%Z || (status =? 204)%Z then None else Some (ErrStatus status)
  end.

Definition SelectOutbound (do : Exchange) (c : Client) (group member : string) : option ApiError :=
  command do (request c "PUT" ("/proxies/" +:+ PathEscape group) (Some "application/json")
                (Marshal (JObj [("name", enc_string member)]))).

Definition CloseConnection (do : Exchange) (c : Client) (id : string) : option ApiError :=
  command do (request c "DELETE" ("/connections/" +:+ PathEscape id) None "").
End decoding.

(** ** The table *)

Record Row := {
  r_id : string; App : string; r_process : string; r_host : string; Port : string; r_network : string; r_rule : string;
  Chain : list string; r_up : Z; r_down : Z; r_start : option Z }.

(** [AppTotal] and [DestTotal], which differ in the name of the first field. *)
Record Total := { t_name : string; t_up : Z; t_down : Z; Count : Z }.

Inductive State := StateNoMode | StateAPIDisabled | StateAPIUnreachable | StateIdle | StateActive.

(** [Detail] is the address tried with the error. *)
Record Payload := {
  pl_state : State; Rows : list Row; Apps : list Total; Dests : list Total; Detail : option (string * ApiError) }.

(** What follows the last slash or backslash. *)
Definition base_name (p : string) : string := srev (before_byte (λ c, Ascii.eqb c "/" || Ascii.eqb c "\") (srev p)).

Definition AppName (m : Metadata) : string :=
  let base := base_name (ProcessPath m) in
  if negb (String.eqb (ProcessPath m) "") && negb (String.eqb base "") then base else Process m.

Definition hostOnly (m : Metadata) : string := if String.eqb (Host m) "" then DestinationIP m else Host m.

Definition row (c : Connection) : Row := {|
  r_id := ID c; App := AppName (Meta c); r_process := Process (Meta c); r_host := hostOnly (Meta c);
  Port := DestinationPort (Meta c); r_network := Network (Meta c); r_rule := Rule c; Chain := Chains c;
  r_up := Upload c; r_down := Download c; r_start := Start c |}.

Definition BuildRows (conns : list Connection) : list Row := row <$> conns.

(** The sums are of 64 bits. *)
Definition plus64 (a b : Z) : Z := Sub.wrap64 (a + b).

Definition or_mark (k : string) : string := if String.eqb k "" then "?" else k.

Definition new_total (key : Row → string) (r : Row) : Total := {|
  t_name := or_mark (key r); t_up := r_up r; t_down := r_down r; Count := 1 |}.
Definition add_total (r : Row) (t : Total) : Total := {|
  t_name := t_name t; t_up := plus64 (t_up t) (r_up r); t_down := plus64 (t_down t) (r_down r); Count := plus64 (Count t) 1 |}.

Definition totals (key : Row → string) (rows : list Row) : list Total :=
  foldl (group_add (λ r, or_mark (key r)) t_name (new_total key) add_total) [] rows.

Definition by_name (ts : list Total) : list Total := merge_sort (λ a b, String.le (t_name a) (t_name b)) ts.

Definition Aggregate (rows : list Row) : list Total * list Total :=
  (by_name (totals App rows), by_name (totals r_host rows)).

(** [enrich] is what the inventory of owners adds to a table. *)
Definition Connections `{GoTime} (do : Exchange) (enrich : list Connection → list Connection) (client : option Client)
    (modeRunning apiEnabled : bool) : Payload :=
  let empty st d := {| pl_state := st; Rows := []; Apps := []; Dests := []; Detail := d |} in
  if negb modeRunning then empty StateNoMode None
  else match client with
  | None => empty StateAPIDisabled None
  | Some c =>
      if negb apiEnabled then empty StateAPIDisabled None
      else match Connections_ do c with
      | Err e => empty StateAPIUnreachable (Some (BaseURL c, e))
      | Ok conns =>
          match BuildRows (enrich (match conns with Some l => l | None => [] end)) with
          | [] => empty StateIdle None
          | rows => let '(apps, dests) := Aggregate rows in
                    {| pl_state := StateActive; Rows := rows; Apps := apps; Dests := dests; Detail := None |}
          end
      end
  end.

(** ** The display *)

Record ConnRow := { cr_process : string; cr_source : string; cr_dest : string; cr_network : string; cr_chain : string }.
Record LatencyRow := { lr_tag : string; lr_delay : Z; lr_error : string; lr_selected : bool }.
Record LatencyMsg := { Selected : string; lrows : list LatencyRow }.

(** The arrow, in UTF-8. *)
Definition arrow : string := String (ascii_of_N 226) (String (ascii_of_N 134) (String (ascii_of_N 146) "")).

Definition ConnRows (conns : list Connection) : list ConnRow :=
  (λ c, {| cr_process := Process (Meta c); cr_source := Source (Meta c); cr_dest := Dest (Meta c);
           cr_network := Network (Meta c); cr_chain := Join arrow (Chains c) |}) <$> conns.

Definition state_of (proxies : gmap string ProxyState) (tag : string) : ProxyState :=
  match proxies !! tag with Some p => p | None => no_state end.

Definition latencyMsg (proxies : gmap string ProxyState) : option LatencyMsg :=
  match proxies !! "proxy" with
  | None => None
  | Some group =>
      match All group with
      | [] => Some {| Selected := "proxy"; lrows :=
          [{| lr_tag := "proxy"; lr_delay := LastDelay group; lr_error := LastError group; lr_selected := true |}] |}
      | tags => Some {| Selected := Now group; lrows :=
          (λ tag, {| lr_tag := tag; lr_delay := LastDelay (state_of proxies tag); lr_error := LastError (state_of proxies tag);
                     lr_selected := String.eqb tag (Now group) |}) <$> tags |}
      end
  end.

(** ** The poller *)

(** The settings of a poller: whether it resolves names and has a log, the
    size from which a table is large, and how often a large one is read. *)
Record Poller := { Resolves : bool; Logs : bool; MaxEnrichConnections : Z; LargeConnectionsInterval : Z }.

(** What it remembers: the connections it has logged, when it last read a
    large table, and the names it has looked up, each with its time. *)
Record Memory := { seen : gset string; lastLarge : option Z; resolveCache : gmap string (string * Z) }.
Definition memory0 : Memory := {| seen := ∅; lastLarge := None; resolveCache := ∅ |}.

Definition largeConnectionsInterval (p : Poller) : Z :=
  if (0 <? LargeConnectionsInterval p)%Z then LargeConnectionsInterval p else 10000000000.
Definition enrichLimit (p : Poller) : Z := if (0 <? MaxEnrichConnections p)%Z then MaxEnrichConnections p else 256.

Definition resolveKey (m : Metadata) : string :=
  Join "|" [Network m; SourceIP m; SourcePort m; DestinationIP m; DestinationPort m; Host m].

Definition resolveTTL : Z := 30000000000.

(** One connection; [resolve] is what the lookup of a port answers. *)
Definition enrich_one (now : Z) (resolve : Z → string) (cache : gmap string (string * Z)) (c : Connection)
    : gmap string (string * Z) * Connection :=
  let m := Meta c in
  if negb (String.eqb (Process m) "") then (cache, c)
  else
    let fetch :=
      let name := resolve (SourcePortNum m) in
      let cache := if (1024 <=? Z.of_nat (size cache))%Z then ∅ else cache in
      (<[resolveKey m := (name, now)]> cache, if String.eqb name "" then c else with_meta (with_process name m) c) in
    match cache !! resolveKey m with
    | Some (name, at_) => if (now - at_ <? resolveTTL)%Z then (cache, with_meta (with_process name m) c) else fetch
    | None => fetch
    end.

Fixpoint enrich_all (now : Z) (resolve : Z → string) (cache : gmap string (string * Z)) (conns : list Connection)
    : gmap string (string * Z) * list Connection :=
  match conns with
  | [] => (cache, [])
  | c :: conns =>
      let '(cache, c) := enrich_one now resolve cache c in
      let '(cache, conns) := enrich_all now resolve cache conns in (cache, c :: conns)
  end.

Definition large (p : Poller) (n : Z) : bool := (enrichLimit p <? n)%Z.

Definition enrich (p : Poller) (now : Z) (resolve : Z → string) (cache : gmap string (string * Z)) (conns : list Connection)
    : gmap string (string * Z) * list Connection :=
  if negb (Resolves p) || large p (Z.of_nat (length conns)) then (cache, conns) else enrich_all now resolve cache conns.

(** The connections that are logged, in order, and what is remembered. *)
Fixpoint log_new (seen : gset string) (conns : list Connection) : gset string * list Connection :=
  match conns with
  | [] => (seen, [])
  | c :: conns =>
      if negb (String.eqb (ID c) "") && bool_decide (ID c ∈ seen) then log_new seen conns
      else let '(seen, logged) := log_new (if String.eqb (ID c) "" then seen else {[ID c]} ∪ seen) conns in (seen, c :: logged)
  end.

Definition pruneSeen (seen : gset string) (conns : list Connection) : gset string :=
  filter (λ id, id ∈ ID <$> conns) seen.

(** What one poll is answered, and what it hands on. *)
Record Answers := {
  a_traffic : result ApiError TrafficSnapshot; a_conns : result ApiError (option (list Connection));
  a_proxies : result ApiError (gmap string ProxyState); a_resolve : Z → string }.
Record Output := { o_logged : list Connection; o_conns : option (list Connection); o_proxies : option (gmap string ProxyState) }.

Definition recent (now : Z) (t : option Z) (interval : Z) : bool := match t with Some t => (now - t <? interval)%Z | None => false end.

Definition deliver (p : Poller) (now : Z) (resolve : Z → string) (conns : list Connection) (m : Memory)
    : Memory * list Connection * list Connection :=
  let '(cache, conns) := enrich p now resolve (resolveCache m) conns in
  let '(sn, logged) := if Logs p then let '(sn, logged) := log_new (seen m) conns in (pruneSeen sn conns, logged) else (seen m, []) in
  ({| seen := sn; lastLarge := lastLarge m; resolveCache := cache |}, logged, conns).

Definition with_large (t : option Z) (m : Memory) : Memory := {| seen := seen m; lastLarge := t; resolveCache := resolveCache m |}.

Definition read_table (p : Poller) (now : Z) (a : Answers) (m : Memory) : Memory * list Connection * option (list Connection) :=
  match a_conns a with
  | Err _ | Ok None => (m, [], None)
  | Ok (Some conns) =>
      let big := large p (Z.of_nat (length conns)) in
      if big && recent now (lastLarge m) (largeConnectionsInterval p) then (m, [], None)
      else let m := if big then with_large (Some now) m else m in
           let '(m, logged, conns) := deliver p now (a_resolve a) conns m in (m, logged, Some conns)
  end.

Definition poll (p : Poller) (now : Z) (a : Answers) (m : Memory) : Memory * Output :=
  let skip := match a_traffic a with Ok t => large p (Active t) | Err _ => false end in
  let m := if skip && negb (recent now (lastLarge m) (largeConnectionsInterval p)) then with_large (Some now) m else m in
  let '(m, logged, conns) := if skip then (m, [], None) else read_table p now a m in
  (m, {| o_logged := logged; o_conns := conns; o_proxies := match a_proxies a with Ok x => Some x | Err _ => None end |}).

(** The polls of [Run], each at its time. *)
Fixpoint polls (p : Poller) (ts : list (Z * Answers)) (m : Memory) : Memory * list Output :=
  match ts with
  | [] => (m, [])
  | (now, a) :: ts => let '(m, o) := poll p now a m in let '(m, os) := polls p ts m in (m, o :: os)
  end.

(** [clock] is the time of day as text. *)
Definition FormatLine (clock : string) (c : Connection) : string :=
  let m := Meta c in
  clock +:+ "  " +:+ or_mark (Process m) +:+ "  " +:+ Source m +:+ " " +:+ arrow +:+ " " +:+ Dest m +:+ "  [" +:+
  or_mark (Network m) +:+ "]  via " +:+ or_mark (Join arrow (Chains c)).

(** ** Facts *)

Definition zsum (l : list Z) : Z := foldr Z.add 0%Z l.

Lemma zsum_cons x l : zsum (x :: l) = (x + zsum l)%Z.
Proof. reflexivity. Qed.
Lemma zsum_perm l k : l ≡ₚ k → zsum l = zsum k.
Proof. induction 1; rewrite ?zsum_cons; lia. Qed.

(** Equal as 64-bit numbers. *)
Definition same64 (a b : Z) : Prop := Sub.wrap64 a = Sub.wrap64 b.

Lemma same64_mod a b : same64 a b ↔ (a mod 2 ^ 64 = b mod 2 ^ 64)%Z.
Proof.
  unfold same64, Sub.wrap64. split; intros Hw.
  - assert ((a + 2 ^ 63) mod 2 ^ 64 = (b + 2 ^ 63) mod 2 ^ 64)%Z as He by lia.
    replace a with ((a + 2 ^ 63) - 2 ^ 63)%Z by lia. replace b with ((b + 2 ^ 63) - 2 ^ 63)%Z by lia.
    by rewrite Zminus_mod, He, <- Zminus_mod.
  - by rewrite Zplus_mod, Hw, <- Zplus_mod.
Qed.

Lemma same64_wrap a : same64 (Sub.wrap64 a) a.
Proof. apply same64_mod. unfold Sub.wrap64. rewrite Zminus_mod_idemp_l. f_equal. lia. Qed.

#[local] Instance same64_equiv : Equivalence same64.
Proof. split; unfold same64; [by intros ?|by intros ??|intros ???; congruence]. Qed.
#[local] Instance same64_add : Proper (same64 ==> same64 ==> same64) Z.add.
Proof. intros a a' Ha b b' Hb. rewrite same64_mod in *. by rewrite Zplus_mod, Ha, Hb, <- Zplus_mod. Qed.

Lemma same64_plus a b : same64 (plus64 a b) (a + b).
Proof. apply same64_wrap. Qed.

(** What a list of totals says of the rows. *)
Definition accounts (key : Row → string) (rows : list Row) (ts : list Total) : Prop :=
  t_name <$> ts = sort_strings (dedup_from [] ((λ r, or_mark (key r)) <$> rows)) ∧
  Forall (λ t, let mine := filter (λ r, or_mark (key r) = t_name t) rows in
    same64 (t_up t) (zsum (r_up <$> mine)) ∧ same64 (t_down t) (zsum (r_down <$> mine)) ∧
    same64 (Count t) (Z.of_nat (length mine))) ts ∧
  same64 (zsum (t_up <$> ts)) (zsum (r_up <$> rows)) ∧ same64 (zsum (t_down <$> ts)) (zsum (r_down <$> rows)).

Lemma add_totals_sums t l : let t' := foldl (λ t r, add_total r t) t l in
  same64 (t_up t') (t_up t + zsum (r_up <$> l)) ∧ same64 (t_down t') (t_down t + zsum (r_down <$> l)) ∧
  same64 (Count t') (Count t + Z.of_nat (length l)).
Proof.
  revert t. induction l as [|r l IH]; intros t; cbv zeta; cbn [foldl].
  - cbn. by rewrite !Z.add_0_r.
  - destruct (IH (add_total r t)) as (Hu & Hd & Hc). rewrite Hu, Hd, Hc. cbn [add_total t_up t_down Count].
    rewrite !same64_plus, !fmap_cons, !zsum_cons. cbn [length].
    split_and!; unfold same64; f_equal; lia.
Qed.

Lemma group_add_total key r ts :
  same64 (zsum (t_up <$> group_add (λ r, or_mark (key r)) t_name (new_total key) add_total ts r)) (zsum (t_up <$> ts) + r_up r) ∧
  same64 (zsum (t_down <$> group_add (λ r, or_mark (key r)) t_name (new_total key) add_total ts r)) (zsum (t_down <$> ts) + r_down r).
Proof.
  induction ts as [|t ts [IH1 IH2]]; cbn [group_add]; [split; cbn; unfold same64; f_equal; lia|].
  case_bool_decide; rewrite !fmap_cons, !zsum_cons.
  - cbn [add_total t_up t_down]. rewrite !same64_plus. split; unfold same64; f_equal; lia.
  - rewrite IH1, IH2. split; unfold same64; f_equal; lia.
Qed.

Lemma totals_sums key rows : same64 (zsum (t_up <$> totals key rows)) (zsum (r_up <$> rows)) ∧
  same64 (zsum (t_down <$> totals key rows)) (zsum (r_down <$> rows)).
Proof.
  unfold totals. induction rows as [|r rows [IH1 IH2]] using rev_ind; [done|]. rewrite foldl_app. cbn [foldl].
  destruct (group_add_total key r (foldl (group_add (λ r, or_mark (key r)) t_name (new_total key) add_total) [] rows)) as [H1 H2].
  rewrite H1, H2, IH1, IH2, !fmap_app.
  rewrite (zsum_perm ((r_up <$> rows) ++ _) (r_up r :: (r_up <$> rows))) by (cbn; by rewrite Permutation_app_comm).
  rewrite (zsum_perm ((r_down <$> rows) ++ _) (r_down r :: (r_down <$> rows))) by (cbn; by rewrite Permutation_app_comm).
  rewrite !zsum_cons. split; unfold same64; f_equal; lia.
Qed.

Lemma by_name_perm ts : by_name ts ≡ₚ ts.
Proof. apply merge_sort_Permutation. Qed.

Lemma by_name_names ts : t_name <$> by_name ts = sort_strings (t_name <$> ts).
Proof.
  apply (StronglySorted_unique String.le); [| |by rewrite sort_strings_perm, by_name_perm]; [|apply sort_strings_sorted].
  assert (StronglySorted (λ a b, String.le (t_name a) (t_name b)) (by_name ts)) as Hs.
  { assert (Transitive (λ a b, String.le (t_name a) (t_name b))) by (intros a b c; apply (transitivity (R := String.le))).
    assert (base.Total (λ a b, String.le (t_name a) (t_name b))) by (intros a b; apply (total String.le)).
    apply (StronglySorted_merge_sort _). }
  induction Hs as [|t l _ IH Hall]; [constructor|]. rewrite fmap_cons. constructor; [done|]. by apply Forall_fmap.
Qed.

Lemma aggregate_accounts key rows : accounts key rows (by_name (totals key rows)).
Proof.
  destruct (group_spec (λ r, or_mark (key r)) t_name (new_total key) add_total (λ _, eq_refl) (λ _ _, eq_refl) rows) as [Hn Hb].
  fold (totals key rows) in Hn, Hb. unfold accounts. split; [|split].
  - by rewrite by_name_names, Hn.
  - rewrite by_name_perm. eapply Forall_impl; [exact Hb|]. intros t. unfold bucket.
    destruct (filter _ rows) as [|r l]; [done|]. intros [= <-].
    destruct (add_totals_sums (new_total key r) l) as (H1 & H2 & H3). rewrite H1, H2, H3, !fmap_cons, !zsum_cons. cbn [length new_total t_up t_down Count].
    split_and!; [done|done|]. unfold same64. f_equal. lia.
  - rewrite !(zsum_perm _ _ (fmap_Permutation _ _ _ (by_name_perm _))). apply totals_sums.
Qed.

(** The totals account for every byte: for applications and for
    destinations alike the list has each name once, in order, with the sums
    and the number of exactly its rows (those without a name under "?"), and
    all of them together sum to the table, in 64-bit arithmetic. *)
Theorem totals_account_for_every_byte (rows : list Row) :
  accounts App rows (fst (Aggregate rows)) ∧ accounts r_host rows (snd (Aggregate rows)).
Proof. split; apply aggregate_accounts. Qed.

(** *** What the poller remembers *)

(** The connections of a table that were not in the one before. *)
Fixpoint newcomers (before_ : list string) (conns : list Connection) : list Connection :=
  match conns with
  | [] => []
  | c :: conns =>
      if negb (String.eqb (ID c) "") && bool_decide (ID c ∈ before_) then newcomers before_ conns
      else c :: newcomers (ID c :: before_) conns
  end.

Lemma log_new_spec conns : ∀ (sn : gset string) before_, (∀ id, id ≠ "" → id ∈ sn ↔ id ∈ before_) → "" ∉ sn →
  snd (log_new sn conns) = newcomers before_ conns ∧
  ∀ id, id ∈ fst (log_new sn conns) ↔ id ∈ sn ∨ (id ≠ "" ∧ id ∈ ID <$> conns).
Proof.
  induction conns as [|c conns IH]; intros sn before_ Hsn Hne; cbn [log_new newcomers].
  - split; [done|]. intros id. split; [by left|]. intros [?|[_ ?%not_elem_of_nil]]; done.
  - destruct (String.eqb_spec (ID c) "") as [Hc|Hc]; cbn [negb andb].
    + destruct (IH sn (ID c :: before_)) as [IH1 IH2]; [|done|].
      { intros id Hid. rewrite Hsn, elem_of_cons by done. naive_solver. }
      destruct (log_new sn conns) as [sn' logged]. cbn [fst snd] in *. split; [by rewrite IH1|].
      intros id. rewrite IH2, fmap_cons, elem_of_cons. naive_solver.
    + rewrite (bool_decide_ext (ID c ∈ sn) (ID c ∈ before_)) by (by apply Hsn).
      destruct (bool_decide_reflect (ID c ∈ before_)) as [Hin|Hin].
      * destruct (IH sn before_ Hsn Hne) as [IH1 IH2]. split; [done|]. intros id. rewrite IH2, fmap_cons, elem_of_cons.
        pose proof (proj2 (Hsn _ Hc) Hin). naive_solver.
      * destruct (IH ({[ID c]} ∪ sn) (ID c :: before_)) as [IH1 IH2].
        { intros id Hid. rewrite elem_of_union, elem_of_singleton, elem_of_cons, Hsn by done. done. }
        { rewrite elem_of_union, elem_of_singleton. naive_solver. }
        destruct (log_new ({[ID c]} ∪ sn) conns) as [sn' logged]. cbn [fst snd] in *. split; [by rewrite IH1|].
        intros id. rewrite IH2, fmap_cons, elem_of_cons, elem_of_union, elem_of_singleton. naive_solver.
Qed.

Lemma enrich_one_id now resolve cache c : ID (snd (enrich_one now resolve cache c)) = ID c.
Proof. unfold enrich_one. by repeat case_match. Qed.

Lemma enrich_all_ids now resolve conns : ∀ cache, ID <$> snd (enrich_all now resolve cache conns) = ID <$> conns.
Proof.
  induction conns as [|c conns IH]; intros cache; [done|]. cbn [enrich_all].
  pose proof (enrich_one_id now resolve cache c) as Hc. destruct (enrich_one now resolve cache c) as [cache1 c1].
  pose proof (IH cache1) as Hi. destruct (enrich_all now resolve cache1 conns) as [cache2 conns']. cbn [snd] in *.
  by rewrite !fmap_cons, Hc, Hi.
Qed.

Lemma enrich_one_cache now resolve cache c : (size cache <= 1024)%nat → (size (fst (enrich_one now resolve cache c)) <= 1024)%nat.
Proof.
  intros Hs. unfold enrich_one. destruct (negb _); [done|]. cbv zeta.
  assert (size (<[resolveKey (Meta c) := (resolve (SourcePortNum (Meta c)), now)]> (if (1024 <=? Z.of_nat (size cache))%Z then ∅ else cache)) <= 1024)%nat as Hf.
  { rewrite map_size_insert. destruct (Z.leb_spec 1024 (Z.of_nat (size cache))); [rewrite lookup_empty, map_size_empty; lia|]. case_match; cbn; lia. }
  destruct (cache !! _) as [[name t]|]; [destruct (_ <? _)%Z|]; done.
Qed.

Lemma enrich_all_cache now resolve conns : ∀ cache, (size cache <= 1024)%nat →
  (size (fst (enrich_all now resolve cache conns)) <= 1024)%nat.
Proof.
  induction conns as [|c conns IH]; intros cache Hs; [done|]. cbn [enrich_all].
  pose proof (enrich_one_cache now resolve cache c Hs) as Hc. destruct (enrich_one now resolve cache c) as [cache1 c1].
  pose proof (IH cache1 Hc) as Hi. by destruct (enrich_all now resolve cache1 conns) as [cache2 conns'].
Qed.

Definition next_table (t : list Connection) (o : Output) : list Connection := match o_conns o with Some c => c | None => t end.

(** The memory after the table [t] was handed on. *)
Definition remembers (m : Memory) (t : list Connection) : Prop :=
  "" ∉ seen m ∧ (∀ id, id ≠ "" → id ∈ seen m ↔ id ∈ ID <$> t) ∧ (size (resolveCache m) <= 1024)%nat.

Lemma remembers_large m t l : remembers m t → remembers (with_large l m) t.
Proof. done. Qed.

Lemma deliver_spec p now resolve conns m t : Logs p = true → remembers m t →
  let '(m', logged, conns') := deliver p now resolve conns m in
  remembers m' conns' ∧ logged = newcomers (ID <$> t) conns'.
Proof.
  intros Hl (Hne & Hseen & Hc). unfold deliver.
  assert (size (fst (enrich p now resolve (resolveCache m) conns)) <= 1024)%nat as Hc'.
  { unfold enrich. destruct (_ || _); [done|by apply enrich_all_cache]. }
  destruct (enrich p now resolve (resolveCache m) conns) as [cache conns']. rewrite Hl.
  destruct (log_new_spec conns' (seen m) (ID <$> t) Hseen Hne) as [Hlog Hin].
  destruct (log_new (seen m) conns') as [sn logged]. cbn [fst snd] in *. split; [|done]. split_and!; [| |done]; cbn [seen].
  - unfold pruneSeen. rewrite elem_of_filter, Hin. naive_solver.
  - intros id Hid. unfold pruneSeen. rewrite elem_of_filter, Hin. naive_solver.
Qed.

Lemma poll_spec p now a m t : Logs p = true → remembers m t →
  let '(m', o) := poll p now a m in
  remembers m' (next_table t o) ∧
  o_logged o = match o_conns o with Some conns => newcomers (ID <$> t) conns | None => [] end.
Proof.
  intros Hl Hm. unfold poll. destruct (match a_traffic a with Ok t => large p (Active t) | Err _ => false end).
  { by destruct (negb (recent now (lastLarge m) (largeConnectionsInterval p))). }
  cbn [andb]. unfold read_table. destruct (a_conns a) as [[conns|]|]; [|done|done].
  destruct (large p (Z.of_nat (length conns)) && recent now (lastLarge m) (largeConnectionsInterval p)); [done|].
  set (m2 := if large p (Z.of_nat (length conns)) then with_large (Some now) m else m).
  assert (remembers m2 t) as Hm2 by (unfold m2; by destruct (large p (Z.of_nat (length conns)))).
  pose proof (deliver_spec p now (a_resolve a) conns m2 t Hl Hm2) as Hd.
  by destruct (deliver p now (a_resolve a) conns m2) as [[m3 logged] conns'].
Qed.

Lemma polls_spec p ts : Logs p = true → ∀ m t, remembers m t →
  let '(m', os) := polls p ts m in remembers m' (foldl next_table t os).
Proof.
  intros Hl. induction ts as [|[now a] ts IH]; intros m t Hm; [done|]. cbn [polls].
  pose proof (poll_spec p now a m t Hl Hm) as Hp. destruct (poll p now a m) as [m1 o].
  specialize (IH m1 (next_table t o) (proj1 Hp)). by destruct (polls p ts m1) as [m2 os].
Qed.

Lemma size_of_list (l : list string) : (size (list_to_set l : gset string) <= length l)%nat.
Proof.
  induction l as [|x l IH]; [cbn; by rewrite size_empty|]. cbn [list_to_set length]. rewrite size_union_alt, size_singleton.
  apply le_n_S. etrans; [|exact IH]. apply subseteq_size. set_solver.
Qed.

Lemma remembers_bounds m t : remembers m t → (size (seen m) <= length t)%nat.
Proof.
  intros (Hne & Hs & _). rewrite <- (length_fmap ID t). etrans; [|apply size_of_list].
  apply subseteq_size. intros id Hid. apply elem_of_list_to_set. apply Hs; [|done]. by intros ->.
Qed.

(** A poller with a log writes each connection once while it stays in the
    table, with bounded memory: after any polls, with any answers, the next
    poll logs exactly the connections of its table that were not in the last
    table handed on (those without an ID each time), and what it remembers is
    no larger than that table and 1024 names. *)
Theorem poller_logs_each_connection_once (p : Poller) (ts : list (Z * Answers)) (now : Z) (a : Answers) :
  Logs p = true →
  let '(m, os) := polls p ts memory0 in
  let '(m', o) := poll p now a m in
  let last_table := foldl next_table [] os in
  o_logged o = match o_conns o with Some conns => newcomers (ID <$> last_table) conns | None => [] end ∧
  (size (seen m) <= length last_table)%nat ∧ (size (resolveCache m) <= 1024)%nat.
Proof.
  intros Hl. pose proof (polls_spec p ts Hl memory0 []) as Hs. destruct (polls p ts memory0) as [m os].
  assert (remembers m (foldl next_table [] os)) as Hm.
  { apply Hs. split_and!; [apply not_elem_of_empty| |cbn; rewrite map_size_empty; lia].
    intros id _. split; [by intros ?%not_elem_of_empty|by intros ?%not_elem_of_nil]. }
  pose proof (poll_spec p now a m _ Hl Hm) as Hp. destruct (poll p now a m) as [m' o]. split; [apply Hp|].
  split; [by apply remembers_bounds|apply Hm].
Qed.

(** Under high traffic nothing is handed on, however long it lasts: the
    interval at which a large table should be read only moves its own clock. *)
Lemma high_traffic_is_never_read (p : Poller) (now : Z) (a : Answers) (t : TrafficSnapshot) (m : Memory) :
  a_traffic a = Ok t → (enrichLimit p < Active t)%Z → o_conns (snd (poll p now a m)) = None ∧ o_logged (snd (poll p now a m)) = [].
Proof.
  intros Ha Hl. unfold poll. rewrite Ha. unfold large. rewrite (proj2 (Z.ltb_lt _ _) Hl). done.
Qed.

Definition conn_ex (id : string) : Connection := with_meta no_metadata {|
  ID := id; Meta := no_metadata; Upload := 0; Download := 0; Start := None; Chains := []; Rule := "" |}.
Definition answers_ex (ids : list string) : Answers := {|
  a_traffic := Err ErrDecode; a_conns := Ok (Some (conn_ex <$> ids)); a_proxies := Err ErrDecode; a_resolve := λ _, "" |}.
Definition poller_ex : Poller := {| Resolves := true; Logs := true; MaxEnrichConnections := 0; LargeConnectionsInterval := 0 |}.

Lemma poller_logs_each_connection_once_witness :
  o_logged (snd (poll poller_ex 2 (answers_ex ["b"; "c"; "c"]) (fst (polls poller_ex [(1%Z, answers_ex ["a"; "b"])] memory0)))) =
  newcomers ["a"; "b"] (conn_ex <$> ["b"; "c"; "c"]).
Proof.
  exact (eq_trans (proj1 (poller_logs_each_connection_once poller_ex [(1%Z, answers_ex ["a"; "b"])] 2 (answers_ex ["b"; "c"; "c"]) eq_refl)) eq_refl).
Defined.

Example poller_logs_ex : ID <$> newcomers ["a"; "b"] (conn_ex <$> ["b"; "c"; "c"; ""; ""]) = ["c"; ""; ""].
Proof. reflexivity. Qed.

End ClashApi.
