(* ===== verification/LogSink.v ===== *)
(** * LogSink: the log of connections ([appendLog], [flushLog], [CloseLog],
    [SetLogPath] and what [Shutdown] does to the log, of
    [internal/app/executor.go])

    Lines for the log file are buffered ([bufio.Writer]) and written when half
    the buffer is full, every two seconds, and when the log is closed or
    another file is chosen.  Nothing is lost on the way
    ([log_keeps_every_line]) until the executor shuts down, which closes the
    file under the buffer ([shutdown_loses_lines]).  Files are texts by path,
    with a table of open descriptors; the outcomes of the system calls are part
    of the world. *)

From S2P Require Import Prelude GoStr GoNet GoUrl GoUrlFacts.

Local Open Scope string_scope.
Local Open Scope list_scope.

Module LogSink.

(** ** Files *)

(** A failing write has written a number of bytes. *)
Record World := {
  content : gmap string string;
  opened : gmap nat string;
  next : nat;
  stdout : string;
  write_faults : list (option nat);
  open_faults : list bool
}.

Definition text (w : World) (p : string) : string := default "" (content w !! p).
Definition append_to (p data : string) (w : World) : World := {|
  content := <[p := text w p +:+ data]> (content w); opened := opened w; next := next w; stdout := stdout w;
  write_faults := tail (write_faults w); open_faults := open_faults w |}.

(** [f.Write]: the bytes written, whether all were, and the world. *)
Definition os_write (h : nat) (data : string) (w : World) : nat * bool * World :=
  match opened w !! h with
  | None => (0%nat, false, w)
  | Some p =>
      match write_faults w with
      | Some n :: _ => (Nat.min n (String.length data), false, append_to p (String.substring 0 n data) w)
      | _ => (String.length data, true, append_to p data w)
      end
  end.

(** [os.OpenFile] for appending, which creates the file. *)
Definition os_open (p : string) (w : World) : option nat * World :=
  match open_faults w with
  | true :: fs => (None, {| content := content w; opened := opened w; next := next w; stdout := stdout w;
                            write_faults := write_faults w; open_faults := fs |})
  | fs => (Some (next w), {| content := <[p := text w p]> (content w); opened := <[next w := p]> (opened w); next := S (next w);
                             stdout := stdout w; write_faults := write_faults w; open_faults := tail fs |})
  end.
Definition os_close (h : nat) (w : World) : World := {|
  content := content w; opened := delete h (opened w); next := next w; stdout := stdout w;
  write_faults := write_faults w; open_faults := open_faults w |}.
Definition print (line : string) (w : World) : World := {|
  content := content w; opened := opened w; next := next w; stdout := stdout w +:+ line;
  write_faults := write_faults w; open_faults := open_faults w |}.

(** ** [bufio.Writer] *)

(** An error is kept: the writer then does nothing any more. *)
Record Writer := { wr : nat; buf : string; err : bool }.

Definition bufferSize : Z := 65536.
Definition NewWriterSize (h : nat) : Writer := {| wr := h; buf := ""; err := false |}.
Definition with_buf (b : Writer) (s : string) : Writer := {| wr := wr b; buf := s; err := err b |}.

Definition Flush (b : Writer) (w : World) : Writer * World :=
  if err b || String.eqb (buf b) "" then (b, w) else
  let '(n, ok, w) := os_write (wr b) (buf b) w in
  ({| wr := wr b; buf := (if ok then "" else String.substring n (String.length (buf b) - n) (buf b)); err := negb ok |}, w).

(** [Write]: what fits is copied; what does not fills the buffer, which is
    flushed, and a rest that is larger than the buffer goes to the file. *)
Definition Write_direct (p : string) (b : Writer) (w : World) : Writer * World :=
  let '(_, ok, w) := os_write (wr b) p w in ({| wr := wr b; buf := ""; err := negb ok |}, w).
Definition Write (p : string) (b : Writer) (w : World) : Writer * World :=
  let avail := Z.to_nat (bufferSize - slen (buf b)) in
  if err b then (b, w)
  else if (slen p <=? bufferSize - slen (buf b))%Z then (with_buf b (buf b +:+ p), w)
  else if String.eqb (buf b) "" then Write_direct p b w
  else
    let '(b, w) := Flush (with_buf b (buf b +:+ String.substring 0 avail p)) w in
    let rest := String.substring avail (String.length p - avail) p in
    if err b then (b, w)
    else if (bufferSize <? slen rest)%Z then Write_direct rest b w
    else (with_buf b rest, w).

(** ** The sink of the executor *)

Record Sink := {
  logPath : string;
  logFile : option nat;
  logWriter : option Writer;
  logFlush : bool          (* the flusher runs *)
}.

Definition new_sink (p : string) : Sink := {| logPath := p; logFile := None; logWriter := None; logFlush := false |}.
Definition with_writer (b : Writer) (s : Sink) : Sink := {|
  logPath := logPath s; logFile := logFile s; logWriter := Some b; logFlush := logFlush s |}.

(** The file is opened with the first line. *)
Definition open_log (s : Sink) (w : World) : option Sink * World :=
  match logFile s with
  | Some _ => (Some s, w)
  | None =>
      match os_open (logPath s) w with
      | (None, w) => (None, w)
      | (Some h, w) => (Some {| logPath := logPath s; logFile := Some h; logWriter := Some (NewWriterSize h); logFlush := true |}, w)
      end
  end.

Definition flushAt : Z := 32768.

Definition appendLog (line : string) (st : Sink * World) : Sink * World :=
  let '(s, w) := st in
  if String.eqb (logPath s) "" then (s, print (line +:+ nl) w) else
  match open_log s w with
  | (None, w) => (s, w)
  | (Some s, w) =>
      match logWriter s with
      | None => (s, w)
      | Some b =>
          let '(b, w) := Write (line +:+ nl) b w in
          let '(b, w) := if (flushAt <=? slen (buf b))%Z then Flush b w else (b, w) in
          (with_writer b s, w)
      end
  end.

(** [flushLog], of the ticker and of [Stop]. *)
Definition flushLog (st : Sink * World) : Sink * World :=
  let '(s, w) := st in
  match logWriter s with
  | None => st
  | Some b => let '(b, w) := Flush b w in (with_writer b s, w)
  end.

Definition closeLogLocked (st : Sink * World) : Sink * World :=
  let '(s, w) := st in
  let w := match logWriter s with Some b => snd (Flush b w) | None => w end in
  let w := match logFile s with Some h => os_close h w | None => w end in
  (new_sink (logPath s), w).
Definition CloseLog := closeLogLocked.

Definition SetLogPath (p : string) (st : Sink * World) : Sink * World :=
  let '(s, w) := if String.eqb p (logPath (fst st)) then st else closeLogLocked st in
  ({| logPath := p; logFile := logFile s; logWriter := logWriter s; logFlush := logFlush s |}, w).

(** What [Shutdown] does to the log: the file is closed, the writer stays. *)
Definition Shutdown_log (st : Sink * World) : Sink * World :=
  let '(s, w) := st in
  match logFile s with
  | None => st
  | Some h => ({| logPath := logPath s; logFile := None; logWriter := logWriter s; logFlush := logFlush s |}, os_close h w)
  end.

(** ** What the log promises *)

Inductive Op := Append (line : string) | Tick | NewPath (p : string) | CloseIt.

Definition step (st : Sink * World) (o : Op) : Sink * World :=
  match o with
  | Append line => appendLog line st
  | Tick => flushLog st
  | NewPath p => SetLogPath p st
  | CloseIt => CloseLog st
  end.

(** The specification: a text for every path, and the standard output. *)
Record Spec := { s_path : string; s_text : gmap string string; s_out : string }.
Definition spec_text (s : Spec) (p : string) : string := default "" (s_text s !! p).
Definition spec_step (s : Spec) (o : Op) : Spec :=
  match o with
  | Append line =>
      if String.eqb (s_path s) ""
      then {| s_path := s_path s; s_text := s_text s; s_out := s_out s +:+ line +:+ nl |}
      else {| s_path := s_path s; s_text := <[s_path s := spec_text s (s_path s) +:+ line +:+ nl]> (s_text s); s_out := s_out s |}
  | NewPath p => {| s_path := p; s_text := s_text s; s_out := s_out s |}
  | _ => s
  end.

(** What waits in the buffer for the file of a path. *)
Definition pending (s : Sink) (p : string) : string :=
  match logWriter s with Some b => if String.eqb p (logPath s) then buf b else "" | None => "" end.

Definition healthy (w : World) : Prop := write_faults w = [] ∧ open_faults w = [].

Definition sink_ok (s : Sink) (w : World) : Prop :=
  healthy w ∧
  match logFile s, logWriter s with
  | None, None => logFlush s = false
  | Some h, Some b => wr b = h ∧ err b = false ∧ opened w !! h = Some (logPath s) ∧ logPath s ≠ "" ∧
                      (slen (buf b) < flushAt)%Z ∧ logFlush s = true
  | _, _ => False
  end.

Definition related (st : Sink * World) (s : Spec) : Prop :=
  sink_ok (fst st) (snd st) ∧ logPath (fst st) = s_path s ∧ stdout (snd st) = s_out s ∧
  ∀ p, text (snd st) p +:+ pending (fst st) p = spec_text s p.

(** Writing to an open descriptor of a healthy system. *)
Lemma os_write_ok h p data w : healthy w → opened w !! h = Some p → os_write h data w = (String.length data, true, append_to p data w).
Proof. intros [Hw _] Ho. unfold os_write. by rewrite Ho, Hw. Qed.

Lemma text_append p q data w : text (append_to p data w) q = if String.eqb q p then text w p +:+ data else text w q.
Proof.
  unfold text at 1, append_to. cbn [content]. destruct (String.eqb_spec q p) as [->|Hn]; [by rewrite lookup_insert_eq|].
  by rewrite lookup_insert_ne.
Qed.

(** A writer that is in order, over the file of [p]. *)
Definition writer_ok (b : Writer) (w : World) (p : string) : Prop := err b = false ∧ opened w !! wr b = Some p.

(** An action that adds [data] to what is written and waiting for [p], and
    leaves everything else as it is. *)
Definition adds (p data : string) (bw bw' : Writer * World) : Prop :=
  let '(b, w) := bw in let '(b', w') := bw' in
  wr b' = wr b ∧ err b' = false ∧ opened w' = opened w ∧ next w' = next w ∧ stdout w' = stdout w ∧ healthy w' ∧
  text w' p +:+ buf b' = text w p +:+ buf b +:+ data ∧ ∀ q, q ≠ p → text w' q = text w q.

Lemma Flush_adds b w p : healthy w → writer_ok b w p → adds p "" (b, w) (Flush b w) ∧ buf (fst (Flush b w)) = "".
Proof.
  intros Hh [He Ho]. unfold Flush. rewrite He. cbn [orb]. destruct (String.eqb_spec (buf b) "") as [Hb|Hb].
  - cbn. rewrite Hb. by split_and!.
  - rewrite (os_write_ok _ p) by done. unfold adds. cbn [wr err buf fst negb]. rewrite text_append, String.eqb_refl.
    destruct Hh as [Hw Hf]. split; [|done].
    split_and!; try done; unfold healthy, append_to; cbn; rewrite ?Hw, ?app_nil_str; try done.
    intros q Hq. change (text (append_to p (buf b) w) q = text w q). rewrite text_append.
    by destruct (String.eqb_spec q p).
Qed.

Lemma adds_trans p d1 d2 x y z : adds p d1 x y → adds p d2 y z → adds p (d1 +:+ d2) x z.
Proof.
  destruct x as [b1 w1], y as [b2 w2], z as [b3 w3]. unfold adds.
  intros (E1 & E2 & E3 & E4 & E5 & E6 & E7 & E8) (F1 & F2 & F3 & F4 & F5 & F6 & F7 & F8).
  split_and!; try congruence; try done.
  - rewrite F7. transitivity ((text w2 p +:+ buf b2) +:+ d2); [by rewrite app_assoc_str|]. rewrite E7. by rewrite !app_assoc_str.
  - intros q Hq. by rewrite F8, E8.
Qed.

Lemma adds_ok p d b w b' w' : adds p d (b, w) (b', w') → writer_ok b w p → healthy w' ∧ writer_ok b' w' p.
Proof. intros (E1 & E2 & E3 & _ & _ & E6 & _) [_ Ho]. split; [done|]. split; [done|]. by rewrite E1, E3. Qed.

Lemma Write_direct_adds data b w p : healthy w → writer_ok b w p → buf b = "" → adds p data (b, w) (Write_direct data b w).
Proof.
  intros Hh [He Ho] Hb. unfold Write_direct. rewrite (os_write_ok _ p) by done. unfold adds. cbn [wr err buf negb].
  rewrite text_append, String.eqb_refl, Hb, app_nil_str. destruct Hh as [Hw Hf].
  split_and!; try done; unfold healthy, append_to; cbn; rewrite ?Hw; try done.
  intros q Hq. change (text (append_to p data w) q = text w q). rewrite text_append. by destruct (String.eqb_spec q p).
Qed.

Lemma with_buf_adds data b w p : healthy w → writer_ok b w p → adds p data (b, w) (with_buf b (buf b +:+ data), w).
Proof. intros Hh [He Ho]. unfold adds. by split_and!. Qed.

Lemma substring_split n s : (n <= String.length s)%nat →
  String.substring 0 n s +:+ String.substring n (String.length s - n) s = s.
Proof.
  revert s. induction n as [|n IH]; intros s Hn.
  - rewrite Nat.sub_0_r, substring_whole. by destruct s.
  - destruct s as [|c s]; cbn in Hn; [lia|]. cbn [String.length String.substring Nat.sub].
    change (String c ?a +:+ ?b) with (String c (a +:+ b)). f_equal. apply IH. lia.
Qed.
Lemma length_substring_rest n s : (n <= String.length s)%nat →
  String.length (String.substring n (String.length s - n) s) = (String.length s - n)%nat.
Proof.
  revert s. induction n as [|n IH]; intros s Hn.
  - by rewrite Nat.sub_0_r, substring_whole.
  - destruct s as [|c s]; cbn in Hn; [lia|]. cbn. apply IH. lia.
Qed.

(** Writing adds the bytes, whatever their number. *)
Lemma Write_adds data b w p : healthy w → writer_ok b w p → adds p data (b, w) (Write data b w).
Proof.
  intros Hh Hb. pose proof Hb as [He Ho]. unfold Write. rewrite He.
  set (avail := Z.to_nat (bufferSize - slen (buf b))).
  destruct (Z.leb_spec (slen data) (bufferSize - slen (buf b))) as [Hl|Hl]; [by apply with_buf_adds|].
  destruct (String.eqb_spec (buf b) "") as [Hn|Hn]; [by apply Write_direct_adds|].
  set (b0 := with_buf b (buf b +:+ String.substring 0 avail data)).
  pose proof (with_buf_adds (String.substring 0 avail data) b w p Hh Hb) as H0. fold b0 in H0.
  destruct (adds_ok _ _ _ _ _ _ H0 Hb) as [_ Hb0].
  destruct (Flush_adds b0 w p Hh Hb0) as [H1 Hempty]. destruct (Flush b0 w) as [b1 w1]. cbn [fst] in Hempty.
  destruct (adds_ok _ _ _ _ _ _ H1 Hb0) as [Hh1 Hb1]. pose proof Hb1 as [He1 _]. rewrite He1.
  rewrite <- (substring_split avail data) at 1 by (unfold avail, slen in *; lia). apply (adds_trans p _ _ _ (b1, w1)).
  - rewrite <- (app_nil_str (String.substring 0 avail data)). by apply (adds_trans p _ _ _ (b0, w)).
  - destruct (bufferSize <? _)%Z; [by apply Write_direct_adds|].
    pose proof (with_buf_adds (String.substring avail (String.length data - avail) data) b1 w1 p Hh1 Hb1) as H2.
    by rewrite Hempty in H2.
Qed.

Lemma flush_small b w p : healthy w → writer_ok b w p →
  let bw := if (flushAt <=? slen (buf b))%Z then Flush b w else (b, w) in
  adds p "" (b, w) bw ∧ (slen (buf (fst bw)) < flushAt)%Z.
Proof.
  intros Hh Hb. cbv zeta. destruct (Z.leb_spec flushAt (slen (buf b))).
  - destruct (Flush_adds b w p Hh Hb) as [Ha ->]. split; [done|]. done.
  - split; [|done]. unfold adds. rewrite app_nil_str. destruct Hb. by split_and!.
Qed.

Lemma open_log_ok s w : sink_ok s w → logPath s ≠ "" →
  ∃ s' w' b, open_log s w = (Some s', w') ∧ logWriter s' = Some b ∧ sink_ok s' w' ∧ logPath s' = logPath s ∧
  stdout w' = stdout w ∧ ∀ p, text w' p = text w p ∧ pending s' p = pending s p.
Proof.
  intros [[Hw Hf] Hs] Hp. unfold open_log. destruct (logFile s) as [h|] eqn:Hfile.
  - destruct (logWriter s) as [b|] eqn:Hb; [|done]. exists s, w, b. split_and!; try done. split; [done|]. by rewrite Hfile, Hb.
  - destruct (logWriter s) as [b|] eqn:Hb; [done|]. unfold os_open. rewrite Hf.
    eexists _, _, _. split; [done|]. split; [done|]. split_and!; try done.
    + unfold sink_ok, healthy. cbn. rewrite lookup_insert_eq. by split_and!.
    + intros p. split; [|unfold pending; rewrite Hb; cbn; by destruct (String.eqb p (logPath s))].
      unfold text. cbn [content]. destruct (decide (p = logPath s)) as [->|Hn]; [by rewrite lookup_insert_eq|].
      by rewrite lookup_insert_ne.
Qed.

Lemma writer_of s w h b : sink_ok s w → logWriter s = Some b → logFile s = Some h →
  writer_ok b w (logPath s) ∧ wr b = h.
Proof. intros [_ Hs] Hb Hf. rewrite Hf, Hb in Hs. destruct Hs as (<- & He & Ho & _). done. Qed.

(** Replacing the writer of a sink by what an action left of it. *)
Lemma with_writer_related s w b b' w' data sp : related (s, w) sp → logWriter s = Some b →
  adds (logPath s) data (b, w) (b', w') → (slen (buf b') < flushAt)%Z →
  related (with_writer b' s, w') {| s_path := s_path sp; s_out := s_out sp;
    s_text := <[logPath s := spec_text sp (logPath s) +:+ data]> (s_text sp) |}.
Proof.
  intros (Hok & Hp & Ho & Ht) Hb (E1 & E2 & E3 & E4 & E5 & E6 & E7 & E8) Hl. cbn [fst snd] in *.
  destruct Hok as [_ Hs]. rewrite Hb in Hs. destruct (logFile s) as [h|] eqn:Hf; [|done].
  destruct Hs as (Hwr & He & Hop & Hne & _ & Hfl). split; [split|split; [|split]].
  - done.
  - cbn [fst snd with_writer logFile logWriter logPath logFlush]. rewrite Hf. split_and!; try done; congruence.
  - done.
  - by rewrite <- Ho, <- E5.
  - intros q. cbn [fst snd]. unfold pending, spec_text. cbn [with_writer logWriter logPath s_text].
    specialize (Ht q). unfold pending, spec_text in Ht. rewrite Hb in Ht. destruct (decide (q = logPath s)) as [Hq|Hq].
    + rewrite Hq in *. rewrite String.eqb_refl in *. rewrite lookup_insert_eq. cbn [default]. rewrite E7, <- Ht. by rewrite app_assoc_str.
    + rewrite (proj2 (String.eqb_neq _ _) Hq) in *. rewrite lookup_insert_ne by done. rewrite E8 by done. exact Ht.
Qed.

Lemma insert_nothing sp p : ∀ q, spec_text {| s_path := s_path sp; s_out := s_out sp; s_text := <[p := spec_text sp p +:+ ""]> (s_text sp) |} q = spec_text sp q.
Proof.
  intros q. unfold spec_text. cbn [s_text]. rewrite app_nil_str. destruct (decide (q = p)) as [->|]; [by rewrite lookup_insert_eq|].
  by rewrite lookup_insert_ne.
Qed.

Lemma flushLog_related st sp : related st sp → related (flushLog st) sp ∧ ∀ p, pending (fst (flushLog st)) p = "".
Proof.
  destruct st as [s w]. intros Hr. unfold flushLog. destruct (logWriter s) as [b|] eqn:Hb.
  2: { split; [done|]. intros p. cbn [fst]. unfold pending. by rewrite Hb. }
  pose proof Hr as (Hok & _). cbn [fst snd] in Hok. destruct (logFile s) as [h|] eqn:Hf; [|by destruct Hok as [_ Hs]; rewrite Hf, Hb in Hs].
  destruct (writer_of s w h b Hok Hb Hf) as [Hw _]. destruct (Flush_adds b w (logPath s) (proj1 Hok) Hw) as [Ha Hempty].
  destruct (Flush b w) as [b' w']. cbn [fst] in Hempty.
  pose proof (with_writer_related s w b b' w' "" sp Hr Hb Ha ltac:(rewrite Hempty; done)) as (R1 & R2 & R3 & R4).
  split; [|intros p; cbn [fst]; unfold pending; cbn; rewrite Hempty; by destruct (String.eqb p _)].
  split_and!; try done. intros p. by rewrite R4, insert_nothing.
Qed.

Lemma closeLog_related st sp : related st sp → related (closeLogLocked st) sp.
Proof.
  intros Hr. destruct (flushLog_related st sp Hr) as [(R1 & R2 & R3 & R4) Hempty]. destruct st as [s w].
  unfold closeLogLocked, flushLog in *. destruct (logWriter s) as [b|] eqn:Hb.
  - destruct (Flush b w) as [b' w']. cbn [fst snd] in *. destruct R1 as [Hh Hs]. cbn [with_writer logFile logWriter] in Hs.
    destruct (logFile s) as [h|]; [|done]. split_and!; try done.
    intros p. cbn [fst snd]. unfold pending. cbn [logWriter new_sink]. rewrite <- R4, Hempty. done.
  - cbn [fst snd] in *. destruct R1 as [Hh Hs]. rewrite Hb in Hs. destruct (logFile s) as [h|] eqn:Hf; [done|]. split_and!; try done.
    intros p. cbn [fst snd]. unfold pending. cbn [logWriter new_sink]. rewrite <- R4. unfold pending. by rewrite Hb.
Qed.

Lemma appendLog_related line st sp : related st sp → related (appendLog line st) (spec_step sp (Append line)).
Proof.
  destruct st as [s w]. intros Hr. pose proof Hr as (Hok & Hp & Ho & Ht). cbn [fst snd] in *.
  unfold appendLog. cbn [spec_step]. rewrite <- Hp. destruct (String.eqb_spec (logPath s) "") as [He|Hne].
  - split_and!; try done. cbn. by rewrite Ho.
  - destruct (open_log_ok s w Hok Hne) as (s1 & w1 & b & -> & Hb & Hok1 & Hp1 & Ho1 & Ht1). rewrite Hb.
    assert (related (s1, w1) sp) as Hr1.
    { split_and!; try done; cbn [fst snd]; try congruence. intros p. destruct (Ht1 p) as [-> ->]. apply Ht. }
    destruct (logFile s1) as [h|] eqn:Hf1; [|by destruct Hok1 as [_ Hs]; rewrite Hf1, Hb in Hs].
    destruct (writer_of s1 w1 h b Hok1 Hb Hf1) as [Hw1 _].
    pose proof (Write_adds (line +:+ nl) b w1 (logPath s1) (proj1 Hok1) Hw1) as Ha. destruct (Write _ b w1) as [b2 w2].
    destruct (adds_ok _ _ _ _ _ _ Ha Hw1) as [Hh2 Hw2]. destruct (flush_small b2 w2 (logPath s1) Hh2 Hw2) as [Ha2 Hl].
    destruct (if (flushAt <=? slen (buf b2))%Z then Flush b2 w2 else (b2, w2)) as [b3 w3]. cbn [fst] in Hl.
    pose proof (adds_trans _ _ _ _ _ _ Ha Ha2) as H3. rewrite app_nil_str in H3. rewrite <- Hp1.
    pose proof (with_writer_related s1 w1 b b3 w3 (line +:+ nl) sp Hr1 Hb H3 Hl) as Hfin. by rewrite Hp1, Hp in Hfin |- *.
Qed.

Lemma step_related o st sp : related st sp → related (step st o) (spec_step sp o).
Proof.
  intros Hr. destruct o as [line| |p|]; cbn [step].
  - by apply appendLog_related.
  - by apply flushLog_related.
  - unfold SetLogPath. destruct (String.eqb_spec p (logPath (fst st))) as [->|Hn].
    + destruct st as [s w], Hr as (Hok & Hp & Ho & Ht). by split_and!.
    + pose proof (closeLog_related st sp Hr) as (R1 & R2 & R3 & R4). destruct st as [s w].
      unfold closeLogLocked in *. cbn [fst snd] in *. destruct R1 as [Hh _]. split_and!; try done.
  - by apply closeLog_related.
Qed.

(** C27: The log loses no line.  For every sequence of lines, flushes, closes
    and changes of the log's path, with lines of any length, on a system whose
    writes succeed: what is in the file of a path and what waits in the buffer
    for it are, together and in order, what was there before and every line
    logged while the path was chosen; lines logged without a path are on the
    standard output; less than half the buffer ever waits; and once the log is
    closed or flushed nothing does. *)
Theorem log_keeps_every_line (w : World) (path : string) (ops : list Op) :
  healthy w →
  let st := foldl step (new_sink path, w) ops in
  let sp := foldl spec_step {| s_path := path; s_text := content w; s_out := stdout w |} ops in
  stdout (snd st) = s_out sp ∧
  (∀ p, text (snd st) p +:+ pending (fst st) p = spec_text sp p ∧ (slen (pending (fst st) p) < 32768)%Z) ∧
  ∀ p, text (snd (CloseLog st)) p = spec_text sp p ∧ text (snd (flushLog st)) p = spec_text sp p.
Proof.
  intros Hh st sp. assert (related st sp) as Hr.
  { unfold st, sp. assert (related (new_sink path, w) {| s_path := path; s_text := content w; s_out := stdout w |}) as H0.
    { split_and!; try done. intros p. cbn. by rewrite app_nil_str. }
    revert H0. generalize (new_sink path, w), {| s_path := path; s_text := content w; s_out := stdout w |}. clear st sp.
    induction ops as [|o ops IH]; intros st sp Hr; [done|]. apply IH. by apply step_related. }
  pose proof Hr as (Hok & _ & Ho & Ht). split; [done|]. split.
  - intros p. split; [done|]. destruct Hok as [_ Hs]. unfold pending.
    destruct (logWriter (fst st)) as [b|]; [|done]. destruct (logFile (fst st)); [|done].
    destruct Hs as (_ & _ & _ & _ & Hl & _). unfold flushAt in Hl. by destruct (String.eqb p _).
  - intros p. split.
    + pose proof (closeLog_related st sp Hr) as (_ & _ & _ & R4). specialize (R4 p). destruct st as [s w']. unfold CloseLog, closeLogLocked in *.
      unfold pending in R4. cbn [fst snd logWriter new_sink] in *. by rewrite app_nil_str in R4.
    + destruct (flushLog_related st sp Hr) as [(_ & _ & _ & R4) Hempty]. by rewrite <- R4, Hempty, app_nil_str.
Qed.

(** ** What is lost *)

(** [Shutdown] closes the file under the buffer: what waits is written by no
    later flush or close. *)
Lemma shutdown_loses_what_waits st sp p : related st sp →
  text (snd (CloseLog (Shutdown_log st))) p = text (snd st) p ∧ text (snd (flushLog (Shutdown_log st))) p = text (snd st) p.
Proof.
  destruct st as [s w]. intros ([Hh Hs] & _). cbn [fst snd] in *. unfold CloseLog, closeLogLocked, flushLog, Shutdown_log.
  destruct (logFile s) as [h|] eqn:Hf, (logWriter s) as [b|] eqn:Hb; try done; cbn [logWriter logFile]; rewrite ?Hb, ?Hf; [|done].
  destruct Hs as (<- & He & _). unfold Flush. rewrite He. cbn [orb].
  destruct (String.eqb (buf b) ""); [done|]. unfold os_write. cbn [os_close opened]. by rewrite lookup_delete_eq.
Qed.

Definition empty_world : World := {| content := ∅; opened := ∅; next := 3; stdout := ""; write_faults := []; open_faults := [] |}.

Lemma shutdown_loses_lines :
  let st := foldl step (new_sink "/l", empty_world) [Append "first"; Tick; Append "last"] in
  text (snd (CloseLog st)) "/l" = "first" +:+ nl +:+ "last" +:+ nl ∧
  text (snd (CloseLog (Shutdown_log st))) "/l" = "first" +:+ nl.
Proof. split; vm_compute; reflexivity. Qed.

(** After a write that failed the writer is of no more use, although the system
    has recovered. *)
Lemma failed_write_silences_the_log :
  let w := {| content := ∅; opened := ∅; next := 3; stdout := ""; write_faults := [Some 0%nat]; open_faults := [] |} in
  text (snd (CloseLog (foldl step (new_sink "/l", w) [Append "a"; Tick; Append "b"; Tick; Append "c"]))) "/l" = "".
Proof. vm_compute. reflexivity. Qed.

Lemma log_keeps_every_line_witness :
  healthy empty_world ∧
  text (snd (CloseLog (foldl step (new_sink "/l", empty_world) [Append "a"; NewPath "/k"; Append "b"; NewPath "/l"; Append "c"]))) "/l"
    = "a" +:+ nl +:+ "c" +:+ nl.
Proof.
  split; [done|].
  destruct (log_keeps_every_line empty_world "/l" [Append "a"; NewPath "/k"; Append "b"; NewPath "/l"; Append "c"]) as (_ & _ & H); [done|].
  destruct (H "/l") as [Ht _]. rewrite Ht. vm_compute. reflexivity.
Defined.

End LogSink.
