(* ===== verification/Owners.v ===== *)
(** * Owners: whose connection it is ([internal/clashapi/proc_darwin.go])

    Connections without a process are named from an inventory of sockets, the
    output of [lsof], that is read at most every five seconds.  An endpoint
    claimed by two processes has no owner, as long as the inventory has at most
    4096 claims ([contested_endpoint_is_named]), and an owner whose number has
    changed hands since is not used.  [Netip] is what is used of [net/netip]. *)

From S2P Require Import Prelude GoStr GoUtf8 GoNet GoUrl GoHttp GoQuery Registry Schema Link GoJson GoJsonData Sub Store Proclist ClashApi.
Import ClashApi.

Local Open Scope string_scope.
Local Open Scope list_scope.

Module Netip.

(** A [netip.Addr]: 4 or 16 bytes and a zone. *)
Record Addr := { bytes : IP; zone : string }.

(** The first of ".", ":" and "%" tells what an address is. *)
Definition ParseAddr (s : string) : option Addr :=
  match drop_while (λ c, negb (Ascii.eqb c "." || Ascii.eqb c ":" || Ascii.eqb c "%")) s with
  | String "." _ => (λ ip, {| bytes := ip; zone := "" |}) <$> parseIPv4 s
  | String ":" _ =>
      match Cut s "%" with
      | None => (λ ip, {| bytes := ip; zone := "" |}) <$> parseIPv6 s
      | Some (_, "") => None
      | Some (a, z) => (λ ip, {| bytes := ip; zone := z |}) <$> parseIPv6 a
      end
  | _ => None
  end.

(** An IPv4 address in IPv6 form loses its zone. *)
Definition Unmap (a : Addr) : Addr :=
  if (length (bytes a) =? 16)%nat then
    match To4 (bytes a) with Some ip => {| bytes := ip; zone := "" |} | None => a end
  else a.

Fixpoint groups (ip : IP) : list Z := match ip with hi :: lo :: ip => (hi * 256 + lo)%Z :: groups ip | _ => [] end.

Definition hex_group (n : Z) : string :=
  let digit k := String (hex_char (Z.to_N (n / k mod 16))) "" in
  if (n <? 16)%Z then digit 1%Z
  else if (n <? 256)%Z then digit 16%Z +:+ digit 1%Z
  else if (n <? 4096)%Z then digit 256%Z +:+ digit 16%Z +:+ digit 1%Z
  else digit 4096%Z +:+ digit 256%Z +:+ digit 16%Z +:+ digit 1%Z.

Fixpoint zeros (gs : list Z) : nat := match gs with 0%Z :: gs => S (zeros gs) | _ => 0%nat end.

(** The first of the longest runs of two zero groups or more: where it starts
    and where it ends. *)
Fixpoint zero_run (i : nat) (gs : list Z) (best : nat * nat) : nat * nat :=
  match gs with
  | [] => best
  | _ :: gs' =>
      let l := zeros gs in
      zero_run (S i) gs' (if (2 <=? l)%nat && (snd best - fst best <? l)%nat then (i, (i + l)%nat) else best)
  end.

Definition ip6_string (ip : IP) : string :=
  let gs := groups ip in
  let '(a, b) := zero_run 0 gs (0, 0)%nat in
  if (a =? b)%nat then Join ":" (hex_group <$> gs)
  else Join ":" (hex_group <$> take a gs) +:+ "::" +:+ Join ":" (hex_group <$> drop b gs).

Definition String_ (a : Addr) : string :=
  if (length (bytes a) =? 4)%nat then ip4_string (bytes a)
  else ip6_string (bytes a) +:+ (if String.eqb (zone a) "" then "" else "%" +:+ zone a).

Example addr_ex : ((λ s, String_ <$> (Unmap <$> ParseAddr s)) <$>
    ["::1"; "::ffff:10.0.0.1"; "2001:DB8:0:0:1:0:0:1"; "fe80::1%en0"; "1.2.3.4"; "01.2.3.4"; "::"; "1:0:0:2:3:4:5:6"; "x"; "%a:"]) =
  [Some "::1"; Some "10.0.0.1"; Some "2001:db8::1:0:0:1"; Some "fe80::1%en0"; Some "1.2.3.4"; None; Some "::"; Some "1::2:3:4:5:6"; None; None].
Proof. vm_compute. reflexivity. Qed.
End Netip.

Module Owners.

Definition ownerInventoryLimit : nat := 4096.
Definition ownerInventoryByteLimit : Z := 8388608.

Record Entry := { e_name : string; e_pid : Z; e_token : string }.
#[export] Instance Entry_eq_dec : EqDecision Entry.
Proof. solve_decision. Defined.

(** An endpoint without a single owner. *)
Definition nobody : Entry := {| e_name := ""; e_pid := 0; e_token := "" |}.

Definition canonicalOwnerEndpoint (endpoint : string) : option string :=
  match Url.SplitHostPort endpoint with
  | Err _ => None
  | Ok (host, port) =>
      ip ← Netip.ParseAddr host;
      n ← Atoi port;
      if (n <=? 0)%Z || (65535 <? n)%Z then None else Some (join_host_port (Netip.String_ (Netip.Unmap ip)) (Itoa n))
  end.

Section inventory.
Context `{GoUnicode}.

Definition ownerKey (m : Metadata) : string :=
  match canonicalOwnerEndpoint (join_host_port (SourceIP m) (SourcePort m)) with
  | None => ""
  | Some e => ToLower (Network m) +:+ "|" +:+ e
  end.

(** One probe per process; a process that is gone has an empty token. *)
Record Parse := { owners : gmap string Entry; tokens : gmap Z string }.

Variable identity : Z → option string.
Definition token_of (pid : Z) : string := match identity pid with Some t => t | None => "" end.

Record Claim := { c_key : string; c_pid : Z; c_name : string }.

Definition claim (st : Parse) (c : Claim) : Parse :=
  let known := owners st !! c_key c in
  if bool_decide (known = None) && (ownerInventoryLimit <=? size (owners st))%nat then st
  else
    let checked := tokens st !! c_pid c in
    if bool_decide (checked = None) && (ownerInventoryLimit <=? size (tokens st))%nat then st
    else
      let token := match checked with Some t => t | None => token_of (c_pid c) end in
      let tokens := match checked with Some _ => tokens st | None => <[c_pid c := token]> (tokens st) end in
      if String.eqb token "" then {| owners := owners st; tokens := tokens |}
      else
        let candidate := {| e_name := c_name c; e_pid := c_pid c; e_token := token |} in
        match known with
        | Some previous => {| owners := <[c_key c := if bool_decide (previous = candidate) then candidate else nobody]> (owners st); tokens := tokens |}
        | None => {| owners := <[c_key c := candidate]> (owners st); tokens := tokens |}
        end.

(** The process a field belongs to. *)
Record Reading := { rd_pid : Z; rd_name : string; rd_network : string }.

(** What precedes the arrow. *)
Definition local_part (s : string) : string := match Cut s "->" with Some (a, _) => a | None => s end.

(** One field of the inventory: what it claims, if anything, and whose the
    next fields are. *)
Definition read_field (r : Reading) (field : string) : Reading * option Claim :=
  match field with
  | "" => (r, None)
  | String k v =>
      if Ascii.eqb k "p" then ({| rd_pid := Proclist.Atoi_ignoring v; rd_name := ""; rd_network := "" |}, None)
      else if Ascii.eqb k "c" then ({| rd_pid := rd_pid r; rd_name := v; rd_network := rd_network r |}, None)
      else if Ascii.eqb k "P" then ({| rd_pid := rd_pid r; rd_name := rd_name r; rd_network := ToLower v |}, None)
      else if Ascii.eqb k "n" then
        (r, if (rd_pid r <=? 0)%Z || String.eqb (rd_name r) "" || negb (bool_decide (rd_network r ∈ ["tcp"; "udp"])) then None
            else (λ e, {| c_key := rd_network r +:+ "|" +:+ e; c_pid := rd_pid r; c_name := rd_name r |}) <$>
                 canonicalOwnerEndpoint (local_part v))
      else (r, None)
  end.

Fixpoint read_fields (r : Reading) (fields : list string) (st : Parse) : Parse :=
  match fields with
  | [] => st
  | f :: fields =>
      let '(r, c) := read_field r f in
      read_fields r fields (match c with Some c => claim st c | None => st end)
  end.

Definition no_reading : Reading := {| rd_pid := 0; rd_name := ""; rd_network := "" |}.

Definition parseOwnerInventoryWithIdentity (raw : string) : gmap string Entry :=
  owners (read_fields no_reading (split_byte LF raw) {| owners := ∅; tokens := ∅ |}).
End inventory.

(** ** Naming connections *)

Section enrich.
Context `{GoUnicode}.
Variable identity : Z → option string.

(** [validated] holds the token each process has now. *)
Definition name_one (owners : gmap string Entry) (validated : gmap Z string) (c : Connection) : gmap Z string * Connection :=
  let m := Meta c in
  if negb (String.eqb (Process m) "") || negb (String.eqb (ProcessPath m) "") then (validated, c)
  else match owners !! ownerKey m with
  | None => (validated, c)
  | Some e =>
      if String.eqb (e_name e) "" then (validated, c)
      else
        let token := match validated !! e_pid e with Some t => t | None => token_of identity (e_pid e) end in
        (<[e_pid e := token]> validated,
         if negb (String.eqb token "") && String.eqb token (e_token e) then with_meta (with_process (e_name e) m) c else c)
  end.

Fixpoint name_all (owners : gmap string Entry) (validated : gmap Z string) (conns : list Connection) : list Connection :=
  match conns with
  | [] => []
  | c :: conns => let '(validated, c) := name_one owners validated c in c :: name_all owners validated conns
  end.
End enrich.

(** ** The service *)

Record Service := { s_at : Z; s_owners : option (gmap string Entry) }.
Definition ttl : Z := 5000000000.

(** What [lsof] printed, if it ran and stayed within the limit. *)
Definition readOwnerInventory (output : option string) : option string :=
  match output with
  | Some o => if (slen o <=? ownerInventoryByteLimit)%Z then Some o else None
  | None => None
  end.

(** One call: when it starts and when its inventory, if it reads one, has been
    read; what [lsof] prints; the process table while the inventory is read and
    while the connections are named; the connections. *)
Record Call := {
  begun : Z; finished : Z; output : option string; then_ : Z → option string; now_ : Z → option string; conns : list Connection }.

Definition enrichOwners `{GoUnicode} (c : Call) (s : Service) : Service * list Connection :=
  match conns c with
  | [] => (s, conns c)
  | _ =>
      let fresh := match s_owners s with Some _ => (begun c - s_at s <? ttl)%Z | None => false end in
      let s' := if fresh then Some s
                else (λ raw, {| s_at := finished c; s_owners := Some (parseOwnerInventoryWithIdentity (then_ c) raw) |}) <$> readOwnerInventory (output c) in
      match s' with
      | None => (s, conns c)
      | Some s' => (s', name_all (now_ c) (match s_owners s' with Some o => o | None => ∅ end) ∅ (conns c))
      end
  end.

Definition no_service : Service := {| s_at := 0; s_owners := None |}.

(** The service after some calls. *)
Definition after `{GoUnicode} (cs : list Call) : Service := foldl (λ s c, fst (enrichOwners c s)) no_service cs.

(** ** Facts *)

Section facts.
Context `{GoUnicode}.
Variable identity : Z → option string.

(** All the claims of an inventory. *)
Fixpoint claims (r : Reading) (fields : list string) : list Claim :=
  match fields with
  | [] => []
  | f :: fields => let '(r, c) := read_field r f in match c with Some c => c :: claims r fields | None => claims r fields end
  end.

Lemma read_fields_claims fields : ∀ r st, read_fields identity r fields st = foldl (claim identity) st (claims r fields).
Proof.
  induction fields as [|f fields IH]; intros r st; [done|]. cbn [read_fields claims].
  destruct (read_field r f) as [r' [c|]]; by rewrite IH.
Qed.

(** The process behind a claim, if it lives. *)
Definition claimant (c : Claim) : option Entry :=
  if String.eqb (token_of identity (c_pid c)) "" then None
  else Some {| e_name := c_name c; e_pid := c_pid c; e_token := token_of identity (c_pid c) |}.

Definition claimants (k : string) (cs : list Claim) : list Entry := omap claimant (filter (λ c, c_key c = k) cs).

(** The owner among the claimants: the one, or nobody. *)
Definition agreed (es : list Entry) : option Entry :=
  match es with [] => None | e :: es => Some (if bool_decide (Forall (λ e', e' = e) es) then e else nobody) end.

Lemma agreed_snoc es e : e ≠ nobody →
  agreed (es ++ [e]) = Some (match agreed es with Some p => if bool_decide (p = e) then e else nobody | None => e end).
Proof.
  intros Hne. destruct es as [|e0 es]; [done|]. cbn [agreed app]. f_equal.
  rewrite (bool_decide_ext (Forall (λ e', e' = e0) (es ++ [e])) (Forall (λ e', e' = e0) es ∧ e = e0))
    by (rewrite Forall_app, Forall_singleton; done).
  destruct (bool_decide_reflect (Forall (λ e', e' = e0) es)) as [Hall|Hall].
  - destruct (decide (e = e0)) as [->|Hee]; [by rewrite !bool_decide_eq_true_2|].
    rewrite !bool_decide_eq_false_2; [done|congruence|naive_solver].
  - rewrite !bool_decide_eq_false_2; [done|congruence|naive_solver].
Qed.

Lemma claimants_snoc k cs c : claimants k (cs ++ [c]) =
  claimants k cs ++ (if bool_decide (c_key c = k) then match claimant c with Some e => [e] | None => [] end else []).
Proof.
  unfold claimants. rewrite filter_app, omap_app, filter_cons, filter_nil. f_equal.
  case_decide; [rewrite bool_decide_eq_true_2 by done|by rewrite bool_decide_eq_false_2]. cbn. by destruct (claimant c).
Qed.

Lemma claimant_somebody c e : claimant c = Some e → e ≠ nobody.
Proof. unfold claimant. destruct (String.eqb_spec (token_of identity (c_pid c)) "") as [|Ht]; [done|]. intros [= <-] [= _ _ ?]. done. Qed.

Lemma insert_size {K} `{Countable K} {A} (m : gmap K A) k x : (size (<[k := x]> m) <= S (size m))%nat.
Proof. rewrite map_size_insert. case_match; cbn; lia. Qed.

Record parsed (cs : list Claim) (st : Parse) : Prop := {
  pd_owners : ∀ k, owners st !! k = agreed (claimants k cs);
  pd_osize : (size (owners st) <= length cs)%nat;
  pd_tsize : (size (tokens st) <= length cs)%nat;
  pd_tokens : ∀ p t, tokens st !! p = Some t → t = token_of identity p
}.

Lemma claim_parsed cs st c : (length cs < ownerInventoryLimit)%nat → parsed cs st → parsed (cs ++ [c]) (claim identity st c).
Proof.
  intros Hlen [Ho Hos Hts Ht]. unfold claim.
  rewrite (proj2 (Nat.leb_gt _ (size (owners st)))), (proj2 (Nat.leb_gt _ (size (tokens st)))), !andb_false_r by lia. cbv zeta.
  set (token := match tokens st !! c_pid c with Some t => t | None => token_of identity (c_pid c) end).
  assert (token = token_of identity (c_pid c)) as Htok by (unfold token; destruct (tokens st !! c_pid c) eqn:E; [by apply Ht|done]).
  set (ts := match tokens st !! c_pid c with Some _ => tokens st | None => <[c_pid c := token]> (tokens st) end).
  assert (∀ p t, ts !! p = Some t → t = token_of identity p) as Hts'.
  { intros p t. unfold ts. destruct (tokens st !! c_pid c); [apply Ht|]. destruct (decide (c_pid c = p)) as [<-|Hp].
    - rewrite lookup_insert_eq. by intros [= <-].
    - rewrite lookup_insert_ne by done. apply Ht. }
  assert (size ts <= S (length cs))%nat as Hsz.
  { unfold ts. destruct (tokens st !! c_pid c); [lia|]. etrans; [apply insert_size|]. lia. }
  assert (∀ k, c_key c ≠ k → claimants k (cs ++ [c]) = claimants k cs) as Hother.
  { intros k Hk. by rewrite claimants_snoc, bool_decide_eq_false_2, app_nil_r. }
  destruct (String.eqb_spec token "") as [Hemp|Hlive].
  - split; cbn [owners tokens]; rewrite ?length_app; cbn [length]; try lia; [|exact Hts'].
    intros k. rewrite Ho, claimants_snoc. case_bool_decide; [|by rewrite app_nil_r].
    unfold claimant. rewrite <- Htok, Hemp. by rewrite app_nil_r.
  - set (e := {| e_name := c_name c; e_pid := c_pid c; e_token := token |}).
    assert (claimant c = Some e) as He.
    { unfold claimant. rewrite <- Htok. by rewrite (proj2 (String.eqb_neq _ _) Hlive). }
    pose proof (claimant_somebody _ _ He) as Hne.
    assert (∀ x, <[c_key c := match owners st !! c_key c with Some p => if bool_decide (p = e) then e else nobody | None => e end]> (owners st) !! x =
      agreed (claimants x (cs ++ [c]))) as Hnew.
    { intros k. destruct (decide (c_key c = k)) as [<-|Hk]; [|by rewrite lookup_insert_ne, Hother, Ho].
      rewrite lookup_insert_eq, claimants_snoc, bool_decide_eq_true_2, He, agreed_snoc by done. by rewrite <- Ho. }
    destruct (owners st !! c_key c) as [p|]; (split; cbn [owners tokens]; rewrite ?length_app; cbn [length];
      [exact Hnew|etrans; [apply insert_size|]; lia|lia|exact Hts']).
Qed.

Lemma claims_parsed cs : (length cs <= ownerInventoryLimit)%nat →
  parsed cs (foldl (claim identity) {| owners := ∅; tokens := ∅ |} cs).
Proof.
  induction cs as [|c cs IH] using rev_ind; intros Hlen.
  - split; cbn; [intros k; apply lookup_empty|by rewrite map_size_empty|by rewrite map_size_empty|intros p t; by rewrite lookup_empty].
  - rewrite length_app in Hlen. cbn [length] in Hlen. rewrite foldl_app. cbn [foldl]. apply claim_parsed; [lia|]. apply IH. lia.
Qed.
End facts.

(** What naming a connection should do: only its sole claimant names it, and
    only if it is the same process still. *)
Definition name_by `{GoUnicode} (then_ now_ : Z → option string) (cs : list Claim) (c : Connection) : Connection :=
  if negb (String.eqb (Process (Meta c)) "") || negb (String.eqb (ProcessPath (Meta c)) "") then c
  else match agreed (claimants then_ (ownerKey (Meta c)) cs) with
  | Some e =>
      if negb (String.eqb (e_name e) "") && negb (String.eqb (token_of now_ (e_pid e)) "") &&
         String.eqb (token_of now_ (e_pid e)) (e_token e)
      then with_meta (with_process (e_name e) (Meta c)) c else c
  | None => c
  end.

Lemma name_all_by `{GoUnicode} then_ now_ os cs conns : (∀ k, os !! k = agreed (claimants then_ k cs)) →
  ∀ validated, (∀ p t, validated !! p = Some t → t = token_of now_ p) →
  name_all now_ os validated conns = name_by then_ now_ cs <$> conns.
Proof.
  intros Hos. induction conns as [|c conns IH]; intros validated Hv; [done|]. cbn [name_all]. rewrite fmap_cons.
  assert (snd (name_one now_ os validated c) = name_by then_ now_ cs c ∧
    ∀ p t, fst (name_one now_ os validated c) !! p = Some t → t = token_of now_ p) as [Hc Hv'].
  { unfold name_one, name_by. destruct (_ || _); [done|]. rewrite Hos. destruct (agreed _) as [e|]; [|done].
    destruct (String.eqb (e_name e) ""); [done|]. cbn [negb andb].
    assert (match validated !! e_pid e with Some t => t | None => token_of now_ (e_pid e) end = token_of now_ (e_pid e)) as ->.
    { destruct (validated !! e_pid e) eqn:E; [by apply Hv|done]. }
    split; [done|]. cbn [fst]. intros p t. destruct (decide (e_pid e = p)) as [<-|Hp].
    - rewrite lookup_insert_eq. by intros [= <-].
    - rewrite lookup_insert_ne by done. apply Hv. }
  destruct (name_one now_ os validated c) as [v' c']. cbn [fst snd] in *. by rewrite Hc, (IH v' Hv').
Qed.

(** The claims of the inventory a call reads, when it can be read and is within
    the limit. *)
Definition inventory_of `{GoUnicode} (c : Call) : option (list Claim) :=
  (λ raw, claims no_reading (split_byte LF raw)) <$> readOwnerInventory (output c).

Definition within_limit `{GoUnicode} (c : Call) : Prop := ∀ cs, inventory_of c = Some cs → (length cs <= ownerInventoryLimit)%nat.

(** The cached inventory is that of an earlier call. *)
Definition cached_from `{GoUnicode} (cs : list Call) (s : Service) : Prop :=
  ∀ os, s_owners s = Some os → ∃ c ls, c ∈ cs ∧ inventory_of c = Some ls ∧ s_at s = finished c ∧
    ∀ k, os !! k = agreed (claimants (then_ c) k ls).

Lemma parse_agrees `{GoUnicode} (c : Call) raw : within_limit c → readOwnerInventory (output c) = Some raw →
  ∀ k, parseOwnerInventoryWithIdentity (then_ c) raw !! k = agreed (claimants (then_ c) k (claims no_reading (split_byte LF raw))).
Proof.
  intros Hl Hr. unfold parseOwnerInventoryWithIdentity. rewrite read_fields_claims. apply claims_parsed.
  apply (Hl (claims no_reading (split_byte LF raw))). unfold inventory_of. by rewrite Hr.
Qed.

Lemma enrich_cached `{GoUnicode} (cs : list Call) (c : Call) (s : Service) :
  within_limit c → cached_from cs s → cached_from (cs ++ [c]) (fst (enrichOwners c s)).
Proof.
  intros Hl Hs. assert (cached_from (cs ++ [c]) s) as Hs'.
  { intros os (c0 & ls & Hin & Hr)%Hs. exists c0, ls. split; [|done]. apply elem_of_app. by left. }
  unfold enrichOwners. destruct (conns c) as [|x xs]; [done|].
  destruct (match s_owners s with Some _ => _ | None => _ end); [done|].
  destruct (readOwnerInventory (output c)) as [raw|] eqn:Hr; [|done]. cbn [fmap option_fmap option_map fst].
  intros os Hos. cbn in Hos. injection Hos as <-. exists c, (claims no_reading (split_byte LF raw)).
  split; [apply elem_of_app; right; by left|]. split; [unfold inventory_of; by rewrite Hr|]. split; [done|]. by apply parse_agrees.
Qed.

Lemma after_cached `{GoUnicode} (cs : list Call) : Forall within_limit cs → cached_from cs (after cs).
Proof.
  induction cs as [|c cs IH] using rev_ind; [done|]. intros [Hcs Hc]%Forall_app. unfold after. rewrite foldl_app. cbn [foldl].
  apply enrich_cached; [by inversion Hc|by apply IH].
Qed.

(** C11: A connection is named after its owner.  For any sequence of calls,
    none of whose inventories makes more than 4096 claims, the last call
    either answers its connections as they are, and then it had none, or its
    own inventory could not be read (a failure, or more than 8 MiB); or it
    names them by one inventory: its own, or one that an earlier call had
    finished reading less than five seconds before.  By an inventory, a
    connection without a process gets the name of the only living process
    that claimed its endpoint, if that process is still the one with its
    number; everything else is left alone. *)
Theorem connections_are_named_by_their_owner `{GoUnicode} (cs : list Call) (c : Call) :
  Forall within_limit (cs ++ [c]) →
  let answer := snd (enrichOwners c (after cs)) in
  (answer = conns c ∧ (conns c = [] ∨ inventory_of c = None)) ∨
  (∃ c0 ls, inventory_of c0 = Some ls ∧ (c0 = c ∨ (c0 ∈ cs ∧ (begun c - finished c0 < ttl)%Z)) ∧
     answer = name_by (then_ c0) (now_ c) ls <$> conns c).
Proof.
  intros [Hcs Hc]%Forall_app. pose proof (after_cached cs Hcs) as Hcached. rewrite Forall_singleton in Hc.
  cbv zeta. unfold enrichOwners. destruct (conns c) as [|x xs] eqn:Hx; [by left; auto|].
  assert (∀ p t, (∅ : gmap Z string) !! p = Some t → t = token_of (now_ c) p) as Hno by (intros p t; by rewrite lookup_empty).
  destruct (s_owners (after cs)) as [os|] eqn:Hos; [destruct (Z.ltb_spec (begun c - s_at (after cs)) ttl) as [Hlt|Hge]|].
  - cbn [snd]. rewrite Hos. destruct (Hcached os Hos) as (c0 & ls & Hin & Hinv & Hat & Hk).
    right. exists c0, ls. split; [done|]. split; [right; split; [done|by rewrite <- Hat]|]. by apply (name_all_by (then_ c0)).
  - destruct (readOwnerInventory (output c)) as [raw|] eqn:Hr; cbn [fmap option_fmap option_map snd s_owners].
    + right. exists c, (claims no_reading (split_byte LF raw)). split; [unfold inventory_of; by rewrite Hr|]. split; [by left|].
      apply (name_all_by (then_ c)); [by apply parse_agrees|done].
    + left. split; [done|]. right. unfold inventory_of. by rewrite Hr.
  - destruct (readOwnerInventory (output c)) as [raw|] eqn:Hr; cbn [fmap option_fmap option_map snd s_owners].
    + right. exists c, (claims no_reading (split_byte LF raw)). split; [unfold inventory_of; by rewrite Hr|]. split; [by left|].
      apply (name_all_by (then_ c)); [by apply parse_agrees|done].
    + left. split; [done|]. right. unfold inventory_of. by rewrite Hr.
Qed.

(** Past the limit an endpoint of two processes can be named after the first:
    once 4096 processes have been asked for, the claim of another is dropped
    unread, also on an endpoint that has an owner, which so keeps it. *)
Lemma contested_endpoint_is_named `{GoUnicode} identity (st : Parse) (c : Claim) (owner : Entry) :
  owners st !! c_key c = Some owner → (ownerInventoryLimit <= size (tokens st))%nat → tokens st !! c_pid c = None →
  owners (claim identity st c) !! c_key c = Some owner.
Proof.
  intros Ho Hs Ht. unfold claim. rewrite Ho, Ht, (bool_decide_eq_false_2 (Some owner = None)), (bool_decide_eq_true_2 (None = None)) by done.
  cbn [andb]. by rewrite (proj2 (Nat.leb_le _ _) Hs).
Qed.

Definition inventory_ex : string :=
  Join nl ["p10"; "ca"; "f3"; "PTCP"; "n127.0.0.1:50000->1.2.3.4:443"; "p20"; "cb"; "PTCP"; "n[::ffff:127.0.0.1]:50001"; "p30"; "cc";
           "PTCP"; "n127.0.0.1:50001"; "n[::1]:7"; ""].
Definition tokens_ex (pid : Z) : option string := if (pid =? 30)%Z then None else Some (Itoa pid).
Definition conn_at (ip port : string) : Connection := with_meta {|
  Network := "tcp"; Type_ := ""; SourceIP := ip; DestinationIP := ""; SourcePort := port; DestinationPort := ""; Host := "";
  Process := ""; ProcessPath := "" |} no_connection.
Definition call_ex (at_ : Z) (out : option string) : Call := {|
  begun := at_; finished := at_ + 1; output := out; then_ := tokens_ex; now_ := tokens_ex;
  conns := [conn_at "127.0.0.1" "50000"; conn_at "127.0.0.1" "50001"; conn_at "::1" "7"] |}.

(** The second call is within five seconds and uses the inventory of the first;
    the third reads one again and fails. *)
Example owners_cached :
  let named c cs := (λ c, Process (Meta c)) <$> snd (@enrichOwners ascii_only c (@after ascii_only cs)) in
  let c1 := call_ex 1 (Some inventory_ex) in
  named (call_ex 5000000001 None) [c1] = ["a"; "b"; ""] ∧ named (call_ex 5000000002 None) [c1] = [""; ""; ""].
Proof. by vm_compute. Qed.

Lemma connections_are_named_by_their_owner_witness :
  let c := call_ex 5000000001 None in let answer := snd (@enrichOwners ascii_only c (@after ascii_only [call_ex 1 (Some inventory_ex)])) in
  answer = conns c ∨ ∃ ls, answer = @name_by ascii_only tokens_ex tokens_ex ls <$> conns c.
Proof.
  destruct (@connections_are_named_by_their_owner ascii_only [call_ex 1 (Some inventory_ex)] (call_ex 5000000001 None))
    as [[H _]|(c0 & ls & _ & Hc & H)].
  - apply Forall_cons. split; [|apply Forall_singleton].
    + intros ls Hcs. vm_compute in Hcs. injection Hcs as <-. apply Nat.leb_le. vm_compute. reflexivity.
    + intros ls Hcs. vm_compute in Hcs. discriminate Hcs.
  - left. exact H.
  - right. exists ls. rewrite H. destruct Hc as [->|[->%list_elem_of_singleton _]]; reflexivity.
Defined.

End Owners.
