(* ===== verification/Settings.v ===== *)
(** * Settings: the tunables of the executor
    ([internal/app/executor.go], [internal/daemon/daemon.go])

    The settings a client edits, what they do to the running cores, the choice
    of a server in the failover group, the commands that go to the Clash API,
    and what a detached process is started with.  The state joins those of
    Executor (keys and manager) and Apps (ports and router) with the tunables
    and the builder the manager was made with. *)

From S2P Require Import Prelude GoStr GoUtf8 GoNet GoUrl GoPath Runtime Registry Schema Singbox Sub Executor ExecutorInv GoJson GoJsonData Store Proclist AppStore Netext Procproxy Apps ClashApi.

Local Open Scope string_scope.
Local Open Scope list_scope.

Module Settings.

(** ** Data *)

(** [notify.Settings]; on the wire its fields have these names. *)
Record Settings := {
  SocksPort : Z; ClashEnabled : bool; ClashAddr : string; URLTestURL : string; URLTestInterval : string;
  URLTestTolerance : Z; SaveProfile : bool; AutostartMode : string }.

(** What a reload builds the manager with. *)
Record firewallConfigBuilder (P : Type) := {
  b_profiles : list (Registry.Profile P); b_logPath : string; b_logLevel : string; b_ports : Singbox.Ports;
  b_clashAPI : option Schema.ClashAPI; b_urltest : Singbox.URLTestParams; b_firewall : list Singbox.Firewall.Rule }.
Arguments b_profiles {P} f.
Arguments b_logPath {P} f.
Arguments b_logLevel {P} f.
Arguments b_ports {P} f.
Arguments b_clashAPI {P} f.
Arguments b_urltest {P} f.
Arguments b_firewall {P} f.

Record Tunables := { clashAddr : string; clashSecret : string; urltest : Singbox.URLTestParams; logPath : string; logLevel : string }.

Record State (R P : Type) := {
  tun : Tunables; exec : Executor.Executor; apps : Apps.State R; built : option (firewallConfigBuilder P) }.
Arguments tun {R P} s.
Arguments exec {R P} s.
Arguments apps {R P} s.
Arguments built {R P} s.

Inductive error :=
  | ErrExec (e : Executor.error)
  | ErrClashDisabled
  | ErrClash (e : ClashApi.ApiError)
  | ErrOneServer
  | ErrUnknownProxy (tag : string) (valid : list string).

(** [daemon.Config], without the lock file. *)
Record DaemonConfig := {
  Mode : string; Port : Z; NoClash : bool; dClashAddr : string; dClashSecret : string; dURLTestURL : string;
  dURLTestInterval : string; dURLTestTolerance : Z; LogPath : string }.

Section setters.
Context {R P : Type}.
Implicit Types (s : State R P).

Definition with_tun (t : Tunables) s : State R P := {| tun := t; exec := exec s; apps := apps s; built := built s |}.
Definition with_exec (x : Executor.Executor) s : State R P := {| tun := tun s; exec := x; apps := apps s; built := built s |}.
Definition with_apps (a : Apps.State R) s : State R P := {| tun := tun s; exec := exec s; apps := a; built := built s |}.

Definition SetClashAPI (addr secret : string) s : State R P := with_tun {|
  clashAddr := addr; clashSecret := secret; urltest := urltest (tun s); logPath := logPath (tun s); logLevel := logLevel (tun s) |} s.
Definition SetURLTest (u : Singbox.URLTestParams) s : State R P := with_tun {|
  clashAddr := clashAddr (tun s); clashSecret := clashSecret (tun s); urltest := u; logPath := logPath (tun s); logLevel := logLevel (tun s) |} s.
Definition SetSocksPort (p : Z) s : State R P := with_apps (Apps.SetSocksPort p (apps s)) s.
Definition resetRouter s : State R P := with_apps (Apps.resetRouter (apps s)) s.
End setters.

(** [clashAPIConfig] *)
Definition clashAPIConfig (addr secret : string) : option Schema.ClashAPI :=
  if String.eqb addr "" then None else Some {| Schema.ExternalController := addr; Schema.Secret := secret |}.

(** Sixteen random bytes in hexadecimal, or a constant when there are none. *)
Definition hex_encode (b : string) : string :=
  String.concat "" ((λ c, let n := N_of_ascii c in String (hex_char (n / 16)) (String (hex_char (n mod 16)) "")) <$> list_ascii_of_string b).
Definition randomHex (b : option string) : string :=
  match b with Some b => hex_encode b | None => "singctl-local" end.

(** ** The operations *)

Section operations.
Context `{GoUnicode} {R P : Type} (reg : Registry.Registry_ P) (env : Runtime.Env).
Context (renderer : Registry.Module_ P → option (Registry.Profile P → Schema.RenderOpts → result string Schema.Node)).
Context (save : bool) (saveAutostart : option (string → option string)).
Implicit Types (s : State R P).

(** [firewallConfigBuilder] *)
Definition ProxyConfig (b : firewallConfigBuilder P) (physIface : string) : result Singbox.error Schema.Config :=
  let? cfg := Singbox.GenerateProxyConfigOpts renderer reg (b_profiles b) {|
    Singbox.PhysIface := physIface; Singbox.pPorts := b_ports b; Singbox.pClashAPI := b_clashAPI b;
    Singbox.URLTest := b_urltest b; Singbox.pFirewall := b_firewall b |} in
  Ok (Singbox.applyLog (b_logPath b) (b_logLevel b) cfg).

Definition ForwarderConfig (b : firewallConfigBuilder P) : result Singbox.error Schema.Config :=
  let? cfg := Singbox.GenerateForwarderConfigSet renderer reg (b_profiles b) (b_ports b) in
  Ok (Singbox.applyLog (b_logPath b) (b_logLevel b) cfg).

(** The builder a reload makes from the settings of the moment. *)
Definition builder (ps : list (Registry.Profile P)) s : firewallConfigBuilder P := {|
  b_profiles := ps; b_logPath := logPath (tun s); b_logLevel := logLevel (tun s);
  b_ports := {| Singbox.Socks := Apps.socks (apps s); Singbox.HTTP := Apps.http (apps s) |};
  b_clashAPI := clashAPIConfig (clashAddr (tun s)) (clashSecret (tun s));
  b_urltest := urltest (tun s); b_firewall := Executor.fwRules (exec s) |}.

(** LoadLink, with the builder that applyEffective gives the new manager. *)
Definition LoadLink (raw : string) s : option error * State R P :=
  let '(r, x) := Executor.LoadLink reg env save raw (exec s) in
  let s' := with_exec x s in
  match r with
  | Some e => (Some (ErrExec e), s')
  | None =>
      (None, {| tun := tun s'; exec := x; apps := apps s';
                built := match Registry.ParseAll reg (Executor.effectiveLinks x) with
                         | Ok ps => Some (builder ps s') | Err _ => None end |})
  end.

Definition CurrentLinks s : list string := Executor.links (exec s).
Definition clash_on s : bool := negb (String.eqb (clashAddr (tun s)) "").

Definition CurrentSettings s : Settings := {|
  SocksPort := Apps.socks (apps s); ClashEnabled := clash_on s; ClashAddr := clashAddr (tun s);
  URLTestURL := Singbox.utURL (urltest (tun s)); URLTestInterval := Singbox.utInterval (urltest (tun s));
  URLTestTolerance := Singbox.utTolerance (urltest (tun s)); SaveProfile := save;
  AutostartMode := Executor.AutostartMode (exec s) |}.

Definition on_exec (m : Executor.M (option Executor.error)) s : option error * State R P :=
  let '(r, x) := m (exec s) in (ErrExec <$> r, with_exec x s).

(** ApplySettings up to the reload. *)
Definition set_clash (random : option string) (st : Settings) s : State R P :=
  if ClashEnabled st
  then SetClashAPI (ClashAddr st) (if String.eqb (clashSecret (tun s)) "" then randomHex random else clashSecret (tun s)) s
  else SetClashAPI "" "" s.

Definition tunables (random : option string) (st : Settings) s : State R P :=
  SetURLTest {| Singbox.utURL := URLTestURL st; Singbox.utInterval := URLTestInterval st; Singbox.utTolerance := URLTestTolerance st |}
    (set_clash random st (SetSocksPort (SocksPort st) s)).

Definition set_autostart (st : Settings) s : option error * State R P :=
  if String.eqb (AutostartMode st) "" then (None, s)
  else on_exec (Executor.SetAutostartMode saveAutostart (AutostartMode st)) s.

Definition reload s : option error * State R P :=
  match CurrentLinks s with
  | [] => (None, s)
  | ls =>
      let prev := Executor.StateLabel (exec s) in
      match LoadLink (Join nl ls) s with
      | (Some e, s) => (Some e, s)
      | (None, s) => on_exec (Executor.reenable env (clash_on s) prev) s
      end
  end.

Definition ApplySettings (random : option string) (st : Settings) s : option error * State R P :=
  match set_autostart st (tunables random st s) with
  | (Some e, s) => (Some e, s)
  | (None, s) => reload (resetRouter s)
  end.

(** Saving is best-effort; the process is started with this. *)
Definition Daemonize s : result Executor.error DaemonConfig * State R P :=
  match CurrentLinks s with
  | [] => (Err Executor.errNoProxy, s)
  | _ =>
      let mode := if String.eqb (Executor.StateLabel (exec s)) "vpn" then "vpn" else "proxy" in
      let '(_, x) := Executor.save_profile save (exec s) in
      (Ok {| Mode := mode; Port := Apps.socks (apps s); NoClash := negb (clash_on s); dClashAddr := clashAddr (tun s);
             dClashSecret := clashSecret (tun s); dURLTestURL := Singbox.utURL (urltest (tun s));
             dURLTestInterval := Singbox.utInterval (urltest (tun s)); dURLTestTolerance := Singbox.utTolerance (urltest (tun s));
             LogPath := logPath (tun s) |}, with_exec x s)
  end.
End operations.

(** ** What a change of settings does *)

Section facts.
Context `{GoUnicode} {R P : Type} (reg : Registry.Registry_ P) (env : Runtime.Env).
Context (renderer : Registry.Module_ P → option (Registry.Profile P → Schema.RenderOpts → result string Schema.Node)).
Context (save : bool) (saveAutostart : option (string → option string)).
Implicit Types (s : State R P).

Lemma LoadLink_exec raw x r x' : Executor.LoadLink reg env save raw x = (r, x') → inv x →
  inv x' ∧ (r = None → ∃ ps, Registry.ParseAll reg [raw] = Ok ps ∧
    Executor.manual x' = Registry.Raw <$> ps ∧ Executor.subs x' = Executor.subs x ∧ Executor.fwRules x' = Executor.fwRules x ∧
    Executor.autostartMode x' = Executor.autostartMode x ∧
    (Executor.x_loaded x' = true → Runtime.mgr (Executor.x_world x') = Runtime.NewManager ∧
       ∃ qs, Registry.ParseAll reg (Executor.effectiveLinks x') = Ok qs ∧ Executor.links x' = Registry.Raw <$> qs)).
Proof.
  unfold Executor.LoadLink. destruct (Registry.ParseAll reg [raw]) as [ps|e]; [|intros [= <- <-] Hi; by split].
  unfold Executor.mbind, Executor.modify. intros Hr Hi.
  destruct (applyEffective_spec _ _ _ Hr) as (Hi' & Hs & Hn & _); [exact Hi|]. split; [exact Hi'|].
  intros ->. exists ps. unfold sources in Hs. injection Hs as Hm Hsub Hf Ha _. cbn in *. split; [done|]. do 4 (split; [done|]).
  intros Hl. destruct (Hn eq_refl) as (Hre & _ & Hnew). split; [auto|].
  assert (Executor.effectiveLinks x' = Executor.effectiveLinks (Executor.set_keys (Executor.links x) (Registry.Raw <$> ps) x)) as ->
    by (unfold Executor.effectiveLinks; cbn; by rewrite Hm, Hsub).
  destruct Hre as [(_ & Hl' & _)|(qs & Hq & _ & _ & Hk)]; [congruence|by exists qs].
Qed.

(** The settings as they read back. *)
Definition normal (old : string) (st : Settings) : Settings := {|
  SocksPort := SocksPort st; ClashEnabled := ClashEnabled st && negb (String.eqb (ClashAddr st) "");
  ClashAddr := if ClashEnabled st then ClashAddr st else ""; URLTestURL := URLTestURL st; URLTestInterval := URLTestInterval st;
  URLTestTolerance := URLTestTolerance st; SaveProfile := save;
  AutostartMode := if String.eqb (AutostartMode st) "" then old else AutostartMode st |}.

(** A builder that has these settings. *)
Definition built_from (st : Settings) (b : firewallConfigBuilder P) s : Prop :=
  Singbox.Socks (b_ports b) = SocksPort st ∧
  Singbox.HTTP (b_ports b) = (if SocksPort st =? 0 then 0 else SocksPort st + 1)%Z ∧
  b_clashAPI b = clashAPIConfig (ClashAddr (normal "" st)) (clashSecret (tun s)) ∧
  b_urltest b = {| Singbox.utURL := URLTestURL st; Singbox.utInterval := URLTestInterval st; Singbox.utTolerance := URLTestTolerance st |} ∧
  b_firewall b = Executor.fwRules (exec s).

Lemma tunables_set random st s : let s' := tunables random st s in
  exec s' = exec s ∧ built s' = built s ∧ Apps.socks (apps s') = SocksPort st ∧
  Apps.http (apps s') = (if SocksPort st =? 0 then 0 else SocksPort st + 1)%Z ∧
  clashAddr (tun s') = ClashAddr (normal "" st) ∧
  urltest (tun s') = {| Singbox.utURL := URLTestURL st; Singbox.utInterval := URLTestInterval st; Singbox.utTolerance := URLTestTolerance st |}.
Proof.
  unfold tunables, set_clash, SetSocksPort, Apps.SetSocksPort. cbn.
  destruct (ClashEnabled st); cbn; destruct (Z.eqb_spec (SocksPort st) 0); cbn; repeat (split; [done|]); done.
Qed.

Lemma hex_nonempty b : b ≠ "" → hex_encode b ≠ "".
Proof. destruct b as [|c b]; [done|]. intros _. unfold hex_encode. simpl. by destruct (list_ascii_of_string b). Qed.

(** The Clash API is never on without a secret. *)
Lemma secret_set random st s : random ≠ Some "" → clashSecret (tun (tunables random st s)) = "" → ClashEnabled st = false.
Proof.
  intros Hr. unfold tunables, set_clash. cbn. destruct (ClashEnabled st); [|done]. cbn.
  destruct (String.eqb_spec (clashSecret (tun s)) ""); [|done]. destruct random as [b|]; [|done].
  intros He. cbn in He. apply hex_nonempty in He; [done|congruence].
Qed.

(** ... and before the reload nothing of the executor moves but the mode of
    autostart. *)
Lemma autostart_set st s r s' : set_autostart saveAutostart st s = (r, s') → inv (exec s) →
  tun s' = tun s ∧ apps s' = apps s ∧ built s' = built s ∧ inv (exec s') ∧
  Executor.links (exec s') = Executor.links (exec s) ∧ Executor.fwRules (exec s') = Executor.fwRules (exec s) ∧
  Executor.StateLabel (exec s') = Executor.StateLabel (exec s) ∧
  (r = None → Executor.AutostartMode (exec s') = AutostartMode (normal (Executor.AutostartMode (exec s)) st)).
Proof.
  unfold set_autostart, on_exec, normal. cbn [AutostartMode]. destruct (String.eqb_spec (AutostartMode st) "") as [_|Hne].
  { intros [= <- <-]. by repeat (split; [done|]). }
  unfold Executor.SetAutostartMode. destruct (bool_decide_reflect (AutostartMode st ∈ ["off"; "proxy"; "vpn"])) as [Hin|]; cycle 1.
  { intros [= <- <-]. by repeat (split; [done|]). }
  cbn. intros [= <- <-]. cbn. intros Hi. do 7 (split; [done|]).
  intros _. unfold Executor.AutostartMode. cbn [Executor.autostartMode Executor.set_autostart]. by rewrite (proj2 (String.eqb_neq _ _) Hne).
Qed.

(** Whatever its outcome ApplySettings keeps what its calls of the executor
    keep, and does no more to the applications than to set the ports and to
    drop the router. *)
Lemma ApplySettings_keeps (J : Executor.Executor → Prop) random st s :
  (∀ m, pres J (Executor.SetAutostartMode saveAutostart m)) → (∀ raw, pres J (Executor.LoadLink reg env save raw)) →
  (∀ c prev, pres J (Executor.reenable env c prev)) → J (exec s) →
  let s' := snd (ApplySettings reg env save saveAutostart random st s) in
  J (exec s') ∧
  (apps s' = Apps.SetSocksPort (SocksPort st) (apps s) ∨
   apps s' = Apps.resetRouter (Apps.SetSocksPort (SocksPort st) (apps s))).
Proof.
  intros Hset Hload Hre HJ. unfold ApplySettings, set_autostart.
  assert (exec (tunables random st s) = exec s ∧ apps (tunables random st s) = Apps.SetSocksPort (SocksPort st) (apps s)) as [Hx Ha].
  { unfold tunables, set_clash. by destruct (ClashEnabled st). }
  assert (∀ t : State R P, J (exec t) → J (exec (snd (reload reg env save t))) ∧ apps (snd (reload reg env save t)) = apps t) as Hreload.
  { intros t Ht. unfold reload. destruct (CurrentLinks t) as [|k ks]; [done|]. unfold LoadLink.
    pose proof (Hload (Join nl (k :: ks)) _ Ht) as Hl. destruct (Executor.LoadLink _ _ _ _ _) as [[e|] x]; [done|].
    unfold on_exec. cbn [exec apps snd] in *. destruct (Executor.reenable _ _ _ _) as [r y] eqn:E.
    split; [|done]. cbn. change y with (snd (r, y)). rewrite <- E. by apply Hre. }
  destruct (String.eqb (AutostartMode st) "").
  - destruct (Hreload (resetRouter (tunables random st s))) as [? Hap]; [by rewrite <- Hx in HJ|]. split; [done|]. right.
    rewrite Hap. unfold resetRouter, with_apps. cbn [apps with_exec]. by rewrite Ha.
  - unfold on_exec. pose proof (Hset (AutostartMode st) _ HJ) as Hs. rewrite Hx. destruct (Executor.SetAutostartMode _ _ _) as [[e|] x].
    + split; [done|]. by left.
    + destruct (Hreload (resetRouter (with_exec x (tunables random st s)))) as [? Hap]; [done|]. split; [done|]. right.
      etransitivity; [exact Hap|]. unfold resetRouter, with_apps. cbn [apps with_exec]. by rewrite Ha.
Qed.

(** The label of a manager that is not suspended. *)
Lemma label_kept x : inv x → (if String.eqb (Executor.StateLabel x) "vpn" then "vpn"
    else if String.eqb (Executor.StateLabel x) "proxy" || String.eqb (Executor.StateLabel x) "suspended" then "proxy" else "off") = Executor.StateLabel x.
Proof.
  intros [[_ Haw] _]. unfold Executor.StateLabel, Executor.mgr_state, awake in *. destruct (Executor.x_loaded x); [|done].
  by destruct (Runtime.state _).
Qed.

Lemma reload_spec s s' : reload reg env save s = (None, s') → inv (exec s) →
  tun s' = tun s ∧ apps s' = apps s ∧ inv (exec s') ∧ Executor.autostartMode (exec s') = Executor.autostartMode (exec s) ∧
  Executor.fwRules (exec s') = Executor.fwRules (exec s) ∧
  Executor.StateLabel (exec s') = Executor.StateLabel (exec s) ∧
  (CurrentLinks s ≠ [] → Executor.x_loaded (exec s') = true → ∃ qs, built s' = Some (builder qs s') ∧
     Registry.ParseAll reg (Executor.effectiveLinks (exec s')) = Ok qs ∧ Executor.links (exec s') = Registry.Raw <$> qs) ∧
  (CurrentLinks s ≠ [] → ∃ ps, Registry.ParseAll reg [Join nl (CurrentLinks s)] = Ok ps ∧
     Executor.manual (exec s') = Registry.Raw <$> ps ∧ Executor.subs (exec s') = Executor.subs (exec s)).
Proof.
  unfold reload. destruct (CurrentLinks s) as [|l ls] eqn:Hls.
  { intros [= <-] Hi. by repeat (split; [done|]). }
  rewrite <- Hls in *. clear Hls l ls. unfold LoadLink.
  destruct (Executor.LoadLink reg env save _ (exec s)) as [[e|] x] eqn:Hl; [done|]. unfold on_exec. cbn [exec].
  set (on := clash_on _). destruct (Executor.reenable _ _ _ _) as [[e|] x2] eqn:Hr; [done|]. intros [= <-] Hi.
  destruct (LoadLink_exec _ _ _ _ Hl Hi) as (Hi1 & Hn). destruct (Hn eq_refl) as (ps & Hp & Hm & Hsub & Hf & Ha & Hb).
  destruct (reenable_fresh _ _ _ Hr Hi1) as (Hlab & Hc & Hld); [intros; by apply Hb|].
  pose proof (reenable_pres (env := env) (clash := on) (Executor.StateLabel (exec s)) x Hi1) as Hi2. rewrite Hr in Hi2.
  unfold config in Hc. injection Hc as Hc1 Hc2 Hc3 Hc4 Hc5 _ _. cbn [tun apps exec with_exec built].
  do 2 (split; [done|]). split; [exact Hi2|]. split; [congruence|]. split; [congruence|]. split; [rewrite Hlab; by apply label_kept|].
  split; [|intros _; exists ps; by rewrite Hc2, Hc3].
  intros _ Hlo. rewrite Hld in Hlo. destruct (Hb Hlo) as (_ & qs & Hq & Hk). exists qs. rewrite Hc1.
  assert (Executor.effectiveLinks x2 = Executor.effectiveLinks x) as -> by (unfold Executor.effectiveLinks; by rewrite Hc2, Hc3).
  rewrite Hq. unfold builder. cbn. by rewrite Hc4.
Qed.

(** *** The settings reach the core *)

(** C13: When ApplySettings succeeds the settings read back are [normal]: the
    ports, the probe and the mode of autostart as given (the old mode when none
    is), the Clash API on exactly when it is asked for with an address, and
    for SaveProfile, which nothing applies, whether this process saves
    profiles.  The mode that ran before runs, the firewall's rules are what
    they were, the Clash API is never on without a secret, and when keys are
    loaded the configuration of the new manager listens on the new ports,
    offers the Clash API at the new address under that secret or not at all,
    routes by exactly the firewall's rules, in order, between the sniffing rule
    and the two built-in ones, has the outbound that blocks when a rule does,
    and with several servers probes them as the new settings say. *)
Theorem settings_take_effect (random : option string) (st : Settings) (s s' : State R P) :
  inv (exec s) → random ≠ Some "" → ApplySettings reg env save saveAutostart random st s = (None, s') →
  CurrentSettings save s' = normal (Executor.AutostartMode (exec s)) st ∧
  Executor.StateLabel (exec s') = Executor.StateLabel (exec s) ∧ inv (exec s') ∧ Apps.router (apps s') = None ∧
  Executor.fwRules (exec s') = Executor.fwRules (exec s) ∧
  (clash_on s' = true → clashSecret (tun s') ≠ "") ∧
  (CurrentLinks s ≠ [] → Executor.x_loaded (exec s') = true → ∃ b,
     built s' = Some b ∧ built_from st b s' ∧ CurrentLinks s' = Registry.Raw <$> b_profiles b ∧
     ∀ phys cfg, ProxyConfig reg renderer b phys = Ok cfg →
       let ports := Singbox.Ports_withDefaults (b_ports b) in
       Schema.Inbounds cfg = [Schema.SocksInbound "socks-in" "127.0.0.1" (Singbox.Socks ports);
                              Schema.HTTPInbound "http-in" "127.0.0.1" (Singbox.HTTP ports)] ∧
       Schema.cExperimental cfg = Some {| Schema.CacheFileEnabled := false; Schema.cClashAPI := b_clashAPI b |} ∧
       let rules := omap Singbox.firewallRouteRule (Executor.fwRules (exec s)) in
       Schema.Rules (Schema.cRoute cfg) = Singbox.rule_sniff :: rules ++ [Singbox.rule_private; Singbox.rule_ru] ∧
       (Singbox.blockTag ∈ Schema.Outbound <$> rules → Schema.BlockOutbound Singbox.blockTag ∈ Schema.Outbounds cfg) ∧
       ((1 < length (b_profiles b))%nat →
          Schema.URLTestOutbound Singbox.autoTag (Singbox.server_tags (b_profiles b))
            (if String.eqb (URLTestURL st) "" then Singbox.defaultURLTestURL else URLTestURL st)
            (if String.eqb (URLTestInterval st) "" then Singbox.defaultURLTestInterval else URLTestInterval st)
            (if URLTestTolerance st =? 0 then Singbox.defaultURLTestTolerance else URLTestTolerance st)%Z ∈ Schema.Outbounds cfg)).
Proof.
  unfold ApplySettings. intros Hi Hr. destruct (tunables_set random st s) as (He & Hbu & Hso & Hht & Hca & Hut).
  pose proof (secret_set random st s Hr) as Hsec. set (s1 := tunables random st s) in *.
  destruct (set_autostart saveAutostart st s1) as [[e|] s2] eqn:Ha; [done|]. intros Hre.
  destruct (autostart_set _ _ _ _ Ha) as (Ht2 & Hap2 & _ & Hi2 & Hl2 & Hf2 & Hlab2 & Hm2); [by rewrite He|].
  rewrite He in *. specialize (Hm2 eq_refl).
  destruct (reload_spec (resetRouter s2) s' Hre Hi2) as (Ht & Hap & Hi' & Hau & Hfw & Hlab & Hb & _). cbn in Ht, Hap, Hau, Hfw, Hlab.
  assert (Apps.socks (apps s') = SocksPort st ∧ Apps.http (apps s') = (if SocksPort st =? 0 then 0 else SocksPort st + 1)%Z) as [Hs' Hh']
    by (rewrite Hap; cbn; rewrite Hap2; by split).
  rewrite Ht2 in Ht. split.
  { unfold CurrentSettings, clash_on, normal in *. rewrite Hs', Ht, Hca, Hut. unfold Executor.AutostartMode in *. rewrite Hau, Hm2.
    cbn. f_equal. by destruct (ClashEnabled st). }
  split; [congruence|]. split; [exact Hi'|]. split; [by rewrite Hap|]. split; [congruence|]. split.
  { unfold clash_on. rewrite Ht, Hca. intros Hon Hz. specialize (Hsec Hz). cbn in Hon. by rewrite Hsec in Hon. }
  intros Hls Hlo. destruct Hb as (qs & Hbuilt & _ & Hk); [unfold CurrentLinks in *; cbn; congruence|exact Hlo|].
  exists (builder qs s'). split; [exact Hbuilt|]. split.
  { unfold built_from, builder. cbn. rewrite Hs', Hh', Ht, Hca, Hut. by repeat (split; [done|]). }
  split; [exact Hk|]. intros phys cfg. unfold ProxyConfig.
  destruct (Singbox.GenerateProxyConfigOpts _ _ _ _) as [c|] eqn:Hg; [|done]. intros [= <-]. unfold Singbox.GenerateProxyConfigOpts in Hg.
  destruct (b_profiles (builder qs s')) as [|q0 q]; [done|]. destruct (Singbox.render_all _ _ _ _ _ _); [|done].
  cbn [rbind] in Hg. pose proof (Singbox.firewall_outbounds (b_firewall (builder qs s'))) as Hfo.
  unfold Singbox.firewallRouteRules in Hg, Hfo. destruct Hfo as (Hblock & _).
  assert (Hrules : Executor.fwRules (exec s') = Executor.fwRules (exec s)) by congruence.
  injection Hg as <-. cbn [Singbox.applyLog Schema.Inbounds Schema.cExperimental Schema.Outbounds Schema.cRoute Schema.Rules
    Singbox.pFirewall Singbox.URLTest b_firewall b_urltest builder] in *.
  rewrite Hrules in *. split_and!; try done.
  - intros Hin. match goal with |- _ ∈ Schema.Outbounds (Singbox.applyLog _ _ ?c) => change (Schema.BlockOutbound Singbox.blockTag ∈ Schema.Outbounds c) end.
    cbn [Schema.Outbounds]. rewrite !elem_of_app, elem_of_cons. do 3 right. destruct Hblock as [[_ Hno]|[-> _]]; [done|by left].
  - intros Hm. match goal with |- ?n ∈ Schema.Outbounds (Singbox.applyLog _ _ ?c) => change (n ∈ Schema.Outbounds c) end.
    cbn [Schema.Outbounds]. apply Nat.ltb_lt in Hm. cbn [length] in Hm. rewrite Hm, !elem_of_app. right. left. rewrite Ht, Hut. by left.
Qed.

(** The reload gives LoadLink all current keys, those of the subscriptions
    included, and LoadLink takes what it is given as the manual keys. *)
Lemma subscribed_keys_become_manual (random : option string) (st : Settings) (s s' : State R P) :
  inv (exec s) → ApplySettings reg env save saveAutostart random st s = (None, s') → CurrentLinks s ≠ [] →
  ∃ ps, Registry.ParseAll reg [Join nl (CurrentLinks s)] = Ok ps ∧ Executor.manual (exec s') = Registry.Raw <$> ps.
Proof.
  unfold ApplySettings. intros Hi. destruct (tunables_set random st s) as (He & _). set (s1 := tunables random st s) in *.
  destruct (set_autostart saveAutostart st s1) as [[e|] s2] eqn:Ha; [done|]. intros Hre Hls.
  destruct (autostart_set _ _ _ _ Ha) as (_ & _ & _ & Hi2 & Hl2 & _); [by rewrite He|].
  destruct (reload_spec (resetRouter s2) s' Hre Hi2) as (_ & _ & _ & _ & _ & _ & _ & Hm).
  assert (CurrentLinks (resetRouter s2) = CurrentLinks s) as Hk by (unfold CurrentLinks; cbn; congruence).
  destruct Hm as (ps & Hp & Hm & _); [congruence|]. exists ps. split; [congruence|done].
Qed.

(** Settings with a mode of autostart the executor does not know are refused
    after the ports and the Clash API have taken the new values; nothing is
    reloaded, so from then on the settings shown are not those that run. *)
Lemma refused_settings_stay (random : option string) (st : Settings) (s s' : State R P) (e : error) :
  AutostartMode st ∉ [""; "off"; "proxy"; "vpn"] →
  ApplySettings reg env save saveAutostart random st s = (Some e, s') →
  e = ErrExec (Executor.ErrAutostartMode (AutostartMode st)) ∧ Apps.socks (apps s') = SocksPort st ∧
  clashAddr (tun s') = ClashAddr (normal "" st) ∧ exec s' = exec s ∧ built s' = built s.
Proof.
  unfold ApplySettings. intros Hm. rewrite elem_of_cons in Hm. destruct (tunables_set random st s) as (He & Hbu & Hso & _ & Hca & _).
  set (s1 := tunables random st s) in *. unfold set_autostart.
  destruct (String.eqb_spec (AutostartMode st) ""); [tauto|]. unfold on_exec, Executor.SetAutostartMode.
  rewrite bool_decide_eq_false_2 by tauto. cbn. intros [= <- <-]. cbn. by repeat (split; [done|]).
Qed.
End facts.

(** *** A run *)

#[local] Existing Instance ascii_only.

Definition ex_fetch (now : Z) (u : string) : result string (list string * Executor.Meta) :=
  Ok (["hy2://b"], {| Sub.Title := "p"; Sub.UpdateInterval := 0; Sub.Upload := 0; Sub.Download := 0; Sub.Total := 0; Sub.Expire := None |}).

(** A manual key and a subscription, with the proxy running. *)
Definition ex_exec : Executor.Executor :=
  Executor.serve_all Registry.rw_registry (Runtime.good_env "en0") true true true false (Some ex_fetch) None None
    [Executor.ReqLoadLink "hy2://a"; Executor.ReqAddSubscription 1 "https://panel.example/s"; Executor.ReqEnableProxy] Executor.NewExecutor.

Definition ex_state : State unit string := {|
  tun := {| clashAddr := ""; clashSecret := ""; urltest := {| Singbox.utURL := ""; Singbox.utInterval := ""; Singbox.utTolerance := 0 |};
            logPath := ""; logLevel := "" |};
  exec := ex_exec;
  apps := {| Apps.running := true; Apps.socks := 0; Apps.http := 0; Apps.launchUser := None; Apps.store := AppStore.newAppStore "";
             Apps.router := Some tt; Apps.ctrl := None; Apps.appCache := None |};
  built := None |}.

Definition ex_settings : Settings := {|
  SocksPort := 7000; ClashEnabled := true; ClashAddr := "127.0.0.1:9090"; URLTestURL := ""; URLTestInterval := "1m";
  URLTestTolerance := 30; SaveProfile := true; AutostartMode := "proxy" |}.

Definition ex_applied : option error * State unit string :=
  ApplySettings Registry.rw_registry (Runtime.good_env "en0") true None (Some "0123456789abcdef") ex_settings ex_state.

Lemma settings_take_effect_witness :
  CurrentSettings true (snd ex_applied) = ex_settings ∧ Executor.StateLabel (exec (snd ex_applied)) = "proxy" ∧
  clashSecret (tun (snd ex_applied)) ≠ "" ∧
  ∃ b, built (snd ex_applied) = Some b ∧ Singbox.Socks (b_ports b) = 7000%Z.
Proof.
  assert (ex_applied = (None, snd ex_applied)) as Ha by (vm_compute; reflexivity).
  destruct (settings_take_effect Registry.rw_registry (Runtime.good_env "en0") (λ _, None) true None
    (Some "0123456789abcdef") ex_settings ex_state (snd ex_applied)) as (Hc & Hl & _ & _ & _ & Hs & Hb);
    [apply reachable_inv|discriminate|exact Ha|].
  split; [rewrite Hc; vm_compute; reflexivity|]. split; [rewrite Hl; vm_compute; reflexivity|].
  split; [apply Hs; vm_compute; reflexivity|].
  destruct Hb as (b & Hb & (Hp & _) & _); [vm_compute; discriminate|vm_compute; reflexivity|].
  exists b. split; [exact Hb|]. rewrite Hp. reflexivity.
Defined.

(** A change of the port turns the subscription's server into a manual key, and
    the saved profile holds it. *)
Example subscription_is_swallowed :
  Executor.manual (exec ex_state) = ["hy2://a"] ∧ Executor.links (exec ex_state) = ["hy2://a"; "hy2://b"] ∧
  Executor.manual (exec (snd ex_applied)) = ["hy2://a"; "hy2://b"] ∧
  Executor.subscriptionOwning (exec ex_state) "hy2://b" = Some "p" ∧
  Executor.subscriptionOwning (exec (snd ex_applied)) "hy2://b" = None.
Proof. by vm_compute. Qed.

End Settings.

(** ** The failover group *)

Module Selection.
Import Settings.

Definition proxyGroupTag : string := "proxy".
Definition autoGroupTag : string := "auto".

Record ProxyMember := { Tag : string; Index : Z; Name : string; MDelay : Z; MError : string }.

(** [Members] is [None] when it is nil. *)
Record ProxyGroup := { Available : bool; Auto : bool; Selected : string; Members : option (list ProxyMember) }.

Definition no_group : ProxyGroup := {| Available := false; Auto := false; Selected := ""; Members := None |}.

Definition proxyServerTag (i : nat) : string := proxyGroupTag +:+ "-" +:+ Itoa (Z.of_nat i).

Definition proxyTagIndex (tag : string) : option Z :=
  match CutPrefix (proxyGroupTag +:+ "-") tag with
  | Some rest => match Atoi rest with Some n => if (n <? 0)%Z then None else Some n | None => None end
  | None => None
  end.

(** [MarshalJSON]: a member list is an array, also when there is none. *)
Definition enc_member (m : ProxyMember) : Json.json := Json.JObj ([
  ("tag", Data.enc_string (Tag m)); ("index", Data.enc_int (Index m)); ("name", Data.enc_string (Name m)); ("delay", Data.enc_int (MDelay m))] ++
  (if String.eqb (MError m) "" then [] else [("error", Data.enc_string (MError m))])).
Definition enc_group (g : ProxyGroup) : Json.json := Json.JObj [
  ("available", Json.JBool (Available g)); ("auto", Json.JBool (Auto g)); ("selected", Data.enc_string (Selected g));
  ("members", Json.JArr (enc_member <$> match Members g with Some ms => ms | None => [] end))].

Section operations.
Context `{GoUnicode} `{Store.GoTime} {R P : Type} (reg : Registry.Registry_ P).
Implicit Types (s : State R P) (do : ClashApi.Exchange).

Definition client s : ClashApi.Client := ClashApi.NewClient (clashAddr (tun s)) (clashSecret (tun s)).

Definition TrafficSnapshot do s : result error (Z * Z) :=
  if clash_on s then match ClashApi.Traffic do (client s) with
                     | (up, down, None) => Ok (up, down) | (_, _, Some e) => Err (ErrClash e) end
  else Ok (0, 0)%Z.

(** [enrich] is the inventory of owners. *)
Definition Connections do (enrich : list ClashApi.Connection → list ClashApi.Connection) s : ClashApi.Payload :=
  ClashApi.Connections do enrich (if clash_on s then Some (client s) else None)
    (negb (String.eqb (Executor.StateLabel (exec s)) "off")) (clash_on s).

Definition CloseConnection do (id : string) s : option error :=
  if clash_on s then ErrClash <$> ClashApi.CloseConnection do (client s) id else Some ErrClashDisabled.

Definition memberLabel (links : list string) (index : Z) : string :=
  match Executor.key_at index links with
  | None => ""
  | Some l => match Registry.Parse reg l with Ok p => Registry.Label p | Err _ => "" end
  end.

Definition member (links : list string) (proxies : gmap string ClashApi.ProxyState) (tag : string) : ProxyMember :=
  let idx := match proxyTagIndex tag with Some i => i | None => 0%Z end in
  let name := memberLabel links idx in
  {| Tag := tag; Index := idx; Name := if String.eqb name "" then tag else name;
     MDelay := ClashApi.LastDelay (ClashApi.state_of proxies tag); MError := ClashApi.LastError (ClashApi.state_of proxies tag) |}.

(** The group of the answer of the Clash API. *)
Definition group_of (links : list string) (proxies : gmap string ClashApi.ProxyState) : ProxyGroup :=
  match proxies !! proxyGroupTag with
  | None => no_group
  | Some group =>
      if bool_decide (ClashApi.All group = []) then no_group else
      let now := ClashApi.Now group in
      let auto := String.eqb now autoGroupTag || String.eqb now "" in
      let now_of_auto := ClashApi.Now (ClashApi.state_of proxies autoGroupTag) in
      {| Available := true; Auto := auto;
         Selected := if auto && negb (String.eqb now_of_auto "") then now_of_auto else now;
         Members := Some (member links proxies <$> filter (λ t, t ≠ autoGroupTag) (ClashApi.All group)) |}
  end.

Definition ProxyGroup_ do s : result error ProxyGroup :=
  let links := CurrentLinks s in
  if (length links <? 2)%nat then Ok no_group
  else if negb (clash_on s) then Err ErrClashDisabled
  else match ClashApi.Proxies do (client s) with
       | Err e => Err (ErrClash e)
       | Ok proxies => Ok (group_of links proxies)
       end.

Definition valid_tags (links : list string) : list string := autoGroupTag :: (proxyServerTag <$> seq 0 (length links)).

Definition SelectProxy do (tag0 : string) s : option error :=
  let links := CurrentLinks s in
  if (length links <? 2)%nat then Some ErrOneServer else
  let tag := TrimSpace tag0 in
  if negb (bool_decide (tag ∈ valid_tags links)) then Some (ErrUnknownProxy tag (valid_tags links))
  else if negb (clash_on s) then Some ErrClashDisabled
  else ErrClash <$> ClashApi.SelectOutbound do (client s) proxyGroupTag tag.
End operations.

(** *** Tags *)

Lemma server_tag i : proxyServerTag i = Singbox.proxyServerTag i.
Proof. done. Qed.

Lemma tag_index (i : nat) : (Z.of_nat i < 2 ^ 63)%Z → proxyTagIndex (proxyServerTag i) = Some (Z.of_nat i).
Proof.
  intros Hi. unfold proxyTagIndex, proxyServerTag. 
  assert (CutPrefix (proxyGroupTag +:+ "-") (proxyGroupTag +:+ "-" +:+ Itoa (Z.of_nat i)) = Some (Itoa (Z.of_nat i))) as ->
    by (by apply CutPrefix_Some).
  rewrite Atoi_Itoa.
  - by rewrite (proj2 (Z.ltb_ge _ _)) by lia.
  - unfold in_int64, int64_min, int64_max. rewrite (proj2 (Z.leb_le _ _)), (proj2 (Z.leb_le _ _)) by lia. by eexists.
Qed.

Lemma tag_not_auto i : proxyServerTag i ≠ autoGroupTag.
Proof. pose proof (Singbox.proxyServerTag_fresh i) as Hf. rewrite server_tag. intros He. apply Hf. rewrite He. left. Qed.

Lemma tags_not_auto (l : list nat) : filter (λ t, t ≠ autoGroupTag) (proxyServerTag <$> l) = proxyServerTag <$> l.
Proof. induction l as [|i l IH]; [done|]. rewrite fmap_cons, filter_cons, decide_True by apply tag_not_auto. by rewrite IH. Qed.

(** *** The group of a configuration *)

(** The members of the selectors with the tag of the group. *)
Definition selectors (cfg : Schema.Config) : list (list string) :=
  omap (λ n, match n with Schema.SelectorOutbound t ms _ => if String.eqb t proxyGroupTag then Some ms else None | _ => None end) (Schema.Outbounds cfg).

Lemma no_selectors (ns : list Schema.Node) : Forall (λ n, Schema.node_refs n = []) ns →
  omap (λ n, match n with Schema.SelectorOutbound t ms _ => if String.eqb t proxyGroupTag then Some ms else None | _ => None end) ns = [].
Proof. induction 1 as [|n ns Hn _ IH]; [done|]. by destruct n. Qed.

Lemma generated_selectors {P : Type} (renderer : Registry.Module_ P → option (Registry.Profile P → Schema.RenderOpts → result string Schema.Node))
    `{!Singbox.RendererLaws renderer} (reg : Registry.Registry_ P) (ps : list (Registry.Profile P)) opts cfg :
  (1 < length ps)%nat → Singbox.GenerateProxyConfigOpts renderer reg ps opts = Ok cfg →
  selectors cfg = [autoGroupTag :: (proxyServerTag <$> seq 0 (length ps))].
Proof.
  intros Hps. unfold Singbox.GenerateProxyConfigOpts. destruct ps as [|p0 ps0] eqn:Hq; [done|]. rewrite <- Hq in *. clear Hq p0 ps0.
  rewrite (proj2 (Nat.ltb_lt _ _)) by done. intros (nks & Hr & Hc)%rbind_Ok_inv.
  destruct (Singbox.firewallRouteRules _) as [fw rrs] eqn:Hf. injection Hc as <-. unfold selectors. cbn [Schema.Outbounds].
  apply Singbox.render_all_spec in Hr as [_ Hn]; [|done]. rewrite !omap_app.
  rewrite (no_selectors (Singbox.placed_outbounds nks)).
  2:{ apply Forall_forall. intros n Hin. rewrite Forall_forall in Hn. unfold Singbox.placed_outbounds in Hin.
      apply list_elem_of_fmap in Hin as (nk & -> & [_ Hin]%list_elem_of_filter). by apply Hn. }
  cbn [omap list_omap app]. rewrite String.eqb_refl. f_equal. apply no_selectors.
  unfold Singbox.firewallRouteRules in Hf. injection Hf as <- _. destruct (existsb _ _); by repeat constructor.
Qed.

Section facts.
Context `{GoUnicode} `{Store.GoTime} {R P : Type} (reg : Registry.Registry_ P).
Context (renderer : Registry.Module_ P → option (Registry.Profile P → Schema.RenderOpts → result string Schema.Node)).
Implicit Types (s : State R P) (do : ClashApi.Exchange).

(** What the Clash API of a core with this configuration answers: the members
    of the selector, one of them as its choice, and for the automatic group
    the server it has chosen, or nothing before its first probe. *)
Definition reports (cfg : Schema.Config) (proxies : gmap string ClashApi.ProxyState) : Prop :=
  ∃ group ms, selectors cfg = [ms] ∧
    proxies !! proxyGroupTag = Some group ∧ ClashApi.All group = ms ∧ ClashApi.Now group ∈ ms ∧
    let chosen := ClashApi.Now (ClashApi.state_of proxies autoGroupTag) in
    chosen = "" ∨ (chosen ∈ ms ∧ chosen ≠ autoGroupTag).

Definition shown_name (l tag : string) : string :=
  match Registry.Parse reg l with Ok p => if String.eqb (Registry.Label p) "" then tag else Registry.Label p | Err _ => tag end.

(** C14: With at least two servers loaded and the Clash API on, the choice of a
    server agrees with the configuration generated for these keys: SelectProxy
    sends exactly the members of the generated selector to the Clash API,
    spaces around them trimmed, and refuses every other tag without a request;
    and when the API's answer is about the groups of that configuration
    ([reports]), ProxyGroup lists every server once, in the order of the keys,
    under its index and the label of its key (or its tag), is automatic exactly
    when the selector's choice is, and names as selected the server chosen by
    hand, or else the one the automatic group has chosen, or else, which is
    before its first probe, the tag of that group. *)
Theorem selection_follows_the_configuration (s : State R P) (ps : list (Registry.Profile P)) opts cfg :
  Singbox.RendererLaws renderer → Singbox.GenerateProxyConfigOpts renderer reg ps opts = Ok cfg →
  CurrentLinks s = Registry.Raw <$> ps → (1 < length ps)%nat → (Z.of_nat (length ps) < 2 ^ 63)%Z → clash_on s = true →
  ∃ ms, selectors cfg = [ms] ∧
  (∀ do tag, SelectProxy do tag s =
     if bool_decide (TrimSpace tag ∈ ms) then ErrClash <$> ClashApi.SelectOutbound do (client s) "proxy" (TrimSpace tag)
     else Some (ErrUnknownProxy (TrimSpace tag) ms)) ∧
  (∀ do proxies, ClashApi.Proxies do (client s) = Ok proxies → reports cfg proxies → ∃ g members,
     ProxyGroup_ reg do s = Ok g ∧ Available g = true ∧ Members g = Some members ∧
     Tag <$> members = filter (λ t, t ≠ autoGroupTag) ms ∧ length members = length ps ∧
     (∀ i m p, members !! i = Some m → ps !! i = Some p → Index m = Z.of_nat i ∧ Name m = shown_name (Registry.Raw p) (Tag m)) ∧
     let now := ClashApi.Now (ClashApi.state_of proxies "proxy") in
     let chosen := ClashApi.Now (ClashApi.state_of proxies "auto") in
     (Auto g = true ↔ now = "auto") ∧
     Selected g = (if String.eqb now "auto" then (if String.eqb chosen "" then "auto" else chosen) else now) ∧
     (Selected g ∈ Tag <$> members ∨ (Selected g = "auto" ∧ now = "auto" ∧ chosen = ""))).
Proof.
  intros Hlaws Hgen Hls Hlen Hmax Hon. pose proof (generated_selectors renderer reg ps opts cfg Hlen Hgen) as Hsel.
  assert (length (CurrentLinks s) = length ps) as Hll by (by rewrite Hls, length_fmap).
  assert ((length ps <? 2)%nat = false) as H2 by (apply Nat.ltb_ge; lia).
  eexists. split; [exact Hsel|]. split.
  { intros do tag. unfold SelectProxy, valid_tags. rewrite Hll, H2, Hon. by destruct (bool_decide _). }
  intros do proxies Hp (group & ms & Hs & Hg & Hall & Hnow & Hcho). cbv zeta in Hcho. rewrite Hs in Hsel. injection Hsel as ->.
  unfold ProxyGroup_. rewrite Hll, H2, Hon, Hp. cbn [negb].
  unfold group_of. rewrite Hg, Hall. rewrite bool_decide_eq_false_2 by done. eexists _, _. split; [reflexivity|]. cbn [Available Members Auto Selected].
  split; [done|]. split; [reflexivity|]. rewrite filter_cons, decide_False, tags_not_auto by tauto.
  assert (∀ l, Tag <$> (member reg (CurrentLinks s) proxies <$> l) = l) as Htags by (intros l; rewrite <- list_fmap_compose; apply list_fmap_id).
  rewrite Htags. split; [done|]. split; [by rewrite !length_fmap, length_seq|]. split.
  - intros i m p Hm Hpi. apply list_lookup_fmap_Some in Hm as (t & -> & Ht). apply list_lookup_fmap_Some in Ht as (j & -> & Hj).
    apply lookup_seq in Hj as [-> Hj]. rewrite Nat.add_0_l in *. unfold member. cbn [Index Name Tag]. rewrite tag_index by lia. split; [done|].
    unfold memberLabel, Executor.key_at. rewrite (proj2 (Z.ltb_ge _ _)), Nat2Z.id by lia.
    rewrite Hls, list_lookup_fmap, Hpi. cbn. unfold shown_name. by destruct (Registry.Parse reg (Registry.Raw p)).
  - assert (ClashApi.state_of proxies "proxy" = group) as -> by (unfold ClashApi.state_of; change (proxies !! "proxy") with (proxies !! proxyGroupTag); by rewrite Hg).
    assert (Hnz : String.eqb (ClashApi.Now group) "" = false).
    { apply String.eqb_neq. intros He. rewrite He, elem_of_cons in Hnow. destruct Hnow as [|Hnow]; [done|]. by apply list_elem_of_fmap in Hnow as (j & ? & _). }
    rewrite Hnz, orb_false_r. change autoGroupTag with "auto" in *. split; [apply String.eqb_eq|].
    destruct (String.eqb_spec (ClashApi.Now group) "auto") as [E|E]; cbn [andb].
    + destruct (String.eqb_spec (ClashApi.Now (ClashApi.state_of proxies "auto")) "") as [E0|E0]; cbn [negb]; rewrite ?E; split; try done.
      * by right.
      * left. destruct Hcho as [|[Hin Hne]]; [done|]. rewrite elem_of_cons in Hin. by destruct Hin.
    + split; [done|]. left. rewrite elem_of_cons in Hnow. by destruct Hnow.
Qed.
End facts.

(** *** A run *)

#[local] Existing Instance ascii_only.
#[local] Instance no_time : Store.GoTime := {| Store.time_text := λ _, None; Store.parse_time := λ _, None |}.

Definition ex_links : list string := ["hy2://a"; "hy2://b"].
Definition ex_profiles : list (Registry.Profile string) :=
  match Registry.ParseAll Registry.rw_registry ex_links with Ok ps => ps | Err _ => [] end.
Definition ex_config : Schema.Config :=
  Singbox.sw_get (Singbox.GenerateProxyConfigOpts Singbox.sw_renderer Registry.rw_registry ex_profiles Singbox.sw_opts).
Definition ex_two : State unit string :=
  with_exec (Executor.set_keys ex_links ex_links (exec ex_state)) (SetClashAPI "127.0.0.1:9090" "s" ex_state).

(** A Clash API whose selector is automatic, at the second server. *)
Definition ex_group (now : string) (all : list string) : Json.json := Json.JObj [
  ("now", Data.enc_string now); ("all", Json.JArr (Data.enc_string <$> all))].
Definition ex_answer : string := Data.Marshal (Json.JObj [("proxies", Json.JObj [
  ("proxy", ex_group "auto" ["auto"; "proxy-0"; "proxy-1"]); ("auto", ex_group "proxy-1" ["proxy-0"; "proxy-1"])])]).
Definition ex_api : ClashApi.Exchange := λ r,
  if String.eqb (ClashApi.Method r) "GET" then Ok (200%Z, ex_answer) else Ok (204%Z, "").
Definition ex_proxies : gmap string ClashApi.ProxyState :=
  match ClashApi.Proxies ex_api (client ex_two) with Ok m => m | Err _ => ∅ end.

Lemma selection_follows_the_configuration_witness :
  SelectProxy ex_api " proxy-1 " ex_two = None ∧
  SelectProxy ex_api "proxy-2" ex_two = Some (ErrUnknownProxy "proxy-2" ["auto"; "proxy-0"; "proxy-1"]) ∧
  ∃ g members, ProxyGroup_ Registry.rw_registry ex_api ex_two = Ok g ∧ Members g = Some members ∧
    Tag <$> members = ["proxy-0"; "proxy-1"] ∧ Auto g = true.
Proof.
  destruct (selection_follows_the_configuration Registry.rw_registry Singbox.sw_renderer ex_two ex_profiles Singbox.sw_opts ex_config)
    as (ms & Hs & Hsel & Hgrp); [exact Singbox.sw_laws|vm_compute; reflexivity|vm_compute; reflexivity|apply Nat.ltb_lt; vm_compute; reflexivity|
      apply Z.ltb_lt; vm_compute; reflexivity|vm_compute; reflexivity|].
  assert (ms = ["auto"; "proxy-0"; "proxy-1"]) as -> by (vm_compute in Hs; injection Hs as <-; reflexivity).
  split; [rewrite Hsel; vm_compute; reflexivity|]. split; [rewrite Hsel; vm_compute; reflexivity|].
  destruct (Hgrp ex_api ex_proxies) as (g & members & Hg & _ & Hm & Ht & _ & _ & Ha & _); [vm_compute; reflexivity| |].
  - eexists _, _. split; [exact Hs|]. split; [vm_compute; reflexivity|]. split; [reflexivity|].
    split; [left|]. right.
    assert (ClashApi.Now (ClashApi.state_of ex_proxies autoGroupTag) = "proxy-1") as -> by (vm_compute; reflexivity).
    split; [right; right; left|discriminate].
  - exists g, members. split; [exact Hg|]. split; [exact Hm|]. split; [rewrite Ht; vm_compute; reflexivity|].
    apply Ha. vm_compute. reflexivity.
Defined.

End Selection.
