(* ===== verification/Control.v ===== *)
(** * Control: the control socket ([internal/control])

    A daemon serves commands of one line over a Unix socket; clients send a
    command and read one reply.  This file has both ends of a request, the
    deadlines, the advertisement of a running instance, and the questions a
    starting daemon asks of the socket's pathname before it removes it.  A
    handler is a function of its argument and of the daemon's state [D]; the
    sockets and their files are the interface [Sockets]. *)

From S2P Require Import Prelude GoStr GoUtf8 GoUrl GoUrlFacts GoPath Registry Schema Link GoJson GoJsonData Store.
Import Json Data Store.

Local Open Scope string_scope.
Local Open Scope list_scope.

Module Control.

(** [strings.ToUpper]: as in GoStr for lower case, text outside ASCII is a
    parameter. *)
Class GoUpper := { upper_unicode : string → string }.
Definition upper_byte (c : ascii) : ascii := if in_range 97 122 c then ascii_of_N (byte_val c - 32) else c.
Definition ToUpper `{GoUpper} (s : string) : string :=
  if str_forallb is_ascii_byte s then str_map upper_byte s else upper_unicode s.

(** ** Deadlines, in nanoseconds *)

Definition second : Z := 1000000000.
Definition FastDeadline : Z := 15 * second.
Definition SlowDeadline : Z := 180 * second.

Definition slowCommands : list string := [
  "SUB-LIST"; "SUB-ADD"; "SUB-REMOVE"; "SUB-UPDATE"; "SYSPROXY-STATUS"; "SYSPROXY-SET"; "SYSPROXY-CONFIG"; "SYSPROXY-IMPORT"].

Definition DeadlineFor `{GoUpper} (cmd : string) : Z :=
  if bool_decide (ToUpper (TrimSpace cmd) ∈ slowCommands) then SlowDeadline else FastDeadline.

(** ** The server *)

Section server.
Context `{GoUpper} {D : Type}.

(** A handler: its reply, or the text of its error. *)
Definition HandlerFunc : Type := string → D → result string string * D.
Definition Server : Type := gmap string HandlerFunc.

Definition Handle (cmd : string) (fn : HandlerFunc) (srv : Server) : Server := <[ToUpper cmd := fn]> srv.

Definition crlf (c : ascii) : bool := Ascii.eqb c CR || Ascii.eqb c LF.

(** The command and the argument of what a client has written. *)
Definition parse_line (input : string) : string * string :=
  let line := TrimRightBytes crlf (before_byte (λ c, Ascii.eqb c LF) input) in
  let '(cmd, arg) := match Cut line " " with Some p => p | None => (line, "") end in
  (ToUpper (TrimSpace cmd), arg).

(** [serve]: what is written back. *)
Definition serve (srv : Server) (input : string) (d : D) : string * D :=
  let '(cmd, arg) := parse_line input in
  match srv !! cmd with
  | None => ("ERR unknown command" +:+ nl, d)
  | Some h =>
      match h arg d with
      | (Err e, d) => ("ERR " +:+ e +:+ nl, d)
      | (Ok reply, d) => (reply +:+ nl, d)
      end
  end.

(** ** The client *)

(** [Request], over a connection that holds; what a broken one gives is not
    modelled. *)
Definition request_line (cmd arg : string) : string := cmd +:+ (if String.eqb arg "" then "" else " " +:+ arg) +:+ nl.

Definition read_reply (data : string) : result string string :=
  let reply := TrimRightBytes crlf data in
  match CutPrefix "ERR " reply with Some e => Err e | None => Ok reply end.

Definition Request (srv : Server) (cmd arg : string) (d : D) : result string string * D :=
  let '(data, d) := serve srv (request_line cmd arg) d in (read_reply data, d).

Definition Stop (srv : Server) (d : D) : option string * D :=
  match Request srv "STOP" "" d with
  | (Err e, d) => (Some e, d)
  | (Ok resp, d) => (if String.eqb resp "OK" then None else Some ("unexpected control reply: " +:+ resp), d)
  end.
End server.
Arguments HandlerFunc : clear implicits.
Arguments Server : clear implicits.

(** *** Payloads *)

Record Status := {
  st_PID : Z; st_Mode : string; st_StartedAt : string; CiscoActive : bool; ProxyBypass : bool; PhysIface : string;
  NetextSupported : bool; NetextAvailable : bool }.
Definition no_status : Status := {|
  st_PID := 0; st_Mode := ""; st_StartedAt := ""; CiscoActive := false; ProxyBypass := false; PhysIface := "";
  NetextSupported := false; NetextAvailable := false |}.

Definition omit_false (name : string) (b : bool) : list (string * json) := if b then [(name, JBool true)] else [].

Definition enc_status (s : Status) : json := JObj (
  [("pid", enc_int (st_PID s)); ("mode", enc_string (st_Mode s)); ("started_at", enc_string (st_StartedAt s))] ++
  omit_false "cisco_active" (CiscoActive s) ++ omit_false "proxy_bypass" (ProxyBypass s) ++ omit_empty "phys_iface" (PhysIface s) ++
  omit_false "netext_supported" (NetextSupported s) ++ omit_false "netext_available" (NetextAvailable s)).

Definition mk_status (p : Z) (m t : string) (c b : bool) (i : string) (s a : bool) : Status := {|
  st_PID := p; st_Mode := m; st_StartedAt := t; CiscoActive := c; ProxyBypass := b; PhysIface := i; NetextSupported := s; NetextAvailable := a |}.

Definition status_fields : Fields Status := [
  field "pid" st_PID (λ v s, mk_status v (st_Mode s) (st_StartedAt s) (CiscoActive s) (ProxyBypass s) (PhysIface s) (NetextSupported s) (NetextAvailable s)) dec_int;
  field "mode" st_Mode (λ v s, mk_status (st_PID s) v (st_StartedAt s) (CiscoActive s) (ProxyBypass s) (PhysIface s) (NetextSupported s) (NetextAvailable s)) dec_string;
  field "started_at" st_StartedAt (λ v s, mk_status (st_PID s) (st_Mode s) v (CiscoActive s) (ProxyBypass s) (PhysIface s) (NetextSupported s) (NetextAvailable s)) dec_string;
  field "cisco_active" CiscoActive (λ v s, mk_status (st_PID s) (st_Mode s) (st_StartedAt s) v (ProxyBypass s) (PhysIface s) (NetextSupported s) (NetextAvailable s)) dec_bool;
  field "proxy_bypass" ProxyBypass (λ v s, mk_status (st_PID s) (st_Mode s) (st_StartedAt s) (CiscoActive s) v (PhysIface s) (NetextSupported s) (NetextAvailable s)) dec_bool;
  field "phys_iface" PhysIface (λ v s, mk_status (st_PID s) (st_Mode s) (st_StartedAt s) (CiscoActive s) (ProxyBypass s) v (NetextSupported s) (NetextAvailable s)) dec_string;
  field "netext_supported" NetextSupported (λ v s, mk_status (st_PID s) (st_Mode s) (st_StartedAt s) (CiscoActive s) (ProxyBypass s) (PhysIface s) v (NetextAvailable s)) dec_bool;
  field "netext_available" NetextAvailable (λ v s, mk_status (st_PID s) (st_Mode s) (st_StartedAt s) (CiscoActive s) (ProxyBypass s) (PhysIface s) (NetextSupported s) v) dec_bool
].

Definition QueryStatus `{GoUpper} {D} (srv : Server D) (d : D) : result string Status * D :=
  match Request srv "STATUS" "" d with
  | (Err e, d) => (Err e, d)
  | (Ok resp, d) =>
      (match Unmarshal no_status (dec_struct status_fields) resp with Some s => Ok s | None => Err ("bad status reply " +:+ resp) end, d)
  end.

Record Traffic := { Up : Z; Down : Z }.
Definition enc_traffic (t : Traffic) : json := JObj [("up", enc_int (Up t)); ("down", enc_int (Down t))].
Definition traffic_fields : Fields Traffic := [
  field "up" Up (λ v t, {| Up := v; Down := Down t |}) dec_int; field "down" Down (λ v t, {| Up := Up t; Down := v |}) dec_int].

Definition QueryTraffic `{GoUpper} {D} (srv : Server D) (d : D) : result string Traffic * D :=
  match Request srv "TRAFFIC" "" d with
  | (Err e, d) => (Err e, d)
  | (Ok resp, d) =>
      (match Unmarshal {| Up := 0; Down := 0 |} (dec_struct traffic_fields) resp with Some t => Ok t | None => Err ("bad traffic reply " +:+ resp) end, d)
  end.

(** ** The advertisement *)

Record Instance_ := {
  i_PID : Z; i_Mode : string; LogPath : string; ControlSocket : string; ClashAPIAddr : string; ClashSecret : string; i_StartedAt : string }.

Definition enc_instance (i : Instance_) : json := JObj (
  [("pid", enc_int (i_PID i)); ("mode", enc_string (i_Mode i)); ("log_path", enc_string (LogPath i)); ("control_socket", enc_string (ControlSocket i))] ++
  omit_empty "clash_api_addr" (ClashAPIAddr i) ++ omit_empty "clash_secret" (ClashSecret i) ++ [("started_at", enc_string (i_StartedAt i))]).

Definition mk_instance (p : Z) (m l c a s t : string) : Instance_ := {|
  i_PID := p; i_Mode := m; LogPath := l; ControlSocket := c; ClashAPIAddr := a; ClashSecret := s; i_StartedAt := t |}.
Definition no_instance : Instance_ := mk_instance 0 "" "" "" "" "" "".

Definition instance_fields : Fields Instance_ := [
  field "pid" i_PID (λ v i, mk_instance v (i_Mode i) (LogPath i) (ControlSocket i) (ClashAPIAddr i) (ClashSecret i) (i_StartedAt i)) dec_int;
  field "mode" i_Mode (λ v i, mk_instance (i_PID i) v (LogPath i) (ControlSocket i) (ClashAPIAddr i) (ClashSecret i) (i_StartedAt i)) dec_string;
  field "log_path" LogPath (λ v i, mk_instance (i_PID i) (i_Mode i) v (ControlSocket i) (ClashAPIAddr i) (ClashSecret i) (i_StartedAt i)) dec_string;
  field "control_socket" ControlSocket (λ v i, mk_instance (i_PID i) (i_Mode i) (LogPath i) v (ClashAPIAddr i) (ClashSecret i) (i_StartedAt i)) dec_string;
  field "clash_api_addr" ClashAPIAddr (λ v i, mk_instance (i_PID i) (i_Mode i) (LogPath i) (ControlSocket i) v (ClashSecret i) (i_StartedAt i)) dec_string;
  field "clash_secret" ClashSecret (λ v i, mk_instance (i_PID i) (i_Mode i) (LogPath i) (ControlSocket i) (ClashAPIAddr i) v (i_StartedAt i)) dec_string;
  field "started_at" i_StartedAt (λ v i, mk_instance (i_PID i) (i_Mode i) (LogPath i) (ControlSocket i) (ClashAPIAddr i) (ClashSecret i) v) dec_string
].

Definition InstancePath (dir : string) : string := Path.JoinPath [dir; "instance.json"].
Definition LockPath (dir : string) : string := Path.JoinPath [dir; "instance.lock"].
Definition SocketPath (dir : string) : string := Path.JoinPath [dir; "control.sock"].

(** Whether a process answers to signal 0, and what the socket answers to
    STATUS. *)
Inductive Signal0 := Delivered | EPERM | ESRCH.

Definition IsAlive (signal : Z → Signal0) (pid : Z) : bool :=
  if (pid <=? 0)%Z then false else match signal pid with Delivered | EPERM => true | ESRCH => false end.

Definition IsCurrent (signal : Z → Signal0) (query : string → result string Status) (i : Instance_) : bool :=
  if (i_PID i <=? 0)%Z || String.eqb (i_StartedAt i) "" || negb (IsAlive signal (i_PID i)) || String.eqb (ControlSocket i) "" then false
  else match query (ControlSocket i) with
       | Ok st => (st_PID st =? i_PID i)%Z && String.eqb (st_StartedAt st) (i_StartedAt i)
       | Err _ => false
       end.

(** ** Sockets and their pathnames *)

Inductive DialResult := Connected | ErrNoent | ErrRefused | ErrDial (e : string).
Inductive Node := Missing | LiveSocket | DeadSocket | OtherFile.

Class Sockets (W : Type) := {
  dial : string → W → DialResult;
  lstat_is_socket : string → W → result FsError bool;
  listen : string → W → option string * W;
  unlink : string → W → option FsError * W;
  (** What a pathname is, which only these calls show. *)
  node : string → W → Node
}.

(** What bind(2) and unlink(2) promise: a bind needs a free pathname, and a
    call touches its own pathname only.  Nothing is promised of what a dial or
    a lookup answers: a dangling link answers like no file, and a socket may
    refuse because its queue is full. *)
Class SocketsLaws (W : Type) `{Sockets W} := {
  listen_fails p w e q : fst (listen p w) = Some e → node q (snd (listen p w)) = node q w;
  listen_binds p w : fst (listen p w) = None → node p w = Missing ∧ node p (snd (listen p w)) = LiveSocket;
  listen_others p w q : q ≠ p → node q (snd (listen p w)) = node q w;
  unlink_others p w q : q ≠ p → node q (snd (unlink p w)) = node q w;
  unlink_fails p w : fst (unlink p w) ≠ None → node p (snd (unlink p w)) = node p w;
  unlink_absent p w : fst (unlink p w) = Some NotExist → node p w = Missing;
  unlink_removes p w : fst (unlink p w) = None → node p (snd (unlink p w)) = Missing
}.

Inductive ProbeErr := LivePeer | NotASocket | NoOwnership (e : string).

Section sockets.
Context {W : Type} `{Sockets W}.

Definition SocketProbe (path : string) (w : W) : option ProbeErr :=
  match dial path w with
  | Connected => Some LivePeer
  | ErrNoent => None
  | ErrRefused =>
      match lstat_is_socket path w with
      | Err NotExist => None
      | Ok true => None
      | _ => Some NotASocket
      end
  | ErrDial e => Some (NoOwnership e)
  end.

(** [Server.Start] up to the loop that accepts. *)
Definition Start (path : string) (w : W) : option string * W :=
  match listen path w with
  | (None, w) => (None, w)
  | (Some e, w) =>
      match SocketProbe path w with
      | None => let '(_, w) := unlink path w in listen path w
      | Some _ => (Some e, w)
      end
  end.

(** [Server.Close] of a server that listens. *)
Definition Close (path : string) (close_error : option string) (w : W) : option string * W :=
  let '(_, w) := unlink path w in (close_error, w).

Inductive RecoverErr := ErrProbe (e : ProbeErr) | ErrRemove (e : FsError).

Fixpoint remove_all (paths : list string) (w : W) : option RecoverErr * W :=
  match paths with
  | [] => (None, w)
  | p :: paths =>
      match unlink p w with
      | (Some (OtherError e), w) => (Some (ErrRemove (OtherError e)), w)
      | (_, w) => remove_all paths w
      end
  end.

Definition RecoverState (dir : string) (w : W) : option RecoverErr * W :=
  match SocketProbe (SocketPath dir) w with
  | Some e => (Some (ErrProbe e), w)
  | None => remove_all [SocketPath dir; InstancePath dir] w
  end.
End sockets.

(** ** Requests *)

Lemma TrimRightBytes_behind f s t : t ≠ "" → TrimRightBytes f t = t → TrimRightBytes f (s +:+ t) = s +:+ t.
Proof.
  intros Hne Ht. unfold TrimRightBytes in *. rewrite srev_app. apply (f_equal srev) in Ht. rewrite srev_srev in Ht.
  destruct (srev t) as [|c r] eqn:E; [by rewrite <- (srev_srev t), E in Hne|].
  cbn [drop_while] in Ht. change (String c r +:+ srev s) with (String c (r +:+ srev s)). cbn [drop_while].
  destruct (f c) eqn:Hf.
  - exfalso. assert (∀ u, (String.length (drop_while f u) <= String.length u)%nat) as Hl
      by (induction u as [|d u IH]; simpl; [lia|]; destruct (f d); simpl; lia).
    pose proof (Hl r) as Hr. rewrite Ht in Hr. simpl in Hr. lia.
  - change (String c (r +:+ srev s)) with (String c r +:+ srev s). by rewrite <- E, <- srev_app, srev_srev.
Qed.

Lemma before_byte_app f s c t : str_forallb (λ d, negb (f d)) s = true → f c = true → before_byte f (s +:+ String c t) = s.
Proof.
  intros Hs Hc. induction s as [|d s IH]; [change ("" +:+ String c t) with (String c t); cbn [before_byte]; by rewrite Hc|]. cbn [str_forallb] in Hs. apply andb_true_iff in Hs as [Hd Hs].
  apply negb_true_iff in Hd. change (String d s +:+ String c t) with (String d (s +:+ String c t)). cbn [before_byte]. by rewrite Hd, IH.
Qed.

Lemma TrimRightBytes_front f s t : TrimRightBytes f s = s → TrimRightBytes f (s +:+ t) = s +:+ TrimRightBytes f t.
Proof.
  unfold TrimRightBytes. intros Hs. rewrite srev_app. generalize (srev t) as u. induction u as [|c u IH].
  - change ("" +:+ srev s) with (srev s). rewrite Hs. change (srev (drop_while f "")) with "". by rewrite app_nil_str.
  - change (String c u +:+ srev s) with (String c (u +:+ srev s)). cbn [drop_while]. destruct (f c); [exact IH|].
    change (String c (u +:+ srev s)) with (String c u +:+ srev s). by rewrite srev_app, srev_srev.
Qed.

(** What has no space at its end has no line break there. *)
Lemma trimmed_one_line s : TrimSpace s = s → TrimRightBytes crlf s = s.
Proof.
  intros Hs. destruct (String.eqb_spec s "") as [->|Hne]; [done|].
  pose proof (TrimRightSpace_fixed s (proj2 (TrimSpace_fixed s Hs)) Hne) as Hc.
  unfold TrimRightBytes. destruct (srev s) as [|c r] eqn:Hr; [by rewrite <- (srev_srev s), Hr in Hne|].
  unfold cut_space_rev in Hc. cbn [drop_while]. destruct (crlf c) eqn:Hb; [|by rewrite <- Hr, srev_srev].
  assert (ascii_space c = true) as Hsp; [|by rewrite Hsp in Hc].
  unfold crlf in Hb. apply orb_true_iff in Hb as [->%Ascii.eqb_eq| ->%Ascii.eqb_eq]; reflexivity.
Qed.

(** The name of a command, and an argument that fits a request. *)
Definition name_byte (c : ascii) : bool := in_range 65 90 c || Ascii.eqb c "-".
Definition command_name (cmd : string) : Prop := cmd ≠ "" ∧ str_forallb name_byte cmd = true.
Definition one_line (arg : string) : Prop := str_has LF arg = false ∧ TrimRightBytes crlf arg = arg.

#[export] Instance command_name_dec cmd : Decision (command_name cmd).
Proof. unfold command_name. apply _. Defined.
#[export] Instance one_line_dec arg : Decision (one_line arg).
Proof. unfold one_line. apply _. Defined.

Lemma name_byte_spec c : name_byte c = true →
  solid_byte c = true ∧ upper_byte c = c ∧ Ascii.eqb c " " = false ∧ Ascii.eqb c LF = false ∧ crlf c = false.
Proof.
  unfold name_byte, in_range. intros Hc.
  assert (c = "-"%char ∨ (65 <= byte_val c <= 90)%N) as [->|Hr]; [|done|].
  { apply orb_true_iff in Hc as [Hc|Hc]; [right|left; by apply Ascii.eqb_eq]. apply andb_true_iff in Hc as [Ha%N.leb_le Hb%N.leb_le]. lia. }
  assert (∀ d, (byte_val d < 65)%N → Ascii.eqb c d = false) as Hlow.
  { intros d Hd. apply Ascii.eqb_neq. intros ->. lia. }
  unfold solid_byte, is_ascii_byte, ascii_space, upper_byte, crlf, in_range. rewrite !Hlow by done.
  assert ((97 <=? byte_val c)%N = false) as -> by (apply N.leb_gt; lia).
  assert ((byte_val c <? 128)%N = true) as -> by (apply N.ltb_lt; lia).
  assert ((byte_val c <=? 13)%N = false) as -> by (apply N.leb_gt; lia).
  assert ((byte_val c =? 32)%N = false) as -> by (apply N.eqb_neq; lia).
  by rewrite andb_false_r.
Qed.

Section requests.
Context `{GoUpper} {D : Type}.

Lemma command_name_spec cmd : command_name cmd →
  ToUpper (TrimSpace cmd) = cmd ∧ str_has " " cmd = false ∧ str_has LF cmd = false ∧ TrimRightBytes crlf cmd = cmd.
Proof.
  intros [Hne Hc]. assert (str_forallb solid_byte cmd = true) as Hsol by (eapply str_forallb_impl, Hc; intros; by apply name_byte_spec).
  rewrite TrimSpace_solid by done. split; [|split; [|split]].
  - unfold ToUpper. rewrite (str_forallb_impl solid_byte) by (done || (intros c [? _]%andb_true_iff; done)).
    clear Hne Hsol. induction cmd as [|c cmd IH]; [done|]. cbn [str_forallb str_map] in *. apply andb_true_iff in Hc as [Hb Hc].
    apply name_byte_spec in Hb as (_ & -> & _). by rewrite IH.
  - apply (str_has_forallb " " name_byte); [done|exact Hc].
  - apply (str_has_forallb LF name_byte); [done|exact Hc].
  - clear Hsol. destruct (srev cmd) as [|c r] eqn:E; [by rewrite <- (srev_srev cmd), E in Hne|].
    rewrite <- str_forallb_srev, E in Hc. cbn [str_forallb] in Hc. apply andb_true_iff in Hc as [Hb _].
    apply name_byte_spec in Hb as (_ & _ & _ & _ & Hb). unfold TrimRightBytes. rewrite E. cbn [drop_while]. by rewrite Hb, <- E, srev_srev.
Qed.

Lemma has_no_line s : str_has LF s = false → str_forallb (λ d, negb (Ascii.eqb d LF)) s = true.
Proof.
  unfold str_has. rewrite negb_false_iff. apply str_forallb_impl. intros c Hc. by rewrite Ascii.eqb_sym.
Qed.

Lemma parse_request cmd arg : command_name cmd → one_line arg → parse_line (request_line cmd arg) = (cmd, arg).
Proof.
  intros Hcmd [Hlf Htr]. destruct (command_name_spec cmd Hcmd) as (Hup & Hsp & Hclf & Hctr). unfold parse_line, request_line.
  destruct (String.eqb_spec arg "") as [->|Hne].
  - change ("" +:+ nl) with nl. rewrite (before_byte_app _ cmd LF "") by (done || by apply has_no_line).
    rewrite Hctr. rewrite (proj2 (Cut_byte_None " " cmd)) by done. by rewrite Hup.
  - rewrite <- (app_assoc_str cmd (" " +:+ arg) nl). rewrite (before_byte_app _ (cmd +:+ " " +:+ arg) LF "").
    2:{ apply has_no_line. rewrite !str_has_app, Hclf, Hlf. done. }
    2:{ done. }
    rewrite <- (app_assoc_str cmd " " arg), TrimRightBytes_behind by done. rewrite (app_assoc_str cmd " " arg).
    change (cmd +:+ " " +:+ arg) with (cmd +:+ String " " arg). rewrite Cut_byte_app by done. by rewrite Hup.
Qed.
(** A reply as the client gives it back. *)
Lemma reply_reads s : TrimRightBytes crlf s = s → read_reply (s +:+ nl) = match CutPrefix "ERR " s with Some e => Err e | None => Ok s end.
Proof.
  intros Hs. unfold read_reply. assert (TrimRightBytes crlf (s +:+ nl) = s) as ->; [|done].
  unfold TrimRightBytes in *. rewrite srev_app. change (srev nl +:+ srev s) with (String LF (srev s)). cbn [drop_while].
  by change (crlf LF) with true.
Qed.

Lemma error_reads e : read_reply ("ERR " +:+ e +:+ nl) = Err (TrimRightBytes crlf e).
Proof.
  unfold read_reply. rewrite TrimRightBytes_front by done.
  assert (TrimRightBytes crlf (e +:+ nl) = TrimRightBytes crlf e) as ->; [|by rewrite (proj2 (CutPrefix_Some "ERR " _ _) eq_refl)].
  unfold TrimRightBytes. rewrite srev_app. change (srev nl +:+ srev e) with (String LF (srev e)). cbn [drop_while].
  by change (crlf LF) with true.
Qed.

Lemma request_runs (srv : Server D) cmd arg d h : command_name cmd → one_line arg → srv !! cmd = Some h →
  Request srv cmd arg d = match h arg d with
                          | (Ok r, d) => (read_reply (r +:+ nl), d) | (Err e, d) => (read_reply ("ERR " +:+ e +:+ nl), d) end.
Proof.
  intros Hc Ha Hh. unfold Request, serve. rewrite parse_request, Hh by done. by destruct (h arg d) as [[r|e] d'].
Qed.

(** A request is a call of its handler.  A command under its name, with an
    argument of one line, reaches the handler registered for it with exactly
    that argument; the caller gets the handler's reply, or its error, and the
    daemon is left as the handler leaves it; a command nobody registered is an
    error and leaves the daemon alone.  The reply must not end in a line break,
    and a successful one must not look like an error. *)
Theorem request_calls_its_handler (srv : Server D) (cmd arg : string) (d : D) :
  command_name cmd → one_line arg →
  match srv !! cmd with
  | None => Request srv cmd arg d = (Err "unknown command", d)
  | Some h =>
      snd (Request srv cmd arg d) = snd (h arg d) ∧
      match fst (h arg d) with
      | Ok r => TrimRightBytes crlf r = r → CutPrefix "ERR " r = None → fst (Request srv cmd arg d) = Ok r
      | Err e => e ≠ "" → TrimRightBytes crlf e = e → fst (Request srv cmd arg d) = Err e
      end
  end.
Proof.
  intros Hc Ha. destruct (srv !! cmd) as [h|] eqn:Hh.
  - rewrite (request_runs srv cmd arg d h) by done. destruct (h arg d) as [[r|e] d']; cbn [fst snd]; (split; [done|]).
    + intros Hr He. by rewrite reply_reads, He.
    + intros Hne He. change ("ERR " +:+ e +:+ nl) with (("ERR " +:+ e) +:+ nl).
      rewrite reply_reads by (by apply TrimRightBytes_behind). by rewrite (proj2 (CutPrefix_Some "ERR " _ e)).
  - unfold Request, serve. by rewrite parse_request, Hh.
Qed.

(** Handlers, by the name they were registered under last. *)
Lemma Handle_name (srv : Server D) name h : command_name name → Handle name h srv = <[name := h]> srv.
Proof.
  intros Hn. unfold Handle. destruct (command_name_spec name Hn) as (Hu & _). destruct Hn as [_ Hb].
  rewrite TrimSpace_solid in Hu by (eapply str_forallb_impl, Hb; intros; by apply name_byte_spec). by rewrite Hu.
Qed.

Lemma handled (srv : Server D) name h : command_name name → Handle name h srv !! name = Some h.
Proof. intros Hn. rewrite Handle_name by done. apply (lookup_insert_eq (srv : gmap string (HandlerFunc D))). Qed.

(** A list of handlers, registered one after the other. *)
Definition handle_all (l : list (string * HandlerFunc D)) : Server D := foldl (λ srv nh, Handle (fst nh) (snd nh) srv) ∅ l.

Lemma handle_all_snoc l nh : handle_all (l ++ [nh]) = Handle (fst nh) (snd nh) (handle_all l).
Proof. unfold handle_all. by rewrite foldl_app. Qed.

Lemma handled_all l name h :
  Forall (λ nh, command_name (fst nh)) l → NoDup (fst <$> l) → (name, h) ∈ l → handle_all l !! name = Some h.
Proof.
  induction l as [|[n g] l IH] using rev_ind; [by intros _ _ ?%not_elem_of_nil|].
  rewrite Forall_app, Forall_singleton, fmap_app, handle_all_snoc, elem_of_app, list_elem_of_singleton. cbn [fst snd fmap list_fmap].
  intros [Hl Hn] (Hnd & Hdis & _)%NoDup_app Hin. rewrite Handle_name by done. destruct (decide (n = name)) as [->|Hne].
  - destruct Hin as [Hin|[= ->]]; [|apply (lookup_insert_eq (handle_all l : gmap string (HandlerFunc D)))].
    exfalso. apply (Hdis name); [|by left]. apply list_elem_of_fmap. by exists (name, h).
  - etransitivity; [by apply (lookup_insert_ne (handle_all l : gmap string (HandlerFunc D)))|].
    destruct Hin as [Hin|[= -> _]]; [by apply IH|done].
Qed.

Lemma handled_only l name h : handle_all l !! name = Some h → h ∈ snd <$> l.
Proof.
  induction l as [|[n g] l IH] using rev_ind; [change ((∅ : gmap string (HandlerFunc D)) !! name = Some h → h ∈ []); by rewrite lookup_empty|].
  rewrite handle_all_snoc, fmap_app, elem_of_app. unfold Handle.
  intros [[_ <-]|[_ Hl]]%(lookup_insert_Some (handle_all l : gmap string (HandlerFunc D))); [right; by left|left; auto].
Qed.
End requests.

(** SYSPROXY-RECLAIM-PORT, the only command that touches a launch agent, is not
    among the slow ones, although all SYSPROXY commands are said to be. *)
Lemma reclaim_port_is_fast `{GoUpper} : DeadlineFor "SYSPROXY-RECLAIM-PORT" = FastDeadline ∧ DeadlineFor "SYSPROXY-SET" = SlowDeadline.
Proof. split; vm_compute; reflexivity. Qed.

(** ** Who owns the socket *)

Section owners.
Context {W : Type} `{SocketsLaws W}.

(** What a pathname has answered when it counts as left over: nothing is there;
    or nobody accepts, and it is a socket or gone by now. *)
Definition stale (path : string) (w : W) : Prop :=
  dial path w = ErrNoent ∨
  (dial path w = ErrRefused ∧ (lstat_is_socket path w = Ok true ∨ lstat_is_socket path w = Err NotExist)).

Lemma probe_spec path w : SocketProbe path w = None ↔ stale path w.
Proof.
  unfold SocketProbe, stale. destruct (dial path w) as [| | |e].
  - split; [done|]. by intros [|[]].
  - split; [by left|done].
  - destruct (lstat_is_socket path w) as [[|]|[|e]]; split; try done.
    + intros _. right. by split; [|left].
    + by intros [|[_ []]].
    + intros _. right. by split; [|right].
    + by intros [|[_ []]].
  - split; [done|]. by intros [|[]].
Qed.

Lemma untouched_others paths : ∀ w q, q ∉ paths → node q (snd (remove_all paths w)) = node q w.
Proof.
  induction paths as [|p paths IH]; intros w q Hq; [done|]. apply not_elem_of_cons in Hq as [Hqp Hq]. cbn [remove_all].
  pose proof (unlink_others p w q Hqp) as Hu. destruct (unlink p w) as [[[|e]|] w1]; cbn [snd] in *; rewrite ?IH by done; exact Hu.
Qed.

Lemma removed_all paths : ∀ w, fst (remove_all paths w) = None → ∀ p, p ∈ paths → node p (snd (remove_all paths w)) = Missing.
Proof.
  induction paths as [|q paths IH]; intros w Hn p Hp; [by apply not_elem_of_nil in Hp|]. cbn [remove_all] in *.
  destruct (decide (p ∈ paths)) as [Hin|Hnin].
  - destruct (unlink q w) as [[[|e]|] w1]; [by apply IH|done|by apply IH].
  - apply elem_of_cons in Hp as [->|]; [|done]. pose proof (unlink_removes q w) as Hr. pose proof (unlink_absent q w) as Ha.
    pose proof (unlink_fails q w) as Hf. destruct (unlink q w) as [[[|e]|] w1]; cbn [fst snd] in *; [|done|].
    + rewrite untouched_others, Hf by done. by apply Ha.
    + rewrite untouched_others by done. by apply Hr.
Qed.

(** C15: A starting daemon takes over only what answered as left over.  Start
    changes at most its own pathname, and that only by binding it or when it
    was [stale]: missing, or a socket (or gone by then) that refused; a
    pathname that accepts, answers anything else or refuses and is no socket
    makes Start fail and is not touched; a Start that succeeds bound a
    pathname that was free or stale.  RecoverState removes at most the control
    socket and the advertisement, and only when the socket was stale; else it
    fails and changes nothing at all; when it succeeds both are gone.  That a
    refusal means a dead peer is not claimed: that no other daemon runs is the
    lock's to say ([Lifetime]). *)
Theorem live_sockets_survive (path dir : string) (w : W) :
  let w1 := snd (listen path w) in
  (∀ p, node p (snd (Start path w)) ≠ node p w → p = path ∧ (fst (listen path w) = None ∨ stale path w1)) ∧
  (fst (listen path w) ≠ None → ¬ stale path w1 → is_Some (fst (Start path w)) ∧ ∀ p, node p (snd (Start path w)) = node p w) ∧
  (fst (Start path w) = None → node path (snd (Start path w)) = LiveSocket ∧ (node path w = Missing ∨ stale path w1)) ∧
  (∀ p, node p (snd (RecoverState dir w)) ≠ node p w → p ∈ [SocketPath dir; InstancePath dir] ∧ stale (SocketPath dir) w) ∧
  (¬ stale (SocketPath dir) w → is_Some (fst (RecoverState dir w)) ∧ snd (RecoverState dir w) = w) ∧
  (fst (RecoverState dir w) = None → ∀ p, p ∈ [SocketPath dir; InstancePath dir] → node p (snd (RecoverState dir w)) = Missing).
Proof.
  cbv zeta. unfold Start, RecoverState.
  pose proof (listen_fails path w) as Hlf. pose proof (listen_binds path w) as Hlb. pose proof (listen_others path w) as Hlo.
  destruct (listen path w) as [[e|] w1] eqn:Hl; cbn [fst snd] in *.
  all: split; [|split; [|split; [|split; [|split]]]].
  - intros p. destruct (SocketProbe path w1) eqn:Hpr; cbn [snd]; [by rewrite (Hlf e p)|]. intros Hne. apply probe_spec in Hpr.
    destruct (decide (p = path)) as [->|Hp]; [by auto|]. exfalso. apply Hne. pose proof (unlink_others path w1 p Hp) as Hu.
    destruct (unlink path w1) as [e2 w2]. cbn [snd] in *. by rewrite listen_others, Hu, (Hlf e).
  - intros _ Hst. destruct (SocketProbe path w1) eqn:Hpr; [|by apply probe_spec in Hpr]. split; [by eexists|]. intros q. by apply (Hlf e).
  - destruct (SocketProbe path w1) eqn:Hpr; [done|]. apply probe_spec in Hpr. destruct (unlink path w1) as [e2 w2].
    intros Hn. split; [by apply listen_binds|by right].
  - intros p. destruct (SocketProbe (SocketPath dir) w) eqn:Hpr; [done|]. apply probe_spec in Hpr. intros Hne. split; [|done].
    apply dec_stable. intros Hp. by apply Hne, untouched_others.
  - intros Hst. destruct (SocketProbe (SocketPath dir) w) eqn:Hpr; [split; [by eexists|done]|]. by apply probe_spec in Hpr.
  - destruct (SocketProbe (SocketPath dir) w); [done|]. apply removed_all.
  - intros p Hne. split; [|by left]. apply dec_stable. intros Hp. by apply Hne, Hlo.
  - done.
  - intros _. destruct (Hlb eq_refl). auto.
  - intros p. destruct (SocketProbe (SocketPath dir) w) eqn:Hpr; [done|]. apply probe_spec in Hpr. intros Hne. split; [|done].
    apply dec_stable. intros Hp. by apply Hne, untouched_others.
  - intros Hst. destruct (SocketProbe (SocketPath dir) w) eqn:Hpr; [split; [by eexists|done]|]. by apply probe_spec in Hpr.
  - destruct (SocketProbe (SocketPath dir) w); [done|]. apply removed_all.
Qed.
End owners.

(** ** The advertisement *)

Definition instance_valid (i : Instance_) : Prop :=
  is_Some (in_int64 (i_PID i)) ∧ Forall (λ t, Utf8.valid t = true) [i_Mode i; LogPath i; ControlSocket i; ClashAPIAddr i; ClashSecret i; i_StartedAt i].

Section files.
Context {W : Type} `{FSLaws W}.

Inductive FileErr := ErrTemp (e : string) | ErrStep (e : string) | ErrWrite (e : FsError) | ErrRename (e : FsError) | ErrNoFile (e : FsError) | ErrText.

(** [WriteInstance]: a new file under a name nobody has, [tmp], its mode, its
    text, and its renaming; removing it at the end is best-effort.  [chmod] and
    [sync] are what these calls report. *)
Definition WriteInstance (tmp : result string string) (chmod sync : option string) (dir : string) (i : Instance_) (w : W) : option FileErr * W :=
  match tmp with
  | Err e => (Some (ErrTemp e), w)
  | Ok t =>
      let '(r, w) :=
        match chmod with
        | Some e => (Some (ErrStep e), w)
        | None =>
            let '(e, w) := WriteFile t (MarshalIndent (enc_instance i)) 384 w in
            match e, sync with
            | Some e, _ => (Some (ErrWrite e), w)
            | None, Some e => (Some (ErrStep e), w)
            | None, None => let '(e, w) := Rename t (InstancePath dir) w in (ErrRename <$> e, w)
            end
        end in
      let '(_, w) := Remove t w in (r, w)
  end.

Definition ReadInstance (dir : string) (w : W) : result FileErr Instance_ :=
  match ReadFile (InstancePath dir) w with
  | Err e => Err (ErrNoFile e)
  | Ok data => match Unmarshal no_instance (dec_struct instance_fields) data with Some i => Ok i | None => Err ErrText end
  end.

Definition RemoveInstance (dir : string) (w : W) : W := snd (Remove (InstancePath dir) w).

Lemma enc_instance_spec i : instance_valid i →
  wf (enc_instance i) ∧ (depth (enc_instance i) <= 1)%nat ∧ dec_struct instance_fields no_instance (enc_instance i) = Some i.
Proof.
  unfold instance_valid. rewrite !Forall_cons. intros (H0' & H1' & H2' & H3' & H4' & H5' & H6' & _). split; [|split].
  - apply wf_obj. wf_members.
  - apply depth_obj. rewrite !Forall_app. repeat split; auto using depth_omit_empty; by repeat constructor.
  - unfold dec_struct, enc_instance. cbn [app]. rewrite (dec_members_field instance_fields 0 "pid" _ _ "pid") by reflexivity.
    cbn [snd enc_int dec_int]. rewrite Atoi_Itoa by done. cbn [fmap option_fmap option_map mbind option_bind].
    erewrite (dec_members_string instance_fields 1 "mode"), (dec_members_string instance_fields 2 "log_path"),
      (dec_members_string instance_fields 3 "control_socket"), (dec_members_omit_empty instance_fields 4 "clash_api_addr"),
      (dec_members_omit_empty instance_fields 5 "clash_secret"), (dec_members_string instance_fields 6 "started_at") by (done || reflexivity).
    by destruct i.
Qed.

(** The advertisement a client reads is whole: either the one a successful
    WriteInstance wrote, every field of it, or, while one is written, fails or
    is interrupted before its rename, still the one from before. *)
Theorem advertisement_is_atomic (t dir : string) (chmod sync : option string) (i : Instance_) (w : W) :
  instance_valid i → t ≠ InstancePath dir →
  let '(r, w') := WriteInstance (Ok t) chmod sync dir i w in
  (r = None → ReadInstance dir w' = Ok i) ∧ (r ≠ None → ReadInstance dir w' = ReadInstance dir w).
Proof.
  intros Hi Ht. unfold WriteInstance.
  assert (∀ w1, ReadInstance dir (snd (Remove t w1)) = ReadInstance dir w1) as Hrem
    by (intros w1; unfold ReadInstance; by rewrite remove_others by (by apply not_eq_sym)).
  assert (InstancePath dir ≠ t) as Ht' by (by apply not_eq_sym).
  destruct chmod as [e|]; [pose proof (Hrem w) as Hw; destruct (Remove t w); split; [done|intros _; exact Hw]|].
  pose proof (write_reads t (MarshalIndent (enc_instance i)) 384 w) as Hwr.
  pose proof (write_others t (MarshalIndent (enc_instance i)) 384 w (InstancePath dir) Ht') as Hwo.
  destruct (WriteFile t (MarshalIndent (enc_instance i)) 384 w) as [[e|] w1]; cbn [fst snd] in *.
  { pose proof (Hrem w1) as Hw. destruct (Remove t w1). cbn [snd] in Hw. split; [done|intros _]. rewrite Hw. unfold ReadInstance. by rewrite Hwo. }
  destruct sync as [e|].
  { pose proof (Hrem w1) as Hw. destruct (Remove t w1). cbn [snd] in Hw. split; [done|intros _]. rewrite Hw. unfold ReadInstance. by rewrite Hwo. }
  pose proof (rename_reads t (InstancePath dir) w1) as Hrr. pose proof (rename_others t (InstancePath dir) w1 (InstancePath dir) Ht') as Hro.
  destruct (Rename t (InstancePath dir) w1) as [[e|] w2]; cbn [fst snd] in *;
    (pose proof (Hrem w2) as Hw; destruct (Remove t w2); cbn [snd] in Hw; rewrite Hw; unfold ReadInstance); (split; [|intros Hn]); try done.
  - rewrite Hro by (by right). by rewrite Hwo.
  - intros _. rewrite Hrr, Hwr by done. destruct (enc_instance_spec i Hi) as (Hwf & Hd & Hdec).
    rewrite (Unmarshal_MarshalIndent no_instance i); [done|exact Hwf| |exact Hdec]. unfold maxNestingDepth. lia.
Qed.
End files.

(** ** Runs *)

Definition paths_node (p : string) (w : gmap string Node) : Node := match w !! p with Some n => n | None => Missing end.

(** Pathnames with what they are; a dead socket and a file refuse. *)
#[local] Instance paths : Sockets (gmap string Node) := {|
  dial p w := match paths_node p w with Missing => ErrNoent | LiveSocket => Connected | DeadSocket | OtherFile => ErrRefused end;
  lstat_is_socket p w := match paths_node p w with Missing => Err NotExist | OtherFile => Ok false | _ => Ok true end;
  listen p w := match paths_node p w with Missing => (None, <[p := LiveSocket]> w) | _ => (Some "address already in use", w) end;
  unlink p w := match paths_node p w with Missing => (Some NotExist, w) | _ => (None, <[p := Missing]> w) end;
  node := paths_node |}.

Lemma paths_insert p n w : paths_node p (<[p := n]> w) = n.
Proof. unfold paths_node. by rewrite lookup_insert_eq. Qed.
Lemma paths_insert_ne p q n w : q ≠ p → paths_node q (<[p := n]> w) = paths_node q w.
Proof. intros Hq. unfold paths_node. by rewrite lookup_insert_ne by done. Qed.

#[local] Instance paths_laws : SocketsLaws (gmap string Node).
Proof.
  split; cbn; intros p w.
  - intros e q. by destruct (paths_node p w).
  - destruct (paths_node p w); try done. intros _. split; [done|]. cbn. by rewrite paths_insert.
  - intros q Hq. destruct (paths_node p w); try done. cbn. by rewrite paths_insert_ne.
  - intros q Hq. destruct (paths_node p w); try done; cbn; by rewrite paths_insert_ne.
  - destruct (paths_node p w) eqn:E; cbn; rewrite ?E; try done; by intros [].
  - by destruct (paths_node p w).
  - destruct (paths_node p w) eqn:E; try done; intros _; cbn; by rewrite paths_insert.
Qed.

Lemma live_sockets_survive_witness :
  let w := {["/run/control.sock" := LiveSocket; "/run/notes" := OtherFile]} : gmap string Node in
  is_Some (fst (Start "/run/control.sock" w)) ∧ node "/run/control.sock" (snd (Start "/run/control.sock" w)) = LiveSocket ∧
  snd (RecoverState "/run" w) = w.
Proof.
  intros w. destruct (live_sockets_survive "/run/control.sock" "/run" w) as (_ & Hf & _ & _ & Hr & _).
  assert (∀ v : gmap string Node, dial "/run/control.sock" v = Connected → ¬ stale "/run/control.sock" v) as Hst
    by (intros v Hv [E|[E _]]; congruence).
  destruct Hf as [Hs Hn]; [discriminate|by apply Hst|]. split; [exact Hs|]. split; [rewrite Hn; reflexivity|].
  apply Hr. by apply Hst.
Defined.

#[local] Instance ascii_upper : GoUpper := {| upper_unicode := λ s, s |}.

Definition ex_server : Server nat := Handle "mode" (λ arg d, (Ok ("now " +:+ arg), S d)) ∅.

Lemma request_calls_its_handler_witness :
  fst (Request ex_server "MODE" "vpn" 0) = Ok "now vpn" ∧ Request ex_server "STOP" "" 0 = (Err "unknown command", 0).
Proof.
  split.
  - pose proof (request_calls_its_handler ex_server "MODE" "vpn" 0) as Hq.
    destruct Hq as [_ Hq]; [split; [discriminate|reflexivity]|split; reflexivity|]. apply Hq; reflexivity.
  - apply (request_calls_its_handler ex_server "STOP" "" 0); [split; [discriminate|reflexivity]|split; reflexivity].
Defined.

Definition ex_instance : Instance_ := mk_instance 42 "vpn" "/log" "/run/control.sock" "127.0.0.1:9090" "s" "2025-01-01T00:00:00Z".

Lemma advertisement_is_atomic_witness :
  ReadInstance "/run" (snd (WriteInstance (Ok "/run/.instance.json-1") None None "/run" ex_instance (∅ : gmap string string))) = Ok ex_instance.
Proof.
  pose proof (advertisement_is_atomic "/run/.instance.json-1" "/run" None None ex_instance (∅ : gmap string string)) as Hq.
  assert (WriteInstance (Ok "/run/.instance.json-1") None None "/run" ex_instance (∅ : gmap string string) =
    (None, snd (WriteInstance (Ok "/run/.instance.json-1") None None "/run" ex_instance (∅ : gmap string string)))) as He by (vm_compute; reflexivity).
  rewrite He in Hq. apply Hq; [|discriminate|reflexivity].
  split; [vm_compute; by eexists|repeat constructor].
Defined.

End Control.
