(* ===== verification/SysConfig.v ===== *)
(** * SysConfig: the system-proxy configuration
    ([internal/sysproxy/config.go], [ini.go])

    The configuration of the system-proxy toggle, its validation, the INI
    format it is persisted and exchanged in, the plain domain list, and the
    dispatch of an import.  The YAML decoder is third-party: [unmarshal] is a
    parameter.  Text is valid UTF-8, as [strings.Map] assumes. *)

From S2P Require Import Prelude GoStr GoNet.

Local Open Scope string_scope.
Local Open Scope list_scope.

Module SysConfig.

(** ** Data *)

Definition ModeOff : string := "off".
Definition ModeExclude : string := "exclude".
Definition ModeInclude : string := "include".
Definition modes : list string := [ModeOff; ModeExclude; ModeInclude].

Definition DefaultService : string := "Wi-Fi".
Definition DefaultHost : string := "127.0.0.1".
Definition DefaultProxyPort : Z := 2080.
Definition LegacyPACPort : Z := 21080.

Definition DefaultDirectRules : list string := [
  "10.0.0.0/8"; "172.16.0.0/12"; "192.168.0.0/16"; "100.64.0.0/10"; "169.254.0.0/16";
  "127.0.0.0/8"; "*.ru"; "*.xn--p1ai"; "*.local"].

Record Config := {
  cMode : string;
  Host : string;
  Port : Z;
  Service : string;
  PACPort : Z;
  BypassPlainHostnames : bool;
  Proxy : list string;
  Direct : list string
}.

#[export] Instance Config_eq_dec : EqDecision Config.
Proof. solve_decision. Defined.

Definition DefaultConfig : Config := {|
  cMode := ModeOff; Host := DefaultHost; Port := DefaultProxyPort; Service := DefaultService;
  PACPort := 0; BypassPlainHostnames := true; Proxy := []; Direct := DefaultDirectRules |}.

(** [Config{}] *)
Definition zero_config : Config := {|
  cMode := ""; Host := ""; Port := 0; Service := ""; PACPort := 0; BypassPlainHostnames := false;
  Proxy := []; Direct := [] |}.

Definition set_mode (m : string) (c : Config) : Config := {|
  cMode := m; Host := Host c; Port := Port c; Service := Service c; PACPort := PACPort c;
  BypassPlainHostnames := BypassPlainHostnames c; Proxy := Proxy c; Direct := Direct c |}.
Definition set_host (h : string) (c : Config) : Config := {|
  cMode := cMode c; Host := h; Port := Port c; Service := Service c; PACPort := PACPort c;
  BypassPlainHostnames := BypassPlainHostnames c; Proxy := Proxy c; Direct := Direct c |}.
Definition set_port (p : Z) (c : Config) : Config := {|
  cMode := cMode c; Host := Host c; Port := p; Service := Service c; PACPort := PACPort c;
  BypassPlainHostnames := BypassPlainHostnames c; Proxy := Proxy c; Direct := Direct c |}.
Definition set_service (s : string) (c : Config) : Config := {|
  cMode := cMode c; Host := Host c; Port := Port c; Service := s; PACPort := PACPort c;
  BypassPlainHostnames := BypassPlainHostnames c; Proxy := Proxy c; Direct := Direct c |}.
Definition set_pac_port (p : Z) (c : Config) : Config := {|
  cMode := cMode c; Host := Host c; Port := Port c; Service := Service c; PACPort := p;
  BypassPlainHostnames := BypassPlainHostnames c; Proxy := Proxy c; Direct := Direct c |}.
Definition set_bypass (b : bool) (c : Config) : Config := {|
  cMode := cMode c; Host := Host c; Port := Port c; Service := Service c; PACPort := PACPort c;
  BypassPlainHostnames := b; Proxy := Proxy c; Direct := Direct c |}.
Definition set_proxy (l : list string) (c : Config) : Config := {|
  cMode := cMode c; Host := Host c; Port := Port c; Service := Service c; PACPort := PACPort c;
  BypassPlainHostnames := BypassPlainHostnames c; Proxy := l; Direct := Direct c |}.
Definition set_direct (l : list string) (c : Config) : Config := {|
  cMode := cMode c; Host := Host c; Port := Port c; Service := Service c; PACPort := PACPort c;
  BypassPlainHostnames := BypassPlainHostnames c; Proxy := Proxy c; Direct := l |}.

Definition ProxyDirective (c : Config) : string := "PROXY " +:+ Host c +:+ ":" +:+ Itoa (Port c).

(** ** Validation *)

Inductive rule_error := ErrInvalidCIDR (raw : string) | ErrUnsupportedCIDR (raw : string).

#[export] Instance rule_error_eq_dec : EqDecision rule_error.
Proof. solve_decision. Defined.

Inductive error :=
  | ErrMode (m : string)
  | ErrService
  | ErrHost
  | ErrPort (p : Z)
  | ErrPACPort (p : Z)
  | ErrSamePort
  | ErrProxyRules (e : rule_error)
  | ErrDirectRules (e : rule_error)
  | ErrNoProxyRule.

Section unicode.
Context `{GoUnicode}.

(** What both rule checks say of an entry with a slash. *)
Definition cidr_error (raw e : string) : option rule_error :=
  match ParseCIDR (ToLower e) with
  | None => Some (ErrInvalidCIDR raw)
  | Some n => match To4 (net_ip n) with None => Some (ErrUnsupportedCIDR raw) | Some _ => None end
  end.

Fixpoint validateRules (rules : list string) : option rule_error :=
  match rules with
  | [] => None
  | raw :: rules =>
      let e := TrimSpace raw in
      if String.eqb e "" || negb (Contains e "/") then validateRules rules
      else match cidr_error raw e with Some err => Some err | None => validateRules rules end
  end.

Definition normalizeDomains (domains : list string) : list string :=
  dedup_from [] (filter (λ d, d ≠ "") ((λ d, ToLower (TrimSpace d)) <$> domains)).

Definition Validate (c : Config) : option error :=
  if bool_decide (cMode c ∉ modes) then Some (ErrMode (cMode c))
  else if String.eqb (TrimSpace (Service c)) "" then Some ErrService
  else if String.eqb (cMode c) ModeOff then None
  else if String.eqb (TrimSpace (Host c)) "" then Some ErrHost
  else if ((Port c <=? 0) || (65535 <? Port c))%Z then Some (ErrPort (Port c))
  else if ((PACPort c <? 0) || (65535 <? PACPort c))%Z then Some (ErrPACPort (PACPort c))
  else if negb (PACPort c =? 0)%Z && (PACPort c =? Port c)%Z then Some ErrSamePort
  else match validateRules (Proxy c) with
       | Some e => Some (ErrProxyRules e)
       | None =>
           match validateRules (Direct c) with
           | Some e => Some (ErrDirectRules e)
           | None =>
               if String.eqb (cMode c) ModeInclude && bool_decide (normalizeDomains (Proxy c) = [])
               then Some ErrNoProxyRule else None
           end
       end.

(** ** The INI format *)

Inductive line_error :=
  | MalformedHeader
  | UnknownSection (name : string)
  | OutsideSection
  | ExpectedKeyValue
  | UnknownKey (key : string)
  | InvalidMode (v : string)
  | InvalidPort (v : string)
  | InvalidPACPort (v : string)
  | InvalidBypass (v : string)
  | RuleEntry (e : rule_error).

Inductive ini_error :=
  | ErrLine (lineNo : Z) (raw : string) (why : line_error)
  | ErrTooLong
  | ErrMissingMode.

Definition iniSections : list string := ["settings"; "proxy"; "direct"].
Definition iniSettingsKeys : list string :=
  ["mode"; "host"; "port"; "service"; "pac_port"; "bypass_plain_hostnames"].

Definition is_comment_byte (c : ascii) : bool := Ascii.eqb c "#" || Ascii.eqb c ";".
Definition stripIniComment (line : string) : string := before_byte is_comment_byte line.

(** The first line that is neither blank nor a comment decides. *)
Definition looksLikeINI (data : string) : bool :=
  let lines := (λ l, TrimSpace (stripIniComment l)) <$> fst (scan_lines MaxScanTokenSize data) in
  match filter (λ l, l ≠ "") lines with
  | [] => false
  | l :: _ => HasPrefix l "[" && HasSuffix l "]"
  end.

Definition validateRuleEntrySyntax (entry : string) : option rule_error :=
  if Contains entry "/" then cidr_error entry entry else None.

(** The variables of [ParseINI]. *)
Record ParseState := {
  cfg : Config;
  haveMode : bool;
  haveBypass : bool;
  section : string
}.

Definition with_cfg (c : Config) (st : ParseState) : ParseState :=
  {| cfg := c; haveMode := haveMode st; haveBypass := haveBypass st; section := section st |}.

(** One [key = value] of the [settings] section. *)
Definition parse_setting (st : ParseState) (key val : string) : result line_error ParseState :=
  let c := cfg st in
  if String.eqb key "mode" then
    let m := ToLower val in
    if bool_decide (m ∈ modes)
    then Ok {| cfg := set_mode m c; haveMode := true; haveBypass := haveBypass st; section := section st |}
    else Err (InvalidMode val)
  else if String.eqb key "host" then Ok (with_cfg (set_host val c) st)
  else if String.eqb key "port" then
    match Atoi val with Some p => Ok (with_cfg (set_port p c) st) | None => Err (InvalidPort val) end
  else if String.eqb key "service" then Ok (with_cfg (set_service val c) st)
  else if String.eqb key "pac_port" then
    match Atoi val with Some p => Ok (with_cfg (set_pac_port p c) st) | None => Err (InvalidPACPort val) end
  else match ParseBool val with
       | Some b => Ok {| cfg := set_bypass b c; haveMode := haveMode st; haveBypass := true;
                         section := section st |}
       | None => Err (InvalidBypass val)
       end.

Definition parse_line (st : ParseState) (raw : string) : result line_error ParseState :=
  let line := TrimSpace (stripIniComment raw) in
  if String.eqb line "" then Ok st
  else if HasPrefix line "[" then
    if negb (HasSuffix line "]") then Err MalformedHeader else
    let name := ToLower (TrimSpace (String.substring 1 (String.length line - 2) line)) in
    if bool_decide (name ∈ iniSections)
    then Ok {| cfg := cfg st; haveMode := haveMode st; haveBypass := haveBypass st; section := name |}
    else Err (UnknownSection name)
  else if String.eqb (section st) "" then Err OutsideSection
  else if String.eqb (section st) "settings" then
    match Cut line "=" with
    | None => Err ExpectedKeyValue
    | Some (key, val) =>
        let key := ToLower (TrimSpace key) in
        let val := TrimSpace val in
        if bool_decide (key ∈ iniSettingsKeys) then parse_setting st key val else Err (UnknownKey key)
    end
  else match validateRuleEntrySyntax line with
       | Some e => Err (RuleEntry e)
       | None =>
           Ok (with_cfg (if String.eqb (section st) "proxy"
                         then set_proxy (Proxy (cfg st) ++ [line]) (cfg st)
                         else set_direct (Direct (cfg st) ++ [line]) (cfg st)) st)
       end.

Fixpoint parse_lines (lineNo : Z) (st : ParseState) (ls : list string) : result ini_error ParseState :=
  match ls with
  | [] => Ok st
  | l :: ls =>
      match parse_line st l with
      | Err why => Err (ErrLine lineNo (TrimSpace l) why)
      | Ok st => parse_lines (lineNo + 1) st ls
      end
  end.

Definition parse_start : ParseState :=
  {| cfg := zero_config; haveMode := false; haveBypass := false; section := "" |}.

Definition ParseINI (data : string) : result ini_error Config :=
  let '(ls, too_long) := scan_lines MaxScanTokenSize data in
  let? st := parse_lines 1 parse_start ls in
  if too_long then Err ErrTooLong
  else if negb (haveMode st) then Err ErrMissingMode
  else Ok (if haveBypass st then cfg st else set_bypass true (cfg st)).

(** A section of rules: nothing for an empty list. *)
Definition ini_rules (header : string) (rules : list string) : string :=
  if bool_decide (rules = []) then ""
  else nl +:+ header +:+ nl +:+
    foldr (λ e acc, (if String.eqb (TrimSpace e) "" then "" else TrimSpace e +:+ nl) +:+ acc) "" rules.

Definition INI (c : Config) : string :=
  "[settings]" +:+ nl +:+
  "mode = " +:+ cMode c +:+ nl +:+
  "host = " +:+ Host c +:+ nl +:+
  "port = " +:+ Itoa (Port c) +:+ nl +:+
  "service = " +:+ Service c +:+ nl +:+
  "pac_port = " +:+ Itoa (PACPort c) +:+ nl +:+
  "bypass_plain_hostnames = " +:+ Btoa (BypassPlainHostnames c) +:+ nl +:+
  ini_rules "[proxy]" (Proxy c) +:+ ini_rules "[direct]" (Direct c).

(** ** Imports *)

Record yamlConfig := { yConfig : Config; Domains : list string; RUDomains : list string }.

Section yaml.
Context {E : Type} (unmarshal : string → result E yamlConfig).

Definition ParseConfigYAML (data : string) : result E Config :=
  let? y := unmarshal data in
  let c := yConfig y in
  Ok (set_proxy (if bool_decide (Proxy c = []) then Domains y else Proxy c)
       (set_direct (if bool_decide (Direct c = []) then RUDomains y else Direct c) c)).

Definition is_list_space (c : ascii) : bool :=
  Ascii.eqb c " " || Ascii.eqb c TAB || Ascii.eqb c CR.

Definition ParseDomainList (data : string) : list string :=
  dedup_from [] (filter (λ l, l ≠ "")
    ((λ raw, ToLower (str_filter (λ c, negb (is_list_space c)) (before_byte (Ascii.eqb "#") raw)))
       <$> split_byte LF data)).

Inductive import_error := ImportINI (e : ini_error) | ImportYAML (e : E) | ImportEmpty.

Definition DecodeImport (data : string) : result import_error (Config * bool) :=
  if looksLikeINI data then
    match ParseINI data with Err e => Err (ImportINI e) | Ok c => Ok (c, true) end
  else
    let y := ParseConfigYAML data in
    match y with
    | Ok c =>
        if negb (String.eqb (cMode c) "") then Ok (c, true)
        else match ParseDomainList data with
             | [] => Err ImportEmpty
             | ds => Ok (set_proxy ds zero_config, false)
             end
    | Err e =>
        match ParseDomainList data with
        | [] => Err (ImportYAML e)
        | ds => Ok (set_proxy ds zero_config, false)
        end
    end.
End yaml.

Definition ApplyImport (base imported : Config) (full : bool) : Config :=
  if full then imported else set_proxy (Proxy imported) base.

End unicode.

(** ** The INI round trip *)

#[local] Arguments String.append !_ _ / : simpl nomatch.

(** A text that survives a line of the format: trimmed, and without a line
    ending or the start of a comment. *)
Definition plain_byte (c : ascii) : bool :=
  negb (Ascii.eqb c LF || Ascii.eqb c CR || is_comment_byte c).
Definition plain (s : string) : bool := str_forallb plain_byte s.
Definition clean (s : string) : bool := plain s && String.eqb (TrimSpace s) s.

Section unicode.
Context `{GoUnicode}.

Definition clean_rule (e : string) : bool :=
  clean e && negb (String.eqb e "") && negb (HasPrefix e "[") &&
  bool_decide (validateRuleEntrySyntax e = None).

(** The lines of the text. *)
Definition rule_lines (header : string) (rules : list string) : list string :=
  match rules with [] => [] | _ => "" :: header :: rules end.

Definition setting_lines (c : Config) : list string := [
  "mode" +:+ " = " +:+ cMode c; "host" +:+ " = " +:+ Host c; "port" +:+ " = " +:+ Itoa (Port c);
  "service" +:+ " = " +:+ Service c; "pac_port" +:+ " = " +:+ Itoa (PACPort c);
  "bypass_plain_hostnames" +:+ " = " +:+ Btoa (BypassPlainHostnames c)].

Definition ini_lines (c : Config) : list string :=
  "[settings]" :: setting_lines c ++ rule_lines "[proxy]" (Proxy c) ++ rule_lines "[direct]" (Direct c).

(** What a configuration needs to survive: a mode, clean fields, 64-bit ports,
    clean rules, and lines that fit the scanner. *)
Definition ini_clean (c : Config) : Prop :=
  cMode c ∈ modes ∧ clean (Host c) = true ∧ clean (Service c) = true ∧
  is_Some (in_int64 (Port c)) ∧ is_Some (in_int64 (PACPort c)) ∧
  Forall (λ e, clean_rule e = true) (Proxy c) ∧ Forall (λ e, clean_rule e = true) (Direct c) ∧
  Forall (λ l, (slen l < MaxScanTokenSize)%Z) (ini_lines c).

(** *** Lines *)

Definition unlines (ls : list string) : string := foldr (λ l acc, l +:+ nl +:+ acc) "" ls.

Lemma unlines_app l k : unlines (l ++ k) = unlines l +:+ unlines k.
Proof. induction l as [|x l IH]; simpl; [done|]. by rewrite IH, !app_assoc_str. Qed.

Lemma split_lines_line l rest :
  plain l = true → split_lines (l +:+ String LF rest) = l :: split_lines rest.
Proof.
  unfold plain. induction l as [|c l IH]; [done|]. simpl str_forallb. intros [Hc Hl]%andb_true_iff.
  simpl.
  destruct (Ascii.eqb c LF) eqn:He; [by unfold plain_byte in Hc; rewrite He in Hc|].
  by rewrite IH.
Qed.

Lemma split_lines_unlines ls : Forall (λ l, plain l = true) ls → split_lines (unlines ls) = ls.
Proof.
  induction 1 as [|l ls Hl _ IH]; [done|]. simpl. by rewrite split_lines_line, IH.
Qed.

Lemma drop_cr_plain l : plain l = true → drop_cr l = l.
Proof.
  unfold plain. induction l as [|c l IH]; [done|]. simpl. intros [Hc Hl]%andb_true_iff.
  destruct (Ascii.eqb c CR) eqn:He; simpl.
  - unfold plain_byte in Hc. rewrite He, orb_true_r in Hc. done.
  - by rewrite IH.
Qed.

Lemma scan_lines_unlines max ls :
  Forall (λ l, plain l = true ∧ (slen l < max)%Z) ls → scan_lines max (unlines ls) = (ls, false).
Proof.
  intros Hls. unfold scan_lines. rewrite split_lines_unlines by (eapply Forall_impl; [exact Hls|by intros ? []]).
  induction Hls as [|l ls [Hp Hl] _ IH]; [done|]. simpl.
  rewrite (proj2 (Z.ltb_lt _ _) Hl), IH, drop_cr_plain; done.
Qed.

Lemma strip_plain l : plain l = true → stripIniComment l = l.
Proof.
  unfold plain, stripIniComment. induction l as [|c l IH]; [done|]. simpl. intros [Hc Hl]%andb_true_iff.
  destruct (is_comment_byte c) eqn:He; [|by rewrite IH].
  unfold plain_byte in Hc. rewrite He, orb_true_r in Hc. done.
Qed.

Lemma plain_app a b : plain (a +:+ b) = plain a && plain b.
Proof. apply str_forallb_app. Qed.

(** *** Trimming *)

Lemma ascii_byte_cases c : is_ascii_byte c = true → (byte_val c < 128)%N.
Proof. apply N.ltb_lt. Qed.

Ltac space_false :=
  unfold space2, space3; cbv zeta;
  repeat match goal with
  | |- (_ || _) = false => apply orb_false_iff; split
  | |- (?a && ?b) = false => apply andb_false_iff; first [left; solve [space_false] | right; solve [space_false]]
  | |- (_ =? _)%N = false => apply N.eqb_neq; lia
  | |- (_ <=? _)%N = false => apply N.leb_gt; lia
  end.

(** An ASCII byte is no part of a longer white-space character. *)
Lemma cut_space_rev_ascii a b c s :
  is_ascii_byte c = true → cut_space_rev (String a (String b "")) = None →
  ascii_space a = false → cut_space_rev (String a (String b (String c s))) = None.
Proof.
  intros Hc%ascii_byte_cases H1 Ha. unfold cut_space_rev in *. rewrite Ha in *.
  destruct (space2 b a); [done|].
  assert (space3 c b a = false) as ->; [|done].
  space_false.
Qed.

Lemma cut_space_rev_one a b s :
  ascii_space a = false → is_ascii_byte b = true → cut_space_rev (String a (String b s)) = None.
Proof.
  intros Ha Hb%ascii_byte_cases. unfold cut_space_rev. rewrite Ha.
  assert (space2 b a = false) as ->.
  { space_false. }
  destruct s as [|c s]; [done|]. assert (space3 c b a = false) as ->; [|done].
  space_false.
Qed.

(** A trimmed text stays trimmed behind an ASCII byte. *)
Lemma TrimRightSpace_behind s d t :
  is_ascii_byte d = true → t ≠ "" → TrimRightSpace t = t →
  TrimRightSpace (s +:+ String d t) = s +:+ String d t.
Proof.
  intros Hd Hne Ht. pose proof (TrimRightSpace_fixed _ Ht Hne) as Hcut.
  apply TrimRightSpace_stop. rewrite srev_app, srev_cons, app_assoc_str.
  change (String d "" +:+ srev s) with (String d (srev s)).
  assert (srev t ≠ "") as Hrne by (intros Hr; apply Hne; by rewrite <- (srev_srev t), Hr).
  destruct (srev t) as [|a [|b [|c r]]] eqn:Hr; [done| | |].
  - apply cut_space_rev_one; [|done]. unfold cut_space_rev in Hcut. by destruct (ascii_space a).
  - apply cut_space_rev_ascii; [done|done|]. unfold cut_space_rev in Hcut. by destruct (ascii_space a).
  - apply (cut_space_rev_app (String a (String b (String c r)))); [simpl; lia|done].
Qed.

Lemma TrimRightSpace_ascii s c :
  is_ascii_byte c = true → ascii_space c = false → TrimRightSpace (s +:+ String c "") = s +:+ String c "".
Proof.
  intros Hc%ascii_byte_cases Hs. apply TrimRightSpace_stop. rewrite srev_app. simpl.
  unfold cut_space_rev. rewrite Hs. destruct (srev s) as [|b r]; [done|].
  assert (space2 b c = false) as ->.
  { space_false. }
  destruct r as [|d r]; [done|]. assert (space3 d b c = false) as ->; [|done].
  space_false.
Qed.

(** *** One line *)

Lemma Cut_eq a b :
  str_forallb (λ c, negb (Ascii.eqb "=" c)) a = true → Cut (a +:+ String "=" b) "=" = Some (a, b).
Proof.
  induction a as [|c a IH]; [done|]. cbn [str_forallb]. intros [Hc%negb_true_iff Ha]%andb_true_iff.
  change (String c a +:+ String "=" b) with (String c (a +:+ String "=" b)).
  cbn [Cut CutPrefix]. by rewrite Hc, IH.
Qed.

(** A name the format uses for a key. *)
Definition key_ok (k : string) : bool :=
  match k with
  | String c _ => is_word_byte c && plain k && str_forallb (λ c, negb (Ascii.eqb "=" c)) k &&
                  String.eqb (ToLower (TrimSpace (k +:+ " "))) k && bool_decide (k ∈ iniSettingsKeys)
  | "" => false
  end.

Lemma clean_split v : clean v = true → plain v = true ∧ TrimSpace v = v.
Proof. unfold clean. intros [Hp Ht]%andb_true_iff. apply String.eqb_eq in Ht. by split. Qed.

(** What is left of the line after trimming: the key, a space, the equals sign
    and a rest that trims to the value. *)
Lemma trimmed_setting c k v :
  is_word_byte c = true → TrimSpace v = v →
  ∃ w, TrimSpace (String c k +:+ " = " +:+ v) = (String c k +:+ " ") +:+ String "=" w ∧ TrimSpace w = v.
Proof.
  intros Hc Hv. destruct (TrimSpace_fixed _ Hv) as [Hl Hr].
  change (String c k +:+ " = " +:+ v) with (String c (k +:+ " = " +:+ v)).
  unfold TrimSpace at 1. rewrite (TrimLeftSpace_word c (k +:+ " = " +:+ v) Hc).
  destruct (decide (v = "")) as [->|Hne].
  - exists "". split; [|done].
    change (String c (k +:+ " = " +:+ "")) with (String c k +:+ " =" +:+ String " " "").
    rewrite <- app_assoc_str, TrimRightSpace_snoc by done.
    replace (String c k +:+ " =") with ((String c k +:+ " ") +:+ String "=" "") by (by rewrite app_assoc_str).
    by apply TrimRightSpace_ascii.
  - exists (String " " v). split.
    + replace (String c (k +:+ " = " +:+ v)) with ((String c k +:+ " =") +:+ String " " v)
        by (by rewrite app_assoc_str).
      rewrite TrimRightSpace_behind by done. by rewrite !app_assoc_str.
    + unfold TrimSpace. change (TrimLeftSpace (String " " v)) with (TrimLeftSpace v). by rewrite Hl.
Qed.

(** The settings line of a clean value is read back as the key and the value. *)
Lemma parse_setting_line st k v :
  key_ok k = true → clean v = true → section st = "settings" →
  parse_line st (k +:+ " = " +:+ v) = parse_setting st k v.
Proof.
  destruct k as [|c k']; [done|]. unfold key_ok. rewrite !andb_true_iff.
  intros [[[[Hw Hkp] Hne] Hlow%String.eqb_eq] Hin%bool_decide_eq_true] [Hvp Hv]%clean_split Hs.
  destruct (trimmed_setting c k' v Hw Hv) as (w & Ht & Hwv).
  unfold parse_line. rewrite strip_plain by (rewrite !plain_app, Hkp, Hvp; done).
  rewrite Ht, Hs.
  change (String.eqb ((String c k' +:+ " ") +:+ String "=" w) "") with false.
  assert (HasPrefix ((String c k' +:+ " ") +:+ String "=" w) "[" = false) as ->.
  { unfold HasPrefix. cbn [String.append CutPrefix]. destruct (Ascii.eqb_spec "[" c) as [<-|]; done. }
  cbv iota. change (String.eqb "settings" "") with false. change (String.eqb "settings" "settings") with true.
  cbv iota. rewrite Cut_eq by (rewrite str_forallb_app, Hne; done).
  rewrite Hlow, Hwv, bool_decide_eq_true_2; done.
Qed.

Lemma parse_rule_line st e :
  clean_rule e = true → section st = "proxy" ∨ section st = "direct" →
  parse_line st e = Ok (with_cfg (if String.eqb (section st) "proxy"
                                  then set_proxy (Proxy (cfg st) ++ [e]) (cfg st)
                                  else set_direct (Direct (cfg st) ++ [e]) (cfg st)) st).
Proof.
  unfold clean_rule. rewrite !andb_true_iff.
  intros [[[[Hp Ht]%clean_split Hne%negb_true_iff] Hb%negb_true_iff] Hr%bool_decide_eq_true] Hs.
  unfold parse_line. rewrite strip_plain, Ht, Hne, Hb, Hr by done.
  by destruct Hs as [-> | ->].
Qed.

(** *** The whole text *)

Lemma clean_rule_split e : clean_rule e = true → plain e = true ∧ TrimSpace e = e ∧ e ≠ "".
Proof.
  unfold clean_rule. rewrite !andb_true_iff. intros [[[[Hp Ht]%clean_split Hne%negb_true_iff] _] _].
  split_and!; [done..|]. by apply String.eqb_neq.
Qed.

Lemma unlines_rules rules :
  Forall (λ e, clean_rule e = true) rules →
  foldr (λ e acc, (if String.eqb (TrimSpace e) "" then "" else TrimSpace e +:+ nl) +:+ acc) "" rules =
  unlines rules.
Proof.
  induction 1 as [|e rules (Hp & Ht & Hne%String.eqb_neq)%clean_rule_split _ IH]; [done|].
  cbn [foldr unlines]. by rewrite Ht, Hne, IH, app_assoc_str.
Qed.

Lemma ini_rules_lines h rules :
  Forall (λ e, clean_rule e = true) rules → ini_rules h rules = unlines (rule_lines h rules).
Proof.
  intros Hr. unfold ini_rules. rewrite unlines_rules by done. by destruct rules.
Qed.

Lemma INI_lines c : ini_clean c → INI c = unlines (ini_lines c).
Proof.
  intros (_ & _ & _ & _ & _ & Hp & Hd & _). unfold INI, ini_lines.
  rewrite !ini_rules_lines, <- unlines_app by done. unfold setting_lines. simpl app.
  cbn [unlines foldr]. reflexivity.
Qed.

Lemma plain_digits z : plain (Itoa z) = true.
Proof.
  apply Itoa_bytes; [|done]. intros c. unfold is_digit, in_range, plain_byte, is_comment_byte.
  rewrite andb_true_iff. intros [Hl Hu]. apply negb_true_iff.
  repeat (apply orb_false_iff; split); apply Ascii.eqb_neq; intros ->; discriminate.
Qed.

Lemma clean_Itoa z : clean (Itoa z) = true.
Proof.
  unfold clean. rewrite plain_digits. simpl. apply String.eqb_eq, TrimSpace_solid, Itoa_bytes; [|done].
  intros c. unfold is_digit, in_range, solid_byte, is_ascii_byte, ascii_space, in_range.
  rewrite andb_true_iff, !N.leb_le. intros [Hl Hu].
  rewrite andb_true_iff, negb_true_iff, orb_false_iff, andb_false_iff, N.ltb_lt, !N.leb_gt, N.eqb_neq. lia.
Qed.

Lemma clean_mode m : m ∈ modes → clean m = true ∧ ToLower m = m.
Proof.
  unfold modes. rewrite !elem_of_cons, elem_of_nil. intros [->|[->|[->|[]]]]; done.
Qed.

Lemma clean_bool b : clean (Btoa b) = true.
Proof. by destruct b. Qed.

(** *** Parsing the lines *)

Lemma parse_lines_app n st ls ks :
  parse_lines n st (ls ++ ks) = let? st' := parse_lines n st ls in parse_lines (n + Z.of_nat (length ls)) st' ks.
Proof.
  revert n st. induction ls as [|l ls IH]; intros n st; simpl; [by rewrite Z.add_0_r|].
  destruct (parse_line st l) as [st'|e]; [|done]. rewrite IH.
  destruct (parse_lines (n + 1) st' ls); simpl; [|done]. f_equal. lia.
Qed.

Definition in_section (name : string) (st : ParseState) : ParseState :=
  {| cfg := cfg st; haveMode := haveMode st; haveBypass := haveBypass st; section := name |}.

Lemma parse_rules n st rules :
  Forall (λ e, clean_rule e = true) rules → section st = "proxy" ∨ section st = "direct" →
  parse_lines n st rules =
  Ok (with_cfg (if String.eqb (section st) "proxy" then set_proxy (Proxy (cfg st) ++ rules) (cfg st)
                else set_direct (Direct (cfg st) ++ rules) (cfg st)) st).
Proof.
  intros Hr. revert n st. induction Hr as [|e rules He _ IH]; intros n st Hs; simpl.
  - rewrite !app_nil_r. by destruct st as [[] ? ? ?], Hs as [-> | ->].
  - rewrite parse_rule_line by done. rewrite IH by done.
    destruct st as [[] ? ? sec]; simpl in *. destruct Hs as [-> | ->]; simpl; by rewrite <- app_assoc.
Qed.

Lemma parse_rule_section n st name rules :
  Forall (λ e, clean_rule e = true) rules → name = "proxy" ∨ name = "direct" → rules ≠ [] →
  parse_lines n st (rule_lines ("[" +:+ name +:+ "]") rules) =
  Ok (with_cfg (if String.eqb name "proxy" then set_proxy (Proxy (cfg st) ++ rules) (cfg st)
                else set_direct (Direct (cfg st) ++ rules) (cfg st)) (in_section name st)).
Proof.
  intros Hr Hn Hne.
  assert (rule_lines ("[" +:+ name +:+ "]") rules = "" :: ("[" +:+ name +:+ "]") :: rules) as ->
    by (by destruct rules).
  cbn [parse_lines]. change (parse_line st "") with (@Ok line_error _ st). cbv iota.
  assert (parse_line st ("[" +:+ name +:+ "]") = Ok (in_section name st)) as ->
    by (destruct Hn as [-> | ->]; vm_compute; reflexivity).
  cbv iota. rewrite parse_rules by done. done.
Qed.

Lemma setting_keys_ok : Forall (λ k, key_ok k = true) iniSettingsKeys.
Proof. repeat constructor. Qed.

(** The settings of a configuration, in the order they are written. *)
Lemma parse_settings n st c :
  ini_clean c → section st = "settings" →
  parse_lines n st (setting_lines c) =
  Ok {| cfg := set_proxy (Proxy (cfg st)) (set_direct (Direct (cfg st)) c);
        haveMode := true; haveBypass := true; section := "settings" |}.
Proof.
  intros (Hm & Hh & Hs & Hp & Hpp & _) Hsec. pose proof setting_keys_ok as Hk.
  unfold iniSettingsKeys in Hk. rewrite !Forall_cons in Hk. destruct Hk as (K1 & K2 & K3 & K4 & K5 & K6 & _).
  destruct (clean_mode _ Hm) as [Hmc Hml].
  unfold setting_lines. cbn [parse_lines].
  rewrite parse_setting_line by done. unfold parse_setting at 1. rewrite Hml. cbn [String.eqb Ascii.eqb Bool.eqb].
  rewrite (bool_decide_eq_true_2 _ Hm). cbv iota beta.
  rewrite parse_setting_line by done. unfold parse_setting at 1. cbn [String.eqb Ascii.eqb Bool.eqb].
  rewrite parse_setting_line by (done || apply clean_Itoa). unfold parse_setting at 1.
  cbn [String.eqb Ascii.eqb Bool.eqb]. rewrite Atoi_Itoa by done.
  rewrite parse_setting_line by done. unfold parse_setting at 1. cbn [String.eqb Ascii.eqb Bool.eqb].
  rewrite parse_setting_line by (done || apply clean_Itoa). unfold parse_setting at 1.
  cbn [String.eqb Ascii.eqb Bool.eqb]. rewrite Atoi_Itoa by done.
  rewrite parse_setting_line by (done || apply clean_bool). unfold parse_setting at 1.
  cbn [String.eqb Ascii.eqb Bool.eqb].
  destruct c as [? ? ? ? ? b ? ?]; destruct b; by destruct st as [[] ? ? ?]; simpl in *; subst.
Qed.

Lemma plain_ini_lines c : ini_clean c → Forall (λ l, plain l = true) (ini_lines c).
Proof.
  intros ([Hm%clean_split _]%clean_mode & Hh%clean_split & Hs%clean_split & _ & _ & Hp & Hd & _).
  assert (∀ h rules, plain h = true → Forall (λ e, clean_rule e = true) rules →
    Forall (λ l, plain l = true) (rule_lines h rules)) as Hrl.
  { intros h rules Hh' Hr. unfold rule_lines. destruct rules; [constructor|].
    do 2 (constructor; [done|]). eapply Forall_impl; [exact Hr|]. by intros e (? & _)%clean_rule_split. }
  unfold ini_lines. constructor; [done|]. rewrite !Forall_app.
  split_and!; [|by apply Hrl|by apply Hrl].
  pose proof (proj1 (clean_split _ (clean_bool (BypassPlainHostnames c)))) as Hb.
  unfold setting_lines.
  repeat constructor; rewrite !plain_app, ?plain_digits, ?Hb, ?(proj1 Hm), ?(proj1 Hh), ?(proj1 Hs); done.
Qed.

Lemma scan_INI c : ini_clean c → scan_lines MaxScanTokenSize (INI c) = (ini_lines c, false).
Proof.
  intros Hc. rewrite INI_lines by done. apply scan_lines_unlines, Forall_and.
  split; [by apply plain_ini_lines|apply Hc].
Qed.

Lemma parse_rule_section_any n st name rules :
  Forall (λ e, clean_rule e = true) rules → name = "proxy" ∨ name = "direct" →
  ∃ st', parse_lines n st (rule_lines ("[" +:+ name +:+ "]") rules) = Ok st' ∧
    haveMode st' = haveMode st ∧ haveBypass st' = haveBypass st ∧
    cfg st' = if String.eqb name "proxy" then set_proxy (Proxy (cfg st) ++ rules) (cfg st)
              else set_direct (Direct (cfg st) ++ rules) (cfg st).
Proof.
  intros Hr Hn. destruct (decide (rules = [])) as [->|Hne].
  - exists st. rewrite !app_nil_r. split_and!; [done..|]. by destruct st as [[] ? ? ?], Hn as [-> | ->].
  - eexists. split; [by apply parse_rule_section|]. done.
Qed.

Lemma INI_parses (c : Config) : ini_clean c → ParseINI (INI c) = Ok c.
Proof.
  intros Hc. unfold ParseINI. rewrite scan_INI by done. unfold ini_lines. cbn [parse_lines].
  change (parse_line parse_start "[settings]") with (@Ok line_error _ (in_section "settings" parse_start)).
  cbv iota. rewrite parse_lines_app, parse_settings by done. cbn [rbind]. rewrite parse_lines_app.
  pose proof Hc as (_ & _ & _ & _ & _ & Hp & Hd & _).
  match goal with |- context [parse_lines ?n ?st (rule_lines "[proxy]" _)] =>
    destruct (parse_rule_section_any n st "proxy" _ Hp (or_introl eq_refl)) as (st1 & H1 & Hm1 & Hb1 & Hc1) end.
  change ("[" +:+ "proxy" +:+ "]") with "[proxy]" in H1. rewrite H1. cbn [rbind].
  match goal with |- context [parse_lines ?n st1 (rule_lines "[direct]" _)] =>
    destruct (parse_rule_section_any n st1 "direct" _ Hd (or_intror eq_refl)) as (st2 & H2 & Hm2 & Hb2 & Hc2) end.
  change ("[" +:+ "direct" +:+ "]") with "[direct]" in H2. rewrite H2. cbn [rbind].
  rewrite Hm2, Hm1, Hb2, Hb1. simpl. f_equal. rewrite Hc2. simpl. rewrite Hc1. by destruct c.
Qed.

(** The persisted form of a configuration reads back as the configuration:
    written as INI, a configuration with a mode, clean fields and rules and
    64-bit ports is parsed to itself, and an import of that text, whatever
    the YAML decoder does, replaces the whole configuration by it. *)
Theorem ini_roundtrip {E : Type} (unmarshal : string → result E yamlConfig) (c : Config) :
  ini_clean c →
  ParseINI (INI c) = Ok c ∧ DecodeImport unmarshal (INI c) = Ok (c, true).
Proof.
  intros Hc. pose proof (INI_parses c Hc) as Hparse.
  split; [done|]. unfold DecodeImport, looksLikeINI. rewrite scan_INI, Hparse by done. done.
Qed.

End unicode.

(** *** Concrete configurations *)

#[local] Existing Instance ascii_only.

Lemma ini_roundtrip_witness :
  ini_clean DefaultConfig ∧ ParseINI (INI DefaultConfig) = Ok DefaultConfig.
Proof.
  assert (ini_clean DefaultConfig) as Hc by (unfold ini_clean; split_and!;
    [left|vm_compute; reflexivity|vm_compute; reflexivity|eexists; reflexivity|eexists; reflexivity
    |constructor|repeat constructor|repeat constructor]).
  split; [exact Hc|]. apply (ini_roundtrip (λ _, Err tt) DefaultConfig Hc).
Defined.

(** A network service whose name holds a comment character is accepted, but
    comes back from its persisted form as another service; a rule that starts
    like a section header makes the whole persisted text unreadable. *)
Theorem persisted_service_truncated :
  let c := set_mode ModeInclude (set_proxy ["openai.com"] (set_service "Dock #2" DefaultConfig)) in
  let d := set_proxy ["[openai.com"] c in
  Validate c = None ∧ (Service <$> match ParseINI (INI c) with Ok c' => Some c' | Err _ => None end) = Some "Dock" ∧
  Validate d = None ∧ ParseINI (INI d) = Err (ErrLine 10 "[openai.com" MalformedHeader).
Proof. vm_compute. split_and!; reflexivity. Qed.

End SysConfig.
