(* ===== verification/SysPac.v ===== *)
(** * SysPac: the proxy auto-configuration script
    ([internal/sysproxy/pac.go])

    The rules are classified into domains, globs and IPv4 networks.  A script
    is a list of statements ([Stmt]): [print_pac] is the text the generators
    write, and [find_proxy] is what that text does in a browser: a JavaScript
    object literal also answers for the lower-case properties it inherits,
    [constructor] and [__proto__].  The browser's [shExpMatch] and [isInNet]
    are the class [PacBuiltins] and its laws their documentation.  Quoting of
    text outside ASCII, the patterns of [path.Match] beyond [*] and the case
    tables are Unicode or library code and stay parameters. *)

From S2P Require Import Prelude GoStr GoNet SysConfig.
Import SysConfig.

Local Open Scope string_scope.
Local Open Scope list_scope.

Module SysPac.

(** ** Library functions *)

Class GoText := {
  match_special : string → string → bool    (* path.Match with ?, [ or \ in the pattern *)
}.

(** [fmt.Sprintf("%-*s", w, s)] *)
Definition pad_right (w : nat) (s : string) : string :=
  s +:+ (fix sp n := match n with O => "" | S n => String " " (sp n) end) (w - String.length s)%nat.

(** [IP.String] of an address that is not IPv4: the longest run of zero groups,
    the first of them, is abbreviated. *)
Fixpoint ip_groups (ip : IP) : list Z :=
  match ip with a :: b :: ip => (a * 256 + b)%Z :: ip_groups ip | _ => [] end.

Fixpoint hex_of (fuel : nat) (n : N) (acc : string) : string :=
  match fuel with
  | O => acc
  | S f => let acc := String (hex_char (n mod 16)) acc in
           if (n / 16 =? 0)%N then acc else hex_of f (n / 16) acc
  end.

Fixpoint zero_run (gs : list Z) : nat :=
  match gs with 0%Z :: gs => S (zero_run gs) | _ => 0 end.

(** The start and length of the longest run of at least two zero groups. *)
Fixpoint longest_zeros (i : nat) (gs : list Z) (best : nat * nat) : nat * nat :=
  match gs with
  | [] => best
  | g :: gs' =>
      let n := zero_run gs in
      longest_zeros (S i) gs' (if (snd best <? n)%nat && (1 <? n)%nat then (i, n) else best)
  end.

Definition ip6_string (ip : IP) : string :=
  let gs := ip_groups ip in
  let show := λ gs, Join ":" ((λ g, hex_of 4 (Z.to_N g) "") <$> gs) in
  let '(i, n) := longest_zeros 0 gs (0, 0)%nat in
  if (n =? 0)%nat then show gs else show (take i gs) +:+ "::" +:+ show (drop (i + n) gs).

Definition IP_String (ip : IP) : string :=
  match To4 ip with Some q => ip4_string q | None => ip6_string ip end.

(** [m] holds of a tail of [s] that is reached over bytes with [ok]. *)
Fixpoint any_tail (ok : ascii → bool) (m : string → bool) (s : string) : bool :=
  m s || match s with "" => false | String d s' => ok d && any_tail ok m s' end.

(** A pattern whose only special byte is [*], which matches a slash or not. *)
Fixpoint star_match (slash : bool) (p s : string) : bool :=
  match p with
  | "" => String.eqb s ""
  | String c p' =>
      if Ascii.eqb c "*" then
        any_tail (λ d, slash || negb (Ascii.eqb d "/")) (star_match slash p') s
      else match s with "" => false | String d s' => Ascii.eqb c d && star_match slash p' s' end
  end.

Definition special_byte (c : ascii) : bool :=
  Ascii.eqb c "?" || Ascii.eqb c "[" || Ascii.eqb c "\".

Definition globMatch `{GoText} (pattern s : string) : bool :=
  if str_forallb (λ c, negb (special_byte c)) pattern then star_match false pattern s
  else match_special pattern s.

(** ** Rules *)

Record Classified := {
  domains : list string;
  globs : list string;
  nets : list (string * IPNet)     (* cidrs and nets, in parallel *)
}.

Section rules.
Context `{GoUnicode, GoQuote, GoText}.

Definition normalized (rules : list string) : list string :=
  filter (λ e, e ≠ "") ((λ raw, ToLower (TrimSpace raw)) <$> rules).

Definition cidr_net (e : string) : option (string * IPNet) :=
  n ← ParseCIDR e; _ ← To4 (net_ip n); Some (e, n).

Definition classifyRules (rules : list string) : Classified :=
  let es := normalized rules in {|
  domains := dedup_from [] (filter (λ e, Contains e "/" = false ∧ Contains e "*" = false) es);
  globs := filter (λ e, Contains e "/" = false ∧ Contains e "*" = true) es;
  nets := omap cidr_net (filter (λ e, Contains e "/" = true) es) |}.

(** The tails of a host after each of its dots. *)
Fixpoint dot_suffixes (host : string) : list string :=
  match host with
  | "" => []
  | String c s => if Ascii.eqb c "." then s :: dot_suffixes s else dot_suffixes s
  end.

Definition matchesDomainSuffix (ds : list string) (host : string) : bool :=
  existsb (λ s, bool_decide (s ∈ ds)) (host :: dot_suffixes host).

Definition glob_hit (g host : string) : bool :=
  globMatch g host || (String.eqb g "*.ru" && String.eqb host "ru").

Definition matchesRuleSet (rules : list string) (host : string) : bool :=
  let c := classifyRules rules in
  matchesDomainSuffix (domains c) host ||
  existsb (λ g, glob_hit g host) (globs c) ||
  match ParseIP host with
  | Some ip => existsb (λ n, net_contains (snd n) ip) (nets c)
  | None => false
  end.

Definition MatchesIncludeProxy (cfg : Config) (host : string) : bool :=
  matchesRuleSet (Proxy cfg) (ToLower (TrimSpace host)).

Definition MatchesExcludeDirect (cfg : Config) (host : string) : bool :=
  let host := ToLower (TrimSpace host) in
  if matchesRuleSet (Proxy cfg) host then false
  else if BypassPlainHostnames cfg && negb (Contains host ".") then true
  else matchesRuleSet (Direct cfg) host.

(** [bypassDomainsFor] of [manager.go]. *)
Definition bypassDomainsFor (direct : list string) : list string :=
  let c := classifyRules direct in domains c ++ globs c.

(** ** The script *)

(** A variable of the script: [PROXY] or [DIRECT]. *)
Inductive Ret := RetProxy | RetDirect.

Record Row := { netText : string; maskText : string; comment : string }.

Inductive Stmt :=
  | Note (text : string)                           (* a comment or an empty line *)
  | NetChecks (rows : list Row) (ret : Ret)        (* behind the IPv4-literal guard *)
  | GlobCheck (g : string) (ret : Ret)
  | PlainCheck                                     (* isPlainHostName: DIRECT *)
  | DomainBlock (varName : string) (ds : list string) (ret : Ret).

Record Pac := {
  header : list string;
  directive : string;
  declares_direct : bool;
  body : list Stmt;
  final : Ret
}.

Definition dottedMask (m : IP) : string := IP_String m.

Definition cidrAnnotation (cidr : string) : string :=
  if String.eqb cidr "100.64.0.0/10" then " // CGNAT"
  else if String.eqb cidr "169.254.0.0/16" then " // link-local" else "".

Definition cidr_row (cn : string * IPNet) : Row := {|
  netText := IP_String (net_ip (snd cn));
  maskText := dottedMask (net_mask (snd cn));
  comment := cidrAnnotation (fst cn) |}.

(** The checks of one rule list. *)
Definition net_stmts (c : Classified) (ret : Ret) : list Stmt :=
  match nets c with [] => [] | ns => [NetChecks (cidr_row <$> ns) ret] end.
Definition glob_stmts (c : Classified) (ret : Ret) : list Stmt := (λ g, GlobCheck g ret) <$> globs c.
Definition domain_stmts (v : string) (c : Classified) (ret : Ret) : list Stmt :=
  match domains c with [] => [] | ds => [DomainBlock v ds ret] end.

Definition include_pac (proxyRules : list string) (proxyDirective : string) : Pac :=
  let c := classifyRules proxyRules in {|
  header := ["// Auto-generated by singctl (internal/sysproxy) — DO NOT EDIT BY HAND.";
             "// Include-mode: only the listed domains (and subdomains) use the proxy."];
  directive := proxyDirective; declares_direct := false;
  body := net_stmts c RetProxy ++ glob_stmts c RetProxy ++ domain_stmts "D" c RetProxy;
  final := RetDirect |}.

(** A numbered group of the exclude script, with its comment, unless empty. *)
Definition group (note : string) (ss : list Stmt) : list Stmt :=
  match ss with [] => [] | _ => Note "" :: Note note :: ss end.

Definition exclude_pac (proxyRules directRules : list string) (proxyDirective : string)
    (bypassPlainHostnames : bool) : Pac :=
  let p := classifyRules proxyRules in
  let d := classifyRules directRules in {|
  header := ["// Auto-generated by singctl (internal/sysproxy) — DO NOT EDIT BY HAND.";
             "// Exclude-mode: proxy everything EXCEPT the [direct] rules below (plus the";
             "// built-in bare-hostname rule, if enabled). [proxy] rules are checked FIRST";
             "// and always win, even over a [direct] match."];
  directive := proxyDirective; declares_direct := true;
  body :=
    group "    // 0) Explicit [proxy] override — wins over every DIRECT rule below."
      (net_stmts p RetProxy ++ glob_stmts p RetProxy ++ domain_stmts "P" p RetProxy) ++
    (if bypassPlainHostnames
     then group "    // 1) Bare/simple hostnames (no dots) — e.g. intranet shortcuts." [PlainCheck] else []) ++
    group "    // 2) Literal private IPs (guarded so we never trigger a DNS lookup)." (net_stmts d RetDirect) ++
    group "    // 3) Wildcard [direct] rules (shell-glob patterns)." (glob_stmts d RetDirect) ++
    group "    // 4) Domain [direct] rules — match host + subdomains." (domain_stmts "D" d RetDirect) ++
    [Note ""];
  final := RetProxy |}.

(** *** Its text *)

Definition q (s : string) : string := String DQ (s +:+ String DQ "").
Definition ret_name (r : Ret) : string := match r with RetProxy => "PROXY" | RetDirect => "DIRECT" end.

Definition print_row (netW maskW : nat) (ret : Ret) (r : Row) : string :=
  "        if (isInNet(host, " +:+ pad_right netW (Quote (netText r) +:+ ",") +:+
  pad_right maskW (Quote (maskText r) +:+ "))") +:+ "return " +:+ ret_name ret +:+ ";" +:+ comment r +:+ nl.

Definition max_width (l : list string) : nat := foldr (λ s n, Nat.max (String.length s) n) 0%nat l.
Definition concat_str (l : list string) : string := foldr (λ a b, a +:+ b) "" l.

Definition print_domains (varName : string) (ds : list string) (ret : Ret) : string :=
  "    var " +:+ varName +:+ " = {" +:+ nl +:+
  concat_str ((λ d, "        " +:+ Quote d +:+ ": 1," +:+ nl) <$> ds) +:+
  "        " +:+ q "" +:+ ": 0" +:+ nl +:+ "    };" +:+ nl +:+
  "    if (" +:+ varName +:+ "[host]) return " +:+ ret_name ret +:+ ";" +:+ nl +:+
  "    var i = host.indexOf(" +:+ q "." +:+ ");" +:+ nl +:+
  "    while (i >= 0) {" +:+ nl +:+
  "        if (" +:+ varName +:+ "[host.substring(i + 1)]) return " +:+ ret_name ret +:+ ";" +:+ nl +:+
  "        i = host.indexOf(" +:+ q "." +:+ ", i + 1);" +:+ nl +:+
  "    }" +:+ nl.

Definition print_stmt (s : Stmt) : string :=
  match s with
  | Note t => t +:+ nl
  | NetChecks rows ret =>
      let netW := S (max_width ((λ r, Quote (netText r) +:+ ",") <$> rows)) in
      let maskW := S (max_width ((λ r, Quote (maskText r) +:+ "))") <$> rows)) in
      "    if (/^\d+(\.\d+){3}$/.test(host)) {" +:+ nl +:+
      concat_str (print_row netW maskW ret <$> rows) +:+ "    }" +:+ nl
  | GlobCheck g ret =>
      "    if (shExpMatch(host, " +:+ Quote g +:+ ")" +:+
      (if String.eqb g "*.ru" then " || host === " +:+ q "ru" else "") +:+
      ") return " +:+ ret_name ret +:+ ";" +:+ nl
  | PlainCheck => "    if (isPlainHostName(host)) return DIRECT;" +:+ nl
  | DomainBlock v ds ret => print_domains v ds ret
  end.

Definition print_pac (p : Pac) : string :=
  concat_str ((λ l, l +:+ nl) <$> header p) +:+
  "function FindProxyForURL(url, host) {" +:+ nl +:+
  "    host = (" +:+ q "" +:+ " + host).toLowerCase();" +:+ nl +:+
  "    var PROXY = " +:+ Quote (directive p) +:+ ";" +:+ nl +:+
  (if declares_direct p then "    var DIRECT = " +:+ q "DIRECT" +:+ ";" +:+ nl else "") +:+
  concat_str (print_stmt <$> body p) +:+
  "    return " +:+ (match final p with RetProxy => "PROXY" | RetDirect => q "DIRECT" end) +:+ ";" +:+ nl +:+
  "}" +:+ nl.

Definition GenerateIncludePAC (proxyRules : list string) (proxyDirective : string) : string :=
  print_pac (include_pac proxyRules proxyDirective).
Definition GenerateExcludePAC (proxyRules directRules : list string) (proxyDirective : string)
    (bypassPlainHostnames : bool) : string :=
  print_pac (exclude_pac proxyRules directRules proxyDirective bypassPlainHostnames).

(** [GeneratePAC]: the script of a mode; [ModeOff] has none. *)
Definition mode_pac (cfg : Config) : option Pac :=
  if String.eqb (cMode cfg) ModeInclude then Some (include_pac (Proxy cfg) (ProxyDirective cfg))
  else if String.eqb (cMode cfg) ModeExclude
       then Some (exclude_pac (Proxy cfg) (Direct cfg) (ProxyDirective cfg) (BypassPlainHostnames cfg))
  else None.
Definition GeneratePAC (cfg : Config) : option string := print_pac <$> mode_pac cfg.

(** *** What it does *)

Class PacBuiltins := {
  shExpMatch : string → string → bool;
  isInNet : string → string → string → bool
}.

(** What the lower-case name [k] of an object literal with the keys [ds] and
    the empty key bound to 0 answers. *)
Definition js_inherited : list string := ["constructor"; "__proto__"].
Definition js_lookup (ds : list string) (k : string) : bool :=
  bool_decide (k ∈ ds) || bool_decide (k ∈ js_inherited).

(** [/^\d+(\.\d+){3}$/] *)
Definition ipv4_shape (host : string) : bool :=
  let parts := split_byte "." host in
  (length parts =? 4)%nat && forallb (λ p, negb (String.eqb p "") && str_forallb is_digit p) parts.

Section run.
Context `{PacBuiltins}.

Definition run_stmt (host : string) (s : Stmt) : option Ret :=
  let hit (b : bool) ret := if b then Some ret else None in
  match s with
  | Note _ => None
  | NetChecks rows ret =>
      hit (ipv4_shape host && existsb (λ r, isInNet host (netText r) (maskText r)) rows) ret
  | GlobCheck g ret => hit (shExpMatch host g || (String.eqb g "*.ru" && String.eqb host "ru")) ret
  | PlainCheck => hit (negb (Contains host ".")) RetDirect
  | DomainBlock _ ds ret => hit (existsb (js_lookup ds) (host :: dot_suffixes host)) ret
  end.

Fixpoint run_body (host : string) (ss : list Stmt) (final : Ret) : Ret :=
  match ss with
  | [] => final
  | s :: ss => match run_stmt host s with Some r => r | None => run_body host ss final end
  end.

(** [FindProxyForURL]; [toLowerCase] and Go's lower-casing agree on ASCII. *)
Definition find_proxy (p : Pac) (host : string) : string :=
  match run_body (ToLower host) (body p) (final p) with
  | RetProxy => directive p
  | RetDirect => "DIRECT"
  end.
End run.

End rules.

(** ** The script and the matcher *)

(** The documentation of the browser's functions: [*] stands for any text, and
    an address is in a network when it agrees with it under the mask. *)
Class PacLaws `{PacBuiltins} : Prop := {
  shExpMatch_star host g :
    str_forallb (λ c, negb (special_byte c)) g = true → shExpMatch host g = star_match true g host;
  isInNet_v4 host net mask h n m :
    parseIPv4 host = Some h → parseIPv4 net = Some n → parseIPv4 mask = Some m →
    isInNet host net mask = bool_decide (mask_bytes h m = mask_bytes n m)
}.

Section equivalence.
Context `{GoUnicode, GoQuote, GoText, PacBuiltins, !PacLaws}.

(** A host as a browser passes it: trimmed, lower-case, without a slash; it
    looks like a dotted quad exactly when it is an IPv4 address; and neither it
    nor a parent domain is a property that every JavaScript object has. *)
Definition plain_host (host : string) : Prop :=
  TrimSpace host = host ∧ ToLower host = host ∧ str_has "/" host = false ∧
  ipv4_shape host = bool_decide (is_Some (ParseIP host ≫= To4)) ∧
  Forall (λ s, s ∉ js_inherited) (host :: dot_suffixes host).

(** Rules whose networks are IPv4 and whose patterns have no special byte but [*]. *)
Definition plain_rules (rules : list string) : Prop :=
  Forall (λ e, str_has ":" e = false ∧ str_forallb (λ c, negb (special_byte c)) e = true)
    (normalized rules).

(** *** Running the statements *)

Definition net_hit (c : Classified) (host : string) : bool :=
  ipv4_shape host &&
  existsb (λ cn, isInNet host (IP_String (net_ip cn.2)) (dottedMask (net_mask cn.2))) (nets c).
Definition globs_hit (c : Classified) (host : string) : bool :=
  existsb (λ g, shExpMatch host g || (String.eqb g "*.ru" && String.eqb host "ru")) (globs c).
Definition domain_hit (c : Classified) (host : string) : bool :=
  existsb (js_lookup (domains c)) (host :: dot_suffixes host).

Lemma run_nets host c r k f :
  run_body host (net_stmts c r ++ k) f = if net_hit c host then r else run_body host k f.
Proof.
  unfold net_stmts, net_hit. destruct (nets c) as [|n ns] eqn:Hn; [by rewrite andb_false_r|].
  cbn [app run_body run_stmt].
  assert (∀ l, existsb (λ r0, isInNet host (netText r0) (maskText r0)) (cidr_row <$> l) =
    existsb (λ cn, isInNet host (IP_String (net_ip cn.2)) (dottedMask (net_mask cn.2))) l) as ->.
  { induction l as [|x l IH]; [done|]. cbn. by rewrite <- IH. }
  by destruct (_ && _).
Qed.

Lemma run_globs host c r k f :
  run_body host (glob_stmts c r ++ k) f = if globs_hit c host then r else run_body host k f.
Proof.
  unfold glob_stmts, globs_hit. induction (globs c) as [|g gs IH]; [done|].
  cbn [fmap list_fmap app run_body run_stmt existsb]. by destruct (_ || _).
Qed.

Lemma js_lookup_nil host :
  Forall (λ s, s ∉ js_inherited) (host :: dot_suffixes host) →
  existsb (js_lookup []) (host :: dot_suffixes host) = false.
Proof.
  intros Hp. apply existsb_false_Forall. eapply Forall_impl; [exact Hp|]. intros s Hs.
  unfold js_lookup. rewrite !bool_decide_eq_false_2; [done|done|apply not_elem_of_nil].
Qed.

Lemma run_domains host v c r k f :
  Forall (λ s, s ∉ js_inherited) (host :: dot_suffixes host) →
  run_body host (domain_stmts v c r ++ k) f = if domain_hit c host then r else run_body host k f.
Proof.
  intros Hp. unfold domain_stmts, domain_hit. destruct (domains c) as [|d ds] eqn:Hd.
  - by rewrite js_lookup_nil.
  - cbn [app run_body run_stmt]. by destruct (existsb _ _).
Qed.

Lemma run_group host note ss k f : run_body host (group note ss ++ k) f = run_body host (ss ++ k) f.
Proof. by destruct ss. Qed.

(** *** The two matchers *)

Lemma domain_hit_suffix c host :
  Forall (λ s, s ∉ js_inherited) (host :: dot_suffixes host) →
  domain_hit c host = matchesDomainSuffix (domains c) host.
Proof.
  intros Hp. unfold domain_hit, matchesDomainSuffix. induction Hp as [|s l Hs _ IH]; [done|].
  cbn [existsb]. rewrite IH. unfold js_lookup. by rewrite (bool_decide_eq_false_2 (s ∈ js_inherited)), orb_false_r.
Qed.

Lemma no_slash_cons d s :
  str_has "/" (String d s) = false → Ascii.eqb d "/" = false ∧ str_has "/" s = false.
Proof.
  unfold str_has. cbn [str_forallb]. rewrite !negb_false_iff, andb_true_iff, negb_true_iff, Ascii.eqb_sym.
  done.
Qed.

Lemma star_match_slash p s : str_has "/" s = false → star_match true p s = star_match false p s.
Proof.
  revert s. induction p as [|c p IH]; intros s Hs; [done|]. cbn [star_match].
  destruct (Ascii.eqb c "*").
  - induction s as [|d s IHs]; cbn [any_tail]; rewrite IH by done; [done|].
    apply no_slash_cons in Hs as [Hd Hs]. by rewrite Hd, IHs.
  - destruct s as [|d s]; [done|]. apply no_slash_cons in Hs as [_ Hs]. by rewrite IH.
Qed.

Lemma globs_hit_go rules host :
  plain_rules rules → str_has "/" host = false →
  globs_hit (classifyRules rules) host = existsb (λ g, glob_hit g host) (globs (classifyRules rules)).
Proof.
  intros Hr Hs. unfold globs_hit. cbn [classifyRules globs].
  assert (Forall (λ e, str_forallb (λ c, negb (special_byte c)) e = true)
    (filter (λ e, Contains e "/" = false ∧ Contains e "*" = true) (normalized rules))) as Hg.
  { apply Forall_forall. intros e [_ He]%list_elem_of_filter. unfold plain_rules in Hr.
    rewrite Forall_forall in Hr. by apply Hr. }
  induction Hg as [|g gs Hg _ IH]; [done|]. cbn [existsb]. rewrite IH. f_equal.
  unfold glob_hit, globMatch. by rewrite Hg, shExpMatch_star, star_match_slash.
Qed.

(** *** Networks *)

Lemma cut_no_byte c s sep a b :
  str_has c s = false → Cut s sep = Some (a, b) → str_has c a = false.
Proof.
  revert a b. induction s as [|d s IH]; intros a b Hs; cbn [Cut].
  - destruct (CutPrefix sep ""); [by intros [= <- _]|done].
  - destruct (CutPrefix sep (String d s)); [by intros [= <- _]|].
    destruct (Cut s sep) as [[a' b']|]; [|done]. intros [= <- <-].
    unfold str_has in *. cbn [str_forallb] in *.
    rewrite negb_false_iff, andb_true_iff in Hs |- *. destruct Hs as [-> Hs]. split; [done|].
    apply negb_false_iff, (IH a' b'); [by rewrite negb_false_iff|done].
Qed.

Lemma cidr_net_v4 e e' n :
  str_has ":" e = false → cidr_net e = Some (e', n) →
  ∃ ip ones, length ip = 4%nat ∧ Forall byte_range ip ∧
    n = {| net_ip := mask_bytes ip (CIDRMask ones 4); net_mask := CIDRMask ones 4 |}.
Proof.
  intros He. unfold cidr_net. destruct (ParseCIDR e) as [n'|] eqn:HP; cbn [mbind option_bind]; [|done].
  destruct (To4 _); cbn [mbind option_bind]; [|done]. intros [= _ <-]. revert HP. unfold ParseCIDR.
  destruct (Cut e "/") as [[a b]|] eqn:Hc; cbn [mbind option_bind]; [|done].
  pose proof (cut_no_byte ":" _ _ _ _ He Hc) as Ha. rewrite Ha. cbn [negb].
  destruct (str_has "%" a) eqn:Hp; [unfold ParseIP; by rewrite Hp|].
  rewrite ParseIP_no_colon by done.
  destruct (parseIPv4 a) as [q4|] eqn:Hq; cbn [fmap option_fmap option_map mbind option_bind]; [|done].
  apply parseIPv4_range in Hq as [Hl Hr].
  destruct (if str_forallb is_digit b then _ else _) as [ones|]; cbn [mbind option_bind]; [|done].
  destruct (ones <=? 32)%Z; [|done].
  change (drop 12 (v4InV6Prefix ++ q4)) with q4. rewrite Hl.
  intros [= <-]. by exists q4, ones.
Qed.

Lemma split_byte_forallb P c s :
  forallb (str_forallb P) (split_byte c s) = str_forallb (λ d, Ascii.eqb c d || P d) s.
Proof.
  induction s as [|d s IH]; [done|]. cbn [split_byte str_forallb]. rewrite <- IH.
  destruct (Ascii.eqb c d); [done|]. destruct (split_byte c s) as [|x l]; cbn; by rewrite ?andb_true_r, ?andb_assoc.
Qed.

Lemma str_forallb_has P c s : P c = false → str_forallb P s = true → str_has c s = false.
Proof.
  intros Hc. unfold str_has. rewrite negb_false_iff. induction s as [|d s IH]; [done|]. cbn [str_forallb].
  intros [Hd Hs]%andb_true_iff. rewrite IH by done. rewrite andb_true_r, negb_true_iff, Ascii.eqb_neq.
  intros <-. congruence.
Qed.

Lemma shape_has_no c host :
  is_digit c = false → c ≠ "."%char → ipv4_shape host = true → str_has c host = false.
Proof.
  intros Hc Hd. unfold ipv4_shape. intros [_ Hs]%andb_true_iff.
  apply (str_forallb_has (λ d, Ascii.eqb "." d || is_digit d)).
  - rewrite Hc, orb_false_r, Ascii.eqb_neq. congruence.
  - rewrite <- split_byte_forallb. rewrite forallb_forall in Hs |- *.
    intros x Hx%Hs. by apply andb_true_iff in Hx as [_ Hx].
Qed.

Lemma net_contains_v4 ip m h :
  length ip = 4%nat → length m = 4%nat → length h = 4%nat →
  net_contains {| net_ip := mask_bytes ip m; net_mask := m |} (v4InV6Prefix ++ h) =
  bool_decide (mask_bytes h m = mask_bytes (mask_bytes ip m) m).
Proof.
  intros Hi Hm Hh. unfold net_contains. cbn [net_ip net_mask].
  assert (length (mask_bytes ip m) = 4%nat) as Hl by (unfold mask_bytes; rewrite length_zip_with; lia).
  assert (To4 (mask_bytes ip m) = Some (mask_bytes ip m)) as -> by (unfold To4; by rewrite Hl).
  assert (To4 (v4InV6Prefix ++ h) = Some h) as ->.
  { unfold To4. rewrite length_app, Hh. cbn. by rewrite bool_decide_eq_true_2. }
  cbn [default from_option]. unfold id. rewrite Hm, Hl, Hh. cbn. apply bool_decide_ext. split; congruence.
Qed.

Lemma net_contains_v6 ip m h :
  length ip = 4%nat → length m = 4%nat → To4 h = None →
  net_contains {| net_ip := mask_bytes ip m; net_mask := m |} h = false.
Proof.
  intros Hi Hm Hh. unfold net_contains. cbn [net_ip net_mask]. rewrite Hh.
  assert (length (mask_bytes ip m) = 4%nat) as Hl by (unfold mask_bytes; rewrite length_zip_with; lia).
  assert (To4 (mask_bytes ip m) = Some (mask_bytes ip m)) as -> by (unfold To4; by rewrite Hl).
  cbn [default from_option]. unfold id. rewrite Hl. apply andb_false_iff. left.
  revert Hh. unfold To4. by destruct (length h =? 4)%nat.
Qed.

Lemma cidr_row_go e e' n host h :
  str_has ":" e = false → cidr_net e = Some (e', n) → parseIPv4 host = Some h →
  isInNet host (IP_String (net_ip n)) (dottedMask (net_mask n)) = net_contains n (v4InV6Prefix ++ h).
Proof.
  intros He (ip & ones & Hl & Hr & ->)%cidr_net_v4 Hh; [|done]. cbn [net_ip net_mask].
  pose proof (CIDRMask_length ones 4) as Hml. pose proof (CIDRMask_range ones 4) as Hmr.
  set (m := CIDRMask ones 4) in *.
  assert (length (mask_bytes ip m) = 4%nat) as Hnl by (unfold mask_bytes; rewrite length_zip_with; lia).
  assert (∀ l, length l = 4%nat → IP_String l = ip4_string l) as Hs.
  { intros l Hll. unfold IP_String, To4. by rewrite Hll. }
  unfold dottedMask. rewrite !Hs by done.
  rewrite (isInNet_v4 host _ _ h (mask_bytes ip m) m); [..|by apply parse_ip4_string, Hmr].
  - rewrite net_contains_v4; [done..|]. by apply parseIPv4_range in Hh as [].
  - done.
  - by apply parse_ip4_string; [|apply mask_bytes_range].
Qed.

Lemma net_hit_go rules host :
  plain_rules rules → plain_host host →
  net_hit (classifyRules rules) host =
  match ParseIP host with
  | Some ip => existsb (λ n, net_contains n.2 ip) (nets (classifyRules rules))
  | None => false
  end.
Proof.
  intros Hr (_ & _ & _ & Hs & _). unfold net_hit. cbn [classifyRules nets].
  assert (Forall (λ e, str_has ":" e = false) (filter (λ e, Contains e "/" = true) (normalized rules))) as Hc.
  { apply Forall_forall. intros e [_ He]%list_elem_of_filter. unfold plain_rules in Hr.
    rewrite Forall_forall in Hr. by apply Hr. }
  destruct (ipv4_shape host) eqn:Hsh; cbn [andb].
  - rewrite ParseIP_no_colon in Hs |- * by (by apply shape_has_no).
    destruct (parseIPv4 host) as [h|] eqn:Hh; [|by rewrite bool_decide_eq_false_2 in Hs by (by intros [? ?])].
    cbn [fmap option_fmap option_map]. induction Hc as [|e es He _ IH]; [done|]. cbn [omap list_omap].
    destruct (cidr_net e) as [[e' n]|] eqn:Hn; [|done]. cbn [existsb snd]. by rewrite IH, (cidr_row_go e e' n host h).
  - destruct (ParseIP host) as [ip|]; [|done]. cbn in Hs.
    assert (To4 ip = None) as Ht.
    { destruct (To4 ip); [|done]. by rewrite bool_decide_eq_true_2 in Hs by (by eexists). }
    symmetry. induction Hc as [|e es He _ IH]; [done|]. cbn [omap list_omap].
    destruct (cidr_net e) as [[e' n]|] eqn:Hn; [|done]. cbn [existsb snd]. rewrite IH, orb_false_r.
    apply cidr_net_v4 in Hn as (q4 & ones & Hl & _ & ->); [|done].
    by rewrite net_contains_v6 by (done || apply CIDRMask_length).
Qed.

Definition rules_hit (c : Classified) (host : string) : bool :=
  net_hit c host || globs_hit c host || domain_hit c host.

Lemma rules_hit_go rules host :
  plain_rules rules → plain_host host →
  rules_hit (classifyRules rules) host = matchesRuleSet rules host.
Proof.
  intros Hr Hh. unfold rules_hit, matchesRuleSet. rewrite net_hit_go by done.
  destruct Hh as (_ & _ & Hs & _ & Hj). rewrite globs_hit_go, domain_hit_suffix by done.
  destruct (match ParseIP host with Some _ => _ | None => false end), (existsb _ (globs _)), (matchesDomainSuffix _ _);
    done.
Qed.

(** C40: the script and the matcher agree.  For every host a browser passes
    (lower-case, no slash, no property name of JavaScript objects) and rules
    whose networks are IPv4 and whose patterns use only [*], the script that
    [GeneratePAC] serves sends the host to the proxy exactly when
    [MatchesIncludeProxy] says so in include mode, and exactly when
    [MatchesExcludeDirect] denies it in exclude mode. *)
Theorem pac_agrees_with_matcher cfg p host :
  mode_pac cfg = Some p → plain_rules (Proxy cfg) → plain_rules (Direct cfg) → plain_host host →
  find_proxy p host =
    if (if String.eqb (cMode cfg) ModeInclude then MatchesIncludeProxy cfg host
        else negb (MatchesExcludeDirect cfg host))
    then ProxyDirective cfg else "DIRECT".
Proof.
  intros Hm Hp Hd Hh. pose proof Hh as (Htrim & Hlow & _ & _ & Hj).
  unfold find_proxy, MatchesIncludeProxy, MatchesExcludeDirect. rewrite Htrim, Hlow. revert Hm. unfold mode_pac.
  destruct (String.eqb (cMode cfg) ModeInclude).
  - intros [= <-]. cbn [include_pac body final directive].
    rewrite run_nets, run_globs, <- (app_nil_r (domain_stmts _ _ _)), run_domains by done.
    rewrite <- rules_hit_go by done. unfold rules_hit.
    by destruct (net_hit _ _), (globs_hit _ _), (domain_hit _ _).
  - destruct (String.eqb (cMode cfg) ModeExclude); [|done].
    intros [= <-]. cbn [exclude_pac body final directive].
    rewrite <- !rules_hit_go by done. unfold rules_hit.
    rewrite run_group, <- !app_assoc, run_nets, run_globs, run_domains by done.
    destruct (net_hit (classifyRules (Proxy cfg)) host); [done|].
    destruct (globs_hit (classifyRules (Proxy cfg)) host); [done|].
    destruct (domain_hit (classifyRules (Proxy cfg)) host); [done|]. cbn [orb].
    destruct (BypassPlainHostnames cfg); rewrite ?run_group; cbn [app run_body run_stmt andb];
      [destruct (Contains host "."); cbn [negb]; [|done]|];
      rewrite ?run_group, run_nets, run_group, run_globs, run_group, run_domains by done;
      by destruct (net_hit _ _), (globs_hit _ _), (domain_hit _ _).
Qed.

End equivalence.

(** *** On a concrete browser *)

#[local] Existing Instance ascii_only.

Definition plain_text : GoText := {| match_special := λ _ _, false |}.
#[local] Existing Instance plain_text.
#[local] Existing Instance quote_as_is.

(** A browser whose functions do what their documentation says. *)
Definition browser : PacBuiltins := {|
  shExpMatch host g := star_match true g host;
  isInNet host net mask :=
    match parseIPv4 host, parseIPv4 net, parseIPv4 mask with
    | Some h, Some n, Some m => bool_decide (mask_bytes h m = mask_bytes n m)
    | _, _, _ => false
    end |}.
#[local] Existing Instance browser.

#[local] Instance browser_laws : PacLaws.
Proof. split; [done|]. intros host net mask h n m Hh Hn Hm. cbn. by rewrite Hh, Hn, Hm. Qed.

Definition exclude_sample : Config :=
  set_mode ModeExclude (set_proxy ["openai.com"]
    (set_direct ["10.0.0.0/8"; "*.corp.local"; "example.org"] DefaultConfig)).

Lemma pac_agrees_with_matcher_witness :
  (λ p, find_proxy p "10.20.30.40") <$> mode_pac exclude_sample = Some "DIRECT" ∧
  find_proxy (exclude_pac (Proxy exclude_sample) (Direct exclude_sample)
    (ProxyDirective exclude_sample) (BypassPlainHostnames exclude_sample)) "10.20.30.40" = "DIRECT".
Proof.
  split; [vm_compute; reflexivity|].
  assert (Hr : ∀ rules, forallb (λ e, negb (str_has ":" e) && str_forallb (λ c, negb (special_byte c)) e)
    (normalized rules) = true → plain_rules rules).
  { intros rules Ha. unfold plain_rules. rewrite forallb_forall in Ha. apply Forall_forall. intros e He.
    apply list_elem_of_In, Ha, andb_true_iff in He as [He Hs]. by apply negb_true_iff in He. }
  rewrite (pac_agrees_with_matcher exclude_sample _ "10.20.30.40").
  - vm_compute. reflexivity.
  - reflexivity.
  - apply Hr. vm_compute. reflexivity.
  - apply Hr. vm_compute. reflexivity.
  - unfold plain_host. split_and!; try (vm_compute; reflexivity).
    apply (bool_decide_unpack _). vm_compute. exact I.
Defined.

(** The script's table of domains is a JavaScript object, which answers the
    names every object inherits: a host of such a name is sent to the proxy,
    and the matcher says it is not. *)
Lemma pac_inherited_property `{PacBuiltins} :
  let cfg := set_mode ModeInclude (set_proxy ["openai.com"] DefaultConfig) in
  (λ p, find_proxy p "constructor") <$> mode_pac cfg = Some (ProxyDirective cfg) ∧
  MatchesIncludeProxy cfg "constructor" = false.
Proof. split; vm_compute; reflexivity. Qed.

End SysPac.
