(* ===== verification/SysManager.v ===== *)
(** * SysManager: applying the system proxy
    ([internal/sysproxy/manager.go], [pacserver.go], [portdiag.go],
    [networksetup.go], [networksetup_darwin.go])

    A manager holds the applied configuration and the server of the script.
    The listening servers and the buffers their handlers answer from are kept
    as a store of their own ([Proc]: [live] and [bodies]), so that a server
    that is neither current nor closed would show.  [networksetup] is the
    interface [NetworkSetup], against which the manager is proved; the darwin
    adapter discharges it from the documentation of the command. *)

From S2P Require Import Prelude GoStr SysConfig SysPac.
Import SysConfig SysPac.

Local Open Scope string_scope.
Local Open Scope list_scope.

Module SysManager.

(** ** The port onto networksetup(8) *)

Record State := {
  AutoProxyEnabled : bool;
  AutoProxyURL : string;
  WebProxyEnabled : bool;
  SecureWebProxyEnabled : bool;
  BypassDomains : list string
}.

(** The calls, on a system [W]; [observed] is what [Status] reads back. *)
Class NetworkSetup (W : Type) := {
  SetAutoProxyURL : string → string → W → option string * W;
  DisableAutoProxy : string → W → option string * W;
  DisableWebProxy : string → W → option string * W;
  SetBypassDomains : string → list string → W → option string * W;
  observed : W → string → State
}.

(** The list that a bypass list sets: the one word [Empty] clears it. *)
Definition bypass_set (ds : list string) : list string :=
  if bool_decide (ds = ["Empty"]) then [] else ds.

(** A call on service [s] leaves the other services alone, and when it
    succeeds the settings of [s] change as [post] says. *)
Definition call_ok {W} `{NetworkSetup W} (s : string) (op : W → option string * W)
    (post : State → State → Prop) : Prop :=
  ∀ w r w', op w = (r, w') →
    (∀ s', s' ≠ s → observed w' s' = observed w s') ∧
    (r = None → post (observed w s) (observed w' s)).

Definition same_web (o o' : State) : Prop :=
  WebProxyEnabled o' = WebProxyEnabled o ∧ SecureWebProxyEnabled o' = SecureWebProxyEnabled o.
Definition same_auto (o o' : State) : Prop :=
  AutoProxyEnabled o' = AutoProxyEnabled o ∧ AutoProxyURL o' = AutoProxyURL o.
Definition same_bypass (o o' : State) : Prop := BypassDomains o' = BypassDomains o.

(** What the interface promises.  Pointing a service at a URL may turn the
    manual proxies off, and never on. *)
Class NetworkSetupLaws (W : Type) `{NetworkSetup W} : Prop := {
  SetAutoProxyURL_ok s u : call_ok s (SetAutoProxyURL s u) (λ o o',
    AutoProxyEnabled o' = true ∧ AutoProxyURL o' = u ∧ same_bypass o o' ∧
    (WebProxyEnabled o = false → WebProxyEnabled o' = false) ∧
    (SecureWebProxyEnabled o = false → SecureWebProxyEnabled o' = false));
  DisableAutoProxy_ok s : call_ok s (DisableAutoProxy s) (λ o o',
    AutoProxyEnabled o' = false ∧ same_web o o' ∧ same_bypass o o');
  DisableWebProxy_ok s : call_ok s (DisableWebProxy s) (λ o o',
    WebProxyEnabled o' = false ∧ SecureWebProxyEnabled o' = false ∧ same_auto o o' ∧ same_bypass o o');
  SetBypassDomains_ok s ds : call_ok s (SetBypassDomains s ds) (λ o o',
    BypassDomains o' = bypass_set ds ∧ same_auto o o' ∧ same_web o o')
}.

(** *** The darwin adapter *)

(** The command: its arguments to an error or nothing, and the settings. *)
Class NetworksetupTool (W : Type) := {
  run : list string → W → option string * W;
  settings : W → string → State
}.

Section darwin.
Context {W : Type} `{NetworksetupTool W}.

(** Two runs in a row, the second only if the first succeeds. *)
Definition then_run (r : option string * W) (args : list string) : option string * W :=
  match r with (Some e, w) => (Some e, w) | (None, w) => run args w end.

Definition darwin_SetAutoProxyURL (service url : string) (w : W) : option string * W :=
  then_run (run ["-setautoproxyurl"; service; url] w) ["-setautoproxystate"; service; "on"].
Definition darwin_DisableAutoProxy (service : string) (w : W) : option string * W :=
  run ["-setautoproxystate"; service; "off"] w.
Definition darwin_DisableWebProxy (service : string) (w : W) : option string * W :=
  then_run (run ["-setwebproxystate"; service; "off"] w) ["-setsecurewebproxystate"; service; "off"].
Definition darwin_SetBypassDomains (service : string) (domains : list string) (w : W) : option string * W :=
  run ("-setproxybypassdomains" :: service :: match domains with [] => ["Empty"] | _ => domains end) w.

End darwin.

#[export] Instance darwinNetworkSetup {W} `{NetworksetupTool W} : NetworkSetup W := {|
  SetAutoProxyURL := darwin_SetAutoProxyURL;
  DisableAutoProxy := darwin_DisableAutoProxy;
  DisableWebProxy := darwin_DisableWebProxy;
  SetBypassDomains := darwin_SetBypassDomains;
  observed := settings |}.

(** The manual page of [networksetup]. *)
Class NetworksetupManual (W : Type) `{NetworksetupTool W} : Prop := {
  setautoproxyurl s u : call_ok s (run ["-setautoproxyurl"; s; u]) (λ o o',
    AutoProxyURL o' = u ∧ same_web o o' ∧ same_bypass o o');
  setautoproxystate s (b : bool) :
    call_ok s (run ["-setautoproxystate"; s; if b then "on" else "off"]) (λ o o',
      AutoProxyEnabled o' = b ∧ AutoProxyURL o' = AutoProxyURL o ∧ same_web o o' ∧ same_bypass o o');
  setwebproxystate_off s : call_ok s (run ["-setwebproxystate"; s; "off"]) (λ o o',
    WebProxyEnabled o' = false ∧ SecureWebProxyEnabled o' = SecureWebProxyEnabled o ∧
    same_auto o o' ∧ same_bypass o o');
  setsecurewebproxystate_off s : call_ok s (run ["-setsecurewebproxystate"; s; "off"]) (λ o o',
    SecureWebProxyEnabled o' = false ∧ WebProxyEnabled o' = WebProxyEnabled o ∧
    same_auto o o' ∧ same_bypass o o');
  setproxybypassdomains s ds : ds ≠ [] →
    call_ok s (run ("-setproxybypassdomains" :: s :: ds)) (λ o o',
      BypassDomains o' = bypass_set ds ∧ same_auto o o' ∧ same_web o o')
}.

Section darwin_laws.
Context {W : Type} `{NetworksetupManual W}.

Lemma then_run_ok s op args (p q r : State → State → Prop) :
  call_ok s op p → call_ok s (run args) q → (∀ a b c, p a b → q b c → r a c) →
  call_ok s (λ w, then_run (op w) args) r.
Proof.
  intros Hop Hrun Hr w res w'. destruct (op w) as [[e|] w1] eqn:E; cbn [then_run].
  - intros [= <- <-]. split; [by eapply Hop|done].
  - intros E'. destruct (Hop _ _ _ E) as [Ho1 Hp]. destruct (Hrun _ _ _ E') as [Ho2 Hq].
    split; [intros s' Hs; by rewrite Ho2, Ho1|]. intros ->. eapply Hr; [by apply Hp|by apply Hq].
Qed.

Lemma call_ok_impl s op (p q : State → State → Prop) :
  call_ok s op p → (∀ a b, p a b → q a b) → call_ok s op q.
Proof. intros Hop Hpq w r w' E. destruct (Hop _ _ _ E) as [Ho Hp]. split; [done|]. intros Hr. by apply Hpq, Hp. Qed.

#[export] Instance darwin_laws : NetworkSetupLaws W.
Proof.
  unfold same_web, same_auto, same_bypass. split; intros s.
  - intros u. eapply then_run_ok; [apply setautoproxyurl|apply (setautoproxystate s true)|].
    unfold same_web, same_bypass. intros a b c (? & [? ?] & ?) (? & ? & [? ?] & ?). split_and!; congruence.
  - eapply call_ok_impl; [apply (setautoproxystate s false)|]. unfold same_web, same_bypass. tauto.
  - eapply then_run_ok; [apply setwebproxystate_off|apply setsecurewebproxystate_off|].
    unfold same_auto, same_bypass. intros a b c (? & ? & [? ?] & ?) (? & ? & [? ?] & ?). split_and!; congruence.
  - intros ds. eapply call_ok_impl; [by apply setproxybypassdomains; destruct ds|].
    unfold same_auto, same_web. intros a b [Hb ?]. split; [|done]. rewrite Hb. by destruct ds.
Qed.

(** The adapter leaves the manual proxies as they are when it points a service
    at a URL. *)
Lemma darwin_SetAutoProxyURL_keeps_manual s u w w' :
  darwin_SetAutoProxyURL s u w = (None, w') → same_web (settings w s) (settings w' s).
Proof.
  intros E. eapply (then_run_ok s _ _ _ _ same_web (setautoproxyurl s u) (setautoproxystate s true)) in E as [_ Hp];
    [by apply Hp|].
  unfold same_web. intros a b c (? & [? ?] & ?) (? & ? & [? ?] & ?). split; congruence.
Qed.
End darwin_laws.

(** ** Sockets and diagnostics *)

Inductive errno := EADDRINUSE | OtherErrno (text : string).

Class Sockets (W : Type) := {
  pacListen : Z → W → result errno Z * W;      (* net.Listen on 127.0.0.1; the port it got *)
  close_error : Z → W → option string;         (* what closing the listener of a port answers *)
  http_ok : string → W → bool                  (* a GET answers 200 *)
}.

(** Binding a port does not touch the network services; a pinned port is the
    one that is bound, and no listener has port 0. *)
Class SocketsLaws (W : Type) `{Sockets W, NetworkSetup W} : Prop := {
  pacListen_services port w r w' s :
    pacListen port w = (r, w') → observed w' s = observed w s;
  pacListen_port port w p w' :
    pacListen port w = (Ok p, w') → p ≠ 0%Z ∧ (port ≠ 0%Z → p = port)
}.

Record PortHolder := { PID : Z; HolderPath : string }.

(** [LegacyPACAgent]'s answer. *)
Record Agent := { present : bool; owned : bool; path : string }.

Record PortDiagnostics (W : Type) := {
  HolderOf : Z → W → result string (option PortHolder);
  LegacyPACAgent : W → result string Agent;
  RemoveLegacyPACAgent : W → option string * W
}.
Arguments HolderOf {W} p _ _.
Arguments LegacyPACAgent {W} p _.
Arguments RemoveLegacyPACAgent {W} p _.

Definition IsLegacyPACAgentPlist (data : string) : bool :=
  Contains data "http.server" && Contains data ".config/singctl".

(** ** The manager *)

Record Srv := { s_port : Z; s_content : nat }.

#[export] Instance Srv_eq_dec : EqDecision Srv.
Proof. solve_decision. Defined.

(** [pacServer]: the current server and the buffer it answers from. *)
Record pacServer := { srv : option nat; port : Z; content : nat }.

Record pacCandidate := { c_id : nat; c_srv : Srv }.

(** The memory of the process: the manager's fields, the servers that listen
    and the buffers. *)
Record Proc := {
  m_cfg : Config;
  server : pacServer;
  live : gmap nat Srv;
  bodies : gmap nat string
}.

Record St (W : Type) := { proc : Proc; sys : W }.
Arguments proc {W} s.
Arguments sys {W} s.
Arguments Build_St {W} _ _.

Definition NewManager : Proc := {|
  m_cfg := DefaultConfig; server := {| srv := None; port := 0; content := 0 |};
  live := ∅; bodies := {[0%nat := ""]} |}.

(** *** The script server *)

Definition port_url (port : Z) : string := "http://127.0.0.1:" +:+ Itoa port +:+ "/proxy.pac".

Definition url (p : pacServer) : string :=
  match srv p with None => "" | Some _ => port_url (port p) end.

Definition candidateURL (p : pacServer) (c : option pacCandidate) : string :=
  match c with Some c => port_url (s_port (c_srv c)) | None => url p end.

(** The server is listening on the wanted port already. *)
Definition reusable (p : pacServer) (want : Z) : bool :=
  match srv p with None => false | Some _ => (want =? 0)%Z || (port p =? want)%Z end.

Definition add_candidate (p : Z) (body : string) (x : Proc) : pacCandidate * Proc :=
  let loc := fresh (dom (bodies x)) in
  let c := {| c_id := fresh (dom (live x)); c_srv := {| s_port := p; s_content := loc |} |} in
  (c, {| m_cfg := m_cfg x; server := server x;
         live := <[c_id c := c_srv c]> (live x); bodies := <[loc := body]> (bodies x) |}).

Definition abort_proc (c : option pacCandidate) (x : Proc) : Proc :=
  match c with
  | None => x
  | Some c => {| m_cfg := m_cfg x; server := server x; live := delete (c_id c) (live x); bodies := bodies x |}
  end.

(** [commit]: the candidate becomes the server and the old one is closed; the
    buffer is rewritten either way. *)
Definition commit_proc (c : option pacCandidate) (body : string) (x : Proc) : Proc :=
  let s := server x in
  let s' := match c with
            | Some c => {| srv := Some (c_id c); port := s_port (c_srv c); content := s_content (c_srv c) |}
            | None => s
            end in
  {| m_cfg := m_cfg x; server := s';
     live := match c, srv s with Some _, Some old => delete old (live x) | _, _ => live x end;
     bodies := <[content s' := body]> (bodies x) |}.

(** What a client reads at the port of the server. *)
Definition served (x : Proc) : option string :=
  i ← srv (server x); s ← live x !! i; bodies x !! s_content s.

Section manager.
Context {W : Type} `{NetworkSetup W, Sockets W} `{GoUnicode, GoQuote, GoText}.
Context (diag : option (PortDiagnostics W)).

Inductive MErr :=
  | Invalid (e : error)
  | ErrGenerate
  | ErrListen (port : Z) (e : errno)
  | ErrHeld (holder : PortHolder) (legacy : option string) (cause : MErr)
  | ErrSetup (what : string) (cause : string)
  | ErrStop (cause : string)
  | RollbackFailed (cause restore : MErr).

Definition op : Type := St W → option MErr * St W.

Definition on_proc (f : Proc → Proc) (st : St W) : St W := {| proc := f (proc st); sys := sys st |}.
Definition on_sys (w : W) (st : St W) : St W := {| proc := proc st; sys := w |}.

(** [if err := o(); err != nil { return handler(err) }] followed by [k]. *)
Definition attempt (o : op) (handler : MErr → op) (k : op) : op := λ st,
  match o st with (Some e, st) => handler e st | (None, st) => k st end.

Definition fail_with (e : MErr) : op := λ st, (Some e, st).
Definition done_ : op := λ st, (None, st).
Definition or_return (o k : op) : op := attempt o fail_with k.

(** A call of the interface, its error wrapped as the caller wraps it. *)
Definition call (what : string) (f : W → option string * W) : op := λ st,
  let '(r, w) := f (sys st) in (ErrSetup what <$> r, on_sys w st).

Definition prepare (port : Z) (body : string) (st : St W) : result MErr (option pacCandidate) * St W :=
  if reusable (server (proc st)) port then (Ok None, st) else
  match pacListen port (sys st) with
  | (Err e, w) => (Err (ErrListen port e), on_sys w st)
  | (Ok p, w) => let '(c, x) := add_candidate p body (proc st) in (Ok (Some c), {| proc := x; sys := w |})
  end.

(** [close]: the listener is gone whatever closing it answers. *)
Definition close : op := λ st,
  match srv (server (proc st)) with
  | None => (None, st)
  | Some i =>
      let x := proc st in
      (ErrStop <$> close_error (port (server x)) (sys st),
       on_proc (λ x, {| m_cfg := m_cfg x;
                        server := {| srv := None; port := port (server x); content := content (server x) |};
                        live := delete i (live x); bodies := bodies x |}) st)
  end.

Definition disableService (service : string) : op :=
  or_return (call "disable auto proxy" (DisableAutoProxy service))
    (or_return (call "disable web proxy" (DisableWebProxy service))
      (call "clear bypass domains" (SetBypassDomains service []))).

Fixpoint disable_all (services : list string) : op :=
  match services with
  | [] => done_
  | s :: services => or_return (disableService s) (disable_all services)
  end.

Definition diagnoseBindError (port : Z) (bindErr : MErr) (st : St W) : MErr :=
  match diag with
  | None => bindErr
  | Some d =>
      match HolderOf d port (sys st) with
      | Ok (Some holder) =>
          ErrHeld holder
            match LegacyPACAgent d (sys st) with
            | Ok a => if present a && owned a then Some (path a) else None
            | Err _ => None
            end bindErr
      | _ => bindErr
      end
  end.

Definition is_in_use (e : MErr) : bool :=
  match e with ErrListen _ EADDRINUSE => true | _ => false end.

(** The candidate for a configuration, and the configuration it is for: a
    legacy pin on a busy port becomes a port of the system's choice. *)
Definition prepare_or_migrate (cfg : Config) (pac : string) (st : St W)
    : result MErr (option pacCandidate * Config) * St W :=
  match prepare (PACPort cfg) pac st with
  | (Ok c, st) => (Ok (c, cfg), st)
  | (Err e, st) =>
      if negb (PACPort cfg =? LegacyPACPort)%Z || negb (is_in_use e)
      then (Err (diagnoseBindError (PACPort cfg) e st), st)
      else match prepare 0 pac st with
           | (Err _, st) => (Err (diagnoseBindError (PACPort cfg) e st), st)
           | (Ok c, st) => (Ok (c, set_pac_port 0 cfg), st)
           end
  end.

Definition restore (cfg : Config) : op := λ st,
  let old := m_cfg (proc st) in
  if negb (String.eqb (cMode old) ModeOff) then
    or_return (if negb (String.eqb (Service cfg) (Service old)) then disableService (Service cfg) else done_)
      (or_return (call "" (SetAutoProxyURL (Service old) (url (server (proc st)))))
        (call "" (SetBypassDomains (Service old) (bypassDomainsFor (Direct old))))) st
  else disableService (Service cfg) st.

Definition rollback (cfg : Config) (candidate : option pacCandidate) (cause : MErr) : op := λ st,
  match restore cfg (on_proc (abort_proc candidate) st) with
  | (Some e, st) => (Some (RollbackFailed cause e), st)
  | (None, st) => (Some cause, st)
  end.

Definition adopt (cfg : Config) : op := λ st,
  (None, on_proc (λ x, {| m_cfg := cfg; server := server x; live := live x; bodies := bodies x |}) st).

Definition apply_off (cfg : Config) : op := λ st,
  let old := m_cfg (proc st) in
  or_return
    (disable_all (Service cfg ::
       (if negb (String.eqb (cMode old) ModeOff) && negb (String.eqb (Service old) (Service cfg))
        then [Service old] else [])))
    (or_return close (adopt cfg)) st.

Definition apply_on (cfg : Config) : op := λ st,
  match GeneratePAC cfg with
  | None => (Some ErrGenerate, st)
  | Some pac =>
      match prepare_or_migrate cfg pac st with
      | (Err e, st) => (Some e, st)
      | (Ok (candidate, cfg), st) =>
          let old := m_cfg (proc st) in
          let newURL := candidateURL (server (proc st)) candidate in
          attempt (call "disable manual web proxy" (DisableWebProxy (Service cfg))) (rollback cfg candidate)
            (attempt (call "set auto proxy url" (SetAutoProxyURL (Service cfg) newURL)) (rollback cfg candidate)
              (attempt (call "set bypass domains" (SetBypassDomains (Service cfg) (bypassDomainsFor (Direct cfg))))
                 (rollback cfg candidate)
                (attempt (if negb (String.eqb (cMode old) ModeOff) && negb (String.eqb (Service old) (Service cfg))
                          then disableService (Service old) else done_) (rollback cfg candidate)
                  (λ st, adopt cfg (on_proc (commit_proc candidate pac) st))))) st
      end
  end.

Definition Apply (cfg : Config) : op := λ st,
  match Validate cfg with
  | Some e => (Some (Invalid e), st)
  | None => if String.eqb (cMode cfg) ModeOff then apply_off cfg st else apply_on cfg st
  end.

Definition Restore (cfg : Config) : op := λ st,
  match Validate cfg with
  | Some e => (Some (Invalid e), st)
  | None => if String.eqb (cMode cfg) ModeOff then adopt cfg st else Apply cfg st
  end.

Definition Close : op := close.

Record Status := { sMode : string; sService : string; PACURL : string; PACServerUp : bool; DomainCount : nat }.

Definition answers (st : St W) : bool :=
  let u := url (server (proc st)) in negb (String.eqb u "") && http_ok u (sys st).

Definition Manager_Status (st : St W) : Status :=
  let cfg := m_cfg (proc st) in {|
  sMode := cMode cfg; sService := Service cfg; PACURL := url (server (proc st));
  PACServerUp := answers st;
  DomainCount := length (normalizeDomains (if String.eqb (cMode cfg) ModeExclude then Direct cfg else Proxy cfg)) |}.

Inductive ReclaimErr := NoDiagnostics | NoAgent | NotOurs (path : string) | DiagErr (e : string).

Definition ReclaimPort (st : St W) : option ReclaimErr * St W :=
  match diag with
  | None => (Some NoDiagnostics, st)
  | Some d =>
      match LegacyPACAgent d (sys st) with
      | Err e => (Some (DiagErr e), st)
      | Ok a =>
          if negb (present a) then (Some NoAgent, st)
          else if negb (owned a) then (Some (NotOurs (path a)), st)
          else let '(r, w) := RemoveLegacyPACAgent d (sys st) in (DiagErr <$> r, on_sys w st)
      end
  end.

Section import.
Context {E : Type} (unmarshal : string → result E yamlConfig).

Definition Manager_Import (data : string) (st : St W) : (option (import_error (E:=E)) * option MErr) * St W :=
  match DecodeImport unmarshal data with
  | Err e => ((Some e, None), st)
  | Ok (imported, full) =>
      let '(r, st) := Apply (ApplyImport (m_cfg (proc st)) imported full) st in ((None, r), st)
  end.
End import.

End manager.

(** ** Facts *)

(** *** The script server *)

(** The current server is the only one that listens, on its port and with its
    buffer; without one nothing listens. *)
Definition server_ok (x : Proc) : Prop :=
  is_Some (bodies x !! content (server x)) ∧
  live x = match srv (server x) with
           | None => ∅
           | Some i => {[i := {| s_port := port (server x); s_content := content (server x) |}]}
           end.

(** [x'] is [x] with more buffers. *)
Definition rolled (x x' : Proc) : Prop :=
  m_cfg x' = m_cfg x ∧ server x' = server x ∧ live x' = live x ∧ bodies x ⊆ bodies x'.

Lemma rolled_refl x : rolled x x.
Proof. done. Qed.

Lemma rolled_ok x x' : rolled x x' → server_ok x → server_ok x' ∧ served x' = served x.
Proof.
  unfold server_ok, served. intros (_ & -> & -> & Hb) [[b Hc] Hl]. split.
  - split; [exists b; by eapply lookup_weaken|done].
  - rewrite Hl. destruct (srv (server x)) as [i|]; [|done]. cbn.
    rewrite lookup_singleton_eq. cbn. rewrite Hc. by eapply lookup_weaken.
Qed.

(** A candidate prepared from [x], and what aborting and committing it do. *)
Definition prepared (x : Proc) (c : option pacCandidate) (x' : Proc) : Prop :=
  match c with
  | None => x' = x ∧ is_Some (srv (server x))
  | Some c => c_id c ∉ dom (live x) ∧ s_content (c_srv c) ∉ dom (bodies x) ∧
              m_cfg x' = m_cfg x ∧ server x' = server x ∧ live x' = <[c_id c := c_srv c]> (live x) ∧
              ∃ b, bodies x' = <[s_content (c_srv c) := b]> (bodies x)
  end.

Definition candidate_port (x : Proc) (c : option pacCandidate) : Z :=
  match c with None => port (server x) | Some c => s_port (c_srv c) end.

Lemma add_candidate_prepared p body x c x' :
  add_candidate p body x = (c, x') → prepared x (Some c) x' ∧ s_port (c_srv c) = p.
Proof.
  unfold add_candidate. intros [= <- <-]. cbn. split_and!; try done; try apply is_fresh. by eexists.
Qed.

Lemma abort_rolled x c x' : prepared x c x' → rolled x (abort_proc c x').
Proof.
  destruct c as [c|]; cbn; [|by intros [-> _]].
  intros (Hid & Hc & Hm & Hs & Hl & b & Hb). unfold rolled. cbn. rewrite Hl, Hb.
  split_and!; [done..| |].
  - apply delete_insert_id. by apply not_elem_of_dom.
  - apply insert_subseteq. by apply not_elem_of_dom.
Qed.

Lemma commit_ok x c x' body :
  server_ok x → prepared x c x' →
  let y := commit_proc c body x' in
  server_ok y ∧ served y = Some body ∧ is_Some (srv (server y)) ∧
  port (server y) = candidate_port x c ∧ url (server y) = candidateURL (server x) c ∧ m_cfg y = m_cfg x.
Proof.
  unfold server_ok, served. intros [Hb Hl] Hp. destruct c as [c|]; cbn in *.
  - destruct Hp as (Hid & Hc & -> & -> & -> & b & ->). rewrite Hl in *. destruct c as [id [cp cc]]. cbn in *.
    assert (∀ m : gmap nat Srv, m = {[id := {| s_port := cp; s_content := cc |}]} →
      m !! id = Some {| s_port := cp; s_content := cc |}) as Hm by (intros m ->; apply lookup_singleton_eq).
    destruct (srv (server x)) as [i|].
    + assert (id ≠ i) by (intros ->; apply Hid; rewrite dom_singleton; by apply elem_of_singleton).
      rewrite (Hm (delete i _)) by (rewrite delete_insert_ne, delete_singleton_eq by done; done). cbn.
      rewrite delete_insert_ne, delete_singleton_eq, !lookup_insert_eq by done. split_and!; by try eexists.
    + cbn. rewrite !lookup_insert_eq. cbn. rewrite !lookup_insert_eq. split_and!; by try eexists.
  - destruct Hp as [-> [i Hi]]. rewrite Hi in Hl. cbn. rewrite Hi, Hl. cbn.
    rewrite lookup_singleton_eq. cbn. rewrite !lookup_insert_eq. split_and!; by try eexists.
Qed.

Section laws.
Context {W : Type} `{SocketsLaws W, !NetworkSetupLaws W} `{GoUnicode, GoQuote, GoText}.
Context (diag : option (PortDiagnostics W)).

(** *** The calls *)

(** Only the settings of the services in [ss] may differ. *)
Definition only (ss : list string) (w w' : W) : Prop :=
  ∀ s, s ∉ ss → observed w' s = observed w s.

Definition turned_off (o : State) : Prop :=
  AutoProxyEnabled o = false ∧ WebProxyEnabled o = false ∧ SecureWebProxyEnabled o = false ∧
  BypassDomains o = [].

(** The service of [c] points at the server of [x], with the bypass list of [c]. *)
Definition pointed (c : Config) (u : string) (w : W) : Prop :=
  let o := observed w (Service c) in
  AutoProxyEnabled o = true ∧ AutoProxyURL o = u ∧
  BypassDomains o = bypass_set (bypassDomainsFor (Direct c)).

(** The steps of [st] to [st'] are calls on the services [ss]. *)
Definition calls (ss : list string) (st st' : St W) : Prop :=
  proc st' = proc st ∧ only ss (sys st) (sys st').

Lemma calls_refl ss st : calls ss st st.
Proof. done. Qed.

Lemma calls_trans ss st1 st2 st3 : calls ss st1 st2 → calls ss st2 st3 → calls ss st1 st3.
Proof. intros [P1 H1'] [P2 H2']. split; [congruence|]. intros s Hs. by rewrite H2', H1'. Qed.

Lemma calls_mono ss ss' st st' : calls ss st st' → ss ⊆ ss' → calls ss' st st'.
Proof. intros [? Ho] Hs. split; [done|]. intros s Hn. apply Ho. set_solver. Qed.

Lemma calls_obs ss st st' s : calls ss st st' → s ∉ ss → observed (sys st') s = observed (sys st) s.
Proof. intros [_ Ho]. apply Ho. Qed.

Lemma ns_call_spec s what f post st r st' :
  call_ok s f post → call what f st = (r, st') →
  calls [s] st st' ∧ (r = None → post (observed (sys st) s) (observed (sys st') s)).
Proof.
  unfold call. intros Hf. destruct (f (sys st)) as [r' w] eqn:E. intros [= <- <-].
  destruct (Hf _ _ _ E) as [Ho Hp]. split.
  - split; [done|]. intros s' Hs'. apply Ho. by intros ->; apply Hs'; left.
  - intros Hr. apply Hp. by destruct r'.
Qed.

Lemma or_return_inv (o k : op (W:=W)) st r st' :
  or_return o k st = (r, st') →
  (∃ e, o st = (Some e, st') ∧ r = Some e) ∨ (∃ st1, o st = (None, st1) ∧ k st1 = (r, st')).
Proof.
  unfold or_return, attempt, fail_with. destruct (o st) as [[e|] st1]; [|by right; eexists].
  intros [= <- <-]. left. by eexists.
Qed.

Lemma disableService_spec s st r st' :
  disableService s st = (r, st') →
  calls [s] st st' ∧ (r = None → turned_off (observed (sys st') s)).
Proof.
  unfold disableService. intros [(e & E & ->)|(st1 & E1 & E)]%or_return_inv.
  { split; [|done]. by eapply (ns_call_spec s), E; apply DisableAutoProxy_ok. }
  eapply (ns_call_spec s) in E1 as [C1 P1]; [|apply DisableAutoProxy_ok].
  apply or_return_inv in E as [(e & E & ->)|(st2 & E2 & E)].
  { split; [|done]. eapply calls_trans; [done|]. by eapply (ns_call_spec s), E; apply DisableWebProxy_ok. }
  eapply (ns_call_spec s) in E2 as [C2 P2]; [|apply DisableWebProxy_ok].
  eapply (ns_call_spec s) in E as [C3 P3]; [|apply SetBypassDomains_ok].
  split; [by eauto using calls_trans|]. intros Hr. specialize (P1 eq_refl). specialize (P2 eq_refl).
  specialize (P3 Hr). change (bypass_set []) with (@nil string) in P3.
  unfold same_web, same_auto, same_bypass, turned_off in *. destruct_and!. split_and!; congruence.
Qed.

Lemma disable_all_spec ss st r st' :
  disable_all ss st = (r, st') →
  calls ss st st' ∧ (r = None → ∀ s, s ∈ ss → turned_off (observed (sys st') s)).
Proof.
  revert st. induction ss as [|s ss IH]; intros st; cbn [disable_all].
  { intros [= <- <-]. split; [done|]. set_solver. }
  intros [(e & E & ->)|(st1 & E1 & E)]%or_return_inv.
  - apply disableService_spec in E as [C _]. split; [|done]. eapply calls_mono; [done|set_solver].
  - apply disableService_spec in E1 as [C1 P1]. apply IH in E as [C P]. split.
    + eapply calls_trans; (eapply calls_mono; [done|set_solver]).
    + intros Hr s' Hs'. destruct (decide (s' ∈ ss)); [by apply P|].
      assert (s' = s) as -> by set_solver. rewrite (calls_obs _ _ _ _ C) by done. by apply P1.
Qed.

(** *** Applying *)

Definition on (c : Config) : bool := negb (String.eqb (cMode c) ModeOff).

(** What rolling back leaves on the services. *)
Definition restored (cfg old : Config) (u : string) (w : W) : Prop :=
  if on old
  then pointed old u w ∧ (Service cfg ≠ Service old → turned_off (observed w (Service cfg)))
  else turned_off (observed w (Service cfg)).

Lemma point_again_spec old u st r st' :
  or_return (call "" (SetAutoProxyURL (Service old) u))
    (call "" (SetBypassDomains (Service old) (bypassDomainsFor (Direct old)))) st = (r, st') →
  calls [Service old] st st' ∧ (r = None → pointed old u (sys st')).
Proof.
  intros [(e & E & ->)|(st1 & E1 & E)]%or_return_inv.
  { split; [|done]. by eapply (ns_call_spec (Service old)), E; apply SetAutoProxyURL_ok. }
  eapply (ns_call_spec (Service old)) in E1 as [C1 P1]; [|apply SetAutoProxyURL_ok].
  eapply (ns_call_spec (Service old)) in E as [C P]; [|apply SetBypassDomains_ok].
  split; [by eapply calls_trans|]. intros Hr. specialize (P1 eq_refl). specialize (P Hr).
  unfold pointed, same_auto in *. destruct_and!. split_and!; congruence.
Qed.

Lemma restore_spec cfg st r st' :
  let old := m_cfg (proc st) in
  restore cfg st = (r, st') →
  calls [Service cfg; Service old] st st' ∧
  (r = None → restored cfg old (url (server (proc st))) (sys st')).
Proof.
  intros old. unfold restore, restored. cbn zeta. fold old. change (negb (String.eqb (cMode old) ModeOff)) with (on old).
  destruct (on old); cycle 1.
  { intros E. apply disableService_spec in E as [C P]. split; [|done]. eapply calls_mono; [done|set_solver]. }
  intros [(e & E & ->)|(st1 & E1 & E)]%or_return_inv.
  { split; [|done]. destruct (negb _); [|done]. apply disableService_spec in E as [C _].
    eapply calls_mono; [done|set_solver]. }
  apply point_again_spec in E as [C P].
  assert (calls [Service cfg] st st1 ∧
    (Service cfg ≠ Service old → turned_off (observed (sys st1) (Service cfg)))) as [C1 P1].
  { destruct (String.eqb_spec (Service cfg) (Service old)) as [He|Hn]; cbn in E1.
    - injection E1 as <-. split; [done|]. by intros [].
    - apply disableService_spec in E1 as [C1 P1]. split; [done|]. intros _. by apply P1. }
  split; [eapply calls_trans; (eapply calls_mono; [done|set_solver])|].
  intros Hr. split; [by apply P|]. intros Hn. rewrite (calls_obs _ _ _ _ C) by set_solver. by apply P1.
Qed.

Lemma rollback_spec x cfg c cause st r st' :
  prepared x c (proc st) → rollback cfg c cause st = (r, st') →
  rolled x (proc st') ∧ only [Service cfg; Service (m_cfg x)] (sys st) (sys st') ∧
  ((r = Some cause ∧ restored cfg (m_cfg x) (url (server x)) (sys st')) ∨
   ∃ e, r = Some (RollbackFailed cause e)).
Proof.
  intros Hp. unfold rollback. destruct (restore _ _) as [r' st1] eqn:E.
  apply restore_spec in E as [[Hproc Ho] P]. cbn [on_proc proc sys] in *.
  pose proof (abort_rolled _ _ _ Hp) as Hr. pose proof Hr as (Hm & Hs & _). rewrite Hm in *. rewrite Hs in P.
  rewrite <- Hproc in Hr. destruct r' as [e|]; intros [= <- <-]; split_and!; try done.
  - right. by eexists.
  - left. split; [done|]. by apply P.
Qed.

(** Preparing a candidate binds at most a port. *)
Lemma prepare_spec port body st r st' :
  prepare port body st = (r, st') →
  only [] (sys st) (sys st') ∧
  match r with
  | Err e => proc st' = proc st ∧ ∃ n, e = ErrListen port n
  | Ok c => prepared (proc st) c (proc st') ∧
            (port ≠ 0%Z → candidate_port (proc st) c = port)
  end.
Proof.
  unfold prepare, reusable.
  destruct (match srv _ with None => false | Some _ => _ end) eqn:Hre.
  - intros [= <- <-]. split; [done|]. destruct (srv (server (proc st))) eqn:Hs; [|done].
    cbn. rewrite Hs. split; [by split|]. apply orb_true_iff in Hre. rewrite !Z.eqb_eq in Hre. intros Hn.
    by destruct Hre.
  - destruct (pacListen port (sys st)) as [[p|e] w] eqn:E.
    + destruct (add_candidate p body (proc st)) as [c x] eqn:Ec. intros [= <- <-]. cbn [proc sys].
      split; [intros s _; by eapply pacListen_services|].
      apply add_candidate_prepared in Ec as [Hp Hport]. split; [done|]. intros Hn. cbn. rewrite Hport.
      apply pacListen_port in E as [_ E]. by apply E.
    + intros [= <- <-]. cbn. split_and!; [intros s _; by eapply pacListen_services|done|by eexists].
Qed.

Definition rollback_failed (e : MErr) : bool := match e with RollbackFailed _ _ => true | _ => false end.

Lemma diagnose_no_rollback port n st : rollback_failed (diagnoseBindError diag port (ErrListen port n) st) = false.
Proof. unfold diagnoseBindError. by repeat case_match. Qed.

Definition effective (cfg cfg' : Config) : Prop :=
  cfg' = cfg ∨ (PACPort cfg = LegacyPACPort ∧ cfg' = set_pac_port 0 cfg).

Lemma prepare_or_migrate_spec cfg pac st r st' :
  prepare_or_migrate diag cfg pac st = (r, st') →
  only [] (sys st) (sys st') ∧
  match r with
  | Err e => proc st' = proc st ∧ rollback_failed e = false
  | Ok (c, cfg') => prepared (proc st) c (proc st') ∧ effective cfg cfg' ∧
                    (PACPort cfg' ≠ 0%Z → candidate_port (proc st) c = PACPort cfg')
  end.
Proof.
  unfold prepare_or_migrate. destruct (prepare (PACPort cfg) pac st) as [[c|e] st1] eqn:E1;
    apply prepare_spec in E1 as [Ho1 P1].
  - intros [= <- <-]. split; [done|]. destruct P1 as [Hp Hport]. split_and!; [done|by left|done].
  - destruct P1 as [Hp1 [n ->]]. destruct (negb (PACPort cfg =? LegacyPACPort)%Z) eqn:Hl; cbn [orb].
    { intros [= <- <-]. split_and!; [done..|]. apply diagnose_no_rollback. }
    destruct (negb (is_in_use _)).
    { intros [= <- <-]. split_and!; [done..|]. apply diagnose_no_rollback. }
    apply negb_false_iff, Z.eqb_eq in Hl.
    destruct (prepare 0 pac st1) as [[c|e] st2] eqn:E2; apply prepare_spec in E2 as [Ho2 P2]; rewrite Hp1 in P2.
    + intros [= <- <-]. split; [intros s Hs; by rewrite Ho2, Ho1|]. destruct P2 as [Hp _].
      split_and!; [done|by right|done].
    + intros [= <- <-]. destruct P2 as [Hp2 _]. split_and!; [intros s Hs; by rewrite Ho2, Ho1|done|].
      apply diagnose_no_rollback.
Qed.

Lemma attempt_inv (o k : op (W:=W)) h st r st' :
  attempt o h k st = (r, st') →
  (∃ e st1, o st = (Some e, st1) ∧ h e st1 = (r, st')) ∨ (∃ st1, o st = (None, st1) ∧ k st1 = (r, st')).
Proof. unfold attempt. destruct (o st) as [[e|] st1]; [left; by eexists _, _|right; by eexists]. Qed.

Definition manual_off (o : State) : Prop := WebProxyEnabled o = false ∧ SecureWebProxyEnabled o = false.

(** The three calls that point a service at the server. *)
Lemma point_spec s u ds st0 st1 st2 st3 e1 e2 e3 :
  call e1 (DisableWebProxy s) st0 = (None, st1) → call e2 (SetAutoProxyURL s u) st1 = (None, st2) →
  call e3 (SetBypassDomains s ds) st2 = (None, st3) →
  calls [s] st0 st3 ∧ let o := observed (sys st3) s in
  AutoProxyEnabled o = true ∧ AutoProxyURL o = u ∧ BypassDomains o = bypass_set ds ∧ manual_off o.
Proof.
  intros E1 E2 E3. eapply (ns_call_spec s) in E1 as [C1 P1]; [|apply DisableWebProxy_ok].
  eapply (ns_call_spec s) in E2 as [C2 P2]; [|apply SetAutoProxyURL_ok].
  eapply (ns_call_spec s) in E3 as [C3 P3]; [|apply SetBypassDomains_ok].
  split; [by eauto using calls_trans|]. specialize (P1 eq_refl). specialize (P2 eq_refl). specialize (P3 eq_refl).
  unfold same_auto, same_web, manual_off in *. destruct P1 as (Hw & Hs & _), P2 as (Ha & Hu & _ & Hw2 & Hs2).
  specialize (Hw2 Hw). specialize (Hs2 Hs). destruct_and!. cbn. split_and!; congruence.
Qed.

(** How [apply_on] ends. *)
Inductive outcome (cfg : Config) (x : Proc) (w : W) : option MErr → Proc → W → Prop :=
  | Refused e w' : rollback_failed e = false → only [] w w' → outcome cfg x w (Some e) x w'
  | RolledBack e x' w' :
      rolled x x' → restored cfg (m_cfg x) (url (server x)) w' →
      outcome cfg x w (Some e) x' w'
  | NotRolledBack e x' w' : rolled x x' → rollback_failed e = true → outcome cfg x w (Some e) x' w'
  | Committed cfg' c pac x' w' :
      effective cfg cfg' → GeneratePAC cfg = Some pac → prepared x c x' →
      (PACPort cfg' ≠ 0%Z → candidate_port x c = PACPort cfg') →
      pointed cfg' (candidateURL (server x) c) w' → manual_off (observed w' (Service cfg)) →
      (on (m_cfg x) = true → Service (m_cfg x) ≠ Service cfg → turned_off (observed w' (Service (m_cfg x)))) →
      let y := commit_proc c pac x' in
      outcome cfg x w None {| m_cfg := cfg'; server := server y; live := live y; bodies := bodies y |} w'.

Lemma only_trans ss w1 w2 w3 : only ss w1 w2 → only ss w2 w3 → only ss w1 w3.
Proof. intros H1' H2' s Hs. by rewrite H2', H1'. Qed.

Lemma only_nil ss w w' : only [] w w' → only ss w w'.
Proof. intros Ho s _. apply Ho. set_solver. Qed.

Lemma effective_service cfg cfg' : effective cfg cfg' → Service cfg' = Service cfg.
Proof. by intros [->|[_ ->]]. Qed.

Lemma rollback_outcome cfg cfg' x c cause w0 st0 st r st' :
  effective cfg cfg' → prepared x c (proc st0) → only [] w0 (sys st0) →
  calls [Service cfg; Service (m_cfg x)] st0 st → rollback cfg' c cause st = (r, st') →
  only [Service cfg; Service (m_cfg x)] w0 (sys st') ∧ outcome cfg x w0 r (proc st') (sys st').
Proof.
  intros Heff Hp Ho [Hproc Ho'] E. rewrite <- Hproc in Hp. apply (rollback_spec x) in E as (Hr & Ho2 & Hcase); [|done].
  assert (restored cfg' = restored cfg) as Hrest by by destruct Heff as [->|[_ ->]].
  rewrite (effective_service _ _ Heff) in Ho2. rewrite Hrest in Hcase. split.
  - eapply only_trans; [by apply only_nil|]. by eapply only_trans.
  - destruct Hcase as [[-> ?]|[e ->]]; [by apply RolledBack|by apply NotRolledBack].
Qed.

Lemma prepared_same x c x' : prepared x c x' → m_cfg x' = m_cfg x ∧ server x' = server x.
Proof. destruct c; cbn; [tauto|]. by intros [-> _]. Qed.

(** A call on the configured service keeps within the two services. *)
Lemma calls_left s s' st st' : calls [s] st st' → calls [s; s'] st st'.
Proof. intros C. eapply calls_mono; [done|set_solver]. Qed.

Lemma apply_on_spec cfg st r st' :
  let old := m_cfg (proc st) in
  apply_on diag cfg st = (r, st') →
  only [Service cfg; Service old] (sys st) (sys st') ∧
  outcome cfg (proc st) (sys st) r (proc st') (sys st').
Proof.
  intros old. unfold apply_on. destruct (GeneratePAC cfg) as [pac|] eqn:Hg.
  2: { intros [= <- <-]. split; [done|]. by apply Refused. }
  destruct (prepare_or_migrate diag cfg pac st) as [[[c cfg']|e] st0] eqn:E0;
    apply prepare_or_migrate_spec in E0 as [Ho0 P0].
  2: { intros [= <- <-]. destruct P0 as [-> He]. split; [by apply only_nil|]. by apply Refused. }
  destruct P0 as (Hp & Heff & Hport). cbn zeta.
  destruct (prepared_same _ _ _ Hp) as [-> ->]. fold old.
  pose proof (effective_service _ _ Heff) as Hsvc. rewrite Hsvc.
  pose proof (rollback_outcome cfg cfg' (proc st) c) as Hback. fold old in Hback.
  intros [(e & st1 & E1 & E)|(st1 & E1 & E)]%attempt_inv.
  { eapply Hback, E; [done..|]. eapply calls_left. by eapply (ns_call_spec (Service cfg)), E1; apply DisableWebProxy_ok. }
  pose proof E1 as [C1 _]%(ns_call_spec (Service cfg) _ _ _ _ _ _ (DisableWebProxy_ok _)).
  apply attempt_inv in E as [(e & st2 & E2 & E)|(st2 & E2 & E)].
  { eapply Hback, E; [done..|]. eapply calls_left, calls_trans; [done|].
    by eapply (ns_call_spec (Service cfg)), E2; apply SetAutoProxyURL_ok. }
  pose proof E2 as [C2 _]%(ns_call_spec (Service cfg) _ _ _ _ _ _ (SetAutoProxyURL_ok _ _)).
  apply attempt_inv in E as [(e & st3 & E3 & E)|(st3 & E3 & E)].
  { eapply Hback, E; [done..|]. eapply calls_left, calls_trans, calls_trans; [done..|].
    by eapply (ns_call_spec (Service cfg)), E3; apply SetBypassDomains_ok. }
  destruct (point_spec _ _ _ _ _ _ _ _ _ _ E1 E2 E3) as (C3 & Hauto & Hurl & Hby & Hman).
  change (negb (String.eqb (cMode old) ModeOff)) with (on old) in E.
  apply attempt_inv in E as [(e & st4 & E4 & E)|(st4 & E4 & E)].
  { eapply Hback, E; [done..|]. eapply calls_trans; [by apply calls_left|].
    destruct (_ && _); [|done]. apply disableService_spec in E4 as [C4 _].
    eapply calls_mono; [done|set_solver]. }
  assert (calls [Service old] st3 st4 ∧ observed (sys st4) (Service cfg) = observed (sys st3) (Service cfg) ∧
    (on old = true → Service old ≠ Service cfg → turned_off (observed (sys st4) (Service old)))) as (C4 & Hsame & Hoff).
  { destruct (on old); cbn in E4; [|by injection E4 as <-].
    destruct (String.eqb_spec (Service old) (Service cfg)) as [He|Hn]; cbn in E4.
    - injection E4 as <-. split_and!; [done..|]. by intros _ [].
    - apply disableService_spec in E4 as [C4 P4]. split_and!; [done| |].
      + apply (calls_obs _ _ _ _ C4). set_solver.
      + intros _ _. by apply P4. }
  injection E as <- <-. cbn [adopt on_proc proc sys]. split.
  - eapply only_trans; [by apply only_nil|]. eapply only_trans; [by eapply calls_left|].
    eapply calls_mono; [done|set_solver].
  - destruct C3 as [HC3 _], C4 as [HC4 _]. rewrite HC4, HC3.
    apply Committed; try done.
    + unfold pointed. by rewrite Hsvc, Hsame.
    + by rewrite Hsame.
Qed.

(** *** The state between two calls *)

(** One server and no other listener, answering the script of the applied
    configuration, and the configured service points at it; with the proxy off
    nothing listens.  That is all the manager holds between two calls: with
    the proxy off a service has whatever its user or a failed call left there,
    and so has, with the proxy on, every service but the configured one, and
    the configured one's manual proxies after a failed call; what a call that
    returns does to these is said by its own theorem. *)
Definition inv (st : St W) : Prop :=
  let x := proc st in let c := m_cfg x in
  server_ok x ∧
  if on c
  then is_Some (srv (server x)) ∧ served x = GeneratePAC c ∧ pointed c (url (server x)) (sys st) ∧
       (PACPort c ≠ 0%Z → port (server x) = PACPort c)
  else srv (server x) = None.

Lemma inv_rolled st x' w' :
  inv st → rolled (proc st) x' →
  (on (m_cfg (proc st)) = true → pointed (m_cfg (proc st)) (url (server (proc st))) w') →
  inv {| proc := x'; sys := w' |}.
Proof.
  unfold inv. cbn [proc sys]. intros [Hok Hi] Hr Hp. destruct (rolled_ok _ _ Hr Hok) as [Hok' Hserved].
  split; [done|]. destruct Hr as (Hm & Hs & _). rewrite Hm, Hs, Hserved. destruct (on _); [|done].
  destruct Hi as (? & ? & _ & ?). split_and!; try done. by apply Hp.
Qed.

Lemma GeneratePAC_effective cfg cfg' : effective cfg cfg' → GeneratePAC cfg' = GeneratePAC cfg ∧ cMode cfg' = cMode cfg.
Proof. by intros [->|[_ ->]]. Qed.

Lemma close_spec st r st' :
  server_ok (proc st) → close st = (r, st') →
  sys st' = sys st ∧ m_cfg (proc st') = m_cfg (proc st) ∧ srv (server (proc st')) = None ∧ server_ok (proc st').
Proof.
  unfold close, server_ok. intros [Hb Hl]. destruct (srv (server (proc st))) as [i|] eqn:Hs; intros [= <- <-].
  - cbn. split_and!; [done..|]. rewrite Hl. by rewrite delete_singleton_eq.
  - by rewrite Hs.
Qed.

Lemma apply_off_spec cfg st r st' :
  let old := m_cfg (proc st) in
  server_ok (proc st) → apply_off cfg st = (r, st') →
  only [Service cfg; Service old] (sys st) (sys st') ∧ server_ok (proc st') ∧
  match r with
  | None => m_cfg (proc st') = cfg ∧ srv (server (proc st')) = None ∧
            turned_off (observed (sys st') (Service cfg)) ∧
            (on old = true → turned_off (observed (sys st') (Service old)))
  | Some e => m_cfg (proc st') = old
  end.
Proof.
  intros old Hok. unfold apply_off. cbn zeta. fold old.
  change (negb (String.eqb (cMode old) ModeOff)) with (on old).
  set (ss := Service cfg :: _). assert (ss ⊆ [Service cfg; Service old]) as Hss.
  { unfold ss. destruct (_ && _); set_solver. }
  intros [(e & E & ->)|(st1 & E1 & E)]%or_return_inv.
  { apply disable_all_spec in E as [[HC Ho] _]. rewrite HC. split_and!; try done.
    eapply (calls_mono ss); [by split|done]. }
  apply disable_all_spec in E1 as [[HC Ho] P]. rewrite <- HC in Hok.
  assert (only [Service cfg; Service old] (sys st) (sys st1)) by (eapply (calls_mono ss); [by split|done]).
  apply or_return_inv in E as [(e & E & ->)|(st2 & E2 & E)].
  { apply close_spec in E as (-> & Hm & _ & Hok'); [|done]. rewrite HC in Hm. by split_and!. }
  apply close_spec in E2 as (Hs & _ & Hsrv & Hok'); [|done].
  injection E as <- <-. cbn [adopt on_proc proc sys m_cfg server]. rewrite Hs. split_and!; try done.
  - apply P; [done|]. unfold ss. set_solver.
  - intros Hon. apply P; [done|]. unfold ss. rewrite Hon. cbn [andb].
    destruct (String.eqb_spec (Service old) (Service cfg)) as [->|]; cbn; set_solver.
Qed.

(** *** Apply *)

(** What a successful [Apply] establishes. *)
Lemma Apply_ok cfg st st' :
  inv st → Apply diag cfg st = (None, st') →
  inv st' ∧ effective cfg (m_cfg (proc st')) ∧
  only [Service cfg; Service (m_cfg (proc st))] (sys st) (sys st') ∧
  manual_off (observed (sys st') (Service cfg)) ∧
  (on cfg = false → turned_off (observed (sys st') (Service cfg))) ∧
  (on (m_cfg (proc st)) = true → Service (m_cfg (proc st)) ≠ Service cfg →
     turned_off (observed (sys st') (Service (m_cfg (proc st))))).
Proof.
  intros [Hok _]. unfold Apply. destruct (Validate cfg); [done|].
  destruct (String.eqb (cMode cfg) ModeOff) eqn:Hm; intros E.
  - apply apply_off_spec in E as (Ho & Hok' & Hc & Hs & Ht & Hold); [|done].
    unfold inv, on, manual_off. rewrite Hc, Hm. cbn [negb]. split_and!; try done; try apply Ht.
    + by left.
    + intros Hon _. by apply Hold.
  - apply apply_on_spec in E as [Ho Hout]. inversion Hout as [| | |cfg' c pac x' w' He Hg Hp Hport Hpt Hman Hold]; subst. destruct (GeneratePAC_effective _ _ He) as [Hg' Hmode].
    destruct (commit_ok _ _ _ pac Hok Hp) as (Hoky & Hsy & Hsrvy & Hporty & Hurly & _). set (y := commit_proc c pac x') in *.
    unfold inv, on. replace (proc st') with {| m_cfg := cfg'; server := server y; live := live y; bodies := bodies y |}.
    cbn [m_cfg server]. rewrite Hmode, Hm, Hurly, Hg', Hg. cbn [negb].
    split_and!; try done. by rewrite Hporty.
Qed.

(** Whatever its outcome [Apply] leaks no listener. *)
Lemma Apply_server_ok cfg st r st' :
  server_ok (proc st) → Apply diag cfg st = (r, st') → server_ok (proc st').
Proof.
  intros Hok. unfold Apply. destruct (Validate cfg); [by intros [= <- <-]|].
  destruct (String.eqb (cMode cfg) ModeOff); intros E.
  - by apply apply_off_spec in E as (_ & ? & _).
  - apply apply_on_spec in E as [_ Hout].
    assert (r ≠ None → rolled (proc st) (proc st')) as Hr by (intros; by inversion Hout; subst).
    destruct r as [e|]; [by apply (rolled_ok _ _ (Hr ltac:(done)) Hok)|].
    inversion Hout as [| | |cfg' c pac x' w' He Hg Hp Hport Hpt Hman Hold]; subst.
    by destruct (commit_ok _ _ _ pac Hok Hp) as (? & _).
Qed.
Lemma Restore_server_ok cfg st r st' :
  server_ok (proc st) → Restore diag cfg st = (r, st') → server_ok (proc st').
Proof.
  intros Hok. unfold Restore. destruct (Validate cfg); [by intros [= <- <-]|].
  destruct (String.eqb (cMode cfg) ModeOff); [by intros [= <- <-]|by apply Apply_server_ok].
Qed.

(** C39: an accepted configuration is in force.  A successful [Apply] leaves
    exactly one listener when the proxy is on, serving the script of the new
    configuration at the URL its service points at, and none when it is off;
    the service's manual proxies are off; the service used before, if another,
    is turned off; no third service changes; and the configuration kept is the
    one given, up to the migration of the legacy port. *)
Theorem apply_commits cfg st st' :
  inv st → Apply diag cfg st = (None, st') →
  inv st' ∧ effective cfg (m_cfg (proc st')) ∧
  only [Service cfg; Service (m_cfg (proc st))] (sys st) (sys st') ∧
  manual_off (observed (sys st') (Service cfg)) ∧
  (on cfg = false → turned_off (observed (sys st') (Service cfg))) ∧
  (on (m_cfg (proc st)) = true → Service (m_cfg (proc st)) ≠ Service cfg →
     turned_off (observed (sys st') (Service (m_cfg (proc st))))).
Proof. exact (Apply_ok cfg st st'). Qed.

(** C38: a rejected configuration is undone.  When [Apply] fails, whatever
    failed, the configuration kept is the old one, no listener is leaked and
    no service changed but the one asked for and the old one.  When moreover
    the mode asked for is not off and rolling back met no error, the server
    and its script are those from before, and either no service was touched
    at all, or: with the proxy on before, the old service points at the old
    URL with the bypass list of the old configuration, and the service asked
    for, if another, has script, manual proxies and bypass list off; with the
    proxy off before, the service asked for has all of these off, which is
    what the code does and not what the user may have had set by hand. *)
Theorem apply_rolls_back cfg st e st' :
  inv st → Apply diag cfg st = (Some e, st') →
  let old := m_cfg (proc st) in
  m_cfg (proc st') = old ∧ server_ok (proc st') ∧
  only [Service cfg; Service old] (sys st) (sys st') ∧
  (on cfg = true → rollback_failed e = false →
     inv st' ∧ server (proc st') = server (proc st) ∧ served (proc st') = served (proc st) ∧
     (only [] (sys st) (sys st') ∨
      if on old
      then (let o := observed (sys st') (Service old) in
            AutoProxyEnabled o = true ∧ AutoProxyURL o = url (server (proc st)) ∧
            BypassDomains o = bypass_set (bypassDomainsFor (Direct old))) ∧
           (Service cfg ≠ Service old → turned_off (observed (sys st') (Service cfg)))
      else turned_off (observed (sys st') (Service cfg)))).
Proof.
  intros Hinv. pose proof Hinv as [Hok Hi]. unfold Apply.
  destruct (Validate cfg) as [v|]; [intros [= <- <-]; split_and!; try done; intros; split_and!; try done; by left|].
  destruct (String.eqb (cMode cfg) ModeOff) eqn:Hm; intros E.
  - apply apply_off_spec in E as (Ho & Hok' & Hc); [|done]. unfold on at 1. rewrite Hm. by split_and!.
  - apply apply_on_spec in E as [Ho Hout].
    assert (rolled (proc st) (proc st')) as Hr by (by inversion Hout; subst).
    destruct (rolled_ok _ _ Hr Hok) as [Hok' Hserved]. pose proof Hr as (Hmc & Hsrv & _).
    split_and!; try done. intros _ Hrb. destruct st' as [x' w']. cbn [proc sys] in *.
    assert (only [] (sys st) w' ∨ restored cfg (m_cfg (proc st)) (url (server (proc st))) w') as Hset
      by (inversion Hout; subst; [by left|by right|congruence]).
    split_and!; try done. apply (inv_rolled st); [done..|]. intros Hon. unfold inv in Hinv. rewrite Hon in Hi.
    destruct Hset as [Hno|Hrest].
    + destruct Hi as (_ & _ & Hpt & _). unfold pointed in *. by rewrite Hno by set_solver.
    + unfold restored in Hrest. rewrite Hon in Hrest. by destruct Hrest.
Qed.

(** Restoring a configuration whose mode is off makes no call. *)
Lemma restore_off_makes_no_call cfg st :
  cMode cfg = ModeOff → sys (snd (Restore diag cfg st)) = sys st.
Proof. intros Hm. unfold Restore. destruct (Validate cfg); [done|]. by rewrite Hm. Qed.

(** Reclaiming the port removes an agent only when it is there and ours. *)
Lemma reclaim_only_ours st :
  sys (snd (ReclaimPort diag st)) ≠ sys st →
  ∃ d a, diag = Some d ∧ LegacyPACAgent d (sys st) = Ok a ∧ present a = true ∧ owned a = true.
Proof.
  unfold ReclaimPort. destruct diag as [d|]; [|done]. destruct (LegacyPACAgent d (sys st)) as [a|] eqn:Ha; [|done].
  destruct (present a) eqn:Hp, (owned a) eqn:Ho; cbn; try done. intros _. by eexists _, _.
Qed.

End laws.

(** ** A Mac *)

(** The settings, which of the next commands fail, and the ports in use. *)
Record Mac := { services : gmap string State; faults : list bool; busy : list Z }.

Definition blank : State := {|
  AutoProxyEnabled := false; AutoProxyURL := ""; WebProxyEnabled := false; SecureWebProxyEnabled := false;
  BypassDomains := [] |}.
Definition mac_state (w : Mac) (s : string) : State := default blank (services w !! s).

(** What a command does to the settings of its service. *)
Definition mac_effect (args : list string) (o : State) : State :=
  match args with
  | "-setautoproxyurl" :: _ :: u :: _ =>
      {| AutoProxyEnabled := true; AutoProxyURL := u; WebProxyEnabled := WebProxyEnabled o;
         SecureWebProxyEnabled := SecureWebProxyEnabled o; BypassDomains := BypassDomains o |}
  | "-setautoproxystate" :: _ :: b :: _ =>
      {| AutoProxyEnabled := String.eqb b "on"; AutoProxyURL := AutoProxyURL o;
         WebProxyEnabled := WebProxyEnabled o; SecureWebProxyEnabled := SecureWebProxyEnabled o;
         BypassDomains := BypassDomains o |}
  | "-setwebproxystate" :: _ :: b :: _ =>
      {| AutoProxyEnabled := AutoProxyEnabled o; AutoProxyURL := AutoProxyURL o;
         WebProxyEnabled := String.eqb b "on"; SecureWebProxyEnabled := SecureWebProxyEnabled o;
         BypassDomains := BypassDomains o |}
  | "-setsecurewebproxystate" :: _ :: b :: _ =>
      {| AutoProxyEnabled := AutoProxyEnabled o; AutoProxyURL := AutoProxyURL o;
         WebProxyEnabled := WebProxyEnabled o; SecureWebProxyEnabled := String.eqb b "on";
         BypassDomains := BypassDomains o |}
  | "-setproxybypassdomains" :: _ :: ds =>
      {| AutoProxyEnabled := AutoProxyEnabled o; AutoProxyURL := AutoProxyURL o;
         WebProxyEnabled := WebProxyEnabled o; SecureWebProxyEnabled := SecureWebProxyEnabled o;
         BypassDomains := bypass_set ds |}
  | _ => o
  end.

#[local] Instance mac_tool : NetworksetupTool Mac := {|
  run args w :=
    let s := nth 1 args "" in
    match faults w with
    | true :: fs => (Some "refused", {| services := services w; faults := fs; busy := busy w |})
    | fs => (None, {| services := <[s := mac_effect args (mac_state w s)]> (services w);
                      faults := tail fs; busy := busy w |})
    end;
  settings := mac_state |}.

Lemma mac_run_ok s cmd args (post : State → State → Prop) :
  (∀ o, post o (mac_effect (cmd :: s :: args) o)) → call_ok s (run (cmd :: s :: args)) post.
Proof.
  intros Hp w r w'. cbn [run mac_tool nth observed darwinNetworkSetup settings].
  assert (∀ f b s', s' ≠ s → mac_state {| services := <[s := mac_effect (cmd :: s :: args) (mac_state w s)]> (services w);
    faults := f; busy := b |} s' = mac_state w s') as Hne.
  { intros f b s' Hs. unfold mac_state. cbn [services]. by rewrite lookup_insert_ne. }
  assert (∀ f b, mac_state {| services := <[s := mac_effect (cmd :: s :: args) (mac_state w s)]> (services w);
    faults := f; busy := b |} s = mac_effect (cmd :: s :: args) (mac_state w s)) as He.
  { intros f b. unfold mac_state. cbn [services]. by rewrite lookup_insert_eq. }
  destruct (faults w) as [|[|] fs]; intros [= <- <-]; split; try done; try (intros s' Hs; by apply Hne);
    intros _; rewrite He; apply Hp.
Qed.

#[local] Instance mac_manual : NetworksetupManual Mac.
Proof.
  unfold same_auto, same_web, same_bypass.
  split; intros s.
  - intros u. by apply mac_run_ok.
  - intros b. apply mac_run_ok. by destruct b.
  - by apply mac_run_ok.
  - by apply mac_run_ok.
  - intros ds _. by apply mac_run_ok.
Qed.

#[local] Instance mac_sockets : Sockets Mac := {|
  pacListen port w :=
    if (port =? 0)%Z then (Ok 49152%Z, w)
    else if bool_decide (port ∈ busy w) then (Err EADDRINUSE, w) else (Ok port, w);
  close_error _ _ := None;
  http_ok _ _ := true |}.

#[local] Instance mac_sockets_laws : SocketsLaws Mac.
Proof.
  split; cbn.
  - intros port w r w' s. by repeat case_match; intros [= <- <-].
  - intros port w p w'. destruct (Z.eqb_spec port 0) as [->|Hn]; [by intros [= <- _]|].
    by case_bool_decide; intros [= <- _].
Qed.

#[local] Existing Instance ascii_only.
#[local] Existing Instance plain_text.
#[local] Existing Instance quote_as_is.

Definition fresh_mac (fs : list bool) (b : list Z) : St Mac :=
  {| proc := NewManager; sys := {| services := ∅; faults := fs; busy := b |} |}.

Lemma NewManager_inv (w : Mac) : inv {| proc := NewManager; sys := w |}.
Proof. split; [|reflexivity]. split; [by eexists|reflexivity]. Qed.

Definition pinned_sample : Config := set_pac_port LegacyPACPort exclude_sample.

(** A legacy pin on a busy port. *)
Lemma apply_commits_witness :
  let st := fresh_mac [] [LegacyPACPort] in
  let st' := snd (Apply None pinned_sample st) in
  fst (Apply None pinned_sample st) = None ∧ PACPort (m_cfg (proc st')) = 0%Z ∧ inv st'.
Proof.
  split; [vm_compute; reflexivity|]. split; [vm_compute; reflexivity|].
  apply (apply_commits None pinned_sample (fresh_mac [] [LegacyPACPort])); [apply NewManager_inv|].
  vm_compute. reflexivity.
Defined.

(** The next configuration is for another service; its second command, which
    turns the manual HTTPS proxy off, fails, and the rollback works. *)
Definition moved_sample : Config := set_service "Ethernet" exclude_sample.

Lemma apply_rolls_back_witness :
  let st := snd (Apply None exclude_sample (fresh_mac (replicate 5 false ++ [false; true]) [])) in
  let st' := snd (Apply None moved_sample st) in
  is_Some (fst (Apply None moved_sample st)) ∧ inv st'.
Proof.
  intros st st'. assert (Hst : inv st) by
    (refine (proj1 (Apply_ok None exclude_sample (fresh_mac (replicate 5 false ++ [false; true]) []) st _ _));
     [apply NewManager_inv|vm_compute; reflexivity]).
  assert (E : Apply None moved_sample st =
    (Some (ErrSetup "disable manual web proxy" "refused"), st')) by (vm_compute; reflexivity).
  split; [rewrite E; by eexists|].
  destruct (apply_rolls_back None moved_sample st (ErrSetup "disable manual web proxy" "refused") st' Hst E)
    as (_ & _ & _ & Hback).
  by apply Hback.
Defined.

(** Turning the proxy off stops at the first call that fails: the bypass list
    stays, the service does not point at the server any more, and the manager
    still reports the old mode. *)
Lemma off_stops_at_first_failure :
  let st := snd (Apply None exclude_sample (fresh_mac (replicate 5 false ++ [false; true]) [])) in
  let '(r, st') := Apply None DefaultConfig st in
  let o := observed (sys st') DefaultService in
  r = Some (ErrSetup "disable web proxy" "refused") ∧
  sMode (Manager_Status st') = ModeExclude ∧ PACServerUp (Manager_Status st') = true ∧
  AutoProxyEnabled o = false ∧ BypassDomains o = bypassDomainsFor (Direct exclude_sample) ∧
  faults (sys st') = [].
Proof. vm_compute. split_and!; reflexivity. Qed.

End SysManager.
