(* ===== verification/SysDarwin.v ===== *)
(** * SysDarwin: what the darwin adapter reads
    ([internal/sysproxy/networksetup_darwin.go])

    The settings of a network service, read back from the text networksetup
    prints; the services; who holds a port; and the agent an old version
    installed, which is removed only when its file is the program's own.  The
    commands and the home directory are the class [Darwin], files the
    interface [FS] of Store. *)

From S2P Require Import Prelude GoStr GoPath GoUrlFacts Link Store SysConfig SysPac SysManager.
Import Store SysConfig SysPac SysManager.

Local Open Scope string_scope.
Local Open Scope list_scope.

Module SysDarwin.

(** ** Reading the settings *)

Definition lines_of (out : string) : list string := fst (scan_lines MaxScanTokenSize out).

Definition field_of (key line : string) : option string :=
  match Cut line ":" with
  | Some (name, val) => if String.eqb (TrimSpace name) key then Some (TrimSpace val) else None
  | None => None
  end.
Fixpoint first_field (key : string) (lines : list string) : string :=
  match lines with
  | [] => ""
  | l :: lines => match field_of key l with Some v => v | None => first_field key lines end
  end.
Definition statusField (out key : string) : string := first_field key (lines_of out).

Definition no_domain `{GoUnicode} (line : string) : bool :=
  String.eqb line "" || Link.EqualFold line "empty" || Contains (ToLower line) "aren't any".
Definition parseBypassDomains `{GoUnicode} (out : string) : list string :=
  filter (λ l, no_domain l = false) (TrimSpace <$> lines_of out).

(** The commands that read: the arguments to an error or the text printed;
    lsof and ps, which also print when they fail; launchctl bootout, whose
    failure is ignored; the home directory. *)
Class Darwin (W : Type) := {
  get : list string → W → result string string;
  lsof : Z → W → string * option string;
  ps_comm : Z → W → string * option string;
  bootout : W → W;
  home_dir : W → result string string
}.

Section reading.
Context {W : Type} `{Darwin W} `{GoUnicode}.

Definition enabled (out : string) : bool := Link.EqualFold (statusField out "Enabled") "yes".

(** [Status]: four commands; the first that fails ends it. *)
Definition darwin_Status (service : string) (w : W) : result string State :=
  let? web := get ["-getwebproxy"; service] w in
  let? secure := get ["-getsecurewebproxy"; service] w in
  let? auto := get ["-getautoproxyurl"; service] w in
  let? bypass := get ["-getproxybypassdomains"; service] w in
  Ok {| AutoProxyEnabled := enabled auto; AutoProxyURL := statusField auto "URL";
        WebProxyEnabled := enabled web; SecureWebProxyEnabled := enabled secure;
        BypassDomains := parseBypassDomains bypass |}.

(** [Services]: the first line explains the asterisk of the others. *)
Definition Services (w : W) : result string (list string) :=
  let? out := get ["-listallnetworkservices"] w in
  Ok ((λ l, default l (CutPrefix "*" l)) <$> filter (λ l, l ≠ "") (TrimSpace <$> tail (lines_of out))).

(** ** Who holds a port *)

Definition darwin_HolderOf (port : Z) (w : W) : result string (option PortHolder) :=
  let '(out, err) := lsof port w in
  let text := TrimSpace out in
  match err with
  | Some e => if String.eqb text "" then Ok None else Err ("lsof: " +:+ e)
  | None =>
      match Fields text with
      | [] => Ok None
      | f :: _ =>
          match Atoi f with
          | None => Err ("lsof: unexpected pid output " +:+ f)
          | Some pid =>
              let '(pathOut, perr) := ps_comm pid w in
              let path := TrimSpace pathOut in
              Ok (Some {| PID := pid;
                          HolderPath := (match perr with
                                         | Some _ => "(unknown)"
                                         | None => if String.eqb path "" then "(unknown)" else path
                                         end) |})
          end
      end
  end.

(** ** The agent of an old version *)

Context `{Fin : FS W}.

Definition legacyPACAgentLabel : string := "com.singctl.pacserver".
Definition legacyPACAgentPlistPath (w : W) : result string string :=
  match home_dir w with
  | Ok home => Ok (Path.JoinPath [home; "Library"; "LaunchAgents"; legacyPACAgentLabel +:+ ".plist"])
  | Err e => Err ("resolve home directory: " +:+ e)
  end.

Definition darwin_LegacyPACAgent (w : W) : result string Agent :=
  let? p := legacyPACAgentPlistPath w in
  match ReadFile p w with
  | Err NotExist => Ok {| present := false; owned := false; path := p |}
  | Err _ => Err ("read " +:+ p)
  | Ok data => Ok {| present := true; owned := IsLegacyPACAgentPlist data; path := p |}
  end.

Definition darwin_RemoveLegacyPACAgent (w : W) : option string * W :=
  match darwin_LegacyPACAgent w with
  | Err e => (Some ("reclaim port: " +:+ e), w)
  | Ok a =>
      if negb (present a) then (Some "reclaim port: no legacy PAC LaunchAgent found", w)
      else if negb (owned a) then (Some ("reclaim port: " +:+ path a +:+ " is not singctl's own legacy PAC agent"), w)
      else match Remove (path a) (bootout w) with
           | (None, w) | (Some NotExist, w) => (None, w)
           | (Some _, w) => (Some ("reclaim port: remove " +:+ path a), w)
           end
  end.

(** [NewPortDiagnostics] *)
Definition darwinPortDiagnostics : PortDiagnostics W := {|
  HolderOf := darwin_HolderOf;
  LegacyPACAgent := darwin_LegacyPACAgent;
  RemoveLegacyPACAgent := darwin_RemoveLegacyPACAgent |}.
End reading.

(** ** What networksetup prints

    The texts of its manual: the settings of a service, one to a line; an unset
    URL is printed as [(null)], and an empty list as a sentence. *)

Definition yes_no (b : bool) : string := if b then "Yes" else "No".
Definition web_text (b : bool) (rest : string) : string := "Enabled: " +:+ yes_no b +:+ nl +:+ rest.
Definition url_shown (u : string) : string := if String.eqb u "" then "(null)" else u.
Definition auto_text (u : string) (b : bool) : string := unlines ["URL: " +:+ url_shown u; "Enabled: " +:+ yes_no b].
Definition bypass_text (s : string) (ds : list string) : string :=
  match ds with
  | [] => "There aren't any bypass domains set on " +:+ s +:+ "." +:+ nl
  | _ => unlines ds
  end.

Class NetworksetupPrints (W : Type) `{Darwin W, NetworkSetup W} : Prop := {
  prints_web s w : ∃ rest, get ["-getwebproxy"; s] w = Ok (web_text (WebProxyEnabled (observed w s)) rest);
  prints_secure s w : ∃ rest, get ["-getsecurewebproxy"; s] w = Ok (web_text (SecureWebProxyEnabled (observed w s)) rest);
  prints_auto s w : get ["-getautoproxyurl"; s] w =
    Ok (auto_text (AutoProxyURL (observed w s)) (AutoProxyEnabled (observed w s)));
  prints_bypass s w : get ["-getproxybypassdomains"; s] w = Ok (bypass_text s (BypassDomains (observed w s)))
}.

(** Settings whose text can be read: the values are lines of their own. *)
Definition line_ok (l : string) : bool := clean l && (slen l <? 60000)%Z.
Definition readable `{GoUnicode} (s : string) (o : State) : bool :=
  line_ok (url_shown (AutoProxyURL o)) && line_ok s && str_forallb is_ascii_byte s &&
  forallb (λ d, line_ok d && negb (no_domain d)) (BypassDomains o).

Lemma line_ok_spec l : line_ok l = true → plain l = true ∧ TrimSpace l = l ∧ (slen l < 60000)%Z.
Proof. unfold line_ok. intros [[Hp Ht]%clean_split Hl%Z.ltb_lt]%andb_true_iff. done. Qed.
Lemma readable_domains `{GoUnicode} ds : forallb (λ d, line_ok d && negb (no_domain d)) ds = true →
  Forall (λ d, line_ok d = true ∧ no_domain d = false) ds.
Proof.
  rewrite forallb_forall, Forall_forall. intros Hd d Hin%list_elem_of_In.
  specialize (Hd d Hin). by apply andb_true_iff in Hd as [? ?%negb_true_iff].
Qed.

Lemma first_line l rest : plain l = true → (slen l < MaxScanTokenSize)%Z →
  lines_of (l +:+ nl +:+ rest) = l :: lines_of rest.
Proof.
  intros Hp Hl. unfold lines_of, scan_lines. change (nl +:+ rest) with (String LF rest).
  rewrite split_lines_line by done. cbn [scan_tokens]. rewrite (proj2 (Z.ltb_lt _ _) Hl), drop_cr_plain by done.
  by destruct (scan_tokens _ _).
Qed.

Lemma web_text_enabled b rest : enabled (web_text b rest) = b.
Proof.
  unfold enabled, statusField, web_text. rewrite <- app_assoc_str, first_line by (by destruct b). by destruct b.
Qed.

Lemma colon_field key c v k : str_has ":" key = false → String.eqb (TrimSpace key) k = c → TrimSpace v = v →
  field_of k (key +:+ ": " +:+ v) = if c then Some v else None.
Proof.
  intros Hk Hc Hv. unfold field_of. change (": " +:+ v) with (String ":" (String " " v)).
  rewrite Cut_byte_app, Hc by done. destruct c; [|done].
  unfold TrimSpace. change (TrimLeftSpace (String " " v)) with (TrimLeftSpace v).
  destruct (TrimSpace_fixed _ Hv) as [Hl Hr]. by rewrite Hl, Hr.
Qed.

Lemma auto_text_lines u b : line_ok (url_shown u) = true →
  lines_of (auto_text u b) = ["URL: " +:+ url_shown u; "Enabled: " +:+ yes_no b].
Proof.
  intros (Hp & _ & Hl)%line_ok_spec. unfold auto_text, unlines. cbn [foldr].
  rewrite !first_line; try done; try (by destruct b).
  unfold slen in *. rewrite length_app_str. unfold MaxScanTokenSize. cbn [String.length]. lia.
Qed.

Lemma auto_text_read u b : line_ok (url_shown u) = true →
  statusField (auto_text u b) "URL" = url_shown u ∧ enabled (auto_text u b) = b.
Proof.
  intros Hu. pose proof (line_ok_spec _ Hu) as (Hp & Ht & _). unfold enabled, statusField. rewrite auto_text_lines by done.
  cbn [first_field]. change ("URL: " +:+ url_shown u) with ("URL" +:+ ": " +:+ url_shown u).
  rewrite (colon_field "URL" true), (colon_field "URL" false) by done. split; [done|]. by destruct b.
Qed.

Lemma bypass_text_read `{GoUnicode} s ds : line_ok s = true → str_forallb is_ascii_byte s = true →
  Forall (λ d, line_ok d = true ∧ no_domain d = false) ds → parseBypassDomains (bypass_text s ds) = ds.
Proof.
  intros (Hs & Hst & Hsl)%line_ok_spec Ha Hds. unfold parseBypassDomains, bypass_text. destruct ds as [|d ds].
  - set (t := "There aren't any bypass domains set on " +:+ s +:+ ".").
    assert (lines_of ("There aren't any bypass domains set on " +:+ s +:+ "." +:+ nl) = [t]) as ->.
    { replace ("There aren't any bypass domains set on " +:+ s +:+ "." +:+ nl) with (t +:+ nl +:+ "")
        by (unfold t; by rewrite !app_assoc_str).
      rewrite first_line; [done| |].
      - unfold t. by rewrite !plain_app, Hs.
      - unfold slen, t in *. rewrite !length_app_str. unfold MaxScanTokenSize. cbn [String.length]. lia. }
    assert (TrimSpace t = t) as Ht.
    { unfold TrimSpace.
      assert (TrimLeftSpace t = t) as ->
        by exact (TrimLeftSpace_word "T" ("here aren't any bypass domains set on " +:+ s +:+ ".") eq_refl).
      unfold t. rewrite <- app_assoc_str. by apply TrimRightSpace_ascii. }
    cbn [fmap list_fmap]. rewrite Ht, filter_cons_False; [done|].
    intros Hn. unfold no_domain in Hn. apply orb_false_iff in Hn as [_ Hn].
    unfold Contains, ToLower in Hn.
    assert (str_forallb is_ascii_byte t = true) as Hta by (unfold t; by rewrite !str_forallb_app, Ha).
    rewrite Hta in Hn. unfold t in Hn. done.
  - assert (lines_of (unlines (d :: ds)) = d :: ds) as ->.
    { unfold lines_of. rewrite scan_lines_unlines; [done|]. eapply Forall_impl; [exact Hds|].
      intros l [(Hp & _ & Hl)%line_ok_spec _]. split; [done|]. unfold MaxScanTokenSize. lia. }
    assert (TrimSpace <$> (d :: ds) = d :: ds) as ->.
    { clear -Hds. induction Hds as [|x l [(_ & Hx & _)%line_ok_spec _] _ IH]; [done|]. cbn [fmap list_fmap]. by rewrite Hx, IH. }
    clear -Hds. induction Hds as [|x l [_ Hx] _ IH]; [done|]. by rewrite filter_cons_True, IH.
Qed.

(** What [Status] reads is what the service is set to. *)
Lemma Status_reads {W} `{NetworksetupPrints W} `{GoUnicode} s w : readable s (observed w s) = true →
  let o := observed w s in
  darwin_Status s w = Ok {| AutoProxyEnabled := AutoProxyEnabled o; AutoProxyURL := url_shown (AutoProxyURL o);
    WebProxyEnabled := WebProxyEnabled o; SecureWebProxyEnabled := SecureWebProxyEnabled o; BypassDomains := BypassDomains o |}.
Proof.
  intros Hr. unfold readable in Hr. rewrite !andb_true_iff in Hr. destruct Hr as [[[Hu Hs] Ha] Hd%readable_domains]. cbv zeta. unfold darwin_Status.
  destruct (prints_web s w) as [r1 ->], (prints_secure s w) as [r2 ->]. cbn [rbind].
  rewrite prints_auto, prints_bypass. cbn [rbind].
  destruct (auto_text_read (AutoProxyURL (observed w s)) (AutoProxyEnabled (observed w s)) Hu) as [-> ->].
  by rewrite !web_text_enabled, bypass_text_read.
Qed.

(** ** A configuration that was applied is the one that is read *)
Section applied.
Context {W : Type} `{SocketsLaws W, !NetworkSetupLaws W, !Darwin W, !NetworksetupPrints W} `{GoUnicode, GoQuote, GoText}.
Context (diag : option (PortDiagnostics W)).

(** What was applied can be read back.  After a successful [Apply] of a
    configuration that is on, to a manager whose own state is consistent, the
    settings read from the text of networksetup are: automatic configuration
    on, from the URL at which the manager serves the script of the
    configuration, both manual proxies off, and the bypass list of the
    configuration.  The texts must be lines of their own. *)
Theorem applied_proxy_reads_back cfg st st' :
  inv st → on cfg = true → Apply diag cfg st = (None, st') → readable (Service cfg) (observed (sys st') (Service cfg)) = true →
  served (proc st') = GeneratePAC cfg ∧ url (server (proc st')) ≠ "" ∧
  darwin_Status (Service cfg) (sys st') = Ok {|
    AutoProxyEnabled := true; AutoProxyURL := url (server (proc st')); WebProxyEnabled := false;
    SecureWebProxyEnabled := false; BypassDomains := bypass_set (bypassDomainsFor (Direct cfg)) |}.
Proof.
  intros Hinv Hon Ha Hr.
  destruct (Apply_ok diag cfg st st' Hinv Ha) as ((_ & Hi) & Heff & _ & [Hw Hs] & _).
  assert (on (m_cfg (proc st')) = on cfg ∧ Service (m_cfg (proc st')) = Service cfg ∧
          Direct (m_cfg (proc st')) = Direct cfg ∧ GeneratePAC (m_cfg (proc st')) = GeneratePAC cfg) as (Ho & Hsv & Hd & Hg)
    by (destruct Heff as [->|[_ ->]]; by destruct cfg).
  rewrite Ho, Hon in Hi. destruct Hi as ([i Hsrv] & Hserved & Hp & _). unfold pointed in Hp. rewrite Hsv, Hd in Hp.
  destruct Hp as (Hae & Hau & Hby).
  assert (url (server (proc st')) ≠ "") as Hu by (unfold url; by rewrite Hsrv).
  split; [by rewrite Hserved, Hg|]. split; [done|].
  rewrite (Status_reads _ _ Hr). cbv zeta. rewrite Hae, Hau, Hw, Hs, Hby. unfold url_shown.
  by destruct (String.eqb_spec (url (server (proc st'))) "").
Qed.
End applied.

(** ** Reclaiming the port *)
Section reclaim.
Context {W : Type} `{FSLaws W, !Darwin W}.

(** Unloading an agent leaves the files alone. *)
Definition bootout_keeps_files : Prop := ∀ n w, ReadFile n (bootout w) = ReadFile n w.

(** Reclaiming the port touches nothing but the program's own agent.  A
    file that reads differently afterwards is the agent's, and held a text that
    is recognised as the program's; a file of that name that is not recognised
    is refused and the system is as it was; and when the call succeeds the file
    was there and is gone. *)
Theorem reclaim_removes_only_its_own (st : St W) (p : string) :
  bootout_keeps_files → legacyPACAgentPlistPath (sys st) = Ok p →
  let '(r, st') := ReclaimPort (Some darwinPortDiagnostics) st in
  proc st' = proc st ∧
  (∀ n, ReadFile n (sys st') ≠ ReadFile n (sys st) →
     n = p ∧ ∃ data, ReadFile p (sys st) = Ok data ∧ IsLegacyPACAgentPlist data = true) ∧
  (∀ data, ReadFile p (sys st) = Ok data → IsLegacyPACAgentPlist data = false → r = Some (NotOurs p) ∧ st' = st) ∧
  (r = None → is_ok (ReadFile p (sys st)) = true ∧ ReadFile p (sys st') = Err NotExist).
Proof.
  intros Hboot Hp. unfold ReclaimPort. cbn [darwinPortDiagnostics LegacyPACAgent RemoveLegacyPACAgent].
  unfold darwin_RemoveLegacyPACAgent, darwin_LegacyPACAgent. rewrite Hp. cbn [rbind].
  destruct (ReadFile p (sys st)) as [data|[|t]] eqn:Hr; cbn [present owned path negb]; [|by split_and!..].
  destruct (IsLegacyPACAgentPlist data) eqn:Ho; cbn [present owned path negb]; [|split_and!; try done; by intros ? [= ->]].
  destruct (Remove p (bootout (sys st))) as [r w] eqn:Hrem.
  assert (∀ n, n ≠ p → ReadFile n w = ReadFile n (sys st)) as Hothers.
  { intros n Hn. rewrite <- (Hboot n (sys st)). change w with (snd (r, w)). rewrite <- Hrem. by apply remove_others. }
  assert (∀ n, ReadFile n w ≠ ReadFile n (sys st) → n = p) as Hchg.
  { intros n Hn. destruct (decide (n = p)); [done|]. exfalso. by apply Hn, Hothers. }
  assert (r = None ∨ r = Some NotExist → ReadFile p w = Err NotExist) as Hgone.
  { intros Hr'. change w with (snd (r, w)). rewrite <- Hrem. apply remove_reads. by rewrite Hrem. }
  destruct r as [[|t]|]; cbn [on_sys proc sys fmap option_fmap option_map]; split_and!; try done;
    try (intros n Hn; split; [by apply Hchg|]; by exists data);
    try (intros ? [= <-] ?; congruence); intros _; split; try done; apply Hgone; auto.
Qed.
End reclaim.

(** ** Concrete runs *)
Module Sample.

(** A Mac that prints its settings. *)
#[local] Existing Instance mac_tool.
#[local] Existing Instance mac_manual.
#[local] Existing Instance mac_sockets.
#[local] Existing Instance mac_sockets_laws.
#[local] Existing Instance ascii_only.
#[local] Existing Instance plain_text.
#[local] Existing Instance quote_as_is.

#[local] Instance mac_prints_ : Darwin Mac := {|
  get args w :=
    match args with
    | ["-getwebproxy"; s] => Ok (web_text (WebProxyEnabled (mac_state w s)) ("Server: " +:+ nl))
    | ["-getsecurewebproxy"; s] => Ok (web_text (SecureWebProxyEnabled (mac_state w s)) ("Server: " +:+ nl))
    | ["-getautoproxyurl"; s] => Ok (auto_text (AutoProxyURL (mac_state w s)) (AutoProxyEnabled (mac_state w s)))
    | ["-getproxybypassdomains"; s] => Ok (bypass_text s (BypassDomains (mac_state w s)))
    | _ => Err "usage"
    end;
  lsof _ _ := ("", Some "exit status 1");
  ps_comm _ _ := ("", None);
  bootout w := w;
  home_dir _ := Ok "/Users/a" |}.
#[local] Instance mac_prints : NetworksetupPrints Mac.
Proof. split; intros s w; try done; by eexists. Qed.

Definition fresh : St Mac := {| proc := NewManager; sys := {| services := ∅; faults := []; busy := [] |} |}.

Lemma applied_proxy_reads_back_witness :
  fst (Apply None exclude_sample fresh) = None ∧
  darwin_Status "Wi-Fi" (sys (snd (Apply None exclude_sample fresh))) = Ok {|
    AutoProxyEnabled := true; AutoProxyURL := "http://127.0.0.1:49152/proxy.pac"; WebProxyEnabled := false;
    SecureWebProxyEnabled := false; BypassDomains := ["example.org"; "*.corp.local"] |}.
Proof.
  split; [vm_compute; reflexivity|].
  destruct (applied_proxy_reads_back None exclude_sample fresh (snd (Apply None exclude_sample fresh))) as (_ & _ & Hread).
  - apply NewManager_inv.
  - reflexivity.
  - vm_compute. reflexivity.
  - vm_compute. reflexivity.
  - etransitivity; [exact Hread|]. vm_compute. reflexivity.
Defined.

(** Files in memory, with a command that unloads. *)
#[local] Instance files_darwin : Darwin (gmap string string) := {|
  get _ _ := Err "usage"; lsof _ _ := ("", None); ps_comm _ _ := ("", None); bootout w := w; home_dir _ := Ok "/Users/a" |}.

Definition plist : string := "/Users/a/Library/LaunchAgents/com.singctl.pacserver.plist".
Definition old_agent : St (gmap string string) := {| proc := NewManager; sys := {[ plist := "python3 -m http.server --directory /Users/a/.config/singctl"; "/etc/hosts" := "x" ]} |}.

Lemma reclaim_removes_only_its_own_witness :
  fst (ReclaimPort (Some darwinPortDiagnostics) old_agent) = None ∧
  ReadFile plist (sys (snd (ReclaimPort (Some darwinPortDiagnostics) old_agent))) = Err NotExist.
Proof.
  assert (fst (ReclaimPort (Some darwinPortDiagnostics) old_agent) = None) as Hr by (vm_compute; reflexivity).
  split; [exact Hr|].
  pose proof (reclaim_removes_only_its_own old_agent plist ltac:(by intros n w) ltac:(vm_compute; reflexivity)) as H.
  destruct (ReclaimPort (Some darwinPortDiagnostics) old_agent) as [r st']. by apply H.
Defined.

(** A foreign agent of the same name stays. *)
Example foreign_agent_stays :
  let st : St (gmap string string) := {| proc := NewManager; sys := {[ plist := "python3 -m http.server" ]} |} in
  fst (ReclaimPort (Some darwinPortDiagnostics) st) = Some (NotOurs plist).
Proof. vm_compute. reflexivity. Qed.

End Sample.

End SysDarwin.
