(* ===== verification/SysApi.v ===== *)
(** * SysApi: the system proxy as the executor offers it
    ([internal/app/executor.go], the SYSPROXY commands of [cmd/singctl/main.go])

    The executor persists what the manager applies and restores it when it
    starts; the command SYSPROXY-SET decodes its request into a copy of the live
    configuration.  The copy's rule lists are slices of the live arrays, so the
    memory the decoder writes to is modelled: arrays in a store, and slices
    that name them. *)

From Stdlib Require Import ZifyBool.
From S2P Require Import Prelude GoStr GoUtf8 GoUrl Registry Link GoJson GoJsonData GoBase64 SysConfig SysPac SysManager.
Import Json Data SysConfig SysPac SysManager.

Local Open Scope string_scope.
Local Open Scope list_scope.

Module SysApi.

(** ** Memory *)

Abbreviation Heap := (list (list string)).

(** A slice that is not nil; its capacity is its array's length. *)
Record Slice := { s_arr : nat; s_len : nat }.

Definition array (h : Heap) (a : nat) : list string := match h !! a with Some l => l | None => [] end.
Definition cap (h : Heap) (s : option Slice) : nat := match s with Some s => length (array h (s_arr s)) | None => 0 end.
Definition len (s : option Slice) : nat := match s with Some s => s_len s | None => 0 end.
Definition read (h : Heap) (s : option Slice) : list string :=
  match s with Some s => take (s_len s) (array h (s_arr s)) | None => [] end.

Section decode.
(** The capacity the runtime chooses for a slice that must hold so many. *)
Context (grow : nat → nat).

(** Room for element [i]: a new array when the capacity is used up, and a
    length that reaches it. *)
Definition make_room (i : nat) (h : Heap) (s : option Slice) : Heap * Slice :=
  if (i <? cap h s)%nat
  then match s with
       | Some s => (h, {| s_arr := s_arr s; s_len := Nat.max (s_len s) (S i) |})
       | None => (h, {| s_arr := 0; s_len := 0 |})
       end
  else (h ++ [read h s ++ replicate (Nat.max (grow (S i)) (S i) - len s) ""], {| s_arr := length h; s_len := S i |}).

(** The loop of the decoder over the elements of an array, from index [i]; an
    element of another type is left as it is and remembered as an error. *)
Fixpoint decode_elements (i : nat) (vs : list json) (h : Heap) (s : option Slice) : bool * Heap * option Slice :=
  match vs with
  | [] => (true, h, s)
  | v :: vs =>
      let '(h, s) := make_room i h s in
      match dec_string (nth i (array h (s_arr s)) "") v with
      | Some t => decode_elements (S i) vs (alter (λ l, <[i := t]> l) (s_arr s) h) (Some s)
      | None => let '(_, h, s) := decode_elements (S i) vs h (Some s) in (false, h, s)
      end
  end.

(** A value into a slice: the length is cut to what was read, and no element
    makes a new empty slice. *)
Definition decode_slice (v : json) (h : Heap) (s : option Slice) : bool * Heap * option Slice :=
  match v with
  | JArr vs =>
      let '(ok, h, s) := decode_elements 0 vs h s in
      match vs, s with
      | [], _ => (ok, h ++ [[]], Some {| s_arr := length h; s_len := 0 |})
      | _, Some s => (ok, h, Some {| s_arr := s_arr s; s_len := length vs |})
      | _, None => (ok, h, None)
      end
  | JNull => (true, h, None)
  | _ => (false, h, s)
  end.

(** ** The request *)

(** The fields that are not lists. *)
Definition scalar_fields : Fields Config := [
  field "mode" cMode set_mode dec_string; field "host" Host set_host dec_string; field "port" SysConfig.Port set_port dec_int;
  field "service" Service set_service dec_string; field "pac_port" PACPort set_pac_port dec_int;
  field "bypass_plain_hostnames" BypassPlainHostnames set_bypass dec_bool].

(** The copy being decoded into, and whether every value fitted so far. *)
Record Draft := { d_ok : bool; d_cfg : Config; d_heap : Heap; d_proxy : option Slice; d_direct : option Slice }.

Definition decode_member (kv : string * json) (d : Draft) : Draft :=
  let k := unquote (fst kv) in
  match list_find (λ f, Link.EqualFold k (fst f) = true) scalar_fields with
  | Some (_, (_, dec)) =>
      match dec (d_cfg d) (snd kv) with
      | Some c => {| d_ok := d_ok d; d_cfg := c; d_heap := d_heap d; d_proxy := d_proxy d; d_direct := d_direct d |}
      | None => {| d_ok := false; d_cfg := d_cfg d; d_heap := d_heap d; d_proxy := d_proxy d; d_direct := d_direct d |}
      end
  | None =>
      if Link.EqualFold k "proxy" then
        let '(ok, h, s) := decode_slice (snd kv) (d_heap d) (d_proxy d) in
        {| d_ok := d_ok d && ok; d_cfg := d_cfg d; d_heap := h; d_proxy := s; d_direct := d_direct d |}
      else if Link.EqualFold k "direct" then
        let '(ok, h, s) := decode_slice (snd kv) (d_heap d) (d_direct d) in
        {| d_ok := d_ok d && ok; d_cfg := d_cfg d; d_heap := h; d_proxy := d_proxy d; d_direct := s |}
      else d
  end.

Definition decode_config (v : json) (d : Draft) : Draft :=
  match v with
  | JObj ms => foldl (λ d kv, decode_member kv d) d ms
  | JNull => d
  | _ => {| d_ok := false; d_cfg := d_cfg d; d_heap := d_heap d; d_proxy := d_proxy d; d_direct := d_direct d |}
  end.
End decode.

(** [SysProxyConfig]: a copy of the live configuration, whose lists are the live
    arrays; [ptail] and [dtail] is what those arrays hold past the lists. *)
Definition copy_of (live : Config) (ptail dtail : list string) : Draft := {|
  d_ok := true; d_cfg := live; d_heap := [Proxy live ++ ptail; Direct live ++ dtail];
  d_proxy := Some {| s_arr := 0; s_len := length (Proxy live) |}; d_direct := Some {| s_arr := 1; s_len := length (Direct live) |} |}.

(** The configuration the copy has become, and what the live one now shows. *)
Definition config_of (d : Draft) : Config := set_direct (read (d_heap d) (d_direct d)) (set_proxy (read (d_heap d) (d_proxy d)) (d_cfg d)).
Definition live_after (live : Config) (d : Draft) : Config :=
  set_direct (take (length (Direct live)) (array (d_heap d) 1)) (set_proxy (take (length (Proxy live)) (array (d_heap d) 0)) live).

Definition with_live (c : Config) (x : Proc) : Proc := {| m_cfg := c; server := server x; live := live x; bodies := bodies x |}.

(** ** The commands *)

Inductive SysErr :=
  | BadJSON | BadBase64
  | ErrApply (e : MErr)
  | ErrPersist (e : string)
  | ErrParse (e : SysConfig.ini_error).

Section commands.
Context {W : Type} `{NetworkSetup W, Sockets W} `{GoUnicode, GoQuote, GoText}.
Context (diag : option (PortDiagnostics W)).
(** The persistence hook. *)
Context (saveSysproxy : option (string → option string)).

(** The manager and the text that was saved last. *)
Record State := { mgr : St W; saved : option string }.

Definition persistSysProxy (s : State) : option SysErr * State :=
  match saveSysproxy with
  | None => (None, s)
  | Some save =>
      let text := INI (m_cfg (proc (mgr s))) in
      match save text with
      | Some e => (Some (ErrPersist e), s)
      | None => (None, {| mgr := mgr s; saved := Some text |})
      end
  end.

Definition SysProxySet (cfg : Config) (s : State) : option SysErr * State :=
  match Apply diag cfg (mgr s) with
  | (Some e, m) => (Some (ErrApply e), {| mgr := m; saved := saved s |})
  | (None, m) => persistSysProxy {| mgr := m; saved := saved s |}
  end.

Definition RestoreSysProxyConfig (data : string) (s : State) : option SysErr * State :=
  if String.eqb (TrimSpace data) "" then (None, s)
  else match ParseINI data with
  | Err e => (Some (ErrParse e), s)
  | Ok cfg => let '(r, m) := Restore diag cfg (mgr s) in (ErrApply <$> r, {| mgr := m; saved := saved s |})
  end.

(** The handler of SYSPROXY-SET. *)
Definition sysproxy_set (grow : nat → nat) (ptail dtail : list string) (arg : string) (s : State) : option SysErr * State :=
  match Decode arg with
  | None => (Some BadJSON, s)
  | Some v =>
      let live := m_cfg (proc (mgr s)) in
      let d := decode_config grow v (copy_of live ptail dtail) in
      let s := {| mgr := on_proc (with_live (live_after live d)) (mgr s); saved := saved s |} in
      if d_ok d then SysProxySet (config_of d) s else (Some BadJSON, s)
  end.

Section import.
Context {E : Type} (unmarshal : string → result E yamlConfig).

(** The handler of SYSPROXY-IMPORT, with SysProxyImport. *)
Definition sysproxy_import (arg : string) (s : State) : option (import_error (E:=E)) * option SysErr * State :=
  match Base64.DecodeString Base64.StdEncoding (TrimSpace arg) with
  | None => (None, Some BadBase64, s)
  | Some data =>
      let '((e1, e2), m) := Manager_Import diag unmarshal data (mgr s) in
      let s := {| mgr := m; saved := saved s |} in
      match e1, e2 with
      | None, None => let '(r, s) := persistSysProxy s in (None, r, s)
      | _, _ => (e1, ErrApply <$> e2, s)
      end
  end.
End import.
End commands.
Arguments State : clear implicits.

(** ** What the decoder leaves in memory *)

(** [ts] written over [l] from index [i] on. *)
Definition patch (i : nat) (ts l : list string) : list string := take i l ++ ts ++ drop (i + length ts) l.

Lemma patch_nil i l : patch i [] l = l.
Proof. unfold patch. simpl. rewrite Nat.add_0_r. apply take_drop. Qed.

Lemma patch_cons i t ts l : (i <= length l)%nat → patch (S i) ts (patch i [t] l) = patch i (t :: ts) l.
Proof.
  intros Hi. unfold patch. simpl.
  assert (length (take i l) = i) as Hl by (rewrite length_take; lia).
  rewrite take_app_ge, drop_app_ge by lia. rewrite Hl.
  replace (S i - i)%nat with 1%nat by lia. replace (S (i + length ts) - i)%nat with (S (length ts)) by lia. simpl.
  rewrite take_0, drop_drop, <- app_assoc. simpl. do 4 f_equal. lia.
Qed.

Lemma patch_one i t l : (i < length l)%nat → patch i [t] l = <[i := t]> l.
Proof. intros Hi. unfold patch. rewrite insert_take_drop by done. by replace (i + length [t])%nat with (S i) by (simpl; lia). Qed.

Lemma patch_full ts l : take (length ts) (patch 0 ts l) = ts.
Proof. unfold patch. simpl. by rewrite take_app_length. Qed.

Lemma patch_end ts l : take (length l) (patch (length l) ts l) = l.
Proof. unfold patch. rewrite firstn_all. by rewrite take_app_length. Qed.

Section memory.
Context (grow : nat → nat).

Definition in_heap (h : Heap) (s : Slice) : Prop := (s_arr s < length h)%nat ∧ (s_len s <= cap h (Some s))%nat.

Lemma array_alter h a b f : (b < length h)%nat → array (alter f a h) b = if decide (b = a) then f (array h b) else array h b.
Proof.
  intros Hb. unfold array. destruct (decide (b = a)) as [->|Hne].
  - rewrite list_lookup_alter_eq. by destruct (lookup_lt_is_Some_2 h a Hb) as [l ->].
  - by rewrite list_lookup_alter_ne.
Qed.

Lemma array_app h l b : (b < length h)%nat → array (h ++ l) b = array h b.
Proof. intros Hb. unfold array. by rewrite lookup_app_l. Qed.
Lemma array_new h l : array (h ++ [l]) (length h) = l.
Proof. unfold array. by rewrite lookup_app_r, Nat.sub_diag. Qed.

(** What the elements from [i] on do: the slice reads the new elements, the
    array it was in is overwritten as far as it reaches, and no other array
    changes. *)
Definition wrote (i : nat) (ts : list string) (h : Heap) (s : Slice) (h' : Heap) (s' : Slice) : Prop :=
  in_heap h' s' ∧ (length h <= length h')%nat ∧ (s_arr s' = s_arr s ∨ length h <= s_arr s')%nat ∧
  read h' (Some s') = patch i ts (read h (Some s)) ∧
  array h' (s_arr s) = take (cap h (Some s)) (patch i ts (array h (s_arr s))) ∧
  ∀ b, (b < length h)%nat → b ≠ s_arr s → array h' b = array h b.

Lemma write_one i t h s : in_heap h s → (i <= s_len s)%nat →
  let '(h1, s1) := make_room grow i h (Some s) in
  wrote i [t] h s (alter (λ l, <[i := t]> l) (s_arr s1) h1) s1 ∧ (S i <= s_len s1)%nat ∧
  (s_arr s1 = s_arr s ∧ (i < cap h (Some s))%nat ∨ (length h <= s_arr s1)%nat ∧ i = cap h (Some s)).
Proof.
  intros [Ha Hl] Hi. unfold make_room. set (A := array h (s_arr s)) in *. cbn [cap] in *. fold A in Hl |- *.
  destruct (Nat.ltb_spec i (length A)) as [Hc|Hc].
  - set (s1 := {| s_arr := s_arr s; s_len := Nat.max (s_len s) (S i) |}). cbn [s_arr s_len s1].
    set (h' := alter _ _ h). assert (array h' (s_arr s) = patch i [t] A) as HA.
    { unfold h'. rewrite array_alter, decide_True by done. by rewrite patch_one. }
    assert (length (patch i [t] A) = length A) as HlA by (rewrite patch_one by done; apply length_insert).
    assert (length h' = length h) as Hh by apply length_alter.
    split; [|split; [lia|by left]]. unfold wrote, in_heap. cbn [cap s_arr s_len s1]. rewrite Hh, HA. split; [split; [done|rewrite HlA; lia]|].
    split; [done|]. split; [by left|]. split; [|split].
    + unfold s1; cbn [read s_arr s_len]. rewrite HA. fold A. rewrite patch_one by done.
      destruct (decide (i < s_len s)%nat) as [Hlt|Hge].
      * rewrite patch_one by (rewrite length_take; lia). rewrite Nat.max_l by lia. by rewrite take_insert_lt by lia.
      * assert (s_len s = i) as -> by lia. rewrite Nat.max_r by lia. unfold patch. rewrite drop_ge by (rewrite length_take; simpl; lia).
        rewrite app_nil_r, take_take, Nat.min_id. erewrite take_S_r by (by apply list_lookup_insert_eq). by rewrite take_insert_ge by lia.
    + fold A. rewrite <- HlA. symmetry. apply firstn_all.
    + intros b Hb Hne. unfold h'. by rewrite array_alter, decide_False.
  - assert (s_len s = length A ∧ i = length A) as [Hsl ->] by lia. cbn [s_arr s_len].
    set (new := read h (Some s) ++ _). assert (length new = S (length A) + (Nat.max (grow (S (length A))) (S (length A)) - S (length A)))%nat as Hn.
    { unfold new. cbn [read len]. rewrite length_app, length_take, length_replicate. fold A. lia. }
    set (h' := alter _ _ _).
    assert (length h' = S (length h)) as Hh by (unfold h'; rewrite length_alter, length_app; simpl; lia).
    assert (array h' (length h) = <[length A := t]> new) as HA.
    { unfold h'. rewrite array_alter, decide_True by (done || (rewrite length_app; simpl; lia)). by rewrite array_new. }
    assert (∀ b, (b < length h)%nat → array h' b = array h b) as Hold.
    { intros b Hb. unfold h'. rewrite array_alter, decide_False by (lia || (rewrite length_app; simpl; lia)). by apply array_app. }
    split; [|split; [done|by right]]. unfold wrote, in_heap. cbn [cap read s_arr s_len]. rewrite Hh, HA, length_insert, Hn.
    split; [split; lia|]. split; [lia|]. split; [by right|]. split; [|split].
    + erewrite take_S_r by (apply list_lookup_insert_eq; lia). rewrite take_insert_ge by lia. unfold new. cbn [read len]. fold A. rewrite Hsl.
      rewrite firstn_all, take_app_length. unfold patch. by rewrite firstn_all, drop_ge by (simpl; lia).
    + rewrite Hold by done. fold A. by rewrite patch_end.
    + intros b Hb _. by apply Hold.
Qed.

Lemma decode_elements_spec raws : ∀ i h s, in_heap h s → (i <= s_len s)%nat → ∃ h' s',
  decode_elements grow i (JStr <$> raws) h (Some s) = (true, h', Some s') ∧ wrote i (unquote <$> raws) h s h' s'.
Proof.
  induction raws as [|raw raws IH]; intros i h s Hs Hi.
  { exists h, s. split; [done|]. unfold wrote. simpl. rewrite !patch_nil. split; [done|]. split; [done|]. split; [by left|]. split; [done|].
    split; [|done]. unfold cap. by rewrite firstn_all. }
  cbn [fmap list_fmap decode_elements]. pose proof (write_one i (unquote raw) h s Hs Hi) as H1. destruct (make_room grow i h (Some s)) as [h0 s1].
  destruct H1 as ((Hs1 & Hl1 & Ha1 & Hr1 & Hc1 & Ho1) & Hi1 & Hw). cbn [dec_string]. set (h1 := alter _ _ h0) in *.
  destruct (IH (S i) h1 s1 Hs1 Hi1) as (h' & s' & He & Hs' & Hl' & Ha' & Hr' & Hc' & Ho'). exists h', s'. split; [exact He|].
  destruct Hs as [Ha Hl]. assert (length (read h (Some s)) = s_len s) as Hrl by (simpl; rewrite length_take; simpl in Hl; lia).
  assert (length (array h1 (s_arr s)) = length (array h (s_arr s))) as Hlen.
  { rewrite Hc1. unfold cap. rewrite length_take. unfold patch. rewrite !length_app, length_take, length_drop. simpl. simpl in Hl. lia. }
  split; [exact Hs'|]. split; [lia|]. split; [destruct Ha1 as [Ha1|Ha1], Ha' as [Ha'|Ha']; [left; congruence|right; lia..]|].
  split; [rewrite Hr', Hr1; apply patch_cons; rewrite Hrl; exact Hi|]. split.
  - destruct Hw as [[Heq Hlt]|[Hge Hic]]; unfold cap in *; simpl in Hl.
    + rewrite <- Heq, Hc', Heq, Hlen, Hc1. rewrite (take_ge (patch i [_] _)) by (rewrite patch_one by done; by rewrite length_insert).
      by rewrite patch_cons by lia.
    + rewrite Ho', Hc1 by lia. rewrite Hic. by rewrite !patch_end.
  - intros b Hb Hne. rewrite Ho' by (lia || (destruct Ha1 as [->|]; [done|lia])). by apply Ho1.
Qed.

(** *** A list of the request *)

Definition slice_ok (h : Heap) (s : option Slice) : Prop := match s with Some s => in_heap h s | None => True end.
Definition elsewhere (s : option Slice) (b : nat) : Prop := match s with Some s => b ≠ s_arr s | None => True end.

(** The elements of a list are strings. *)
Definition string_list (v : json) : Prop := match v with JArr vs => ∃ raws, vs = JStr <$> raws | _ => True end.

Lemma dec_strings raws : dec_list "" dec_string [] (JArr (JStr <$> raws)) = Some (unquote <$> raws).
Proof. cbn [dec_list]. induction raws as [|raw raws IH]; [done|]. simpl. unfold fmap in IH. by rewrite IH. Qed.

Lemma decode_strings raws h s : slice_ok h s → ∃ h' s',
  decode_slice grow (JArr (JStr <$> raws)) h s = (true, h', Some s') ∧ in_heap h' s' ∧ (length h <= length h')%nat ∧
  read h' (Some s') = unquote <$> raws ∧ (length h <= s_arr s' ∨ ¬ elsewhere s (s_arr s'))%nat ∧
  (∀ b, (b < length h)%nat → elsewhere s b → array h' b = array h b) ∧
  (∀ s0, s = Some s0 → array h' (s_arr s0) = take (cap h s) (patch 0 (unquote <$> raws) (array h (s_arr s0)))).
Proof.
  intros Hs. destruct raws as [|raw raws].
  { cbn [decode_slice fmap list_fmap decode_elements]. eexists _, _. split; [reflexivity|]. unfold in_heap. cbn [s_arr s_len cap].
    rewrite length_app. simpl. split; [split; lia|]. split; [lia|]. split; [by rewrite take_0|]. split; [by left|].
    split; [intros b Hb _; by apply array_app|]. intros s0 ->. rewrite patch_nil. destruct Hs as [Ha _]. rewrite array_app by done.
    unfold cap. symmetry. apply firstn_all. }
  assert (∃ h' s', decode_elements grow 0 (JStr <$> raw :: raws) h s = (true, h', Some s') ∧ in_heap h' s' ∧ (length h <= length h')%nat ∧
    take (S (length raws)) (array h' (s_arr s')) = unquote <$> raw :: raws ∧ (length h <= s_arr s' ∨ ¬ elsewhere s (s_arr s'))%nat ∧
    (∀ b, (b < length h)%nat → elsewhere s b → array h' b = array h b) ∧ (S (length raws) <= s_len s')%nat ∧
    (∀ s0, s = Some s0 → array h' (s_arr s0) = take (cap h s) (patch 0 (unquote <$> raw :: raws) (array h (s_arr s0)))))
    as (h' & s' & He & [Hi1 Hi2] & Hl & Hr & Ha & Ho & Hlen & Hc).
  - destruct s as [s|].
    + destruct (decode_elements_spec (raw :: raws) 0 h s Hs) as (h' & s' & He & Hi & Hl & Ha & Hr & Hc & Ho); [lia|].
      assert (S (length raws) <= s_len s')%nat as Hlen.
      { apply (f_equal length) in Hr. destruct Hi as [_ Hi]. simpl in Hr, Hi. unfold patch in Hr. rewrite length_take, !length_app in Hr.
        simpl in Hr. rewrite length_fmap in Hr. lia. }
      exists h', s'. split; [exact He|]. split; [exact Hi|]. split; [exact Hl|]. split.
      { replace (take (S (length raws)) (array h' (s_arr s'))) with (take (S (length raws)) (read h' (Some s'))) by (simpl; rewrite take_take; f_equal; lia).
        rewrite Hr. rewrite <- (patch_full (unquote <$> raw :: raws) (read h (Some s))) at 2. by rewrite length_fmap. }
      split; [cbn [elsewhere]; destruct Ha as [->|]; [right; tauto|by left]|]. split; [exact Ho|]. split; [exact Hlen|]. by intros s0 [= <-].
    + cbn [fmap list_fmap decode_elements]. unfold make_room. cbn [cap]. change (0 <? 0)%nat with false. cbn [read len s_arr dec_string app]. rewrite Nat.sub_0_r.
      set (n := Nat.max (grow 1) 1). set (h0 := h ++ [replicate n ""]). set (s1 := {| s_arr := length h; s_len := 1 |}).
      set (h1 := alter _ _ h0). assert (length h0 = S (length h)) as Hl0 by (unfold h0; rewrite length_app; simpl; lia).
      assert (length h1 = S (length h)) as Hl1 by (unfold h1; by rewrite length_alter).
      assert (array h1 (length h) = <[0%nat := unquote raw]> (replicate n "")) as H1.
      { unfold h1. rewrite array_alter, decide_True by (done || lia). unfold h0. by rewrite array_new. }
      assert (1 <= n)%nat as Hn by lia. assert (in_heap h1 s1) as Hs1.
      { split; [simpl; lia|]. simpl. rewrite H1, length_insert, length_replicate. done. }
      destruct (decode_elements_spec raws 1 h1 s1 Hs1) as (h' & s' & He & Hi & Hl & Ha & Hr & _ & Ho); [done|].
      assert (read h1 (Some s1) = [unquote raw]) as Hr1.
      { simpl. rewrite H1. destruct n as [|n]; [lia|]. done. }
      rewrite Hr1 in Hr. assert (patch 1 (unquote <$> raws) [unquote raw] = unquote <$> raw :: raws) as Hp.
      { unfold patch. simpl. by rewrite drop_nil, app_nil_r. }
      rewrite Hp in Hr. exists h', s'. split; [exact He|]. split; [exact Hi|]. split; [lia|].
      assert (S (length raws) <= s_len s')%nat as Hlen.
      { apply (f_equal length) in Hr. simpl in Hr. rewrite length_take, length_fmap in Hr. lia. }
      split.
      { replace (take (S (length raws)) (array h' (s_arr s'))) with (take (S (length raws)) (read h' (Some s'))) by (simpl; rewrite take_take; f_equal; lia).
        rewrite Hr. apply take_ge. simpl. by rewrite length_fmap. }
      split; [left; destruct Ha as [->|]; simpl; lia|]. split; [|split; [exact Hlen|done]].
      intros b Hb _. rewrite Ho by (simpl; lia). unfold h1. rewrite array_alter, decide_False by lia. unfold h0. by apply array_app.
  - cbn [decode_slice]. rewrite He. cbn [fmap list_fmap]. eexists _, _. split; [reflexivity|].
    cbn [length]. fold (fmap (M := list) JStr raws). rewrite length_fmap. unfold in_heap in *. cbn [s_arr s_len cap] in *. split; [split; [done|lia]|].
    split; [exact Hl|]. split; [exact Hr|]. split; [exact Ha|]. by split.
Qed.

Lemma decode_slice_spec v h s : slice_ok h s → string_list v →
  let '(ok, h', s') := decode_slice grow v h s in
  slice_ok h' s' ∧ (length h <= length h')%nat ∧
  (∀ b, (b < length h)%nat → elsewhere s b → array h' b = array h b ∧ elsewhere s' b) ∧
  match dec_list "" dec_string (read h s) v with
  | Some l => ok = true ∧ read h' s' = l
  | None => ok = false
  end.
Proof.
  intros Hs Hv. destruct v as [|b|n|t|vs|ms].
  2,3,4,6: cbn [decode_slice dec_list]; by split.
  { cbn [decode_slice dec_list]. by repeat (split; [done|]). }
  destruct Hv as [raws ->]. destruct (decode_strings raws h s Hs) as (h' & s' & -> & Hi & Hl & Hr & Ha & Ho & _).
  split; [exact Hi|]. split; [exact Hl|]. change (dec_list "" dec_string (read h s)) with (dec_list "" dec_string []).
  rewrite dec_strings. split; [|by split]. intros b Hb Hel. split; [by apply Ho|]. cbn [elsewhere].
  intros ->. destruct Ha; [lia|]. done.
Qed.
End memory.

(** ** The request as a whole *)

(** The fields of a configuration, had the copy lists of its own. *)
Definition all_fields : Fields Config :=
  scalar_fields ++ [field "proxy" Proxy set_proxy (dec_list "" dec_string); field "direct" Direct set_direct (dec_list "" dec_string)].

Section request.
Context (grow : nat → nat).

(** The two lists of the copy are slices of different arrays. *)
Definition draft_ok (d : Draft) : Prop :=
  slice_ok (d_heap d) (d_proxy d) ∧ slice_ok (d_heap d) (d_direct d) ∧
  match d_proxy d, d_direct d with Some p, Some q => s_arr p ≠ s_arr q | _, _ => True end.

Lemma read_other h h' s (b : option Slice) : slice_ok h s → (∀ a, (a < length h)%nat → elsewhere b a → array h' a = array h a) →
  match b, s with Some p, Some q => s_arr p ≠ s_arr q | _, _ => True end → (length h <= length h')%nat →
  slice_ok h' s ∧ read h' s = read h s.
Proof.
  intros Hs Ho Hne Hl. destruct s as [q|]; [|done]. destruct Hs as [Hq1 Hq2]. cbn [slice_ok read]. unfold in_heap. simpl in *.
  assert (array h' (s_arr q) = array h (s_arr q)) as -> by (apply Ho; [done|]; destruct b; [by apply not_eq_sym|done]).
  split; [split; lia|done].
Qed.

Lemma draft_apart h h' s s' t : slice_ok h t →
  (∀ b, (b < length h)%nat → elsewhere s b → array h' b = array h b ∧ elsewhere s' b) →
  match s, t with Some p, Some q => s_arr p ≠ s_arr q | _, _ => True end →
  match s', t with Some p, Some q => s_arr p ≠ s_arr q | _, _ => True end.
Proof.
  intros Ht Ho Hne. destruct t as [q|]; [|by destruct s']. destruct Ht as [Hq _].
  destruct (Ho (s_arr q) Hq) as [_ He]; [destruct s; [by apply not_eq_sym|done]|]. destruct s'; [by apply not_eq_sym|done].
Qed.

Definition list_key (k : string) : bool := Link.EqualFold k "proxy" || Link.EqualFold k "direct".

(** A scalar is decoded into the copy as it would be into a value. *)
Definition lifts (dec : Dec Config) : Prop := ∀ p q c v,
  dec (set_direct q (set_proxy p c)) v = (λ c, set_direct q (set_proxy p c)) <$> dec c v.

Lemma scalars_lift : Forall (λ f, lifts (snd f)) scalar_fields.
Proof.
  repeat constructor; intros p q c v; unfold field; cbn [snd]; rewrite <- option_fmap_compose;
    (rewrite <- option_fmap_compose || idtac); by destruct (_ _ v).
Qed.

Lemma decode_member_spec kv d : draft_ok d → (list_key (unquote (fst kv)) = true → string_list (snd kv)) →
  let d' := decode_member grow kv d in
  draft_ok d' ∧ (length (d_heap d) <= length (d_heap d'))%nat ∧
  match list_find (λ f, Link.EqualFold (unquote (fst kv)) (fst f) = true) all_fields with
  | Some (_, (_, dec)) =>
      match dec (config_of d) (snd kv) with
      | Some c => d_ok d' = d_ok d ∧ config_of d' = c
      | None => d_ok d' = false
      end
  | None => d' = d
  end.
Proof.
  intros (Hp & Hq & Hne) Hs. unfold decode_member, all_fields. set (k := unquote (fst kv)) in *.
  destruct (list_find (λ f, Link.EqualFold k (fst f) = true) scalar_fields) as [[n [nm dec]]|] eqn:Hf.
  { rewrite (list_find_app_l _ _ _ _ _ Hf). cbn zeta.
    assert (lifts dec) as Hl.
    { apply list_find_Some in Hf as (Hf & _ & _). apply (Forall_lookup_1 _ _ _ _ scalars_lift Hf). }
    unfold config_of at 1. rewrite Hl. destruct (dec (d_cfg d) (snd kv)); by repeat (split; [done|]). }
  rewrite (list_find_app_r _ _ _ Hf). unfold list_key in Hs. cbn [list_find fst field].
  destruct (Link.EqualFold k "proxy") eqn:Hkp.
  - rewrite decide_True by done. cbn. pose proof (decode_slice_spec grow (snd kv) (d_heap d) (d_proxy d) Hp (Hs eq_refl)) as Hd.
    destruct (decode_slice grow (snd kv) (d_heap d) (d_proxy d)) as [[ok h] s']. destruct Hd as (Hs' & Hl & Ho & Hr).
    cbn [d_heap d_proxy d_direct d_ok d_cfg].
    destruct (read_other (d_heap d) h (d_direct d) (d_proxy d) Hq) as [Hq' Hrq]; [intros; by apply Ho|exact Hne|exact Hl|].
    split; [split; [exact Hs'|split; [exact Hq'|exact (draft_apart _ _ _ _ _ Hq Ho Hne)]]|]. split; [exact Hl|].
    change (Proxy (config_of d)) with (read (d_heap d) (d_proxy d)).
    destruct (dec_list "" dec_string _ _) as [l|]; cbn [fmap option_fmap option_map]; [|rewrite Hr; apply andb_false_r].
    destruct Hr as [-> Hr]. split; [apply andb_true_r|]. unfold config_of. cbn [d_heap d_proxy d_direct d_cfg]. by rewrite Hr, Hrq.
  - rewrite decide_False by done. destruct (Link.EqualFold k "direct") eqn:Hkd; [|rewrite decide_False by done; by cbn].
    rewrite decide_True by done. cbn. pose proof (decode_slice_spec grow (snd kv) (d_heap d) (d_direct d) Hq (Hs eq_refl)) as Hd.
    destruct (decode_slice grow (snd kv) (d_heap d) (d_direct d)) as [[ok h] s']. destruct Hd as (Hs' & Hl & Ho & Hr).
    cbn [d_heap d_proxy d_direct d_ok d_cfg].
    assert (match d_direct d, d_proxy d with Some p, Some q => s_arr p ≠ s_arr q | _, _ => True end) as Hne'
      by (destruct (d_direct d), (d_proxy d); try done; by apply not_eq_sym).
    destruct (read_other (d_heap d) h (d_proxy d) (d_direct d) Hp) as [Hp' Hrp]; [intros; by apply Ho|exact Hne'|exact Hl|].
    pose proof (draft_apart _ _ _ s' _ Hp Ho Hne') as Hap.
    split; [split; [exact Hp'|split; [exact Hs'|destruct (d_proxy d), s'; try done; by apply not_eq_sym]]|]. split; [exact Hl|].
    change (Direct (config_of d)) with (read (d_heap d) (d_direct d)).
    destruct (dec_list "" dec_string _ _) as [l|]; cbn [fmap option_fmap option_map]; [|rewrite Hr; apply andb_false_r].
    destruct Hr as [-> Hr]. split; [apply andb_true_r|]. unfold config_of. cbn [d_heap d_proxy d_direct d_cfg]. by rewrite Hr, Hrp.
Qed.

(** A value that did not fit is not forgotten. *)
Lemma decode_member_error kv d : d_ok d = false → d_ok (decode_member grow kv d) = false.
Proof.
  intros Hd. unfold decode_member. destruct (list_find _ _) as [[? [? dec]]|]; [by destruct (dec _ _)|].
  repeat case_match; simpl; by rewrite ?Hd.
Qed.

Lemma decode_members_error ms : ∀ d, d_ok d = false → d_ok (foldl (λ d kv, decode_member grow kv d) d ms) = false.
Proof. induction ms as [|kv ms IH]; intros d Hd; [done|]. cbn [foldl]. by apply IH, decode_member_error. Qed.

Lemma decode_members_spec ms : ∀ d, draft_ok d → d_ok d = true →
  Forall (λ kv, list_key (unquote (fst kv)) = true → string_list (snd kv)) ms →
  let d' := foldl (λ d kv, decode_member grow kv d) d ms in
  match dec_members all_fields (config_of d) ms with
  | Some c => d_ok d' = true ∧ config_of d' = c
  | None => d_ok d' = false
  end.
Proof.
  induction ms as [|[k v] ms IH]; intros d Hok Hd Hs; [done|]. apply Forall_cons in Hs as [Hs Hss].
  destruct (decode_member_spec (k, v) d Hok Hs) as (Hok' & _ & Hm). cbn [foldl dec_members fst snd] in *.
  destruct (list_find _ all_fields) as [[n [nm dec]]|]; [|rewrite Hm in *; by apply IH].
  destruct (dec (config_of d) v) as [c|]; cbn [mbind option_bind]; [|by apply decode_members_error].
  destruct Hm as [Hd' <-]. apply IH; [exact Hok'|congruence|exact Hss].
Qed.

(** The arrays of the live lists stay untouched by members that are no lists. *)
Lemma decode_members_scalar ms : ∀ d, Forall (λ kv, list_key (unquote (fst kv)) = false) ms →
  d_heap (foldl (λ d kv, decode_member grow kv d) d ms) = d_heap d.
Proof.
  induction ms as [|kv ms IH]; intros d Hs; [done|]. apply Forall_cons in Hs as [Hk Hs]. cbn [foldl]. rewrite IH by done.
  unfold list_key in Hk. apply orb_false_iff in Hk as [Hp Hq]. unfold decode_member. cbn zeta. rewrite Hp, Hq.
  destruct (list_find _ _) as [[? [? dec]]|]; [|done]. by destruct (dec _ _).
Qed.
End request.

Lemma copy_ok live ptail dtail : draft_ok (copy_of live ptail dtail) ∧ config_of (copy_of live ptail dtail) = live.
Proof.
  split.
  - unfold draft_ok, slice_ok, in_heap, cap, array. cbn. rewrite !length_app. repeat split; lia.
  - unfold config_of. cbn. unfold array. cbn. rewrite !take_app_length. by destruct live.
Qed.

Lemma live_untouched live ptail dtail : live_after live (copy_of live ptail dtail) = live.
Proof. unfold live_after, array. cbn. rewrite !take_app_length. by destruct live. Qed.

(** *** White space holds no bracket *)

Lemma not_bracket a : (91 < byte_val a)%N → Ascii.eqb a "[" = false.
Proof. intros Ha. destruct (Ascii.eqb_spec a "[") as [->|]; [|done]. by apply N.lt_irrefl in Ha. Qed.

Lemma space2_high a b : space2 a b = true → (91 < byte_val a)%N ∧ (91 < byte_val b)%N.
Proof. unfold space2. lia. Qed.
Lemma space3_high a b c : space3 a b c = true → (91 < byte_val a)%N ∧ (91 < byte_val b)%N ∧ (91 < byte_val c)%N.
Proof. unfold space3. lia. Qed.

Lemma cut_rev_keeps s r : cut_space_rev s = Some r → ∃ w, s = w +:+ r ∧ str_forallb (λ c, negb (Ascii.eqb c "[")) w = true.
Proof.
  unfold cut_space_rev. intros H. repeat case_match; simplify_eq/=.
  - exists (String a ""). split; [done|]. cbn. destruct (Ascii.eqb_spec a "[") as [->|]; done.
  - exists (String a (String a0 "")). split; [done|]. cbn.
    match goal with H : space2 _ _ = true |- _ => apply space2_high in H as [??] end. by rewrite !not_bracket.
  - exists (String a (String a0 (String a1 ""))). split; [done|]. cbn.
    match goal with H : space3 _ _ _ = true |- _ => apply space3_high in H as (?&?&?) end. by rewrite !not_bracket.
Qed.

Lemma trim_rev_keeps n s : str_forallb (λ c, negb (Ascii.eqb c "[")) s = false →
  str_forallb (λ c, negb (Ascii.eqb c "[")) (trim_with cut_space_rev n s) = false.
Proof.
  revert s. induction n as [|n IH]; intros s Hs; [done|]. cbn [trim_with].
  destruct (cut_space_rev s) as [r|] eqn:Hr; [|done]. apply cut_rev_keeps in Hr as (w & -> & Hw). apply IH.
  rewrite str_forallb_app, Hw in Hs. exact Hs.
Qed.

(** A text that starts with a section header is not blank. *)
Lemma header_not_blank t : TrimSpace (String "[" t) ≠ "".
Proof.
  unfold TrimSpace. assert (TrimLeftSpace (String "[" t) = String "[" t) as ->.
  { unfold TrimLeftSpace. cbn [String.length trim_with]. unfold cut_space. destruct t as [|b [|c t]]; done. }
  unfold TrimRightSpace. intros He. pose proof (trim_rev_keeps (String.length (String "[" t)) (srev (String "[" t))) as Ht.
  apply (f_equal srev) in He. rewrite srev_srev in He. rewrite He in Ht. discriminate Ht.
  rewrite str_forallb_srev. done.
Qed.

Section facts.
Context {W : Type} `{SocketsLaws W, !NetworkSetupLaws W} `{GoUnicode, GoQuote, GoText}.
Context (diag : option (PortDiagnostics W)) (saveSysproxy : option (string → option string)).

Abbreviation set_ := (sysproxy_set diag saveSysproxy).

(** SYSPROXY-SET applies its request on top of the live configuration: the
    fields it names take its values, whatever the lists of the live
    configuration share with the copy it is decoded into and however the
    memory grows, all others keep theirs; a value of the wrong type refuses
    the whole request.  A request without lists leaves the live lists alone,
    accepted or not. *)
Theorem request_decodes_onto_live (grow : nat → nat) (ptail dtail : list string) (arg : string) (ms : list (string * json)) (s : State W) :
  Decode arg = Some (JObj ms) → Forall (λ kv, list_key (unquote (fst kv)) = true → string_list (snd kv)) ms →
  ∃ live', let s' := {| mgr := on_proc (with_live live') (mgr s); saved := saved s |} in
    set_ grow ptail dtail arg s =
      match dec_members all_fields (m_cfg (proc (mgr s))) ms with
      | Some c => SysProxySet diag saveSysproxy c s'
      | None => (Some BadJSON, s')
      end ∧
    (Forall (λ kv, list_key (unquote (fst kv)) = false) ms → s' = s).
Proof.
  intros Ha Hs. unfold sysproxy_set. rewrite Ha. set (live := m_cfg (proc (mgr s))). cbn [decode_config].
  set (d := foldl _ _ ms). exists (live_after live d). cbn zeta. split.
  - destruct (copy_ok live ptail dtail) as [Hok Hc].
    pose proof (decode_members_spec grow ms (copy_of live ptail dtail) Hok eq_refl Hs) as Hd. cbn zeta in Hd. fold d in Hd. rewrite Hc in Hd.
    destruct (dec_members all_fields live ms) as [c|]; [|by rewrite Hd]. destruct Hd as [-> ->]. done.
  - intros Hno. assert (live_after live d = live) as ->.
    { transitivity (live_after live (copy_of live ptail dtail)); [|apply live_untouched]. unfold live_after, d. by rewrite decode_members_scalar. }
    destruct s as [[x w] t]. unfold on_proc, with_live, live. simpl. by destruct x.
Qed.
(** ... but the lists of a request reach the live configuration also when it
    is refused: the new rules stand at the beginning of the live list. *)
Lemma refused_rules_are_live (grow : nat → nat) (ptail dtail : list string) (arg k : string) (raws : list string) (s : State W) :
  let old := Proxy (m_cfg (proc (mgr s))) in let new := unquote <$> raws in
  Decode arg = Some (JObj [(k, JArr (JStr <$> raws))]) → unquote k = "proxy" →
  is_Some (Validate (set_proxy new (m_cfg (proc (mgr s))))) →
  ∃ e s', set_ grow ptail dtail arg s = (Some (ErrApply (Invalid e)), s') ∧
    Proxy (m_cfg (proc (mgr s'))) = take (length old) (new ++ drop (length new) old).
Proof.
  intros old new Ha Hk [e He]. unfold sysproxy_set. rewrite Ha. set (live := m_cfg (proc (mgr s))) in *. cbn [decode_config foldl].
  unfold decode_member. cbn [fst snd]. rewrite Hk. change (list_find _ scalar_fields) with (@None (nat * (string * Dec Config))).
  change (Link.EqualFold "proxy" "proxy") with true. cbv iota.
  destruct (decode_strings grow raws (d_heap (copy_of live ptail dtail)) (d_proxy (copy_of live ptail dtail))) as (h' & s' & -> & Hi & _ & Hr & _ & Ho & Hw);
    [apply (copy_ok live ptail dtail)|].
  cbn [d_ok copy_of andb]. match goal with |- context [config_of ?d] => set (d' := d) end.
  assert (config_of d' = set_proxy new live) as Hcfg.
  { unfold config_of, d'. cbn [d_heap d_proxy d_direct d_cfg copy_of]. rewrite Hr. fold new. unfold read. cbn [s_arr s_len].
    rewrite (Ho 1%nat) by (simpl; lia). unfold array. cbn. rewrite take_app_length. by destruct live. }
  unfold SysProxySet, Apply. rewrite Hcfg, He. eexists _, _. split; [reflexivity|].
  cbn [mgr proc on_proc with_live m_cfg live_after set_direct set_proxy Proxy]. unfold live_after, d'. cbn [d_heap Proxy set_direct set_proxy]. fold old.
  pose proof (Hw {| s_arr := 0; s_len := length old |} eq_refl) as Hw'. cbn [s_arr] in Hw'. rewrite Hw'. unfold cap, array. cbn. fold old. fold new.
  unfold patch. cbn [take app Nat.add]. rewrite take_take, length_app, Nat.min_l by lia. rewrite take_0. cbn [app]. destruct (decide (length new <= length old)%nat) as [Hl|Hl].
  - rewrite drop_app_le by done. rewrite app_assoc. by rewrite (take_app_le (new ++ drop (length new) old)) by (rewrite length_app, length_drop; lia).
  - rewrite !take_app_le by lia. done.
Qed.

(** *** Surviving a restart *)

Lemma NewManager_inv_ (w : W) : inv {| proc := NewManager; sys := w |}.
Proof. split; [|reflexivity]. split; [by eexists|reflexivity]. Qed.

(** The state of a manager that has just been made, on a system. *)
Definition fresh (w : W) (t : option string) : State W := {| mgr := {| proc := NewManager; sys := w |}; saved := t |}.

Lemma INI_not_blank c : TrimSpace (INI c) ≠ "".
Proof. apply header_not_blank. Qed.

Lemma Validate_effective c c' : effective c c' → Validate c = None → Validate c' = None.
Proof.
  intros [->|[Hp ->]]; [done|]. unfold Validate. cbn [cMode Service Host SysConfig.Port PACPort Proxy Direct set_pac_port]. rewrite Hp.
  repeat case_match; done.
Qed.

(** C16: A clean configuration that SYSPROXY-SET put in force survives a
    restart.  When its fields have no comment sign, line break or outer space,
    no rule starts like a section header, its ports are ints and its lines fit
    the scanner, the text saved with it is read back by the executor's next
    life: that life fails only if the system refuses to put it in force (never
    when the proxy was turned off), and when it succeeds the same
    configuration, up to a migrated legacy port, is in force with the same
    script at the service it is for, or, when the proxy was turned off, no
    call was made.  A service named with a # is not read back
    ([SysConfig.persisted_service_truncated]). *)
Theorem saved_proxy_survives_restart (save : string → option string) (cfg : Config) (s s' : State W) (w : W) :
  saveSysproxy = Some save → inv (mgr s) → SysProxySet diag saveSysproxy cfg s = (None, s') →
  let live' := m_cfg (proc (mgr s')) in ini_clean live' →
  ∃ text r s2, saved s' = Some text ∧ RestoreSysProxyConfig diag text (fresh w (saved s')) = (r, s2) ∧
    (∀ e, r = Some e → ∃ m, e = ErrApply m ∧ on live' = true) ∧
    (r = None → inv (mgr s2) ∧ effective live' (m_cfg (proc (mgr s2))) ∧
       GeneratePAC (m_cfg (proc (mgr s2))) = GeneratePAC live' ∧ only [Service live'; DefaultService] w (sys (mgr s2))) ∧
    (on live' = false → r = None ∧ sys (mgr s2) = w).
Proof.
  intros Hsave Hinv Hset live' Hclean. unfold SysProxySet in Hset. destruct (Apply diag cfg (mgr s)) as [[e|] m] eqn:Ha; [done|].
  destruct (Apply_ok diag cfg (mgr s) m Hinv Ha) as (_ & Heff & _).
  assert (Validate cfg = None) as Hv by (unfold Apply in Ha; by destruct (Validate cfg)).
  unfold persistSysProxy in Hset. rewrite Hsave in Hset. destruct (save _) as [e|]; [done|]. injection Hset as <-. cbn [mgr saved] in *.
  pose proof (Validate_effective _ _ Heff Hv) as Hv'. fold live' in Hv'.
  change (m_cfg (proc m)) with live'. destruct (Restore diag live' (mgr (fresh w (Some (INI live'))))) as [r m2] eqn:Hr.
  eexists (INI live'), _, _. split; [reflexivity|].
  unfold RestoreSysProxyConfig. rewrite (proj2 (String.eqb_neq _ _) (INI_not_blank live')), INI_parses by done.
  rewrite Hr. split; [reflexivity|].
  unfold Restore in Hr. rewrite Hv' in Hr. cbn [mgr fresh] in *. unfold on.
  destruct (String.eqb (cMode live') ModeOff) eqn:Hm; cbn [negb].
  - unfold adopt in Hr. injection Hr as <- <-. split; [done|]. split; [|by intros _]. intros _. cbn. split.
    + split; [split; [by eexists|reflexivity]|]. unfold on. cbn. by rewrite Hm.
    + split; [by left|]. split; [done|]. by intros ? _.
  - split; [intros e; destruct r; [|done]; intros [= <-]; by eexists|]. split; [|done]. intros Hn. destruct r; [done|].
    destruct (Apply_ok diag live' _ _ (NewManager_inv_ w) Hr) as (Hi & He & Ho & _). cbn [mgr]. split; [exact Hi|]. split; [exact He|].
    destruct (GeneratePAC_effective _ _ He) as [Hg _]. split; [exact Hg|exact Ho].
Qed.
End facts.

(** ** Runs on a Mac *)

#[local] Existing Instances mac_tool mac_manual mac_sockets mac_sockets_laws ascii_only plain_text quote_as_is.

Definition save_any (_ : string) : option string := None.
Definition mac0 : State Mac := {| mgr := fresh_mac [] []; saved := None |}.

Definition request (port : Z) (rules : list string) : list (string * json) := [
  ("mode", enc_string "exclude"); ("port", enc_int port); ("proxy", JArr (enc_string <$> rules))].
Definition request_text (port : Z) (rules : list string) : string := Marshal (JObj (request port rules)).
Definition tight (n : nat) : nat := n.

Definition after_request : option SysErr * State Mac :=
  sysproxy_set None (Some save_any) tight [] [] (request_text 2080 ["openai.com"]) mac0.

Lemma request_decodes_onto_live_witness :
  fst after_request = None ∧
  ∃ live', after_request = SysProxySet None (Some save_any) (set_mode ModeExclude (set_proxy ["openai.com"] DefaultConfig))
    {| mgr := on_proc (with_live live') (mgr mac0); saved := None |}.
Proof.
  destruct (request_decodes_onto_live (W := Mac) None (Some save_any) tight [] [] (request_text 2080 ["openai.com"]) (request 2080 ["openai.com"]) mac0)
    as (live' & Heq & _); [vm_compute; reflexivity| |].
  - apply Forall_cons. split; [intros Hk; vm_compute in Hk; discriminate Hk|]. apply Forall_cons. split; [intros Hk; vm_compute in Hk; discriminate Hk|].
    apply Forall_cons. split; [intros _; exists [quote_body "openai.com"]; reflexivity|constructor].
  - split; [vm_compute; reflexivity|]. exists live'. unfold after_request. rewrite Heq.
    assert (dec_members all_fields (m_cfg (proc (mgr mac0))) (request 2080 ["openai.com"]) =
      Some (set_mode ModeExclude (set_proxy ["openai.com"] DefaultConfig))) as -> by (vm_compute; reflexivity).
    reflexivity.
Defined.

Lemma saved_proxy_survives_restart_witness :
  let s := snd (SysProxySet None (Some save_any) exclude_sample mac0) in
  let '(r, s2) := RestoreSysProxyConfig None (match saved s with Some t => t | None => "" end) (fresh (sys (mgr mac0)) (saved s)) in
  r = None ∧ inv (mgr s2) ∧ m_cfg (proc (mgr s2)) = exclude_sample.
Proof.
  intros s. assert (SysProxySet None (Some save_any) exclude_sample mac0 = (None, s)) as Hs by (vm_compute; reflexivity).
  destruct (saved_proxy_survives_restart (W := Mac) None (Some save_any) save_any exclude_sample mac0 s (sys (mgr mac0)))
    as (text & r & s2 & Ht & Hr & _ & Hok & _); [reflexivity|apply NewManager_inv|exact Hs| |].
  - assert (m_cfg (proc (mgr s)) = exclude_sample) as -> by (vm_compute; reflexivity).
    split; [right; left|]. split; [vm_compute; reflexivity|]. split; [vm_compute; reflexivity|].
    split; [vm_compute; by eexists|]. split; [vm_compute; by eexists|]. split; [repeat constructor|]. split; [repeat constructor|repeat constructor].
  - rewrite Ht in Hr |- *. rewrite Hr. assert (fst (RestoreSysProxyConfig None text (fresh (sys (mgr mac0)) (Some text))) = None) as Hn.
    { assert (Some text = saved s) as He by done. assert (text = INI exclude_sample) as -> by (vm_compute in He; injection He as ->; vm_compute; reflexivity).
      vm_compute. reflexivity. }
    rewrite Hr in Hn. cbn [fst] in Hn. destruct (Hok Hn) as (Hi & _). split; [exact Hn|]. split; [exact Hi|].
    assert (Some text = saved s) as He by done. assert (text = INI exclude_sample) as -> by (vm_compute in He; injection He as ->; vm_compute; reflexivity).
    assert (s2 = snd (RestoreSysProxyConfig None (INI exclude_sample) (fresh (sys (mgr mac0)) (Some (INI exclude_sample))))) as -> by (rewrite Hr; reflexivity).
    vm_compute. reflexivity.
Defined.

(** A request that Apply refuses for its port has replaced the only rule of the
    live configuration: the status and the next saved text hold the new rule,
    while the script that is served is still the old one. *)
Example refused_request_shows :
  let s := snd after_request in
  let '(r, s') := sysproxy_set None (Some save_any) tight [] [] (request_text 0 ["evil.example"]) s in
  r = Some (ErrApply (Invalid (ErrPort 0))) ∧
  Proxy (m_cfg (proc (mgr s))) = ["openai.com"] ∧ Proxy (m_cfg (proc (mgr s'))) = ["evil.example"] ∧
  served (proc (mgr s')) = served (proc (mgr s)) ∧ served (proc (mgr s')) ≠ GeneratePAC (m_cfg (proc (mgr s'))).
Proof. vm_compute. split_and!; try reflexivity. discriminate. Qed.

End SysApi.
