(* ===== verification/GoFlag.v ===== *)
(** * GoFlag: what the source uses of the package [flag]

    A set of flags binds names to fields of a record: a flag is a boolean, or
    it takes a value.  [parse] reads arguments up to the first that is no flag,
    as [FlagSet.Parse] does, and numbers are read by [strconv.ParseInt] with
    base 0. *)

From Stdlib Require Import DecimalString DecimalN DecimalFacts.
From S2P Require Import Prelude GoStr GoUrl GoUrlFacts.

Local Open Scope string_scope.
Local Open Scope list_scope.

(** ** Numbers in any base *)

Definition digit_val (c : ascii) : option N :=
  if in_range 48 57 c then Some (byte_val c - 48)%N
  else if in_range 97 122 (lower_byte c) then Some (byte_val (lower_byte c) - 87)%N
  else None.

(** [ParseUint]'s digits in a base; underscores are passed over. *)
Fixpoint base_digits (base acc : N) (s : string) : option N :=
  match s with
  | "" => Some acc
  | String c s =>
      if Ascii.eqb c "_" then base_digits base acc s
      else d ← digit_val c; if (d <? base)%N then base_digits base (acc * base + d) s else None
  end.

(** The base a prefix asks for, the digits after it, and how many bytes the
    prefix has. *)
Definition base_prefix (s : string) : N * string :=
  match s with
  | String z (String b (String d r)) =>
      if Ascii.eqb z "0"
      then if Ascii.eqb (lower_byte b) "b" then (2%N, String d r)
           else if Ascii.eqb (lower_byte b) "o" then (8%N, String d r)
           else if Ascii.eqb (lower_byte b) "x" then (16%N, String d r)
           else (8%N, String b (String d r))
      else (10%N, s)
  | String z r => if Ascii.eqb z "0" then (8%N, r) else (10%N, s)
  | "" => (10%N, s)
  end.

(** [underscoreOK] after the sign: an underscore separates digits, or a prefix
    and a digit.  [prev] is what was seen last. *)
Inductive Seen := Start_ | Digit | Underscore | Other.
Fixpoint underscores_ok (hex : bool) (prev : Seen) (s : string) : bool :=
  match s with
  | "" => match prev with Underscore => false | _ => true end
  | String c s =>
      if in_range 48 57 c || (hex && in_range 97 102 (lower_byte c)) then underscores_ok hex Digit s
      else if Ascii.eqb c "_" then match prev with Digit => underscores_ok hex Underscore s | _ => false end
      else match prev with Underscore => false | _ => underscores_ok hex Other s end
  end.
Definition underscoreOK (s : string) : bool :=
  match s with
  | String z (String b r) =>
      if Ascii.eqb z "0" && bool_decide (lower_byte b ∈ ["b"; "o"; "x"]%char)
      then underscores_ok (Ascii.eqb (lower_byte b) "x") Digit r
      else underscores_ok false Start_ s
  | _ => underscores_ok false Start_ s
  end.

Definition ParseUint0 (s : string) : option N :=
  if String.eqb s "" then None
  else
    let '(base, digits) := base_prefix s in
    n ← base_digits base 0 digits;
    if str_has "_" digits && negb (underscoreOK s) then None else Some n.

(** [strconv.ParseInt(s, 0, 64)] *)
Definition ParseInt0 (s : string) : option Z :=
  match s with
  | String c t =>
      if Ascii.eqb c "-" then n ← ParseUint0 t; in_int64 (- Z.of_N n)
      else if Ascii.eqb c "+" then n ← ParseUint0 t; in_int64 (Z.of_N n)
      else n ← ParseUint0 s; in_int64 (Z.of_N n)
  | "" => None
  end.

Example parse_int_ex :
  ParseInt0 <$> ["1080"; "-5"; "0x1F"; "0b101"; "0o17"; "017"; "1_000"; "0x_ff"; "_1"; "1__0"; "0"; "-0"; "0x"; "08"; ""; "+"; "9223372036854775808"] =
  [Some 1080; Some (-5); Some 31; Some 5; Some 15; Some 15; Some 1000; Some 255; None; None; Some 0; Some 0; None; None; None; None; None]%Z.
Proof. vm_compute. reflexivity. Qed.

(** ** Flags *)

(** What sets a field: a boolean flag stands for [true] alone, any other takes
    a value, which it may refuse. *)
Inductive Flag (S : Type) := BoolFlag (set : bool → S → S) | ValueFlag (set : string → S → option S).
Arguments BoolFlag {S} set.
Arguments ValueFlag {S} set.

Definition Flags (S : Type) : Type := list (string * Flag S).

Definition StringVar {S} (name : string) (set : string → S → S) : string * Flag S := (name, ValueFlag (λ v s, Some (set v s))).
Definition BoolVar {S} (name : string) (set : bool → S → S) : string * Flag S := (name, BoolFlag set).
Definition IntVar {S} (name : string) (set : Z → S → S) : string * Flag S :=
  (name, ValueFlag (λ v s, (λ n, set n s) <$> ParseInt0 v)).

Inductive FlagError :=
  | ErrHelp | ErrSyntax (arg : string) | ErrUndefined (name : string) | ErrBool (value name : string)
  | ErrNeedsValue (name : string) | ErrValue (value name : string).

Fixpoint lookup_flag {S} (fs : Flags S) (name : string) : option (Flag S) :=
  match fs with
  | [] => None
  | (n, f) :: fs => if String.eqb n name then Some f else lookup_flag fs name
  end.

(** What an argument is: no flag, the end of the flags, a badly written flag,
    or a name with or without a value. *)
Inductive ArgKind := Positional | Terminator | Malformed | Named (name : string) (value : option string).

Definition split_value (name : string) : string * option string :=
  match name with
  | "" => ("", None)
  | String c r => match Cut r "=" with Some (a, v) => (String c a, Some v) | None => (name, None) end
  end.

Definition classify (arg : string) : ArgKind :=
  let named (name : string) :=
    match name with
    | "" => Malformed
    | String c _ => if Ascii.eqb c "-" || Ascii.eqb c "=" then Malformed else let '(n, v) := split_value name in Named n v
    end in
  match arg with
  | String a (String b r) =>
      if negb (Ascii.eqb a "-") then Positional
      else if Ascii.eqb b "-" then (if String.eqb r "" then Terminator else named r)
      else named (String b r)
  | _ => Positional
  end.

(** [FlagSet.Parse] with [ContinueOnError]: the fields and the arguments that
    are left. *)
Fixpoint parse {S} (fs : Flags S) (args : list string) (s : S) : result FlagError (S * list string) :=
  match args with
  | [] => Ok (s, [])
  | arg :: rest =>
      match classify arg with
      | Positional => Ok (s, args)
      | Terminator => Ok (s, rest)
      | Malformed => Err (ErrSyntax arg)
      | Named name value =>
          match lookup_flag fs name with
          | None => if String.eqb name "help" || String.eqb name "h" then Err ErrHelp else Err (ErrUndefined name)
          | Some (BoolFlag set) =>
              match value with
              | None => parse fs rest (set true s)
              | Some v => match ParseBool v with Some b => parse fs rest (set b s) | None => Err (ErrBool v name) end
              end
          | Some (ValueFlag set) =>
              match value, rest with
              | Some v, _ => match set v s with Some s => parse fs rest s | None => Err (ErrValue v name) end
              | None, v :: rest => match set v s with Some s => parse fs rest s | None => Err (ErrValue v name) end
              | None, [] => Err (ErrNeedsValue name)
              end
          end
      end
  end.

(** ** The numbers that are written are read *)

Lemma utoa_no_zero n : (n ≠ 0)%N → ∃ c r, utoa n = String c r ∧ Ascii.eqb c "0" = false ∧ is_digit c = true.
Proof.
  intros Hn. pose proof (utoa_digits n) as Hd. destruct (utoa n) as [|c r] eqn:Hu; [by apply utoa_nonempty in Hu|].
  exists c, r. split; [done|]. cbn [str_forallb] in Hd. apply andb_true_iff in Hd as [Hc _]. split; [|exact Hc].
  apply Ascii.eqb_neq. intros ->. unfold utoa in Hu.
  pose proof (DecimalN.Unsigned.to_of (N.to_uint n)) as Hto. rewrite DecimalN.Unsigned.of_to in Hto.
  destruct (N.to_uint n) as [|d|d|d|d|d|d|d|d|d|d] eqn:Hd0; try discriminate Hu.
  unfold Decimal.unorm in Hto. cbn [Decimal.nzhead] in Hto. destruct (Decimal.nzhead d) as [|e|e|e|e|e|e|e|e|e|e] eqn:Hnz; try discriminate Hto.
  - injection Hto as ->. apply Hn. rewrite <- (DecimalN.Unsigned.of_to n), Hd0. reflexivity.
  - by apply DecimalFacts.nzhead_nonzero in Hnz.
Qed.

Lemma digit_step base acc c s n : digit_val c = Some n → (n <? base)%N = true → Ascii.eqb c "_" = false →
  base_digits base acc (String c s) = base_digits base (acc * base + n) s.
Proof. intros Hc Hn Hu. cbn [base_digits]. rewrite Hu, Hc. cbn [mbind option_bind]. by rewrite Hn. Qed.

Lemma base_digits_pos d : ∀ p, base_digits 10 (N.pos p) (NilEmpty.string_of_uint d) = Some (N.pos (Pos.of_uint_acc d p)).
Proof.
  induction d as [|d IH|d IH|d IH|d IH|d IH|d IH|d IH|d IH|d IH|d IH]; intros p; [done|..];
    cbn [NilEmpty.string_of_uint Pos.of_uint_acc]; rewrite <- IH; (erewrite digit_step; [|vm_compute; reflexivity|reflexivity|reflexivity]); f_equal; lia.
Qed.

Lemma base_digits_uint d : base_digits 10 0 (NilEmpty.string_of_uint d) = Some (N.of_uint d).
Proof.
  unfold N.of_uint. induction d as [|d IH|d IH|d IH|d IH|d IH|d IH|d IH|d IH|d IH|d IH]; [done|..];
    cbn [NilEmpty.string_of_uint Pos.of_uint]; first [rewrite <- IH; reflexivity | rewrite <- base_digits_pos; reflexivity].
Qed.

Lemma digits_no_underscore s : str_forallb is_digit s = true → str_has "_" s = false.
Proof. by apply str_has_forallb. Qed.

(** A number that was printed is read as itself, whatever its base. *)
Lemma ParseUint0_utoa n : (n ≠ 0)%N → ParseUint0 (utoa n) = Some n.
Proof.
  intros Hn. destruct (utoa_no_zero n Hn) as (c & r & Hu & Hc & _). unfold ParseUint0.
  rewrite (proj2 (String.eqb_neq _ _) (utoa_nonempty n)).
  assert (base_prefix (utoa n) = (10%N, utoa n)) as ->.
  { rewrite Hu. unfold base_prefix. rewrite Hc. by destruct r as [|? [|? ?]]. }
  assert (base_digits 10 0 (utoa n) = Some n) as -> by (unfold utoa; by rewrite base_digits_uint, DecimalN.Unsigned.of_to).
  cbn [mbind option_bind].
  by rewrite digits_no_underscore by apply utoa_digits.
Qed.

Lemma ParseInt0_Itoa z : (0 < z)%Z → is_Some (in_int64 z) → ParseInt0 (Itoa z) = Some z.
Proof.
  intros Hz Hi. assert (in_int64 z = Some z) as Hz' by (unfold in_int64 in *; case_match; [done|by destruct Hi]).
  unfold Itoa. rewrite (proj2 (Z.ltb_ge z 0)) by lia. destruct (utoa_no_zero (Z.to_N z)) as (c & r & Hu & _ & Hd); [lia|].
  assert (ParseInt0 (utoa (Z.to_N z)) = (n ← ParseUint0 (utoa (Z.to_N z)); in_int64 (Z.of_N n))) as ->.
  { rewrite Hu. cbn [ParseInt0]. destruct (Ascii.eqb_spec c "-") as [->|_]; [done|]. by destruct (Ascii.eqb_spec c "+") as [->|_]. }
  rewrite ParseUint0_utoa by lia. cbn [mbind option_bind]. by replace (Z.of_N (Z.to_N z)) with z by lia.
Qed.

Lemma ParseInt0_int64 s z : ParseInt0 s = Some z → is_Some (in_int64 z).
Proof.
  assert (∀ x, in_int64 x = Some z → is_Some (in_int64 z)) as Hin.
  { intros x Hx. assert (x = z) as <- by (unfold in_int64 in Hx; case_match; congruence). by eexists. }
  unfold ParseInt0. destruct s as [|c t]; [done|].
  destruct (Ascii.eqb c "-"); [|destruct (Ascii.eqb c "+")]; (destruct (ParseUint0 _); [|done]); apply Hin.
Qed.

(** What every flag keeps, parsing keeps. *)
Definition flag_keeps {S} (J : S → Prop) (f : Flag S) : Prop :=
  match f with
  | BoolFlag set => ∀ b s, J s → J (set b s)
  | ValueFlag set => ∀ v s s', J s → set v s = Some s' → J s'
  end.

Lemma lookup_flag_in {S} (fs : Flags S) name f : lookup_flag fs name = Some f → f ∈ snd <$> fs.
Proof.
  induction fs as [|[n g] fs IH]; [done|]. cbn [lookup_flag]. destruct (String.eqb n name); [intros [= ->]; left|right; auto].
Qed.

Lemma parse_keeps {S} (J : S → Prop) (fs : Flags S) : Forall (flag_keeps J) (snd <$> fs) →
  ∀ n args s s' rest, (length args <= n)%nat → J s → parse fs args s = Ok (s', rest) → J s'.
Proof.
  intros Hf. rewrite Forall_forall in Hf.
  induction n as [|n IH]; intros [|arg args] s s' rest Hn Hs; cbn [parse length] in *; try lia; [by intros [= <- _]..|].
  destruct (classify arg) as [| | |name value]; [by intros [= <- _]|by intros [= <- _]|done|].
  destruct (lookup_flag fs name) as [f|] eqn:Hl; [|by destruct (_ || _)].
  apply lookup_flag_in, Hf in Hl. destruct f as [set|set]; cbn [flag_keeps] in Hl.
  - destruct value as [v|]; [destruct (ParseBool v) as [b|]; [|done]|]; intros Hp; (eapply IH; [|by eapply Hl|exact Hp]); lia.
  - destruct value as [v|]; [|destruct args as [|v args]; [done|cbn [length] in Hn]];
      (destruct (set v s) as [s1|] eqn:Hv; [|done]); intros Hp; (eapply IH; [|by eapply Hl|exact Hp]); lia.
Qed.
