(* ===== verification/Options.v ===== *)
(** * Options: the command line ([cmd/singctl/options.go], [internal/daemon])

    The flags of the program by module, the values the environment fills in,
    what is refused, and the arguments and environment of the detached process
    that [--daemon] starts.  A background process has to run as it was asked to
    on the command line of the process that started it: [BuildArgs] writes a
    configuration that [parseCLI] reads. *)

From S2P Require Import Prelude GoStr GoUrl GoUrlFacts GoPath GoFlag Runtime Registry Schema Singbox Executor Settings.

Local Open Scope string_scope.
Local Open Scope list_scope.

Module Options.

(** ** The modules *)

Record keysModule := { keys : list string; subs : list string; noSave : bool }.
Definition keys_flags : Flags keysModule :=
  let add_key v m := {| keys := keys m ++ [v]; subs := subs m; noSave := noSave m |} in [
  StringVar "k" add_key; StringVar "key" add_key;
  StringVar "sub" (λ v m, {| keys := keys m; subs := subs m ++ [v]; noSave := noSave m |});
  BoolVar "no-save" (λ b m, {| keys := keys m; subs := subs m; noSave := b |})].

Record proxyModule := { proxy : bool; vpn : bool; headless : bool; logs : bool; verbose : bool; daemon : bool; port : Z }.
Definition mk_proxy (p v h l e d : bool) (n : Z) : proxyModule :=
  {| proxy := p; vpn := v; headless := h; logs := l; verbose := e; daemon := d; port := n |}.
Definition proxy_flags : Flags proxyModule :=
  let upd (f : bool → bool → bool → bool → bool → bool → Z → proxyModule) (m : proxyModule) :=
    f (proxy m) (vpn m) (headless m) (logs m) (verbose m) (daemon m) (port m) in
  let set_proxy b := upd (λ _ v h l e d n, mk_proxy b v h l e d n) in
  let set_logs b := upd (λ p v h _ e d n, mk_proxy p v h b e d n) in [
  BoolVar "p" set_proxy; BoolVar "proxy" set_proxy;
  BoolVar "vpn" (λ b, upd (λ p _ h l e d n, mk_proxy p b h l e d n));
  IntVar "port" (λ z, upd (λ p v h l e d _, mk_proxy p v h l e d z));
  BoolVar "headless" (λ b, upd (λ p v _ l e d n, mk_proxy p v b l e d n));
  BoolVar "l" set_logs; BoolVar "logs" set_logs;
  BoolVar "verbose" (λ b, upd (λ p v h l _ d n, mk_proxy p v h l b d n));
  BoolVar "daemon" (λ b, upd (λ p v h l e _ n, mk_proxy p v h l e b n))].

Definition defaultClashAPI : string := "127.0.0.1:9090".

Record obsModule := {
  clashAPI : string; noClash : bool; clashSecret : string; urltestURL : string; urltestInterval : string; urltestTolerance : Z }.
Definition mk_obs (a : string) (n : bool) (s u i : string) (t : Z) : obsModule :=
  {| clashAPI := a; noClash := n; clashSecret := s; urltestURL := u; urltestInterval := i; urltestTolerance := t |}.
Definition obs_flags : Flags obsModule :=
  let upd (f : string → bool → string → string → string → Z → obsModule) (m : obsModule) :=
    f (clashAPI m) (noClash m) (clashSecret m) (urltestURL m) (urltestInterval m) (urltestTolerance m) in [
  StringVar "clash-api" (λ v, upd (λ _ n s u i t, mk_obs v n s u i t));
  BoolVar "no-clash-api" (λ b, upd (λ a _ s u i t, mk_obs a b s u i t));
  StringVar "clash-secret" (λ v, upd (λ a n _ u i t, mk_obs a n v u i t));
  StringVar "urltest-url" (λ v, upd (λ a n s _ i t, mk_obs a n s v i t));
  StringVar "urltest-interval" (λ v, upd (λ a n s u _ t, mk_obs a n s u v t));
  IntVar "urltest-tolerance" (λ z, upd (λ a n s u i _, mk_obs a n s u i z))].

Record procModule := { routePIDRaw : list string; restartPIDRaw : list string; launch : bool; launchArgv : list string }.
Definition proc_flags : Flags procModule := [
  StringVar "route-pid" (λ v m, {| routePIDRaw := routePIDRaw m ++ [v]; restartPIDRaw := restartPIDRaw m; launch := launch m; launchArgv := launchArgv m |});
  StringVar "restart-pid" (λ v m, {| routePIDRaw := routePIDRaw m; restartPIDRaw := restartPIDRaw m ++ [v]; launch := launch m; launchArgv := launchArgv m |});
  BoolVar "launch" (λ b m, {| routePIDRaw := routePIDRaw m; restartPIDRaw := restartPIDRaw m; launch := b; launchArgv := launchArgv m |})].

Record controlModule := { attach : bool; stop : bool; status : bool }.
Definition ctl_flags : Flags controlModule := [
  BoolVar "attach" (λ b m, {| attach := b; stop := stop m; status := status m |});
  BoolVar "stop" (λ b m, {| attach := attach m; stop := b; status := status m |});
  BoolVar "status" (λ b m, {| attach := attach m; stop := stop m; status := b |})].

Record rootModule := { version : bool; man : bool; envFile : string; yes : bool }.
Definition root_flags : Flags rootModule :=
  let set_version b m := {| version := b; man := man m; envFile := envFile m; yes := yes m |} in
  let set_yes b m := {| version := version m; man := man m; envFile := envFile m; yes := b |} in [
  BoolVar "v" set_version; BoolVar "version" set_version;
  BoolVar "man" (λ b m, {| version := version m; man := b; envFile := envFile m; yes := yes m |});
  BoolVar "y" set_yes; BoolVar "yes" set_yes;
  StringVar "env-file" (λ v m, {| version := version m; man := man m; envFile := v; yes := yes m |})].

Record cli := { c_keys : keysModule; c_proxy : proxyModule; c_obs : obsModule; c_proc : procModule; c_ctl : controlModule; c_root : rootModule }.

(** What the flags are when none is given. *)
Definition new_cli : cli := {|
  c_keys := {| keys := []; subs := []; noSave := false |};
  c_proxy := mk_proxy false false false false false false 0;
  c_obs := mk_obs defaultClashAPI false "" "" "" 0;
  c_proc := {| routePIDRaw := []; restartPIDRaw := []; launch := false; launchArgv := [] |};
  c_ctl := {| attach := false; stop := false; status := false |};
  c_root := {| version := false; man := false; envFile := ""; yes := false |} |}.

Definition with_keys m c : cli := {| c_keys := m; c_proxy := c_proxy c; c_obs := c_obs c; c_proc := c_proc c; c_ctl := c_ctl c; c_root := c_root c |}.
Definition with_proxy m c : cli := {| c_keys := c_keys c; c_proxy := m; c_obs := c_obs c; c_proc := c_proc c; c_ctl := c_ctl c; c_root := c_root c |}.
Definition with_obs m c : cli := {| c_keys := c_keys c; c_proxy := c_proxy c; c_obs := m; c_proc := c_proc c; c_ctl := c_ctl c; c_root := c_root c |}.
Definition with_proc m c : cli := {| c_keys := c_keys c; c_proxy := c_proxy c; c_obs := c_obs c; c_proc := m; c_ctl := c_ctl c; c_root := c_root c |}.
Definition with_ctl m c : cli := {| c_keys := c_keys c; c_proxy := c_proxy c; c_obs := c_obs c; c_proc := c_proc c; c_ctl := m; c_root := c_root c |}.
Definition with_root m c : cli := {| c_keys := c_keys c; c_proxy := c_proxy c; c_obs := c_obs c; c_proc := c_proc c; c_ctl := c_ctl c; c_root := m |}.

(** [Registry.Bind]: the flags of the modules, each on its part. *)
Definition on_part {M} (get : cli → M) (put : M → cli → cli) (f : Flag M) : Flag cli :=
  match f with
  | BoolFlag set => BoolFlag (λ b c, put (set b (get c)) c)
  | ValueFlag set => ValueFlag (λ v c, (λ m, put m c) <$> set v (get c))
  end.
Definition part_flags {M} (get : cli → M) (put : M → cli → cli) (fs : Flags M) : Flags cli := (λ nf, (fst nf, on_part get put (snd nf))) <$> fs.
Definition Bind : Flags cli :=
  part_flags c_keys with_keys keys_flags ++ part_flags c_proxy with_proxy proxy_flags ++ part_flags c_obs with_obs obs_flags ++
  part_flags c_proc with_proc proc_flags ++ part_flags c_ctl with_ctl ctl_flags ++ part_flags c_root with_root root_flags.

(** ** What is refused *)

Inductive CliError :=
  | ErrFlag (e : FlagError) | ErrUnexpected (arg : string) | ErrEnvPort (raw : string) | ErrExclusive | ErrPort (p : Z) | ErrNoCommand
  | ErrPid (flag raw : string) | ErrDaemonControl | ErrDaemonNoSave.

Definition proxy_validate (m : proxyModule) : option CliError :=
  if vpn m && proxy m then Some ErrExclusive
  else if (negb (port m =? 0) && ((port m <? 1) || (65534 <? port m)))%Z then Some (ErrPort (port m))
  else None.

Fixpoint parsePIDs (flag : string) (raw : list string) : result CliError (list Z) :=
  match raw with
  | [] => Ok []
  | r :: raw =>
      match Atoi (TrimSpace r) with
      | Some p => if (p <=? 0)%Z then Err (ErrPid flag r) else let? ps := parsePIDs flag raw in Ok (p :: ps)
      | None => Err (ErrPid flag r)
      end
  end.
Definition routePIDs (m : procModule) := parsePIDs "--route-pid" (routePIDRaw m).
Definition restartPIDs (m : procModule) := parsePIDs "--restart-pid" (restartPIDRaw m).

Definition proc_validate (m : procModule) : option CliError :=
  if launch m && bool_decide (launchArgv m = []) then Some ErrNoCommand
  else match routePIDs m with
       | Err e => Some e
       | Ok _ => match restartPIDs m with Err e => Some e | Ok _ => None end
       end.

Definition validate (c : cli) : option CliError :=
  match proxy_validate (c_proxy c) with
  | Some e => Some e
  | None =>
      if daemon (c_proxy c) && (attach (c_ctl c) || stop (c_ctl c) || status (c_ctl c)) then Some ErrDaemonControl
      else if daemon (c_proxy c) && noSave (c_keys c) then Some ErrDaemonNoSave
      else proc_validate (c_proc c)
  end.

Definition validated (c : cli) : result CliError cli := match validate c with Some e => Err e | None => Ok c end.

Definition parseCLI (args : list string) : result CliError cli :=
  match parse Bind args new_cli with
  | Err e => Err (ErrFlag e)
  | Ok (c, rest) =>
      let c := with_proc {| routePIDRaw := routePIDRaw (c_proc c); restartPIDRaw := restartPIDRaw (c_proc c); launch := launch (c_proc c);
                            launchArgv := rest |} c in
      match rest with
      | a :: _ => if launch (c_proc c) then validated c else Err (ErrUnexpected a)
      | [] => validated c
      end
  end.

(** ** The environment *)

Definition keys_applyEnv (getenv : string → string) (m : keysModule) : keysModule :=
  let m := if bool_decide (subs m = []) && negb (String.eqb (TrimSpace (getenv "SINGCTL_SUB")) "")
           then {| keys := keys m; subs := [TrimSpace (getenv "SINGCTL_SUB")]; noSave := noSave m |} else m in
  let add v := {| keys := [v]; subs := subs m; noSave := noSave m |} in
  if negb (bool_decide (keys m = [])) then m
  else if negb (String.eqb (TrimSpace (getenv "SINGCTL_KEYS")) "") then add (TrimSpace (getenv "SINGCTL_KEYS"))
  else if negb (String.eqb (TrimSpace (getenv "SINGCTL_KEY")) "") then add (TrimSpace (getenv "SINGCTL_KEY"))
  else m.

Definition proxy_applyEnv (getenv : string → string) (m : proxyModule) : result CliError proxyModule :=
  let raw := TrimSpace (getenv "SINGCTL_PORT") in
  if (port m =? 0)%Z && negb (String.eqb raw "") then
    match Atoi raw with
    | None => Err (ErrEnvPort raw)
    | Some p => Ok (mk_proxy (proxy m) (vpn m) (headless m) (logs m) (verbose m) (daemon m) p)
    end
  else Ok m.

Definition obs_applyEnv (getenv : string → string) (m : obsModule) : obsModule :=
  let secret := if String.eqb (clashSecret m) "" then TrimSpace (getenv "SINGCTL_CLASH_SECRET") else clashSecret m in
  let v := TrimSpace (getenv "SINGCTL_CLASH_API") in
  let addr := if negb (String.eqb v "") && String.eqb (clashAPI m) defaultClashAPI then v else clashAPI m in
  mk_obs addr (noClash m) secret (urltestURL m) (urltestInterval m) (urltestTolerance m).

Definition applyEnv (getenv : string → string) (c : cli) : result CliError cli :=
  let c := with_keys (keys_applyEnv getenv (c_keys c)) c in
  match proxy_applyEnv getenv (c_proxy c) with
  | Err e => Err e
  | Ok m => validated (with_obs (obs_applyEnv getenv (c_obs c)) (with_proxy m c))
  end.

(** ** What the modules ask for *)

Definition combined (m : keysModule) : string := Join nl (keys m).

(** [strings.FieldsFunc] for ASCII separators. *)
Fixpoint FieldsFunc (sep : ascii → bool) (cur s : string) : list string :=
  let flush := if String.eqb cur "" then [] else [srev cur] in
  match s with
  | "" => flush
  | String c s => if sep c then flush ++ FieldsFunc sep "" s else FieldsFunc sep (String c cur) s
  end.
Definition sub_separator (c : ascii) : bool := bool_decide (c ∈ [LF; CR; ascii_of_N 9; " "; ";"; ","]%char).

(** The URLs of the subscriptions, each once, in order. *)
Definition subscriptions (m : keysModule) : list string :=
  foldl (λ out u, let u := TrimSpace u in if String.eqb u "" || bool_decide (u ∈ out) then out else out ++ [u]) []
    (concat (FieldsFunc sub_separator "" <$> subs m)).

Definition effectiveClashAPI (m : obsModule) : string := if noClash m then "" else clashAPI m.

(** [requestedMode] of [main.go]: a mode, when one was given. *)
Definition requestedMode (c : cli) : option string :=
  if vpn (c_proxy c) then Some "vpn" else if proxy (c_proxy c) then Some "proxy" else None.

(** ** The detached process *)

Definition opt (name value : string) : list string := if String.eqb value "" then [] else [name; value].
Definition opt_pos (name : string) (z : Z) : list string := if (0 <? z)%Z then [name; Itoa z] else [].

Definition BuildArgs (c : Settings.DaemonConfig) : list string :=
  ["--headless"] ++ [if String.eqb (Settings.Mode c) "vpn" then "--vpn" else "--proxy"] ++ opt_pos "--port" (Settings.Port c) ++
  (if Settings.NoClash c then ["--no-clash-api"]
   else opt "--clash-api" (Settings.dClashAddr c) ++ opt "--clash-secret" (Settings.dClashSecret c)) ++
  opt "--urltest-url" (Settings.dURLTestURL c) ++ opt "--urltest-interval" (Settings.dURLTestInterval c) ++
  opt_pos "--urltest-tolerance" (Settings.dURLTestTolerance c).

(** The environment as entries [name=value]; the first of a name counts. *)
Fixpoint Getenv (environ : list string) (name : string) : string :=
  match environ with
  | [] => ""
  | kv :: environ =>
      match Cut kv "=" with
      | Some (k, v) => if String.eqb k name then v else Getenv environ name
      | None => Getenv environ name
      end
  end.

Definition childEnv : string := "SINGCTL_DAEMON_CHILD".
Definition lockEnv : string := "SINGCTL_DAEMON_LOCK_FD".
Definition IsChild (environ : list string) : bool := String.eqb (Getenv environ childEnv) "1".

Definition env_key (kv : string) : string := match Cut kv "=" with Some (k, _) => k | None => kv end.
Definition own_variable (k : string) : bool := HasPrefix k "MallocStackLogging" || String.eqb k lockEnv || String.eqb k childEnv.
Definition stripMallocStackLoggingEnv (environ : list string) : list string := filter (λ kv, own_variable (env_key kv) = false) environ.

(** [Spawn] with a lock to hand over: the child's arguments and environment. *)
Definition Spawn (c : Settings.DaemonConfig) (environ : list string) : list string * list string :=
  (BuildArgs c, stripMallocStackLoggingEnv environ ++ [childEnv +:+ "=1"; lockEnv +:+ "=3"]).

(** The Clash API of a run, from [main]: a secret is made up when none is
    given; without an address there is no API. *)
Definition run_secret (random : option string) (m : obsModule) : string :=
  if String.eqb (effectiveClashAPI m) "" then clashSecret m
  else if String.eqb (clashSecret m) "" then Settings.randomHex random else clashSecret m.

Definition daemon_config (random : option string) (logPath : string) (c : cli) : Settings.DaemonConfig := {|
  Settings.Mode := (if vpn (c_proxy c) then "vpn" else "proxy"); Settings.Port := port (c_proxy c); Settings.NoClash := noClash (c_obs c);
  Settings.dClashAddr := clashAPI (c_obs c); Settings.dClashSecret := run_secret random (c_obs c);
  Settings.dURLTestURL := urltestURL (c_obs c); Settings.dURLTestInterval := urltestInterval (c_obs c);
  Settings.dURLTestTolerance := urltestTolerance (c_obs c); Settings.LogPath := logPath |}.

(** The settings a run starts with: its tunables and its port. *)
Definition run_tunables (random : option string) (logPath : string) (c : cli) : Settings.Tunables := {|
  Settings.clashAddr := effectiveClashAPI (c_obs c);
  Settings.clashSecret := (if String.eqb (effectiveClashAPI (c_obs c)) "" then "" else run_secret random (c_obs c));
  Settings.urltest := {| Singbox.utURL := urltestURL (c_obs c); Singbox.utInterval := urltestInterval (c_obs c);
                         Singbox.utTolerance := urltestTolerance (c_obs c) |};
  Settings.logPath := (if headless (c_proxy c) && logs (c_proxy c) then "" else logPath); Settings.logLevel := (if verbose (c_proxy c) then "info" else "") |}.

(** ** The arguments of the detached process are read as they were meant *)

(** No flag is bound twice, which would panic. *)
Lemma flags_distinct : NoDup (fst <$> Bind).
Proof. apply (bool_decide_unpack _). vm_compute. reflexivity. Qed.

(** What the arguments of a detached process are read as. *)
Definition child (vpn_ : bool) (p : Z) (a : string) (n : bool) (s u i : string) (t : Z) : cli := {|
  c_keys := c_keys new_cli; c_proxy := mk_proxy (negb vpn_) vpn_ true false false false p; c_obs := mk_obs a n s u i t;
  c_proc := c_proc new_cli; c_ctl := c_ctl new_cli; c_root := c_root new_cli |}.

Definition given (v d : string) : string := if String.eqb v "" then d else v.

Lemma parse_named {S} (fs : Flags S) arg name set v rest s s' :
  classify arg = Named name None → lookup_flag fs name = Some (ValueFlag set) → set v s = Some s' →
  parse fs (arg :: v :: rest) s = parse fs rest s'.
Proof. intros Hc Hl Hs. cbn [parse]. by rewrite Hc, Hl, Hs. Qed.

Section parsed.
Variables (vpn_ : bool) (p t : Z) (a s u i : string) (n : bool) (rest : list string).

Lemma parse_port : is_Some (in_int64 p) → (0 <= p)%Z →
  parse Bind (opt_pos "--port" p ++ rest) (child vpn_ 0 a n s u i t) = parse Bind rest (child vpn_ p a n s u i t).
Proof.
  intros Hi Hp. unfold opt_pos. destruct (Z.ltb_spec 0 p) as [Hlt|Hge]; [|by replace p with 0%Z by lia].
  cbn [app]. eapply parse_named; [reflexivity|reflexivity|]. cbv beta. cbn [on_part]. by rewrite ParseInt0_Itoa.
Qed.

Lemma parse_tolerance : is_Some (in_int64 t) → (0 <= t)%Z →
  parse Bind (opt_pos "--urltest-tolerance" t ++ rest) (child vpn_ p a n s u i 0) = parse Bind rest (child vpn_ p a n s u i t).
Proof.
  intros Hi Ht. unfold opt_pos. destruct (Z.ltb_spec 0 t) as [Hlt|Hge]; [|by replace t with 0%Z by lia].
  cbn [app]. eapply parse_named; [reflexivity|reflexivity|]. cbv beta. by rewrite ParseInt0_Itoa.
Qed.

Lemma parse_addr : parse Bind (opt "--clash-api" a ++ rest) (child vpn_ p defaultClashAPI n s u i t) =
  parse Bind rest (child vpn_ p (given a defaultClashAPI) n s u i t).
Proof. unfold opt, given. destruct (String.eqb a ""); [done|]. by eapply parse_named. Qed.
Lemma parse_secret : parse Bind (opt "--clash-secret" s ++ rest) (child vpn_ p a n "" u i t) = parse Bind rest (child vpn_ p a n s u i t).
Proof. unfold opt. destruct (String.eqb_spec s "") as [->|_]; [done|]. by eapply parse_named. Qed.
Lemma parse_url : parse Bind (opt "--urltest-url" u ++ rest) (child vpn_ p a n s "" i t) = parse Bind rest (child vpn_ p a n s u i t).
Proof. unfold opt. destruct (String.eqb_spec u "") as [->|_]; [done|]. by eapply parse_named. Qed.
Lemma parse_interval : parse Bind (opt "--urltest-interval" i ++ rest) (child vpn_ p a n s u "" t) = parse Bind rest (child vpn_ p a n s u i t).
Proof. unfold opt. destruct (String.eqb_spec i "") as [->|_]; [done|]. by eapply parse_named. Qed.
Lemma parse_no_clash : parse Bind ("--no-clash-api" :: rest) (child vpn_ p a false s u i t) = parse Bind rest (child vpn_ p a true s u i t).
Proof. reflexivity. Qed.
Lemma parse_mode : parse Bind ("--headless" :: (if vpn_ then "--vpn" else "--proxy") :: rest) new_cli =
  parse Bind rest (child vpn_ 0 defaultClashAPI false "" "" "" 0).
Proof. by destruct vpn_. Qed.
End parsed.

Lemma parse_BuildArgs (c : Settings.DaemonConfig) :
  is_Some (in_int64 (Settings.Port c)) → (0 <= Settings.Port c)%Z →
  is_Some (in_int64 (Settings.dURLTestTolerance c)) → (0 <= Settings.dURLTestTolerance c)%Z →
  parse Bind (BuildArgs c) new_cli =
    Ok (child (String.eqb (Settings.Mode c) "vpn") (Settings.Port c)
          (if Settings.NoClash c then defaultClashAPI else given (Settings.dClashAddr c) defaultClashAPI) (Settings.NoClash c)
          (if Settings.NoClash c then "" else Settings.dClashSecret c) (Settings.dURLTestURL c) (Settings.dURLTestInterval c)
          (Settings.dURLTestTolerance c), []).
Proof.
  intros Hpi Hp Hti Ht. unfold BuildArgs. cbn [app]. rewrite parse_mode, parse_port by done.
  rewrite <- (app_nil_r (opt_pos "--urltest-tolerance" _)).
  destruct (Settings.NoClash c); [cbn [app]; rewrite parse_no_clash|rewrite <- (app_assoc (opt "--clash-api" _)), parse_addr, parse_secret];
    by rewrite parse_url, parse_interval, parse_tolerance.
Qed.

(** *** The process that starts it *)

Lemma part_keeps {M} (J : cli → Prop) (J' : M → Prop) (get : cli → M) (put : M → cli → cli) (fs : Flags M) :
  (∀ c, J c → J' (get c)) → (∀ m c, J c → J' m → J (put m c)) →
  Forall (flag_keeps J') (snd <$> fs) → Forall (flag_keeps J) (snd <$> part_flags get put fs).
Proof.
  intros Hg Hp Hf. apply Forall_forall. intros f Hin. unfold part_flags in Hin. rewrite <- list_fmap_compose in Hin.
  apply list_elem_of_fmap in Hin as (nf & -> & Hin).
  assert (flag_keeps J' (snd nf)) as Hk by (rewrite Forall_forall in Hf; apply Hf, list_elem_of_fmap; by exists nf).
  destruct nf as [n [set|set]]; cbn in *.
  - intros b c Hc. apply Hp; [done|]. apply Hk. by apply Hg.
  - intros v c c' Hc Hs. destruct (set v (get c)) as [m|] eqn:Hm; [|done]. injection Hs as <-. apply Hp; [done|]. eapply Hk; [|exact Hm]. by apply Hg.
Qed.

Lemma part_free {M} (fs : Flags M) : Forall (flag_keeps (λ _, True)) (snd <$> fs).
Proof. apply Forall_forall. intros [set|set] _; done. Qed.

Definition int_tolerance (m : obsModule) : Prop := is_Some (in_int64 (urltestTolerance m)).

Lemma obs_keeps : Forall (flag_keeps int_tolerance) (snd <$> obs_flags).
Proof.
  unfold obs_flags. cbn [fmap list_fmap snd StringVar BoolVar IntVar].
  repeat apply Forall_cons_2; try apply Forall_nil_2; cbn [flag_keeps]; unfold int_tolerance.
  all: try (intros v s s' Hs [= <-]; exact Hs). all: try (intros b s Hs; exact Hs).
  intros v s s' _ Hs. destruct (ParseInt0 v) as [z|] eqn:Hz; [|done]. injection Hs as <-. by eapply ParseInt0_int64.
Qed.

Lemma parsed_tolerance args c : parseCLI args = Ok c → is_Some (in_int64 (urltestTolerance (c_obs c))).
Proof.
  unfold parseCLI. destruct (parse Bind args new_cli) as [[c1 rest]|e] eqn:Hp; [|done].
  assert (is_Some (in_int64 (urltestTolerance (c_obs c1)))) as Hc.
  { refine (parse_keeps (λ c, is_Some (in_int64 (urltestTolerance (c_obs c)))) Bind _ _ args new_cli c1 rest (le_n _) _ Hp); [|by eexists].
    assert (∀ M (get : cli → M) put fs, (∀ m c, c_obs (put m c) = c_obs c) →
      Forall (flag_keeps (λ c, is_Some (in_int64 (urltestTolerance (c_obs c))))) (snd <$> part_flags get put fs)) as Hfree.
    { intros M get put fs Hput. apply (part_keeps _ (λ _, True)); [done|intros m c' Hm _; by rewrite Hput|apply part_free]. }
    unfold Bind. rewrite !fmap_app, !Forall_app. split_and!; try (by apply Hfree).
    apply (part_keeps _ int_tolerance); [done|by intros m c' _ Hm|apply obs_keeps]. }
  unfold validated. destruct rest as [|r rest]; [|destruct (launch _); [|done]]; (destruct (validate _); [done|]); intros [= <-]; exact Hc.
Qed.

(** What a validated command line has. *)
Lemma validated_Ok c c' : validated c = Ok c' → c' = c ∧ validate c = None.
Proof. unfold validated. destruct (validate c); [done|]. by intros [= <-]. Qed.

Lemma valid_port c : validate c = None → (0 <= port (c_proxy c) <= 65534)%Z ∧ (vpn (c_proxy c) && proxy (c_proxy c) = false).
Proof.
  unfold validate, proxy_validate. destruct (vpn _ && proxy _); [done|]. destruct (_ && _)%Z eqn:Hp; [done|]. intros _. split; [|done].
  destruct (Z.eqb_spec (port (c_proxy c)) 0) as [->|Hn]; [lia|]. cbn [negb andb] in Hp.
  apply orb_false_iff in Hp as [H1%Z.ltb_ge H2%Z.ltb_ge]. lia.
Qed.

Lemma child_valid vpn_ p a n s u i t : (0 <= p <= 65534)%Z → validate (child vpn_ p a n s u i t) = None.
Proof.
  intros Hp. unfold validate, proxy_validate. cbn [child c_proxy mk_proxy vpn proxy port daemon andb].
  replace (vpn_ && negb vpn_) with false by (by destruct vpn_).
  destruct (Z.eqb_spec p 0) as [->|Hn]; [done|]. cbn [negb andb].
  rewrite (proj2 (Z.ltb_ge p 1)), (proj2 (Z.ltb_ge 65534 p)) by lia. reflexivity.
Qed.

(** The variables of the child are those of its parent, but for its own. *)
Lemma own_Getenv_strip environ name tl : own_variable name = false → Getenv tl name = "" →
  Getenv (stripMallocStackLoggingEnv environ ++ tl) name = Getenv environ name.
Proof.
  intros Hn Ht. induction environ as [|kv environ IH]; [exact Ht|]. unfold stripMallocStackLoggingEnv in *. cbn [Getenv].
  destruct (decide (own_variable (env_key kv) = false)) as [Hk|Hk].
  - rewrite filter_cons_True by done. cbn [app Getenv]. by rewrite IH.
  - rewrite filter_cons_False by done. rewrite IH. unfold env_key in Hk.
    destruct (Cut kv "=") as [[k v]|] eqn:Hc; [|done]. destruct (String.eqb_spec k name) as [->|_]; done.
Qed.

(** What a command line and the environment have settled: a port in range,
    exclusive modes, and no value of the environment that would count again. *)
Record settled (getenv : string → string) (c : cli) : Prop := {
  st_valid : validate c = None;
  st_tolerance : int_tolerance (c_obs c);
  st_port : port (c_proxy c) = 0%Z → TrimSpace (getenv "SINGCTL_PORT") = "" ∨ Atoi (TrimSpace (getenv "SINGCTL_PORT")) = Some 0%Z;
  st_clash : clashAPI (c_obs c) = defaultClashAPI →
    TrimSpace (getenv "SINGCTL_CLASH_API") = "" ∨ TrimSpace (getenv "SINGCTL_CLASH_API") = defaultClashAPI }.

Lemma parsed_settled args getenv c0 c : parseCLI args = Ok c0 → applyEnv getenv c0 = Ok c → settled getenv c.
Proof.
  intros Ht%parsed_tolerance. unfold applyEnv, proxy_applyEnv. cbn [c_proxy with_keys].
  destruct ((port (c_proxy c0) =? 0)%Z && negb (String.eqb (TrimSpace (getenv "SINGCTL_PORT")) "")) eqn:Hp.
  - apply andb_true_iff in Hp as [_ Hp]. destruct (Atoi _) as [p|] eqn:Ha; [|done]. intros [-> Hv]%validated_Ok.
    split; [exact Hv|exact Ht| |].
    + cbn. intros ->. by right.
    + cbn. destruct (String.eqb_spec (TrimSpace (getenv "SINGCTL_CLASH_API")) ""); [by left|]. cbn [negb andb].
      destruct (String.eqb_spec (clashAPI (c_obs c0)) defaultClashAPI); [by right|done].
  - intros [-> Hv]%validated_Ok. split; [exact Hv|exact Ht| |].
    + cbn. intros Hz. rewrite Hz in Hp. cbn in Hp. apply negb_false_iff, String.eqb_eq in Hp. by left.
    + cbn. destruct (String.eqb_spec (TrimSpace (getenv "SINGCTL_CLASH_API")) ""); [by left|]. cbn [negb andb].
      destruct (String.eqb_spec (clashAPI (c_obs c0)) defaultClashAPI); [by right|done].
Qed.

Lemma in_int64_port p : (0 <= p <= 65534)%Z → is_Some (in_int64 p).
Proof.
  intros Hp. unfold in_int64, int64_min, int64_max. rewrite (proj2 (Z.leb_le _ p)), (proj2 (Z.leb_le p _)) by lia. by eexists.
Qed.

Lemma run_secret_set random m : random ≠ Some "" → effectiveClashAPI m ≠ "" → run_secret random m ≠ "".
Proof.
  intros Hr He. unfold run_secret. rewrite (proj2 (String.eqb_neq _ _) He). destruct (String.eqb_spec (clashSecret m) "") as [_|Hs]; [|done].
  unfold Settings.randomHex. destruct random as [b|]; [|done]. apply Settings.hex_nonempty. congruence.
Qed.

(** The environment does nothing to the arguments of a detached process. *)
Lemma child_applyEnv random getenv c : settled getenv c → random ≠ Some "" → (noClash (c_obs c) = false → clashAPI (c_obs c) ≠ "") →
  let n := noClash (c_obs c) in
  let a := if n then defaultClashAPI else given (clashAPI (c_obs c)) defaultClashAPI in
  let s := if n then "" else run_secret random (c_obs c) in
  let o := c_obs c in
  ∃ k a' s', applyEnv getenv (child (vpn (c_proxy c)) (port (c_proxy c)) a n s (urltestURL o) (urltestInterval o) (urltestTolerance o)) =
    Ok (with_keys k (child (vpn (c_proxy c)) (port (c_proxy c)) a' n s' (urltestURL o) (urltestInterval o) (urltestTolerance o))) ∧
    (n = false → a' = clashAPI o ∧ s' = run_secret random o).
Proof.
  intros [Hv Ht Hport Hclash] Hr Ha n a s o. apply valid_port in Hv as [Hp _].
  eexists (keys_applyEnv getenv (c_keys new_cli)), (clashAPI (obs_applyEnv getenv (mk_obs a n s (urltestURL o) (urltestInterval o) (urltestTolerance o)))),
    (clashSecret (obs_applyEnv getenv (mk_obs a n s (urltestURL o) (urltestInterval o) (urltestTolerance o)))).
  split.
  - unfold applyEnv, proxy_applyEnv. cbn [c_proxy with_keys child mk_proxy port].
    assert (∀ k a s, validated (with_keys k (child (vpn (c_proxy c)) (port (c_proxy c)) a n s (urltestURL o) (urltestInterval o) (urltestTolerance o))) =
      Ok (with_keys k (child (vpn (c_proxy c)) (port (c_proxy c)) a n s (urltestURL o) (urltestInterval o) (urltestTolerance o)))) as Hval.
    { intros k a1 s1. unfold validated. assert (validate (with_keys k (child (vpn (c_proxy c)) (port (c_proxy c)) a1 n s1 (urltestURL o) (urltestInterval o) (urltestTolerance o))) =
        validate (child (vpn (c_proxy c)) (port (c_proxy c)) a1 n s1 (urltestURL o) (urltestInterval o) (urltestTolerance o))) as -> by reflexivity.
      by rewrite child_valid. }
    destruct (Z.eqb_spec (port (c_proxy c)) 0) as [Hz|Hz]; cbn [andb].
    + destruct (Hport Hz) as [->|Hat]; [cbn [String.eqb negb]; apply Hval|].
      destruct (String.eqb _ ""); cbn [negb]; [apply Hval|]. rewrite Hat.
      cbn [proxy vpn headless logs verbose daemon mk_proxy]. rewrite <- Hz at 1. apply Hval.
    + apply Hval.
  - intros Hn. subst a s n o. rewrite Hn. unfold obs_applyEnv. cbn [clashAPI clashSecret mk_obs].
    specialize (Ha Hn). unfold given. rewrite (proj2 (String.eqb_neq _ _) Ha).
    assert (run_secret random (c_obs c) ≠ "") as Hs by (apply run_secret_set; [done|unfold effectiveClashAPI; by rewrite Hn]).
    rewrite (proj2 (String.eqb_neq _ _) Hs). split; [|done].
    destruct (String.eqb_spec (clashAPI (c_obs c)) defaultClashAPI) as [Hd|Hd]; [|by rewrite andb_false_r].
    destruct (Hclash Hd) as [->| ->]; [done|]. by rewrite Hd.
Qed.

Lemma child_parseCLI args vpn_ p a n s u i t : (0 <= p <= 65534)%Z →
  parse Bind args new_cli = Ok (child vpn_ p a n s u i t, []) → parseCLI args = Ok (child vpn_ p a n s u i t).
Proof.
  intros Hp Hargs. unfold parseCLI. rewrite Hargs. unfold validated.
  change (with_proc _ (child vpn_ p a n s u i t)) with (child vpn_ p a n s u i t). by rewrite child_valid.
Qed.


(** ** Runs *)

(** A command line in an environment, up to the process it starts. *)
Definition asked (args environ : list string) : result CliError cli := let? c := parseCLI args in applyEnv (Getenv environ) c.
Definition started (random : option string) (args environ : list string) : result CliError cli :=
  let? c := asked args environ in let '(args, environ) := Spawn (daemon_config random "" c) environ in asked args environ.

Definition ex_args : list string := ["--daemon"; "--vpn"; "--clash-secret=s"; "--urltest-interval"; "1m"].
Definition ex_environ : list string := ["SINGCTL_PORT= 7000 "; "MallocStackLogging=1"; "SINGCTL_CLASH_API=127.0.0.1:9091"; "HOME=/"].


(** An empty address turns the Clash API off, and is no argument of the child,
    which then has it on at the default address. *)
Lemma empty_address_comes_back :
  (let? c := asked ["--daemon"; "--clash-api="] [] in Ok (effectiveClashAPI (c_obs c))) = Ok "" ∧
  (let? c := started None ["--daemon"; "--clash-api="] [] in Ok (effectiveClashAPI (c_obs c))) = Ok defaultClashAPI.
Proof. split; vm_compute; reflexivity. Qed.

(** The address that is also the default loses to the environment, although
    flags are said to win. *)
Lemma explicit_default_loses :
  let api args := let? c := asked args ["SINGCTL_CLASH_API=0.0.0.0:80"] in Ok (effectiveClashAPI (c_obs c)) in
  api ["--clash-api"; "127.0.0.1:9090"] = Ok "0.0.0.0:80" ∧ api ["--clash-api"; "127.0.0.1:9091"] = Ok "127.0.0.1:9091".
Proof. split; vm_compute; reflexivity. Qed.

(** Flags that a background process is not told of are accepted with it. *)
Lemma background_drops_flags :
  let told r := let? c := r in Ok (verbose (c_proxy c), routePIDRaw (c_proc c), launchArgv (c_proc c)) in
  let args := ["--daemon"; "--verbose"; "--route-pid"; "7"; "--launch"; "--"; "curl"] in
  told (asked args []) = Ok (true, ["7"], ["curl"]) ∧ told (started None args []) = Ok (false, [], []).
Proof. split; vm_compute; reflexivity. Qed.

End Options.
