(* ===== verification/Feature.v ===== *)
(** * Feature: the help of the command line ([internal/feature/feature.go],
    [FeatureDescriptor] of the packages, [cmd/singctl/options.go])

    Every module describes itself, and the registry writes the usage text and a
    manual page from the descriptions.  What is described must be what is
    bound: the two are compared in [help_names_what_is_bound], and
    [usage_column] says where the usage of a flag is printed. *)

From S2P Require Import Prelude GoStr GoUrl GoUrlFacts GoFlag Registry Control Options.

Local Open Scope string_scope.
Local Open Scope list_scope.

Module Feature.
Import Control.

Record FlagSpec := {
  Names : list string;
  Placeholder : string;
  Usage : string;
  Default : string;
  Env : list string;
  Repeatable : bool
}.

Record Descriptor := { dName : string; Title : string; Summary : string; Doc : string; FlagSpecs : list FlagSpec }.

Record FeatureRegistry := { name : string; tagline : string; synopsis : string; mods : list Descriptor }.

Definition New (n t s : string) : FeatureRegistry := {| name := n; tagline := t; synopsis := s; mods := [] |}.
Definition Add (m : Descriptor) (r : FeatureRegistry) : FeatureRegistry := {|
  name := name r; tagline := tagline r; synopsis := synopsis r; mods := mods r ++ [m] |}.

Definition all_flags (r : FeatureRegistry) : list FlagSpec := mods r ≫= FlagSpecs.
Definition FlagNames (r : FeatureRegistry) : gset string := list_to_set (all_flags r ≫= Names).

(** ** The texts *)

Definition flagCol : nat := 28.
Fixpoint Repeat (s : string) (n : nat) : string := match n with O => "" | S n => s +:+ Repeat s n end.

Definition dashed (n : string) : string := if (String.length n =? 1)%nat then "-" +:+ n else "--" +:+ n.
Definition flagLabel (f : FlagSpec) : string :=
  let label := Join ", " (dashed <$> Names f) in
  if String.eqb (Placeholder f) "" then label else label +:+ " " +:+ Placeholder f.

(** A left part and a usage, in two columns or on two lines. *)
Definition columns (left usage : string) : string :=
  if (flagCol <? String.length left + 2)%nat
  then left +:+ nl +:+ Repeat " " flagCol +:+ usage +:+ nl
  else left +:+ Repeat " " (flagCol - String.length left) +:+ usage +:+ nl.

Definition usage_of (f : FlagSpec) : string :=
  Usage f +:+ (if Repeatable f then " (repeatable)" else "") +:+
  (if String.eqb (Default f) "" then "" else " (default: " +:+ Default f +:+ ")").

Definition writeFlag (f : FlagSpec) : string :=
  let left := "  " +:+ flagLabel f in
  if String.eqb (usage_of f) "" then left +:+ nl else columns left (usage_of f).

Definition concat_str (l : list string) : string := foldr String.append "" l.

Definition section_of (d : Descriptor) : string :=
  match FlagSpecs d with
  | [] => ""
  | fs => nl +:+ Title d +:+ (if String.eqb (Summary d) "" then "" else " — " +:+ Summary d) +:+ nl +:+ concat_str (writeFlag <$> fs)
  end.

(** The variables, each list of names once. *)
Fixpoint env_lines (seen : list string) (fs : list FlagSpec) : string :=
  match fs with
  | [] => ""
  | f :: fs =>
      match Env f with
      | [] => env_lines seen fs
      | es =>
          let key := Join ", " es in
          if bool_decide (key ∈ seen) then env_lines seen fs
          else columns ("  " +:+ key) (Usage f) +:+ env_lines (key :: seen) fs
      end
  end.
Definition envSection (r : FeatureRegistry) : string := env_lines [] (all_flags r).

Definition Help (r : FeatureRegistry) : string :=
  (if String.eqb (tagline r) "" then "" else name r +:+ " — " +:+ tagline r +:+ nl +:+ nl) +:+
  "Usage:" +:+ nl +:+ "  " +:+ synopsis r +:+ nl +:+
  concat_str (section_of <$> mods r) +:+
  (if String.eqb (envSection r) "" then "" else nl +:+ "Environment:" +:+ nl +:+ envSection r).

Definition man_flag (f : FlagSpec) : string := ".TP" +:+ nl +:+ ".B " +:+ flagLabel f +:+ nl +:+ Usage f +:+ nl.
Definition man_section `{GoUpper} (d : Descriptor) : string :=
  ".SH " +:+ ToUpper (Title d) +:+ nl +:+
  (if String.eqb (Doc d) "" then "" else ".PP" +:+ nl +:+ Doc d +:+ nl) +:+ concat_str (man_flag <$> FlagSpecs d).
Definition Man `{GoUpper} (r : FeatureRegistry) : string :=
  ".TH " +:+ ToUpper (name r) +:+ " 1" +:+ nl +:+ ".SH NAME" +:+ nl +:+ name r +:+ " \- " +:+ tagline r +:+ nl +:+
  ".SH SYNOPSIS" +:+ nl +:+ synopsis r +:+ nl +:+ concat_str (man_section <$> mods r).

(** ** The descriptions of the program's modules *)

Definition flag (names : list string) (placeholder usage : string) : FlagSpec := {|
  Names := names; Placeholder := placeholder; Usage := usage; Default := ""; Env := []; Repeatable := false |}.
Definition with_default (d : string) (f : FlagSpec) : FlagSpec := {|
  Names := Names f; Placeholder := Placeholder f; Usage := Usage f; Default := d; Env := Env f; Repeatable := Repeatable f |}.
Definition with_env (es : list string) (f : FlagSpec) : FlagSpec := {|
  Names := Names f; Placeholder := Placeholder f; Usage := Usage f; Default := Default f; Env := es; Repeatable := Repeatable f |}.
Definition repeatable (f : FlagSpec) : FlagSpec := {|
  Names := Names f; Placeholder := Placeholder f; Usage := Usage f; Default := Default f; Env := Env f; Repeatable := true |}.

Definition keysFeatureDescriptor (schemes : list string) : Descriptor := {|
  dName := "keys"; Title := "Keys"; Summary := "connection server(s)";
  Doc := "One or more share links. The protocol is taken from the link's " +:+
    "scheme — " +:+ Join ", " ((λ s, s +:+ "://") <$> schemes) +:+ " — so there is nothing to select " +:+
    "(a WireGuard config is the one exception: it carries no scheme, so it is " +:+
    "recognised by its [Interface] section instead). " +:+
    "With multiple keys, sing-box builds a urltest group and automatically picks " +:+
    "the fastest available server (input order sets priority); the keys need not " +:+
    "share a protocol." +:+ nl +:+ nl +:+
    "A subscription (--sub) is a panel URL returning a list of such links. " +:+
    "Its servers are owned by the subscription: they are refreshed automatically " +:+
    "and cannot be renamed or deleted individually, because the next refresh " +:+
    "would undo that. Manual keys and subscription servers coexist.";
  FlagSpecs := [
    repeatable (with_env ["SINGCTL_KEY"; "SINGCTL_KEYS"]
      (flag ["k"; "key"] "<vless://... | ss://... | ...>" "share link; repeat for multiple servers (failover)"));
    repeatable (with_env ["SINGCTL_SUB"] (flag ["sub"] "<https://...>" "subscription URL to fetch keys from; repeat for several"));
    flag ["no-save"] "" "do not save the key to ~/.config/singctl"] |}.

Definition proxyFeature : Descriptor := {|
  dName := "proxy"; Title := "Mode and startup"; Summary := "proxy / VPN / ports";
  Doc := "Controls the run mode: local proxy (SOCKS+HTTP) or " +:+
    "system VPN (TUN). There is no interactive terminal UI: --headless " +:+
    "runs in the foreground, --daemon detaches to the background.";
  FlagSpecs := [
    flag ["p"; "proxy"] "" "enable proxy mode at startup";
    flag ["vpn"] "" "enable VPN (TUN) mode at startup";
    with_env ["SINGCTL_PORT"] (with_default "1080/2080" (flag ["port"] "<n>" "local SOCKS port (HTTP listens on port+1)"));
    flag ["headless"] "" "run in the foreground (required to actually run the proxy)";
    flag ["l"; "logs"] "" "stream logs to stdout";
    flag ["verbose"] "" "verbose sing-box logs (level=info; quiet warn by default)";
    flag ["daemon"] "" "run detached in the background and exit (manage via --status/--stop)"] |}.

Definition obsFeature : Descriptor := {|
  dName := "observability"; Title := "Observability"; Summary := "Clash API + server latencies";
  Doc := "The sing-box Clash API (loopback only, random secret) is polled " +:+
    "for live connections (source process, destination, chain) and server " +:+
    "latencies within the failover group.";
  FlagSpecs := [
    with_env ["SINGCTL_CLASH_API"] (with_default "127.0.0.1:9090"
      (flag ["clash-api"] "<host:port>" "Clash API address (connection logs + latencies)"));
    flag ["no-clash-api"] "" "disable the Clash API";
    with_env ["SINGCTL_CLASH_SECRET"] (with_default "random per run" (flag ["clash-secret"] "<s>" "Clash API secret"));
    with_default "gstatic generate_204" (flag ["urltest-url"] "<url>" "URL used to probe servers for failover");
    with_default "3m" (flag ["urltest-interval"] "<d>" "server re-check interval");
    with_default "50" (flag ["urltest-tolerance"] "<ms>" "server switch hysteresis, ms")] |}.

Definition procFeature : Descriptor := {|
  dName := "procproxy"; Title := "Process proxying"; Summary := "by PID / launch / restart";
  Doc := "On Linux — real per-process traffic capture by PID (cgroup v2 + " +:+
    "nftables). On other OSes — launch a command with proxy-env forwarded. " +:+
    "--restart-pid restarts an already-running process in proxy mode.";
  FlagSpecs := [
    repeatable (flag ["route-pid"] "<pid>" "route a process by PID through the proxy (Linux)");
    repeatable (flag ["restart-pid"] "<pid>" "restart a process in proxy mode");
    flag ["launch"] "-- <cmd>" "launch a command through the proxy"] |}.

Definition controlFeature : Descriptor := {|
  dName := "control"; Title := "Instance control"; Summary := "attach / stop / status";
  Doc := "A running instance publishes instance.json and listens on a Unix socket. " +:+
    "These commands work without root: attach to the logs of an instance " +:+
    "already running in another tab, check its status, or stop it.";
  FlagSpecs := [
    flag ["attach"] "" "attach to the running instance's logs (ctrl+c to detach)";
    flag ["stop"] "" "stop the running instance";
    flag ["status"] "" "show the running instance's status"] |}.

Definition rootFeature : Descriptor := {|
  dName := "global"; Title := "Global"; Summary := "version / help / environment"; Doc := "";
  FlagSpecs := [
    flag ["v"; "version"] "" "print version and exit";
    flag ["man"] "" "print the man page and exit";
    flag ["y"; "yes"] "" "skip confirmation for destructive actions (--stop/--restart-pid)";
    flag ["env-file"] "<path>" "load environment variables from a file (default: ./.env)"] |}.

Definition proclistFeature : Descriptor := {|
  dName := "processes"; Title := "Process list"; Summary := "process picker for --route-pid / --restart-pid";
  Doc := "Lists processes with network sockets (PID, local ports, name), " +:+
    "making it easier to find the process to proxy. macOS uses lsof, " +:+
    "Linux uses /proc.";
  FlagSpecs := [] |}.

(** In the order of the help. *)
Definition buildRegistry (schemes : list string) : FeatureRegistry :=
  Add proclistFeature (Add rootFeature (Add controlFeature (Add procFeature (Add obsFeature (Add proxyFeature
    (Add (keysFeatureDescriptor schemes)
      (New "singctl" "Proxy / VPN client on an embedded sing-box core" "sudo singctl [flags]"))))))).

(** ** The help and the command line *)

Lemma length_spaces n : String.length (Repeat " " n) = n.
Proof. induction n as [|n IH]; [done|]. cbn [Repeat]. by rewrite length_app_str, IH. Qed.

(** A usage starts in one column, after at least two spaces or on a line of its
    own. *)
Lemma columns_spec left usage :
  ∃ pre, columns left usage = pre +:+ usage +:+ nl ∧
  ((String.length pre = flagCol ∧ ∃ k, pre = left +:+ Repeat " " (2 + k)) ∨ pre = left +:+ nl +:+ Repeat " " flagCol).
Proof.
  unfold columns. destruct (Nat.ltb_spec flagCol (String.length left + 2)) as [Hl|Hl].
  - exists (left +:+ nl +:+ Repeat " " flagCol). split; [by rewrite !app_assoc_str|by right].
  - exists (left +:+ Repeat " " (flagCol - String.length left)). split; [by rewrite app_assoc_str|]. left.
    rewrite length_app_str, length_spaces. split; [lia|]. exists (flagCol - String.length left - 2)%nat. do 2 f_equal. lia.
Qed.

Lemma usage_column f : usage_of f ≠ "" →
  ∃ pre, writeFlag f = pre +:+ usage_of f +:+ nl ∧
  ((String.length pre = flagCol ∧ ∃ k, pre = "  " +:+ flagLabel f +:+ Repeat " " (2 + k)) ∨
   pre = "  " +:+ flagLabel f +:+ nl +:+ Repeat " " flagCol).
Proof.
  intros Hu. unfold writeFlag. destruct (String.eqb_spec (usage_of f) ""); [done|].
  destruct (columns_spec ("  " +:+ flagLabel f) (usage_of f)) as (pre & -> & Hp). exists pre. split; [done|].
  destruct Hp as [[Hl [k ->]]| ->]; [left|right]; [split; [done|]; exists k|]; by rewrite app_assoc_str.
Qed.

Definition bound_names : list string := fst <$> Options.Bind.
Definition takes_value (n : string) : bool :=
  match lookup_flag Options.Bind n with Some (ValueFlag _) => true | _ => false end.

(** The flags do not depend on the protocols. *)
Lemma all_flags_schemes schemes : all_flags (buildRegistry schemes) = all_flags (buildRegistry []).
Proof. reflexivity. Qed.

Definition names_match : bool :=
  forallb (λ n, bool_decide (n ∈ bound_names)) (all_flags (buildRegistry []) ≫= Names) &&
  forallb (λ n, bool_decide (n ∈ all_flags (buildRegistry []) ≫= Names)) bound_names.
Definition placeholders_match : bool :=
  forallb (λ f, forallb (λ n, String.eqb n "launch" || Bool.eqb (takes_value n) (negb (String.eqb (Placeholder f) ""))) (Names f))
    (all_flags (buildRegistry [])).

Lemma help_names_what_is_bound schemes n : n ∈ FlagNames (buildRegistry schemes) ↔ n ∈ bound_names.
Proof.
  unfold FlagNames. rewrite elem_of_list_to_set, all_flags_schemes.
  assert (names_match = true) as H by (vm_compute; reflexivity). unfold names_match in H.
  apply andb_true_iff in H as [Ha Hb]. rewrite forallb_forall in Ha, Hb. split; intros Hn%list_elem_of_In.
  - apply Ha in Hn. by apply bool_decide_eq_true in Hn.
  - apply Hb in Hn. by apply bool_decide_eq_true in Hn.
Qed.

Lemma placeholders_say_values f n : f ∈ all_flags (buildRegistry []) → n ∈ Names f → n ≠ "launch" →
  takes_value n = true ↔ Placeholder f ≠ "".
Proof.
  intros Hf%list_elem_of_In Hn%list_elem_of_In Hne.
  assert (placeholders_match = true) as H by (vm_compute; reflexivity). unfold placeholders_match in H.
  rewrite forallb_forall in H. specialize (H f Hf). rewrite forallb_forall in H. specialize (H n Hn).
  rewrite (proj2 (String.eqb_neq _ _) Hne) in H. cbn [orb] in H. apply Bool.eqb_prop in H. rewrite H.
  by destruct (String.eqb_spec (Placeholder f) "").
Qed.

Lemma documented_environment_suffices getenv getenv' c :
  (∀ e, e ∈ all_flags (buildRegistry []) ≫= Env → getenv e = getenv' e) → Options.applyEnv getenv c = Options.applyEnv getenv' c.
Proof.
  intros He. unfold Options.applyEnv, Options.keys_applyEnv, Options.proxy_applyEnv, Options.obs_applyEnv.
  assert (∀ e, bool_decide (e ∈ all_flags (buildRegistry []) ≫= Env) = true → getenv e = getenv' e) as Hd
    by (intros e Hb%bool_decide_eq_true; by apply He).
  by rewrite (Hd "SINGCTL_SUB"), (Hd "SINGCTL_KEYS"), (Hd "SINGCTL_KEY"), (Hd "SINGCTL_PORT"), (Hd "SINGCTL_CLASH_SECRET"),
    (Hd "SINGCTL_CLASH_API") by (vm_compute; reflexivity).
Qed.

Lemma concat_str_in x l : x ∈ l → ∃ a b, concat_str l = a +:+ x +:+ b.
Proof.
  induction 1 as [x l|x y l _ (a & b & IH)]; [by exists "", (concat_str l)|].
  exists (y +:+ a), b. cbn [concat_str foldr]. change (foldr String.append "" l) with (concat_str l). by rewrite IH, app_assoc_str.
Qed.

Lemma flag_in_section d f : f ∈ FlagSpecs d → ∃ a b, section_of d = a +:+ writeFlag f +:+ b.
Proof.
  intros Hf. unfold section_of. destruct (FlagSpecs d) as [|g fs] eqn:Hfs; [by apply elem_of_nil in Hf|].
  destruct (concat_str_in (writeFlag f) (writeFlag <$> g :: fs)) as (a & b & ->); [by apply list_elem_of_fmap_2|].
  set (s := if String.eqb (Summary d) "" then _ else _).
  exists (nl +:+ Title d +:+ s +:+ nl +:+ a), b. by rewrite !app_assoc_str.
Qed.

Lemma flag_in_help r f : f ∈ all_flags r → ∃ a b, Help r = a +:+ writeFlag f +:+ b.
Proof.
  unfold all_flags. rewrite list_elem_of_bind. intros (d & Hf & Hd).
  destruct (flag_in_section d f Hf) as (a & b & Hs).
  destruct (concat_str_in (section_of d) (section_of <$> mods r)) as (a' & b' & Hc); [by apply list_elem_of_fmap_2|].
  unfold Help. rewrite Hc, Hs. set (head := if String.eqb (tagline r) "" then _ else _). set (env := if String.eqb _ "" then _ else _).
  exists (head +:+ "Usage:" +:+ nl +:+ "  " +:+ synopsis r +:+ nl +:+ a' +:+ a), (b +:+ b' +:+ env).
  by rewrite !app_assoc_str.
Qed.

(** The help is the command line.  Whatever protocols the registry has, the
    flags it describes are exactly those the parser knows; a flag is shown with
    a placeholder exactly when it takes a value, the command of [--launch]
    apart; no environment variable but those shown has an influence; and the
    help has a line for every flag, with its usage in the twenty-ninth column,
    behind two spaces or on a line of its own. *)
Theorem help_is_the_command_line schemes :
  let r := buildRegistry schemes in
  (∀ n, n ∈ FlagNames r ↔ n ∈ fst <$> Options.Bind) ∧
  (∀ f n, f ∈ all_flags r → n ∈ Names f → n ≠ "launch" → takes_value n = true ↔ Placeholder f ≠ "") ∧
  (∀ getenv getenv' c, (∀ e, e ∈ all_flags r ≫= Env → getenv e = getenv' e) →
     Options.applyEnv getenv c = Options.applyEnv getenv' c) ∧
  ∀ f, f ∈ all_flags r → ∃ a pre b, Help r = a +:+ pre +:+ usage_of f +:+ nl +:+ b ∧
    ((String.length pre = flagCol ∧ ∃ k, pre = "  " +:+ flagLabel f +:+ Repeat " " (2 + k)) ∨
     pre = "  " +:+ flagLabel f +:+ nl +:+ Repeat " " flagCol).
Proof.
  intros r. split; [apply help_names_what_is_bound|]. unfold r. rewrite all_flags_schemes.
  split; [intros f n; apply placeholders_say_values|]. split; [intros getenv getenv' c; apply documented_environment_suffices|].
  intros f Hf. assert (usage_of f ≠ "") as Hu.
  { assert (forallb (λ f, negb (String.eqb (usage_of f) "")) (all_flags (buildRegistry [])) = true) as Hall by (vm_compute; reflexivity).
    rewrite forallb_forall in Hall. specialize (Hall f (proj1 (list_elem_of_In _ _) Hf)). by destruct (String.eqb_spec (usage_of f) ""). }
  rewrite <- (all_flags_schemes schemes) in Hf. destruct (flag_in_help _ f Hf) as (a & b & ->).
  destruct (usage_column f Hu) as (pre & -> & Hp). exists a, pre, b. split; [by rewrite !app_assoc_str|done].
Qed.

End Feature.
