(* ===== verification/Commands.v ===== *)
(** * Commands: what a running daemon answers
    ([registerControl] of [cmd/singctl/main.go])

    The daemon is the composition of the executor's parts: the keys and the
    manager (Executor, Settings), the applications (Apps), the system proxy
    (SysApi), the console (Console) and the cache of the extension's state
    (Netext).  Every command of the control socket is a handler on that state,
    and [registerControl] gives them to the server of Control.  What a handler
    reads of the world while it runs (the time, random bytes, the answers of
    the Clash API) is a record of inputs; the texts of errors, which the
    components keep as data, are an argument. *)

From S2P Require Import Prelude GoStr GoUtf8 GoNet GoUrl GoPath Policy Monitor Runtime Registry Schema Singbox Link GoJson GoJsonData GoBase64 Sub Proclist Executor ExecutorInv Store AppStore Netext Procproxy Apps Console ClashApi Settings Control SysConfig SysPac SysManager SysApi.
Import Json Data Store.

Local Open Scope string_scope.
Local Open Scope list_scope.

Module Commands.

(** ** Payloads *)

Definition enc_settings (s : Settings.Settings) : json := JObj [
  ("SocksPort", enc_int (Settings.SocksPort s)); ("ClashEnabled", JBool (Settings.ClashEnabled s));
  ("ClashAddr", enc_string (Settings.ClashAddr s)); ("URLTestURL", enc_string (Settings.URLTestURL s));
  ("URLTestInterval", enc_string (Settings.URLTestInterval s)); ("URLTestTolerance", enc_int (Settings.URLTestTolerance s));
  ("SaveProfile", JBool (Settings.SaveProfile s)); ("AutostartMode", enc_string (Settings.AutostartMode s))].

Definition mk_settings (p : Z) (c : bool) (a u i : string) (t : Z) (s : bool) (m : string) : Settings.Settings := {|
  Settings.SocksPort := p; Settings.ClashEnabled := c; Settings.ClashAddr := a; Settings.URLTestURL := u;
  Settings.URLTestInterval := i; Settings.URLTestTolerance := t; Settings.SaveProfile := s; Settings.AutostartMode := m |}.
Definition no_settings : Settings.Settings := mk_settings 0 false "" "" "" 0 false "".

(** The names of fields are matched whatever their case. *)
Definition settings_fields : Fields Settings.Settings :=
  let upd (f : Z → bool → string → string → string → Z → bool → string → Settings.Settings) (s : Settings.Settings) :=
    f (Settings.SocksPort s) (Settings.ClashEnabled s) (Settings.ClashAddr s) (Settings.URLTestURL s)
      (Settings.URLTestInterval s) (Settings.URLTestTolerance s) (Settings.SaveProfile s) (Settings.AutostartMode s) in [
  field "socksport" Settings.SocksPort (λ v, upd (λ _ c a u i t s m, mk_settings v c a u i t s m)) dec_int;
  field "clashenabled" Settings.ClashEnabled (λ v, upd (λ p _ a u i t s m, mk_settings p v a u i t s m)) dec_bool;
  field "clashaddr" Settings.ClashAddr (λ v, upd (λ p c _ u i t s m, mk_settings p c v u i t s m)) dec_string;
  field "urltesturl" Settings.URLTestURL (λ v, upd (λ p c a _ i t s m, mk_settings p c a v i t s m)) dec_string;
  field "urltestinterval" Settings.URLTestInterval (λ v, upd (λ p c a u _ t s m, mk_settings p c a u v t s m)) dec_string;
  field "urltesttolerance" Settings.URLTestTolerance (λ v, upd (λ p c a u i _ s m, mk_settings p c a u i v s m)) dec_int;
  field "saveprofile" Settings.SaveProfile (λ v, upd (λ p c a u i t _ m, mk_settings p c a u i t v m)) dec_bool;
  field "autostartmode" Settings.AutostartMode (λ v, upd (λ p c a u i t s _, mk_settings p c a u i t s v)) dec_string].

Definition enc_console (e : Console.ConsoleEntry) : json := JObj [
  ("id", enc_int (Console.ID e)); ("pid", enc_int (Console.PID e)); ("app", enc_string (Console.App e));
  ("stream", enc_string (Console.Stream e)); ("text", enc_string (Console.Text e))].

(** [notify.ProcInfo] of a process, as ListProcesses makes it. *)
Definition enc_process (p : Proclist.App) : json := JObj [
  ("PID", enc_int (Proclist.aPID p)); ("Name", enc_string (Proclist.aName p));
  ("Ports", enc_string (Proclist.portsString (Proclist.aPorts p))); ("Children", enc_int (Z.of_nat (Proclist.Children p)))].

Definition enc_application (a : Apps.Application) : json := JObj [
  ("name", enc_string (Apps.a_name a)); ("bundleID", enc_string (Apps.a_bundleID a));
  ("running", JBool (Apps.a_running a)); ("pids", JArr (enc_int <$> Apps.a_pids a))].

Definition enc_sysproxy (s : SysManager.Status) : json := JObj (
  [("mode", enc_string (SysManager.sMode s)); ("service", enc_string (SysManager.sService s))] ++
  omit_empty "pac_url" (SysManager.PACURL s) ++
  [("pac_server_up", JBool (SysManager.PACServerUp s)); ("domain_count", enc_int (Z.of_nat (SysManager.DomainCount s)))]).

Definition state_text (s : ClashApi.State) : string :=
  match s with
  | ClashApi.StateNoMode => "no_mode" | ClashApi.StateAPIDisabled => "api_disabled"
  | ClashApi.StateAPIUnreachable => "api_unreachable" | ClashApi.StateIdle => "idle" | ClashApi.StateActive => "active"
  end.

Definition enc_row `{GoTime} (r : ClashApi.Row) : option json :=
  start ← time_text (ClashApi.r_start r);
  Some (JObj ([("id", enc_string (ClashApi.r_id r)); ("app", enc_string (ClashApi.App r))] ++
    omit_empty "process" (ClashApi.r_process r) ++ [("host", enc_string (ClashApi.r_host r))] ++
    omit_empty "port" (ClashApi.Port r) ++ omit_empty "network" (ClashApi.r_network r) ++ omit_empty "rule" (ClashApi.r_rule r) ++
    (if bool_decide (ClashApi.Chain r = []) then [] else [("chain", JArr (enc_string <$> ClashApi.Chain r))]) ++
    [("upload", enc_int (ClashApi.r_up r)); ("download", enc_int (ClashApi.r_down r)); ("start", JStr start)])).

Definition enc_total (name : string) (t : ClashApi.Total) : json := JObj [
  (name, enc_string (ClashApi.t_name t)); ("upload", enc_int (ClashApi.t_up t)); ("download", enc_int (ClashApi.t_down t));
  ("count", enc_int (ClashApi.Count t))].

(** A list that was made, and one that is nil. *)
Definition enc_list (made : bool) (vs : list json) : json := if made then JArr vs else JNull.

(** The rows are made unless the table was not read, the totals when there are
    rows. *)
Definition enc_payload `{GoTime} (api_text : ClashApi.ApiError → string) (p : ClashApi.Payload) : option json :=
  rows ← mapM enc_row (ClashApi.Rows p);
  let active := match ClashApi.pl_state p with ClashApi.StateActive => true | _ => false end in
  let answered := match ClashApi.pl_state p with ClashApi.StateIdle => true | _ => active end in
  Some (JObj ([("state", enc_string (state_text (ClashApi.pl_state p))); ("rows", enc_list answered rows);
    ("apps", enc_list active (enc_total "app" <$> ClashApi.Apps p)); ("dests", enc_list active (enc_total "host" <$> ClashApi.Dests p))] ++
    omit_empty "detail" (match ClashApi.Detail p with Some (base, e) => base +:+ ": " +:+ api_text e | None => "" end))).

(** The request of APP-SET-ENABLED. *)
Record SetEnabled := { se_id : string; se_on : bool }.
Definition set_enabled_fields : Fields SetEnabled := [
  field "bundleid" se_id (λ v r, {| se_id := v; se_on := se_on r |}) dec_string;
  field "enabled" se_on (λ v r, {| se_id := se_id r; se_on := v |}) dec_bool].

(** ** Arguments *)

(** [strconv.Atoi] with its error ignored: the nearest number when there are
    too many digits, and zero for what is no number. *)
Definition Atoi_value (s : string) : Z :=
  let clamp z := Z.max int64_min (Z.min int64_max z) in
  let digits (t : string) (f : Z → Z) := match parse_digits t with Some n => clamp (f (Z.of_N n)) | None => 0%Z end in
  match s with
  | String c t => if Ascii.eqb c "-" then digits t Z.opp else if Ascii.eqb c "+" then digits t id else digits s id
  | "" => 0%Z
  end.

Example atoi_value_ex :
  Atoi_value <$> ["12"; "-3"; "+4"; "x"; ""; "99999999999999999999"; "-99999999999999999999"; "9z"] =
  [12; -3; 4; 0; 0; int64_max; int64_min; 0]%Z.
Proof. reflexivity. Qed.

(** ** The daemon *)

#[local] Existing Instance Executor.coexistState_eq_dec.

(** [settings] joins the parts that the settings commands use; the builder
    that Settings keeps beside the manager is not tracked here. *)
Record Daemon (R W V : Type) := {
  tun : Settings.Tunables; exec : Executor.Executor; apps : Apps.State R; sysp : SysApi.State V;
  ring : Console.Ring; avail : Netext.Avail; world : W; stopping : bool }.
Arguments tun {R W V} d.
Arguments exec {R W V} d.
Arguments apps {R W V} d.
Arguments sysp {R W V} d.
Arguments ring {R W V} d.
Arguments avail {R W V} d.
Arguments world {R W V} d.
Arguments stopping {R W V} d.

Inductive CmdError {E : Type} :=
  | BadMode (arg : string) | BadSettings | BadBase64 | BadIndex (arg : string) | BadPid (arg : string) | BadArgv | BadApp | BadRule
  | BadTime
  | ErrSettings (e : Settings.error)
  | ErrSys (e : SysApi.SysErr) | ErrImport (e : SysConfig.import_error (E:=E)) | ErrReclaim (e : SysManager.ReclaimErr)
  | ErrApps (e : Apps.AppError).
Arguments CmdError : clear implicits.

(** What does not change while the process runs: whether there are savers for
    the keys and the subscriptions and a screen, the number and the start of
    the process, whether this is macOS, the home directory, and the system as
    the routers and the system proxy see it. *)
Record Process (V : Type) := {
  save : bool; saveSubs : bool; notes : bool; pid : Z; startedAt : string; supported : bool; home : option string;
  host : Procproxy.Host; diag : option (SysManager.PortDiagnostics V) }.
Arguments save {V} p.
Arguments saveSubs {V} p.
Arguments notes {V} p.
Arguments pid {V} p.
Arguments startedAt {V} p.
Arguments supported {V} p.
Arguments home {V} p.
Arguments host {V} p.
Arguments diag {V} p.

(** What a handler is answered while it runs. *)
Record Inputs (E : Type) := {
  now : Z; later : Z; random : option string; newID : string; env : Runtime.Env;
  fetcher : option (Z → string → result string (list string * Sub.Meta));
  saveAutostart : option (string → option string); saveFirewall : option (list Firewall.Rule → option string);
  saveSysproxy : option (string → option string); do_ : ClashApi.Exchange;
  enrich : list ClashApi.Connection → list ClashApi.Connection; reads : Proclist.App → Apps.Reads;
  order : list AppStore.ProxiedApp → list AppStore.ProxiedApp; grow : nat → nat; ptail : list string; dtail : list string;
  unmarshal : string → result E SysConfig.yamlConfig }.
Arguments now {E} i.
Arguments later {E} i.
Arguments random {E} i.
Arguments newID {E} i.
Arguments env {E} i.
Arguments fetcher {E} i.
Arguments saveAutostart {E} i.
Arguments saveFirewall {E} i.
Arguments saveSysproxy {E} i.
Arguments do_ {E} i.
Arguments enrich {E} i.
Arguments reads {E} i.
Arguments order {E} i.
Arguments grow {E} i.
Arguments ptail {E} i.
Arguments dtail {E} i.
Arguments unmarshal {E} i.

Section daemon.
Context {R W V P E : Type} `{Router R W} `{FS W} `{Apps.ProcTable W} `{SysManager.NetworkSetup V} `{SysManager.Sockets V}.
Context `{GoUnicode, GoFold, GoQuote, SysPac.GoText, GoTime, Control.GoUpper}.
Context (reg : Registry.Registry_ P) (proc_ : Process V) (api_text : ClashApi.ApiError → string) (error_text : CmdError E → string).

Abbreviation Daemon := (Daemon R W V).
Abbreviation Inputs := (Inputs E).
Abbreviation CmdError := (CmdError E).
Implicit Types (d : Daemon) (i : Inputs) (arg : string).

Definition with_exec x d : Daemon := {|
  tun := tun d; exec := x; apps := apps d; sysp := sysp d; ring := ring d; avail := avail d; world := world d; stopping := stopping d |}.
Definition with_apps a w d : Daemon := {|
  tun := tun d; exec := exec d; apps := a; sysp := sysp d; ring := ring d; avail := avail d; world := w; stopping := stopping d |}.
Definition with_sysp s d : Daemon := {|
  tun := tun d; exec := exec d; apps := apps d; sysp := s; ring := ring d; avail := avail d; world := world d; stopping := stopping d |}.
Definition with_ring r d : Daemon := {|
  tun := tun d; exec := exec d; apps := apps d; sysp := sysp d; ring := r; avail := avail d; world := world d; stopping := stopping d |}.
Definition with_avail a d : Daemon := {|
  tun := tun d; exec := exec d; apps := apps d; sysp := sysp d; ring := ring d; avail := a; world := world d; stopping := stopping d |}.
Definition stopped d : Daemon := {|
  tun := tun d; exec := exec d; apps := apps d; sysp := sysp d; ring := ring d; avail := avail d; world := world d; stopping := true |}.

Definition settings d : Settings.State R P := {| Settings.tun := tun d; Settings.exec := exec d; Settings.apps := apps d; Settings.built := None |}.
Definition with_settings (s : Settings.State R P) d : Daemon := {|
  tun := Settings.tun s; exec := Settings.exec s; apps := Settings.apps s; sysp := sysp d; ring := ring d; avail := avail d;
  world := world d; stopping := stopping d |}.

Definition clash d : bool := negb (String.eqb (Settings.clashAddr (tun d)) "").

(** ** Handlers *)

Definition Handler : Type := Inputs → string → Daemon → result CmdError string * Daemon.

Definition OK (e : option CmdError) : result CmdError string := match e with None => Ok "OK" | Some e => Err e end.
Definition replied {A} (f : A → string) (r : result CmdError A) : result CmdError string :=
  match r with Ok a => Ok (f a) | Err e => Err e end.
Definition of_exec {A} (r : result Executor.error A) : result CmdError A :=
  match r with Ok a => Ok a | Err e => Err (ErrSettings (Settings.ErrExec e)) end.
Definition of_settings {A} (r : result Settings.error A) : result CmdError A :=
  match r with Ok a => Ok a | Err e => Err (ErrSettings e) end.
Definition of_apps {A} (r : result Apps.AppError A) : result CmdError A :=
  match r with Ok a => Ok a | Err e => Err (ErrApps e) end.

(** A call of the executor's part, and of the applications' part, which are
    told whether the proxy runs. *)
Definition exec_call {A} (m : Executor.M A) d : A * Daemon := let '(r, x) := m (exec d) in (r, with_exec x d).
Definition exec_ok (m : Executor.M (option Executor.error)) d : result CmdError string * Daemon :=
  let '(r, d) := exec_call m d in (OK (ErrSettings ∘ Settings.ErrExec <$> r), d).

Definition with_running (b : bool) (s : Apps.State R) : Apps.State R := {|
  Apps.running := b; Apps.socks := Apps.socks s; Apps.http := Apps.http s; Apps.launchUser := Apps.launchUser s;
  Apps.store := Apps.store s; Apps.router := Apps.router s; Apps.ctrl := Apps.ctrl s; Apps.appCache := Apps.appCache s |}.

Definition app_call {A} (f : Apps.State R → W → A * Apps.State R * W) d : A * Daemon :=
  let '(r, a, w) := f (with_running (Executor.proxyRunning (exec d)) (apps d)) (world d) in (r, with_apps a w d).
Definition app_ok (f : Apps.State R → W → option Apps.AppError * Apps.State R * W) d : result CmdError string * Daemon :=
  let '(r, d) := app_call f d in (OK (ErrApps <$> r), d).
Definition app_number (f : Apps.State R → W → result Apps.AppError Z * Apps.State R * W) d : result CmdError string * Daemon :=
  let '(r, d) := app_call f d in (replied Itoa (of_apps r), d).

Definition status : Handler := λ _ _ d,
  (Ok (Marshal (Control.enc_status {|
    Control.st_PID := pid proc_; Control.st_Mode := Executor.StateLabel (exec d); Control.st_StartedAt := startedAt proc_;
    Control.CiscoActive := Executor.lastCisco (exec d); Control.ProxyBypass := bool_decide (Executor.coexist (exec d) = Executor.coexistBypass);
    Control.PhysIface := Executor.lastPhys (exec d); Control.NetextSupported := supported proc_;
    Control.NetextAvailable := Netext.Cached (avail d) |})), d).

Definition stop : Handler := λ _ _ d, (Ok "OK", stopped d).

Definition mode : Handler := λ i arg d,
  let m := ToLower (TrimSpace arg) in
  if String.eqb m "off" then exec_ok (Executor.Stop (env i)) d
  else if String.eqb m "proxy" then exec_ok (Executor.EnableProxy (env i) (clash d)) d
  else if String.eqb m "vpn" then exec_ok (Executor.EnableVPN (env i) (clash d)) d
  else (Err (BadMode arg), d).

Definition settings_get : Handler := λ _ _ d, (Ok (Marshal (enc_settings (Settings.CurrentSettings (save proc_) (settings d)))), d).

Definition settings_set : Handler := λ i arg d,
  match Unmarshal no_settings (dec_struct settings_fields) arg with
  | None => (Err BadSettings, d)
  | Some s =>
      let '(r, s) := Settings.ApplySettings reg (env i) (save proc_) (saveAutostart i) (random i) s (settings d) in
      (OK (ErrSettings <$> r), with_settings s d)
  end.

Definition keys_get : Handler := λ _ _ d, (Ok (Join nl (Executor.links (exec d))), d).

Definition add_key i (raw : string) d : result CmdError string * Daemon := exec_ok (Executor.AddLink reg (env i) (save proc_) (clash d) raw) d.
Definition keys_add : Handler := add_key.
Definition keys_add_config : Handler := λ i arg d,
  match Base64.DecodeString Base64.StdEncoding (TrimSpace arg) with
  | None => (Err BadBase64, d)
  | Some data => add_key i data d
  end.

Definition keys_remove : Handler := λ i arg d,
  match Atoi (TrimSpace arg) with
  | None => (Err (BadIndex arg), d)
  | Some idx => exec_ok (Executor.DeleteLink reg (env i) (save proc_) (clash d) idx) d
  end.

Definition keys_rename : Handler := λ i arg d,
  let line := TrimSpace arg in
  let '(idxStr, name) := match Cut line " " with Some p => p | None => (line, "") end in
  match Atoi idxStr with
  | None => (Err (BadIndex idxStr), d)
  | Some idx => exec_ok (Executor.RenameLink reg (env i) (save proc_) (clash d) idx name) d
  end.

Definition sub_list : Handler := λ _ _ d,
  (match mapM enc_subscription (Executor.subs (exec d)) with Some vs => Ok (Marshal (JArr vs)) | None => Err BadTime end, d).
Definition sub_add : Handler := λ i arg d,
  exec_ok (Executor.AddSubscription reg (env i) (save proc_) (saveSubs proc_) (clash d) (fetcher i) (now i) arg) d.
Definition sub_remove : Handler := λ i arg d,
  exec_ok (Executor.RemoveSubscription reg (env i) (save proc_) (saveSubs proc_) (clash d) arg) d.
Definition sub_update : Handler := λ i _ d,
  let '((changed, r), d) := exec_call (Executor.RefreshSubscriptions reg (env i) (save proc_) (saveSubs proc_) (clash d) (fetcher i) (now i)) d in
  (match r with
   | Some e => if (changed =? 0)%nat then Err (ErrSettings (Settings.ErrExec e)) else Ok (Itoa (Z.of_nat changed))
   | None => Ok (Itoa (Z.of_nat changed))
   end, d).

Definition proxy_group : Handler := λ i _ d,
  (replied (Marshal ∘ Selection.enc_group) (of_settings (Selection.ProxyGroup_ reg (do_ i) (settings d))), d).
Definition proxy_select : Handler := λ i arg d,
  (OK (ErrSettings <$> Selection.SelectProxy (do_ i) (TrimSpace arg) (settings d)), d).

(** *** The system proxy *)

Definition sysproxy_status : Handler := λ _ _ d, (Ok (Marshal (enc_sysproxy (SysManager.Manager_Status (SysApi.mgr (sysp d))))), d).
Definition sysproxy_set : Handler := λ i arg d,
  let '(r, s) := SysApi.sysproxy_set (diag proc_) (saveSysproxy i) (grow i) (ptail i) (dtail i) arg (sysp d) in
  (OK (ErrSys <$> r), with_sysp s d).
Definition sysproxy_config : Handler := λ _ _ d, (Ok (SysConfig.INI (SysManager.m_cfg (SysManager.proc (SysApi.mgr (sysp d))))), d).
Definition sysproxy_import : Handler := λ i arg d,
  let '(e1, e2, s) := SysApi.sysproxy_import (diag proc_) (saveSysproxy i) (unmarshal i) arg (sysp d) in
  (match e1 with Some e => Err (ErrImport e) | None => OK (ErrSys <$> e2) end, with_sysp s d).
Definition sysproxy_reclaim : Handler := λ _ _ d,
  let '(r, m) := SysManager.ReclaimPort (diag proc_) (SysApi.mgr (sysp d)) in
  (OK (ErrReclaim <$> r), with_sysp {| SysApi.mgr := m; SysApi.saved := SysApi.saved (sysp d) |} d).

(** *** The console and the traffic *)

Definition console_poll : Handler := λ _ arg d,
  (Ok (Marshal (JArr (enc_console <$> Console.ConsoleSince (Atoi_value (TrimSpace arg)) (ring d)))), d).
Definition traffic : Handler := λ i _ d,
  (replied (λ t, Marshal (Control.enc_traffic {| Control.Up := fst t; Control.Down := snd t |}))
     (of_settings (Selection.TrafficSnapshot (do_ i) (settings d))), d).

(** *** Processes and applications *)

Definition parsePID arg : result CmdError Z := match Atoi (TrimSpace arg) with Some n => Ok n | None => Err (BadPid arg) end.

Definition proc_list : Handler := λ _ _ d,
  (match Apps.listProcRows (world d) with
   | Ok rows => Ok (Marshal (JArr (enc_process <$> rows))) | Err e => Err (ErrApps (Apps.ErrProcList e)) end, d).
(** Without a router the list is nil. *)
Definition proc_list_routed : Handler := λ _ _ d,
  (Ok (Marshal (enc_list (bool_decide (is_Some (Apps.router (apps d)))) (enc_int <$> Apps.ListRouted (W:=W) (apps d)))), d).

Definition with_pid (f : Z → Daemon → result CmdError string * Daemon) : Handler := λ _ arg d,
  match parsePID arg with Ok n => f n d | Err e => (Err e, d) end.
Definition proc_route : Handler := with_pid (λ n, app_ok (Apps.RoutePID n)).
Definition proc_unroute : Handler := with_pid (λ n, app_ok (Apps.UnroutePID n)).
Definition proc_kill : Handler := with_pid (λ n, app_ok (Apps.StopProxied n)).
Definition proc_restart : Handler := with_pid (λ n, app_number (Apps.RestartProxied n)).
Definition proc_launch : Handler := λ _ arg d,
  match Unmarshal [] (dec_list "" dec_string) arg with
  | None => (Err BadArgv, d)
  | Some argv => app_number (Apps.LaunchProxied argv) d
  end.

Definition app_list : Handler := λ i _ d,
  let '(r, a) := Apps.ListApplications (now i) (later i) (reads i) (apps d) (world d) in
  (replied (λ l, Marshal (JArr (enc_application <$> l))) (of_apps r), with_apps a (world d) d).
Definition app_list_routed : Handler := λ _ _ d,
  (Ok (Marshal (enc_list (bool_decide (is_Some (Apps.router (apps d)))) (enc_string <$> Apps.ListRoutedApps (W:=W) (apps d)))), d).

(** The commands that change what is captured ask the extension's state anew. *)
Definition refreshed (f : Daemon → result CmdError string * Daemon) d := f (with_avail (Netext.Invalidate (avail d)) d).
Definition app_route : Handler := λ _ arg, refreshed (app_ok (Apps.RouteApp (home proc_) (TrimSpace arg))).
Definition app_unroute : Handler := λ _ arg, refreshed (app_ok (Apps.UnrouteApp (TrimSpace arg))).
Definition app_list_proxied : Handler := λ i _ d,
  (replied (λ l, Marshal (JArr (AppStore.enc_app <$> l)))
     (of_apps (Apps.ListProxiedApps (order i (AppStore.values (AppStore.entries (Apps.store (apps d))))) (world d))), d).
Definition app_launch : Handler := λ _ arg, refreshed (app_number (λ s w,
  let '(n, e, s, w) := Apps.LaunchProxiedApp (home proc_) (host proc_) arg s w in
  (match e with Some e => Err e | None => Ok n end, s, w))).
Definition app_set_enabled : Handler := λ _ arg, refreshed (λ d,
  match Unmarshal {| se_id := ""; se_on := false |} (dec_struct set_enabled_fields) arg with
  | None => (Err BadApp, d)
  | Some r => app_ok (Apps.SetProxiedAppEnabled (home proc_) (se_id r) (se_on r)) d
  end).
Definition app_remove : Handler := λ _ arg, refreshed (app_ok (Apps.RemoveProxiedApp (home proc_) (TrimSpace arg))).

(** *** Connections and the firewall *)

Definition connections : Handler := λ i _ d,
  (match enc_payload api_text (Selection.Connections (do_ i) (enrich i) (settings d)) with
   | Some v => Ok (Marshal v) | None => Err BadTime end, d).
Definition connection_close : Handler := λ i arg d,
  (OK (ErrSettings <$> Selection.CloseConnection (do_ i) (TrimSpace arg) (settings d)), d).

Definition firewall_list : Handler := λ _ _ d, (Ok (Marshal (JArr (enc_rule <$> Executor.fwRules (exec d)))), d).
Definition firewall_add : Handler := λ i arg d,
  match Unmarshal no_rule dec_rule arg with
  | None => (Err BadRule, d)
  | Some rule =>
      let '(r, d) := exec_call (Executor.FirewallAdd reg (env i) (save proc_) (clash d) (saveFirewall i) (newID i) rule) d in
      (replied (Marshal ∘ enc_rule) (of_exec r), d)
  end.
Definition firewall_remove : Handler := λ i arg d,
  exec_ok (Executor.FirewallRemove reg (env i) (save proc_) (clash d) (saveFirewall i) (TrimSpace arg)) d.

(** ** The registry *)

Definition handlers : list (string * Handler) := [
  ("STATUS", status); ("STOP", stop); ("MODE", mode); ("SETTINGS-GET", settings_get); ("SETTINGS-SET", settings_set);
  ("KEYS-GET", keys_get); ("KEYS-ADD", keys_add); ("KEYS-ADD-CONFIG", keys_add_config); ("KEYS-REMOVE", keys_remove);
  ("KEYS-RENAME", keys_rename); ("SUB-LIST", sub_list); ("SUB-ADD", sub_add); ("SUB-REMOVE", sub_remove);
  ("PROXY-GROUP", proxy_group); ("PROXY-SELECT", proxy_select); ("SYSPROXY-STATUS", sysproxy_status);
  ("SYSPROXY-SET", sysproxy_set); ("SYSPROXY-CONFIG", sysproxy_config); ("SYSPROXY-IMPORT", sysproxy_import);
  ("SYSPROXY-RECLAIM-PORT", sysproxy_reclaim); ("SUB-UPDATE", sub_update); ("CONSOLE-POLL", console_poll);
  ("TRAFFIC", traffic); ("PROC-LIST", proc_list); ("PROC-LIST-ROUTED", proc_list_routed); ("PROC-ROUTE", proc_route);
  ("PROC-UNROUTE", proc_unroute); ("PROC-KILL", proc_kill); ("PROC-RESTART", proc_restart); ("PROC-LAUNCH", proc_launch);
  ("APP-LIST", app_list); ("APP-LIST-ROUTED", app_list_routed); ("APP-ROUTE", app_route); ("APP-UNROUTE", app_unroute);
  ("APP-LIST-PROXIED", app_list_proxied); ("APP-LAUNCH", app_launch); ("APP-SET-ENABLED", app_set_enabled);
  ("APP-REMOVE", app_remove); ("CONNECTIONS", connections); ("CONNECTION-CLOSE", connection_close);
  ("FIREWALL-LIST", firewall_list); ("FIREWALL-ADD", firewall_add); ("FIREWALL-REMOVE", firewall_remove)].

Lemma handlers_named : Forall (λ nh, Control.command_name (fst nh)) handlers ∧ NoDup (fst <$> handlers).
Proof. split; apply (bool_decide_unpack _); vm_compute; reflexivity. Qed.

(** A handler with its inputs, and its error as text. *)
Definition handler i (h : Handler) : Control.HandlerFunc Daemon := λ arg d,
  let '(r, d) := h i arg d in (match r with Ok s => Ok s | Err e => Err (error_text e) end, d).

Definition registerControl i : Control.Server Daemon :=
  Control.handle_all ((λ nh, (fst nh, handler i (snd nh))) <$> handlers).

(** ** The life of a daemon: lines of clients, events of the monitor, lines of
    the children it launched.  Each is one step, from the state it finds to the
    state it leaves: a client's line is served to its end before the next thing
    happens.  The server gives every connection a goroutine of its own, so
    lines of different connections can overlap, which a sequence of these
    steps does not show; what overlapping transitions of the manager and
    saves of the applications do is in [RuntimeConc] and [AppStore]. *)
Inductive Event := Line (i : Inputs) (input : string) | Observed (e : Runtime.Env) (ev : Monitor.Event) | Output (l : Console.OutputLine).

Definition step d (ev : Event) : Daemon :=
  match ev with
  | Line i input => snd (Control.serve (registerControl i) input d)
  | Observed e ev => with_exec (snd (Executor.Apply e (notes proc_) ev (exec d))) d
  | Output l => with_ring (Console.appendConsole l (ring d)) d
  end.

Definition run (evs : list Event) d : Daemon := foldl step d evs.
End daemon.

(** ** What every daemon keeps *)

Section facts.
Context {R W V P E : Type} `{RouterLaws R W} `{FSLaws W} `{Apps.ProcTable W}.
Context `{SysManager.SocketsLaws V, !SysManager.NetworkSetupLaws V}.
Context `{GoUnicode, GoFold, GoQuote, SysPac.GoText, GoTime, Control.GoUpper}.
Context (reg : Registry.Registry_ P) (proc_ : Process V) (api_text : ClashApi.ApiError → string) (error_text : CmdError E → string).
Implicit Types (d : Daemon R W V).

(** The invariants of the parts: the executor's, its stored sources, the books
    of the applications, at most one listener for the script, and a ring that
    holds the last lines. *)
Definition daemon_ok d : Prop :=
  (inv (exec d) ∧ stored_ok (exec d)) ∧ Apps.state_ok (apps d) ∧
  SysManager.server_ok (SysManager.proc (SysApi.mgr (sysp d))) ∧ ∃ all, Console.holds all (ring d).

Definition keeps (h : Handler (R:=R) (W:=W) (V:=V) (E:=E)) : Prop := ∀ i arg d, daemon_ok d → daemon_ok (snd (h i arg d)).

Lemma exec_keeps {A} (m : Executor.M A) d : pres inv m → pres stored_ok m → daemon_ok d → daemon_ok (snd (exec_call m d)).
Proof.
  intros Hi Hs [[Hd1 Hd2] Hd]. unfold exec_call. pose proof (Hi _ Hd1) as H1'. pose proof (Hs _ Hd2) as H2'.
  destruct (m (exec d)) as [r x]. by split.
Qed.

Lemma exec_ok_keeps (m : Executor.M (option Executor.error)) d :
  pres inv m → pres stored_ok m → daemon_ok d → daemon_ok (snd (exec_ok (E:=E) m d)).
Proof. intros Hi Hs Hd. pose proof (exec_keeps m d Hi Hs Hd) as Hk. unfold exec_ok. by destruct (exec_call m d). Qed.

Lemma apps_keep a w d : Apps.state_ok a → daemon_ok d → daemon_ok (with_apps a w d).
Proof. intros Ha (Hx & _ & Hs & Hr). split; [exact Hx|]. split; [exact Ha|]. by split. Qed.

Lemma app_keeps {A} (f : Apps.State R → W → A * Apps.State R * W) d :
  (∀ s w, Apps.state_ok s → Apps.state_ok (snd (fst (f s w)))) → daemon_ok d → daemon_ok (snd (app_call f d)).
Proof.
  intros Hf Hd. unfold app_call. set (a := with_running _ (apps d)).
  pose proof (Hf a (world d) (proj1 (proj2 Hd))) as Ha. destruct (f a (world d)) as [[r a'] w]. by apply apps_keep.
Qed.

Lemma app_ok_keeps f d : (∀ s w, Apps.state_ok s → Apps.state_ok (snd (fst (f s w)))) → daemon_ok d → daemon_ok (snd (app_ok (E:=E) f d)).
Proof. intros Hf Hd. pose proof (app_keeps f d Hf Hd) as Hk. unfold app_ok. by destruct (app_call f d). Qed.
Lemma app_number_keeps f d : (∀ s w, Apps.state_ok s → Apps.state_ok (snd (fst (f s w)))) → daemon_ok d → daemon_ok (snd (app_number (E:=E) f d)).
Proof. intros Hf Hd. pose proof (app_keeps f d Hf Hd) as Hk. unfold app_number. by destruct (app_call f d). Qed.

(** Every operation on the applications. *)
Lemma op_keeps (o : Apps.Op) s w : Apps.state_ok s → Apps.state_ok (snd (fst (Apps.run_op (home proc_) (host proc_) o s w))).
Proof.
  intros Hs. pose proof (Apps.run_op_good (home proc_) (host proc_) o s w Hs) as Ho.
  destruct (Apps.run_op _ _ o s w) as [[e s'] w']. apply Ho.
Qed.

Lemma reenable_stored env c prev : pres stored_ok (Executor.reenable env c prev).
Proof.
  unfold Executor.reenable. repeat case_match; [apply EnableVPN_stored|apply EnableProxy_stored|]. by intros x.
Qed.

(** *** The handlers *)

Definition server_fine (s : SysApi.State V) : Prop := SysManager.server_ok (SysManager.proc (SysApi.mgr s)).

Lemma persist_fine save_ s : server_fine s → server_fine (snd (SysApi.persistSysProxy save_ s)).
Proof. intros Hs. unfold SysApi.persistSysProxy. destruct save_ as [f|]; [|done]. by destruct (f _). Qed.

Lemma sysproxy_fine save_ cfg s : server_fine s → server_fine (snd (SysApi.SysProxySet (diag proc_) save_ cfg s)).
Proof.
  intros Hs. unfold SysApi.SysProxySet. destruct (SysManager.Apply _ cfg (SysApi.mgr s)) as [r m] eqn:Hm0.
  pose proof (SysManager.Apply_server_ok _ _ _ _ _ Hs Hm0). destruct r; [done|]. by apply persist_fine.
Qed.

Lemma sysproxy_keeps s d : server_fine s → daemon_ok d → daemon_ok (with_sysp s d).
Proof. intros Hs (Hx & Ha & _ & Hr). split; [exact Hx|]. split; [exact Ha|]. by split. Qed.

Lemma sysproxy_set_keeps : keeps (sysproxy_set proc_).
Proof.
  intros i arg d Hd. unfold sysproxy_set, SysApi.sysproxy_set. destruct (Decode arg) as [v|]; [|by apply sysproxy_keeps; [apply Hd|]].
  cbv zeta. set (s := {| SysApi.mgr := _; SysApi.saved := _ |}). assert (server_fine s) as Hs by apply Hd.
  destruct (SysApi.d_ok _); [|by apply sysproxy_keeps].
  pose proof (sysproxy_fine (saveSysproxy i) (SysApi.config_of (SysApi.decode_config (grow i) v
    (SysApi.copy_of (SysManager.m_cfg (SysManager.proc (SysApi.mgr (sysp d)))) (ptail i) (dtail i)))) s Hs) as Hf.
  destruct (SysApi.SysProxySet _ _ _ _) as [r s']. by apply sysproxy_keeps.
Qed.

Lemma sysproxy_import_keeps : keeps (sysproxy_import proc_).
Proof.
  intros i arg d Hd. unfold sysproxy_import, SysApi.sysproxy_import.
  destruct (Base64.DecodeString _ _) as [data|]; [|by apply sysproxy_keeps; [apply Hd|]].
  unfold SysManager.Manager_Import. destruct (SysConfig.DecodeImport _ data) as [[imported full]|e]; [|by apply sysproxy_keeps; [apply Hd|]].
  destruct (SysManager.Apply _ _ _) as [r m] eqn:Hm0.
  assert (server_fine {| SysApi.mgr := m; SysApi.saved := SysApi.saved (sysp d) |}) as Hm
    by (eapply SysManager.Apply_server_ok, Hm0; apply Hd).
  destruct r as [e|]; [by apply sysproxy_keeps|]. pose proof (persist_fine (saveSysproxy i) _ Hm) as Hf.
  destruct (SysApi.persistSysProxy _ _) as [r s']. by apply sysproxy_keeps.
Qed.

Lemma sysproxy_reclaim_keeps : keeps (sysproxy_reclaim proc_).
Proof.
  intros i arg d Hd. unfold sysproxy_reclaim, SysManager.ReclaimPort. assert (server_fine (sysp d)) as Hs by apply Hd.
  destruct (diag proc_) as [dg|]; [|by apply sysproxy_keeps]. destruct (SysManager.LegacyPACAgent _ _) as [a|e]; [|by apply sysproxy_keeps].
  destruct (negb _); [by apply sysproxy_keeps|]. destruct (negb _); [by apply sysproxy_keeps|].
  destruct (SysManager.RemoveLegacyPACAgent _ _) as [r w]. by apply sysproxy_keeps.
Qed.

Lemma settings_set_keeps : keeps (settings_set reg proc_).
Proof.
  intros i arg d Hd. unfold settings_set. destruct (Unmarshal _ _ arg) as [s|]; [|done].
  pose proof (Settings.ApplySettings_keeps reg (env i) (save proc_) (saveAutostart i) (λ x, inv x ∧ stored_ok x) (random i) s (settings d)) as Hk.
  assert (∀ (m : Executor.M (option Executor.error)), pres inv m → pres stored_ok m → pres (λ x, inv x ∧ stored_ok x) m) as Hboth
    by (intros m Hi Hs x [? ?]; split; [by apply Hi|by apply Hs]).
  destruct Hk as [Hx Ha]; [intros; apply Hboth|intros; apply Hboth|intros; apply Hboth|apply Hd|].
  - apply SetAutostartMode_pres.
  - apply SetAutostartMode_stored.
  - apply LoadLink_pres.
  - apply LoadLink_stored.
  - apply reenable_pres.
  - apply reenable_stored.
  - destruct (Settings.ApplySettings _ _ _ _ _ _ _) as [r s']. cbn [snd] in *. destruct Hd as (_ & Hd2 & Hd3).
    split; [exact Hx|]. split; [|exact Hd3].
    assert (Apps.state_ok (Apps.SetSocksPort (Settings.SocksPort s) (apps d))) as Hp by (unfold Apps.SetSocksPort; by destruct (_ =? _)%Z).
    change (apps (with_settings s' d)) with (Settings.apps s'). cbn [Settings.apps settings] in Ha. destruct Ha as [->| ->]; [exact Hp|].
    destruct Hp as [[Hst _] Hc]. by split; [split|].
Qed.

Lemma app_list_keeps : keeps app_list.
Proof.
  intros i arg d Hd. unfold app_list, Apps.ListApplications. destruct (Apps.cached _ _ _); [apply apps_keep; [apply Hd|done]|].
  destruct (Apps.listProcRows _) as [rows|]; [|apply apps_keep; [apply Hd|done]].
  destruct (foldl _ _ rows) as [l ids]. apply apps_keep; [apply Hd|done].
Qed.

(** A handler that changes nothing, or whose change is one call. *)
Ltac quiet := by (intros i arg d Hd; repeat (cbv beta delta [status settings_get keys_get sub_list proxy_group proxy_select sysproxy_status
  sysproxy_config console_poll traffic proc_list proc_list_routed app_list_routed app_list_proxied connections connection_close firewall_list];
  cbn [snd])).

Lemma with_pid_keeps (f : Z → Daemon R W V → result (CmdError E) string * Daemon R W V) :
  (∀ n d, daemon_ok d → daemon_ok (snd (f n d))) → keeps (with_pid f).
Proof. intros Hf i arg d Hd. unfold with_pid. destruct (parsePID arg); [by apply Hf|done]. Qed.

Lemma refreshed_keeps (f : Daemon R W V → result (CmdError E) string * Daemon R W V) d :
  (∀ d, daemon_ok d → daemon_ok (snd (f d))) → daemon_ok d → daemon_ok (snd (refreshed f d)).
Proof. intros Hf Hd. by apply Hf. Qed.

Lemma number_keeps (o : Apps.Op) (f : Apps.State R → W → result Apps.AppError Z * Apps.State R * W) :
  (∀ s w, snd (fst (f s w)) = snd (fst (Apps.run_op (home proc_) (host proc_) o s w))) →
  ∀ d, daemon_ok d → daemon_ok (snd (app_number (E:=E) f d)).
Proof. intros Hf d Hd. apply app_number_keeps; [|done]. intros s w Hs. rewrite Hf. by apply op_keeps. Qed.

Lemma mode_keeps : keeps (mode (E:=E)).
Proof.
  intros i arg d Hd. unfold mode. repeat case_match; [..|done];
    (apply exec_ok_keeps; [| |done]);
    auto using Stop_pres, Stop_stored, EnableProxy_pres, EnableProxy_stored, EnableVPN_pres, EnableVPN_stored.
Qed.

Lemma add_key_keeps i raw d : daemon_ok d → daemon_ok (snd (add_key (E:=E) reg proc_ i raw d)).
Proof. intros Hd. apply exec_ok_keeps; [apply AddLink_pres|apply AddLink_stored|done]. Qed.

Lemma keys_keep : keeps (keys_add reg proc_) ∧ keeps (keys_add_config reg proc_) ∧ keeps (keys_remove reg proc_) ∧ keeps (keys_rename reg proc_).
Proof.
  split; [|split; [|split]]; intros i arg d Hd.
  - by apply add_key_keeps.
  - unfold keys_add_config. destruct (Base64.DecodeString _ _); [by apply add_key_keeps|done].
  - unfold keys_remove. destruct (Atoi _) as [idx|]; [|done]. apply exec_ok_keeps; [apply DeleteLink_pres|apply DeleteLink_stored|done].
  - unfold keys_rename. destruct (match Cut _ _ with Some p => p | None => _ end) as [t name]. destruct (Atoi t) as [idx|]; [|done]. apply exec_ok_keeps; [apply RenameLink_pres|apply RenameLink_stored|done].
Qed.

Lemma subs_keep : keeps (sub_add reg proc_) ∧ keeps (sub_remove reg proc_) ∧ keeps (sub_update reg proc_).
Proof.
  split; [|split]; intros i arg d Hd.
  - apply exec_ok_keeps; [apply AddSubscription_pres|apply AddSubscription_stored|done].
  - apply exec_ok_keeps; [apply RemoveSubscription_pres|apply RemoveSubscription_stored|done].
  - unfold sub_update. pose proof (exec_keeps (Executor.RefreshSubscriptions reg (env i) (save proc_) (saveSubs proc_) (clash d) (fetcher i) (now i)) d
      (RefreshSubscriptions_pres _) (RefreshSubscriptions_stored _) Hd) as Hk.
    by destruct (exec_call _ d) as [[n r] d'].
Qed.

Lemma firewall_keeps : keeps (firewall_add reg proc_) ∧ keeps (firewall_remove reg proc_).
Proof.
  split; intros i arg d Hd.
  - unfold firewall_add. destruct (Unmarshal _ _ arg) as [r|]; [|done]. pose proof (exec_keeps (Executor.FirewallAdd reg (env i) (save proc_) (clash d) (saveFirewall i) (newID i) r) d
      (FirewallAdd_pres _ _) (FirewallAdd_stored _ _) Hd) as Hk.
    by destruct (exec_call _ d) as [r' d'].
  - apply exec_ok_keeps; [apply FirewallRemove_pres|apply FirewallRemove_stored|done].
Qed.

Lemma procs_keep : Forall keeps [proc_route; proc_unroute; proc_kill; proc_restart; proc_launch].
Proof.
  repeat apply Forall_cons_2; try apply Forall_nil_2; try (apply with_pid_keeps; intros n d Hd).
  - apply app_ok_keeps; [|done]. intros s w. exact (op_keeps (Apps.ORoutePID n) s w).
  - apply app_ok_keeps; [|done]. intros s w. exact (op_keeps (Apps.OUnroutePID n) s w).
  - apply app_ok_keeps; [|done]. intros s w. exact (op_keeps (Apps.OStopPID n) s w).
  - apply (number_keeps (Apps.ORestart n)); [|done]. intros s w. unfold Apps.run_op. by destruct (Apps.RestartProxied n s w) as [[? ?] ?].
  - intros i arg d Hd. unfold proc_launch. destruct (Unmarshal _ _ arg) as [argv|]; [|done].
    apply (number_keeps (Apps.OLaunch argv)); [|done]. intros s w. unfold Apps.run_op. by destruct (Apps.LaunchProxied argv s w) as [[? ?] ?].
Qed.

Lemma apps_handlers_keep : Forall keeps [app_route proc_; app_unroute; app_launch proc_; app_set_enabled proc_; app_remove proc_].
Proof.
  repeat apply Forall_cons_2; try apply Forall_nil_2; intros i arg d Hd; (apply refreshed_keeps; [|exact Hd]); intros d' Hd'.
  - apply app_ok_keeps; [|done]. intros s w. exact (op_keeps (Apps.ORouteApp (TrimSpace arg)) s w).
  - apply app_ok_keeps; [|done]. intros s w. exact (op_keeps (Apps.OUnrouteApp (TrimSpace arg)) s w).
  - apply (number_keeps (Apps.OLaunchApp arg)); [|done]. intros s w. unfold Apps.run_op.
    by destruct (Apps.LaunchProxiedApp _ _ arg s w) as [[[? ?] ?] ?].
  - destruct (Unmarshal _ _ arg) as [r|]; [|done]. apply app_ok_keeps; [|done]. intros s w. exact (op_keeps (Apps.OEnable _ _) s w).
  - apply app_ok_keeps; [|done]. intros s w. exact (op_keeps (Apps.ORemove (TrimSpace arg)) s w).
Qed.

Lemma handlers_keep : Forall (λ nh, keeps (snd nh)) (handlers reg proc_ api_text).
Proof.
  destruct keys_keep as (? & ? & ? & ?), subs_keep as (? & ? & ?), firewall_keeps as [? ?].
  pose proof procs_keep as Hp. pose proof apps_handlers_keep as Ha. rewrite !Forall_cons in Hp, Ha. destruct_and!.
  unfold handlers. repeat apply Forall_cons_2; try apply Forall_nil_2; cbn [snd]; auto using mode_keeps, settings_set_keeps, sysproxy_set_keeps, sysproxy_import_keeps,
    sysproxy_reclaim_keeps, app_list_keeps; quiet.
Qed.

(** *** The life of a daemon *)

Lemma registered_keeps i cmd h arg d :
  registerControl reg proc_ api_text error_text i !! cmd = Some h → daemon_ok d → daemon_ok (snd (h arg d)).
Proof.
  intros Hh%Control.handled_only Hd. rewrite <- list_fmap_compose in Hh. apply list_elem_of_fmap in Hh as (nh & -> & Hin).
  pose proof handlers_keep as Hk. rewrite Forall_forall in Hk. specialize (Hk nh Hin i arg d Hd).
  cbn. unfold handler. by destruct (snd nh i arg d).
Qed.

Lemma step_keeps d ev : daemon_ok d → daemon_ok (step reg proc_ api_text error_text d ev).
Proof.
  intros Hd. destruct ev as [i input|e ev|l]; cbn [step].
  - unfold Control.serve. destruct (Control.parse_line input) as [cmd arg].
    destruct (_ !! cmd) as [h|] eqn:Hh; [|done]. pose proof (registered_keeps i cmd h arg d Hh Hd) as Hk.
    by destruct (h arg d) as [[?|?] ?].
  - destruct Hd as [[Hi Hs] Hd]. split; [|exact Hd]. split; [by apply Apply_pres|by apply Apply_stored].
  - destruct Hd as (Hx & Ha & Hs & all & Hr). split; [exact Hx|]. split; [exact Ha|]. split; [exact Hs|].
    exists (all ++ [l]). by apply Console.append_holds.
Qed.

Lemma run_keeps evs : ∀ d, daemon_ok d → daemon_ok (run reg proc_ api_text error_text evs d).
Proof. induction evs as [|ev evs IH]; intros d Hd; [done|]. by apply IH, step_keeps. Qed.

(** A daemon when it starts, over the files [w] and the system [v]. *)
Definition start (t : Settings.Tunables) (port : Z) (path : string) (w : W) (v : V) : Daemon R W V := {|
  tun := t; exec := Executor.NewExecutor; apps := Apps.start false port path w; sysp := SysApi.fresh v None;
  ring := Console.ring0; avail := Netext.avail0; world := w; stopping := false |}.

Lemma start_keeps t port path w v : daemon_ok (start t port path w v).
Proof.
  split; [split; [apply NewExecutor_inv|]|split; [apply Apps.start_ok|split]].
  - unfold stored_ok; simpl. split_and!; [constructor..|set_solver].
  - split; [by eexists|reflexivity].
  - by exists [].
Qed.

(** What that says of a daemon. *)
Lemma daemon_ok_sound d : daemon_ok d →
  sound (exec d) ∧ Apps.state_ok (apps d) ∧
  (size (SysManager.live (SysManager.proc (SysApi.mgr (sysp d)))) <= 1)%nat ∧
  (length (Console.consoleLog (ring d)) <= Console.consoleRingMax)%nat.
Proof.
  intros ([Hi Hs] & Ha & [_ Hl] & all & _ & Hr). split; [by apply inv_sound|]. split; [exact Ha|]. split.
  - rewrite Hl. destruct (SysManager.srv _); [by rewrite map_size_singleton|rewrite map_size_empty; lia].
  - rewrite Hr. apply Console.last_n_length.
Qed.
End facts.

End Commands.
