(* ===== verification/Remote.v ===== *)
(** * Remote: a client that is attached to a daemon ([internal/remote/backend.go])

    A second invocation drives the running daemon over its socket: modes, keys
    and settings are requests, processes are routed by a router of its own that
    points at the daemon's port.  The refinement relates a client's call, which
    goes through the line of a request, the registered handler and the line of
    its reply (Control, Commands), to the call of the executor itself. *)

From S2P Require Import Prelude GoStr GoUtf8 GoNet GoUrl GoUrlFacts GoPath Policy Monitor Runtime Registry Schema Singbox Link GoJson GoJsonData GoBase64 GoQuery Sub Proclist Executor ExecutorInv Store AppStore Netext Procproxy Apps Console ClashApi Settings Control SysConfig SysPac SysManager SysApi Commands.
Import Json Data Store.

Local Open Scope string_scope.
Local Open Scope list_scope.

Module Remote.

(** ** Requests *)

(** What a call returns as an error: the daemon's text, advice, or a reply
    that does not decode. *)
Inductive ClientErr := Refused (e : string) | Outdated | BadReply.

(** [staleDaemon] *)
Definition staleDaemon (e : ClientErr) : ClientErr :=
  match e with Refused t => if Contains t "unknown command" then Outdated else e | _ => e end.

Definition no_member : Selection.ProxyMember :=
  {| Selection.Tag := ""; Selection.Index := 0; Selection.Name := ""; Selection.MDelay := 0; Selection.MError := "" |}.
Definition mk_member (t : string) (i : Z) (n : string) (d : Z) (e : string) : Selection.ProxyMember := {|
  Selection.Tag := t; Selection.Index := i; Selection.Name := n; Selection.MDelay := d; Selection.MError := e |}.
Definition member_fields : Fields Selection.ProxyMember :=
  let upd (f : string → Z → string → Z → string → Selection.ProxyMember) (m : Selection.ProxyMember) :=
    f (Selection.Tag m) (Selection.Index m) (Selection.Name m) (Selection.MDelay m) (Selection.MError m) in [
  field "tag" Selection.Tag (λ v, upd (λ _ i n d e, mk_member v i n d e)) dec_string;
  field "index" Selection.Index (λ v, upd (λ t _ n d e, mk_member t v n d e)) dec_int;
  field "name" Selection.Name (λ v, upd (λ t i _ d e, mk_member t i v d e)) dec_string;
  field "delay" Selection.MDelay (λ v, upd (λ t i n _ e, mk_member t i n v e)) dec_int;
  field "error" Selection.MError (λ v, upd (λ t i n d _, mk_member t i n d v)) dec_string].

(** A list of members, null included. *)
Definition dec_members_list : Dec (option (list Selection.ProxyMember)) := λ old v,
  match v with
  | JNull => Some None
  | _ => Some <$> dec_list no_member (dec_struct member_fields) (default [] old) v
  end.

Definition mk_group (a b : bool) (s : string) (m : option (list Selection.ProxyMember)) : Selection.ProxyGroup := {|
  Selection.Available := a; Selection.Auto := b; Selection.Selected := s; Selection.Members := m |}.
Definition group_fields : Fields Selection.ProxyGroup :=
  let upd (f : bool → bool → string → option (list Selection.ProxyMember) → Selection.ProxyGroup) (g : Selection.ProxyGroup) :=
    f (Selection.Available g) (Selection.Auto g) (Selection.Selected g) (Selection.Members g) in [
  field "available" Selection.Available (λ v, upd (λ _ b s m, mk_group v b s m)) dec_bool;
  field "auto" Selection.Auto (λ v, upd (λ a _ s m, mk_group a v s m)) dec_bool;
  field "selected" Selection.Selected (λ v, upd (λ a b _ m, mk_group a b v m)) dec_string;
  field "members" Selection.Members (λ v, upd (λ a b s _, mk_group a b s v)) dec_members_list].

Section client.
Context `{GoUnicode, Control.GoUpper} {D : Type} (srv : Control.Server D).
Implicit Types (d : D).

Definition request (cmd arg : string) d : result ClientErr string * D :=
  let '(r, d) := Control.Request srv cmd arg d in (match r with Ok s => Ok s | Err e => Err (Refused e) end, d).

Definition error_of {A} (r : result ClientErr A) : option ClientErr := match r with Ok _ => None | Err e => Some e end.

Definition command (cmd arg : string) d : option ClientErr * D := let '(r, d) := request cmd arg d in (error_of r, d).
Definition new_command (cmd arg : string) d : option ClientErr * D := let '(e, d) := command cmd arg d in (staleDaemon <$> e, d).

Definition mode (m : string) : D → option ClientErr * D := command "MODE" m.
Definition EnableProxy := mode "proxy".
Definition EnableVPN := mode "vpn".
Definition Stop := mode "off".

Definition add (key : string) d : option ClientErr * D :=
  if str_has LF key || str_has CR key
  then command "KEYS-ADD-CONFIG" (Base64.EncodeToString Base64.StdEncoding key) d
  else command "KEYS-ADD" (TrimSpace key) d.
Definition LoadLink := add.
Definition AddLink := add.

Definition DeleteLink (index : Z) : D → option ClientErr * D := new_command "KEYS-REMOVE" (Itoa index).
Definition RenameLink (index : Z) (name : string) : D → option ClientErr * D :=
  new_command "KEYS-RENAME" (Itoa index +:+ " " +:+ TrimSpace name).
Definition SelectProxy (tag : string) : D → option ClientErr * D := new_command "PROXY-SELECT" (TrimSpace tag).

(** A reply that is decoded. *)
Definition decoded {A} (zero : A) (dec : Dec A) (r : result ClientErr string) : result ClientErr A :=
  match r with
  | Err e => Err e
  | Ok reply => match Unmarshal zero dec reply with Some a => Ok a | None => Err BadReply end
  end.

Definition ProxyGroup d : result ClientErr Selection.ProxyGroup * D :=
  let '(r, d) := request "PROXY-GROUP" "" d in
  (match r with
   | Err e => Err (staleDaemon e)
   | Ok reply => decoded Selection.no_group (dec_struct group_fields) (Ok reply)
   end, d).

Definition CurrentLinks d : list string * D :=
  let '(r, d) := request "KEYS-GET" "" d in
  (match r with Ok reply => filter (λ l, l ≠ "") (TrimSpace <$> split_byte LF reply) | Err _ => [] end, d).

Definition Settings_ d : result ClientErr Settings.Settings * D :=
  let '(r, d) := request "SETTINGS-GET" "" d in (decoded Commands.no_settings (dec_struct Commands.settings_fields) r, d).

(** The request of ApplySettings; what it does to the client is below. *)
Definition settings_set (s : Settings.Settings) : D → option ClientErr * D :=
  command "SETTINGS-SET" (Marshal (Commands.enc_settings s)).
End client.

(** ** The client's own state *)

Record Backend (R : Type) := {
  clashAddr : string; clashSecret : string; socksPort : Z; launchUser : option Procproxy.LaunchUser; router : option R }.
Arguments clashAddr {R} b.
Arguments clashSecret {R} b.
Arguments socksPort {R} b.
Arguments launchUser {R} b.
Arguments router {R} b.

Section backend.
Context {R W : Type} `{Router R W}.
Implicit Types (b : Backend R) (w : W).

Definition with_router (r : option R) b : Backend R := {|
  clashAddr := clashAddr b; clashSecret := clashSecret b; socksPort := socksPort b; launchUser := launchUser b; router := r |}.
Definition with_port (p : Z) b : Backend R := {|
  clashAddr := clashAddr b; clashSecret := clashSecret b; socksPort := p; launchUser := launchUser b; router := router b |}.

Definition New (inst : Control.Instance_) (port : Z) : Backend R := {|
  clashAddr := Control.ClashAPIAddr inst; clashSecret := Control.ClashSecret inst;
  socksPort := (if (port =? 0)%Z then 1080 else port)%Z; launchUser := None; router := None |}.

(** The client of the poller, when there is an API to poll. *)
Definition startPoller b : option ClashApi.Client :=
  if String.eqb (clashAddr b) "" then None else Some (ClashApi.NewClient (clashAddr b) (clashSecret b)).

Definition router_config b : Procproxy.Config := {|
  Procproxy.SocksAddr := Apps.addr (socksPort b); Procproxy.HTTPAddr := Apps.addr (socksPort b + 1); Procproxy.Gateway := "";
  Procproxy.Mark := 0; Procproxy.Table := 0; Procproxy.CgroupRoot := ""; Procproxy.CgroupName := "";
  Procproxy.User := launchUser b; Procproxy.Captures := true |}.

Definition procRouter b : R * Backend R :=
  match router b with Some r => (r, b) | None => let r := NewRouter (router_config b) in (r, with_router (Some r) b) end.

Definition resetRouter b : Backend R := with_router None b.

Definition RoutePID (pid : Z) b w : option Procproxy.Error * Backend R * W :=
  let '(r, b) := procRouter b in let '(e, r, w) := router_AddPID pid r w in (e, with_router (Some r) b, w).
Definition LaunchProxied (argv : list string) b w : result Procproxy.Error Z * Backend R * W :=
  let '(r, b) := procRouter b in let '(e, r, w) := router_Launch argv r w in (e, with_router (Some r) b, w).
Definition RestartProxied (pid : Z) b w : result Procproxy.Error Z * Backend R * W :=
  let '(r, b) := procRouter b in let '(e, r, w) := router_RestartPID pid r w in (e, with_router (Some r) b, w).
Definition UnroutePID (pid : Z) b w : option Procproxy.Error * Backend R * W :=
  let '(r, b) := procRouter b in let '(e, r, w) := router_Unroute pid r w in (e, with_router (Some r) b, w).
Definition StopProxied (pid : Z) b w : option Procproxy.Error * Backend R * W :=
  let '(r, b) := procRouter b in let '(e, r, w) := router_Kill pid r w in (e, with_router (Some r) b, w).

Definition ApplySettings `{Control.GoUpper} {D} (srv : Control.Server D) (s : Settings.Settings) b (d : D)
    : option ClientErr * Backend R * D :=
  let '(e, d) := settings_set srv s d in
  match e with
  | Some e => (Some e, b, d)
  | None =>
      let p := Settings.SocksPort s in
      (None, if negb (p =? 0)%Z && negb (p =? socksPort b)%Z then resetRouter (with_port p b) else b, d)
  end.
End backend.

(** ** What a client asks, and what the executor does

    A call of a client, the command it sends, and the call of the executor that
    the command stands for. *)

Inductive Call :=
  | CEnableProxy | CEnableVPN | CStop | CAddLink (key : string) | CDeleteLink (index : Z) | CRenameLink (index : Z) (name : string)
  | CSelectProxy (tag : string) | CApplySettings (s : Settings.Settings).

Section calls.
Context {R W V P E : Type} `{Router R W} `{FS W} `{Apps.ProcTable W} `{SysManager.NetworkSetup V} `{SysManager.Sockets V}.
Context `{GoUnicode, GoFold, GoQuote, SysPac.GoText, GoTime, Control.GoUpper}.
Context (reg : Registry.Registry_ P) (proc_ : Commands.Process V) (api_text : ClashApi.ApiError → string) (error_text : Commands.CmdError E → string).
Abbreviation Daemon := (Commands.Daemon R W V).
Implicit Types (d : Daemon) (i : Commands.Inputs E) (call : Call).

Definition client call i d : option ClientErr * Daemon :=
  let srv := Commands.registerControl reg proc_ api_text error_text i in
  match call with
  | CEnableProxy => EnableProxy srv d
  | CEnableVPN => EnableVPN srv d
  | CStop => Stop srv d
  | CAddLink key => AddLink srv key d
  | CDeleteLink index => DeleteLink srv index d
  | CRenameLink index name => RenameLink srv index name d
  | CSelectProxy tag => SelectProxy srv tag d
  | CApplySettings s => settings_set srv s d
  end.

(** The same on the executor that the daemon owns. *)
Definition executor (m : Executor.M (option Executor.error)) d : option (Commands.CmdError E) * Daemon :=
  let '(r, x) := m (Commands.exec d) in (Commands.ErrSettings ∘ Settings.ErrExec <$> r, Commands.with_exec x d).

Definition local call i d : option (Commands.CmdError E) * Daemon :=
  let env := Commands.env i in let save := Commands.save proc_ in let clash := Commands.clash d in
  match call with
  | CEnableProxy => executor (Executor.EnableProxy env clash) d
  | CEnableVPN => executor (Executor.EnableVPN env clash) d
  | CStop => executor (Executor.Stop env) d
  | CAddLink key => executor (Executor.AddLink reg env save clash (if str_has LF key || str_has CR key then key else TrimSpace key)) d
  | CDeleteLink index => executor (Executor.DeleteLink reg env save clash index) d
  | CRenameLink index name => executor (Executor.RenameLink reg env save clash index (TrimSpace name)) d
  | CSelectProxy tag => (Commands.ErrSettings <$> Selection.SelectProxy (Commands.do_ i) (TrimSpace tag) (Commands.settings (P:=P) d), d)
  | CApplySettings s =>
      let '(r, st) := Settings.ApplySettings reg env save (Commands.saveAutostart i) (Commands.random i) s (Commands.settings d) in
      (Commands.ErrSettings <$> r, Commands.with_settings st d)
  end.

(** What a call's argument must be for its request: numbers that are ints,
    names of one line, texts that are UTF-8. *)
Definition settings_valid (s : Settings.Settings) : Prop :=
  is_Some (in_int64 (Settings.SocksPort s)) ∧ is_Some (in_int64 (Settings.URLTestTolerance s)) ∧
  Forall (λ t, Utf8.valid t = true)
    [Settings.ClashAddr s; Settings.URLTestURL s; Settings.URLTestInterval s; Settings.AutostartMode s].

Definition call_valid call : Prop :=
  match call with
  | CDeleteLink index => is_Some (in_int64 index)
  | CRenameLink index name => is_Some (in_int64 index) ∧ str_has LF name = false
  | CSelectProxy tag => str_has LF tag = false
  | CApplySettings s => settings_valid s
  | _ => True
  end.

(** The daemon's error as its client sees it. *)
Definition shown call (e : Commands.CmdError E) : ClientErr :=
  let e := Refused (TrimRightBytes Control.crlf (error_text e)) in
  match call with CDeleteLink _ | CRenameLink _ _ | CSelectProxy _ => staleDaemon e | _ => e end.

(** *** Requests of the registry *)

Lemma registered i name h : (name, h) ∈ Commands.handlers reg proc_ api_text →
  Control.command_name name ∧ Commands.registerControl reg proc_ api_text error_text i !! name = Some (Commands.handler error_text i h).
Proof.
  intros Hin. pose proof (Commands.handlers_named (E:=E) reg proc_ api_text) as [Hn Hnd]. split.
  - rewrite Forall_forall in Hn. by apply (Hn (name, h)).
  - apply Control.handled_all.
    + apply Forall_fmap. exact Hn.
    + rewrite <- list_fmap_compose. exact Hnd.
    + apply list_elem_of_fmap. by exists (name, h).
Qed.

(** A command that answers OK or an error. *)
Lemma command_runs i name h arg d (r : option (Commands.CmdError E)) d' :
  (name, h) ∈ Commands.handlers reg proc_ api_text → Control.one_line arg → h i arg d = (Commands.OK r, d') →
  command (Commands.registerControl reg proc_ api_text error_text i) name arg d =
    ((λ e, Refused (TrimRightBytes Control.crlf (error_text e))) <$> r, d').
Proof.
  intros Hin Ha Hh. destruct (registered i name h Hin) as [Hn Hr]. unfold command, request.
  rewrite (Control.request_runs _ _ _ _ _ Hn Ha Hr). unfold Commands.handler. rewrite Hh. destruct r as [e|]; cbn [Commands.OK].
  - by rewrite Control.error_reads.
  - reflexivity.
Qed.
(** *** Arguments *)

Lemma plain_one_line s : str_forallb (λ c, negb (Control.crlf c)) s = true → Control.one_line s.
Proof.
  intros Hs. split.
  - apply (str_has_forallb LF (λ c, negb (Control.crlf c))); done.
  - unfold TrimRightBytes. rewrite <- str_forallb_srev in Hs. destruct (srev s) as [|c r] eqn:Hr.
    { by rewrite <- (srev_srev s), Hr. }
    cbn [str_forallb] in Hs. apply andb_true_iff in Hs as [Hc%negb_true_iff _]. cbn [drop_while]. by rewrite Hc, <- Hr, srev_srev.
Qed.

Lemma trimmed_line s : str_has LF s = false → Control.one_line (TrimSpace s).
Proof. intros Hs. split; [by apply TrimSpace_has|]. apply Control.trimmed_one_line, TrimSpace_idemp. Qed.

Lemma Itoa_one_line z : Control.one_line (Itoa z).
Proof.
  apply plain_one_line, Itoa_bytes; [|done]. intros c. unfold Control.crlf.
  intros Hc. apply negb_true_iff, orb_false_iff. split; apply Ascii.eqb_neq; intros ->; by vm_compute in Hc.
Qed.

Lemma base64_one_line s : Control.one_line (Base64.EncodeToString Base64.StdEncoding s).
Proof. apply plain_one_line, Base64.EncodeToString_bytes; reflexivity. Qed.

Lemma base64_solid s : TrimSpace (Base64.EncodeToString Base64.StdEncoding s) = Base64.EncodeToString Base64.StdEncoding s.
Proof. apply TrimSpace_solid, Base64.EncodeToString_bytes; reflexivity. Qed.

Lemma Itoa_solid z : str_forallb solid_byte (Itoa z) = true.
Proof.
  apply Itoa_bytes; [|done]. intros c. unfold is_digit, in_range, solid_byte, is_ascii_byte, ascii_space, in_range.
  rewrite andb_true_iff, !N.leb_le. intros Hc.
  assert ((byte_val c <? 128)%N = true) as -> by (apply N.ltb_lt; lia).
  assert ((byte_val c <=? 13)%N = false) as -> by (apply N.leb_gt; lia).
  assert ((byte_val c =? 32)%N = false) as -> by (apply N.eqb_neq; lia).
  by rewrite andb_false_r.
Qed.

Lemma printed_one_line s : printed s = true → Control.one_line s.
Proof.
  intros Hs. apply plain_one_line. eapply str_forallb_impl, Hs. intros c. unfold printable, Control.crlf, in_range.
  intros Hc. apply negb_true_iff, orb_false_iff. split; apply Ascii.eqb_neq; intros ->; by vm_compute in Hc.
Qed.

(** The line of KEYS-RENAME, and what its handler makes of it. *)
Lemma rename_line index name : str_has LF name = false →
  Control.one_line (Itoa index +:+ " " +:+ TrimSpace name) ∧
  match Cut (TrimSpace (Itoa index +:+ " " +:+ TrimSpace name)) " " with
  | Some p => p | None => (TrimSpace (Itoa index +:+ " " +:+ TrimSpace name), "") end = (Itoa index, TrimSpace name).
Proof.
  intros Hn. destruct (Itoa_one_line index) as [Hlf Htr]. pose proof (TrimSpace_idemp name) as Hi.
  assert (str_has " " (Itoa index) = false) as Hsp by (apply (str_has_forallb " " solid_byte); [done|apply Itoa_solid]).
  split; [split|].
  - rewrite !str_has_app, Hlf, (TrimSpace_has LF name) by done. done.
  - destruct (String.eqb_spec (TrimSpace name) "") as [->|Hne]; [apply TrimRightBytes_stop; reflexivity|].
    rewrite <- app_assoc_str. apply Control.TrimRightBytes_behind; [done|]. by apply Control.trimmed_one_line.
  - destruct (String.eqb_spec (TrimSpace name) "") as [->|Hne].
    + change (" " +:+ "") with " ". assert (TrimSpace (Itoa index +:+ " ") = Itoa index) as ->.
      { unfold TrimSpace. rewrite TrimLeftSpace_front by (apply Itoa_solid || apply Itoa_nonempty).
        rewrite TrimRightSpace_snoc by done. apply (TrimRightSpace_solid ""); [apply Itoa_nonempty|apply Itoa_solid]. }
      by rewrite (proj2 (Cut_byte_None " " _)).
    + assert (TrimSpace (Itoa index +:+ " " +:+ TrimSpace name) = Itoa index +:+ " " +:+ TrimSpace name) as ->.
      { unfold TrimSpace at 1. rewrite TrimLeftSpace_front by (apply Itoa_solid || apply Itoa_nonempty).
        apply SysConfig.TrimRightSpace_behind; [done|done|]. by apply TrimSpace_fixed. }
      change (" " +:+ TrimSpace name) with (String " " (TrimSpace name)). by rewrite Cut_byte_app.
Qed.
(** *** Settings *)

(** The value of a field, put into the record. *)
Ltac read_field :=
  cbn [snd enc_int dec_int dec_bool]; rewrite ?Atoi_Itoa by done;
  cbn [fmap option_fmap option_map mbind option_bind Commands.mk_settings Settings.SocksPort Settings.ClashEnabled Settings.ClashAddr
    Settings.URLTestURL Settings.URLTestInterval Settings.URLTestTolerance Settings.SaveProfile Settings.AutostartMode].

Lemma settings_text s : settings_valid s →
  Unmarshal Commands.no_settings (dec_struct Commands.settings_fields) (Marshal (Commands.enc_settings s)) = Some s ∧
  Control.one_line (Marshal (Commands.enc_settings s)).
Proof.
  unfold settings_valid. rewrite !Forall_cons. intros (Hp & Ht & H1' & H2' & H3' & H4' & _). split.
  - apply Unmarshal_Marshal.
    + apply wf_obj. wf_members; by destruct (Settings.ClashEnabled s), (Settings.SaveProfile s).
    + assert (depth (Commands.enc_settings s) <= 1)%nat by (apply depth_obj; by repeat constructor). unfold maxNestingDepth. lia.
    + unfold dec_struct, Commands.enc_settings. cbn [default].
      change Commands.no_settings with (Commands.mk_settings 0 false "" "" "" 0 false "").
      rewrite (dec_members_field Commands.settings_fields 0 "socksport" _ _ "SocksPort") by reflexivity. read_field.
      rewrite (dec_members_field Commands.settings_fields 1 "clashenabled" _ _ "ClashEnabled") by reflexivity. read_field.
      erewrite (dec_members_string Commands.settings_fields 2 "ClashAddr") by (done || reflexivity). read_field.
      erewrite (dec_members_string Commands.settings_fields 3 "URLTestURL") by (done || reflexivity). read_field.
      erewrite (dec_members_string Commands.settings_fields 4 "URLTestInterval") by (done || reflexivity). read_field.
      rewrite (dec_members_field Commands.settings_fields 5 "urltesttolerance" _ _ "URLTestTolerance") by reflexivity. read_field.
      rewrite (dec_members_field Commands.settings_fields 6 "saveprofile" _ _ "SaveProfile") by reflexivity. read_field.
      erewrite (dec_members_string Commands.settings_fields 7 "AutostartMode") by (done || reflexivity). read_field.
      by destruct s.
  - apply printed_one_line, Marshal_printed. unfold Commands.enc_settings. cbn [one_line forallb fst snd].
    rewrite !enc_string_one_line, !enc_int_one_line. by destruct (Settings.ClashEnabled s), (Settings.SaveProfile s).
Qed.
(** *** The refinement *)

Ltac handler_in := repeat first [apply list_elem_of_here | apply list_elem_of_further].

(** A call of the executor through the line of a request. *)
Lemma exec_runs i name (h : Commands.Handler (R:=R) (W:=W) (V:=V) (E:=E)) arg d m :
  (name, h) ∈ Commands.handlers reg proc_ api_text → Control.one_line arg → h i arg d = Commands.exec_ok m d →
  command (Commands.registerControl reg proc_ api_text error_text i) name arg d =
    let '(e, d) := executor m d in ((λ e, Refused (TrimRightBytes Control.crlf (error_text e))) <$> e, d).
Proof.
  intros Hin Ha Hh. destruct (executor m d) as [r d'] eqn:Hx. apply (command_runs i name h); [done|done|].
  rewrite Hh. unfold Commands.exec_ok, Commands.exec_call. unfold executor in Hx. destruct (m (Commands.exec d)). congruence.
Qed.

Lemma refines call i d : call_valid call →
  client call i d = let '(e, d) := local call i d in (shown call <$> e, d).
Proof.
  intros Hv. destruct call as [| | |key|index|index name|tag|s]; cbn [client local shown call_valid] in *.
  - apply (exec_runs i "MODE" Commands.mode "proxy"); [handler_in|by apply plain_one_line|reflexivity].
  - apply (exec_runs i "MODE" Commands.mode "vpn"); [handler_in|by apply plain_one_line|reflexivity].
  - apply (exec_runs i "MODE" Commands.mode "off"); [handler_in|by apply plain_one_line|reflexivity].
  - unfold AddLink, add. destruct (str_has LF key || str_has CR key) eqn:Hk.
    + apply (exec_runs i "KEYS-ADD-CONFIG" (Commands.keys_add_config reg proc_)); [handler_in|apply base64_one_line|].
      unfold Commands.keys_add_config. by rewrite base64_solid, Base64.DecodeString_EncodeToString.
    + apply orb_false_iff in Hk as [Hlf _].
      apply (exec_runs i "KEYS-ADD" (Commands.keys_add reg proc_)); [handler_in|by apply trimmed_line|reflexivity].
  - unfold DeleteLink, new_command.
    rewrite (exec_runs i "KEYS-REMOVE" (Commands.keys_remove reg proc_) _ d (Executor.DeleteLink reg (Commands.env i) (Commands.save proc_) (Commands.clash d) index));
      [|handler_in|apply Itoa_one_line|].
    + destruct (executor _ d) as [[e|] d']; reflexivity.
    + unfold Commands.keys_remove. by rewrite (TrimSpace_solid _ (Itoa_solid index)), Atoi_Itoa.
  - destruct Hv as [Hi Hn]. destruct (rename_line index name Hn) as [Hl Hc]. unfold RenameLink, new_command.
    rewrite (exec_runs i "KEYS-RENAME" (Commands.keys_rename reg proc_) _ d
      (Executor.RenameLink reg (Commands.env i) (Commands.save proc_) (Commands.clash d) index (TrimSpace name))); [|handler_in|exact Hl|].
    + destruct (executor _ d) as [[e|] d']; reflexivity.
    + unfold Commands.keys_rename. cbv zeta. rewrite Hc. by rewrite Atoi_Itoa.
  - unfold SelectProxy, new_command.
    rewrite (command_runs i "PROXY-SELECT" (Commands.proxy_select (P:=P)) _ d
      (Commands.ErrSettings <$> Selection.SelectProxy (Commands.do_ i) (TrimSpace tag) (Commands.settings (P:=P) d)) d);
      [|handler_in|by apply trimmed_line|].
    + by destruct (Selection.SelectProxy _ _ _).
    + unfold Commands.proxy_select. by rewrite TrimSpace_idemp.
  - destruct (settings_text s Hv) as [Hd Hl]. unfold settings_set.
    destruct (Settings.ApplySettings reg (Commands.env i) (Commands.save proc_) (Commands.saveAutostart i) (Commands.random i) s (Commands.settings d))
      as [r st] eqn:Ha.
    rewrite (command_runs i "SETTINGS-SET" (Commands.settings_set reg proc_) _ d (Commands.ErrSettings <$> r) (Commands.with_settings st d));
      [done|handler_in|exact Hl|].
    unfold Commands.settings_set. by rewrite Hd, Ha.
Qed.

(** Calls one after the other, each with the answers its handler gets. *)
Fixpoint run_calls {A} (f : Call → Commands.Inputs E → Daemon → option A * Daemon) (calls : list (Call * Commands.Inputs E)) d
    : list (option A) * Daemon :=
  match calls with
  | [] => ([], d)
  | (call, i) :: calls => let '(r, d) := f call i d in let '(rs, d) := run_calls f calls d in (r :: rs, d)
  end.

Lemma run_calls_refine calls : ∀ d, Forall (call_valid ∘ fst) calls →
  run_calls client calls d = let '(rs, d) := run_calls local calls d in (zip_with (λ ci r, shown (fst ci) <$> r) calls rs, d).
Proof.
  induction calls as [|[call i] calls IH]; intros d; [done|]. intros [Hc Hcs]%Forall_cons. cbn [run_calls].
  rewrite (refines call i d Hc). destruct (local call i d) as [e d1]. rewrite IH by done. by destruct (run_calls local calls d1).
Qed.

(** *** What a client reads *)

Lemma reply_runs i name (h : Commands.Handler (R:=R) (W:=W) (V:=V) (E:=E)) d r :
  (name, h) ∈ Commands.handlers reg proc_ api_text → h i "" d = (Ok r, d) → TrimRightBytes Control.crlf r = r → CutPrefix "ERR " r = None →
  request (Commands.registerControl reg proc_ api_text error_text i) name "" d = (Ok r, d).
Proof.
  intros Hin Hh Ht He. destruct (registered i name h Hin) as [Hn Hr]. unfold request.
  rewrite (Control.request_runs _ _ _ _ _ Hn (plain_one_line "" eq_refl) Hr). unfold Commands.handler. rewrite Hh.
  by rewrite Control.reply_reads, He.
Qed.

Lemma settings_read i d : settings_valid (Settings.CurrentSettings (Commands.save proc_) (Commands.settings (P:=P) d)) →
  Settings_ (Commands.registerControl reg proc_ api_text error_text i) d =
    (Ok (Settings.CurrentSettings (Commands.save proc_) (Commands.settings (P:=P) d)), d).
Proof.
  intros Hv. destruct (settings_text _ Hv) as [Hd Hl]. unfold Settings_.
  rewrite (reply_runs i "SETTINGS-GET" (Commands.settings_get (P:=P) proc_) d
    (Marshal (Commands.enc_settings (Settings.CurrentSettings (Commands.save proc_) (Commands.settings (P:=P) d)))));
    [|handler_in|reflexivity|apply Hl|reflexivity].
  cbn [decoded]. by rewrite Hd.
Qed.

(** A key that has a line of its own in the reply. *)
Definition key_line (l : string) : Prop := l ≠ "" ∧ TrimSpace l = l ∧ str_has LF l = false ∧ CutPrefix "ERR " l = None.

Lemma keys_reply ls : Forall key_line ls → ls ≠ [] →
  TrimRightBytes Control.crlf (Join nl ls) = Join nl ls ∧ CutPrefix "ERR " (Join nl ls) = None.
Proof.
  induction 1 as [|l ls (Hne & Ht & Hlf & He) Hls IH]; [done|]. intros _. destruct ls as [|k ls].
  - split; [by apply Control.trimmed_one_line|exact He].
  - destruct (IH ltac:(done)) as [IHt _]. change (Join nl (l :: k :: ls)) with (l +:+ String LF (Join nl (k :: ls))). split.
    + change (l +:+ String LF (Join nl (k :: ls))) with (l +:+ nl +:+ Join nl (k :: ls)). rewrite <- app_assoc_str.
      apply Control.TrimRightBytes_behind; [|exact IHt]. inversion Hls as [|? ? (Hk & _)]; subst. by destruct k, ls.
    + destruct (CutPrefix "ERR " (l +:+ String LF (Join nl (k :: ls)))) as [r|] eqn:Hc; [|done].
      apply CutPrefix_LF in Hc as (r' & Hc & _); [congruence|done].
Qed.

Lemma keys_read i d : Forall key_line (Executor.links (Commands.exec d)) →
  CurrentLinks (Commands.registerControl reg proc_ api_text error_text i) d = (Executor.links (Commands.exec d), d).
Proof.
  intros Hk. unfold CurrentLinks. set (ls := Executor.links (Commands.exec d)) in *.
  assert (TrimRightBytes Control.crlf (Join nl ls) = Join nl ls ∧ CutPrefix "ERR " (Join nl ls) = None) as [Ht He]
    by (destruct ls; [done|by apply keys_reply]).
  rewrite (reply_runs i "KEYS-GET" Commands.keys_get d (Join nl ls)); [|handler_in|reflexivity|exact Ht|exact He]. f_equal.
  destruct ls as [|l ls]; [done|]. change nl with (String LF ""). rewrite split_byte_Join; [|..|done].
  - clear -Hk. induction Hk as [|k ks (Hne & Ht & _) Hks IH]; [done|]. cbn [fmap list_fmap].
    rewrite Ht, filter_cons_True by done. f_equal. exact IH.
  - eapply Forall_impl; [exact Hk|]. intros k (_ & _ & Hlf & _). by apply Control.has_no_line.
Qed.

(** C1: A client attached to a daemon is the executor it is attached to.  What
    one client asks for of modes, keys, names, servers and settings, one
    request after the other, with numbers that are ints, names and tags of one
    line and settings of UTF-8 text, goes through the line of a request, the
    table of handlers and the line of the reply: the daemon goes through the
    states the calls of its own executor put it through, and the client is
    told of exactly the errors these return, as text.  What the client then
    reads back of the settings is what the executor holds if its texts are
    UTF-8 and its numbers ints, and of the keys if each is one line, trimmed
    and no error line; a key of several lines is several rows
    ([several_rows_per_key]). *)
Theorem attached_client_is_the_executor (calls : list (Call * Commands.Inputs E)) (i : Commands.Inputs E) (d : Daemon) :
  Forall (call_valid ∘ fst) calls →
  let '(errs, d') := run_calls local calls d in
  let srv := Commands.registerControl reg proc_ api_text error_text i in
  let current := Settings.CurrentSettings (Commands.save proc_) (Commands.settings (P:=P) d') in
  run_calls client calls d = (zip_with (λ ci r, shown (fst ci) <$> r) calls errs, d') ∧
  (settings_valid current → Settings_ srv d' = (Ok current, d')) ∧
  (Forall key_line (Executor.links (Commands.exec d')) → CurrentLinks srv d' = (Executor.links (Commands.exec d'), d')).
Proof.
  intros Hv. rewrite run_calls_refine by done. destruct (run_calls local calls d) as [errs d'].
  split; [done|]. split; [apply settings_read|apply keys_read].
Qed.

(** Before anything was routed there is no router, and both lists are null,
    which is no list for the decoders of the desktop application. *)
Lemma nothing_routed_is_null (i : Commands.Inputs E) (d : Daemon) : Apps.router (Commands.apps d) = None →
  fst (Commands.proc_list_routed (E:=E) i "" d) = Ok "null" ∧ fst (Commands.app_list_routed (E:=E) i "" d) = Ok "null".
Proof. intros Hr. unfold Commands.proc_list_routed, Commands.app_list_routed. by rewrite Hr. Qed.
End calls.

(** ** A run *)

Module Run.
#[export] Existing Instance ascii_only.
#[export] Existing Instance SysManager.mac_tool.
#[export] Existing Instance SysManager.darwinNetworkSetup.
#[export] Existing Instance SysManager.mac_sockets.
#[export] Existing Instance SysPac.plain_text.
#[export] Existing Instance quote_as_is.
#[export] Existing Instance Control.ascii_upper.
#[export] Existing Instance Selection.no_time.
#[export] Existing Instance Procproxy.exact_fold.

(** Processes that cannot be routed, and a table without any. *)
#[export] Instance no_router : Router unit (gmap string string) := {|
  NewRouter := λ _, tt; router_AddPID := λ _ r w, (None, r, w); router_Unroute := λ _ r w, (None, r, w);
  router_Kill := λ _ r w, (None, r, w); router_Launch := λ _ r w, (Ok 1%Z, r, w); router_RestartPID := λ _ r w, (Ok 1%Z, r, w);
  router_ListRouted := λ _, []; router_PIDsForBundle := λ _ _, []; router_RoutedBundleIDs := λ _, [] |}.
#[export] Instance no_processes : Apps.ProcTable (gmap string string) := {|
  Apps.listProcRows := λ _, Ok []; Apps.processIdentity := λ _ _, None; Apps.bundleIDForPID := λ _ _, ""; Apps.bundleIDOf := λ _ _, "" |}.

Definition host : Procproxy.Host := Procproxy.ex_host.
Definition process : Commands.Process SysManager.Mac := {|
  Commands.save := true; Commands.saveSubs := true; Commands.notes := false; Commands.pid := 42; Commands.startedAt := "t";
  Commands.supported := true; Commands.home := Some "/Users/a"; Commands.host := host; Commands.diag := None |}.
Definition answers : Commands.Inputs string := {|
  Commands.now := 0; Commands.later := 0; Commands.random := None; Commands.newID := "r"; Commands.env := Runtime.good_env "en0";
  Commands.fetcher := None; Commands.saveAutostart := None; Commands.saveFirewall := None; Commands.saveSysproxy := None;
  Commands.do_ := λ _, Err "refused"; Commands.enrich := id; Commands.reads := λ _, {| Apps.before := None; Apps.bundle := ""; Apps.after := None |}; Commands.order := id;
  Commands.grow := λ n, n; Commands.ptail := []; Commands.dtail := []; Commands.unmarshal := λ _, Err "no yaml" |}.
Definition text (e : Commands.CmdError string) : string :=
  match e with Commands.ErrSettings (Settings.ErrExec (Executor.ErrKeyIndex i)) => "no key " +:+ Itoa i +:+ nl | _ => "failed" end.

Definition daemon : Commands.Daemon unit (gmap string string) SysManager.Mac :=
  Commands.start {| Settings.clashAddr := ""; Settings.clashSecret := ""; Settings.urltest := {| Singbox.utURL := ""; Singbox.utInterval := ""; Singbox.utTolerance := 0 |};
    Settings.logPath := ""; Settings.logLevel := "" |} 1080 "/c/apps.json" ∅ {| SysManager.services := ∅; SysManager.faults := []; SysManager.busy := [] |}.
Definition server : Control.Server (Commands.Daemon unit (gmap string string) SysManager.Mac) :=
  Commands.registerControl Registry.rw_registry process (λ _, "") text answers.
Definition calls : list (Call * Commands.Inputs string) :=
  (λ c, (c, answers)) <$> [CAddLink " hy2://a "; CAddLink "hy2://b"; CEnableVPN; CDeleteLink 7; CDeleteLink 0].
Definition call_ := client (R:=unit) (W:=gmap string string) (V:=SysManager.Mac) Registry.rw_registry process (λ _, "") text.
Definition executor_ := local (R:=unit) (W:=gmap string string) (V:=SysManager.Mac) (E:=string) Registry.rw_registry process.
End Run.
Import Run.

Lemma attached_client_is_the_executor_witness :
  let '(errs, d) := run_calls Run.call_ Run.calls Run.daemon in
  errs = [None; None; None; Some (Refused "no key 7"); None] ∧ Executor.StateLabel (Commands.exec d) = "vpn" ∧
  CurrentLinks Run.server d = (["hy2://b"], d).
Proof.
  pose proof (attached_client_is_the_executor Registry.rw_registry Run.process (λ _, "") Run.text Run.calls Run.answers Run.daemon) as Hq.
  fold Run.call_ Run.executor_ Run.server in Hq.
  assert (fst (run_calls Run.executor_ Run.calls Run.daemon) =
    [None; None; None; Some (Commands.ErrSettings (Settings.ErrExec (Executor.ErrKeyIndex 7))); None]) as He by (vm_compute; reflexivity).
  assert (Executor.StateLabel (Commands.exec (snd (run_calls Run.executor_ Run.calls Run.daemon))) = "vpn" ∧
    Executor.links (Commands.exec (snd (run_calls Run.executor_ Run.calls Run.daemon))) = ["hy2://b"]) as [Hs Hl] by (split; vm_compute; reflexivity).
  destruct (run_calls Run.executor_ Run.calls Run.daemon) as [errs d]. cbn [fst snd] in *. subst errs.
  destruct Hq as (-> & _ & Hk).
  { repeat apply Forall_cons_2; try apply Forall_nil_2; try exact I; by eexists. }
  split; [vm_compute; reflexivity|]. split; [exact Hs|]. rewrite <- Hl. apply Hk. rewrite Hl.
  apply Forall_singleton. split; [discriminate|]. repeat split; vm_compute; reflexivity.
Defined.

(** A key of several lines is several rows for a client, so the rows after it
    have other numbers than the executor gives them. *)
Definition two_keys : list string := ["[Interface]" +:+ nl +:+ "PrivateKey = k"; "hy2://b"].
Lemma several_rows_per_key :
  let d := Commands.with_exec (Executor.set_keys two_keys two_keys Executor.NewExecutor) Run.daemon in
  fst (CurrentLinks Run.server d) = ["[Interface]"; "PrivateKey = k"; "hy2://b"] ∧
  fst (Run.call_ (CDeleteLink 2) Run.answers d) = Some (Refused "no key 2").
Proof. split; vm_compute; reflexivity. Qed.

End Remote.
