(* ===== verification/Startup.v ===== *)
(** * Startup: how a process begins and what it takes up ([cmd/singctl/main.go])

    [main] decides what an invocation is, and a process that runs its own cores
    restores what was stored, registers the subscriptions of the command line,
    loads the keys and enables a mode, while the monitor and the clients are
    already served.  The result is a daemon of Commands.  A restart is a start
    from the files that a run has left. *)

From S2P Require Import Prelude GoStr GoUtf8 GoNet GoUrl GoPath GoFlag Policy Monitor Runtime Registry Schema Singbox Link GoJson GoJsonData GoBase64 Sub Proclist Executor ExecutorInv ExecutorProps Store AppStore Netext Procproxy Apps Console ClashApi Settings Control SysConfig SysPac SysManager SysApi Options Commands Remote.
Import Json Data Store Options.

Local Open Scope string_scope.
Local Open Scope list_scope.

Module Startup.

(** ** What an invocation is *)

Inductive startupAction := actLocal | actRemoteHeadless.
Definition decideStartup (alive daemonFlag isChild : bool) : startupAction :=
  if daemonFlag || isChild || negb alive then actLocal else actRemoteHeadless.

Definition requireRoot (goos : string) (euid : Z) : bool := String.eqb goos "windows" || (euid =? 0)%Z.

(** The order of [main]: information, control of a running instance, the
    attachment to one, the bare report, and a run, which needs root. *)
Inductive Invocation := PrintVersion | PrintMan | ControlCommand | Attached | BareStatus | NeedsRoot | Detach | Foreground.
Definition invocation (goos : string) (euid : Z) (alive isChild : bool) (c : cli) : Invocation :=
  if version (c_root c) then PrintVersion
  else if man (c_root c) then PrintMan
  else if attach (c_ctl c) || stop (c_ctl c) || status (c_ctl c) then ControlCommand
  else match decideStartup alive (daemon (c_proxy c)) isChild with
       | actRemoteHeadless => Attached
       | actLocal =>
           if negb (headless (c_proxy c)) && negb (daemon (c_proxy c)) then BareStatus
           else if negb (requireRoot goos euid) then NeedsRoot
           else if daemon (c_proxy c) && negb isChild then Detach else Foreground
       end.

(** *** Ports that are held *)

Definition socks_of (c : cli) : Z := if (port (c_proxy c) =? 0)%Z then 1080%Z else port (c_proxy c).
Definition proxyPorts (c : cli) : list Z := [socks_of c; socks_of c + 1; 1080; 2080]%Z.
Definition anyPortIn (have want : list Z) : bool := existsb (λ h, existsb (Z.eqb h) want) have.

(** Processes on the ports: those that may be stopped, and the others. *)
Definition portHolders `{GoUnicode} (self : Z) (listed : result string (list Proclist.App)) (ports : list Z) : list Z * list Proclist.App :=
  match listed with
  | Err _ => ([], [])
  | Ok rows =>
      foldl (λ '(own, foreign) a,
        if (Proclist.aPID a =? self)%Z || negb (anyPortIn (Proclist.aPorts a) ports) then (own, foreign)
        else if Contains (ToLower (Proclist.aName a)) "singctl" then (own ++ [Proclist.aPID a], foreign) else (own, foreign ++ [a])) ([], []) rows
  end.

(** ** The start of a run *)

(** The proxy of the machine itself, which the fetcher of subscriptions falls
    back to. *)
Definition fallback_proxy (c : cli) : string := "127.0.0.1:" +:+ Itoa (socks_of c + 1).

Section startup.
Context {R W V P E : Type} `{Router R W} `{FS W} `{Apps.ProcTable W} `{SysManager.NetworkSetup V} `{SysManager.Sockets V}.
Context `{GoUnicode, GoFold, GoQuote, SysPac.GoText, GoTime, Control.GoUpper}.
Context (reg : Registry.Registry_ P) (c : cli) (proc_ : Commands.Process V) (st : ProfileStore).
Abbreviation Daemon := (Commands.Daemon R W V).
Implicit Types (d : Daemon) (i : Commands.Inputs E).

(** The executor of a run before anything is restored. *)
Definition fresh (random : option string) (logPath path : string) (user : option Procproxy.LaunchUser) (w : W) (v : V) : Daemon :=
  let a := Apps.start false (port (c_proxy c)) path w in {|
  Commands.tun := run_tunables random logPath c; Commands.exec := Executor.NewExecutor;
  Commands.apps := {| Apps.running := Apps.running a; Apps.socks := Apps.socks a; Apps.http := Apps.http a; Apps.launchUser := user;
                      Apps.store := Apps.store a; Apps.router := Apps.router a; Apps.ctrl := Apps.ctrl a; Apps.appCache := Apps.appCache a |};
  Commands.sysp := SysApi.fresh v None; Commands.ring := Console.ring0; Commands.avail := Netext.avail0; Commands.world := w;
  Commands.stopping := false |}.

Definition do_exec {A} (m : Executor.M A) d : Daemon := snd (Commands.exec_call m d).
Definition do_apps {A} (f : Apps.State R → W → A * Apps.State R * W) d : Daemon := snd (Commands.app_call f d).

(** What was stored; every failure is a warning. *)
Definition restore_targets d : Daemon := do_apps (Apps.RecomputeAppTargets (Commands.home proc_)) d.
Definition restore_autostart i d : Daemon :=
  match LoadAutostartMode st (Commands.world d) with
  | (am, None) => do_exec (Executor.SetAutostartMode (Commands.saveAutostart i) am) d
  | (_, Some _) => d
  end.
Definition restore_sysproxy d : Daemon :=
  match LoadSysproxyConfig st (Commands.world d) with
  | Ok data => Commands.with_sysp (snd (SysApi.RestoreSysProxyConfig (Commands.diag proc_) (default "" data) (Commands.sysp d))) d
  | Err _ => d
  end.
Definition restore_firewall d : Daemon :=
  match LoadFirewallRules st (Commands.world d) with Ok rules => do_exec (Executor.RestoreFirewallRules rules) d | Err _ => d end.
Definition restore_subscriptions d : Daemon :=
  match LoadSubscriptions st (Commands.world d) with Ok ss => do_exec (Executor.RestoreSubscriptions ss) d | Err _ => d end.
Definition saved_link d : string := match Load st (Commands.world d) with Ok l => l | Err _ => "" end.

(** The subscriptions of the command line that are not known. *)
Definition add_subscription i d (u : string) : Daemon :=
  if existsb (λ s, String.eqb (Executor.subURL s) u) (Executor.subs (Commands.exec d)) then d
  else do_exec (Executor.AddSubscription reg (Commands.env i) (negb (noSave (c_keys c))) (Commands.saveSubs proc_) (Commands.clash d)
                  (Commands.fetcher i) (Commands.now i) u) d.

(** [main] up to the server of the socket, for a process that owns its cores. *)
Definition prepare i (random : option string) (logPath path : string) (user : option Procproxy.LaunchUser) (w : W) (v : V) : Daemon :=
  foldl (add_subscription i)
    (restore_subscriptions (restore_firewall (restore_sysproxy (restore_autostart i (restore_targets (fresh random logPath path user w v))))))
    (subscriptions (c_keys c)).

Definition initial_link d : string :=
  let k := TrimSpace (combined (c_keys c)) in if String.eqb k "" then saved_link d else k.

(** *** [runHeadless]: its steps, between which clients are served *)

Inductive Boot := BootLoad (link : string) | BootMode | BootRoute (pid : Z) | BootRestart (pid : Z) | BootLaunch.

Definition boot_load i (link : string) d : Daemon :=
  if negb (String.eqb link "") then do_exec (Executor.LoadLink reg (Commands.env i) (negb (noSave (c_keys c))) link) d
  else if negb (bool_decide (Executor.subs (Commands.exec d) = [])) then do_exec (Executor.Reload reg (Commands.env i) (negb (noSave (c_keys c)))) d
  else d.

Definition boot_mode i d : Daemon :=
  match requestedMode c with
  | Some mode =>
      if String.eqb mode "vpn" then do_exec (Executor.EnableVPN (Commands.env i) (Commands.clash d)) d
      else do_exec (Executor.EnableProxy (Commands.env i) (Commands.clash d)) d
  | None =>
      if String.eqb (Executor.AutostartMode (Commands.exec d)) "off" then d
      else do_exec (Executor.ApplyAutostart (Commands.env i) (Commands.clash d)) d
  end.

Definition boot i (b : Boot) d : Daemon :=
  match b with
  | BootLoad link => boot_load i link d
  | BootMode => boot_mode i d
  | BootRoute pid => do_apps (Apps.RoutePID pid) d
  | BootRestart pid => do_apps (Apps.RestartProxied pid) d
  | BootLaunch => do_apps (Apps.LaunchProxied (launchArgv (c_proc c))) d
  end.

(** The steps of a run; a process is restarted when that was confirmed. *)
Definition boots (confirm : Z → bool) (link : string) : list Boot :=
  let pids r := match r with Ok ps => ps | Err _ => [] end in
  [BootLoad link; BootMode] ++ (BootRoute <$> pids (routePIDs (c_proc c))) ++
  (BootRestart <$> filter (λ n, confirm n = true) (pids (restartPIDs (c_proc c)))) ++
  (if launch (c_proc c) then [BootLaunch] else []).

(** A run with what reaches it in between, each with its answers.  A step of
    the start, too, is done before the next thing happens. *)
Inductive Happening := Booting (i : Commands.Inputs E) (b : Boot) | Served (ev : Commands.Event (E:=E)).

Definition happen (api_text : ClashApi.ApiError → string) (error_text : Commands.CmdError E → string) d (h : Happening) : Daemon :=
  match h with
  | Booting i b => boot i b d
  | Served ev => Commands.step reg proc_ api_text error_text d ev
  end.
End startup.

(** ** What a start establishes *)

Section facts.
Context {R W V P E : Type} `{RouterLaws R W} `{FSLaws W} `{Apps.ProcTable W}.
Context `{SysManager.SocketsLaws V, !SysManager.NetworkSetupLaws V}.
Context `{GoUnicode, GoFold, GoQuote, SysPac.GoText, GoTime, Control.GoUpper}.
Context (reg : Registry.Registry_ P) (c : cli) (proc_ : Commands.Process V) (st : ProfileStore).
Implicit Types (d : Commands.Daemon R W V) (i : Commands.Inputs E).

(** The stored lists, as the executor stores them: each URL and each identifier
    once, and nothing it would refuse. *)
Definition restorable (w : W) : Prop :=
  (∀ ss, LoadSubscriptions st w = Ok ss → NoDup (Executor.subURL <$> ss) ∧ Forall (λ s, Executor.validateSubURL (Executor.subURL s) = None) ss) ∧
  (∀ rs, LoadFirewallRules st w = Ok rs → NoDup (Firewall.ID <$> rs) ∧ Forall (λ r, Firewall.Validate r = None) rs).

Notation daemon_ok := (Commands.daemon_ok (R:=R) (W:=W) (V:=V)).

Lemma do_exec_keeps {A} (m : Executor.M A) d : pres inv m → pres stored_ok m → daemon_ok d → daemon_ok (do_exec m d).
Proof. apply Commands.exec_keeps. Qed.

Lemma do_apps_keeps {A} (f : Apps.State R → W → A * Apps.State R * W) d :
  (∀ s w, Apps.state_ok s → Apps.state_ok (snd (fst (f s w)))) → daemon_ok d → daemon_ok (do_apps f d).
Proof. apply Commands.app_keeps. Qed.

Lemma fresh_keeps random logPath path user w v : daemon_ok (fresh c random logPath path user w v).
Proof.
  destruct (Commands.start_keeps (run_tunables random logPath c) (port (c_proxy c)) path w v) as (Hx & Ha & Hs & Hr).
  split; [exact Hx|]. split; [|by split]. destruct Ha as [[Ha1 Ha2] Ha3]. by split; [split|].
Qed.

Lemma recompute_keeps s w : Apps.state_ok s → Apps.state_ok (snd (fst (Apps.RecomputeAppTargets (Commands.home proc_) s w))).
Proof.
  intros Hs. pose proof (Apps.recompute_spec (Commands.home proc_) s w Hs) as Hk.
  destruct (Apps.RecomputeAppTargets _ s w) as [[e s'] w']. apply Hk.
Qed.

Lemma restore_autostart_keeps i d : daemon_ok d → daemon_ok (restore_autostart st i d).
Proof.
  intros Hd. unfold restore_autostart. destruct (LoadAutostartMode st _) as [am [e|]]; [done|].
  apply do_exec_keeps; [apply SetAutostartMode_pres|apply SetAutostartMode_stored|done].
Qed.

Lemma restore_sysproxy_keeps d : daemon_ok d → daemon_ok (restore_sysproxy proc_ st d).
Proof.
  intros Hd. unfold restore_sysproxy. destruct (LoadSysproxyConfig st _) as [data|e]; [|done]. apply Commands.sysproxy_keeps; [|done].
  unfold SysApi.RestoreSysProxyConfig. destruct (String.eqb _ ""); [apply Hd|]. destruct (SysConfig.ParseINI _) as [cfg|e]; [|apply Hd].
  destruct (SysManager.Restore _ cfg _) as [r m] eqn:Hm. cbn [snd]. eapply SysManager.Restore_server_ok, Hm. apply Hd.
Qed.

Lemma do_exec_world {A} (m : Executor.M A) d : Commands.world (do_exec m d) = Commands.world d.
Proof. unfold do_exec, Commands.exec_call. by destruct (m (Commands.exec d)). Qed.
Lemma restore_autostart_world i d : Commands.world (restore_autostart st i d) = Commands.world d.
Proof. unfold restore_autostart. destruct (LoadAutostartMode st _) as [am [e|]]; [done|apply do_exec_world]. Qed.
Lemma restore_sysproxy_world d : Commands.world (restore_sysproxy proc_ st d) = Commands.world d.
Proof. unfold restore_sysproxy. by destruct (LoadSysproxyConfig st _). Qed.

Lemma add_subscription_keeps i d u : daemon_ok d → daemon_ok (add_subscription reg c proc_ i d u).
Proof.
  intros Hd. unfold add_subscription. destruct (existsb _ _); [done|].
  apply do_exec_keeps; [apply AddSubscription_pres|apply AddSubscription_stored|done].
Qed.

(** The files are read, and none is written, before the lists are restored. *)
Lemma restore_lists_keep d : restorable (Commands.world d) → daemon_ok d → daemon_ok (restore_subscriptions st (restore_firewall st d)).
Proof.
  intros [Hss Hrs] Hd. assert (daemon_ok (restore_firewall st d)) as Hf.
  { unfold restore_firewall. destruct (LoadFirewallRules st _) as [rs|e]; [|done]. destruct (Hrs rs eq_refl) as [Hnd Hv].
    destruct Hd as [[Hi (H1' & H2' & _ & _ & H5')] Hd]. split; [split; [exact Hi|]|exact Hd]. by split_and!. }
  unfold restore_subscriptions. assert (Commands.world (restore_firewall st d) = Commands.world d) as ->.
  { unfold restore_firewall. by destruct (LoadFirewallRules st _). }
  destruct (LoadSubscriptions st _) as [ss|e]; [|done]. destruct (Hss ss eq_refl) as [Hnd Hv].
  destruct Hf as [[Hi (_ & _ & H3' & H4' & H5')] Hf]. split; [split; [exact Hi|]|exact Hf]. by split_and!.
Qed.

(** Where the targets of the extension are written, and nothing else is. *)
Definition restored_world (random : option string) (logPath path : string) (user : option Procproxy.LaunchUser) (w : W) (v : V) : W :=
  Commands.world (restore_targets proc_ (fresh c random logPath path user w v)).

Lemma prepare_keeps i random logPath path user w v : restorable (restored_world random logPath path user w v) →
  daemon_ok (prepare reg c proc_ st i random logPath path user w v).
Proof.
  intros Hw. unfold prepare. set (d0 := restore_subscriptions _ _).
  assert (daemon_ok d0) as H0'.
  { apply restore_lists_keep.
    - replace (Commands.world _) with (restored_world random logPath path user w v); [done|].
      unfold restored_world. by rewrite restore_sysproxy_world, restore_autostart_world.
    - apply restore_sysproxy_keeps, restore_autostart_keeps. apply do_apps_keeps; [apply recompute_keeps|apply fresh_keeps]. }
  generalize (subscriptions (c_keys c)) as us. intros us. revert H0'. generalize d0 as d. clear d0.
  induction us as [|u us IH]; intros d Hd; [done|]. by apply IH, add_subscription_keeps.
Qed.

Lemma boot_keeps i b d : daemon_ok d → daemon_ok (boot reg c i b d).
Proof.
  intros Hd. destruct b as [link| |n|n|]; cbn [boot].
  - unfold boot_load. destruct (negb (String.eqb link "")); [|destruct (negb _); [|done]];
      (apply do_exec_keeps; [| |done]); auto using LoadLink_pres, LoadLink_stored, Reload_stored. apply applyEffective_pres.
  - unfold boot_mode. destruct (requestedMode c) as [m|]; [destruct (String.eqb m "vpn")|destruct (String.eqb _ "off"); [done|]];
      (apply do_exec_keeps; [| |done]);
      auto using EnableVPN_pres, EnableVPN_stored, EnableProxy_pres, EnableProxy_stored, ApplyAutostart_pres, ApplyAutostart_stored.
  - apply do_apps_keeps; [|done]. intros s w. exact (Commands.op_keeps proc_ (Apps.ORoutePID n) s w).
  - apply do_apps_keeps; [|done]. intros s w Hs. pose proof (Commands.op_keeps proc_ (Apps.ORestart n) s w Hs) as Hk.
    unfold Apps.run_op in Hk. by destruct (Apps.RestartProxied n s w) as [[? ?] ?].
  - apply do_apps_keeps; [|done]. intros s w Hs. pose proof (Commands.op_keeps proc_ (Apps.OLaunch (launchArgv (c_proc c))) s w Hs) as Hk.
    unfold Apps.run_op in Hk. by destruct (Apps.LaunchProxied _ s w) as [[? ?] ?].
Qed.

(** ** A restart *)

(** The files hold what the executor [x] has stored. *)
Definition stored_by (x : Executor.Executor) (w : W) : Prop :=
  Load st w = Ok (TrimSpace (Join nl (Executor.manual x))) ∧ LoadAutostartMode st w = (Executor.AutostartMode x, None) ∧
  LoadSubscriptions st w = Ok (Executor.subs x) ∧ LoadFirewallRules st w = Ok (Executor.fwRules x).

(** The command line asks for nothing of its own. *)
Definition bare : Prop := keys (c_keys c) = [] ∧ subs (c_keys c) = [] ∧ requestedMode c = None.

Lemma autostart_mode_valid x : stored_ok x → Executor.AutostartMode x ∈ ["off"; "proxy"; "vpn"].
Proof.
  intros (_ & _ & _ & _ & Hm). unfold Executor.AutostartMode. destruct (String.eqb_spec (Executor.autostartMode x) ""); set_solver.
Qed.

Lemma prepare_exec i random logPath path user w v x : bare → stored_ok x → stored_by x (restored_world random logPath path user w v) →
  let d := prepare reg c proc_ st i random logPath path user w v in
  Commands.exec d = Executor.set_subs (Executor.subs x) (Executor.set_rules (Executor.fwRules x)
    (Executor.set_autostart (Executor.AutostartMode x) Executor.NewExecutor)) ∧
  Commands.world d = restored_world random logPath path user w v.
Proof.
  intros (_ & Hsubs & _) Hx (_ & Hm & Hs & Hr) d. unfold d, prepare, subscriptions. rewrite Hsubs. cbn [fmap list_fmap concat foldl].
  fold (restored_world random logPath path user w v) in *. set (d1 := restore_targets _ _) in *.
  assert (Commands.world d1 = restored_world random logPath path user w v) as Hw by reflexivity.
  assert (Commands.exec d1 = Executor.NewExecutor) as Hx1.
  { unfold d1, restore_targets, do_apps, Commands.app_call. by destruct (Apps.RecomputeAppTargets _ _ _) as [[? ?] ?]. }
  unfold restore_autostart. rewrite Hw, Hm. unfold do_exec, Commands.exec_call, Executor.SetAutostartMode.
  rewrite bool_decide_eq_true_2 by (by apply autostart_mode_valid). unfold Executor.mbind, Executor.modify, Executor.ret. cbn [snd fst].
  set (d2 := Commands.with_exec _ d1). assert (Commands.world d2 = Commands.world d1) as Hw2 by reflexivity.
  unfold restore_subscriptions, restore_firewall. rewrite !restore_sysproxy_world, Hw2, Hw, Hr.
  assert (∀ (m : Executor.M unit) d, Commands.world (do_exec m d) = Commands.world d) as Hdw by (intros; apply do_exec_world).
  rewrite Hdw, restore_sysproxy_world, Hw2, Hw, Hs. split; [|by rewrite !Hdw, restore_sysproxy_world, Hw2, Hw].
  unfold do_exec, Commands.exec_call, Executor.RestoreSubscriptions, Executor.RestoreFirewallRules, Executor.modify. cbn.
  unfold restore_sysproxy. destruct (LoadSysproxyConfig st _); cbn; by rewrite Hx1.
Qed.

(** The keys, parsed again from the text they are saved as. *)
Definition reloads (ks : list string) : Prop :=
  ks = [] ∨ ∃ ps, Registry.ParseAll reg [TrimSpace (Join nl ks)] = Ok ps ∧ Registry.Raw <$> ps = ks.

(** Keys that the saved text keeps apart: plain links, which no sniffer of
    configurations claims, each of which parses, alone, to a profile of just
    that link. *)
Definition plain_links (ks : list string) : Prop :=
  ks = [] ∨
  (Forall (Registry.clean_link (Registry.link_schemes reg)) ks ∧ Forall (λ l, Registry.isWholeConfig reg l = false) (Join nl ks :: ks) ∧
   ∃ ps, Registry.ParseAll reg ks = Ok ps ∧ Registry.Raw <$> ps = ks).

Lemma ParseAll_trimmed t : Registry.ParseAll reg [TrimSpace t] = Registry.ParseAll reg [t].
Proof. unfold Registry.ParseAll. cbn [Registry.parse_raws]. by rewrite TrimSpace_idemp. Qed.

Lemma plain_links_reload (ms : list (Registry.Module_ P)) ks :
  Registry.NewRegistry ms = Ok reg → Forall (λ s, Registry.good_scheme s = true) (Registry.Registry_Schemes reg) →
  plain_links ks → reloads ks.
Proof.
  intros Hr Hg [->|(Hc & Hw & ps & Hp & Hraw)]; [by left|]. destruct (decide (ks = [])) as [->|Hne]; [by left|]. right. exists ps.
  rewrite ParseAll_trimmed. destruct (Registry.saved_links_reload ms reg ks Hr Hg Hc Hne Hw) as [_ ->]. done.
Qed.

Lemma ParseAll_blank : Registry.ParseAll reg [""] = Err Registry.ErrNoProfiles.
Proof. reflexivity. Qed.

Lemma effective_same (y : Executor.Executor) x : Executor.manual y = Executor.manual x → Executor.subs y = Executor.subs x →
  Executor.effectiveLinks y = Executor.effectiveLinks x.
Proof. intros Hm Hs. unfold Executor.effectiveLinks. by rewrite Hm, Hs. Qed.

(** What the load of the saved keys leaves: the sources and the keys in force,
    under a manager that runs nothing yet. *)
Lemma loaded_again i x y qs d : inv y → Commands.exec d = y →
  Executor.manual y = [] → Executor.subs y = Executor.subs x → Executor.x_loaded y = false →
  reloads (Executor.manual x) → Registry.ParseAll reg (Executor.effectiveLinks x) = Ok qs → Executor.effectiveLinks x ≠ [] →
  let z := Commands.exec (boot_load reg c i (TrimSpace (Join nl (Executor.manual x))) d) in
  inv z ∧ Executor.manual z = Executor.manual x ∧ Executor.subs z = Executor.subs x ∧ Executor.fwRules z = Executor.fwRules y ∧
  Executor.autostartMode z = Executor.autostartMode y ∧ Executor.lastCisco z = Executor.lastCisco y ∧
  Executor.x_loaded z = true ∧ Executor.links z = Registry.Raw <$> qs ∧ Runtime.mgr (Executor.x_world z) = Runtime.NewManager.
Proof.
  intros Hi Hd Hman Hsub Hl Hre Hq Hne.
  set (env := Commands.env i). set (save := negb (noSave (c_keys c))).
  assert (∀ y1, inv y1 → sources y1 = (Executor.manual x, Executor.subs x, Executor.fwRules y, Executor.autostartMode y, Executor.lastCisco y) →
    let z := (Executor.applyEffective reg env save y1).2 in
    inv z ∧ Executor.manual z = Executor.manual x ∧ Executor.subs z = Executor.subs x ∧ Executor.fwRules z = Executor.fwRules y ∧
    Executor.autostartMode z = Executor.autostartMode y ∧ Executor.lastCisco z = Executor.lastCisco y ∧
    Executor.x_loaded z = true ∧ Executor.links z = Registry.Raw <$> qs ∧ Runtime.mgr (Executor.x_world z) = Runtime.NewManager) as Happly.
  { intros y1 Hi1 Hs1. assert (Executor.effectiveLinks y1 = Executor.effectiveLinks x) as He
      by (unfold sources in Hs1; injection Hs1 as Hm1 Hs1; by apply effective_same).
    pose proof (applyEffective_loads (reg:=reg) (env:=env) (save:=save) y1 qs) as Hload. rewrite He in Hload. specialize (Hload Hq Hne).
    destruct (Executor.applyEffective reg env save y1) as [r z] eqn:Ha. cbn [fst snd] in *. subst r.
    destruct (applyEffective_spec _ _ _ Ha Hi1) as (Hiz & Hsz & Hn & _). destruct (Hn eq_refl) as (Hrel & _ & Hnew).
    destruct Hrel as [(Hempty & _)|(ps & Hp & _ & Hlz & Hkz)]; [by rewrite He in Hempty|].
    rewrite He, Hq in Hp. injection Hp as <-. unfold sources in Hsz, Hs1. rewrite Hs1 in Hsz. injection Hsz as ? ? ? ? ?.
    split; [exact Hiz|]. by repeat split; auto. }
  unfold boot_load. destruct Hre as [Hnil|(ps & Hp & Hraw)].
  - rewrite Hnil. change (TrimSpace (Join nl [])) with "". cbn [String.eqb negb]. rewrite Hd, Hsub.
    rewrite bool_decide_eq_false_2.
    2:{ intros Hse. apply Hne. unfold Executor.effectiveLinks. by rewrite Hnil, Hse. }
    cbn [negb]. unfold do_exec, Commands.exec_call. rewrite Hd. specialize (Happly y Hi).
    unfold Executor.Reload. fold env save. destruct (Executor.applyEffective reg env save y) as [r z]. cbn in *. rewrite <- Hnil. apply Happly.
    unfold sources. by rewrite Hman, Hnil, Hsub.
  - destruct (String.eqb_spec (TrimSpace (Join nl (Executor.manual x))) "") as [Hb|_]; [by rewrite Hb, ParseAll_blank in Hp|]. cbn [negb].
    assert (Executor.LoadLink reg env save (TrimSpace (Join nl (Executor.manual x))) y =
      Executor.applyEffective reg env save (Executor.set_keys (Executor.links y) (Registry.Raw <$> ps) y)) as Hll
      by (unfold Executor.LoadLink; by rewrite Hp).
    unfold do_exec, Commands.exec_call. fold env save. rewrite Hd, Hll.
    specialize (Happly (Executor.set_keys (Executor.links y) (Registry.Raw <$> ps) y)).
    destruct (Executor.applyEffective reg env save (Executor.set_keys (Executor.links y) (Registry.Raw <$> ps) y)) as [r z].
    cbn [Commands.exec Commands.with_exec snd] in *. apply Happly.
    + destruct Hi as [Hok Hlive]. by split.
    + unfold sources. cbn. by rewrite Hraw, Hsub.
Qed.

(** C2: What a user configured survives a restart.  When the files hold what an
    executor has stored, its manual keys are plain links and the keys in force
    parse, a process started with nothing on its command line (no keys, no
    subscriptions, no mode) has the same manual keys, subscriptions, firewall
    rules and autostart mode, and its manager is loaded with exactly the keys
    that were in force; it runs the mode of autostart when that could be
    enabled, and nothing at all otherwise, without ending.  The registry is one
    that [NewRegistry] built over schemes of letters, digits and [+-.]. *)
Theorem restart_restores (i : Commands.Inputs E) (random : option string) (logPath path : string) (user : option Procproxy.LaunchUser)
    (w : W) (v : V) (x : Executor.Executor) (qs : list (Registry.Profile P)) (ms : list (Registry.Module_ P)) :
  Registry.NewRegistry ms = Ok reg → Forall (λ s, Registry.good_scheme s = true) (Registry.Registry_Schemes reg) →
  bare → stored_ok x → stored_by x (restored_world random logPath path user w v) →
  plain_links (Executor.manual x) → Registry.ParseAll reg (Executor.effectiveLinks x) = Ok qs →
  let d0 := prepare reg c proc_ st i random logPath path user w v in
  let d1 := boot reg c i (BootLoad (initial_link c st d0)) d0 in
  let y := Commands.exec (boot reg c i BootMode d1) in
  Executor.manual y = Executor.manual x ∧ Executor.subs y = Executor.subs x ∧ Executor.fwRules y = Executor.fwRules x ∧
  Executor.AutostartMode y = Executor.AutostartMode x ∧ Executor.links y = Registry.Raw <$> qs ∧
  match fst (Executor.ApplyAutostart (Commands.env i) (Commands.clash d1) (Commands.exec d1)) with
  | None => Executor.StateLabel y = Executor.AutostartMode x
  | Some _ => Executor.StateLabel y = "off" ∧ Runtime.live (Executor.x_world y) = ∅
  end.
Proof.
  intros Hreg Hgood Hbare Hx Hfiles Hplain Hq d0 d1 y. pose proof (plain_links_reload ms _ Hreg Hgood Hplain) as Hre. destruct (prepare_exec i random logPath path user w v x Hbare Hx Hfiles) as [He Hw]. fold d0 in He, Hw.
  assert (Executor.effectiveLinks x ≠ []) as Hne by (intros Hn; by rewrite Hn in Hq).
  assert (initial_link c st d0 = TrimSpace (Join nl (Executor.manual x))) as Hlink.
  { destruct Hbare as (Hk & _). unfold initial_link, combined. rewrite Hk. change (TrimSpace (Join nl [])) with "". cbn [String.eqb].
    unfold saved_link. rewrite Hw. destruct Hfiles as [-> _]. done. }
  pose proof (loaded_again i x (Commands.exec d0) qs d0) as Hl. cbv zeta in Hl.
  destruct Hl as (Hi & Hman & Hsub & Hrul & Hauto & Hcis & Hload & Hlinks & Hmgr); try done; try (by rewrite He).
  rewrite He in Hrul, Hauto, Hcis. cbn in Hrul, Hauto, Hcis.
  assert (Commands.exec d1 = Commands.exec (boot_load reg c i (TrimSpace (Join nl (Executor.manual x))) d0)) as Hd1
    by (unfold d1; by rewrite Hlink).
  rewrite <- Hd1 in *. clear Hd1. set (z := Commands.exec d1) in *.
  assert (Executor.AutostartMode z = Executor.AutostartMode x) as Hmode.
  { unfold Executor.AutostartMode at 1. rewrite Hauto. pose proof (autostart_mode_valid x Hx) as Hv.
    destruct (String.eqb_spec (Executor.AutostartMode x) "") as [Hb|_]; [rewrite Hb in Hv; set_solver|done]. }
  assert (config y = config z ∧ (y = snd (Executor.ApplyAutostart (Commands.env i) (Commands.clash d1) z))) as [Hc Hy].
  { unfold y. destruct Hbare as (_ & _ & Hreq). cbn [boot]. unfold boot_mode. rewrite Hreq. fold z.
    pose proof (ApplyAutostart_config (env:=Commands.env i) (clash:=Commands.clash d1) (config z) z eq_refl) as Hc.
    destruct (String.eqb_spec (Executor.AutostartMode z) "off") as [Hoff|_].
    - split; [done|]. unfold Executor.ApplyAutostart, Executor.mbind, Executor.get. by rewrite Hoff.
    - unfold do_exec, Commands.exec_call. fold z. destruct (Executor.ApplyAutostart _ _ z) as [r z']. by split. }
  destruct (config_sources _ _ Hc) as [Hs Hk]. unfold sources in Hs. injection Hs as Hm1 Hs1 Hr1 Ha1 _.
  split; [congruence|]. split; [congruence|]. split; [congruence|].
  split; [unfold Executor.AutostartMode in *; by rewrite Ha1|]. split; [congruence|].
  pose proof (autostart_all_or_nothing (Commands.env i) (Commands.clash d1) z) as Hall.
  destruct (Executor.ApplyAutostart (Commands.env i) (Commands.clash d1) z) as [r z'] eqn:Hz. cbn [fst snd] in *. subst z'.
  specialize (Hall y r Hi eq_refl). destruct r as [e|].
  - destruct Hall as (e' & _ & Hoff & Hlive & _). by split.
  - destruct Hall as (Hvpn & Hproxy & Hnone). rewrite Hmode in *. pose proof (autostart_mode_valid x Hx) as Hv.
    assert (Executor.AutostartMode x = "off" ∨ Executor.AutostartMode x = "proxy" ∨ Executor.AutostartMode x = "vpn") as [Hv'|[Hv'|Hv']] by set_solver.
    + rewrite (Hnone ltac:(by rewrite Hv') ltac:(by rewrite Hv')), Hv'. unfold Executor.StateLabel, Executor.mgr_state. rewrite Hload, Hmgr. done.
    + rewrite Hv'. apply Hproxy; [by right|done].
    + rewrite Hv'. by apply Hvpn.
Qed.

(** A process is sound from its command line on, as long as what happens to it
    happens one at a time.  For every command line, every content of the files
    that a run can have stored ([restorable]), and every sequence of the start's
    own steps, clients' lines, the monitor's events and the output of children,
    each served to its end before the next, with any answers of the cores, the
    fetcher, the savers, the files and the system: the executor's invariants
    hold (the live cores are the manager's, a forwarder runs exactly in the
    reported state vpn, what is stored is well-formed), so do the books of the
    applications and of their store, at most one listener serves the script of
    the system proxy, and the console holds no more than its two thousand
    lines.  Lines of different connections that overlap are not covered:
    [RuntimeConc.overlapping_starts_leak_a_core] and
    [AppStore.save_race_loses_an_app] say what can go wrong then. *)
Theorem process_stays_sound (api_text : ClashApi.ApiError → string) (error_text : Commands.CmdError E → string)
    (i : Commands.Inputs E) (random : option string) (logPath path : string) (user : option Procproxy.LaunchUser) (w : W) (v : V)
    (hs : list (Happening (E:=E))) :
  restorable (restored_world random logPath path user w v) →
  let d := foldl (happen reg c proc_ api_text error_text) (prepare reg c proc_ st i random logPath path user w v) hs in
  sound (Commands.exec d) ∧ Apps.state_ok (Commands.apps d) ∧
  (size (SysManager.live (SysManager.proc (SysApi.mgr (Commands.sysp d)))) <= 1)%nat ∧
  (length (Console.consoleLog (Commands.ring d)) <= Console.consoleRingMax)%nat.
Proof.
  intros Hw d. apply Commands.daemon_ok_sound. unfold d. pose proof (prepare_keeps i random logPath path user w v Hw) as Hd.
  revert Hd. generalize (prepare reg c proc_ st i random logPath path user w v) as d0. clear d.
  induction hs as [|h hs IH]; intros d0 Hd; [done|]. apply IH. destruct h as [i' b|ev]; [by apply boot_keeps|by apply Commands.step_keeps].
Qed.
End facts.

(** ** Other facts of the start *)

(** Only other processes on the asked ports are named, each once in its own
    list: those to stop are called singctl, the others are left alone. *)
Lemma portHolders_spec `{GoUnicode} (self : Z) (rows : list Proclist.App) (ports : list Z) :
  let own a := Contains (ToLower (Proclist.aName a)) "singctl" = true in
  let held := filter (λ a, (Proclist.aPID a =? self)%Z || negb (anyPortIn (Proclist.aPorts a) ports) = false) rows in
  portHolders self (Ok rows) ports = (Proclist.aPID <$> filter own held, filter (λ a, ¬ own a) held).
Proof.
  intros own held. unfold portHolders, held.
  induction rows as [|a rows IH] using rev_ind; [done|]. rewrite foldl_app, IH, !filter_app. cbn [foldl].
  destruct ((Proclist.aPID a =? self)%Z || negb (anyPortIn (Proclist.aPorts a) ports)) eqn:Hh.
  - rewrite (filter_cons_False _ a), filter_nil by (by rewrite Hh). by rewrite ?filter_app, ?filter_nil, ?fmap_app, ?app_nil_r.
  - rewrite (filter_cons_True _ a), filter_nil by done. rewrite ?filter_app, ?fmap_app.
    destruct (Contains (ToLower (Proclist.aName a)) "singctl") eqn:Hc.
    + rewrite (filter_cons_True own a), (filter_cons_False (λ a, ¬ own a) a), ?filter_nil by (unfold own; rewrite Hc; tauto). by rewrite app_nil_r.
    + rewrite (filter_cons_False own a), (filter_cons_True (λ a, ¬ own a) a), ?filter_nil by (unfold own; rewrite Hc; done). by rewrite app_nil_r.
Qed.

(** A detached child runs its own cores, a live instance or not. *)
Lemma child_runs_in_foreground goos alive c :
  headless (c_proxy c) = true → daemon (c_proxy c) = false → c_root c = c_root new_cli → c_ctl c = c_ctl new_cli →
  invocation goos 0 alive true c = Foreground.
Proof.
  intros Hh Hd Hr Hc. unfold invocation, decideStartup, requireRoot. rewrite Hr, Hc, Hh, Hd. cbn. by rewrite orb_true_r.
Qed.

(** Without a port the HTTP proxy of the configuration listens on 2080, and the
    fetcher, like an attached client's router, is sent to 1081. *)
Lemma default_http_port_is_missed :
  Singbox.HTTP (Singbox.Ports_withDefaults {| Singbox.Socks := 0; Singbox.HTTP := 0 |}) = 2080%Z ∧
  fallback_proxy new_cli = "127.0.0.1:1081" ∧
  ∀ R inst, Procproxy.HTTPAddr (Remote.router_config (Remote.New (R:=R) inst 0)) = "127.0.0.1:1081".
Proof. split; [reflexivity|]. split; [reflexivity|]. reflexivity. Qed.

(** ** A run *)

Module Again.
#[export] Existing Instance Apps.Run.procs.
#[export] Existing Instance Apps.Run.approved.
#[export] Existing Instance Apps.Run.table.
#[export] Existing Instance Apps.Run.unicode.
#[export] Existing Instance Apps.Run.fold.
#[export] Existing Instance Apps.Run.router_ | 0.
#[export] Existing Instance Apps.Run.router_laws | 0.
#[export] Existing Instance SysManager.mac_tool.
#[export] Existing Instance SysManager.mac_manual.
#[export] Existing Instance SysManager.darwinNetworkSetup.
#[export] Existing Instance SysManager.darwin_laws.
#[export] Existing Instance SysManager.mac_sockets.
#[export] Existing Instance SysManager.mac_sockets_laws.
#[export] Existing Instance SysPac.plain_text.
#[export] Existing Instance quote_as_is.
#[export] Existing Instance Control.ascii_upper.
#[export] Existing Instance Selection.no_time.

Definition files : gmap string string := {[
  "/Users/a/.config/singctl/profile.txt" := "hy2://a" +:+ nl +:+ "hy2://b" +:+ nl; "/Users/a/.config/singctl/autostart-mode.txt" := "vpn" ]}.
Definition store_ : ProfileStore := NewStore "/Users/a" 501 20.
Definition mac : SysManager.Mac := {| SysManager.services := ∅; SysManager.faults := []; SysManager.busy := [] |}.
Definition line : cli := match parseCLI ["--headless"] with Ok c => c | Err _ => new_cli end.
Definition before_ : Executor.Executor :=
  Executor.set_autostart "vpn" (Executor.set_keys ["hy2://a"; "hy2://b"] ["hy2://a"; "hy2://b"] Executor.NewExecutor).
Definition prepared := prepare (R:=Darwin) (W:=gmap string string) (V:=SysManager.Mac) Registry.rw_registry line Remote.Run.process store_
  Remote.Run.answers None "/log" "/c/apps.json" None files mac.
Definition booted := boot Registry.rw_registry line Remote.Run.answers BootMode
  (boot Registry.rw_registry line Remote.Run.answers (BootLoad (initial_link line store_ prepared)) prepared).
Definition profiles : list (Registry.Profile string) :=
  match Registry.ParseAll Registry.rw_registry ["hy2://a"; "hy2://b"] with Ok ps => ps | Err _ => [] end.
End Again.
Import Again.

Lemma restart_restores_witness :
  Executor.links (Commands.exec booted) = ["hy2://a"; "hy2://b"] ∧ Executor.StateLabel (Commands.exec booted) = "vpn".
Proof.
  destruct (restart_restores Registry.rw_registry line Remote.Run.process store_ Remote.Run.answers None "/log" "/c/apps.json" None files mac
    before_ profiles Registry.rw_modules) as (_ & _ & _ & _ & Hl & Hm).
  - exact Registry.rw_new.
  - vm_compute. repeat constructor.
  - split; [vm_compute; reflexivity|]. split; vm_compute; reflexivity.
  - split; [constructor|]. split; [constructor|]. split; [constructor|]. split; [constructor|]. vm_compute. right. right. right. left.
  - split; [vm_compute; reflexivity|]. split; [vm_compute; reflexivity|]. split; vm_compute; reflexivity.
  - right. split; [|split; [|exists profiles; split; vm_compute; reflexivity]].
    + repeat (constructor; [vm_compute; repeat split; lia|]). constructor.
    + vm_compute. repeat constructor.
  - vm_compute. reflexivity.
  - split; [exact Hl|].
    match type of Hm with match fst ?t with _ => _ end => assert (fst t = None) as He by (vm_compute; reflexivity); rewrite He in Hm end.
    exact Hm.
Defined.

Definition happenings : list (Happening (E:=string)) := [
  Booting Remote.Run.answers (BootLoad "hy2://a"); Served (Commands.Line Remote.Run.answers ("MODE vpn" +:+ nl)); Booting Remote.Run.answers BootMode;
  Served (Commands.Line Remote.Run.answers ("KEYS-REMOVE 9" +:+ nl)); Served (Commands.Line Remote.Run.answers ("SETTINGS-SET {}" +:+ nl))].

Lemma process_stays_sound_witness :
  sound (Commands.exec (foldl (happen Registry.rw_registry line Remote.Run.process (λ _, "") Remote.Run.text) prepared happenings)).
Proof.
  apply (process_stays_sound Registry.rw_registry line Remote.Run.process store_ (λ _, "") Remote.Run.text Remote.Run.answers None "/log"
    "/c/apps.json" None files mac happenings).
  split; intros l Hl; vm_compute in Hl; injection Hl as <-; split; constructor.
Defined.

End Startup.
