(* ===== verification/Lifetime.v ===== *)
(** * Lifetime: one instance per configuration directory
    ([internal/control/lock_unix.go], [Spawn] of [internal/daemon/daemon_other.go],
    the course of [main] in [cmd/singctl/main.go])

    A process that runs its own cores holds a lock on a file of the
    configuration directory for its whole life; only under it does it take over
    the socket and the advertisement a dead process has left.  [--daemon] hands
    the lock to the process it starts.  Any number of such processes are
    interleaved, step by step, with processes that die at any moment, calls
    that fail, and applications launched by an instance: there is never more
    than one instance, what it has published stays its own ([one_instance]), and
    no crash keeps the next one from starting ([a_crash_never_blocks]).  Probing,
    recovering, listening and publishing are the definitions of Control, over
    files with the sockets that are listened on. *)

From S2P Require Import Prelude GoStr GoPath GoUrlFacts GoJson GoJsonData Store Control.
Import Json Data Store Control.

Local Open Scope string_scope.
Local Open Scope list_scope.

Module Lifetime.

(** ** Files and sockets *)

Inductive Entry := Socket (id : nat) | Data (text : string).

(** [trouble] is an error of every call that changes something or dials;
    [crowded] tells that a socket that is listened on refuses all the same, as
    some systems do when its queue is full. *)
Record Files := { entries : gmap string Entry; listeners : gset nat; nextId : nat; trouble : option string; crowded : bool }.

Definition with_entries (m : gmap string Entry) (f : Files) : Files := {|
  entries := m; listeners := listeners f; nextId := nextId f; trouble := trouble f; crowded := crowded f |}.

Definition files_node (p : string) (f : Files) : Node :=
  match entries f !! p with
  | None => Missing
  | Some (Socket i) => if bool_decide (i ∈ listeners f) then LiveSocket else DeadSocket
  | Some (Data _) => OtherFile
  end.
Definition files_dial (p : string) (f : Files) : DialResult :=
  match trouble f, files_node p f with
  | Some e, _ => ErrDial e
  | None, Missing => ErrNoent
  | None, LiveSocket => if crowded f then ErrRefused else Connected
  | None, _ => ErrRefused
  end.
Definition files_lstat (p : string) (f : Files) : result FsError bool :=
  match files_node p f with Missing => Err NotExist | OtherFile => Ok false | _ => Ok true end.
Definition files_listen (p : string) (f : Files) : option string * Files :=
  match trouble f, entries f !! p with
  | Some e, _ => (Some e, f)
  | None, Some _ => (Some "address already in use", f)
  | None, None => (None, {| entries := <[p := Socket (nextId f)]> (entries f); listeners := {[nextId f]} ∪ listeners f;
                            nextId := S (nextId f); trouble := None; crowded := crowded f |})
  end.
Definition files_unlink (p : string) (f : Files) : option FsError * Files :=
  match trouble f, entries f !! p with
  | Some e, _ => (Some (OtherError e), f)
  | None, None => (Some NotExist, f)
  | None, Some _ => (None, with_entries (delete p (entries f)) f)
  end.
Definition files_write (p data : string) (f : Files) : option FsError * Files :=
  match trouble f, entries f !! p with
  | Some e, _ => (Some (OtherError e), f)
  | None, Some (Socket _) => (Some (OtherError "open"), f)
  | None, _ => (None, with_entries (<[p := Data data]> (entries f)) f)
  end.
Definition files_read (p : string) (f : Files) : result FsError string :=
  match entries f !! p with Some (Data d) => Ok d | Some (Socket _) => Err (OtherError "open") | None => Err NotExist end.
Definition files_rename (a b : string) (f : Files) : option FsError * Files :=
  match trouble f, entries f !! a with
  | Some e, _ => (Some (OtherError e), f)
  | None, None => (Some NotExist, f)
  | None, Some d => (None, with_entries (<[b := d]> (delete a (entries f))) f)
  end.

#[export] Instance files_Sockets : Sockets Files := {|
  dial := files_dial; lstat_is_socket := files_lstat; listen := files_listen; unlink := files_unlink; node := files_node |}.
#[export] Instance files_FS : FS Files := {|
  MkdirAll := λ _ _ f, (None, f); WriteFile := λ p d _ f, files_write p d f; ReadFile := files_read;
  Chown := λ _ _ _ f, (None, f); Remove := files_unlink; Rename := files_rename |}.

(** The files keep the laws of Store. *)
#[export] Instance files_FSLaws : FSLaws Files.
Proof.
  split; cbn; unfold files_write, files_read, files_unlink, files_rename; try done.
  - intros p d _ f. destruct (trouble f); [done|].
    destruct (entries f !! p) as [[?|?]|]; cbn; intros ?; try done; by rewrite lookup_insert_eq.
  - intros p d _ f n Hn. destruct (trouble f); [done|].
    destruct (entries f !! p) as [[?|?]|]; cbn; try done; by rewrite lookup_insert_ne.
  - intros p f. destruct (trouble f); [by intros [?|?]|]. destruct (entries f !! p) eqn:He; cbn; intros _; [by rewrite lookup_delete_eq|by rewrite He].
  - intros p f n Hn. destruct (trouble f); [done|]. destruct (entries f !! p); cbn; [by rewrite lookup_delete_ne|done].
  - intros a b f. destruct (trouble f); [done|]. destruct (entries f !! a) eqn:He; [|done]. cbn. intros _. by rewrite lookup_insert_eq.
  - intros a b f n Ha Hb. destruct (trouble f); [done|]. destruct (entries f !! a) eqn:He; [|done]. cbn in *.
    destruct Hb as [Hb|Hb]; [|done]. by rewrite lookup_insert_ne, lookup_delete_ne by done.
Qed.

(** ** Processes *)

(** [main], from the lock on: recovering, what is restored, and either the
    start of the detached process or the socket, the advertisement, serving,
    and the deferred calls; [App] is a process an instance has launched. *)
Inductive Stage :=
  | Locking | Probing | Unlinking | Unadvertising | Ready | Waiting
  | Reprobing | Reclaiming | Relistening | Advertising | Undoing
  | Serving | Retracting | Closing | Releasing | App.
Inductive Role := Foreground | Detaching.

#[export] Instance Stage_eq_dec : EqDecision Stage.
Proof. solve_decision. Defined.
#[export] Instance Role_eq_dec : EqDecision Role.
Proof. solve_decision. Defined.

(** The lock's descriptor is an open file description; a process that was told
    of a descriptor adopts it. *)
Record Proc := {
  stage : Stage;
  role : Role;
  told : bool;
  lockfd : option nat;
  cloexec : bool;
  listener : option nat;
  advert : Instance_;
  tmp : string
}.

Definition at_stage (st : Stage) (pr : Proc) : Proc := {|
  stage := st; role := role pr; told := told pr; lockfd := lockfd pr; cloexec := cloexec pr; listener := listener pr;
  advert := advert pr; tmp := tmp pr |}.
Definition locked_by (o : nat) (pr : Proc) : Proc := {|
  stage := Probing; role := role pr; told := told pr; lockfd := Some o; cloexec := true; listener := listener pr;
  advert := advert pr; tmp := tmp pr |}.
Definition with_listener (st : Stage) (l : option nat) (pr : Proc) : Proc := {|
  stage := st; role := role pr; told := told pr; lockfd := lockfd pr; cloexec := cloexec pr; listener := l;
  advert := advert pr; tmp := tmp pr |}.

(** [flock]: the description that has the lock. *)
Record Sys := { procs : gmap Z Proc; flock : option nat; next_ofd : nat; fs : Files }.

Definition put (p : Z) (pr : Proc) (f : Files) (s : Sys) : Sys := {|
  procs := <[p := pr]> (procs s); flock := flock s; next_ofd := next_ofd s; fs := f |}.

Definition deaf (l : option nat) (f : Files) : Files := {|
  entries := entries f; listeners := (match l with Some i => listeners f ∖ {[i]} | None => listeners f end);
  nextId := nextId f; trouble := trouble f; crowded := crowded f |}.

(** The end of a process, expected or not: the kernel closes its descriptors.
    A lock is released when no descriptor of its description is left. *)
Definition still_open (o : nat) (ps : gmap Z Proc) : bool := existsb (λ kv, bool_decide (lockfd kv.2 = Some o)) (map_to_list ps).
Definition gone (p : Z) (s : Sys) : Sys :=
  let rest := delete p (procs s) in
  {| procs := rest;
     flock := (match flock s with Some o => if still_open o rest then Some o else None | None => None end);
     next_ofd := next_ofd s;
     fs := deaf (pr ← procs s !! p; listener pr) (fs s) |}.

Section dir.
Context (dir : string).

(** [AcquireInstanceLock]: a new description; [AdoptInstanceLock]: the one
    inherited, which must be of the lock file. *)
Definition AcquireInstanceLock (p : Z) (pr : Proc) (s : Sys) : Sys :=
  match trouble (fs s), flock s with
  | None, None =>
      {| procs := <[p := locked_by (next_ofd s) pr]> (procs s); flock := Some (next_ofd s); next_ofd := S (next_ofd s); fs := fs s |}
  | _, _ => gone p s
  end.
Definition AdoptInstanceLock (p : Z) (pr : Proc) (s : Sys) : Sys :=
  match lockfd pr, flock s with
  | Some o, Some o' => if (o =? o')%nat then put p (locked_by o pr) (fs s) s else gone p s
  | Some o, None => {| procs := <[p := locked_by o pr]> (procs s); flock := Some o; next_ofd := next_ofd s; fs := fs s |}
  | None, _ => gone p s
  end.

(** A removal of [RecoverState]. *)
Definition recover_step (p : Z) (pr : Proc) (path : string) (next : Stage) (s : Sys) : Sys :=
  match unlink path (fs s) with
  | (Some (OtherError _), _) => gone p s
  | (_, f) => put p (at_stage next pr) f s
  end.

Definition listen_step (p : Z) (pr : Proc) (s : Sys) (fails : Sys) : Sys :=
  match listen (SocketPath dir) (fs s) with
  | (None, f) => put p (with_listener Advertising (Some (nextId (fs s))) pr) f s
  | (Some _, _) => fails
  end.

(** [Server.Close] *)
Definition close_server (pr : Proc) (f : Files) : Files := snd (Control.Close (SocketPath dir) None (deaf (listener pr) f)).

(** The next step of a process; [None] when it waits for something else. *)
Definition go (p : Z) (s : Sys) : option Sys :=
  pr ← procs s !! p;
  match stage pr with
  | Locking => Some (if told pr then AdoptInstanceLock p pr s else AcquireInstanceLock p pr s)
  | Probing => Some (match SocketProbe (SocketPath dir) (fs s) with None => put p (at_stage Unlinking pr) (fs s) s | Some _ => gone p s end)
  | Unlinking => Some (recover_step p pr (SocketPath dir) Unadvertising s)
  | Unadvertising => Some (recover_step p pr (InstancePath dir) Ready s)
  | Ready => if decide (role pr = Foreground) then Some (listen_step p pr s (put p (at_stage Reprobing pr) (fs s) s)) else None
  | Reprobing => Some (match SocketProbe (SocketPath dir) (fs s) with None => put p (at_stage Reclaiming pr) (fs s) s | Some _ => gone p s end)
  | Reclaiming => Some (put p (at_stage Relistening pr) (snd (unlink (SocketPath dir) (fs s))) s)
  | Relistening => Some (listen_step p pr s (gone p s))
  | Advertising =>
      Some (match WriteInstance (Ok (tmp pr)) None None dir (advert pr) (fs s) with
            | (None, f) => put p (at_stage Serving pr) f s
            | (Some _, f) => put p (at_stage Undoing pr) f s
            end)
  | Undoing => Some (gone p (put p (with_listener Releasing None pr) (close_server pr (fs s)) s))
  | Retracting => Some (put p (at_stage Closing pr) (RemoveInstance dir (fs s)) s)
  | Closing => Some (put p (with_listener Releasing None pr) (close_server pr (fs s)) s)
  | Releasing | Waiting => Some (gone p s)
  | Serving | App => None
  end.

Definition new_proc (st : Stage) (r : Role) (t : bool) (l : option nat) (c : bool) (i : Instance_) (tmp_ : string) : Proc := {|
  stage := st; role := r; told := t; lockfd := l; cloexec := c; listener := None; advert := i; tmp := tmp_ |}.

Inductive Event :=
  | Exec (p : Z) (r : Role) (leaked : bool) (i : Instance_) (t : string)   (* a user starts one; [leaked]: told of a descriptor it has not *)
  | Go (p : Z)
  | Fork (p c : Z) (i : Instance_) (t : string)                           (* [Spawn], with the lock *)
  | Launch (p a : Z)                                                       (* an instance launches an application *)
  | Halt (p : Z)                                                           (* a signal, or STOP *)
  | Kill (p : Z)
  | Trouble (e : option string) (crowd : bool).

Definition step (s : Sys) (e : Event) : option Sys :=
  match e with
  | Exec p r leaked i t =>
      match procs s !! p with Some _ => None | None => Some (put p (new_proc Locking r leaked None true i t) (fs s) s) end
  | Go p => go p s
  | Fork p c i t =>
      pr ← procs s !! p;
      match stage pr, role pr, procs s !! c with
      | Ready, Detaching, None =>
          Some (put c (new_proc Locking Foreground true (lockfd pr) false i t) (fs s) (put p (at_stage Waiting pr) (fs s) s))
      | _, _, _ => None
      end
  | Launch p a =>
      pr ← procs s !! p;
      match stage pr, procs s !! a with
      | Serving, None => Some (put a (new_proc App Foreground false (if cloexec pr then None else lockfd pr) true (advert pr) "") (fs s) s)
      | _, _ => None
      end
  | Halt p => pr ← procs s !! p; if decide (stage pr = Serving) then Some (put p (at_stage Retracting pr) (fs s) s) else None
  | Kill p => match procs s !! p with Some _ => Some (gone p s) | None => None end
  | Trouble e crowd => Some {| procs := procs s; flock := flock s; next_ofd := next_ofd s;
                         fs := {| entries := entries (fs s); listeners := listeners (fs s); nextId := nextId (fs s); trouble := e; crowded := crowd |} |}
  end.

Fixpoint run (s : Sys) (es : list Event) : option Sys :=
  match es with [] => Some s | e :: es => s' ← step s e; run s' es end.

Definition boot (f : Files) : Sys := {| procs := ∅; flock := None; next_ofd := 0; fs := f |}.

(** ** The invariant *)

(** Stages at which a process acts on the directory, and at which it listens. *)
Definition owns (st : Stage) : bool := match st with Locking | Waiting | App => false | _ => true end.
Definition listening (st : Stage) : bool := match st with Advertising | Undoing | Serving | Retracting | Closing => true | _ => false end.

Definition proc_ok (p : Z) (pr : Proc) : Prop :=
  instance_valid (advert pr) ∧ tmp pr ≠ InstancePath dir ∧ tmp pr ≠ SocketPath dir ∧ i_PID (advert pr) = p.
Definition ev_ok (e : Event) : Prop :=
  match e with
  | Exec p _ _ i t | Fork _ p i t => instance_valid i ∧ t ≠ InstancePath dir ∧ t ≠ SocketPath dir ∧ i_PID i = p
  | _ => True
  end.

(** What holds of one process, given the lock and the files. *)
Record well (s : Sys) (p : Z) (pr : Proc) : Prop := {
  w_fd : ∀ o, lockfd pr = Some o → flock s = Some o;
  w_owns : owns (stage pr) = true ∨ stage pr = Waiting → is_Some (lockfd pr) ∧ cloexec pr = true;
  w_app : stage pr = App → lockfd pr = None;
  w_listens : listening (stage pr) = true ↔ is_Some (listener pr);
  w_socket : ∀ i, listener pr = Some i → i ∈ listeners (fs s) ∧ entries (fs s) !! SocketPath dir = Some (Socket i);
  w_advert : stage pr = Serving → ReadInstance dir (fs s) = Ok (advert pr);
  w_ok : stage pr ≠ App → proc_ok p pr
}.

Record inv (s : Sys) : Prop := {
  i_well : ∀ p pr, procs s !! p = Some pr → well s p pr;
  i_share : ∀ p q pr qr, p ≠ q → procs s !! p = Some pr → procs s !! q = Some qr →
    is_Some (lockfd pr) → is_Some (lockfd qr) → stage pr = Waiting ∨ stage qr = Waiting;
  i_held : ∀ o, flock s = Some o → ∃ p pr, procs s !! p = Some pr ∧ lockfd pr = Some o;
  i_owned : ∀ i, i ∈ listeners (fs s) → ∃ p pr, procs s !! p = Some pr ∧ listener pr = Some i;
  i_sock : ∀ d, entries (fs s) !! SocketPath dir ≠ Some (Data d)
}.

(** Beside a process that holds the lock and does not wait nobody acts. *)
Definition idle (pr : Proc) : Prop := owns (stage pr) = false ∧ listener pr = None ∧ (stage pr = Waiting ∨ lockfd pr = None).

Lemma alone s p pr : inv s → procs s !! p = Some pr → is_Some (lockfd pr) → stage pr ≠ Waiting →
  ∀ q qr, q ≠ p → procs s !! q = Some qr → idle qr.
Proof.
  intros Hi Hp Hl Hw q qr Hq Hqr. pose proof (i_well s Hi q qr Hqr) as Hwell.
  assert (stage qr = Waiting ∨ lockfd qr = None) as Hcase.
  { destruct (lockfd qr) as [o|] eqn:Hf; [|by right]. left.
    destruct (i_share s Hi p q pr qr) as [|]; [by apply not_eq_sym|done|done|done|by eexists|done|done]. }
  assert (owns (stage qr) = false) as Ho.
  { destruct Hcase as [->|Hn]; [done|]. destruct (owns (stage qr)) eqn:Ho; [|done].
    destruct (w_owns _ _ _ Hwell (or_introl Ho)) as [[? ?] _]. congruence. }
  split; [done|]. split; [|done]. destruct (listener qr) eqn:Hlq; [|done].
  assert (listening (stage qr) = true) as Hx by (apply (w_listens _ _ _ Hwell); by rewrite Hlq).
  by destruct (stage qr).
Qed.

(** A step of such a process that keeps its descriptor. *)
Lemma put_inv s p pr pr' f' : inv s → procs s !! p = Some pr → is_Some (lockfd pr) → stage pr ≠ Waiting →
  lockfd pr' = lockfd pr → cloexec pr' = true → stage pr' ≠ App → proc_ok p pr' →
  (listening (stage pr') = true ↔ is_Some (listener pr')) →
  (∀ i, i ∈ listeners f' ↔ listener pr' = Some i) →
  (∀ i, listener pr' = Some i → entries f' !! SocketPath dir = Some (Socket i)) →
  (∀ d, entries f' !! SocketPath dir ≠ Some (Data d)) →
  (stage pr' = Serving → ReadInstance dir f' = Ok (advert pr')) →
  inv (put p pr' f' s).
Proof.
  intros Hi Hp Hl Hw Hf Hc Ha Hok Hls Hlf Hso Hda Hadv. pose proof (alone s p pr Hi Hp Hl Hw) as Halone.
  split.
  - intros q qr. cbn [put procs]. rewrite lookup_insert_Some. intros [[<- <-]|[Hq Hqr]].
    + split; cbn [put flock fs]; try done.
      * intros o Ho. apply (w_fd _ _ _ (i_well s Hi p pr Hp)). congruence.
      * intros _. by rewrite Hf.
      * intros i Hx. split; [by apply Hlf|by apply Hso].
    + destruct (Halone q qr (not_eq_sym Hq) Hqr) as (Ho & Hln & _). destruct (i_well s Hi q qr Hqr) as [w1 w2 w3 w4 w5 w6 w7].
      split; cbn [put flock fs]; try done.
      * intros i. by rewrite Hln.
      * intros Hs. by rewrite Hs in Ho.
  - intros q1 q2 r1 r2 Hne. cbn [put procs]. rewrite !lookup_insert_Some.
    intros [[<- <-]|[H1 Hq1]] [[<- <-]|[H2 Hq2]]; rewrite ?Hf; [done|..].
    + intros _ Hl2. destruct (Halone q2 r2 (not_eq_sym H2) Hq2) as (_ & _ & [|Hn]); [by right|]. rewrite Hn in Hl2. by destruct Hl2.
    + intros Hl1 _. destruct (Halone q1 r1 (not_eq_sym H1) Hq1) as (_ & _ & [|Hn]); [by left|]. rewrite Hn in Hl1. by destruct Hl1.
    + by apply (i_share s Hi q1 q2).
  - cbn [put flock procs]. intros o Ho. destruct (i_held s Hi o Ho) as (q & qr & Hq & Hqo). destruct (decide (q = p)) as [->|Hne].
    + exists p, pr'. rewrite lookup_insert_eq. split; [done|]. rewrite Hf. congruence.
    + exists q, qr. by rewrite lookup_insert_ne by done.
  - cbn [put fs procs]. intros i Hin. exists p, pr'. rewrite lookup_insert_eq. split; [done|]. by apply Hlf.
  - done.
Qed.

(** *** The end of a process *)

Lemma still_open_true o ps : still_open o ps = true ↔ ∃ q qr, ps !! q = Some qr ∧ lockfd qr = Some o.
Proof.
  unfold still_open. rewrite existsb_exists. split.
  - intros ([q qr] & Hin%list_elem_of_In & He%bool_decide_eq_true). exists q, qr. by apply elem_of_map_to_list in Hin.
  - intros (q & qr & Hq & He). exists (q, qr). split; [by apply list_elem_of_In, elem_of_map_to_list|by apply bool_decide_eq_true].
Qed.

Lemma gone_inv s p : inv s → inv (gone p s).
Proof.
  intros Hi. unfold gone. set (l := pr ← procs s !! p; listener pr).
  assert (∀ q qr o, procs s !! q = Some qr → q ≠ p → lockfd qr = Some o → still_open o (delete p (procs s)) = true) as Hopen.
  { intros q qr o Hq Hne Ho. apply still_open_true. exists q, qr. by rewrite lookup_delete_ne by done. }
  assert (∀ q qr i, procs s !! q = Some qr → q ≠ p → listener qr = Some i → l ≠ Some i) as Hkeep.
  { intros q qr i Hq Hne Hli Hx. unfold l in Hx. apply bind_Some in Hx as (pr & Hp & Hpi).
    pose proof (i_well s Hi p pr Hp) as Wp. pose proof (i_well s Hi q qr Hq) as Wq.
    assert (owns (stage pr) = true) as Ho.
    { assert (listening (stage pr) = true) as Hs by (apply (w_listens _ _ _ Wp); by rewrite Hpi). by destruct (stage pr). }
    destruct (w_owns _ _ _ Wp (or_introl Ho)) as [Hl _].
    destruct (alone s p pr Hi Hp Hl ltac:(by intros Hw; rewrite Hw in Ho) q qr Hne Hq) as (_ & Hn & _). congruence. }
  assert (∀ q qr i, procs s !! q = Some qr → q ≠ p → listener qr = Some i → i ∈ listeners (deaf l (fs s))) as Hin.
  { intros q qr i Hq Hne Hli. destruct (w_socket _ _ _ (i_well s Hi q qr Hq) i Hli) as [Hin _].
    pose proof (Hkeep q qr i Hq Hne Hli) as Hn. unfold deaf. cbn [listeners]. destruct l as [j|]; [|done].
    apply elem_of_difference. split; [done|]. rewrite elem_of_singleton. congruence. }
  split.
  - intros q qr. cbn [procs]. rewrite lookup_delete_Some. intros [Hne Hq].
    destruct (i_well s Hi q qr Hq) as [w1 w2 w3 w4 w5 w6 w7]. split; cbn [flock fs]; try done.
    + intros o Ho. rewrite (w1 o Ho). by rewrite (Hopen q qr o Hq (not_eq_sym Hne) Ho).
    + intros i Hli. split; [by apply (Hin q qr)|]. by apply w5.
  - intros q1 q2 r1 r2 Hn. cbn [procs]. rewrite !lookup_delete_Some. intros [_ H1] [_ H2]. by apply (i_share s Hi q1 q2).
  - cbn [flock procs]. intros o. destruct (flock s) as [o'|]; [|done].
    destruct (still_open o' _) eqn:Ho; [|done]. intros [= ->]. by apply still_open_true.
  - cbn [fs procs]. intros i. unfold deaf. cbn [listeners]. intros Hil.
    assert (i ∈ listeners (fs s)) as Hi0 by (destruct l; [by apply elem_of_difference in Hil as [? _]|done]).
    destruct (i_owned s Hi i Hi0) as (q & qr & Hq & Hqi). exists q, qr. split; [|done]. rewrite lookup_delete_ne; [done|].
    intros <-. assert (l = Some i) as Hl by (unfold l; by rewrite Hq). rewrite Hl in Hil.
    apply elem_of_difference in Hil as [_ Hx]. apply Hx. by apply elem_of_singleton.
  - cbn [fs]. unfold deaf. cbn [entries]. apply (i_sock s Hi).
Qed.

(** *** The steps of a process *)

Lemma sock_advert : SocketPath dir ≠ InstancePath dir.
Proof. unfold SocketPath, InstancePath. intros H%Path.JoinPath_inj; done. Qed.

Lemma unlink_spec p f : let f' := snd (files_unlink p f) in
  listeners f' = listeners f ∧ (∀ q, q ≠ p → entries f' !! q = entries f !! q) ∧
  (entries f' !! p = None ∨ entries f' !! p = entries f !! p).
Proof.
  unfold files_unlink. destruct (trouble f); [by auto|]. destruct (entries f !! p) eqn:He; cbn; [|auto].
  split; [done|]. split; [intros q Hq; by rewrite lookup_delete_ne|]. left. by rewrite lookup_delete_eq.
Qed.

Lemma WriteInstance_spec t i f : instance_valid i → t ≠ InstancePath dir → t ≠ SocketPath dir →
  let '(r, f') := WriteInstance (Ok t) None None dir i f in
  listeners f' = listeners f ∧ entries f' !! SocketPath dir = entries f !! SocketPath dir ∧ (r = None → ReadInstance dir f' = Ok i).
Proof.
  intros Hv Ht Hts. pose proof (advertisement_is_atomic t dir None None i f Hv Ht) as Ha.
  destruct (WriteInstance (Ok t) None None dir i f) as [r f'] eqn:Hw. destruct Ha as [Ha _].
  assert (listeners f' = listeners f ∧ entries f' !! SocketPath dir = entries f !! SocketPath dir) as [Hl He]; [|done].
  clear Ha. pose proof sock_advert as Hsa. unfold WriteInstance in Hw. cbn in Hw.
  assert (∀ g, listeners (snd (files_unlink t g)) = listeners g ∧ entries (snd (files_unlink t g)) !! SocketPath dir = entries g !! SocketPath dir) as Hrm.
  { intros g. destruct (unlink_spec t g) as (H1 & H2 & _). split; [done|]. by apply H2, not_eq_sym. }
  assert (∀ g, listeners (snd (files_rename t (InstancePath dir) g)) = listeners g ∧
               entries (snd (files_rename t (InstancePath dir) g)) !! SocketPath dir = entries g !! SocketPath dir) as Hrn.
  { intros g. unfold files_rename. destruct (trouble g); [done|]. destruct (entries g !! t); [|done]. cbn.
    by rewrite lookup_insert_ne, lookup_delete_ne by congruence. }
  assert (∀ d g, listeners (snd (files_write t d g)) = listeners g ∧
                 entries (snd (files_write t d g)) !! SocketPath dir = entries g !! SocketPath dir) as Hwr.
  { intros d g. unfold files_write. destruct (trouble g); [done|]. destruct (entries g !! t) as [[?|?]|]; cbn; try done;
      by rewrite lookup_insert_ne by congruence. }
  pose proof (Hwr (MarshalIndent (enc_instance i)) f) as [W1 W2].
  destruct (files_write t _ f) as [[e|] f1]; cbn in Hw, W1, W2.
  - destruct (Hrm f1) as [R1 R2]. destruct (files_unlink t f1) as [x f2]. simplify_eq. cbn in R1, R2. split; congruence.
  - destruct (Hrn f1) as [N1 N2]. destruct (files_rename t _ f1) as [x f2]. cbn in Hw, N1, N2.
    destruct (Hrm f2) as [R1 R2]. destruct (files_unlink t f2) as [y f3]. simplify_eq. cbn in R1, R2. split; congruence.
Qed.

(** The listeners are those of the process that acts. *)
Lemma only_mine s p pr : inv s → procs s !! p = Some pr → is_Some (lockfd pr) → stage pr ≠ Waiting →
  ∀ i, i ∈ listeners (fs s) ↔ listener pr = Some i.
Proof.
  intros Hi Hp Hl Hw i. split.
  - intros (q & qr & Hq & Hqi)%(i_owned s Hi). destruct (decide (q = p)) as [->|Hne]; [congruence|].
    destruct (alone s p pr Hi Hp Hl Hw q qr Hne Hq) as (_ & Hn & _). congruence.
  - intros Hli. by apply (w_socket _ _ _ (i_well s Hi p pr Hp)).
Qed.

(** A step that changes only the stage, or files it may change. *)
Lemma stage_inv s p pr st f' : inv s → procs s !! p = Some pr → owns (stage pr) = true → owns st = true →
  listening st = listening (stage pr) → listeners f' = listeners (fs s) →
  (listening st = true → entries f' !! SocketPath dir = entries (fs s) !! SocketPath dir) →
  (∀ d, entries f' !! SocketPath dir ≠ Some (Data d)) →
  (st = Serving → ReadInstance dir f' = Ok (advert pr)) →
  inv (put p (at_stage st pr) f' s).
Proof.
  intros Hi Hp Ho Ho' Hls Hlf He Hd Ha. pose proof (i_well s Hi p pr Hp) as W.
  destruct (w_owns _ _ _ W (or_introl Ho)) as [Hl Hc]. assert (stage pr ≠ Waiting) as Hw by (intros Hx; by rewrite Hx in Ho).
  assert (listening st = true ↔ is_Some (listener pr)) as Hlis by (rewrite Hls; apply (w_listens _ _ _ W)).
  apply (put_inv s p pr); try done.
  - cbn. intros ->. done.
  - apply (w_ok _ _ _ W). intros Hx. by rewrite Hx in Ho.
  - intros i. rewrite Hlf. exact (only_mine s p pr Hi Hp Hl Hw i).
  - cbn. intros i Hli. rewrite He by (apply Hlis; by eexists). by apply (w_socket _ _ _ W).
Qed.

(** A process that takes the lock. *)
Lemma lock_inv s p pr o n : inv s → procs s !! p = Some pr → stage pr = Locking →
  (lockfd pr = Some o ∧ flock s = Some o ∨ lockfd pr = None ∧ flock s = None) →
  inv {| procs := <[p := locked_by o pr]> (procs s); flock := Some o; next_ofd := n; fs := fs s |}.
Proof.
  intros Hi Hp Hst Hlock. pose proof (i_well s Hi p pr Hp) as W.
  assert (listener pr = None) as Hln.
  { destruct (listener pr) eqn:Hl; [|done]. assert (listening (stage pr) = true) as Hx by (apply (w_listens _ _ _ W); by rewrite Hl).
    by rewrite Hst in Hx. }
  assert (∀ q qr, q ≠ p → procs s !! q = Some qr → lockfd qr = None ∨ (flock s = Some o ∧ stage qr = Waiting)) as Hoth.
  { intros q qr Hne Hq. destruct (lockfd qr) as [o'|] eqn:Hf; [|by left]. right.
    pose proof (w_fd _ _ _ (i_well s Hi q qr Hq) o' Hf) as Hfl. destruct Hlock as [[Hlp Hfo]|[_ Hfo]]; [|congruence].
    split; [done|]. destruct (i_share s Hi p q pr qr) as [Hw|]; [by apply not_eq_sym|done|done|by eexists|by eexists| |done].
    rewrite Hst in Hw. done. }
  split.
  - intros q qr. cbn [procs]. rewrite lookup_insert_Some. intros [[<- <-]|[Hne Hq]].
    + split; cbn; try done.
      * rewrite Hln. split; [done|by intros [? ?]].
      * intros i. by rewrite Hln.
      * intros _. apply (w_ok _ _ _ W). by rewrite Hst.
    + pose proof (i_well s Hi q qr Hq) as [w1 w2 w3 w4 w5 w6 w7]. split; cbn; try done.
      intros o' Ho'. destruct (Hoth q qr (not_eq_sym Hne) Hq) as [|[Hf _]]; [congruence|]. rewrite <- Hf. by apply w1.
  - intros q1 q2 r1 r2 Hn. cbn [procs]. rewrite !lookup_insert_Some.
    intros [[<- <-]|[H1 Hq1]] [[<- <-]|[H2 Hq2]]; [done|..].
    + intros _ [x Hx]. destruct (Hoth q2 r2 (not_eq_sym H2) Hq2) as [|[_ ?]]; [congruence|by right].
    + intros [x Hx] _. destruct (Hoth q1 r1 (not_eq_sym H1) Hq1) as [|[_ ?]]; [congruence|by left].
    + by apply (i_share s Hi q1 q2).
  - cbn. intros o' [= <-]. exists p, (locked_by o pr). by rewrite lookup_insert_eq.
  - cbn. intros i Hin. destruct (i_owned s Hi i Hin) as (q & qr & Hq & Hqi). exists q, qr. split; [|done].
    rewrite lookup_insert_ne; [done|]. intros <-. congruence.
  - apply (i_sock s Hi).
Qed.

Lemma recover_inv s p pr path next : inv s → procs s !! p = Some pr → owns (stage pr) = true → listening (stage pr) = false →
  owns next = true → listening next = false → next ≠ Serving → inv (recover_step p pr path next s).
Proof.
  intros Hi Hp Ho Hln Hn Hnl Hns. unfold recover_step. cbn. pose proof (unlink_spec path (fs s)) as (Hl & Hq & He).
  assert (∀ d, entries (snd (files_unlink path (fs s))) !! SocketPath dir ≠ Some (Data d)) as Hd.
  { intros d. destruct (decide (SocketPath dir = path)) as [Heq|Hne].
    - rewrite Heq. destruct He as [->| ->]; [done|]. rewrite <- Heq. apply (i_sock s Hi).
    - rewrite Hq by done. apply (i_sock s Hi). }
  assert (inv (put p (at_stage next pr) (snd (files_unlink path (fs s))) s)) as Hput.
  { apply stage_inv; try done; rewrite Hnl; done. }
  destruct (files_unlink path (fs s)) as [[[|e]|] f]; [done|by apply gone_inv|done].
Qed.

Lemma listen_inv s p pr fails : inv s → procs s !! p = Some pr → owns (stage pr) = true → listening (stage pr) = false →
  inv fails → inv (listen_step p pr s fails).
Proof.
  intros Hi Hp Ho Hln Hf. unfold listen_step. cbn. unfold files_listen.
  destruct (trouble (fs s)); [done|]. destruct (entries (fs s) !! SocketPath dir) eqn:He; [done|].
  pose proof (i_well s Hi p pr Hp) as W. destruct (w_owns _ _ _ W (or_introl Ho)) as [Hl Hc].
  assert (stage pr ≠ Waiting) as Hw by (intros Hx; by rewrite Hx in Ho).
  assert (listener pr = None) as Hno.
  { destruct (listener pr) eqn:Hlp; [|done]. assert (listening (stage pr) = true) as Hx by (apply (w_listens _ _ _ W); by rewrite Hlp). congruence. }
  apply (put_inv s p pr); try done; cbn.
  - apply (w_ok _ _ _ W). intros Hx. by rewrite Hx in Ho.
  - intros i. rewrite elem_of_union, elem_of_singleton, (only_mine s p pr Hi Hp Hl Hw i), Hno. naive_solver.
  - intros i [= <-]. by rewrite lookup_insert_eq.
  - intros d. by rewrite lookup_insert_eq.
Qed.

Lemma close_inv s p pr st : inv s → procs s !! p = Some pr → listening (stage pr) = true → owns st = true → listening st = false →
  inv (put p (with_listener st None pr) (close_server pr (fs s)) s).
Proof.
  intros Hi Hp Hls Ho Hnl. pose proof (i_well s Hi p pr Hp) as W.
  assert (owns (stage pr) = true) as Hop by (by destruct (stage pr)).
  destruct (w_owns _ _ _ W (or_introl Hop)) as [Hl Hc]. assert (stage pr ≠ Waiting) as Hw by (intros Hx; by rewrite Hx in Hop).
  assert (stage pr ≠ App) as Ha by (intros Hx; by rewrite Hx in Hop).
  assert (∃ i, listener pr = Some i) as [i Hli] by (by apply (w_listens _ _ _ W) in Hls).
  unfold close_server, Control.Close. cbn. pose proof (unlink_spec (SocketPath dir) (deaf (listener pr) (fs s))) as (Hlf & _ & He).
  destruct (files_unlink (SocketPath dir) (deaf (listener pr) (fs s))) as [r f]. cbn in *.
  apply (put_inv s p pr); try done; cbn.
  - intros ->. done.
  - by apply (w_ok _ _ _ W).
  - rewrite Hnl. split; [done|by intros [? ?]].
  - intros j. rewrite Hlf, Hli, elem_of_difference, elem_of_singleton, (only_mine s p pr Hi Hp Hl Hw j), Hli. naive_solver.
  - intros d. destruct He as [->| ->]; [done|apply (i_sock s Hi)].
  - by intros ->.
Qed.

Lemma probe_inv s p pr next : inv s → procs s !! p = Some pr → owns (stage pr) = true → listening (stage pr) = false →
  owns next = true → listening next = false → next ≠ Serving →
  inv (match SocketProbe (SocketPath dir) (fs s) with None => put p (at_stage next pr) (fs s) s | Some _ => gone p s end).
Proof.
  intros. destruct (SocketProbe _ _); [by apply gone_inv|]. apply stage_inv; try done; [congruence|by apply i_sock].
Qed.

Lemma go_inv s p s' : inv s → go p s = Some s' → inv s'.
Proof.
  intros Hi. unfold go. destruct (procs s !! p) as [pr|] eqn:Hp; [|done]. cbn [mbind option_bind]. pose proof (i_well s Hi p pr Hp) as W.
  destruct (stage pr) eqn:Hst; intros Hs.
  - injection Hs as <-. destruct (told pr).
    + unfold AdoptInstanceLock. destruct (lockfd pr) as [o|] eqn:Hf; [|by apply gone_inv].
      pose proof (w_fd _ _ _ W o Hf) as Hfo. rewrite Hfo, Nat.eqb_refl. unfold put. rewrite Hfo. apply (lock_inv s p pr); auto.
    + unfold AcquireInstanceLock. destruct (trouble (fs s)); [by apply gone_inv|].
      destruct (flock s) eqn:Hfo; [by apply gone_inv|]. apply (lock_inv s p pr); try done. right. split; [|done].
      destruct (lockfd pr) eqn:Hf; [|done]. rewrite (w_fd _ _ _ W _ Hf) in Hfo. done.
  - injection Hs as <-. apply probe_inv; rewrite ?Hst; done.
  - injection Hs as <-. apply recover_inv; rewrite ?Hst; done.
  - injection Hs as <-. apply recover_inv; rewrite ?Hst; done.
  - destruct (decide (role pr = Foreground)); [|done]. injection Hs as <-. apply listen_inv; rewrite ?Hst; try done.
    apply stage_inv; rewrite ?Hst; try done. apply (i_sock s Hi).
  - injection Hs as <-. by apply gone_inv.
  - injection Hs as <-. apply probe_inv; rewrite ?Hst; done.
  - injection Hs as <-. cbn. pose proof (unlink_spec (SocketPath dir) (fs s)) as (Hl & _ & He).
    apply stage_inv; rewrite ?Hst; try done. intros d. destruct He as [->| ->]; [done|apply (i_sock s Hi)].
  - injection Hs as <-. apply listen_inv; rewrite ?Hst; try done. by apply gone_inv.
  - apply (inj Some) in Hs. subst s'. destruct (w_ok _ _ _ W) as (Hv & Ht & Hts & _); [by rewrite Hst|].
    pose proof (WriteInstance_spec (tmp pr) (advert pr) (fs s) Hv Ht Hts) as Hwi.
    destruct (WriteInstance _ _ _ _ _ _) as [[e|] f]; destruct Hwi as (Hl & He & Hr);
      apply stage_inv; rewrite ?Hst, ?He; try done; first [apply (i_sock s Hi)|by intros _; apply Hr].
  - injection Hs as <-. apply gone_inv, close_inv; rewrite ?Hst; done.
  - done.
  - injection Hs as <-. unfold RemoveInstance. cbn. pose proof (unlink_spec (InstancePath dir) (fs s)) as (Hl & Hq & _).
    apply stage_inv; rewrite ?Hst, ?(Hq _ sock_advert); try done. apply (i_sock s Hi).
  - injection Hs as <-. apply close_inv; rewrite ?Hst; done.
  - injection Hs as <-. by apply gone_inv.
  - done.
Qed.

(** A new process, which may have inherited the lock of processes that wait. *)
Lemma add_inv s c cr : inv s → procs s !! c = None → listener cr = None →
  (stage cr = Locking ∧ proc_ok c cr ∨ stage cr = App ∧ lockfd cr = None) →
  (∀ o, lockfd cr = Some o → flock s = Some o ∧ ∀ q qr, procs s !! q = Some qr → is_Some (lockfd qr) → stage qr = Waiting) →
  inv (put c cr (fs s) s).
Proof.
  intros Hi Hc Hln Hst Hlk. split.
  - intros q qr. cbn [put procs]. rewrite lookup_insert_Some. intros [[<- <-]|[_ Hq]]; [|by destruct (i_well s Hi q qr Hq); split].
    split; cbn [put flock fs].
    + intros o Ho. by apply Hlk.
    + destruct Hst as [[-> _]|[-> _]]; by intros [|].
    + by destruct Hst as [[-> _]|[_ ->]].
    + rewrite Hln. destruct Hst as [[-> _]|[-> _]]; (split; [done|by intros [? ?]]).
    + by rewrite Hln.
    + by destruct Hst as [[-> _]|[-> _]].
    + by destruct Hst as [[_ ?]|[-> _]].
  - intros q1 q2 r1 r2 Hn. cbn [put procs]. rewrite !lookup_insert_Some.
    intros [[<- <-]|[H1 Hq1]] [[<- <-]|[H2 Hq2]]; [done|..].
    + intros [o Ho] Hl. right. by apply (proj2 (Hlk o Ho) q2).
    + intros Hl [o Ho]. left. by apply (proj2 (Hlk o Ho) q1).
    + by apply (i_share s Hi q1 q2).
  - cbn. intros o Ho. destruct (i_held s Hi o Ho) as (q & qr & Hq & Hqo). exists q, qr.
    rewrite lookup_insert_ne; [done|]. intros <-. congruence.
  - cbn. intros i Hin. destruct (i_owned s Hi i Hin) as (q & qr & Hq & Hqi). exists q, qr.
    rewrite lookup_insert_ne; [done|]. intros <-. congruence.
  - apply (i_sock s Hi).
Qed.

Lemma fork_inv s p pr c i t : inv s → procs s !! p = Some pr → stage pr = Ready → procs s !! c = None → ev_ok (Fork p c i t) →
  inv (put c (new_proc Locking Foreground true (lockfd pr) false i t) (fs s) (put p (at_stage Waiting pr) (fs s) s)).
Proof.
  intros Hi Hp Hst Hc Hok. pose proof (i_well s Hi p pr Hp) as W.
  destruct (w_owns _ _ _ W) as [Hl Hce]; [left; by rewrite Hst|]. assert (stage pr ≠ Waiting) as Hw by (by rewrite Hst).
  assert (listener pr = None) as Hln.
  { destruct (listener pr) eqn:Hx; [|done]. assert (listening (stage pr) = true) as Hy by (apply (w_listens _ _ _ W); by rewrite Hx).
    by rewrite Hst in Hy. }
  assert (inv (put p (at_stage Waiting pr) (fs s) s)) as Hi1.
  { apply (put_inv s p pr); try done; cbn.
    - apply (w_ok _ _ _ W). by rewrite Hst.
    - rewrite Hln. split; [done|by intros [? ?]].
    - exact (only_mine s p pr Hi Hp Hl Hw).
    - by rewrite Hln.
    - apply (i_sock s Hi). }
  apply (add_inv (put p (at_stage Waiting pr) (fs s) s) c); try done.
  - cbn. rewrite lookup_insert_ne; [done|]. intros ->. congruence.
  - by left.
  - cbn. intros o Ho. split; [by apply (w_fd _ _ _ W)|]. intros q qr. rewrite lookup_insert_Some. intros [[<- <-]|[Hne Hq]]; [done|].
    intros [x Hx]. destruct (alone s p pr Hi Hp Hl Hw q qr (not_eq_sym Hne) Hq) as (_ & _ & [|]); [done|congruence].
Qed.

Lemma trouble_inv s e crowd : inv s → inv {| procs := procs s; flock := flock s; next_ofd := next_ofd s;
  fs := {| entries := entries (fs s); listeners := listeners (fs s); nextId := nextId (fs s); trouble := e; crowded := crowd |} |}.
Proof. intros [i1 i2 i3 i4 i5]. split; try done. intros p pr Hp. by destruct (i1 p pr Hp); split. Qed.

Lemma step_inv s e s' : inv s → ev_ok e → step s e = Some s' → inv s'.
Proof.
  intros Hi Hok. destruct e as [p r l i t|p|p c i t|p a|p|p|e crowd]; cbn [step].
  - destruct (procs s !! p) eqn:Hp; [done|]. intros [= <-]. apply add_inv; try done. by left.
  - by apply go_inv.
  - destruct (procs s !! p) as [pr|] eqn:Hp; [|done]. cbn [mbind option_bind].
    destruct (stage pr) eqn:Hst; try done. destruct (role pr); [done|]. destruct (procs s !! c) eqn:Hc; [done|].
    intros [= <-]. by apply fork_inv.
  - destruct (procs s !! p) as [pr|] eqn:Hp; [|done]. cbn [mbind option_bind].
    destruct (stage pr) eqn:Hst; try done. destruct (procs s !! a) eqn:Ha; [done|]. intros [= <-].
    destruct (w_owns _ _ _ (i_well s Hi p pr Hp)) as [_ ->]; [left; by rewrite Hst|]. apply add_inv; try done. by right.
  - destruct (procs s !! p) as [pr|] eqn:Hp; [|done]. cbn [mbind option_bind].
    destruct (decide (stage pr = Serving)) as [Hst|]; [|done]. intros [= <-].
    apply stage_inv; rewrite ?Hst; try done. apply (i_sock s Hi).
  - destruct (procs s !! p) eqn:Hp; [|done]. intros [= <-]. by apply gone_inv.
  - intros [= <-]. by apply trouble_inv.
Qed.

(** Files nobody listens on, with no ordinary file at the socket's pathname. *)
Definition quiet (f : Files) : Prop := listeners f = ∅ ∧ ∀ d, entries f !! SocketPath dir ≠ Some (Data d).

Lemma boot_inv f : quiet f → inv (boot f).
Proof. intros [Hl Hd]. split; cbn; try done. intros i. rewrite Hl. by intros ?%elem_of_empty. Qed.

Lemma run_inv s es s' : inv s → Forall ev_ok es → run s es = Some s' → inv s'.
Proof.
  revert s. induction es as [|e es IH]; intros s Hi Hok; cbn; [by intros [= <-]|].
  apply Forall_cons in Hok as [He Hok]. destruct (step s e) as [s1|] eqn:Hs; [|done]. cbn. apply IH; [by apply (step_inv s e)|done].
Qed.

Lemma run_app s es es' : run s (es ++ es') = s' ← run s es; run s' es'.
Proof. revert s. induction es as [|e es IH]; intros s; [done|]. cbn. by destruct (step s e); cbn. Qed.

(** ** Coming up *)

(** Nothing is wrong with the files, nobody listens, and [t] is free. *)
Definition fine (t : string) (f : Files) : Prop :=
  trouble f = None ∧ listeners f = ∅ ∧ (∀ d, entries f !! SocketPath dir ≠ Some (Data d)) ∧ entries f !! t = None.

Lemma quiet_probe t f : fine t f → SocketProbe (SocketPath dir) f = None.
Proof.
  intros (Ht & Hl & Hd & _). unfold SocketProbe. cbn. unfold files_dial, files_lstat, files_node. rewrite Ht.
  destruct (entries f !! SocketPath dir) as [[i|d]|] eqn:He; [|by destruct (Hd d)|done].
  by rewrite bool_decide_eq_false_2 by (rewrite Hl; apply not_elem_of_empty).
Qed.

Lemma fine_unlink t p f : fine t f → p = SocketPath dir ∨ p = InstancePath dir → t ≠ p →
  (∃ r, files_unlink p f = (r, snd (files_unlink p f)) ∧ (r = None ∨ r = Some NotExist)) ∧
  fine t (snd (files_unlink p f)) ∧ entries (snd (files_unlink p f)) !! p = None.
Proof.
  intros (Ht & Hl & Hd & He) Hp Htp. unfold files_unlink. rewrite Ht. destruct (entries f !! p) eqn:Hq; cbn.
  - split; [exists None; auto|]. split; [|by rewrite lookup_delete_eq]. split; [done|]. split; [done|]. split.
    + cbn. intros d [_ Hx]%lookup_delete_Some. by apply (Hd d).
    + cbn. by rewrite lookup_delete_ne by congruence.
  - split; [exists (Some NotExist); auto|done].
Qed.

(** With the lock in reach a process recovers the directory and is ready. *)
Lemma to_ready s p pr o : procs s !! p = Some pr → stage pr = Locking → fine (tmp pr) (fs s) → proc_ok p pr →
  (told pr = false ∧ flock s = None ∧ o = next_ofd s ∨ told pr = true ∧ lockfd pr = Some o ∧ flock s = Some o) →
  ∃ s', run s (replicate 4 (Go p)) = Some s' ∧ procs s' = <[p := at_stage Ready (locked_by o pr)]> (procs s) ∧ flock s' = Some o ∧
    (∀ t, t ≠ SocketPath dir → t ≠ InstancePath dir → fine t (fs s) → fine t (fs s')) ∧ entries (fs s') !! SocketPath dir = None.
Proof.
  intros Hp Hst Hf (_ & Hti & Hts & _) Hlock.
  assert (∃ s1, go p s = Some s1 ∧ procs s1 = <[p := locked_by o pr]> (procs s) ∧ flock s1 = Some o ∧ fs s1 = fs s) as (s1 & G1 & P1 & L1 & F1).
  { unfold go. rewrite Hp. cbn [mbind option_bind]. rewrite Hst. destruct Hlock as [(-> & Hfl & ->)|(-> & Hlf & Hfl)]; eexists; (split; [reflexivity|]).
    - unfold AcquireInstanceLock. destruct Hf as [-> _]. by rewrite Hfl.
    - unfold AdoptInstanceLock. rewrite Hlf, Hfl, Nat.eqb_refl. by cbn; rewrite Hfl. }
  assert (procs s1 !! p = Some (locked_by o pr)) as Hp1 by (by rewrite P1, lookup_insert_eq).
  destruct (fine_unlink (tmp pr) (SocketPath dir) (fs s) Hf (or_introl eq_refl) Hts) as ((r & Hu & Hr) & Hf2 & Hs2).
  destruct (fine_unlink (tmp pr) (InstancePath dir) _ Hf2 (or_intror eq_refl) Hti) as ((r' & Hu' & Hr') & Hf3 & _).
  set (f2 := snd (files_unlink (SocketPath dir) (fs s))) in *. set (f3 := snd (files_unlink (InstancePath dir) f2)) in *.
  exists (put p (at_stage Ready (locked_by o pr)) f3 s1). split.
  { cbn [replicate run step]. rewrite G1. cbn [mbind option_bind].
    assert (go p s1 = Some (put p (at_stage Unlinking (locked_by o pr)) (fs s) s1)) as ->.
    { unfold go. rewrite Hp1. cbn [mbind option_bind stage locked_by]. rewrite F1. by rewrite (quiet_probe _ _ Hf). }
    cbn [mbind option_bind].
    assert (go p (put p (at_stage Unlinking (locked_by o pr)) (fs s) s1) = Some (put p (at_stage Unadvertising (locked_by o pr)) f2 s1)) as ->.
    { unfold go, put. cbn [procs]. rewrite lookup_insert_eq. cbn [mbind option_bind stage at_stage]. unfold recover_step. cbn [fs unlink files_Sockets].
      rewrite Hu. destruct Hr as [-> | ->]; unfold put; cbn [procs flock next_ofd]; by rewrite insert_insert_eq. }
    cbn [mbind option_bind].
    assert (go p (put p (at_stage Unadvertising (locked_by o pr)) f2 s1) = Some (put p (at_stage Ready (locked_by o pr)) f3 s1)) as ->.
    { unfold go, put. cbn [procs]. rewrite lookup_insert_eq. cbn [mbind option_bind stage at_stage]. unfold recover_step. cbn [fs unlink files_Sockets].
      rewrite Hu'. destruct Hr' as [-> | ->]; unfold put; cbn [procs flock next_ofd]; by rewrite insert_insert_eq. }
    done. }
  cbn [put procs flock fs]. rewrite P1, insert_insert_eq. split; [done|]. split; [done|]. split.
  - intros t Ht Ht' Hft. destruct (fine_unlink t _ _ Hft (or_introl eq_refl) Ht) as (_ & Hx & _).
    by destruct (fine_unlink t _ _ Hx (or_intror eq_refl) Ht') as (_ & ? & _).
  - unfold f3. destruct (unlink_spec (InstancePath dir) f2) as (_ & Hq & _). rewrite (Hq _ sock_advert). exact Hs2.
Qed.

Lemma WriteInstance_works t i f : trouble f = None → entries f !! t = None → t ≠ InstancePath dir →
  ∃ f', WriteInstance (Ok t) None None dir i f = (None, f').
Proof.
  intros Ht He Hn. unfold WriteInstance. cbn [WriteFile Rename Remove files_FS]. unfold files_write. rewrite Ht, He.
  unfold files_rename. cbn [trouble with_entries entries]. rewrite Ht, lookup_insert_eq.
  destruct (files_unlink t _) as [? f']. by exists f'.
Qed.

(** From there it listens and advertises itself. *)
Lemma to_serving s p pr : inv s → procs s !! p = Some pr → stage pr = Ready → role pr = Foreground → fine (tmp pr) (fs s) →
  entries (fs s) !! SocketPath dir = None →
  ∃ s', run s (replicate 2 (Go p)) = Some s' ∧ ∃ pr', procs s' = <[p := pr']> (procs s) ∧ stage pr' = Serving ∧ advert pr' = advert pr.
Proof.
  intros Hi Hp Hst Hr (Ht & _ & _ & He) Hs. destruct (w_ok _ _ _ (i_well s Hi p pr Hp)) as (Hv & Hti & Hts & _); [by rewrite Hst|].
  cbn [replicate run step]. set (f1 := {| entries := <[SocketPath dir := Socket (nextId (fs s))]> (entries (fs s));
    listeners := {[nextId (fs s)]} ∪ listeners (fs s); nextId := S (nextId (fs s)); trouble := None; crowded := crowded (fs s) |}).
  set (pr1 := with_listener Advertising (Some (nextId (fs s))) pr).
  assert (go p s = Some (put p pr1 f1 s)) as ->.
  { unfold go. rewrite Hp. cbn [mbind option_bind]. rewrite Hst, decide_True by done. unfold listen_step. cbn [listen files_Sockets].
    unfold files_listen. by rewrite Ht, Hs. }
  cbn [mbind option_bind].
  destruct (WriteInstance_works (tmp pr) (advert pr) f1) as [f2 Hw]; [done|by cbn; rewrite lookup_insert_ne by congruence|done|].
  exists (put p (at_stage Serving pr1) f2 s). split.
  - assert (go p (put p pr1 f1 s) = Some (put p (at_stage Serving pr1) f2 s)) as ->; [|done].
    unfold go, put. cbn [procs]. rewrite lookup_insert_eq. cbn [mbind option_bind stage pr1 with_listener tmp advert fs]. rewrite Hw.
    unfold put. cbn [procs flock next_ofd]. by rewrite insert_insert_eq.
  - by exists (at_stage Serving pr1).
Qed.

(** The steps of a process are those of Control. *)
Lemma recovering_is_RecoverState s p pr f : procs s !! p = Some pr → stage pr = Probing → RecoverState dir (fs s) = (None, f) →
  run s (replicate 3 (Go p)) = Some (put p (at_stage Ready pr) f s).
Proof.
  intros Hp Hst Hr. unfold RecoverState in Hr. destruct (SocketProbe (SocketPath dir) (fs s)) eqn:Hpr; [done|]. cbn [remove_all] in Hr.
  destruct (unlink (SocketPath dir) (fs s)) as [r1 f1] eqn:H1.
  destruct (unlink (InstancePath dir) f1) as [r2 f2] eqn:H2.
  assert (f2 = f ∧ (r1 = None ∨ r1 = Some NotExist) ∧ (r2 = None ∨ r2 = Some NotExist)) as (-> & Hr1 & Hr2).
  { destruct r1 as [[|e]|]; try done; rewrite ?H2 in Hr; destruct r2 as [[|e']|]; try done; injection Hr as ->; auto. }
  clear Hr. cbn [replicate run step].
  assert (go p s = Some (put p (at_stage Unlinking pr) (fs s) s)) as ->.
  { unfold go. rewrite Hp. cbn [mbind option_bind]. by rewrite Hst, Hpr. }
  cbn [mbind option_bind].
  assert (go p (put p (at_stage Unlinking pr) (fs s) s) = Some (put p (at_stage Unadvertising pr) f1 s)) as ->.
  { unfold go, put. cbn [procs]. rewrite lookup_insert_eq. cbn [mbind option_bind stage at_stage]. unfold recover_step. cbn [fs]. rewrite H1.
    destruct Hr1 as [-> | ->]; unfold put; cbn [procs flock next_ofd]; by rewrite insert_insert_eq. }
  cbn [mbind option_bind].
  assert (go p (put p (at_stage Unadvertising pr) f1 s) = Some (put p (at_stage Ready pr) f s)) as ->; [|done].
  unfold go, put. cbn [procs]. rewrite lookup_insert_eq. cbn [mbind option_bind stage at_stage]. unfold recover_step. cbn [fs]. rewrite H2.
  destruct Hr2 as [-> | ->]; unfold put; cbn [procs flock next_ofd]; by rewrite insert_insert_eq.
Qed.

(** ** One instance *)

Definition serving (p : Z) (i : Instance_) (s : Sys) : Prop := ∃ pr, procs s !! p = Some pr ∧ stage pr = Serving ∧ advert pr = i.

(** C4: There is one instance, and what it has published is its own.  However
    many processes are started, detached, halted and killed, in every
    interleaving of their steps, whatever calls fail and whatever is launched
    and outlives its instance: at most one process is past the lock and acts on
    the directory; and as long as an instance serves, the socket's pathname is
    a live socket, namely the one this process listens on, and who reads the
    advertisement finds exactly what this process has written, with its
    number.  The directory is one where nobody listens and the socket's
    pathname is no regular file ([quiet]); an advertisement has its process's
    number and can be written as JSON, and temporary files are neither of the
    two pathnames ([ev_ok]); nobody else touches the directory. *)
Theorem one_instance (f : Files) (es : list Event) (s : Sys) :
  quiet f → Forall ev_ok es → run (boot f) es = Some s →
  (∀ p q pr qr, procs s !! p = Some pr → procs s !! q = Some qr → owns (stage pr) = true → owns (stage qr) = true → p = q) ∧
  (∀ p pr, procs s !! p = Some pr → stage pr = Serving →
     node (SocketPath dir) (fs s) = LiveSocket ∧
     (∃ n, listener pr = Some n ∧ entries (fs s) !! SocketPath dir = Some (Socket n)) ∧
     ReadInstance dir (fs s) = Ok (advert pr) ∧ i_PID (advert pr) = p).
Proof.
  intros Hq Hok Hr. pose proof (run_inv _ _ _ (boot_inv f Hq) Hok Hr) as Hi. split.
  - intros p q pr qr Hp Hqr Hop Hoq. destruct (decide (q = p)) as [|Hne]; [done|].
    destruct (w_owns _ _ _ (i_well s Hi p pr Hp) (or_introl Hop)) as [Hl _].
    destruct (alone s p pr Hi Hp Hl ltac:(by intros Hx; rewrite Hx in Hop) q qr Hne Hqr) as (Ho & _). congruence.
  - intros p pr Hp Hst. pose proof (i_well s Hi p pr Hp) as W.
    assert (∃ n, listener pr = Some n) as [n Hn] by (apply (w_listens _ _ _ W); by rewrite Hst).
    destruct (w_socket _ _ _ W n Hn) as [Hin He]. split.
    { cbn. unfold files_node. rewrite He. by apply (bool_decide_eq_true_2 _) in Hin as ->. }
    split; [by exists n|]. split; [by apply (w_advert _ _ _ W)|]. apply (w_ok _ _ _ W). by rewrite Hst.
Qed.

(** C5: A crash never keeps the next instance from starting.  Whatever
    happened before, once no process of the program is left, applications that
    an instance has launched apart, and as long as no call fails: a process
    that is started serves after its six steps; and one that is told to detach
    is ready after four, the process it then starts takes over its lock and
    serves after six, and goes on serving when its parent has ended. *)
Theorem a_crash_never_blocks (f : Files) (es : list Event) (s : Sys) (p : Z) (i : Instance_) (t : string) :
  quiet f → Forall ev_ok es → run (boot f) es = Some s →
  (∀ q qr, procs s !! q = Some qr → stage qr = App) → trouble (fs s) = None → procs s !! p = None →
  ev_ok (Exec p Foreground false i t) → entries (fs s) !! t = None →
  (∃ s', run s (Exec p Foreground false i t :: replicate 6 (Go p)) = Some s' ∧ serving p i s') ∧
  (∀ c j u, c ≠ p → procs s !! c = None → ev_ok (Fork p c j u) → entries (fs s) !! u = None →
     ∃ s', run s (Exec p Detaching false i t :: replicate 4 (Go p) ++ Fork p c j u :: replicate 6 (Go c) ++ [Go p]) = Some s' ∧
           serving c j s' ∧ procs s' !! p = None).
Proof.
  intros Hq Hok Hr Happ Htr Hp Hev Hft. pose proof (run_inv _ _ _ (boot_inv f Hq) Hok Hr) as Hi. clear Hr Hok.
  assert (flock s = None) as Hfl.
  { destruct (flock s) as [o|] eqn:Ho; [|done]. destruct (i_held s Hi o Ho) as (q & qr & Hqr & Hl).
    rewrite (w_app _ _ _ (i_well s Hi q qr Hqr) (Happ q qr Hqr)) in Hl. done. }
  assert (listeners (fs s) = ∅) as Hls.
  { apply set_eq. intros n. split; [|by intros ?%elem_of_empty]. intros (q & qr & Hqr & Hl)%(i_owned s Hi).
    assert (listening (stage qr) = true) as Hx by (apply (w_listens _ _ _ (i_well s Hi q qr Hqr)); by rewrite Hl).
    by rewrite (Happ q qr Hqr) in Hx. }
  assert (∀ u, entries (fs s) !! u = None → fine u (fs s)) as Hfine by (intros u Hu; split_and!; try done; apply (i_sock s Hi)).
  assert (∀ r, step s (Exec p r false i t) = Some (put p (new_proc Locking r false None true i t) (fs s) s)) as Hexec
    by (intros r; cbn [step]; by rewrite Hp).
  assert (∀ r, ∃ s1, run s (Exec p r false i t :: replicate 4 (Go p)) = Some s1 ∧ inv s1 ∧
    procs s1 = <[p := at_stage Ready (locked_by (next_ofd s) (new_proc Locking r false None true i t))]> (procs s) ∧
    flock s1 = Some (next_ofd s) ∧ (∀ u, u ≠ SocketPath dir → u ≠ InstancePath dir → fine u (fs s) → fine u (fs s1)) ∧
    entries (fs s1) !! SocketPath dir = None) as Hready.
  { intros r. destruct (to_ready (put p (new_proc Locking r false None true i t) (fs s) s) p (new_proc Locking r false None true i t) (next_ofd s))
      as (s1 & R1 & P1 & L1 & F1 & S1); [by cbn; rewrite lookup_insert_eq|done|by apply Hfine|exact Hev|by left|].
    exists s1. assert (run s (Exec p r false i t :: replicate 4 (Go p)) = Some s1) as Hrun by (cbn [run]; rewrite Hexec; exact R1).
    split; [done|]. split; [apply (run_inv s (Exec p r false i t :: replicate 4 (Go p)) s1 Hi); [constructor; [exact Hev|by repeat constructor]|exact Hrun]|].
    split; [|done]. rewrite P1. cbn [put procs]. by rewrite insert_insert_eq. }
  destruct Hev as (Hv & Hti & Hts & Hpid). split.
  - destruct (Hready Foreground) as (s1 & R1 & Hi1 & P1 & _ & F1 & S1).
    pose proof (lookup_insert_eq (procs s) p (at_stage Ready (locked_by (next_ofd s) (new_proc Locking Foreground false None true i t)))) as Hs1.
    rewrite <- P1 in Hs1.
    destruct (to_serving s1 p _ Hi1 Hs1) as (s2 & R2 & pr2 & P2 & Hst & Ha); [done|done|by apply F1, Hfine|exact S1|].
    exists s2. split.
    + change (Exec p Foreground false i t :: replicate 6 (Go p)) with ((Exec p Foreground false i t :: replicate 4 (Go p)) ++ replicate 2 (Go p)).
      rewrite run_app, R1. exact R2.
    + exists pr2. by rewrite P2, lookup_insert_eq.
  - intros c j u Hcp Hc Hevc Hfu. destruct (Hready Detaching) as (s1 & R1 & Hi1 & P1 & L1 & F1 & S1).
    pose proof Hevc as (Hvj & Huj & Huj' & _).
    set (pw := at_stage Waiting (at_stage Ready (locked_by (next_ofd s) (new_proc Locking Detaching false None true i t)))).
    set (cr := new_proc Locking Foreground true (Some (next_ofd s)) false j u).
    set (s2 := put c cr (fs s1) (put p pw (fs s1) s1)).
    assert (step s1 (Fork p c j u) = Some s2) as Hfork.
    { cbn [step]. rewrite P1, lookup_insert_eq. cbn [mbind option_bind stage role at_stage locked_by new_proc].
      by rewrite lookup_insert_ne, Hc by congruence. }
    pose proof (step_inv s1 _ s2 Hi1 Hevc Hfork) as Hi2.
    destruct (to_ready s2 c cr (next_ofd s)) as (s3 & R3 & P3 & L3 & F3 & S3);
      [by cbn; rewrite lookup_insert_eq|done|by apply F1, Hfine|exact Hevc|by right|].
    assert (inv s3) as Hi3 by (apply (run_inv s2 (replicate 4 (Go c)) s3 Hi2); [by repeat constructor|exact R3]).
    pose proof (lookup_insert_eq (procs s2) c (at_stage Ready (locked_by (next_ofd s) cr))) as Hs3. rewrite <- P3 in Hs3.
    destruct (to_serving s3 c _ Hi3 Hs3) as (s4 & R4 & pr4 & P4 & Hst4 & Ha4);
      [done|done|by apply F3, F1, Hfine|exact S3|].
    exists (gone p s4). assert (procs s4 !! p = Some pw) as Hp4.
    { rewrite P4, P3, !lookup_insert_ne by done. cbn [s2 put procs]. rewrite lookup_insert_ne by done. by rewrite lookup_insert_eq. }
    split.
    + change (Exec p Detaching false i t :: replicate 4 (Go p) ++ Fork p c j u :: replicate 6 (Go c) ++ [Go p])
        with ((Exec p Detaching false i t :: replicate 4 (Go p)) ++ [Fork p c j u] ++ replicate 4 (Go c) ++ replicate 2 (Go c) ++ [Go p]).
      rewrite run_app, R1. cbn [mbind option_bind]. rewrite run_app. cbn [run]. rewrite Hfork. cbn [mbind option_bind].
      rewrite run_app, R3. cbn [mbind option_bind]. rewrite run_app, R4. cbn [mbind option_bind run step]. unfold go.
      rewrite Hp4. done.
    + split; [|cbn; by rewrite lookup_delete_eq]. exists pr4. cbn [gone procs]. rewrite lookup_delete_ne by done.
      by rewrite P4, lookup_insert_eq.
Qed.
End dir.

(** ** A run *)

Definition ex_advert (p : Z) : Instance_ := mk_instance p "proxy" "/log" "/d/control.sock" "" "" "2025-01-01T00:00:00Z".
Definition no_files : Files := {| entries := ∅; listeners := ∅; nextId := 0; trouble := None; crowded := false |}.

(** Two processes race; the first serves, launches an application and is
    killed, while the application lives on. *)
Definition crash : list Event :=
  [Exec 1 Foreground false (ex_advert 1) "/d/.1"; Exec 2 Foreground false (ex_advert 2) "/d/.2"; Go 1; Go 2] ++ replicate 5 (Go 1) ++
  [Launch 1 9; Trouble None true; Kill 1; Trouble None false].
Definition crashed : Sys := default (boot no_files) (run "/d" (boot no_files) crash).
Definition taken_over : Sys :=
  default (boot no_files) (run "/d" crashed (Exec 3 Foreground false (ex_advert 3) "/d/.3" :: replicate 6 (Go 3))).

Lemma ex_ok p t : is_Some (in_int64 p) → t ≠ "/d/instance.json" → t ≠ "/d/control.sock" →
  ev_ok "/d" (Exec p Foreground false (ex_advert p) t).
Proof. intros Hp Ht Ht'. split_and!; try done. split; [done|]. by repeat constructor. Qed.
Lemma no_files_quiet : quiet "/d" no_files.
Proof. split; [done|]. intros d. cbn. by rewrite lookup_empty. Qed.
Lemma gos_ok p n : Forall (ev_ok "/d") (replicate n (Go p)).
Proof. apply Forall_replicate. exact I. Qed.
Lemma exec_ok p t n : is_Some (in_int64 p) → t ≠ "/d/instance.json" → t ≠ "/d/control.sock" →
  Forall (ev_ok "/d") (Exec p Foreground false (ex_advert p) t :: replicate n (Go p)).
Proof. intros. apply Forall_cons. split; [by apply ex_ok|apply gos_ok]. Qed.
Lemma crash_ok : Forall (ev_ok "/d") crash.
Proof.
  unfold crash. rewrite !Forall_app. split_and!; [|apply gos_ok|by repeat constructor].
  apply (Forall_cons (ev_ok "/d")). split; [apply ex_ok; [vm_compute; by eexists|done|done]|].
  apply (Forall_cons (ev_ok "/d")). split; [apply ex_ok; [vm_compute; by eexists|done|done]|]. repeat constructor.
Qed.

Lemma one_instance_witness :
  run "/d" (boot no_files) (crash ++ Exec 3 Foreground false (ex_advert 3) "/d/.3" :: replicate 6 (Go 3)) = Some taken_over ∧
  node (SocketPath "/d") (fs taken_over) = LiveSocket ∧ ReadInstance "/d" (fs taken_over) = Ok (ex_advert 3).
Proof.
  assert (run "/d" (boot no_files) (crash ++ Exec 3 Foreground false (ex_advert 3) "/d/.3" :: replicate 6 (Go 3)) = Some taken_over) as Hr
    by (vm_compute; reflexivity).
  split; [exact Hr|].
  destruct (one_instance "/d" no_files (crash ++ Exec 3 Foreground false (ex_advert 3) "/d/.3" :: replicate 6 (Go 3)) taken_over no_files_quiet) as [_ H].
  - apply Forall_app. split; [exact crash_ok|]. apply exec_ok; [vm_compute; by eexists|done|done].
  - exact Hr.
  - assert (∃ pr, procs taken_over !! 3%Z = Some pr ∧ stage pr = Serving ∧ advert pr = ex_advert 3) as (pr & Hp & Hst & Ha)
      by (vm_compute; eexists; split; [reflexivity|by split]).
    destruct (H 3%Z pr Hp Hst) as (Hn & _ & Hread & _). split; [exact Hn|]. rewrite Hread. by rewrite Ha.
Defined.

Lemma a_crash_never_blocks_witness :
  ∃ s', run "/d" crashed (Exec 3 Foreground false (ex_advert 3) "/d/.3" :: replicate 6 (Go 3)) = Some s' ∧ serving 3 (ex_advert 3) s'.
Proof.
  refine (proj1 (a_crash_never_blocks "/d" no_files crash crashed 3 (ex_advert 3) "/d/.3" _ _ _ _ _ _ _ _)).
  - exact no_files_quiet.
  - exact crash_ok.
  - vm_compute. reflexivity.
  - assert (map_to_list (procs crashed) = [(9%Z, new_proc App Foreground false None true (ex_advert 1) "")]) as Hm by (vm_compute; reflexivity).
    intros q qr Hq%elem_of_map_to_list. rewrite Hm in Hq. apply list_elem_of_singleton in Hq. by injection Hq as _ ->.
  - reflexivity.
  - reflexivity.
  - apply ex_ok; [vm_compute; by eexists|done|done].
  - reflexivity.
Defined.
End Lifetime.
